(* ===== verification/_CoqProject ===== *)
-Q . S2P
Prelude.v
Memory.v
Sync.v
Interfaces.v
Heap.v
HeapRegion.v
HeapChunks.v
HeapInv.v
HeapLists.v
HeapOps.v
HeapSpec.v
HeapFree.v
HeapMalloc.v
HeapTop.v
HeapCheck.v
HeapRuns.v
HeapProvider.v
BootMem.v
FrameAllocator.v
Paging.v
PagingInv.v
PagingTop.v
PagingCreate.v
PagingRuns.v
Vmm.v
VmmInv.v
VmmCut.v
VmmMap.v
VmmOps.v
VmmTop.v
VmmFault.v
VmmInit.v
VmmLoad.v
VmmFree.v
VmmRuns.v
LinkedList.v
CircularBuffer.v
Shootdown.v
ShootdownInv.v
ShootdownTop.v
StructRuns.v
Elf.v
Bus.v
Acpi.v
Madt.v
Apic.v
ApicTop.v
ApicInit.v
Ioapic.v
Pic.v
Interrupts.v
Pit.v
KernelData.v
DriverRuns.v
Cpu.v
CpuTop.v
Display.v
Psf.v
PsfTop.v
Vbe.v
Kio.v
KioScreen.v
KioText.v
KioTop.v
KioVbe.v
KioRuns.v
Fat32.v
Fat32Top.v
Fat32Volume.v
Fat32Runs.v
Mbr.v
Panic.v
Report.v
Mp.v
MpTop.v
MpRuns.v
Kinit.v
KinitTop.v
Kmain.v
KinitRuns.v
