(* ===== verification/Prelude.v ===== *)
(** * Verification of the GarbageOS kernel

    GarbageOS (src/kernel) is a small multiprocessor kernel for x86-64 written in
    C.  This library models its code as executable Gallina and proves what the
    components promise.

    ** The program and its models

    The kernel boots from a memory map of the BIOS, builds a frame allocator over
    the usable ranges, page tables, a virtual memory manager that hands out
    regions of the kernel half of the address space, and a heap inside of one such
    region.  Above them are the ACPI tables, the interrupt controllers, the timer,
    the tables of the processors, the registry of the processors and the shootdown
    of stale translations on the other processors; a console draws text on the
    frame buffer.  kinit starts the components in order; kmain reports on them and
    starts the other processors.

    - [Prelude] (this file): machine integers, outcomes, the state and error monad,
      lenses, tactics, generic lemmas.  [kpanic] and [KASSERT] of kdefs.h are the
      outcome [Panic].
    - [Memory]: bytes, little-endian accesses, [memset] and [memcpy] of
      HAL/x86-64/cpu_instructions.c.
    - [Sync]: util/sync_types.c, and the interleavings of the hard spinlock.
    - [Interfaces]: what the components ask of each other, as classes: regions
      ([VMemProvider]), frames ([FrameProvider]), heap ([HeapProvider]), shootdown
      ([ShootdownProvider]), the return of frames ([FrameReturn]), each with its
      laws.  Theorems of a client are proved against the classes.
    - [Heap] (mem/heap.c) with [HeapChunks], [HeapInv], [HeapLists], [HeapOps],
      [HeapSpec], [HeapFree], [HeapMalloc], [HeapTop], [HeapCheck]: layout of the
      chunks, invariant, refinement of an abstract allocator.  [HeapProvider] shows
      that the heap is an instance of its interface; [HeapRegion] and [HeapRuns]
      run it on a concrete region.
    - [BootMem]: HAL/bios/bootloader_data.c.  [FrameAllocator]:
      mem/frame_allocator.c.
    - [Paging], [PagingInv], [PagingTop], [PagingRuns]: HAL/x86-64/x64-memory.c.
    - [Vmm] (mem/vmm.c) with [VmmInv], [VmmCut], [VmmMap], [VmmOps], [VmmTop],
      [VmmFault], [VmmInit], [VmmLoad], [VmmFree], [VmmRuns]: the list of
      regions, its invariant, allocation, expansion, release, identity maps, page
      faults.
    - [LinkedList]: util/linked_list.c.  [CircularBuffer]:
      util/circular_buffer.c.
    - [Shootdown] (mem/vaddr_cache_shootdown.c) with [ShootdownInv],
      [ShootdownTop], with runs of it and of the list in [StructRuns].
    - [Elf]: elf.c.
    - [Bus]: ports and registers as a log of events, a device that answers reads.
    - [Acpi]: acpi/acpi.c and HAL/bios/acpi.c.  [Madt]: acpi/madt.c.
    - [Apic], [ApicTop], [ApicInit]: interrupt/apic.c.  [Ioapic]:
      interrupt/ioapic.c.  [Pic]: interrupt/pic.c.  [Interrupts]:
      interrupt/interrupts.c.  [Pit]: timer/pit.c.  [KernelData]: kernel_data.c.
      [DriverRuns] is a concrete machine on which their theorems are instantiated.
    - [Cpu], [CpuTop]: HAL/x86-64/cpu.c, gdt.c, idt.c, tss.c, init.c.
    - [Display]: display_interface.c.  [Psf], [PsfTop]: psf.c.  [Vbe]:
      HAL/bios/vbe.c.  [Kio] (kio.c) with [KioScreen], [KioText], [KioTop],
      [KioVbe]: the console, its picture, its formats, the abstract terminal it
      refines and the frame buffer it reaches; [KioRuns] runs it.
    - [Fat32], [Fat32Top], [Fat32Volume], [Fat32Runs]: tools/fat32_maker.cpp, the
      tool that formats the boot volume.  [Mbr]: tools/mbr_maker.cpp.
    - [Panic]: HAL/x86-64/kpanic.c, interrupt_savedcontext.c,
      runtime/ssp_support.c and the handlers of kmain.c.
    - [Report]: the functions of mem/vmm.c, interrupt/apic.c, interrupt/ioapic.c,
      acpi/acpi.c and kmain.c that print, with a small logic of what a computation
      writes on the console.
    - [Mp] (mp/mp_initialization.c, HAL/bios/mp_init_bin.c) over an interface of
      the components it calls, [MpTop] (the trampoline, the wait for the
      other processors and what each of them does), [MpRuns] (a board of three
      processors).
    - [Kinit], [KinitTop], [KinitRuns]: setup_virtual_memory of kinit.c, over
      [Vmm], [Paging], [BootMem] and [Elf]; [PagingCreate] (new paging
      structures), [VmmLoad] (mapping given frames) and [VmmInit] (descriptors
      taken before the heap is ready) are its lemmas.
    - [Kmain]: kmain of kmain.c up to the start of the other processors, over the
      models of the components it calls; it runs in [KinitRuns].
    ** How code becomes definitions

    A C function is a definition with the same name in the monad [M S]: from a
    state it gives [Ok] with a value and a new state, [Panic] with the error code,
    [Fault] (a wild access), [Hang] (a lock the processor holds already) or
    [OutOfFuel].  The state of a component is a record of its globals; a component
    that calls another keeps the state of that one in a field and reaches it
    through a lens.  Unsigned integers are [Z] with an explicit [wrap].  Structures
    that live in memory at addresses the code computes (chunks of the heap, page
    tables, firmware tables, ELF images) are bytes of a [mem]; arrays and nodes
    that are only reached through their owner are lists and maps.

    ** What the theorems show

    Every operation of the heap, the frame allocator, the page tables and the
    virtual memory manager keeps the invariant of its component and has the stated
    effect, and everything else of the state is unchanged; the error branches are
    stated as panics.  The heap refines an abstract allocator, the linked list, the
    circular buffer and the registry refine lists, the firmware readers equal
    filters over the tables.  The drivers are described by the exact events they
    send.  Where the code departs from its purpose the theorem states what the code
    does.

    ** Bounds and fuel

    Loops of the code that are bounded by a count run on that count.  Loops over
    chains take fuel: the chains are of the invariant, and the theorems show that
    the fuel in the definition (the number of nodes, of chunks, of table bytes) is
    enough.  The waiting loops (delivery of an interrupt, ticks of the timer,
    completion of a shootdown) have theorems that the result is reached with enough
    fuel under a stated assumption on the hardware.

    ** Not modelled

    The assembly (boot loader, interrupt entry, trampoline of the other
    processors), the tests, kinit as the list of calls it is, and kmain from
    the start of the other processors on, where their lines interleave with its
    own.  The functions that only print are in [Report]; the page fault handler
    and the I/O APIC driver record the texts they print on the way.  Debug messages
    behind the options of kdefs.h, which are off, are left out.  Processors
    interleave in [Sync] and [ShootdownTop]; everywhere else a function runs alone,
    its critical sections protected by the lock it takes, and what interrupts do
    while it waits is a parameter ([Pit.halt]).  The model of start-up says nothing
    of the delivery of the start-up interrupts. *)

From Stdlib Require Export ZArith Lia.
From stdpp Require Export gmap.
From stdpp Require Export prelude.

#[global] Open Scope Z_scope.
#[export] Set Warnings "-clear-no-such-hyp".

(** [lia] also decides goals with [/] and [mod] by a constant. *)
Ltac Zify.zify_post_hook ::= Z.to_euclidean_division_equations.

(** ** Machine integers

    An unsigned [w]-bit C integer is a [Z] kept in [0, 2^w); every operation
    that can leave the range is followed by an explicit wrap. *)

Definition wrap (w x : Z) : Z := x mod 2 ^ w.
Abbreviation wrap8 := (wrap 8).
Abbreviation wrap16 := (wrap 16).
Abbreviation wrap32 := (wrap 32).
Abbreviation wrap64 := (wrap 64).

(** Two's complement reading of a 64-bit pattern ([int64_t]). *)
Definition to_i64 (x : Z) : Z :=
  if wrap64 x <? 2 ^ 63 then wrap64 x else wrap64 x - 2 ^ 64.

Definition NULL : Z := 0.

Lemma wrap_range w x : 0 <= w -> 0 <= wrap w x < 2 ^ w.
Proof. intros. unfold wrap. apply Z.mod_pos_bound. lia. Qed.

Lemma wrap_small w x : 0 <= x < 2 ^ w -> wrap w x = x.
Proof. intros. unfold wrap. by apply Z.mod_small. Qed.

Lemma wrap64_small x : 0 <= x < 2 ^ 64 -> wrap64 x = x.
Proof. apply wrap_small. Qed.

Lemma to_i64_small x : - 2 ^ 63 <= x < 2 ^ 63 -> to_i64 x = x.
Proof.
  intros H. unfold to_i64, wrap.
  destruct (decide (0 <= x)).
  - rewrite Z.mod_small by lia. by destruct (Z.ltb_spec x (2 ^ 63)); [|lia].
  - assert (x mod 2 ^ 64 = x + 2 ^ 64) as ->.
    { rewrite <-(Z_mod_plus_full x 1 (2 ^ 64)), Z.mul_1_l.
      apply Z.mod_small. lia. }
    destruct (Z.ltb_spec (x + 2 ^ 64) (2 ^ 63)); lia.
Qed.

(** ** Outcomes of kernel code

    [kpanic] never returns: it prints the code and halts the processor in a
    loop, so a panic is a result of its own.  [Fault] is the processor
    exception raised by a wild access (a NULL dereference, an index outside a
    table); [Hang] is a loop that waits for something the running thread can
    never observe (a spinlock it already holds); [OutOfFuel] is the model's own
    bound on a loop and never a behaviour of the code: the theorems that state
    a result exclude it. *)
Inductive outcome (A : Type) : Type :=
| Ok (a : A)
| Panic (code : Z)
| Fault
| Hang
| OutOfFuel.
Arguments Ok {A} a.
Arguments Panic {A} code.
Arguments Fault {A}.
Arguments Hang {A}.
Arguments OutOfFuel {A}.

(** The codes of [enum ErrorCodes] in kdefs.h. *)
Definition FRAME_ALLOCATOR_ERROR : Z := 1.
Definition VBE_ERROR : Z := 2.
Definition FREE_MEM_BOOTLOADER_ERROR : Z := 3.
Definition KIO_ERROR : Z := 4.
Definition FAILED_ASSERT : Z := 5.
Definition STACK_SMASHING : Z := 6.
Definition UNRECOVERABLE_GPF : Z := 7.
Definition UNRECOVERABLE_PAGE_FAULT : Z := 8.
Definition HEAP_OUT_OF_MEM : Z := 9.
Definition HEAP_CORRUPTED : Z := 10.
Definition NOT_IMPLEMENTED_ERROR : Z := 11.
Definition VMM_ERROR : Z := 12.
Definition APIC_ERROR : Z := 13.
Definition GENERIC_ERROR : Z := 14.

Definition KB : Z := 1024.
Definition MB : Z := 1024 * 1024.
Definition GB : Z := MB * KB.
Definition TB : Z := GB * KB.
Definition PAGE_SIZE : Z := 4096.

(** ** The state and panic monad *)

Definition M (S A : Type) : Type := S -> outcome (A * S).

Definition ret {S A} (a : A) : M S A := fun s => Ok (a, s).
Definition bind {S A B} (m : M S A) (k : A -> M S B) : M S B := fun s =>
  match m s with
  | Ok (a, s') => k a s'
  | Panic c => Panic c
  | Fault => Fault
  | Hang => Hang
  | OutOfFuel => OutOfFuel
  end.
Definition get {S} : M S S := fun s => Ok (s, s).
Definition gets {S A} (f : S -> A) : M S A := fun s => Ok (f s, s).
Definition modify {S} (f : S -> S) : M S unit := fun s => Ok (tt, f s).
Definition kpanic {S A} (code : Z) : M S A := fun _ => Panic code.
Definition fault {S A} : M S A := fun _ => Fault.
Definition hang {S A} : M S A := fun _ => Hang.
Definition out_of_fuel {S A} : M S A := fun _ => OutOfFuel.

(** [KASSERT(x)] of kdefs.h: panic with [FAILED_ASSERT] unless [x]. *)
Definition KASSERT {S} (b : bool) : M S unit :=
  if b then ret tt else kpanic FAILED_ASSERT.

Definition when {S} (b : bool) (m : M S unit) : M S unit :=
  if b then m else ret tt.

Declare Scope kernel_scope.
Delimit Scope kernel_scope with kernel.
Notation "x <- c ;; k" := (bind c (fun x => k))
  (at level 100, c at next level, right associativity) : kernel_scope.
Notation "' p <- c ;; k" := (bind c (fun x => match x with p => k end))
  (at level 20, p pattern, c at level 100, k at level 200) : kernel_scope.
Notation "c ;; k" := (bind c (fun _ => k))
  (at level 100, k at level 200, right associativity) : kernel_scope.
#[global] Open Scope kernel_scope.

(** Access to a part of a larger state. *)
Record lens (S T : Type) : Type := Lens {
  view : S -> T;
  put : T -> S -> S
}.
Arguments Lens {S T} view put.
Arguments view {S T} l s.
Arguments put {S T} l t s.

Class LensLaws {S T} (L : lens S T) : Prop := {
  view_put : forall t s, view L (put L t s) = t;
  put_view : forall s, put L (view L s) s = s;
  put_put : forall t t' s, put L t (put L t' s) = put L t s
}.

Definition zoom {S T A} (L : lens S T) (m : M T A) : M S A := fun s =>
  match m (view L s) with
  | Ok (a, t) => Ok (a, put L t s)
  | Panic c => Panic c
  | Fault => Fault
  | Hang => Hang
  | OutOfFuel => OutOfFuel
  end.

(** ** Total-correctness triples

    [wp m s Q]: running [m] from [s] returns normally, and the value and the
    final state satisfy [Q].  Panics, faults, hangs and exhausted fuel all
    refute it. *)
Definition wp {S A} (m : M S A) (s : S) (Q : A -> S -> Prop) : Prop :=
  match m s with Ok (a, s') => Q a s' | _ => False end.

Section wp_rules.
Context {S : Type}.

Lemma wp_ret {A} (a : A) (s : S) (Q : A -> S -> Prop) : Q a s -> wp (ret a) s Q.
Proof. done. Qed.

Lemma wp_bind {A B} (m : M S A) (k : A -> M S B) s Q :
  wp m s (fun a s' => wp (k a) s' Q) -> wp (bind m k) s Q.
Proof. unfold wp, bind. by destruct (m s) as [[a s']| | | |]. Qed.

Lemma wp_gets {A} (f : S -> A) s (Q : A -> S -> Prop) : Q (f s) s -> wp (gets f) s Q.
Proof. done. Qed.

Lemma wp_get s (Q : S -> S -> Prop) : Q s s -> wp get s Q.
Proof. done. Qed.

Lemma wp_modify (f : S -> S) s (Q : unit -> S -> Prop) : Q tt (f s) -> wp (modify f) s Q.
Proof. done. Qed.

Lemma wp_KASSERT (b : bool) s (Q : unit -> S -> Prop) :
  b = true -> Q tt s -> wp (KASSERT b) s Q.
Proof. by intros ->. Qed.

Lemma wp_mono {A} (m : M S A) s (P Q : A -> S -> Prop) :
  wp m s P -> (forall a s', P a s' -> Q a s') -> wp m s Q.
Proof. unfold wp. destruct (m s) as [[a s']| | | |]; naive_solver. Qed.

Lemma wp_run {A} (m : M S A) s (Q : A -> S -> Prop) :
  wp m s Q -> exists a s', m s = Ok (a, s') /\ Q a s'.
Proof. unfold wp. destruct (m s) as [[a s']| | | |]; naive_solver. Qed.

Lemma wp_of_run {A} (m : M S A) s a s' (Q : A -> S -> Prop) :
  m s = Ok (a, s') -> Q a s' -> wp m s Q.
Proof. unfold wp. by intros ->. Qed.

Lemma wp_zoom {T A} (L : lens S T) (m : M T A) s (Q : A -> S -> Prop) :
  wp m (view L s) (fun a t => Q a (put L t s)) -> wp (zoom L m) s Q.
Proof. unfold wp, zoom. by destruct (m (view L s)) as [[a t]| | | |]. Qed.

Lemma bind_ok {A B} (m : M S A) (k : A -> M S B) s a s' :
  m s = Ok (a, s') -> bind m k s = k a s'.
Proof. unfold bind. by intros ->. Qed.

Lemma KASSERT_ok (b : bool) (s : S) : b = true -> KASSERT b s = Ok (tt, s).
Proof. by intros ->. Qed.

Lemma bind_assoc {A B C} (m : M S A) (f : A -> M S B) (g : B -> M S C) s :
  bind (bind m f) g s = bind m (fun x => bind (f x) g) s.
Proof. unfold bind. by destruct (m s) as [[a s']| | | |]. Qed.
End wp_rules.

Create HintDb kernel.
#[export] Hint Resolve wp_ret wp_gets wp_get wp_modify : kernel.

(** One symbolic step of a [wp] goal. *)
Ltac wp_step :=
  first
    [ apply wp_bind
    | apply wp_ret
    | apply wp_gets
    | apply wp_get
    | apply wp_modify
    | apply wp_KASSERT; [ | ] ];
  cbv beta.

(** Remove the wraps of expressions that [lia] shows to be in range. *)
Ltac unwrap :=
  repeat match goal with
  | |- context [wrap 64 ?x] => rewrite (wrap64_small x) by lia
  | H : context [wrap 64 ?x] |- _ => rewrite (wrap64_small x) in H by lia
  end.

(** Turn boolean comparisons into propositions. *)
Ltac bdestruct_all :=
  repeat match goal with
  | |- context [?a =? ?b] => destruct (Z.eqb_spec a b)
  | |- context [?a <? ?b] => destruct (Z.ltb_spec a b)
  | |- context [?a <=? ?b] => destruct (Z.leb_spec a b)
  end.

(** ** Bit fields below an aligned value

    Sizes, page-table entries and frame addresses carry flags in low bits that
    are zero in the value itself. *)

Lemma lor_low_bits k n a b :
  0 <= n -> 0 <= a < 2 ^ n -> 0 <= b < 2 ^ n ->
  Z.lor (k * 2 ^ n + a) b = k * 2 ^ n + Z.lor a b.
Proof.
  intros Hn Ha Hb.
  assert (Hd : forall x, 0 <= x < 2 ^ n -> k * 2 ^ n + x = Z.lor (Z.shiftl k n) x).
  { intros x Hx. rewrite <-Z.shiftl_mul_pow2 by lia.
    symmetry. rewrite <-Z.lxor_lor; [rewrite Z.add_nocarry_lxor; [done|]|].
    all: apply Z.bits_inj_iff; intros i; rewrite Z.bits_0, Z.land_spec.
    all: destruct (decide (i < n)); [rewrite Z.shiftl_spec_low by lia; done|].
    all: assert (Z.testbit x i = false) as ->; [|by rewrite andb_false_r].
    all: rewrite <-(Z.mod_small x (2 ^ n)) by lia; apply Z.mod_pow2_bits_high; lia. }
  rewrite (Hd a Ha), <-Z.lor_assoc, <-Hd; [done|].
  split; [apply Z.lor_nonneg; lia|].
  destruct (decide (Z.lor a b = 0)) as [->|Hne]; [lia|].
  pose proof (Z.lor_nonneg a b).
  apply Z.log2_lt_pow2; [lia|]. rewrite Z.log2_lor by lia.
  destruct (decide (n = 0)) as [->|]; [|].
  { exfalso. assert (a = 0 /\ b = 0) as [-> ->] by lia. done. }
  apply Z.max_lub_lt.
  - destruct (decide (a = 0)) as [->|]; [change (Z.log2 0) with 0; lia|].
    apply Z.log2_lt_pow2; lia.
  - destruct (decide (b = 0)) as [->|]; [change (Z.log2 0) with 0; lia|].
    apply Z.log2_lt_pow2; lia.
Qed.

Lemma lor_shiftl_low n a b : 0 <= n -> 0 <= b < 2 ^ n -> Z.lor (Z.shiftl a n) b = a * 2 ^ n + b.
Proof.
  intros Hn Hb. rewrite Z.shiftl_mul_pow2 by lia. rewrite <-(Z.add_0_r (a * 2 ^ n)) at 1.
  rewrite lor_low_bits by lia. by rewrite Z.lor_0_l.
Qed.

Lemma land_low_bits k n a b :
  0 <= n -> 0 <= b < 2 ^ n -> Z.land (k * 2 ^ n + a) b = Z.land (a mod 2 ^ n) b.
Proof.
  intros Hn Hb.
  rewrite <-(Z.mod_small b (2 ^ n)) by lia.
  rewrite <-!Z.land_ones by lia.
  rewrite (Z.land_comm b), !Z.land_assoc, !Z.land_ones by lia.
  f_equal. rewrite Zmod_mod.
  by rewrite Z.add_comm, Z_mod_plus_full.
Qed.

(** Masking away the low [n] bits of a [w]-bit value. *)
Lemma land_high_mask n w x :
  0 <= n <= w -> 0 <= x < 2 ^ w -> Z.land x (2 ^ w - 2 ^ n) = x - x mod 2 ^ n.
Proof.
  intros Hn Hx.
  assert (2 ^ w - 2 ^ n = Z.shiftl (Z.ones (w - n)) n) as ->.
  { rewrite Z.shiftl_mul_pow2, Z.ones_equiv by lia.
    rewrite Z.mul_pred_l, <-Z.pow_add_r by lia. f_equal. f_equal. lia. }
  assert (x - x mod 2 ^ n = Z.shiftl (Z.shiftr x n) n) as ->.
  { rewrite Z.shiftl_mul_pow2, Z.shiftr_div_pow2 by lia.
    pose proof (Z.div_mod x (2 ^ n)). lia. }
  apply Z.bits_inj_iff. intros i.
  rewrite Z.land_spec.
  destruct (decide (i < 0)); [by rewrite !Z.testbit_neg_r by lia|].
  destruct (decide (i < n)).
  { rewrite !Z.shiftl_spec_low by lia. by rewrite andb_false_r. }
  rewrite !Z.shiftl_spec, Z.shiftr_spec by lia.
  replace (i - n + n) with i by lia.
  destruct (decide (i < w)).
  - rewrite Z.ones_spec_low by lia. by rewrite andb_true_r.
  - rewrite Z.ones_spec_high by lia. rewrite andb_false_r.
    rewrite <-(Z.mod_small x (2 ^ w)) by lia.
    by rewrite Z.mod_pow2_bits_high by lia.
Qed.
