(* ===== verification/Memory.v ===== *)
(** * Byte-addressed memory

    Memory is a finite map from addresses to bytes; addresses outside the map
    read as zero, and every theorem quantifies over the initial map.  The
    multi-byte accesses are little endian, as [ENDIANESS] of hal.h says.
    [memset] and [memcpy] are those of HAL/x86-64/cpu_instructions.c. *)

From S2P Require Import Prelude.

Abbreviation mem := (gmap Z Z).

Definition load8 (m : mem) (a : Z) : Z := default 0 (m !! a) mod 256.
Definition store8 (m : mem) (a v : Z) : mem := <[a := v mod 256]> m.

Fixpoint load_le (n : nat) (m : mem) (a : Z) : Z :=
  match n with
  | O => 0
  | S n' => load8 m a + 256 * load_le n' m (a + 1)
  end.

Fixpoint store_le (n : nat) (m : mem) (a v : Z) : mem :=
  match n with
  | O => m
  | S n' => store_le n' (store8 m a v) (a + 1) (v / 256)
  end.

Definition load16 : mem -> Z -> Z := load_le 2.
Definition load32 : mem -> Z -> Z := load_le 4.
Definition load64 : mem -> Z -> Z := load_le 8.
Definition store32 : mem -> Z -> Z -> mem := store_le 4.
Definition store64 : mem -> Z -> Z -> mem := store_le 8.

(** ** Laws of loads and stores *)

Lemma load8_range m a : 0 <= load8 m a < 256.
Proof. unfold load8. apply Z.mod_pos_bound. lia. Qed.

Lemma load8_store8 m a b v :
  load8 (store8 m a v) b = if decide (a = b) then v mod 256 else load8 m b.
Proof.
  unfold load8, store8. rewrite lookup_insert.
  case_decide; [simpl; by rewrite Zmod_mod|done].
Qed.

Lemma load8_store8_eq m a v : load8 (store8 m a v) a = v mod 256.
Proof. rewrite load8_store8. by rewrite decide_True. Qed.

Lemma load8_store8_ne m a b v : a <> b -> load8 (store8 m a v) b = load8 m b.
Proof. intros. rewrite load8_store8. by rewrite decide_False. Qed.

Lemma load_le_range n m a : 0 <= load_le n m a < 256 ^ Z.of_nat n.
Proof.
  revert a. induction n as [|n IH]; intros a; [done|]. cbn [load_le].
  pose proof (load8_range m a). pose proof (IH (a + 1)).
  rewrite Nat2Z.inj_succ, Z.pow_succ_r by lia. lia.
Qed.

Lemma load_le_ext n m m' a :
  (forall b, a <= b < a + Z.of_nat n -> load8 m b = load8 m' b) ->
  load_le n m a = load_le n m' a.
Proof.
  revert a. induction n as [|n IH]; intros a H; [done|]. cbn [load_le].
  rewrite (H a) by lia. rewrite (IH (a + 1)); [done|].
  intros b Hb. apply H. lia.
Qed.

Lemma load8_store_le_out n m a v b :
  b < a \/ a + Z.of_nat n <= b -> load8 (store_le n m a v) b = load8 m b.
Proof.
  revert m a v. induction n as [|n IH]; intros m a v H; [done|]. cbn [store_le].
  rewrite IH by lia. apply load8_store8_ne. lia.
Qed.

Lemma load_store_le_disjoint n k m a v b :
  b + Z.of_nat k <= a \/ a + Z.of_nat n <= b ->
  load_le k (store_le n m a v) b = load_le k m b.
Proof.
  intros H. apply load_le_ext. intros c Hc. apply load8_store_le_out. lia.
Qed.

Lemma load_store_le_same n m a v :
  load_le n (store_le n m a v) a = v mod 256 ^ Z.of_nat n.
Proof.
  revert m a v. induction n as [|n IH]; intros m a v.
  { cbn. by rewrite Z.mod_1_r. }
  cbn [load_le store_le].
  rewrite IH, load8_store_le_out, load8_store8_eq by lia.
  rewrite Nat2Z.inj_succ, Z.pow_succ_r by lia.
  rewrite Z.rem_mul_r by lia. lia.
Qed.

Lemma load8_store_le_in n m a v b :
  a <= b < a + Z.of_nat n ->
  load8 (store_le n m a v) b = (v / 256 ^ (b - a)) mod 256.
Proof.
  revert m a v. induction n as [|n IH]; intros m a v H; [lia|]. cbn [store_le].
  destruct (decide (a = b)) as [->|].
  - rewrite load8_store_le_out, load8_store8_eq by lia.
    by rewrite Z.sub_diag, Z.div_1_r.
  - rewrite IH by lia. rewrite Z.div_div by lia.
    rewrite <-Z.pow_succ_r by lia. do 3 f_equal. lia.
Qed.

Lemma load_le_byte n m a i :
  0 <= i < Z.of_nat n -> (load_le n m a / 256 ^ i) mod 256 = load8 m (a + i).
Proof.
  revert a i. induction n as [|n IH]; intros a i H; [lia|]. cbn [load_le].
  pose proof (load8_range m a).
  destruct (decide (i = 0)) as [->|].
  - rewrite Z.div_1_r, Z.add_0_r, (Z.mul_comm 256), Z_mod_plus_full.
    by apply Z.mod_small.
  - replace i with (Z.succ (i - 1)) by lia.
    rewrite Z.pow_succ_r by lia. rewrite <-Z.div_div by lia.
    rewrite (Z.mul_comm 256), Z_div_plus, (Z.div_small (load8 m a)) by lia.
    rewrite Z.add_0_l, IH by lia. f_equal. lia.
Qed.

Lemma load64_range m a : 0 <= load64 m a < 2 ^ 64.
Proof. apply (load_le_range 8). Qed.

Lemma load64_store64_eq m a v : 0 <= v < 2 ^ 64 -> load64 (store64 m a v) a = v.
Proof.
  intros. unfold load64, store64. rewrite load_store_le_same.
  by apply Z.mod_small.
Qed.

Lemma load64_store64_ne m a b v :
  b + 8 <= a \/ a + 8 <= b -> load64 (store64 m a v) b = load64 m b.
Proof. intros. apply load_store_le_disjoint. lia. Qed.

Lemma store_le_store8 n m a v b w :
  b < a -> store_le n (store8 m b w) a v = store8 (store_le n m a v) b w.
Proof.
  revert m a v. induction n as [|n IH]; intros m a v H; [done|]. cbn [store_le].
  rewrite <-IH by lia. f_equal. unfold store8. apply insert_insert_ne. lia.
Qed.

Lemma store_le_store_le n m a v v' :
  store_le n (store_le n m a v) a v' = store_le n m a v'.
Proof.
  revert m a v v'. induction n as [|n IH]; intros m a v v'; [done|]. cbn [store_le].
  rewrite !store_le_store8, IH by lia. unfold store8. apply insert_insert_eq.
Qed.

(** A second write to the same word hides the first. *)
Lemma store64_store64 m a v v' : store64 (store64 m a v) a v' = store64 m a v'.
Proof. apply store_le_store_le. Qed.

(** Two memories agree on every word that lies outside [lo, hi). *)
Definition agree_outside (lo hi : Z) (m m' : mem) : Prop :=
  forall y, y + 8 <= lo \/ hi <= y -> load64 m' y = load64 m y.

Lemma agree_outside_refl lo hi m : agree_outside lo hi m m.
Proof. done. Qed.

Lemma agree_outside_store lo hi m m' a v :
  lo <= a -> a + 8 <= hi -> agree_outside lo hi m m' ->
  agree_outside lo hi m (store64 m' a v).
Proof. intros ?? H y Hy. rewrite load64_store64_ne by lia. by apply H. Qed.

#[export] Hint Resolve agree_outside_refl : kernel.

Global Opaque load64 store64.

(** Normalise a [load64] of nested [store64]s whose addresses [lia] separates. *)
Ltac mem_simpl :=
  repeat first
    [ rewrite load64_store64_eq by lia
    | rewrite load64_store64_ne by lia ].

(** ** Effects on hardware the code performs with inline assembly *)

Inductive hw_event : Type :=
| Invlpg (vaddr : Z)
| WriteCr3 (v : Z)
| Wrmsr (msr lo hi : Z)
| Outb (port data : Z)
| Outw (port data : Z).

(** ** memset and memcpy *)

Fixpoint memset_loop (n : nat) (m : mem) (dst data : Z) : mem :=
  match n with
  | O => m
  | S n' => memset_loop n' (store8 m dst data) (dst + 1) data
  end.

Definition memset (m : mem) (dst data size : Z) : mem :=
  memset_loop (Z.to_nat size) m dst data.

(** One pass of the unrolled body: [uidst[j + byte_index/8] = uisrc[...]] for
    [j] from 0 to 7. *)
Fixpoint memcpy_words (n : nat) (m : mem) (dst src byte_index j : Z) : mem :=
  match n with
  | O => m
  | S n' =>
      let w := 8 * (j + byte_index / 8) in
      memcpy_words n' (store64 m (dst + w) (load64 m (src + w))) dst src byte_index (j + 1)
  end.

Fixpoint memcpy_blocks (n : nat) (m : mem) (dst src byte_index : Z) : mem :=
  match n with
  | O => m
  | S n' => memcpy_blocks n' (memcpy_words 8 m dst src byte_index 0) dst src (byte_index + 64)
  end.

Fixpoint memcpy_tail (n : nat) (m : mem) (dst src byte_index : Z) : mem :=
  match n with
  | O => m
  | S n' =>
      memcpy_tail n' (store8 m (dst + byte_index) (load8 m (src + byte_index)))
        dst src (byte_index + 1)
  end.

(** [while(byte_index < aligned_size)] runs [aligned_size/64] times, and
    [while(byte_index < size)] the remaining [size - aligned_size] times. *)
Definition memcpy (m : mem) (dst src size : Z) : mem :=
  let aligned_size := size - size mod 64 in
  let m1 := memcpy_blocks (Z.to_nat (aligned_size / 64)) m dst src 0 in
  memcpy_tail (Z.to_nat (size - aligned_size)) m1 dst src aligned_size.

(** *** memset fills its range and touches nothing else *)

Lemma load8_memset_loop n m dst data b :
  load8 (memset_loop n m dst data) b =
    if decide (dst <= b < dst + Z.of_nat n) then data mod 256 else load8 m b.
Proof.
  revert m dst. induction n as [|n IH]; intros m dst; cbn [memset_loop].
  { by rewrite decide_False by lia. }
  rewrite IH, load8_store8. repeat case_decide; done || lia.
Qed.

Lemma load8_memset m dst data size b :
  0 <= size ->
  load8 (memset m dst data size) b =
    if decide (dst <= b < dst + size) then data mod 256 else load8 m b.
Proof.
  intros. unfold memset. rewrite load8_memset_loop.
  rewrite Z2Nat.id by lia. done.
Qed.

Lemma load_le_memset_zero k m dst size b :
  dst <= b -> b + Z.of_nat k <= dst + size ->
  load_le k (memset m dst 0 size) b = 0.
Proof.
  revert b. induction k as [|k IH]; intros b H1 H2; [done|]. cbn [load_le].
  rewrite load8_memset, decide_True, IH by lia. done.
Qed.

Lemma load64_memset_zero m dst size b :
  dst <= b -> b + 8 <= dst + size -> load64 (memset m dst 0 size) b = 0.
Proof. apply (load_le_memset_zero 8). Qed.

Lemma load64_memset_out m dst data size b :
  0 <= size -> b + 8 <= dst \/ dst + size <= b ->
  load64 (memset m dst data size) b = load64 m b.
Proof.
  intros. apply (load_le_ext 8). intros c Hc.
  rewrite load8_memset, decide_False by lia. done.
Qed.

(** *** memcpy copies bytes when the ranges do not overlap *)

(** [m'] is [m] with the bytes [lo, hi) of [src] copied to [dst]. *)
Definition copied (m m' : mem) (dst src lo hi : Z) : Prop :=
  forall b, load8 m' b =
    if decide (dst + lo <= b < dst + hi) then load8 m (src + (b - dst)) else load8 m b.

Lemma copied_word m m' dst src lo hi size :
  0 <= lo -> lo <= hi -> hi + 8 <= size ->
  dst + size <= src \/ src + size <= dst ->
  copied m m' dst src lo hi ->
  copied m (store64 m' (dst + hi) (load64 m' (src + hi))) dst src lo (hi + 8).
Proof.
  Local Transparent load64 store64.
  intros H0 H1 H2 Hd HC b. unfold store64, load64.
  destruct (decide (dst + hi <= b < dst + hi + 8)) as [Hin|Hout].
  - rewrite load8_store_le_in by lia.
    rewrite (load_le_byte 8) by lia. rewrite HC.
    rewrite decide_False, decide_True by lia. f_equal. lia.
  - rewrite load8_store_le_out by lia. rewrite HC.
    repeat case_decide; done || lia.
Qed.

Lemma copied_byte m m' dst src lo hi size :
  0 <= lo -> lo <= hi -> hi + 1 <= size ->
  dst + size <= src \/ src + size <= dst ->
  copied m m' dst src lo hi ->
  copied m (store8 m' (dst + hi) (load8 m' (src + hi))) dst src lo (hi + 1).
Proof.
  intros H0 H1 H2 Hd HC b. rewrite load8_store8.
  destruct (decide (dst + hi = b)) as [<-|Hne].
  - rewrite Z.mod_small by apply load8_range. rewrite HC.
    rewrite decide_False, decide_True by lia. f_equal. lia.
  - rewrite HC. repeat case_decide; done || lia.
Qed.

Lemma memcpy_words_copied n m m' dst src size bi j :
  0 <= bi -> bi mod 8 = 0 -> 0 <= j ->
  bi + 8 * (j + Z.of_nat n) <= size ->
  dst + size <= src \/ src + size <= dst ->
  copied m m' dst src 0 (bi + 8 * j) ->
  copied m (memcpy_words n m' dst src bi j) dst src 0 (bi + 8 * (j + Z.of_nat n)).
Proof.
  revert m' j. induction n as [|n IH]; intros m' j Hbi Hmod Hj Hsz Hd HC; cbn [memcpy_words].
  { by rewrite Z.add_0_r. }
  replace (8 * (j + bi / 8)) with (bi + 8 * j) by lia.
  replace (j + Z.of_nat (S n)) with (j + 1 + Z.of_nat n) by lia.
  apply IH; try lia.
  replace (bi + 8 * (j + 1)) with (bi + 8 * j + 8) by lia.
  apply (copied_word _ _ _ _ _ _ size); done || lia.
Qed.

Lemma memcpy_blocks_copied n m m' dst src size bi :
  0 <= bi -> bi mod 64 = 0 -> bi + 64 * Z.of_nat n <= size ->
  dst + size <= src \/ src + size <= dst ->
  copied m m' dst src 0 bi ->
  copied m (memcpy_blocks n m' dst src bi) dst src 0 (bi + 64 * Z.of_nat n).
Proof.
  revert m' bi. induction n as [|n IH]; intros m' bi Hbi Hmod Hsz Hd HC;
    cbn [memcpy_blocks].
  { by rewrite Z.mul_0_r, Z.add_0_r. }
  replace (bi + 64 * Z.of_nat (S n)) with (bi + 64 + 64 * Z.of_nat n) by lia.
  apply IH; try lia.
  apply (memcpy_words_copied 8 m m' dst src size bi 0); try lia.
  by rewrite Z.mul_0_r, Z.add_0_r.
Qed.

Lemma memcpy_tail_copied n m m' dst src size bi :
  0 <= bi -> bi + Z.of_nat n <= size ->
  dst + size <= src \/ src + size <= dst ->
  copied m m' dst src 0 bi ->
  copied m (memcpy_tail n m' dst src bi) dst src 0 (bi + Z.of_nat n).
Proof.
  revert m' bi. induction n as [|n IH]; intros m' bi Hbi Hsz Hd HC; cbn [memcpy_tail].
  { by rewrite Z.add_0_r. }
  replace (bi + Z.of_nat (S n)) with (bi + 1 + Z.of_nat n) by lia.
  apply IH; try lia.
  apply (copied_byte _ _ _ _ _ _ size); done || lia.
Qed.

Lemma memcpy_spec m dst src size :
  0 <= size -> dst + size <= src \/ src + size <= dst ->
  forall b, load8 (memcpy m dst src size) b =
    if decide (dst <= b < dst + size) then load8 m (src + (b - dst)) else load8 m b.
Proof.
  intros Hs Hd.
  assert (H : copied m (memcpy m dst src size) dst src 0 size).
  { unfold memcpy. set (al := size - size mod 64).
    assert (Hal : al = 64 * (size / 64)) by (subst al; lia).
    pose proof (memcpy_blocks_copied (Z.to_nat (al / 64)) m m dst src size 0) as HB.
    pose proof (memcpy_tail_copied (Z.to_nat (size - al)) m
      (memcpy_blocks (Z.to_nat (al / 64)) m dst src 0) dst src size al) as HT.
    replace (0 + 64 * Z.of_nat (Z.to_nat (al / 64))) with al in HB by lia.
    replace (al + Z.of_nat (Z.to_nat (size - al))) with size in HT by lia.
    apply HT; try lia. apply HB; try lia.
    intros b. by rewrite decide_False by lia. }
  intros b. rewrite (H b). by rewrite Z.add_0_r.
Qed.

(** C17: memcpy by eight-byte words and a tail equals the byte-wise copy for ranges
    that do not overlap. *)
Theorem memcpy_correct m dst src size :
  0 <= size -> dst + size <= src \/ src + size <= dst ->
  forall b, load8 (memcpy m dst src size) b =
    if decide (dst <= b < dst + size) then load8 m (src + (b - dst)) else load8 m b.
Proof. apply memcpy_spec. Qed.

Lemma memcpy_correct_witness :
  load8 (memcpy (store8 ∅ 1000 7) 2000 1000 70) 2000 = 7.
Proof.
  rewrite (memcpy_correct (store8 ∅ 1000 7) 2000 1000 70) by lia. reflexivity.
Defined.

Global Opaque memset memcpy.
