(* ===== verification/Sync.v ===== *)
(** * Spinlocks and the interrupt flag (util/sync_types.c, cpu_instructions.c)

    Two models of the same routines.  [Sequential] runs a routine on one
    processor: a lock that is already held when it is acquired is never
    released by anyone else, so the acquisition hangs; the components use these
    operations around their critical sections.  [Interleaved] runs the two
    hard-lock routines on any number of processors, one atomic instruction at a
    time, and shows that the sequential reading of a critical section is
    justified. *)

From S2P Require Import Prelude Memory.

Module Sequential.
Section ops.
Context {S : Type}.

(** The [sti]/[cli] pair around a critical section, on the processor whose
    interrupt flag [I] designates. *)
Definition disable_and_save_interrupts (I : lens S bool) : M S bool :=
  state <- gets (view I);;
  modify (put I false);;
  ret state.

Definition restore_interrupt_state (I : lens S bool) (state : bool) : M S unit :=
  when state (modify (put I true)).

Definition init_spinlock (L : lens S bool) : M S unit := modify (put L false).

(** [atomic_flag_test_and_set]: the previous value is returned. *)
Definition test_and_set (L : lens S bool) : M S bool :=
  old <- gets (view L);;
  modify (put L true);;
  ret old.

Definition acquire_spinlock (L : lens S bool) : M S unit :=
  held <- test_and_set L;;
  if held then hang else ret tt.

Definition release_spinlock (L : lens S bool) : M S unit := modify (put L false).

(** The retry loop re-enables interrupts between attempts; with nobody else
    to release the lock every attempt fails. *)
Definition acquire_spinlock_hard (L I : lens S bool) : M S bool :=
  istate <- disable_and_save_interrupts I;;
  held <- test_and_set L;;
  if held then hang else ret istate.

Definition release_spinlock_hard (L I : lens S bool) (istate : bool) : M S unit :=
  modify (put L false);;
  restore_interrupt_state I istate.

(** [ACQUIRE_SPINLOCK_HARD(s); body; RELEASE_SPINLOCK_HARD(s);] *)
Definition with_spinlock_hard {A} (L I : lens S bool) (body : M S A) : M S A :=
  istate <- acquire_spinlock_hard L I;;
  r <- body;;
  release_spinlock_hard L I istate;;
  ret r.

Lemma acquire_hard_held (L I : lens S bool) (s : S) :
  LensLaws L -> LensLaws I ->
  view L (put I false s) = true -> acquire_spinlock_hard L I s = Hang.
Proof.
  intros HL HI H. unfold acquire_spinlock_hard, disable_and_save_interrupts,
    test_and_set, bind, gets, modify, ret. by rewrite H.
Qed.

Lemma wp_acquire_hard (L I : lens S bool) (s : S) (Q : bool -> S -> Prop) :
  view L (put I false s) = false ->
  Q (view I s) (put L true (put I false s)) ->
  wp (acquire_spinlock_hard L I) s Q.
Proof.
  intros H HQ. unfold acquire_spinlock_hard, disable_and_save_interrupts, test_and_set.
  repeat wp_step. by rewrite H.
Qed.

Lemma wp_release_hard (L I : lens S bool) (b : bool) (s : S) (Q : unit -> S -> Prop) :
  Q tt (if b then put I true (put L false s) else put L false s) ->
  wp (release_spinlock_hard L I b) s Q.
Proof.
  intros H. unfold release_spinlock_hard, restore_interrupt_state, when.
  repeat wp_step. by destruct b.
Qed.

(** A critical section whose body returns, run on a lock that is free; the
    lock is independent of the interrupt flag. *)
Lemma with_spinlock_hard_run {A} (L I : lens S bool) (body : M S A) s r s1 :
  view L (put I false s) = false -> body (put L true (put I false s)) = Ok (r, s1) ->
  with_spinlock_hard L I body s =
    Ok (r, if view I s then put I true (put L false s1) else put L false s1).
Proof.
  intros HL HB. unfold with_spinlock_hard, acquire_spinlock_hard, disable_and_save_interrupts,
    test_and_set, release_spinlock_hard, restore_interrupt_state, when, bind, gets, modify, ret.
  rewrite HL, HB. by destruct (view I s).
Qed.

Lemma with_spinlock_hard_panic {A} (L I : lens S bool) (body : M S A) s c :
  view L (put I false s) = false -> body (put L true (put I false s)) = Panic c ->
  with_spinlock_hard L I body s = Panic c.
Proof.
  intros HL HB. unfold with_spinlock_hard, acquire_spinlock_hard, disable_and_save_interrupts,
    test_and_set, bind, gets, modify, ret. by rewrite HL, HB.
Qed.

Lemma with_spinlock_hard_inv {A} (L I : lens S bool) (body : M S A) s r s' :
  with_spinlock_hard L I body s = Ok (r, s') ->
  exists s1, body (put L true (put I false s)) = Ok (r, s1).
Proof.
  unfold with_spinlock_hard, acquire_spinlock_hard, disable_and_save_interrupts,
    test_and_set, bind, gets, modify, ret.
  destruct (view L (put I false s)); [done|].
  destruct (body _) as [[r1 s1]| | | |]; try done.
  destruct (release_spinlock_hard L I (view I s) s1) as [[]| | | |]; naive_solver.
Qed.

Lemma with_spinlock_hard_held {A} (L I : lens S bool) (body : M S A) s :
  view L (put I false s) = true -> with_spinlock_hard L I body s = Hang.
Proof.
  intros HL. unfold with_spinlock_hard, acquire_spinlock_hard, disable_and_save_interrupts,
    test_and_set, bind, gets, modify, ret, hang. by rewrite HL.
Qed.
End ops.
End Sequential.

(** ** Interleaving of several processors *)
Module Interleaved.

(** Where a processor stands in [acquire_spinlock_hard] ... critical section ...
    [release_spinlock_hard]; the argument is the local [*istate]. *)
Inductive pc : Type :=
| Outside
| Trying (istate : bool)     (** interrupts saved and disabled, before the test-and-set *)
| Retrying (istate : bool)   (** the test failed, before [restore_interrupt_state] *)
| Pausing                    (** restored, about to disable and save again *)
| Critical (istate : bool)   (** holds the lock *)
| Releasing (istate : bool). (** cleared the flag, before [restore_interrupt_state] *)

Record core : Type := Core { core_pc : pc; core_if : bool }.

Record system : Type := System { sys_lock : bool; sys_cores : list core }.

Definition set_core (i : nat) (c : core) (s : system) : system :=
  System (sys_lock s) (<[i := c]> (sys_cores s)).

(** One atomic instruction of core [i]. *)
Inductive step (i : nat) : system -> system -> Prop :=
| step_disable s f :
    sys_cores s !! i = Some (Core Outside f) ->
    step i s (set_core i (Core (Trying f) false) s)
| step_acquire s st f :
    sys_cores s !! i = Some (Core (Trying st) f) -> sys_lock s = false ->
    step i s (System true (<[i := Core (Critical st) f]> (sys_cores s)))
| step_busy s st f :
    sys_cores s !! i = Some (Core (Trying st) f) -> sys_lock s = true ->
    step i s (set_core i (Core (Retrying st) f) s)
| step_restore s st f :
    sys_cores s !! i = Some (Core (Retrying st) f) ->
    step i s (set_core i (Core Pausing (if st then true else f)) s)
| step_again s f :
    sys_cores s !! i = Some (Core Pausing f) ->
    step i s (set_core i (Core (Trying f) false) s)
| step_clear s st f :
    sys_cores s !! i = Some (Core (Critical st) f) ->
    step i s (System false (<[i := Core (Releasing st) f]> (sys_cores s)))
| step_done s st f :
    sys_cores s !! i = Some (Core (Releasing st) f) ->
    step i s (set_core i (Core Outside (if st then true else f)) s).

(** [init_spinlock] has run and no processor is in the routines yet. *)
Definition initial (s : system) : Prop :=
  sys_lock s = false /\ Forall (fun c => core_pc c = Outside) (sys_cores s).

Inductive reachable : system -> Prop :=
| reach_init s : initial s -> reachable s
| reach_step s s' i : reachable s -> step i s s' -> reachable s'.

Definition in_critical (c : core) : bool :=
  match core_pc c with Critical _ => true | _ => false end.

(** Between [disable_and_save_interrupts] and the matching restore. *)
Definition masked (c : core) : Prop :=
  match core_pc c with
  | Outside | Pausing => True
  | _ => core_if c = false
  end.

Definition inv (s : system) : Prop :=
  (forall i c, sys_cores s !! i = Some c -> masked c) /\
  (forall i c, sys_cores s !! i = Some c -> in_critical c = true -> sys_lock s = true) /\
  (forall i j c d, sys_cores s !! i = Some c -> sys_cores s !! j = Some d ->
     in_critical c = true -> in_critical d = true -> i = j) /\
  (sys_lock s = true -> exists i c, sys_cores s !! i = Some c /\ in_critical c = true).

(** A step rewrites the entry of one core; the others are looked up unchanged. *)
Ltac core_cases :=
  repeat match goal with
  | H : <[?i := _]> ?l !! ?j = Some _ |- _ =>
      apply list_lookup_insert_Some in H as [(-> & <- & ?) | (? & H)]
  end.

Lemma inv_initial s : initial s -> inv s.
Proof.
  intros [Hl HF]. rewrite Forall_lookup in HF.
  assert (Ho : forall i c, sys_cores s !! i = Some c -> core_pc c = Outside) by eauto.
  unfold inv, masked, in_critical. repeat split.
  - intros i c H. by rewrite (Ho _ _ H).
  - intros i c H. by rewrite (Ho _ _ H).
  - intros i j c d H. by rewrite (Ho _ _ H).
  - by rewrite Hl.
Qed.

(** A step that neither enters nor leaves the critical section. *)
Lemma inv_outside i s c c' :
  sys_cores s !! i = Some c -> in_critical c = false -> in_critical c' = false ->
  masked c' -> inv s -> inv (set_core i c' s).
Proof.
  intros Hi Hc Hc' Hm (I1 & I2 & I3 & I4). unfold inv, set_core; simpl.
  repeat split.
  - intros. core_cases; eauto.
  - intros. core_cases; [congruence|eauto].
  - intros. core_cases; try congruence; eauto.
  - intros Hl. destruct (I4 Hl) as (k & d & Hk & Hd).
    exists k, d. split; [|done]. rewrite list_lookup_insert_ne; [done|congruence].
Qed.

Lemma inv_acquire i s c c' :
  sys_cores s !! i = Some c -> sys_lock s = false -> in_critical c' = true -> masked c' ->
  inv s -> inv (System true (<[i := c']> (sys_cores s))).
Proof.
  intros Hi Hl Hc' Hm (I1 & I2 & I3 & I4). unfold inv; simpl. repeat split.
  - intros. core_cases; eauto.
  - assert (Hn : forall j d, sys_cores s !! j = Some d -> in_critical d = true -> False).
    { intros j d Hj Hd. specialize (I2 _ _ Hj Hd). congruence. }
    intros j k d e H1 H2 H3 H4. core_cases; try done; exfalso; eauto.
  - intros _. exists i, c'. split; [|done].
    apply list_lookup_insert_eq. eauto using lookup_lt_Some.
Qed.

Lemma inv_release i s c c' :
  sys_cores s !! i = Some c -> in_critical c = true -> in_critical c' = false -> masked c' ->
  inv s -> inv (System false (<[i := c']> (sys_cores s))).
Proof.
  intros Hi Hc Hc' Hm (I1 & I2 & I3 & I4). unfold inv; simpl. repeat split; [| | |done].
  - intros. core_cases; eauto.
  - intros j d H1 H2. core_cases; [congruence|]. naive_solver.
  - intros j k d e H1 H2 H3 H4. core_cases; try congruence. naive_solver.
Qed.

Lemma inv_step i s s' : inv s -> step i s s' -> inv s'.
Proof.
  intros HI Hs. pose proof (proj1 HI) as Hm.
  destruct Hs as [s f H|s st f H Hl|s st f H Hl|s st f H|s f H|s st f H|s st f H];
    specialize (Hm _ _ H); unfold masked in Hm; simpl in Hm.
  - by eapply inv_outside.
  - by eapply inv_acquire.
  - by eapply inv_outside.
  - by eapply inv_outside.
  - by eapply inv_outside.
  - by eapply inv_release.
  - by eapply inv_outside.
Qed.

Lemma inv_reachable s : reachable s -> inv s.
Proof. induction 1; eauto using inv_initial, inv_step. Qed.

(** The processor that holds the lock has interrupts disabled, and it is
    alone. *)
(** C14: In every state that any number of cores can reach by interleaving the
    instructions of the hard spinlock at most one core is in the critical section, and
    it runs with interrupts disabled. *)
Theorem spinlock_hard_mutual_exclusion s i j c d :
  reachable s ->
  sys_cores s !! i = Some c -> sys_cores s !! j = Some d ->
  in_critical c = true -> in_critical d = true ->
  i = j /\ core_if c = false /\ sys_lock s = true.
Proof.
  intros Hr Hc Hd Cc Cd. destruct (inv_reachable s Hr) as (I1 & I2 & I3 & _).
  repeat split; eauto.
  specialize (I1 _ _ Hc). unfold masked, in_critical in *. by destruct (core_pc c).
Qed.

Definition two_cores : system :=
  System false [Core Outside true; Core Outside true].

Definition two_cores_trying : system :=
  System false [Core (Trying true) false; Core Outside true].

Lemma two_cores_trying_reachable : reachable two_cores_trying.
Proof.
  eapply (reach_step two_cores _ 0).
  - apply reach_init. split; [reflexivity|repeat constructor].
  - by apply (step_disable 0 two_cores true).
Qed.

Lemma two_cores_critical :
  reachable (System true [Core (Critical true) false; Core Outside true]).
Proof.
  eapply (reach_step two_cores_trying _ 0); [apply two_cores_trying_reachable|].
  by apply (step_acquire 0 two_cores_trying true false).
Qed.

Lemma spinlock_hard_mutual_exclusion_witness :
  core_if (Core (Critical true) false) = false.
Proof.
  apply (spinlock_hard_mutual_exclusion _ 0 0 _ _ two_cores_critical eq_refl eq_refl
           eq_refl eq_refl).
Defined.

(** Progress: whenever the lock is free, a processor that is trying gets it in
    one step; whenever it is held, the holder can release it in one step. *)
Theorem spinlock_hard_progress s i st f :
  reachable s -> sys_cores s !! i = Some (Core (Trying st) f) ->
  (exists s', step i s s' /\ exists c, sys_cores s' !! i = Some c /\ in_critical c = true) \/
  (exists j s', j <> i /\ step j s s' /\ sys_lock s' = false /\
     sys_cores s' !! i = Some (Core (Trying st) f)).
Proof.
  intros Hr Hi. destruct (sys_lock s) eqn:Hl.
  - right. destruct (inv_reachable s Hr) as (_ & _ & _ & I4).
    destruct (I4 Hl) as (j & [p fj] & Hj & Hc). destruct p; try done.
    assert (j <> i) by congruence.
    exists j, (System false (<[j := Core (Releasing istate) fj]> (sys_cores s))).
    split_and!; [done|by apply step_clear|done|].
    simpl. by rewrite list_lookup_insert_ne.
  - left. eexists. split; [by apply step_acquire|]. simpl.
    eexists. split; [apply list_lookup_insert_eq; eauto using lookup_lt_Some|done].
Qed.

Lemma spinlock_hard_progress_witness :
  (exists s', step 0 two_cores_trying s' /\
     exists c, sys_cores s' !! 0%nat = Some c /\ in_critical c = true) \/
  (exists j s', j <> 0%nat /\ step j two_cores_trying s' /\
     sys_lock s' = false /\ sys_cores s' !! 0%nat = Some (Core (Trying true) false)).
Proof.
  exact (spinlock_hard_progress _ 0 true false two_cores_trying_reachable eq_refl).
Defined.

End Interleaved.
