(* ===== verification/Interfaces.v ===== *)
(** * Interfaces between the memory components

    The kernel heap (mem/heap.c) asks the virtual memory manager (mem/vmm.c)
    for the region it lives in and for its growth; the class [VMemProvider]
    lists those calls and [VMemLaws] what the heap relies on.  The data types
    both sides mention are those of mem/vmm.h. *)

From S2P Require Import Prelude Memory.

Inductive VirtualMemoryType : Type :=
| VM_TYPE_FREE
| VM_TYPE_STACK
| VM_TYPE_HEAP
| VM_TYPE_GENERAL_USE
| VM_TYPE_IDENTITY_MAP_FREE
| VM_TYPE_IDENTITY_MAP
| VM_TYPE_MEMORY_MAPPING.

#[export] Instance VirtualMemoryType_eq_dec : EqDecision VirtualMemoryType.
Proof. solve_decision. Defined.

(** The types of regions whose pages have frames of their own. *)
Definition owns_frames (t : VirtualMemoryType) : bool :=
  bool_decide (t = VM_TYPE_HEAP) || bool_decide (t = VM_TYPE_STACK) ||
  bool_decide (t = VM_TYPE_GENERAL_USE).

(** A handle is a pair of pointers: the descriptor and its manager. *)
Record VMemHandle : Type := MkVMemHandle { vm_desc : Z; vmm : Z }.

#[export] Instance VMemHandle_eq_dec : EqDecision VMemHandle.
Proof. solve_decision. Defined.

Definition invalid_handle : VMemHandle := MkVMemHandle NULL NULL.

Definition is_vmemhandle_invalid (h : VMemHandle) : bool :=
  (vmm h =? NULL) && (vm_desc h =? NULL).

(** What the heap calls of the virtual memory manager, over the manager's state
    [V]; [vp_if] is the interrupt flag of the running processor, which the
    critical sections of both sides save and restore. *)
Class VMemProvider (V : Type) : Type := {
  vp_if : lens V bool;
  get_vmem_addr : VMemHandle -> V -> Z;
  get_vmem_size : VMemHandle -> V -> Z;
  try_expand_vmem_top : VMemHandle -> Z -> M V bool;
  allocate_kernel_virtual_memory :
    Z -> VirtualMemoryType -> Z -> Z -> M V VMemHandle
}.

(** [vmem_wf v] is the manager's own invariant.  [vmem_live h v]: [h] is a region of [v] the caller owns.  An expansion that
    returns true grows the region at its top by the (page aligned) size asked
    for and leaves its base alone; one that returns false leaves both.  A valid
    handle is returned for a region of the size asked for. *)
Class VMemLaws (V : Type) {VP : VMemProvider V} : Type := {
  vmem_wf : V -> Prop;
  vmem_live : VMemHandle -> V -> Prop;
  vp_if_laws : LensLaws vp_if;
  vmem_live_if : forall h v b, vmem_live h v -> vmem_live h (put vp_if b v);
  vmem_addr_if : forall h v b, get_vmem_addr h (put vp_if b v) = get_vmem_addr h v;
  vmem_size_if : forall h v b, get_vmem_size h (put vp_if b v) = get_vmem_size h v;
  vmem_live_range : forall h v, vmem_live h v ->
    PAGE_SIZE <= get_vmem_addr h v /\ get_vmem_addr h v mod PAGE_SIZE = 0 /\
    0 <= get_vmem_size h v < 2 ^ 47 /\ get_vmem_size h v mod PAGE_SIZE = 0 /\
    get_vmem_addr h v + get_vmem_size h v < 2 ^ 64;
  vmem_expand : forall h size v b v',
    vmem_live h v -> 0 <= size -> size mod PAGE_SIZE = 0 ->
    try_expand_vmem_top h size v = Ok (b, v') ->
    vmem_live h v' /\ get_vmem_addr h v' = get_vmem_addr h v /\
    get_vmem_size h v' = get_vmem_size h v + (if b then size else 0) /\
    (b = true -> view vp_if v' = view vp_if v);
  vmem_alloc : forall size type up low v h v',
    vmem_wf v -> 0 < size -> 0 <= up -> 0 <= low -> size + up + low < 2 ^ 46 ->
    size mod PAGE_SIZE = 0 -> up mod PAGE_SIZE = 0 -> low mod PAGE_SIZE = 0 ->
    owns_frames type = true ->
    allocate_kernel_virtual_memory size type up low v = Ok (h, v') ->
    is_vmemhandle_invalid h = false ->
    vmem_live h v' /\ get_vmem_size h v' = size
}.

(** What the paging code and the virtual memory manager call of the frame
    allocator, over its state [F]; [fp_mem] is the physical memory, which is
    identity mapped. *)
Class FrameProvider (F : Type) : Type := {
  fp_mem : lens F mem;
  fp_alloc : M F Z;
  fp_dealloc : Z -> M F unit
}.

(** [fp_free s] lists the free frames; [fp_owned s f] says that the caller may
    write the page at [f].  An allocation takes one free frame, leaves the memory
    alone and succeeds as long as there is a free frame; writing an owned page
    disturbs nothing. *)
Class FrameLaws (F : Type) {FP : FrameProvider F} : Type := {
  fp_ok : F -> Prop;
  fp_free : F -> list Z;
  fp_owned : F -> Z -> Prop;
  fp_mem_laws : LensLaws fp_mem;
  fp_alloc_total : forall s, fp_ok s -> fp_free s <> [] ->
    exists f s', fp_alloc s = Ok (f, s');
  fp_alloc_ok : forall s f s', fp_ok s -> fp_alloc s = Ok (f, s') ->
    fp_ok s' /\ fp_free s ≡ₚ f :: fp_free s' /\ view fp_mem s' = view fp_mem s /\
    f mod PAGE_SIZE = 0 /\ 0 < f < 2 ^ 48 /\ ~ fp_owned s f /\
    (forall g, fp_owned s' g <-> g = f \/ fp_owned s g);
  fp_write_ok : forall s f m', fp_ok s -> fp_owned s f ->
    agree_outside f (f + PAGE_SIZE) (view fp_mem s) m' ->
    fp_ok (put fp_mem m' s) /\ fp_free (put fp_mem m' s) = fp_free s /\
    (forall g, fp_owned (put fp_mem m' s) g <-> fp_owned s g)
}.

(** Giving frames back.  [fp_taken s T]: the frames of [T] were handed out by the
    allocator and none of them was given back.  Giving one back makes it free
    again and leaves every page the caller may write alone. *)
Class FrameReturn (F : Type) {FP : FrameProvider F} {FL : FrameLaws F} : Type := {
  fp_taken : F -> list Z -> Prop;
  fp_taken_owned : forall s T f, fp_taken s T -> f ∈ T -> fp_owned s f;
  fp_alloc_taken : forall s T f s', fp_taken s T -> fp_alloc s = Ok (f, s') -> fp_taken s' (f :: T);
  fp_write_taken : forall s T f m', fp_taken s T -> fp_owned s f ->
    agree_outside f (f + PAGE_SIZE) (view fp_mem s) m' -> fp_taken (put fp_mem m' s) T;
  fp_dealloc_ok : forall s f T, fp_ok s -> fp_taken s (f :: T) ->
    exists s', fp_dealloc f s = Ok (tt, s') /\ fp_ok s' /\ fp_taken s' T /\ fp_free s' ≡ₚ f :: fp_free s /\
      (forall g, fp_owned s' g <-> g <> f /\ fp_owned s g) /\
      (forall g y, fp_owned s g -> g <= y -> y + 8 <= g + PAGE_SIZE ->
         load64 (view fp_mem s') y = load64 (view fp_mem s) y)
}.

(** What the virtual memory manager calls of the kernel heap, over its state
    [H].  [hp_inv s B] relates the state to the live blocks; a request that
    [hp_serves] returns a block that overlaps no other and is not at an address
    of [hp_static] (memory outside the heap), and a live block can be given
    back. *)
Class HeapProvider (H : Type) : Type := {
  is_kheap_initialzed : H -> bool;
  hp_kmalloc : Z -> M H Z;
  hp_kfree : Z -> M H unit
}.

Class HeapLaws (H : Type) {HP : HeapProvider H} : Type := {
  hp_inv : H -> gmap Z Z -> Prop;
  hp_serves : H -> Z -> Prop;
  hp_static : Z -> Prop;
  hp_kmalloc_ok : forall s B n, hp_inv s B -> hp_serves s n ->
    exists p k s', hp_kmalloc n s = Ok (p, s') /\ n <= k /\ B !! p = None /\ ~ hp_static p /\ 0 < p < 2 ^ 64 /\
      hp_inv s' (<[p := k]> B) /\
      (forall q m, B !! q = Some m -> p + k <= q \/ q + m <= p) /\
      is_kheap_initialzed s' = is_kheap_initialzed s;
  hp_kfree_ok : forall s B p n, hp_inv s B -> B !! p = Some n ->
    exists s', hp_kfree p s = Ok (tt, s') /\ hp_inv s' (delete p B) /\
      is_kheap_initialzed s' = is_kheap_initialzed s
}.

(** What it calls of the shootdown subsystem: the request together with the
    wait for its completion. *)
Class ShootdownProvider (D : Type) : Type := {
  is_vmmcache_shootdown_subsystem_initialized : D -> bool;
  sp_shootdown : Z -> Z -> M D unit
}.
