(* ===== verification/Heap.v ===== *)
(** * The kernel heap: model of mem/heap.c

    The heap is a sequence of chunks, each an 8-byte header with the size and
    two flag bits, the user data and an 8-byte footer with the size again.  Free
    chunks keep the links of a doubly linked bucket list in their user data.
    The definitions below translate heap.c one function at a time over the
    state [heap_state]: the bytes of the heap's virtual memory, the global
    [kheap] record, its lock, and the state of the virtual memory manager behind
    the interface of [Interfaces]. *)

From S2P Require Import Prelude Memory Sync Interfaces.
Import Sequential.

Definition HEAP_FREE_CHUNK : Z := 1.
Definition HEAP_WILDERNESS_CHUNK : Z := 2.
Definition BUCKETS_COUNT : Z := 128.
Definition HEAP_CHUNK_MIN_SIZE : Z := 16.
Definition HEAP_ALIGNMENT : Z := 8.
Definition sizeof_HeapChunkHeader : Z := 8.
Definition sizeof_HeapChunkFooter : Z := 8.
Definition HEAP_CHUNK_SPLIT_OVERHEAD : Z := sizeof_HeapChunkHeader + sizeof_HeapChunkFooter.
Definition KERNEL_HEAP_SIZE : Z := 4 * MB.
Definition KERNEL_HEAP_VMM_LOW_SECURITY_PADDING : Z := 16 * KB.
Definition KERNEL_HEAP_VMM_MAX_SIZE : Z := 8 * GB.
Definition KERNEL_HEAP_GROWTH_STEP : Z := 16 * MB.

(** [~7] and [~flag] converted to [uint64_t]. *)
Definition mask_not (x : Z) : Z := wrap64 (Z.lnot x).

Record Heap : Type := MkHeap {
  heap_vmem : VMemHandle;
  enable_growth : bool;
  start : Z;
  size : Z;
  number_of_chunks : Z;
  wilderness_chunk : Z;
  free_buckets : list Z
}.

Definition set_enable_growth (b : bool) (h : Heap) : Heap :=
  MkHeap (heap_vmem h) b (start h) (size h) (number_of_chunks h) (wilderness_chunk h)
    (free_buckets h).
Definition set_size (n : Z) (h : Heap) : Heap :=
  MkHeap (heap_vmem h) (enable_growth h) (start h) n (number_of_chunks h)
    (wilderness_chunk h) (free_buckets h).
Definition set_number_of_chunks (n : Z) (h : Heap) : Heap :=
  MkHeap (heap_vmem h) (enable_growth h) (start h) (size h) n (wilderness_chunk h)
    (free_buckets h).
Definition set_wilderness_chunk (p : Z) (h : Heap) : Heap :=
  MkHeap (heap_vmem h) (enable_growth h) (start h) (size h) (number_of_chunks h) p
    (free_buckets h).
Definition set_free_buckets (l : list Z) (h : Heap) : Heap :=
  MkHeap (heap_vmem h) (enable_growth h) (start h) (size h) (number_of_chunks h)
    (wilderness_chunk h) l.

Record heap_state (V : Type) : Type := HeapState {
  hs_mem : mem;
  kheap : Heap;
  kheap_lock : bool;
  kheap_initialized : bool;
  hs_vmm : V
}.
Arguments HeapState {V} _ _ _ _ _.
Arguments hs_mem {V} _.
Arguments kheap {V} _.
Arguments kheap_lock {V} _.
Arguments kheap_initialized {V} _.
Arguments hs_vmm {V} _.

Section heap.
Context {V : Type} {VP : VMemProvider V}.
Abbreviation state := (heap_state V).
Implicit Types (s : heap_state V).

Definition set_mem (m : mem) s : state :=
  HeapState m (kheap s) (kheap_lock s) (kheap_initialized s) (hs_vmm s).
Definition set_kheap (h : Heap) s : state :=
  HeapState (hs_mem s) h (kheap_lock s) (kheap_initialized s) (hs_vmm s).
Definition set_vmm (v : V) s : state :=
  HeapState (hs_mem s) (kheap s) (kheap_lock s) (kheap_initialized s) v.

Definition lock_lens : lens state bool :=
  Lens kheap_lock (fun b s =>
    HeapState (hs_mem s) (kheap s) b (kheap_initialized s) (hs_vmm s)).
Definition vmm_lens : lens state V := Lens hs_vmm set_vmm.
Definition if_lens : lens state bool :=
  Lens (fun s => view vp_if (hs_vmm s)) (fun b s => set_vmm (put vp_if b (hs_vmm s)) s).

(** Accesses through a pointer; the first page is never mapped, so a NULL
    pointer (plus a field offset) faults. *)
Definition read64 (p : Z) : M state Z :=
  if p <? PAGE_SIZE then fault else gets (fun s => load64 (hs_mem s) p).
Definition write64 (p v : Z) : M state unit :=
  if p <? PAGE_SIZE then fault
  else modify (fun s => set_mem (store64 (hs_mem s) p v) s).

Definition modify_kheap (f : Heap -> Heap) : M state unit :=
  modify (fun s => set_kheap (f (kheap s)) s).

(** [heap->free_buckets[index]]; an index outside the array is a wild access. *)
Definition read_bucket (index : Z) : M state Z :=
  if index <? 0 then fault else
  b <- gets (fun s => free_buckets (kheap s) !! Z.to_nat index);;
  match b with Some p => ret p | None => fault end.
Definition write_bucket (index p : Z) : M state unit :=
  if (index <? 0) || (BUCKETS_COUNT <=? index) then fault
  else modify_kheap (fun h => set_free_buckets (<[Z.to_nat index := p]> (free_buckets h)) h).

(** ** Chunk headers and footers *)

Definition get_fixed_heap_chunk_size (header : Z) : M state Z :=
  sz <- read64 header;;
  ret (Z.land sz (mask_not 7)).

Definition get_heap_chunk_flag (header flag : Z) : M state bool :=
  sz <- read64 header;;
  ret (negb (Z.land sz flag =? 0)).

Definition set_heap_chunk_flag (header flag : Z) : M state unit :=
  sz <- read64 header;;
  write64 header (Z.lor sz flag).

Definition reset_heap_chunk_flag (header flag : Z) : M state unit :=
  sz <- read64 header;;
  write64 header (Z.land sz (mask_not flag)).

Definition get_next_heap_chunk_header (header : Z) : M state Z :=
  sz <- get_fixed_heap_chunk_size header;;
  let raw_header := wrap64 (header + sz) in
  ret (wrap64 (raw_header + (sizeof_HeapChunkHeader + sizeof_HeapChunkFooter))).

Definition get_fixed_heap_chunk_size_from_footer (footer : Z) : M state Z :=
  sz <- read64 footer;;
  ret (Z.land sz (mask_not 7)).

Definition get_heap_chunk_header_from_footer (footer : Z) : M state Z :=
  sz <- get_fixed_heap_chunk_size_from_footer footer;;
  let raw_footer := wrap64 (footer - sz) in
  ret (wrap64 (raw_footer - sizeof_HeapChunkHeader)).

Definition get_heap_chunk_footer_from_header (header : Z) : M state Z :=
  let raw_header := wrap64 (header + sizeof_HeapChunkHeader) in
  sz <- get_fixed_heap_chunk_size header;;
  ret (wrap64 (raw_header + sz)).

Definition get_prev_heap_chunk_header (header : Z) : M state Z :=
  get_heap_chunk_header_from_footer (wrap64 (header - sizeof_HeapChunkFooter)).

Definition get_heap_chunk_user_data (header : Z) : Z :=
  wrap64 (header + sizeof_HeapChunkHeader).

Definition get_heap_chunk_from_user_data (user_data : Z) : Z :=
  wrap64 (user_data - sizeof_HeapChunkHeader).

Definition is_heap_chunk_corrupted (header : Z) : M state bool :=
  footer <- get_heap_chunk_footer_from_header header;;
  size1 <- get_fixed_heap_chunk_size_from_footer footer;;
  size2 <- get_fixed_heap_chunk_size header;;
  if negb (size1 =? size2) then ret true else
  if size1 <? HEAP_CHUNK_MIN_SIZE then ret true else
  raw <- read64 footer;;
  if negb (Z.land raw 7 =? 0) then ret true else
  ret false.

(** ** Links of the bucket lists *)

Definition set_bucket_list_next (header next : Z) : M state unit :=
  f <- get_heap_chunk_flag header HEAP_FREE_CHUNK;; KASSERT f;;
  write64 (get_heap_chunk_user_data header) next.

Definition get_bucket_list_next (header : Z) : M state Z :=
  f <- get_heap_chunk_flag header HEAP_FREE_CHUNK;; KASSERT f;;
  read64 (get_heap_chunk_user_data header).

Definition set_bucket_list_prev (header prev : Z) : M state unit :=
  f <- get_heap_chunk_flag header HEAP_FREE_CHUNK;; KASSERT f;;
  write64 (wrap64 (get_heap_chunk_user_data header + 8)) prev.

Definition get_bucket_list_prev (header : Z) : M state Z :=
  f <- get_heap_chunk_flag header HEAP_FREE_CHUNK;; KASSERT f;;
  read64 (wrap64 (get_heap_chunk_user_data header + 8)).

Definition get_bucket_index_from_size (size : Z) : Z :=
  let max_first := 8 * 64 in
  let max_index_first := 63 in
  if size <=? max_first then size / 8 - 1 else
  let max_second := max_first + 64 * 32 in
  let max_index_second := max_index_first + 32 in
  if size <=? max_second then max_index_first + 1 + (size - max_first) / 64 else
  let index := max_index_second + 1 + (size - max_second) / 512 in
  if BUCKETS_COUNT <=? index then BUCKETS_COUNT - 1 else index.

Definition get_bucket_index_from_header (header : Z) : M state Z :=
  w <- get_heap_chunk_flag header HEAP_WILDERNESS_CHUNK;;
  if w then ret (BUCKETS_COUNT - 1) else
  sz <- get_fixed_heap_chunk_size header;;
  ret (get_bucket_index_from_size sz).

Definition remove_from_bucket_list (header : Z) : M state unit :=
  index <- get_bucket_index_from_header header;;
  prev_list_elem <- get_bucket_list_prev header;;
  next_list_elem <- get_bucket_list_next header;;
  f <- get_heap_chunk_flag header HEAP_FREE_CHUNK;; KASSERT f;;
  first <- read_bucket index;;
  when (first =? header) (write_bucket index next_list_elem);;
  (if negb (prev_list_elem =? NULL) && negb (next_list_elem =? NULL) then
     set_bucket_list_next prev_list_elem next_list_elem;;
     set_bucket_list_prev next_list_elem prev_list_elem
   else if (prev_list_elem =? NULL) && negb (next_list_elem =? NULL) then
     set_bucket_list_prev next_list_elem NULL
   else if negb (prev_list_elem =? NULL) && (next_list_elem =? NULL) then
     set_bucket_list_next prev_list_elem NULL
   else ret tt);;
  set_bucket_list_next header NULL;;
  set_bucket_list_prev header NULL.

Definition add_to_bucket_list (header : Z) : M state unit :=
  index <- get_bucket_index_from_header header;;
  set_bucket_list_prev header NULL;;
  first <- read_bucket index;;
  set_bucket_list_next header first;;
  when (negb (first =? NULL)) (set_bucket_list_prev first header);;
  write_bucket index header.

(** ** Initialisation and growth *)

Definition initialize_heap (vmem : VMemHandle) : M state unit :=
  start <- gets (fun s => get_vmem_addr vmem (hs_vmm s));;
  size <- gets (fun s => get_vmem_size vmem (hs_vmm s));;
  KASSERT (128 <? size);;
  KASSERT (start mod 8 =? 0);;
  KASSERT (size mod 8 =? 0);;
  modify_kheap (fun h =>
    MkHeap vmem false start size 1 (wilderness_chunk h)
      (replicate (Z.to_nat BUCKETS_COUNT) NULL));;
  let user_data_size := wrap64 (size - sizeof_HeapChunkFooter - sizeof_HeapChunkHeader) in
  let chunk_header := start in
  write64 chunk_header user_data_size;;
  set_heap_chunk_flag chunk_header HEAP_WILDERNESS_CHUNK;;
  set_heap_chunk_flag chunk_header HEAP_FREE_CHUNK;;
  chunk_footer <- get_heap_chunk_footer_from_header chunk_header;;
  write64 chunk_footer user_data_size;;
  modify_kheap (set_wilderness_chunk chunk_header);;
  add_to_bucket_list chunk_header.

Definition is_first_chunk_of_heap (header : Z) : M state bool :=
  gets (fun s => start (kheap s) =? header).

Definition is_last_chunk_of_heap (header : Z) : M state bool :=
  get_heap_chunk_flag header HEAP_WILDERNESS_CHUNK.

Definition enable_heap_growth : M state unit := modify_kheap (set_enable_growth true).

(** The size by which the heap asks to grow for a request of [min_size_increase]. *)
Definition wilderness_growth_size (min_size_increase : Z) : Z :=
  let min_size_increase :=
    wrap64 (min_size_increase + (sizeof_HeapChunkFooter + sizeof_HeapChunkHeader)) in
  let growth_size :=
    if KERNEL_HEAP_GROWTH_STEP <? min_size_increase then min_size_increase
    else KERNEL_HEAP_GROWTH_STEP in
  if negb (growth_size mod PAGE_SIZE =? 0)
  then wrap64 (growth_size + (PAGE_SIZE - growth_size mod PAGE_SIZE))
  else growth_size.

Definition try_increase_wilderness_chunk (min_size_increase : Z) : M state bool :=
  let growth_size := wilderness_growth_size min_size_increase in
  KASSERT (growth_size mod PAGE_SIZE =? 0);;
  growth <- gets (fun s => enable_growth (kheap s));;
  if negb growth then ret false else
  vmem <- gets (fun s => heap_vmem (kheap s));;
  expanded <- zoom vmm_lens (try_expand_vmem_top vmem growth_size);;
  if negb expanded then ret false else
  modify_kheap (fun h => set_size (wrap64 (size h + growth_size)) h);;
  wilderness <- gets (fun s => wilderness_chunk (kheap s));;
  w <- get_heap_chunk_flag wilderness HEAP_WILDERNESS_CHUNK;; KASSERT w;;
  sz <- read64 wilderness;;
  write64 wilderness (wrap64 (sz + growth_size));;
  new_footer <- get_heap_chunk_footer_from_header wilderness;;
  h <- gets kheap;;
  KASSERT (wrap64 (new_footer + sizeof_HeapChunkFooter) =? wrap64 (start h + size h));;
  sz <- read64 wilderness;;
  write64 new_footer (Z.land sz (mask_not 7));;
  ret true.

(** ** Merging and splitting *)

Definition merge_with_next_chunk (header : Z) : M state unit :=
  last <- is_last_chunk_of_heap header;; KASSERT (negb last);;
  next <- get_next_heap_chunk_header header;;
  f1 <- get_heap_chunk_flag header HEAP_FREE_CHUNK;; KASSERT f1;;
  f2 <- get_heap_chunk_flag next HEAP_FREE_CHUNK;; KASSERT f2;;
  is_wilderness_chunk <- get_heap_chunk_flag next HEAP_WILDERNESS_CHUNK;;
  old_last_footer <- get_heap_chunk_footer_from_header next;;
  remove_from_bucket_list header;;
  remove_from_bucket_list next;;
  next_size <- get_fixed_heap_chunk_size next;;
  header_size <- get_fixed_heap_chunk_size header;;
  let new_size :=
    wrap64 (next_size + header_size + sizeof_HeapChunkFooter + sizeof_HeapChunkHeader) in
  KASSERT (new_size mod 8 =? 0);;
  KASSERT (HEAP_CHUNK_MIN_SIZE <=? new_size);;
  write64 header new_size;;
  set_heap_chunk_flag header HEAP_FREE_CHUNK;;
  when is_wilderness_chunk
    (set_heap_chunk_flag header HEAP_WILDERNESS_CHUNK;;
     modify_kheap (set_wilderness_chunk header));;
  footer <- get_heap_chunk_footer_from_header next;;
  write64 footer new_size;;
  KASSERT (footer =? old_last_footer);;
  add_to_bucket_list header;;
  modify_kheap (fun h => set_number_of_chunks (wrap64 (number_of_chunks h - 1)) h).

Definition merge_with_next_and_prev_chunk (header : Z) : M state unit :=
  last <- is_last_chunk_of_heap header;; KASSERT (negb last);;
  first <- is_first_chunk_of_heap header;; KASSERT (negb first);;
  next <- get_next_heap_chunk_header header;;
  prev <- get_prev_heap_chunk_header header;;
  f1 <- get_heap_chunk_flag header HEAP_FREE_CHUNK;; KASSERT f1;;
  f2 <- get_heap_chunk_flag prev HEAP_FREE_CHUNK;; KASSERT f2;;
  f3 <- get_heap_chunk_flag next HEAP_FREE_CHUNK;; KASSERT f3;;
  old_last_footer <- get_heap_chunk_footer_from_header next;;
  is_wilderness_chunk <- get_heap_chunk_flag next HEAP_WILDERNESS_CHUNK;;
  remove_from_bucket_list header;;
  remove_from_bucket_list next;;
  remove_from_bucket_list prev;;
  header_size <- get_fixed_heap_chunk_size header;;
  next_size <- get_fixed_heap_chunk_size next;;
  prev_size <- get_fixed_heap_chunk_size prev;;
  let new_size := sizeof_HeapChunkFooter * 2 + sizeof_HeapChunkHeader * 2 in
  let new_size := wrap64 (new_size + header_size) in
  let new_size := wrap64 (new_size + next_size) in
  let new_size := wrap64 (new_size + prev_size) in
  KASSERT (new_size mod 8 =? 0);;
  KASSERT (HEAP_CHUNK_MIN_SIZE <=? new_size);;
  write64 prev new_size;;
  set_heap_chunk_flag prev HEAP_FREE_CHUNK;;
  when is_wilderness_chunk
    (set_heap_chunk_flag prev HEAP_WILDERNESS_CHUNK;;
     modify_kheap (set_wilderness_chunk prev));;
  footer <- get_heap_chunk_footer_from_header prev;;
  write64 footer new_size;;
  KASSERT (footer =? old_last_footer);;
  add_to_bucket_list prev;;
  modify_kheap (fun h => set_number_of_chunks (wrap64 (number_of_chunks h - 2)) h).

Definition split_chunk_and_alloc (header first_chunk_size : Z) : M state bool :=
  f <- get_heap_chunk_flag header HEAP_FREE_CHUNK;; KASSERT f;;
  KASSERT (first_chunk_size mod 8 =? 0);;
  KASSERT (HEAP_CHUNK_MIN_SIZE <=? first_chunk_size);;
  old_footer <- get_heap_chunk_footer_from_header header;;
  sz <- get_fixed_heap_chunk_size header;;
  let second_chunk_size :=
    to_i64 (sz - (first_chunk_size + sizeof_HeapChunkFooter + sizeof_HeapChunkHeader)) in
  if second_chunk_size <? HEAP_CHUNK_MIN_SIZE then ret false else
  KASSERT (second_chunk_size mod 8 =? 0);;
  is_header_wilderness_chunk <- get_heap_chunk_flag header HEAP_WILDERNESS_CHUNK;;
  remove_from_bucket_list header;;
  write64 header first_chunk_size;;
  first_chunk_footer <- get_heap_chunk_footer_from_header header;;
  write64 first_chunk_footer first_chunk_size;;
  second_chunk <- get_next_heap_chunk_header header;;
  write64 second_chunk (wrap64 second_chunk_size);;
  set_heap_chunk_flag second_chunk HEAP_FREE_CHUNK;;
  when is_header_wilderness_chunk
    (set_heap_chunk_flag second_chunk HEAP_WILDERNESS_CHUNK;;
     modify_kheap (set_wilderness_chunk second_chunk));;
  second_chunk_footer <- get_heap_chunk_footer_from_header second_chunk;;
  write64 second_chunk_footer (wrap64 second_chunk_size);;
  add_to_bucket_list second_chunk;;
  KASSERT (second_chunk_footer =? old_footer);;
  modify_kheap (fun h => set_number_of_chunks (wrap64 (number_of_chunks h + 1)) h);;
  ret true.

Definition alloc_chunk (header : Z) : M state unit :=
  w <- get_heap_chunk_flag header HEAP_WILDERNESS_CHUNK;; KASSERT (negb w);;
  remove_from_bucket_list header;;
  reset_heap_chunk_flag header HEAP_FREE_CHUNK.

(** ** The public operations *)

Definition kheap_init : M state unit :=
  init_spinlock lock_lens;;
  KASSERT (PAGE_SIZE mod HEAP_ALIGNMENT =? 0);;
  kheap_mem <- zoom vmm_lens (allocate_kernel_virtual_memory KERNEL_HEAP_SIZE VM_TYPE_HEAP
                 KERNEL_HEAP_VMM_MAX_SIZE KERNEL_HEAP_VMM_LOW_SECURITY_PADDING);;
  initialize_heap kheap_mem;;
  modify (fun s => HeapState (hs_mem s) (kheap s) (kheap_lock s) true (hs_vmm s)).

(** The size [kmalloc] works with: at least 16 bytes, rounded up to 8. *)
Definition kmalloc_round (size : Z) : Z :=
  let size := if size <? HEAP_CHUNK_MIN_SIZE then HEAP_CHUNK_MIN_SIZE else size in
  if negb (size mod 8 =? 0) then wrap64 (size + (8 - size mod 8)) else size.

(** The inner [for] loop of the search; [found_chunk] is NULL until a candidate
    is accepted, and the step expression of the loop still runs once after. *)
Fixpoint search_bucket (fuel : nat) (candidate size : Z) : M state Z :=
  if candidate =? NULL then ret NULL else
  match fuel with
  | O => out_of_fuel
  | S fuel' =>
      candidate_size <- get_fixed_heap_chunk_size candidate;;
      let splittable := HEAP_CHUNK_MIN_SIZE + HEAP_CHUNK_SPLIT_OVERHEAD <=? candidate_size in
      next <- get_bucket_list_next candidate;;
      if (candidate_size =? size) || splittable then ret candidate
      else search_bucket fuel' next size
  end.

(** The outer [while(found_chunk == NULL && bucket_idx < BUCKETS_COUNT)]: [n] is
    the number of buckets left. *)
Fixpoint search_buckets (n fuel : nat) (bucket_idx size : Z) : M state Z :=
  match n with
  | O => ret NULL
  | S n' =>
      first <- read_bucket bucket_idx;;
      found_chunk <- search_bucket fuel first size;;
      if found_chunk =? NULL then search_buckets n' fuel (bucket_idx + 1) size
      else ret found_chunk
  end.

(** No bucket list is longer than the number of chunks, which bounds the walk
    of one list. *)
Definition kmalloc_search (size : Z) : M state Z :=
  let bucket_idx := get_bucket_index_from_size size in
  fuel <- gets (fun s => Z.to_nat (number_of_chunks (kheap s)));;
  found_chunk <- search_buckets (Z.to_nat (BUCKETS_COUNT - bucket_idx)) fuel bucket_idx size;;
  if found_chunk =? NULL then gets (fun s => wilderness_chunk (kheap s))
  else ret found_chunk.

(** From the chunk the search found to the allocated one. *)
Definition kmalloc_take (found_chunk size : Z) : M state unit :=
  is_found_wilderness <- get_heap_chunk_flag found_chunk HEAP_WILDERNESS_CHUNK;;
  if negb is_found_wilderness then
    found_size <- get_fixed_heap_chunk_size found_chunk;;
    if found_size =? size then
      KASSERT (negb is_found_wilderness);;
      alloc_chunk found_chunk
    else
      KASSERT (HEAP_CHUNK_MIN_SIZE + HEAP_CHUNK_SPLIT_OVERHEAD <=? found_size);;
      _ <- split_chunk_and_alloc found_chunk size;;
      ret tt
  else
    KASSERT is_found_wilderness;;
    ok <- split_chunk_and_alloc found_chunk size;;
    when (negb ok)
      (increased <- try_increase_wilderness_chunk size;;
       when (negb increased) (kpanic HEAP_OUT_OF_MEM);;
       ok' <- split_chunk_and_alloc found_chunk size;;
       when (negb ok') (kpanic HEAP_OUT_OF_MEM)).

Definition kmalloc (size : Z) : M state Z :=
  with_spinlock_hard lock_lens if_lens
    (let size := kmalloc_round size in
     found_chunk <- kmalloc_search size;;
     kmalloc_take found_chunk size;;
     ret (get_heap_chunk_user_data found_chunk)).

(** The end of [kfree]: list the chunk, or merge it with its free neighbours. *)
Definition kfree_coalesce (header : Z) : M state unit :=
  is_first <- is_first_chunk_of_heap header;;
  prev <- (if negb is_first then get_prev_heap_chunk_header header else ret NULL);;
  is_last <- is_last_chunk_of_heap header;;
  next <- (if negb is_last then get_next_heap_chunk_header header else ret NULL);;
  prev <- (if negb (prev =? NULL)
           then pf <- get_heap_chunk_flag prev HEAP_FREE_CHUNK;;
                ret (if negb pf then NULL else prev)
           else ret prev);;
  next <- (if negb (next =? NULL)
           then nf <- get_heap_chunk_flag next HEAP_FREE_CHUNK;;
                ret (if negb nf then NULL else next)
           else ret next);;
  if (prev =? NULL) && (next =? NULL) then add_to_bucket_list header
  else if negb (prev =? NULL) && (next =? NULL) then merge_with_next_chunk prev
  else if (prev =? NULL) && negb (next =? NULL) then merge_with_next_chunk header
  else merge_with_next_and_prev_chunk header.

Definition kfree (ptr : Z) : M state unit :=
  with_spinlock_hard lock_lens if_lens
    (let header := get_heap_chunk_from_user_data ptr in
     f <- get_heap_chunk_flag header HEAP_FREE_CHUNK;;
     when f (kpanic HEAP_CORRUPTED);;
     w <- get_heap_chunk_flag header HEAP_WILDERNESS_CHUNK;;
     when w (kpanic HEAP_CORRUPTED);;
     c <- is_heap_chunk_corrupted header;;
     when c (kpanic HEAP_CORRUPTED);;
     set_heap_chunk_flag header HEAP_FREE_CHUNK;;
     set_bucket_list_next header NULL;;
     set_bucket_list_prev header NULL;;
     kfree_coalesce header).

Definition get_number_of_chunks_of_kheap : M state Z :=
  with_spinlock_hard lock_lens if_lens (gets (fun s => number_of_chunks (kheap s))).

Definition get_kheap_total_size : M state Z :=
  with_spinlock_hard lock_lens if_lens (gets (fun s => size (kheap s))).

Definition enable_kheap_growth : M state unit :=
  with_spinlock_hard lock_lens if_lens enable_heap_growth.

(** The walk of [unsync_is_kheap_corrupted]: [count] is
    [empirical_number_of_chunks]; it stops at the latest when [count] exceeds
    [number_of_chunks], so that many steps are enough. *)
Fixpoint corrupted_walk (fuel : nat) (header count : Z) : M state bool :=
  h <- gets kheap;;
  if header =? NULL then ret (negb (count =? number_of_chunks h)) else
  match fuel with
  | O => out_of_fuel
  | S fuel' =>
      let count := wrap64 (count + 1) in
      if number_of_chunks h <? count then ret true else
      raw <- read64 header;;
      if (header <? start h) || (wrap64 (start h + size h) <? wrap64 (header + raw))
      then ret true else
      c <- is_heap_chunk_corrupted header;;
      if c then ret true else
      last <- is_last_chunk_of_heap header;;
      next <- (if last then ret NULL else get_next_heap_chunk_header header);;
      corrupted_walk fuel' next count
  end.

Definition unsync_is_kheap_corrupted : M state bool :=
  h <- gets kheap;;
  if negb (size h mod PAGE_SIZE =? 0) then ret true else
  if negb (start h mod PAGE_SIZE =? 0) then ret true else
  corrupted_walk (Z.to_nat (number_of_chunks h) + 1) (start h) 0.

Definition is_kheap_corrupted : M state bool :=
  with_spinlock_hard lock_lens if_lens unsync_is_kheap_corrupted.

End heap.
