(* ===== verification/HeapRegion.v ===== *)
(** A virtual memory provider with one region of fixed base and a bounded
    size, as a closed instance of the interface on which runs of the heap can
    be evaluated. *)

From S2P Require Import Prelude Interfaces.

Record region : Type := Region {
  region_if : bool;
  region_base : Z;
  region_size : Z;
  region_limit : Z
}.

Definition region_handle : VMemHandle := MkVMemHandle 64 128.

#[export] Instance region_provider : VMemProvider region := {
  vp_if := Lens region_if (fun b r =>
    Region b (region_base r) (region_size r) (region_limit r));
  get_vmem_addr _ r := region_base r;
  get_vmem_size _ r := region_size r;
  try_expand_vmem_top _ sz r :=
    if region_size r + sz <=? region_limit r
    then Ok (true, Region (region_if r) (region_base r) (region_size r + sz) (region_limit r))
    else Ok (false, r);
  allocate_kernel_virtual_memory sz _ up _ r :=
    Ok (region_handle, Region (region_if r) (region_base r) sz (sz + up))
}.

Definition region_live (h : VMemHandle) (r : region) : Prop :=
  PAGE_SIZE <= region_base r /\ region_base r mod PAGE_SIZE = 0 /\
  0 <= region_size r <= region_limit r /\ region_size r mod PAGE_SIZE = 0 /\
  region_limit r < 2 ^ 47 /\ region_base r + region_limit r < 2 ^ 64.

Definition region_wf (r : region) : Prop :=
  PAGE_SIZE <= region_base r /\ region_base r mod PAGE_SIZE = 0 /\
  region_base r + 2 ^ 46 <= 2 ^ 64.

#[export] Instance region_laws : VMemLaws region.
Proof.
  refine {| vmem_live := region_live; vmem_wf := region_wf |};
    unfold region_live, region_wf; simpl.
  - by split; simpl; intros; try destruct s.
  - done.
  - done.
  - done.
  - intros h v H. lia.
  - intros h sz v b v' H Hs Hm He.
    destruct (Z.leb_spec (region_size v + sz) (region_limit v)); simplify_eq; simpl;
      split_and!; try done; unfold PAGE_SIZE in *; lia.
  - intros sz ty up low v h v' H Hs Hu Hl Hb Hm _ _ _ [= <- <-] _. simpl. lia.
Defined.
