(* ===== verification/HeapChunks.v ===== *)
(** * Chunks, layouts and bucket lists in memory

    The vocabulary of the heap invariant: the header word, the placement of a
    list of chunks from a base address, doubly linked segments, and the
    preservation of each under writes elsewhere.  The lemmas of the last part
    give the result of every accessor of heap.c on a well-formed chunk. *)

From S2P Require Import Prelude Memory Sync Interfaces Heap.

(** ** Header words *)

Definition hdr (sz : Z) (free wild : bool) : Z :=
  sz + ((if free then 1 else 0) + (if wild then 2 else 0)).

Definition size_ok (sz : Z) : Prop := 0 <= sz /\ sz mod 8 = 0 /\ sz + 8 < 2 ^ 64.

Lemma hdr_range sz f w : size_ok sz -> 0 <= hdr sz f w < 2 ^ 64.
Proof. unfold size_ok, hdr. destruct f, w; lia. Qed.

Lemma hdr_low sz f w :
  size_ok sz ->
  hdr sz f w = (sz / 8) * 2 ^ 3 + ((if f then 1 else 0) + (if w then 2 else 0)).
Proof. unfold size_ok, hdr. lia. Qed.

Lemma hdr_size sz f w : size_ok sz -> Z.land (hdr sz f w) (mask_not 7) = sz.
Proof.
  intros H. pose proof (hdr_range sz f w H).
  change (mask_not 7) with (2 ^ 64 - 2 ^ 3). rewrite land_high_mask by lia.
  unfold size_ok, hdr in *. destruct f, w; lia.
Qed.

Lemma hdr_free sz f w : size_ok sz -> (Z.land (hdr sz f w) HEAP_FREE_CHUNK =? 0) = negb f.
Proof.
  intros H. rewrite hdr_low, land_low_bits by (done || unfold HEAP_FREE_CHUNK; lia).
  by destruct f, w.
Qed.

Lemma hdr_wild sz f w :
  size_ok sz -> (Z.land (hdr sz f w) HEAP_WILDERNESS_CHUNK =? 0) = negb w.
Proof.
  intros H. rewrite hdr_low, land_low_bits by (done || unfold HEAP_WILDERNESS_CHUNK; lia).
  by destruct f, w.
Qed.

Lemma hdr_set_free sz f w : size_ok sz -> Z.lor (hdr sz f w) HEAP_FREE_CHUNK = hdr sz true w.
Proof.
  intros H. unfold HEAP_FREE_CHUNK.
  rewrite !hdr_low, lor_low_bits by (done || destruct f, w; lia). by destruct f, w.
Qed.

Lemma hdr_set_wild sz f w :
  size_ok sz -> Z.lor (hdr sz f w) HEAP_WILDERNESS_CHUNK = hdr sz f true.
Proof.
  intros H. unfold HEAP_WILDERNESS_CHUNK.
  rewrite !hdr_low, lor_low_bits by (done || destruct f, w; lia). by destruct f, w.
Qed.

(** [2^64 - 2] keeps the second flag bit: split it off before masking. *)
Lemma hdr_reset_free sz f w :
  size_ok sz -> Z.land (hdr sz f w) (mask_not HEAP_FREE_CHUNK) = hdr sz false w.
Proof.
  intros H. pose proof (hdr_range sz f w H).
  change (mask_not HEAP_FREE_CHUNK) with (2 ^ 64 - 2 ^ 1). rewrite land_high_mask by lia.
  unfold size_ok, hdr in *. destruct f, w; lia.
Qed.

Lemma hdr_plain sz : hdr sz false false = sz.
Proof. unfold hdr. lia. Qed.

Lemma size_low_bits sz : size_ok sz -> (Z.land sz 7 =? 0) = true.
Proof.
  intros (H0 & H8 & _). replace sz with ((sz / 8) * 2 ^ 3 + 0) by lia.
  by rewrite land_low_bits by lia.
Qed.

Lemma size_plain sz : size_ok sz -> Z.land sz (mask_not 7) = sz.
Proof. intros H. rewrite <-(hdr_plain sz) at 1. by rewrite hdr_size. Qed.

(** ** Chunks and their placement *)

Record chunk : Type := Chunk { c_size : Z; c_free : bool; c_wild : bool }.

#[export] Instance chunk_eq_dec : EqDecision chunk.
Proof. solve_decision. Defined.

Definition span (c : chunk) : Z := c_size c + 16.
Definition chunk_wf (c : chunk) : Prop := 16 <= c_size c /\ c_size c mod 8 = 0.

(** Header and footer of chunk [c] at address [x]. *)
Definition chunk_ok (m : mem) (xc : Z * chunk) : Prop :=
  let (x, c) := xc in
  load64 m x = hdr (c_size c) (c_free c) (c_wild c) /\
  load64 m (x + 8 + c_size c) = c_size c.

Fixpoint place (a : Z) (cs : list chunk) : list (Z * chunk) :=
  match cs with
  | [] => []
  | c :: cs' => (a, c) :: place (a + span c) cs'
  end.

Fixpoint total (cs : list chunk) : Z :=
  match cs with
  | [] => 0
  | c :: cs' => span c + total cs'
  end.

Lemma total_app l1 l2 : total (l1 ++ l2) = total l1 + total l2.
Proof. induction l1 as [|c l1 IH]; simpl; lia. Qed.

Lemma total_nonneg cs : Forall chunk_wf cs -> 0 <= total cs.
Proof.
  induction 1 as [|c cs [H1 H2] _ IH]; simpl; [lia|]. unfold span. lia.
Qed.

Lemma total_mod8 cs : Forall chunk_wf cs -> total cs mod 8 = 0.
Proof.
  induction 1 as [|c cs [H1 H2] _ IH]; simpl; [done|]. unfold span. lia.
Qed.

Lemma place_app a l1 l2 : place a (l1 ++ l2) = place a l1 ++ place (a + total l1) l2.
Proof.
  revert a. induction l1 as [|c l1 IH]; intros a; simpl.
  - by rewrite Z.add_0_r.
  - rewrite IH. do 3 f_equal. lia.
Qed.

Lemma place_bounds a cs x c :
  Forall chunk_wf cs -> (x, c) ∈ place a cs ->
  chunk_wf c /\ a <= x /\ x + span c <= a + total cs.
Proof.
  intros HF. revert a. induction HF as [|d cs Hd HF IH]; intros a; simpl.
  { by intros ?%elem_of_nil. }
  pose proof (total_nonneg cs HF).
  intros [[= -> ->]|Hin]%elem_of_cons; [split_and!; [done|lia..]|].
  apply IH in Hin. destruct Hd. unfold span in *. intuition lia.
Qed.

Lemma place_mod8 a cs x c :
  Forall chunk_wf cs -> a mod 8 = 0 -> (x, c) ∈ place a cs -> x mod 8 = 0.
Proof.
  intros HF. revert a. induction HF as [|d cs [H1 H2] HF IH]; intros a Ha; simpl.
  { by intros ?%elem_of_nil. }
  intros [[= -> ->]|Hin]%elem_of_cons; [done|].
  apply IH in Hin; [done|]. unfold span. lia.
Qed.

(** Two placed chunks are the same or do not overlap. *)
Lemma place_disjoint a cs x c y d :
  Forall chunk_wf cs -> (x, c) ∈ place a cs -> (y, d) ∈ place a cs ->
  (x = y /\ c = d) \/ x + span c <= y \/ y + span d <= x.
Proof.
  intros HF. revert a. induction HF as [|e cs He HF IH]; intros a; simpl.
  { by intros ?%elem_of_nil. }
  intros [[= -> ->]|Hx]%elem_of_cons [[= -> ->]|Hy]%elem_of_cons.
  - auto.
  - destruct (place_bounds _ _ _ _ HF Hy) as (? & ? & ?). auto.
  - destruct (place_bounds _ _ _ _ HF Hx) as (? & ? & ?). auto.
  - eauto.
Qed.

Lemma place_unique a cs x c d :
  Forall chunk_wf cs -> (x, c) ∈ place a cs -> (x, d) ∈ place a cs -> c = d.
Proof.
  intros W Hc Hd.
  destruct (place_bounds _ _ _ _ W Hc) as ([? _] & _).
  destruct (place_bounds _ _ _ _ W Hd) as ([? _] & _).
  destruct (place_disjoint _ _ _ _ _ _ W Hc Hd) as [[_ ->]|]; [done|unfold span in *; lia].
Qed.

Lemma place_split a cs x c :
  (x, c) ∈ place a cs ->
  exists l1 l2, cs = l1 ++ c :: l2 /\ x = a + total l1.
Proof.
  revert a. induction cs as [|d cs IH]; intros a; simpl; [by intros ?%elem_of_nil|].
  intros [[= -> ->]|Hin]%elem_of_cons.
  - exists [], cs. split; [done|simpl; lia].
  - apply IH in Hin as (l1 & l2 & -> & ->). exists (d :: l1), l2.
    split; [done|simpl; lia].
Qed.

Lemma place_elem a l1 c l2 : (a + total l1, c) ∈ place a (l1 ++ c :: l2).
Proof. rewrite place_app. simpl. set_solver. Qed.

Lemma chunk_ok_agree lo hi m m' x c :
  chunk_wf c -> agree_outside lo hi m m' -> x + span c <= lo \/ hi <= x ->
  chunk_ok m (x, c) -> chunk_ok m' (x, c).
Proof.
  unfold chunk_ok, span, chunk_wf. intros [H1 H2] HA HD [Hh Hf].
  split; rewrite HA by lia; done.
Qed.

Lemma chunks_ok_agree lo hi m m' a cs :
  Forall chunk_wf cs -> agree_outside lo hi m m' ->
  a + total cs <= lo \/ hi <= a ->
  Forall (chunk_ok m) (place a cs) -> Forall (chunk_ok m') (place a cs).
Proof.
  intros HW HA HD HF. rewrite Forall_forall in HF |- *. intros [x c] Hin.
  destruct (place_bounds _ _ _ _ HW Hin) as (? & ? & ?).
  eapply chunk_ok_agree; [done|exact HA|lia|]. by apply HF.
Qed.

(** Writing a link word of a placed chunk changes no header or footer. *)
Lemma chunks_ok_link a cs m x c o v :
  Forall chunk_wf cs -> (x, c) ∈ place a cs -> o = 8 \/ o = 16 ->
  Forall (chunk_ok m) (place a cs) ->
  Forall (chunk_ok (store64 m (x + o) v)) (place a cs).
Proof.
  intros HW Hin Ho HF. rewrite Forall_forall in HF |- *. intros [y d] Hy.
  destruct (place_bounds _ _ _ _ HW Hin) as ([? ?] & ? & ?).
  destruct (place_bounds _ _ _ _ HW Hy) as ([? ?] & ? & ?).
  pose proof (place_disjoint _ _ _ _ _ _ HW Hin Hy) as HD.
  specialize (HF _ Hy) as [Hh Hf]. unfold chunk_ok, span in *.
  destruct HD as [[-> ->]|HD]; split; rewrite load64_store64_ne by lia; done.
Qed.

(** ** Doubly linked segments

    [dseg m p a l q n]: the nodes [l] are linked in [m]; [p] precedes the first,
    whose address is [a]; [q] is the last and [n] follows it.  The [next] word of
    a node is at offset 8 and the [prev] word at offset 16. *)
Fixpoint dseg (m : mem) (p a : Z) (l : list Z) (q n : Z) : Prop :=
  match l with
  | [] => a = n /\ q = p
  | x :: l' => a = x /\ load64 m (x + 16) = p /\ dseg m x (load64 m (x + 8)) l' q n
  end.

Lemma dseg_cons m p a x l q n :
  a = x -> load64 m (x + 16) = p -> dseg m x (load64 m (x + 8)) l q n ->
  dseg m p a (x :: l) q n.
Proof. done. Qed.

(** Distinct nodes are far enough apart for their link words not to overlap. *)
Definition spaced (l : list Z) : Prop :=
  forall x y, x ∈ l -> y ∈ l -> x <> y -> x + 32 <= y \/ y + 32 <= x.

Lemma spaced_sub l l' : (forall x, x ∈ l' -> x ∈ l) -> spaced l -> spaced l'.
Proof. unfold spaced. eauto. Qed.

Lemma dseg_app m p a l1 l2 q n :
  dseg m p a (l1 ++ l2) q n <->
  exists j jn, dseg m p a l1 j jn /\ dseg m j jn l2 q n.
Proof.
  revert p a. induction l1 as [|x l1 IH]; intros p a; simpl.
  - split; [by exists p, a|]. by intros (j & jn & [-> ->] & H).
  - split.
    + intros (-> & H1 & (j & jn & H2 & H3)%IH). exists j, jn. auto.
    + intros (j & jn & (-> & H1 & H2) & H3). split_and!; [done..|].
      apply IH. eauto.
Qed.

Lemma dseg_ext m m' p a l q n :
  (forall x, x ∈ l -> load64 m' (x + 8) = load64 m (x + 8) /\
                      load64 m' (x + 16) = load64 m (x + 16)) ->
  dseg m p a l q n -> dseg m' p a l q n.
Proof.
  revert p a. induction l as [|x l IH]; intros p a HE; simpl; [done|].
  intros (-> & H1 & H2). destruct (HE x) as [E1 E2]; [set_solver|].
  rewrite E1, E2. split_and!; [done..|]. apply IH; [set_solver|done].
Qed.

(** A write to a link word of a node outside the segment. *)
Lemma dseg_store_out m p a l q n x o v :
  spaced (x :: l) -> x ∉ l -> o = 8 \/ o = 16 ->
  dseg m p a l q n -> dseg (store64 m (x + o) v) p a l q n.
Proof.
  intros HS Hx Ho. apply dseg_ext. intros y Hy.
  assert (x <> y) by set_solver.
  destruct (HS x y) as [?|?]; [set_solver..|done| |];
    split; rewrite load64_store64_ne by lia; done.
Qed.

Lemma dseg_last m p a l q n : l <> [] -> dseg m p a l q n -> last l = Some q.
Proof.
  revert p a. induction l as [|x l IH]; intros p a; [done|]. simpl.
  intros _ (-> & H1 & H2). destruct l as [|y l]; [by destruct H2 as [_ ->]|].
  eapply IH; done.
Qed.

Lemma dseg_head m p a l q n :
  dseg m p a l q n -> a = match l with [] => n | x :: _ => x end.
Proof. by destruct l; intros [-> _]. Qed.

(** Redirecting the [next] word of the last node. *)
Lemma dseg_set_next m p a l q n n' :
  l <> [] -> NoDup l -> spaced l -> 0 <= n' < 2 ^ 64 ->
  dseg m p a l q n -> dseg (store64 m (q + 8) n') p a l q n'.
Proof.
  intros Hne HND HS Hn H.
  destruct (exists_last Hne) as (l' & y & ->).
  pose proof (dseg_last _ _ _ _ _ _ Hne H) as Hq.
  rewrite last_snoc in Hq. simplify_eq.
  rewrite NoDup_app in HND. destruct HND as (_ & Hy & _).
  apply dseg_app in H as (j & jn & H1 & (-> & H2 & [H3 _])).
  apply dseg_app. exists j, q. split.
  - apply dseg_store_out; [|set_solver|lia|done].
    eapply spaced_sub; [|exact HS]. set_solver.
  - simpl. mem_simpl. done.
Qed.

(** Redirecting the [prev] word of the first node. *)
Lemma dseg_set_prev m p p' a x l q n :
  NoDup (x :: l) -> spaced (x :: l) -> 0 <= p' < 2 ^ 64 ->
  dseg m p a (x :: l) q n -> dseg (store64 m (x + 16) p') p' a (x :: l) q n.
Proof.
  intros HND HS Hp (-> & H1 & H2). apply NoDup_cons in HND as [Hx _].
  simpl. mem_simpl. split_and!; [done..|].
  apply dseg_store_out; [done..|lia|done].
Qed.

(** ** The accessors on well-formed words *)
Section accessors.
Context {V : Type} {VP : VMemProvider V}.
Implicit Types (s : heap_state V).

(** The header word at [x] encodes [sz], [f] and [w]. *)
Definition has_hdr s (x sz : Z) (f w : bool) : Prop :=
  PAGE_SIZE <= x /\ size_ok sz /\ x + sz + 16 < 2 ^ 64 /\ load64 (hs_mem s) x = hdr sz f w.

Lemma read64_ok s p : PAGE_SIZE <= p -> read64 p s = Ok (load64 (hs_mem s) p, s).
Proof. intros. unfold read64. by destruct (Z.ltb_spec p PAGE_SIZE); [lia|]. Qed.

Lemma write64_ok s p v :
  PAGE_SIZE <= p -> write64 p v s = Ok (tt, set_mem (store64 (hs_mem s) p v) s).
Proof. intros. unfold write64. by destruct (Z.ltb_spec p PAGE_SIZE); [lia|]. Qed.

Lemma get_size_ok s x sz f w :
  has_hdr s x sz f w -> get_fixed_heap_chunk_size x s = Ok (sz, s).
Proof.
  intros (Hp & Hs & _ & Hl). unfold get_fixed_heap_chunk_size, bind.
  rewrite read64_ok, Hl by done. unfold ret. by rewrite hdr_size.
Qed.

Lemma get_free_ok s x sz f w :
  has_hdr s x sz f w -> get_heap_chunk_flag x HEAP_FREE_CHUNK s = Ok (f, s).
Proof.
  intros (Hp & Hs & _ & Hl). unfold get_heap_chunk_flag, bind.
  rewrite read64_ok, Hl by done. unfold ret. by rewrite hdr_free, negb_involutive.
Qed.

Lemma get_wild_ok s x sz f w :
  has_hdr s x sz f w -> get_heap_chunk_flag x HEAP_WILDERNESS_CHUNK s = Ok (w, s).
Proof.
  intros (Hp & Hs & _ & Hl). unfold get_heap_chunk_flag, bind.
  rewrite read64_ok, Hl by done. unfold ret. by rewrite hdr_wild, negb_involutive.
Qed.

Lemma get_next_ok s x sz f w :
  has_hdr s x sz f w -> get_next_heap_chunk_header x s = Ok (x + sz + 16, s).
Proof.
  intros H. pose proof H as (Hp & (Hs & _) & He & _).
  unfold get_next_heap_chunk_header, bind. rewrite (get_size_ok _ _ _ _ _ H).
  unfold ret, sizeof_HeapChunkHeader, sizeof_HeapChunkFooter, PAGE_SIZE in *.
  by unwrap.
Qed.

Lemma get_footer_ok s x sz f w :
  has_hdr s x sz f w -> get_heap_chunk_footer_from_header x s = Ok (x + 8 + sz, s).
Proof.
  intros H. pose proof H as (Hp & (Hs & _) & He & _).
  unfold get_heap_chunk_footer_from_header, bind. rewrite (get_size_ok _ _ _ _ _ H).
  unfold ret, sizeof_HeapChunkHeader, PAGE_SIZE in *. by unwrap.
Qed.

Lemma get_index_ok s x sz f w :
  has_hdr s x sz f w ->
  get_bucket_index_from_header x s =
    Ok (if w then BUCKETS_COUNT - 1 else get_bucket_index_from_size sz, s).
Proof.
  intros H. unfold get_bucket_index_from_header, bind.
  rewrite (get_wild_ok _ _ _ _ _ H). destruct w; [done|].
  by rewrite (get_size_ok _ _ _ _ _ H).
Qed.

Lemma user_data_ok x : 0 <= x -> x + 8 < 2 ^ 64 -> get_heap_chunk_user_data x = x + 8.
Proof.
  intros. unfold get_heap_chunk_user_data, sizeof_HeapChunkHeader. by unwrap.
Qed.

Lemma set_next_ok s x sz w n :
  has_hdr s x sz true w ->
  set_bucket_list_next x n s = Ok (tt, set_mem (store64 (hs_mem s) (x + 8) n) s).
Proof.
  intros H. pose proof H as (Hp & (Hs & _) & He & _). unfold PAGE_SIZE in *.
  unfold set_bucket_list_next, bind. rewrite (get_free_ok _ _ _ _ _ H). simpl.
  rewrite user_data_ok by lia. apply write64_ok. unfold PAGE_SIZE. lia.
Qed.

Lemma set_prev_ok s x sz w n :
  has_hdr s x sz true w ->
  set_bucket_list_prev x n s = Ok (tt, set_mem (store64 (hs_mem s) (x + 16) n) s).
Proof.
  intros H. pose proof H as (Hp & (Hs & _) & He & _). unfold PAGE_SIZE in *.
  unfold set_bucket_list_prev, bind. rewrite (get_free_ok _ _ _ _ _ H). simpl.
  rewrite user_data_ok by lia. unwrap. replace (x + 8 + 8) with (x + 16) by lia.
  apply write64_ok. unfold PAGE_SIZE. lia.
Qed.

Lemma get_list_next_ok s x sz w :
  has_hdr s x sz true w ->
  get_bucket_list_next x s = Ok (load64 (hs_mem s) (x + 8), s).
Proof.
  intros H. pose proof H as (Hp & (Hs & _) & He & _). unfold PAGE_SIZE in *.
  unfold get_bucket_list_next, bind. rewrite (get_free_ok _ _ _ _ _ H). simpl.
  rewrite user_data_ok by lia. apply read64_ok. unfold PAGE_SIZE. lia.
Qed.

Lemma get_list_prev_ok s x sz w :
  has_hdr s x sz true w ->
  get_bucket_list_prev x s = Ok (load64 (hs_mem s) (x + 16), s).
Proof.
  intros H. pose proof H as (Hp & (Hs & _) & He & _). unfold PAGE_SIZE in *.
  unfold get_bucket_list_prev, bind. rewrite (get_free_ok _ _ _ _ _ H). simpl.
  rewrite user_data_ok by lia. unwrap. replace (x + 8 + 8) with (x + 16) by lia.
  apply read64_ok. unfold PAGE_SIZE. lia.
Qed.

Lemma set_free_ok s x sz f w :
  has_hdr s x sz f w ->
  set_heap_chunk_flag x HEAP_FREE_CHUNK s =
    Ok (tt, set_mem (store64 (hs_mem s) x (hdr sz true w)) s).
Proof.
  intros (Hp & Hs & _ & Hl). unfold set_heap_chunk_flag, bind.
  rewrite read64_ok, Hl, hdr_set_free by done. by apply write64_ok.
Qed.

Lemma set_wild_ok s x sz f w :
  has_hdr s x sz f w ->
  set_heap_chunk_flag x HEAP_WILDERNESS_CHUNK s =
    Ok (tt, set_mem (store64 (hs_mem s) x (hdr sz f true)) s).
Proof.
  intros (Hp & Hs & _ & Hl). unfold set_heap_chunk_flag, bind.
  rewrite read64_ok, Hl, hdr_set_wild by done. by apply write64_ok.
Qed.

Lemma reset_free_ok s x sz f w :
  has_hdr s x sz f w ->
  reset_heap_chunk_flag x HEAP_FREE_CHUNK s =
    Ok (tt, set_mem (store64 (hs_mem s) x (hdr sz false w)) s).
Proof.
  intros (Hp & Hs & _ & Hl). unfold reset_heap_chunk_flag, bind.
  rewrite read64_ok, Hl, hdr_reset_free by done. by apply write64_ok.
Qed.

End accessors.
