(* ===== verification/HeapInv.v ===== *)
(** * The heap invariant and the bucket-list operations

    [core a cs bl s]: the memory of [s] holds the chunks [cs] one after the
    other from address [a], and the lists [bl] of free chunks hang off the
    bucket array.  A chunk may be marked free without being in a list: that is
    the state inside [kfree] and inside the merges.  [add_to_bucket_list] and
    [remove_from_bucket_list] change the lists only; [core_replace] replaces a
    block of unlisted chunks by another of the same extent, which is what
    splitting, merging, allocating and freeing all come down to. *)

From S2P Require Import Prelude Memory Sync Interfaces Heap HeapChunks.

(** The bucket a free chunk belongs to. *)
Definition bucket_of (c : chunk) : Z :=
  if c_wild c then BUCKETS_COUNT - 1 else get_bucket_index_from_size (c_size c).

Lemma bucket_index_range sz :
  16 <= sz -> 1 <= get_bucket_index_from_size sz < BUCKETS_COUNT.
Proof.
  intros H. unfold get_bucket_index_from_size, BUCKETS_COUNT. bdestruct_all; lia.
Qed.

Lemma bucket_of_range c : chunk_wf c -> 0 <= bucket_of c < BUCKETS_COUNT.
Proof.
  intros [H _]. unfold bucket_of. pose proof (bucket_index_range _ H).
  destruct (c_wild c); unfold BUCKETS_COUNT in *; lia.
Qed.

(** ** Unlinking a node from a doubly linked list *)

Definition unlink (j jn x : Z) (m : mem) : mem :=
  let m1 := if j =? NULL then m else store64 m (j + 8) jn in
  let m2 := if jn =? NULL then m1 else store64 m1 (jn + 16) j in
  store64 (store64 m2 (x + 8) NULL) (x + 16) NULL.

(** [spaced] of a sublist of the list in hand. *)
Ltac solve_spaced :=
  match goal with
  | H : spaced _ |- spaced _ =>
      eapply spaced_sub; [|exact H]; intros ?;
      solve [rewrite ?elem_of_app, ?elem_of_cons, ?elem_of_app, ?elem_of_cons;
             intuition (subst; auto)]
  end.

Lemma dseg_unlink m h l1 x l2 q :
  NoDup (l1 ++ x :: l2) -> spaced (l1 ++ x :: l2) ->
  (forall y, y ∈ l1 ++ x :: l2 -> 0 < y < 2 ^ 64) ->
  dseg m 0 h (l1 ++ x :: l2) q 0 ->
  exists q', dseg (unlink (load64 m (x + 16)) (load64 m (x + 8)) x m) 0
    (if h =? x then load64 m (x + 8) else h) (l1 ++ l2) q' 0.
Proof.
  intros HND HS HR H.
  apply dseg_app in H as (j & jx & D1 & (-> & Hj & D2)).
  rewrite Hj. set (jn := load64 m (x + 8)) in *.
  pose proof (load64_range m (x + 8)) as Hjn. fold jn in Hjn. clearbody jn.
  assert (Hj64 : 0 <= j < 2 ^ 64) by (rewrite <-Hj; apply load64_range).
  pose proof (proj1 (NoDup_app _ _) HND) as (N1 & N12 & N2).
  apply NoDup_cons in N2 as [Nx N2].
  assert (Hx1 : x ∉ l1) by set_solver.
  assert (Hhx : (h =? x) = bool_decide (l1 = [])).
  { destruct l1 as [|z l1]; simpl in D1.
    - destruct D1 as [-> _]. rewrite Z.eqb_refl. by rewrite bool_decide_true.
    - destruct D1 as [-> _]. rewrite bool_decide_false by done.
      apply Z.eqb_neq. set_solver. }
  rewrite Hhx. exists (if bool_decide (l2 = []) then j else q). unfold unlink.
  (* redirect the next word of the predecessor *)
  set (m1 := if j =? NULL then m else store64 m (j + 8) jn).
  assert (D1' : dseg m1 0 (if bool_decide (l1 = []) then jn else h) l1 j jn).
  { destruct l1 as [|z l1].
    - simpl in *. destruct D1 as [_ ->]. done.
    - assert (Hl : last (z :: l1) = Some j) by (eapply dseg_last; done).
      assert (j ∈ z :: l1) by by apply last_Some_elem_of.
      assert (0 < j < 2 ^ 64) by (apply HR; set_solver).
      unfold m1. destruct (Z.eqb_spec j NULL); [unfold NULL in *; lia|].
      rewrite bool_decide_false by done.
      apply (dseg_set_next _ _ _ _ _ x); try done. solve_spaced. }
  assert (D2' : dseg m1 x jn l2 q 0).
  { unfold m1. destruct (Z.eqb_spec j NULL); [done|].
    assert (Hl : j ∈ l1).
    { destruct l1 as [|z l1]; [simpl in D1; unfold NULL in *; naive_solver|].
      by eapply last_Some_elem_of, dseg_last. }
    apply dseg_store_out; [solve_spaced|set_solver|lia|done]. }
  clearbody m1. clear D1 D2 Hj.
  (* redirect the prev word of the successor *)
  set (m2 := if jn =? NULL then m1 else store64 m1 (jn + 16) j).
  assert (Hd : jn = match l2 with [] => 0 | z :: _ => z end) by by eapply dseg_head.
  assert (D2'' : dseg m2 j jn l2 (if bool_decide (l2 = []) then j else q) 0).
  { destruct l2 as [|z l2]; [simpl in *; naive_solver|].
    rewrite bool_decide_false by done. subst jn. unfold m2.
    destruct (Z.eqb_spec z NULL) as [->|].
    { assert (0 < NULL) by (apply HR; set_solver). unfold NULL in *. lia. }
    apply (dseg_set_prev _ x); try done. solve_spaced. }
  assert (D1'' : dseg m2 0 (if bool_decide (l1 = []) then jn else h) l1 j jn).
  { unfold m2. destruct (Z.eqb_spec jn NULL); [done|].
    destruct l2 as [|z l2]; [done|]. subst z.
    apply dseg_store_out; [solve_spaced|set_solver|lia|done]. }
  clearbody m2. clear D1' D2'.
  apply dseg_app. exists j, jn.
  assert (S1 : spaced (x :: l1)) by solve_spaced.
  assert (S2 : spaced (x :: l2)) by solve_spaced.
  split; repeat apply dseg_store_out; auto.
Qed.

Section core.
Context {V : Type} {VP : VMemProvider V}.
Implicit Types (s : heap_state V) (cs : list chunk) (bl : list (list Z)).

Definition lists_ok (m : mem) (fb : list Z) (bl : list (list Z)) : Prop :=
  forall i l, bl !! i = Some l -> exists h q, fb !! i = Some h /\ dseg m 0 h l q 0.

Definition free_chunk (a : Z) cs (x : Z) (c : chunk) : Prop :=
  (x, c) ∈ place a cs /\ c_free c = true.

(** The chunks [cs] fill the memory from [a] on. *)
Record layout (a : Z) cs (m : mem) : Prop := {
  lay_base : PAGE_SIZE <= a;
  lay_mod8 : a mod 8 = 0;
  lay_end : a + total cs < 2 ^ 64;
  lay_wf : Forall chunk_wf cs;
  lay_mem : Forall (chunk_ok m) (place a cs)
}.

Record core (a : Z) cs bl s : Prop := {
  core_layout : layout a cs (hs_mem s);
  core_fb : length (free_buckets (kheap s)) = Z.to_nat BUCKETS_COUNT;
  core_bl : length bl = Z.to_nat BUCKETS_COUNT;
  core_lists : lists_ok (hs_mem s) (free_buckets (kheap s)) bl;
  core_nodup : NoDup (concat bl);
  core_listed : forall i l x, bl !! i = Some l -> x ∈ l ->
    exists c, free_chunk a cs x c /\ i = Z.to_nat (bucket_of c)
}.

(** Only the memory and the bucket array matter. *)
Lemma core_ext a cs bl s s' :
  hs_mem s' = hs_mem s -> free_buckets (kheap s') = free_buckets (kheap s) ->
  core a cs bl s -> core a cs bl s'.
Proof. intros Em Ef []. split; rewrite ?Em, ?Ef; done. Qed.

Lemma layout_bounds a cs m x c :
  layout a cs m -> (x, c) ∈ place a cs ->
  chunk_wf c /\ PAGE_SIZE <= x /\ x + span c < 2 ^ 64 /\ a <= x.
Proof.
  intros C H. destruct (place_bounds _ _ _ _ (lay_wf _ _ _ C) H) as (W & ? & ?).
  pose proof (lay_base _ _ _ C). pose proof (lay_end _ _ _ C).
  split_and!; [done|lia..].
Qed.

Lemma layout_link a cs m x c o v :
  layout a cs m -> (x, c) ∈ place a cs -> o = 8 \/ o = 16 ->
  layout a cs (store64 m (x + o) v).
Proof. intros [] Hx Ho. split; try done. by eapply chunks_ok_link. Qed.

Lemma chunk_size_ok c x : chunk_wf c -> 0 <= x -> x + span c < 2 ^ 64 -> size_ok (c_size c).
Proof. unfold chunk_wf, span, size_ok. lia. Qed.

Lemma layout_hdr a cs s x c :
  layout a cs (hs_mem s) -> (x, c) ∈ place a cs ->
  has_hdr s x (c_size c) (c_free c) (c_wild c).
Proof.
  intros C H. destruct (layout_bounds _ _ _ _ _ C H) as (W & ? & ? & _).
  pose proof (lay_mem _ _ _ C) as F. rewrite Forall_forall in F.
  destruct (F _ H) as [Hh _]. unfold has_hdr.
  split_and!; [done| |unfold span in *; lia|done].
  apply (chunk_size_ok _ x); unfold PAGE_SIZE in *; [done|lia..].
Qed.

Lemma layout_footer a cs m x c :
  layout a cs m -> (x, c) ∈ place a cs -> load64 m (x + 8 + c_size c) = c_size c.
Proof.
  intros C H. pose proof (lay_mem _ _ _ C) as F. rewrite Forall_forall in F.
  by destruct (F _ H).
Qed.

Lemma layout_spaced a cs m l :
  layout a cs m -> (forall x, x ∈ l -> exists c, (x, c) ∈ place a cs) -> spaced l.
Proof.
  intros C H x y Hx Hy Hne.
  destruct (H x Hx) as [c Hc], (H y Hy) as [d Hd].
  pose proof (lay_wf _ _ _ C) as W.
  destruct (place_bounds _ _ _ _ W Hc) as ([? _] & _).
  destruct (place_bounds _ _ _ _ W Hd) as ([? _] & _).
  destruct (place_disjoint _ _ _ _ _ _ W Hc Hd) as [[? _]|]; unfold span in *; lia.
Qed.

Lemma elem_of_bucket bl i l x : bl !! i = Some l -> x ∈ l -> x ∈ concat bl.
Proof. intros Hi Hx. apply list_elem_of_In, in_concat. exists l.
  rewrite <-!list_elem_of_In. split; [by eapply list_elem_of_lookup_2|done]. Qed.

Lemma elem_of_concat_lookup bl x :
  x ∈ concat bl -> exists i l, bl !! i = Some l /\ x ∈ l.
Proof.
  intros H. apply list_elem_of_In, in_concat in H as (l & Hl & Hx).
  apply list_elem_of_In, list_elem_of_lookup in Hl as [i Hi].
  exists i, l. split; [done|by apply list_elem_of_In].
Qed.

Lemma core_listed_free a cs bl s x :
  core a cs bl s -> x ∈ concat bl -> exists c, free_chunk a cs x c.
Proof.
  intros C (i & l & Hi & Hx)%elem_of_concat_lookup.
  destruct (core_listed _ _ _ _ C _ _ _ Hi Hx) as (c & Hc & _). eauto.
Qed.

Lemma layout_free_bounds a cs m x c :
  layout a cs m -> free_chunk a cs x c -> PAGE_SIZE <= x /\ x < 2 ^ 64 /\ 0 < x.
Proof.
  intros L [Hc _].
  destruct (layout_bounds _ _ _ _ _ L Hc) as ([? _] & ? & ? & _).
  unfold span, PAGE_SIZE in *. lia.
Qed.

(** Replacing one bucket list. *)
Lemma concat_insert_perm bl i l l' :
  bl !! i = Some l ->
  exists r, concat bl ≡ₚ l ++ r /\ concat (<[i := l']> bl) ≡ₚ l' ++ r.
Proof.
  intros H. exists (concat (take i bl) ++ concat (drop (S i) bl)).
  assert (Hlt : (i < length bl)%nat) by by eapply lookup_lt_Some.
  split.
  - rewrite <-(take_drop_middle bl i l H) at 1. rewrite concat_app. simpl. solve_Permutation.
  - rewrite insert_take_drop by done. rewrite concat_app. simpl. solve_Permutation.
Qed.

(** A node that is in no list, or is in list [i], is in no other list. *)
Lemma bucket_unique bl i j l k x :
  NoDup (concat bl) -> bl !! i = Some l -> bl !! j = Some k -> x ∈ l -> x ∈ k -> i = j.
Proof.
  intros ND Hi Hj Hx Hk. destruct (decide (i = j)) as [|Hne]; [done|exfalso].
  destruct (concat_insert_perm bl i l [] Hi) as (r & P1 & P2).
  rewrite P1 in ND. apply NoDup_app in ND as (_ & ND & _). apply (ND x Hx).
  assert (x ∈ concat (<[i:=[]]> bl)) as Hr.
  { eapply elem_of_bucket; [|exact Hk]. by rewrite list_lookup_insert_ne. }
  rewrite P2 in Hr. set_solver.
Qed.

Lemma bucket_nodup bl i l : NoDup (concat bl) -> bl !! i = Some l -> NoDup l.
Proof.
  intros ND Hi. destruct (concat_insert_perm bl i l [] Hi) as (r & P1 & _).
  rewrite P1 in ND. by apply NoDup_app in ND as (? & _).
Qed.

(** ** User data of allocated chunks *)

(** [y] is the address of a word of user data of an allocated chunk. *)
Definition alloc_word (a : Z) cs (y : Z) : Prop :=
  exists x c, (x, c) ∈ place a cs /\ c_free c = false /\
    x + 8 <= y /\ y + 8 <= x + 8 + c_size c.

Definition keeps (a : Z) cs (m m' : mem) : Prop :=
  forall y, alloc_word a cs y -> load64 m' y = load64 m y.

Lemma keeps_refl a cs m : keeps a cs m m.
Proof. done. Qed.

Lemma keeps_trans a cs m1 m2 m3 : keeps a cs m1 m2 -> keeps a cs m2 m3 -> keeps a cs m1 m3.
Proof. intros H1 H2 y Hy. rewrite H2 by done. by apply H1. Qed.

(** A write to a link word of a free chunk touches no user data. *)
Lemma keeps_link a cs m x c o v :
  Forall chunk_wf cs -> (x, c) ∈ place a cs -> c_free c = true -> o = 8 \/ o = 16 ->
  keeps a cs m (store64 m (x + o) v).
Proof.
  intros W Hx Hf Ho y (z & d & Hz & Hd & ? & ?).
  destruct (place_bounds _ _ _ _ W Hx) as ([? _] & _).
  apply load64_store64_ne.
  destruct (place_disjoint _ _ _ _ _ _ W Hx Hz) as [[-> ->]|]; [congruence|].
  unfold span in *. lia.
Qed.

(** What the bucket-list operations leave alone. *)
Definition frame (a : Z) cs s s' : Prop :=
  kheap_lock s' = kheap_lock s /\ kheap_initialized s' = kheap_initialized s /\
  hs_vmm s' = hs_vmm s /\
  kheap s' = set_free_buckets (free_buckets (kheap s')) (kheap s) /\
  keeps a cs (hs_mem s) (hs_mem s').

Lemma read_bucket_ok s i p :
  0 <= i -> free_buckets (kheap s) !! Z.to_nat i = Some p -> read_bucket i s = Ok (p, s).
Proof.
  intros Hi H. unfold read_bucket. destruct (Z.ltb_spec i 0); [lia|].
  unfold bind, gets. by rewrite H.
Qed.

Lemma write_bucket_ok s i p :
  0 <= i < BUCKETS_COUNT ->
  write_bucket i p s =
    Ok (tt, set_kheap (set_free_buckets (<[Z.to_nat i := p]> (free_buckets (kheap s)))
                         (kheap s)) s).
Proof.
  intros Hi. unfold write_bucket.
  destruct (Z.ltb_spec i 0); [lia|]. by destruct (Z.leb_spec BUCKETS_COUNT i); [lia|].
Qed.

End core.

(** Run the next statement by an equation about it. *)
Ltac wp_by H := apply wp_bind; eapply wp_of_run; [eapply H; eauto|cbv beta].
