(* ===== verification/HeapLists.v ===== *)
(** * Adding to and removing from the bucket lists

    Each operation is treated in two steps: its run is a function of the
    memory ([link_front], [unlink]) built from writes to link words of free
    chunks ([link_writes]); such writes preserve the layout, the user data and
    the lists of other buckets, so only the list being changed needs an
    argument. *)

From S2P Require Import Prelude Memory Sync Interfaces Heap HeapChunks HeapInv.

(** [m'] results from [m] by writing link words of nodes of [X]. *)
Inductive link_writes (X : list Z) (m : mem) : mem -> Prop :=
| lw_refl : link_writes X m m
| lw_step m' x o v :
    link_writes X m m' -> x ∈ X -> o = 8 \/ o = 16 ->
    link_writes X m (store64 m' (x + o) v).

(** [X] consists of free chunks. *)
Definition all_free (a : Z) (cs : list chunk) (X : list Z) : Prop :=
  forall x, x ∈ X -> exists c, free_chunk a cs x c.

Lemma lw_layout a cs X m m' :
  layout a cs m -> all_free a cs X -> link_writes X m m' -> layout a cs m'.
Proof.
  intros L HX. induction 1 as [|m' x o v _ IH Hx Ho]; [done|].
  destruct (HX x Hx) as (c & Hc & _). by eapply layout_link.
Qed.

Lemma lw_keeps a cs X m m' :
  Forall chunk_wf cs -> all_free a cs X -> link_writes X m m' -> keeps a cs m m'.
Proof.
  intros W HX. induction 1 as [|m' x o v _ IH Hx Ho]; [apply keeps_refl|].
  destruct (HX x Hx) as (c & Hc & Hf).
  eapply keeps_trans; [exact IH|]. by eapply keeps_link.
Qed.

Lemma lw_dseg X m m' p a l q n :
  spaced (X ++ l) -> (forall x, x ∈ X -> x ∉ l) ->
  link_writes X m m' -> dseg m p a l q n -> dseg m' p a l q n.
Proof.
  intros HS HX HW HD. induction HW as [|m' x o v _ IH Hx Ho]; [done|].
  apply dseg_store_out; auto. eapply spaced_sub; [|exact HS].
  intros y [->|]%elem_of_cons; apply elem_of_app; auto.
Qed.

(** Pushing [x] in front of the list whose first node is [h]. *)
Definition link_front (x h : Z) (m : mem) : mem :=
  let m1 := store64 (store64 m (x + 16) NULL) (x + 8) h in
  if h =? NULL then m1 else store64 m1 (h + 16) x.

Lemma link_front_writes x h m :
  link_writes (if h =? NULL then [x] else [x; h]) m (link_front x h m).
Proof.
  unfold link_front. destruct (h =? NULL).
  all: repeat (apply lw_step; [|set_solver|lia]); apply lw_refl.
Qed.

Lemma unlink_writes j jn x m :
  link_writes (x :: (if j =? NULL then [] else [j]) ++ (if jn =? NULL then [] else [jn]))
    m (unlink j jn x m).
Proof.
  unfold unlink. destruct (j =? NULL), (jn =? NULL).
  all: repeat (apply lw_step; [|set_solver|lia]); apply lw_refl.
Qed.

Lemma dseg_link_front m h l q x :
  NoDup (x :: l) -> spaced (x :: l) -> (forall y, y ∈ x :: l -> 0 < y < 2 ^ 64) ->
  dseg m 0 h l q 0 -> exists q', dseg (link_front x h m) 0 x (x :: l) q' 0.
Proof.
  intros ND HS HR HD. pose proof (dseg_head _ _ _ _ _ _ HD) as Hh.
  apply NoDup_cons in ND as [Hxl ND].
  assert (D1 : dseg (store64 (store64 m (x + 16) NULL) (x + 8) h) 0 h l q 0).
  { repeat apply dseg_store_out; auto. }
  unfold link_front. destruct l as [|z l].
  - subst h. exists x. simpl. unfold NULL. by mem_simpl.
  - subst h. assert (Hz : 0 < z < 2 ^ 64) by (apply HR; set_solver).
    assert (Hx : 0 < x < 2 ^ 64) by (apply HR; set_solver).
    destruct (Z.eqb_spec z NULL) as [->|_]; [unfold NULL in *; lia|].
    assert (x + 32 <= z \/ z + 32 <= x) as Hsep.
    { apply HS; [set_solver..|]. intros ->. set_solver. }
    unfold NULL in *. exists q. apply dseg_cons; [done|by mem_simpl|].
    rewrite (load64_store64_ne _ (z + 16) (x + 8)), load64_store64_eq by lia.
    apply (dseg_set_prev _ 0); [done| |lia|done].
    eapply spaced_sub; [|exact HS]. set_solver.
Qed.

Section lists.
Context {V : Type} {VP : VMemProvider V}.
Implicit Types (s : heap_state V) (cs : list chunk) (bl : list (list Z)).

Definition set_links (i : nat) (p : Z) (m : mem) s : heap_state V :=
  set_kheap (set_free_buckets (<[i := p]> (free_buckets (kheap s))) (kheap s)) (set_mem m s).

Definition null_or_free (a : Z) cs (p : Z) : Prop :=
  p = NULL \/ (p <> NULL /\ exists c, free_chunk a cs p c).

Lemma free_hdr a cs s x c :
  layout a cs (hs_mem s) -> free_chunk a cs x c ->
  has_hdr s x (c_size c) true (c_wild c).
Proof. intros L [Hx Hf]. rewrite <-Hf. by eapply layout_hdr. Qed.

Lemma layout_store_free a cs m x c o v :
  layout a cs m -> free_chunk a cs x c -> o = 8 \/ o = 16 ->
  layout a cs (store64 m (x + o) v).
Proof. intros L [Hx _]. by eapply layout_link. Qed.

(** Conditional link updates, as the code performs them. *)
Lemma when_set_prev_ok a cs s p v :
  layout a cs (hs_mem s) -> null_or_free a cs p ->
  when (negb (p =? NULL)) (set_bucket_list_prev p v) s =
    Ok (tt, set_mem (if p =? NULL then hs_mem s else store64 (hs_mem s) (p + 16) v) s).
Proof.
  intros L [->|(Hn & c & Hc)]; [by destruct s|].
  destruct (Z.eqb_spec p NULL); [done|]. simpl.
  eapply set_prev_ok. by eapply free_hdr.
Qed.

Lemma add_to_bucket_list_run a cs s x c h :
  layout a cs (hs_mem s) -> free_chunk a cs x c ->
  free_buckets (kheap s) !! Z.to_nat (bucket_of c) = Some h -> null_or_free a cs h ->
  add_to_bucket_list x s =
    Ok (tt, set_links (Z.to_nat (bucket_of c)) x (link_front x h (hs_mem s)) s).
Proof.
  intros L Hx Hb Hh. pose proof (free_hdr _ _ _ _ _ L Hx) as HH.
  pose proof (bucket_of_range c (proj1 (layout_bounds _ _ _ _ _ L (proj1 Hx)))) as Hr.
  unfold add_to_bucket_list.
  rewrite (bind_ok _ _ _ _ _ (get_index_ok _ _ _ _ _ HH)). fold (bucket_of c).
  rewrite (bind_ok _ _ _ _ _ (set_prev_ok _ _ _ _ _ HH)).
  set (s1 := set_mem _ s).
  assert (L1 : layout a cs (hs_mem s1)) by (eapply layout_store_free; eauto).
  assert (Hb1 : free_buckets (kheap s1) !! Z.to_nat (bucket_of c) = Some h) by done.
  rewrite (bind_ok _ _ _ _ _ (read_bucket_ok _ _ _ (proj1 Hr) Hb1)).
  rewrite (bind_ok _ _ _ _ _ (set_next_ok _ _ _ _ _ (free_hdr _ _ _ _ _ L1 Hx))).
  set (s2 := set_mem _ s1).
  assert (L2 : layout a cs (hs_mem s2)) by (eapply layout_store_free; eauto).
  rewrite (bind_ok _ _ _ _ _ (when_set_prev_ok _ _ _ _ x L2 Hh)).
  rewrite write_bucket_ok by done. done.
Qed.

Lemma null_or_free_all a cs j jn :
  null_or_free a cs j -> null_or_free a cs jn ->
  all_free a cs ((if j =? NULL then [] else [j]) ++ (if jn =? NULL then [] else [jn])).
Proof.
  intros [->|(Nj & d & Hd)] [->|(Nn & e & He)]; simpl; repeat rewrite (proj2 (Z.eqb_neq _ _)) by done.
  all: intros y Hy; unfold free_chunk in *; set_solver.
Qed.

(** The link updates of the neighbours in [remove_from_bucket_list]. *)
Lemma relink_neighbours_ok a cs s j jn :
  layout a cs (hs_mem s) -> null_or_free a cs j -> null_or_free a cs jn ->
  (if negb (j =? NULL) && negb (jn =? NULL) then
     set_bucket_list_next j jn;; set_bucket_list_prev jn j
   else if (j =? NULL) && negb (jn =? NULL) then set_bucket_list_prev jn NULL
   else if negb (j =? NULL) && (jn =? NULL) then set_bucket_list_next j NULL
   else ret tt) s =
  Ok (tt, set_mem (let m1 := if j =? NULL then hs_mem s else store64 (hs_mem s) (j + 8) jn in
                   if jn =? NULL then m1 else store64 m1 (jn + 16) j) s).
Proof.
  intros L [->|(Hj & c & Hc)] [->|(Hn & d & Hd)]; simpl.
  - by destruct s.
  - destruct (Z.eqb_spec jn NULL); [done|]. simpl.
    rewrite (set_prev_ok _ _ _ _ _ (free_hdr _ _ _ _ _ L Hd)). done.
  - destruct (Z.eqb_spec j NULL); [done|]. simpl.
    rewrite (set_next_ok _ _ _ _ _ (free_hdr _ _ _ _ _ L Hc)). done.
  - destruct (Z.eqb_spec j NULL), (Z.eqb_spec jn NULL); try done. simpl.
    rewrite (bind_ok _ _ _ _ _ (set_next_ok _ _ _ _ _ (free_hdr _ _ _ _ _ L Hc))).
    set (s1 := set_mem _ s).
    assert (L1 : layout a cs (hs_mem s1)) by (eapply layout_store_free; eauto).
    rewrite (set_prev_ok _ _ _ _ _ (free_hdr _ _ _ _ _ L1 Hd)). done.
Qed.

Lemma remove_from_bucket_list_run a cs s x c h :
  layout a cs (hs_mem s) -> free_chunk a cs x c ->
  free_buckets (kheap s) !! Z.to_nat (bucket_of c) = Some h ->
  null_or_free a cs (load64 (hs_mem s) (x + 16)) ->
  null_or_free a cs (load64 (hs_mem s) (x + 8)) ->
  remove_from_bucket_list x s =
    Ok (tt, set_links (Z.to_nat (bucket_of c))
              (if h =? x then load64 (hs_mem s) (x + 8) else h)
              (unlink (load64 (hs_mem s) (x + 16)) (load64 (hs_mem s) (x + 8)) x (hs_mem s)) s).
Proof.
  intros L Hx Hb Hj Hn. pose proof (free_hdr _ _ _ _ _ L Hx) as HH.
  pose proof (bucket_of_range c (proj1 (layout_bounds _ _ _ _ _ L (proj1 Hx)))) as Hr.
  unfold remove_from_bucket_list.
  rewrite (bind_ok _ _ _ _ _ (get_index_ok _ _ _ _ _ HH)). fold (bucket_of c).
  rewrite (bind_ok _ _ _ _ _ (get_list_prev_ok _ _ _ _ HH)).
  rewrite (bind_ok _ _ _ _ _ (get_list_next_ok _ _ _ _ HH)).
  rewrite (bind_ok _ _ _ _ _ (get_free_ok _ _ _ _ _ HH)). cbn [KASSERT].
  rewrite (bind_ok _ _ _ tt s) by done.
  rewrite (bind_ok _ _ _ _ _ (read_bucket_ok _ _ _ (proj1 Hr) Hb)).
  set (jn := load64 (hs_mem s) (x + 8)) in *. set (j := load64 (hs_mem s) (x + 16)) in *.
  set (s1 := set_links (Z.to_nat (bucket_of c)) (if h =? x then jn else h) (hs_mem s) s).
  assert (E1 : when (h =? x) (write_bucket (bucket_of c) jn) s = Ok (tt, s1)).
  { unfold s1, set_links. destruct (h =? x); simpl; [by rewrite write_bucket_ok|].
    rewrite list_insert_id by done. by destruct s as [? [] ? ? ?]. }
  rewrite (bind_ok _ _ _ _ _ E1).
  assert (L1 : layout a cs (hs_mem s1)) by done.
  rewrite (bind_ok _ _ _ _ _ (relink_neighbours_ok _ _ _ _ _ L1 Hj Hn)).
  set (s2 := set_mem _ s1).
  assert (L2 : layout a cs (hs_mem s2)).
  { eapply (lw_layout _ _ ((if j =? NULL then [] else [j]) ++ (if jn =? NULL then [] else [jn]))
      (hs_mem s1)); [done|by apply null_or_free_all|].
    unfold s2; simpl. destruct (j =? NULL), (jn =? NULL).
    all: repeat (apply lw_step; [|set_solver|lia]); apply lw_refl. }
  rewrite (bind_ok _ _ _ _ _ (set_next_ok _ _ _ _ _ (free_hdr _ _ _ _ _ L2 Hx))).
  set (s3 := set_mem _ s2).
  assert (L3 : layout a cs (hs_mem s3)) by (eapply layout_store_free; eauto).
  rewrite (set_prev_ok _ _ _ _ _ (free_hdr _ _ _ _ _ L3 Hx)). done.
Qed.

(** ** The operations against the invariant *)

(** Links of a chunk that is in no list and was never linked. *)
Definition isolated s (x : Z) : Prop :=
  load64 (hs_mem s) (x + 8) = NULL /\ load64 (hs_mem s) (x + 16) = NULL.

(** Outcome of a list operation: the lists become [bl'], and chunks outside the
    lists keep their (empty) links. *)
Definition relisted (a : Z) cs bl bl' s s' : Prop :=
  core a cs bl' s' /\ frame a cs s s' /\
  forall y d, (y, d) ∈ place a cs -> y ∉ concat bl -> y ∉ concat bl' ->
    isolated s y -> isolated s' y.

Lemma all_free_spaced a cs m X : layout a cs m -> all_free a cs X -> spaced X.
Proof.
  intros L HX. eapply layout_spaced; [exact L|].
  intros x Hx. destruct (HX x Hx) as (c & Hc & _). eauto.
Qed.

Lemma all_free_app a cs X Y : all_free a cs X -> all_free a cs Y -> all_free a cs (X ++ Y).
Proof. intros H1 H2 x [Hx|Hx]%elem_of_app; auto. Qed.

Lemma core_list_free a cs bl s i l :
  core a cs bl s -> bl !! i = Some l -> all_free a cs l.
Proof.
  intros C Hi x Hx. destruct (core_listed _ _ _ _ C _ _ _ Hi Hx) as (c & Hc & _). eauto.
Qed.

Lemma core_relink a cs bl s i l l' h' q' X m' :
  core a cs bl s -> bl !! i = Some l ->
  all_free a cs X -> link_writes X (hs_mem s) m' ->
  (forall j k x, j <> i -> bl !! j = Some k -> x ∈ X -> x ∉ k) ->
  dseg m' 0 h' l' q' 0 -> NoDup l' ->
  (forall x, x ∈ l' -> x ∈ l \/ x ∉ concat bl) ->
  (forall x, x ∈ l' -> exists c, free_chunk a cs x c /\ i = Z.to_nat (bucket_of c)) ->
  core a cs (<[i := l']> bl) (set_links i h' m' s) /\ frame a cs s (set_links i h' m' s).
Proof.
  intros C Hi HX HW HO HD ND Hnew Hl'. pose proof (core_layout _ _ _ _ C) as L.
  pose proof (core_fb _ _ _ _ C) as Hfb.
  assert (Hlt : (i < length (free_buckets (kheap s)))%nat).
  { rewrite Hfb, <-(core_bl _ _ _ _ C). by eapply lookup_lt_Some. }
  destruct (concat_insert_perm bl i l l' Hi) as (r & P1 & P2). split.
  - split; simpl.
    + by eapply lw_layout.
    + by rewrite length_insert.
    + rewrite length_insert. apply C.
    + intros j k Hk. apply list_lookup_insert_Some in Hk as [(-> & <- & _)|(Hne & Hk)].
      { exists h', q'. split; [by apply list_lookup_insert_eq|done]. }
      destruct (core_lists _ _ _ _ C _ _ Hk) as (h & q & Hh & Hd).
      exists h, q. split; [by rewrite list_lookup_insert_ne|].
      eapply lw_dseg; [|by eauto|exact HW|done].
      eapply all_free_spaced; [exact L|]. eapply all_free_app; [done|].
      by eapply core_list_free.
    + rewrite P2. pose proof (core_nodup _ _ _ _ C) as N. rewrite P1 in N.
      apply NoDup_app in N as (_ & N1 & N2). apply NoDup_app. split_and!; [done| |done].
      intros x Hx Hr. destruct (Hnew x Hx) as [Hl|Hn]; [by apply (N1 x)|].
      apply Hn. rewrite P1. set_solver.
    + intros j k x Hk Hx.
      apply list_lookup_insert_Some in Hk as [(-> & <- & _)|(Hne & Hk)]; [by auto|].
      by eapply (core_listed _ _ _ _ C).
  - unfold frame, set_links; simpl. split_and!; try done.
    eapply lw_keeps; eauto. apply L.
Qed.

(** Writes to links of [X] leave the links of other chunks alone. *)
Lemma lw_isolated a cs X m m' y d :
  layout a cs m -> all_free a cs X -> link_writes X m m' ->
  (y, d) ∈ place a cs -> y ∉ X ->
  load64 m' (y + 8) = load64 m (y + 8) /\ load64 m' (y + 16) = load64 m (y + 16).
Proof.
  intros L HX HW Hy Hn. induction HW as [|m' x o v _ IH Hx Ho]; [done|].
  destruct (HX x Hx) as (c & Hc & _).
  assert (x + 32 <= y \/ y + 32 <= x) as Hsep.
  { eapply (layout_spaced _ _ _ [x; y] L); [|set_solver..].
    intros z [->|[->|[]%elem_of_nil]%elem_of_cons]%elem_of_cons; eauto. }
  rewrite !load64_store64_ne by lia. done.
Qed.

Lemma head_null_or_free a cs m h l q :
  layout a cs m -> all_free a cs l -> dseg m 0 h l q 0 -> null_or_free a cs h.
Proof.
  intros L HF Hd. apply dseg_head in Hd. subst h. destruct l as [|z l]; [by left|].
  destruct (HF z) as [c Hc]; [set_solver|]. right. split; [|by eauto].
  destruct (layout_free_bounds _ _ _ _ _ L Hc) as (_ & _ & ?). unfold NULL. lia.
Qed.

Lemma all_free_range a cs m X :
  layout a cs m -> all_free a cs X -> forall y, y ∈ X -> 0 < y < 2 ^ 64.
Proof.
  intros L HX y Hy. destruct (HX y Hy) as [c Hc].
  destruct (layout_free_bounds _ _ _ _ _ L Hc) as (? & ? & ?). lia.
Qed.

Lemma core_bucket_lookup a cs bl s c :
  core a cs bl s -> chunk_wf c -> exists l, bl !! Z.to_nat (bucket_of c) = Some l.
Proof.
  intros C W. apply lookup_lt_is_Some. rewrite (core_bl _ _ _ _ C).
  pose proof (bucket_of_range c W). lia.
Qed.

(** Changing the list of one bucket: the result of both operations. *)
Lemma core_relisted a cs bl s i l l' h' q' X m' :
  core a cs bl s -> bl !! i = Some l ->
  all_free a cs X -> link_writes X (hs_mem s) m' ->
  (forall y, y ∈ X -> y ∈ l \/ y ∈ l') ->
  dseg m' 0 h' l' q' 0 -> NoDup l' ->
  (forall x, x ∈ l' -> x ∈ l \/ x ∉ concat bl) ->
  (forall x, x ∈ l' -> exists c, free_chunk a cs x c /\ i = Z.to_nat (bucket_of c)) ->
  relisted a cs bl (<[i := l']> bl) s (set_links i h' m' s).
Proof.
  intros C Hi HX HW HXl HD ND Hnew Hl'.
  destruct (core_relink a cs bl s i l l' h' q' X m') as [C' F']; try done.
  { intros j k y Hj Hk Hy Hyk. assert (Hyl : y ∈ l).
    { destruct (HXl y Hy) as [|Hy']; [done|]. destruct (Hnew y Hy') as [|Hn]; [done|].
      exfalso. apply Hn. by eapply elem_of_bucket. }
    apply Hj. symmetry. by eapply (bucket_unique bl i j l k y); [apply C|..]. }
  split_and!; [done..|].
  intros y d Hy Hn Hn' [H8 H16]. unfold isolated.
  destruct (lw_isolated a cs X (hs_mem s) m' y d) as [E8 E16]; try done.
  - apply C.
  - intros HyX. assert (Hlt : (i < length bl)%nat) by by eapply lookup_lt_Some.
    destruct (HXl y HyX); [apply Hn|apply Hn']; eapply elem_of_bucket; eauto.
    by apply list_lookup_insert_eq.
  - simpl. by rewrite E8, E16.
Qed.

Lemma add_to_bucket_list_spec a cs bl s x c :
  core a cs bl s -> free_chunk a cs x c -> x ∉ concat bl ->
  exists s' bl', add_to_bucket_list x s = Ok (tt, s') /\ relisted a cs bl bl' s s' /\
    (forall y, y ∈ concat bl' <-> y = x \/ y ∈ concat bl).
Proof.
  intros C Hx Hnew. pose proof (core_layout _ _ _ _ C) as L.
  destruct (core_bucket_lookup a cs bl s c C) as [l Hl].
  { apply (layout_bounds _ _ _ _ _ L (proj1 Hx)). }
  destruct (core_lists _ _ _ _ C _ _ Hl) as (h & q & Hh & Hd).
  pose proof (core_list_free _ _ _ _ _ _ C Hl) as Fl.
  assert (Fxl : all_free a cs (x :: l)) by (intros y [->|]%elem_of_cons; eauto).
  assert (Hxl : x ∉ l) by (intros ?; apply Hnew; by eapply elem_of_bucket).
  assert (ND : NoDup (x :: l)).
  { apply NoDup_cons. split; [done|]. eapply bucket_nodup; [apply C|done]. }
  eexists _, (<[Z.to_nat (bucket_of c) := x :: l]> bl).
  split; [by eapply add_to_bucket_list_run; eauto using head_null_or_free|].
  destruct (dseg_link_front (hs_mem s) h l q x) as [q' D']; [done| | |done|].
  { by eapply all_free_spaced. } { by eapply all_free_range. }
  set (X := if h =? NULL then [x] else [x; h]).
  assert (HX : forall y, y ∈ X -> y ∈ x :: l).
  { pose proof (dseg_head _ _ _ _ _ _ Hd). subst h. unfold X. intros y.
    destruct l; [set_solver|]. destruct (_ =? NULL); set_solver. }
  split.
  - eapply (core_relisted _ _ _ _ _ _ _ _ _ X); eauto using link_front_writes.
    + intros y ?. auto.
    + intros y [->|Hy]%elem_of_cons; auto.
    + intros y [->|Hy]%elem_of_cons; [by eauto|]. by eapply (core_listed _ _ _ _ C).
  - intros y. destruct (concat_insert_perm bl _ l (x :: l) Hl) as (r & -> & ->). set_solver.
Qed.

(** The links of a list node. *)
Lemma dseg_neighbours m h l1 x l2 q :
  dseg m 0 h (l1 ++ x :: l2) q 0 ->
  (load64 m (x + 16) = NULL \/ load64 m (x + 16) ∈ l1) /\
  (load64 m (x + 8) = NULL \/ load64 m (x + 8) ∈ l2).
Proof.
  intros (j & jx & D1 & (-> & Hj & D2))%dseg_app. rewrite Hj. split.
  - destruct l1 as [|z l1]; [left; by destruct D1|right].
    eapply last_Some_elem_of, dseg_last; [|exact D1]. done.
  - apply dseg_head in D2. destruct l2 as [|z l2]; [by left|right]. rewrite D2. set_solver.
Qed.

Lemma null_or_in a cs m l p :
  layout a cs m -> all_free a cs l -> p = NULL \/ p ∈ l -> null_or_free a cs p.
Proof.
  intros L HF [->|Hp]; [by left|]. destruct (HF p Hp) as [c Hc].
  right. split; [|by eauto].
  destruct (layout_free_bounds _ _ _ _ _ L Hc) as (_ & _ & ?). unfold NULL. lia.
Qed.

(** A chunk that is in no list and has no links: nothing changes. *)
Lemma unlink_isolated x m :
  link_writes [x] m (unlink NULL NULL x m).
Proof. apply (unlink_writes NULL NULL). Qed.

Lemma isolated_unlink i h j jn x m s : isolated (set_links i h (unlink j jn x m) s) x.
Proof. split; simpl; unfold unlink, NULL; by mem_simpl. Qed.

Lemma remove_isolated_spec a cs bl s x c :
  core a cs bl s -> free_chunk a cs x c -> x ∉ concat bl -> isolated s x ->
  exists s', remove_from_bucket_list x s = Ok (tt, s') /\ relisted a cs bl bl s s' /\
    isolated s' x.
Proof.
  intros C Hx Hnew [H8 H16]. pose proof (core_layout _ _ _ _ C) as L.
  destruct (core_bucket_lookup a cs bl s c C) as [l Hl].
  { apply (layout_bounds _ _ _ _ _ L (proj1 Hx)). }
  destruct (core_lists _ _ _ _ C _ _ Hl) as (h & q & Hh & Hd).
  assert (Hxl : x ∉ l) by (intros ?; apply Hnew; by eapply elem_of_bucket).
  eexists. split.
  { eapply remove_from_bucket_list_run; try done; rewrite ?H8, ?H16; by left. }
  rewrite H8, H16. set (m' := unlink NULL NULL x (hs_mem s)).
  assert (Fx : all_free a cs [x]) by (intros y ->%list_elem_of_singleton; eauto).
  assert (Hhx : (h =? x) = false).
  { apply Z.eqb_neq. intros ->. apply dseg_head in Hd. destruct l; [|set_solver].
    destruct (layout_free_bounds _ _ _ _ _ L Hx) as (? & ? & ?). lia. }
  rewrite Hhx. pose proof (core_list_free _ _ _ _ _ _ C Hl) as Fl.
  destruct (core_relink a cs bl s (Z.to_nat (bucket_of c)) l l h q [x] m') as [C' F']; try done.
  - apply unlink_isolated.
  - intros j k y Hj Hk ->%list_elem_of_singleton Hy. apply Hnew. by eapply elem_of_bucket.
  - eapply lw_dseg; [| |apply unlink_isolated|done].
    + eapply all_free_spaced; [done|]. by apply all_free_app.
    + by intros y ->%list_elem_of_singleton.
  - eapply bucket_nodup; [apply C|done].
  - auto.
  - intros y Hy. by eapply (core_listed _ _ _ _ C).
  - assert (Hi : isolated (set_links (Z.to_nat (bucket_of c)) h m' s) x) by apply isolated_unlink.
    rewrite list_insert_id in C' by done. split; [|done]. split_and!; [done..|].
    intros y d Hy _ _ [Hy8 Hy16]. destruct (decide (y = x)) as [->|Hne]; [done|].
    destruct (lw_isolated a cs [x] (hs_mem s) m' y d) as [E8 E16];
      [done|done|apply unlink_isolated|done|set_solver|].
    split; simpl; congruence.
Qed.

Lemma remove_listed_spec a cs bl s x c :
  core a cs bl s -> free_chunk a cs x c -> x ∈ concat bl ->
  exists s' bl', remove_from_bucket_list x s = Ok (tt, s') /\ relisted a cs bl bl' s s' /\
    isolated s' x /\ (forall y, y ∈ concat bl' <-> y <> x /\ y ∈ concat bl).
Proof.
  intros C Hx Hin. pose proof (core_layout _ _ _ _ C) as L.
  apply elem_of_concat_lookup in Hin as (i & l & Hl & Hxl).
  destruct (core_listed _ _ _ _ C _ _ _ Hl Hxl) as (c' & Hc' & ->).
  assert (c' = c) as ->.
  { eapply place_unique; [apply L|apply Hc'|apply Hx]. }
  destruct (core_lists _ _ _ _ C _ _ Hl) as (h & q & Hh & Hd).
  pose proof (core_list_free _ _ _ _ _ _ C Hl) as Fl.
  pose proof (bucket_nodup _ _ _ (core_nodup _ _ _ _ C) Hl) as ND.
  apply list_elem_of_split in Hxl as (l1 & l2 & ->).
  destruct (dseg_unlink (hs_mem s) h l1 x l2 q) as [q' D']; [done| | |done|].
  { by eapply all_free_spaced. } { by eapply all_free_range. }
  destruct (dseg_neighbours _ _ _ _ _ _ Hd) as [Hj Hjn].
  assert (Nj : null_or_free a cs (load64 (hs_mem s) (x + 16))).
  { eapply (null_or_in _ _ _ l1); [done| |done]. intros y Hy; apply Fl; set_solver. }
  assert (Njn : null_or_free a cs (load64 (hs_mem s) (x + 8))).
  { eapply (null_or_in _ _ _ l2); [done| |done]. intros y Hy; apply Fl; set_solver. }
  eexists _, (<[Z.to_nat (bucket_of c) := l1 ++ l2]> bl). split.
  { by eapply remove_from_bucket_list_run. }
  set (j := load64 (hs_mem s) (x + 16)) in *. set (jn := load64 (hs_mem s) (x + 8)) in *.
  assert (N12 : NoDup (l1 ++ l2) /\ x ∉ l1 ++ l2).
  { apply NoDup_app in ND as (? & N & [? ?]%NoDup_cons). split.
    - apply NoDup_app. split_and!; [done| |done]. intros y ??. apply (N y); set_solver.
    - set_solver. }
  destruct N12 as [N12 Nx]. split_and!.
  - eapply (core_relisted _ _ _ _ _ _ _ _ _ _ _ C Hl); [|apply unlink_writes|..|exact D'|done| |].
    + intros y [->|Hy]%elem_of_cons; [by eauto|]. revert y Hy.
      by apply null_or_free_all.
    + intros y Hy. left. destruct (j =? NULL) eqn:E1, (jn =? NULL) eqn:E2;
        rewrite ?Z.eqb_eq, ?Z.eqb_neq in *; set_solver.
    + intros y Hy. left. set_solver.
    + intros y Hy. eapply (core_listed _ _ _ _ C); [done|set_solver].
  - apply isolated_unlink.
  - intros y. destruct (concat_insert_perm bl _ _ (l1 ++ l2) Hl) as (r & P1 & P2).
    rewrite P1, P2. pose proof (core_nodup _ _ _ _ C) as N. rewrite P1 in N.
    apply NoDup_app in N as (_ & N & _). set_solver.
Qed.

(** [remove_from_bucket_list] on any free chunk that is listed or isolated. *)
Lemma remove_from_bucket_list_spec a cs bl s x c :
  core a cs bl s -> free_chunk a cs x c -> x ∈ concat bl \/ isolated s x ->
  exists s' bl', remove_from_bucket_list x s = Ok (tt, s') /\ relisted a cs bl bl' s s' /\
    isolated s' x /\ (forall y, y ∈ concat bl' <-> y <> x /\ y ∈ concat bl).
Proof.
  intros C Hx Hi. destruct (decide (x ∈ concat bl)) as [Hin|Hn].
  { by eapply remove_listed_spec. }
  destruct Hi as [|Hi]; [done|].
  destruct (remove_isolated_spec a cs bl s x c C Hx Hn Hi) as (s' & Hr & HR & Hi').
  exists s', bl. split_and!; try done. set_solver.
Qed.

End lists.
