(* ===== verification/HeapOps.v ===== *)
(** * Splitting, merging and allocating chunks

    [heap_st a cs bl s]: the heap record of [s] describes the chunks [cs] from
    address [a], with the free lists [bl].  [heap_replace] replaces a block of
    unlisted chunks by another of the same extent; [merge_with_next_chunk],
    [merge_with_next_and_prev_chunk], [split_chunk_and_alloc] and [alloc_chunk]
    unlist the chunks they are about, replace them and list the result. *)

From S2P Require Import Prelude Memory Sync Interfaces Heap HeapChunks HeapInv HeapLists.

(** The wilderness is the last chunk, it is free, and no other chunk carries its
    flag. *)
Fixpoint wild_ok (cs : list chunk) : Prop :=
  match cs with
  | [] => False
  | [c] => c_wild c = true /\ c_free c = true
  | c :: cs' => c_wild c = false /\ wild_ok cs'
  end.

Lemma wild_ok_cons c cs :
  cs <> [] -> wild_ok (c :: cs) <-> c_wild c = false /\ wild_ok cs.
Proof. by destruct cs. Qed.

Lemma wild_ok_app l1 l2 :
  l2 <> [] -> wild_ok (l1 ++ l2) <-> Forall (fun c => c_wild c = false) l1 /\ wild_ok l2.
Proof.
  intros Hne. induction l1 as [|c l1 IH]; simpl.
  { split; [done|]. by intros [_ ?]. }
  assert (Hn : l1 ++ l2 <> []) by (by destruct l1).
  pose proof (wild_ok_cons c _ Hn) as Hc. simpl in Hc. rewrite Hc, IH, Forall_cons. tauto.
Qed.

Lemma wild_ok_free cs a x c :
  wild_ok cs -> (x, c) ∈ place a cs -> c_wild c = true -> c_free c = true.
Proof.
  revert a. induction cs as [|d [|e cs] IH]; intros a; simpl.
  - done.
  - intros [Hw Hf] [[= -> ->]|?%elem_of_nil]%elem_of_cons; done.
  - intros [Hw HW] [[= -> ->]|Hin]%elem_of_cons ?; [congruence|].
    eapply IH; eauto.
Qed.

(** The head of a non-empty suffix decides it by its flags only. *)
Lemma wild_ok_flags c d l2 :
  c_wild c = c_wild d -> c_free c = c_free d -> wild_ok (c :: l2) <-> wild_ok (d :: l2).
Proof. intros Hw Hf. destruct l2; simpl; by rewrite Hw, ?Hf. Qed.

(** Symbolic execution of a program that runs to [Ok]: [run_step] executes the
    leading accessor with the header facts in the context, [run_assert] a
    [KASSERT] whose condition is left to prove, [run_by H] any statement. *)
Ltac run_prim :=
  first
    [ eapply get_free_ok; eassumption
    | eapply get_wild_ok; eassumption
    | eapply get_size_ok; eassumption
    | eapply get_next_ok; eassumption
    | eapply get_footer_ok; eassumption
    | reflexivity ].
Ltac run_step := etransitivity; [eapply bind_ok; solve [run_prim]|cbv beta].
Ltac run_assert := etransitivity; [eapply bind_ok, KASSERT_ok|cbv beta].
Tactic Notation "run_by" uconstr(H) := etransitivity; [eapply bind_ok, H|cbv beta].

Section ops.
Context {V : Type} {VP : VMemProvider V}.
Implicit Types (s : heap_state V) (cs mid : list chunk) (bl : list (list Z)).

Record heap_st (a : Z) cs bl s : Prop := {
  st_core : core a cs bl s;
  st_start : start (kheap s) = a;
  st_size : size (kheap s) = total cs;
  st_count : number_of_chunks (kheap s) = Z.of_nat (length cs);
  st_wild : wild_ok cs;
  st_wilderness : exists w, (wilderness_chunk (kheap s), w) ∈ place a cs /\ c_wild w = true
}.

(** What the chunk operations leave alone besides the heap itself. *)
Definition same_rest s s' : Prop :=
  kheap_lock s' = kheap_lock s /\ kheap_initialized s' = kheap_initialized s /\
  hs_vmm s' = hs_vmm s /\ heap_vmem (kheap s') = heap_vmem (kheap s) /\
  enable_growth (kheap s') = enable_growth (kheap s).

Lemma same_rest_refl s : same_rest s s.
Proof. done. Qed.

Lemma same_rest_trans s1 s2 s3 : same_rest s1 s2 -> same_rest s2 s3 -> same_rest s1 s3.
Proof. unfold same_rest. intuition congruence. Qed.

Lemma frame_trans a cs s1 s2 s3 :
  frame a cs s1 s2 -> frame a cs s2 s3 -> frame a cs s1 s3.
Proof.
  intros (?&?&?&K1&P1) (?&?&?&K2&P2). unfold frame. split_and!; [congruence..| |].
  - rewrite K2, K1. done.
  - by eapply keeps_trans.
Qed.

Lemma frame_same_rest a cs s s' : frame a cs s s' -> same_rest s s'.
Proof. intros (? & ? & ? & Hk & _). unfold same_rest. by rewrite Hk. Qed.

Lemma frame_heap_st a cs bl bl' s s' :
  heap_st a cs bl s -> frame a cs s s' -> core a cs bl' s' -> heap_st a cs bl' s'.
Proof.
  intros [] (_ & _ & _ & Hk & _) C. split; try done; by rewrite Hk.
Qed.

(** ** Replacing a block of chunks *)

Lemma alloc_word_outside a l1 mid l2 y :
  Forall chunk_wf (l1 ++ mid ++ l2) -> Forall (fun c => c_free c = true) mid ->
  alloc_word a (l1 ++ mid ++ l2) y ->
  y + 8 <= a + total l1 \/ a + total l1 + total mid <= y.
Proof.
  intros W F (x & c & Hx & Hf & ? & ?). rewrite !Forall_app in W.
  destruct W as (W1 & W2 & W3). rewrite !place_app, !elem_of_app in Hx.
  destruct Hx as [Hx|[Hx|Hx]].
  - destruct (place_bounds _ _ _ _ W1 Hx) as (? & ? & ?). unfold span in *. lia.
  - apply place_split in Hx as (k1 & k2 & -> & _).
    rewrite Forall_app, Forall_cons in F. destruct F as (_ & ? & _). congruence.
  - destruct (place_bounds _ _ _ _ W3 Hx) as (? & ? & ?). unfold span in *. lia.
Qed.

Lemma place_replace a l1 mid mid' l2 y c :
  total mid' = total mid ->
  (y, c) ∈ place a (l1 ++ mid ++ l2) -> ~ (y, c) ∈ place (a + total l1) mid ->
  (y, c) ∈ place a (l1 ++ mid' ++ l2).
Proof. intros HT. rewrite !place_app, HT. set_solver. Qed.

(** A chunk of a list around a block lies outside the block. *)
Lemma place_outside a l1 mid l2 y c :
  Forall chunk_wf (l1 ++ mid ++ l2) ->
  (y, c) ∈ place a (l1 ++ mid ++ l2) -> ~ (y, c) ∈ place (a + total l1) mid ->
  y + span c <= a + total l1 \/ a + total l1 + total mid <= y.
Proof.
  intros W. rewrite !Forall_app in W. destruct W as (W1 & W2 & W3).
  rewrite !place_app, !elem_of_app. intros [Hx|[Hx|Hx]] Hn; [..|done|].
  - destruct (place_bounds _ _ _ _ W1 Hx) as (? & ? & ?). lia.
  - destruct (place_bounds _ _ _ _ W3 Hx) as (? & ? & ?). lia.
Qed.

Lemma layout_replace a l1 mid mid' l2 m m' :
  layout a (l1 ++ mid ++ l2) m ->
  Forall chunk_wf mid' -> total mid' = total mid ->
  agree_outside (a + total l1) (a + total l1 + total mid) m m' ->
  Forall (chunk_ok m') (place (a + total l1) mid') ->
  layout a (l1 ++ mid' ++ l2) m'.
Proof.
  intros [B M8 E W F] W' HT HA HF.
  pose proof W as W0. rewrite !Forall_app in W. destruct W as (W1 & W2 & W3).
  rewrite !place_app, !Forall_app in F. destruct F as (F1 & F2 & F3).
  rewrite !total_app in E. split; [done|done|rewrite !total_app; lia|by rewrite !Forall_app|].
  rewrite !place_app, !Forall_app, HT. split_and!; [|done|].
  - eapply chunks_ok_agree; [done|exact HA|lia|done].
  - eapply chunks_ok_agree; [done|exact HA|lia|done].
Qed.

Lemma core_replace a l1 mid mid' l2 bl s s' :
  core a (l1 ++ mid ++ l2) bl s ->
  (forall y c, (y, c) ∈ place (a + total l1) mid -> y ∉ concat bl) ->
  Forall chunk_wf mid' -> total mid' = total mid ->
  agree_outside (a + total l1) (a + total l1 + total mid) (hs_mem s) (hs_mem s') ->
  Forall (chunk_ok (hs_mem s')) (place (a + total l1) mid') ->
  free_buckets (kheap s') = free_buckets (kheap s) ->
  core a (l1 ++ mid' ++ l2) bl s'.
Proof.
  intros C HU W' HT HA HF Hb. pose proof (core_layout _ _ _ _ C) as L.
  split; rewrite ?Hb; try apply C.
  - by eapply layout_replace.
  - intros i l Hl. destruct (core_lists _ _ _ _ C _ _ Hl) as (h & q & Hh & Hd).
    exists h, q. split; [done|]. eapply dseg_ext; [|exact Hd]. intros y Hy.
    destruct (core_listed _ _ _ _ C _ _ _ Hl Hy) as (c & [Hc _] & _).
    destruct (layout_bounds _ _ _ _ _ L Hc) as ([? _] & _).
    pose proof (place_outside a l1 mid l2 y c (lay_wf _ _ _ L) Hc) as Ho.
    assert (y + span c <= a + total l1 \/ a + total l1 + total mid <= y).
    { apply Ho. intros Hin. eapply HU; [done|]. by eapply elem_of_bucket. }
    unfold span in *. split; apply HA; lia.
  - intros i l x Hl Hx. destruct (core_listed _ _ _ _ C _ _ _ Hl Hx) as (c & [Hc Hf] & Hi).
    exists c. split; [split|]; try done. eapply place_replace; [done|done|].
    intros Hin. eapply HU; [done|]. by eapply elem_of_bucket.
Qed.

Lemma keeps_replace a l1 mid l2 m m' :
  Forall chunk_wf (l1 ++ mid ++ l2) -> Forall (fun c => c_free c = true) mid ->
  agree_outside (a + total l1) (a + total l1 + total mid) m m' ->
  keeps a (l1 ++ mid ++ l2) m m'.
Proof. intros W F HA y Hy. apply HA. by eapply alloc_word_outside. Qed.

(** ** Header words under writes *)

Lemma has_hdr_store s y sz f w p v :
  has_hdr s y sz f w -> p + 8 <= y \/ y + 8 <= p ->
  has_hdr (set_mem (store64 (hs_mem s) p v) s) y sz f w.
Proof.
  intros (? & ? & ? & ?) Hp. unfold has_hdr. simpl. by rewrite load64_store64_ne by lia.
Qed.

Lemma has_hdr_write s x sz f w :
  PAGE_SIZE <= x -> size_ok sz -> x + sz + 16 < 2 ^ 64 ->
  has_hdr (set_mem (store64 (hs_mem s) x (hdr sz f w)) s) x sz f w.
Proof.
  intros. unfold has_hdr. simpl. rewrite load64_store64_eq; [done|]. by apply hdr_range.
Qed.

(** ** Publishing a free chunk

    Both merges and the split write the header of a free chunk in three steps
    and move the wilderness pointer when the chunk is the last one. *)

Definition put_header (x n : Z) (w : bool) s : heap_state V :=
  set_kheap (if w then set_wilderness_chunk x (kheap s) else kheap s)
    (set_mem (store64 (hs_mem s) x (hdr n true w)) s).

Lemma write_free_header_ok {A} x n w (k : M (heap_state V) A) s :
  PAGE_SIZE <= x -> size_ok n -> x + n + 16 < 2 ^ 64 ->
  (write64 x n;;
   set_heap_chunk_flag x HEAP_FREE_CHUNK;;
   when w (set_heap_chunk_flag x HEAP_WILDERNESS_CHUNK;;
           modify_kheap (set_wilderness_chunk x));;
   k) s = k (put_header x n w s).
Proof.
  intros Hp Hn He. rewrite (bind_ok _ _ _ _ _ (write64_ok _ _ _ Hp)).
  rewrite <-(hdr_plain n) at 1.
  rewrite (bind_ok _ _ _ _ _ (set_free_ok _ _ _ _ _ (has_hdr_write s x n false false Hp Hn He))).
  unfold put_header. simpl. rewrite store64_store64. destruct w; simpl; [|by destruct s].
  pose proof (has_hdr_write s x n true false Hp Hn He) as H.
  rewrite bind_assoc. etransitivity; [eapply bind_ok, (set_wild_ok _ _ _ _ _ H)|].
  simpl. by rewrite store64_store64.
Qed.

Lemma has_hdr_put_header x n w s :
  PAGE_SIZE <= x -> size_ok n -> x + n + 16 < 2 ^ 64 -> has_hdr (put_header x n w s) x n true w.
Proof. intros. unfold put_header. by apply (has_hdr_write s). Qed.

(** Listing a block of chunks that ends in one new free chunk. *)
Lemma length_total cs : Forall chunk_wf cs -> 32 * Z.of_nat (length cs) <= total cs.
Proof. induction 1 as [|c cs [? _] _ IH]; simpl; [lia|]. unfold span. lia. Qed.

Lemma layout_length a cs m : layout a cs m -> Z.of_nat (length cs) < 2 ^ 59.
Proof.
  intros [? _ ? W _]. pose proof (length_total _ W). unfold PAGE_SIZE in *. lia.
Qed.

Definition join (c d : chunk) : chunk := Chunk (c_size c + c_size d + 16) true (c_wild d).

Lemma join_wf c d : chunk_wf c -> chunk_wf d -> chunk_wf (join c d).
Proof. unfold chunk_wf, join. simpl. lia. Qed.

Lemma span_join c d : span (join c d) = span c + span d.
Proof. unfold span, join. simpl. lia. Qed.

(** Unlisting two different chunks one after the other. *)
Lemma remove_two_spec a cs bl s x c y d :
  core a cs bl s -> free_chunk a cs x c -> free_chunk a cs y d -> x <> y ->
  x ∈ concat bl \/ isolated s x -> y ∈ concat bl \/ isolated s y ->
  exists s' bl',
    (forall A (k : M (heap_state V) A),
      (remove_from_bucket_list x;; remove_from_bucket_list y;; k) s = k s') /\
    relisted a cs bl bl' s s' /\
    (forall z, z ∈ concat bl' <-> z <> x /\ z <> y /\ z ∈ concat bl).
Proof.
  intros C Hx Hy Hne Lx Ly.
  destruct (remove_from_bucket_list_spec a cs bl s x c C Hx Lx)
    as (s1 & bl1 & R1 & (C1 & F1 & I1) & _ & E1).
  assert (Ly1 : y ∈ concat bl1 \/ isolated s1 y).
  { destruct (decide (y ∈ concat bl)) as [Hin|Hn].
    - left. apply E1. naive_solver.
    - right. destruct Ly as [|Ly]; [done|]. destruct Hy as [Hy _].
      eapply (I1 y d); try done. rewrite E1. naive_solver. }
  destruct (remove_from_bucket_list_spec a cs bl1 s1 y d C1 Hy Ly1)
    as (s2 & bl2 & R2 & (C2 & F2 & I2) & _ & E2).
  exists s2, bl2. split_and!.
  - intros A k. by rewrite (bind_ok _ _ _ _ _ R1), (bind_ok _ _ _ _ _ R2).
  - split_and!; [done|by eapply frame_trans|].
    intros z e Hz Hn Hn' Hi. eapply (I2 z e); try done.
    + rewrite E1. tauto.
    + eapply (I1 z e); try done. rewrite E1. tauto.
  - intros z. rewrite E2, E1. naive_solver.
Qed.

Lemma alloc_word_replace a l1 mid mid' l2 y :
  Forall (fun c => c_free c = true) mid -> total mid' = total mid ->
  alloc_word a (l1 ++ mid ++ l2) y -> alloc_word a (l1 ++ mid' ++ l2) y.
Proof.
  intros F HT (x & c & Hx & Hf & Hy). exists x, c. split; [|done].
  eapply place_replace; [done|done|]. intros (k1 & k2 & -> & _)%place_split.
  rewrite Forall_app, Forall_cons in F. destruct F as (_ & ? & _). congruence.
Qed.

(** The state in which the chunks [mid] have been overwritten. *)
Definition rewritten (x : Z) (w : bool) (m : mem) s : heap_state V :=
  set_kheap (if w then set_wilderness_chunk x (kheap s) else kheap s) (set_mem m s).

Definition set_count (f : Z -> Z) : Heap -> Heap :=
  fun h => set_number_of_chunks (wrap64 (f (number_of_chunks h))) h.

Lemma publish_spec a l1 mid mid' l2 bl s m x n f :
  heap_st a (l1 ++ mid ++ l2) bl s ->
  (forall y c, (y, c) ∈ place (a + total l1) mid -> y ∉ concat bl) ->
  Forall (fun c => c_free c = true) mid ->
  Forall chunk_wf mid' -> total mid' = total mid ->
  agree_outside (a + total l1) (a + total l1 + total mid) (hs_mem s) m ->
  Forall (chunk_ok m) (place (a + total l1) mid') ->
  (x, n) ∈ place (a + total l1) mid' -> c_free n = true ->
  wild_ok (l1 ++ mid' ++ l2) -> c_wild n = true \/ Forall (fun c => c_wild c = false) mid ->
  f (Z.of_nat (length (l1 ++ mid ++ l2))) = Z.of_nat (length (l1 ++ mid' ++ l2)) ->
  exists s' bl', add_to_bucket_list x (rewritten x (c_wild n) m s) = Ok (tt, s') /\
    let s'' := set_kheap (set_count f (kheap s')) s' in
    heap_st a (l1 ++ mid' ++ l2) bl' s'' /\ same_rest s s'' /\
    keeps a (l1 ++ mid ++ l2) (hs_mem s) (hs_mem s'') /\
    (forall y, y ∈ concat bl' <-> y = x \/ y ∈ concat bl).
Proof.
  intros H HU HF W' HT HA HO Hx Hn HW Hwild Hf. destruct H as [C Hs Hz Hc _ Hwc].
  set (s1 := rewritten x (c_wild n) m s).
  assert (C1 : core a (l1 ++ mid' ++ l2) bl s1).
  { eapply (core_replace a l1 mid mid'); try done. unfold s1. by destruct (c_wild n). }
  assert (Hx1 : free_chunk a (l1 ++ mid' ++ l2) x n).
  { split; [|done]. rewrite !place_app. set_solver. }
  assert (Hxn : x ∉ concat bl).
  { intros Hin. destruct (core_listed_free _ _ _ _ _ C Hin) as (c & Hc' & _).
    pose proof (lay_wf _ _ _ (core_layout _ _ _ _ C)) as W.
    destruct (place_bounds _ _ _ _ W Hc') as ([? _] & _).
    destruct (place_bounds _ _ _ _ W' Hx) as ([? _] & ? & ?). unfold span in *.
    destruct (decide ((x, c) ∈ place (a + total l1) mid)) as [Hy|Hy]; [by eapply HU|].
    destruct (place_outside _ _ _ _ _ _ W Hc' Hy); unfold span in *; lia. }
  destruct (add_to_bucket_list_spec _ _ _ _ _ _ C1 Hx1 Hxn) as (s2 & bl' & R & (C2 & F2 & _) & E).
  exists s2, bl'. split; [done|]. pose proof F2 as (F2a & F2b & F2c & K2 & P2).
  assert (exists fb, kheap s2 = set_free_buckets fb (kheap s1)) as [fb Kfb] by eauto.
  clear K2. split_and!.
  - split; simpl; rewrite ?Kfb; simpl.
    + by eapply core_ext; [..|exact C2]; simpl; rewrite ?Kfb.
    + unfold s1. by destruct (c_wild n).
    + rewrite total_app, total_app, HT, <-!total_app. unfold s1. by destruct (c_wild n).
    + pose proof (layout_length _ _ _ (core_layout _ _ _ _ C2)).
      destruct (c_wild n); simpl; rewrite Hc, Hf, wrap64_small by lia; done.
    + done.
    + unfold s1. simpl. destruct (c_wild n) eqn:En; simpl.
      { exists n. split; [|done]. apply Hx1. }
      destruct Hwild as [|Hwild]; [done|]. destruct Hwc as (w & Hw & Hww). exists w.
      split; [|done]. eapply place_replace; [done|done|].
      intros (k1 & k2 & -> & _)%place_split. rewrite Forall_app, Forall_cons in Hwild.
      destruct Hwild as (_ & ? & _). congruence.
  - eapply same_rest_trans; [|eapply same_rest_trans; [eapply frame_same_rest, F2|done]].
    unfold s1, same_rest, rewritten. simpl. by destruct (c_wild n).
  - eapply keeps_trans.
    + eapply keeps_replace; [apply C|done|exact HA].
    + intros y Hy. apply (P2 y). by eapply alloc_word_replace.
  - done.
Qed.

(** ** Merging *)

Lemma wild_ok_join l1 c d l2 :
  c_free d = true -> wild_ok (l1 ++ [c; d] ++ l2) ->
  c_wild c = false /\ wild_ok (l1 ++ [join c d] ++ l2).
Proof.
  intros Ed [H1 H2]%wild_ok_app; [|done].
  apply (wild_ok_cons c (d :: l2)) in H2 as [Hc Hd]; [|done]. split; [done|].
  apply wild_ok_app; [done|]. split; [done|].
  by apply (wild_ok_flags _ d).
Qed.

(** Publishing one free chunk in place of the unlisted free chunks [mid]. *)
Lemma publish_joined a l1 mid l2 bl s n f :
  let z := a + total l1 in
  heap_st a (l1 ++ mid ++ l2) bl s ->
  (forall y c, (y, c) ∈ place z mid -> y ∉ concat bl) ->
  Forall (fun c => c_free c = true) mid ->
  chunk_wf n -> c_free n = true -> span n = total mid ->
  wild_ok (l1 ++ [n] ++ l2) -> c_wild n = true \/ Forall (fun c => c_wild c = false) mid ->
  f (Z.of_nat (length (l1 ++ mid ++ l2))) = Z.of_nat (length (l1 ++ [n] ++ l2)) ->
  exists s' bl',
    add_to_bucket_list z (rewritten z (c_wild n)
      (store64 (store64 (hs_mem s) z (hdr (c_size n) true (c_wild n))) (z + 8 + c_size n)
         (c_size n)) s) = Ok (tt, s') /\
    let s'' := set_kheap (set_count f (kheap s')) s' in
    heap_st a (l1 ++ [n] ++ l2) bl' s'' /\ same_rest s s'' /\
    keeps a (l1 ++ mid ++ l2) (hs_mem s) (hs_mem s'') /\
    (forall y, y ∈ concat bl' <-> y = z \/ y ∈ concat bl).
Proof.
  intros z H U F Wn Fn Hs HW Hw Hf.
  pose proof (core_layout _ _ _ _ (st_core _ _ _ _ H)) as L.
  pose proof (lay_end _ _ _ L) as He. pose proof (lay_base _ _ _ L) as Hb.
  pose proof (lay_wf _ _ _ L) as W. rewrite !Forall_app in W. destruct W as (W1 & _ & W3).
  pose proof (total_nonneg _ W1). pose proof (total_nonneg _ W3).
  rewrite !total_app, <-Hs in He. unfold span, chunk_wf, PAGE_SIZE in *.
  assert (size_ok (c_size n)) by (unfold size_ok; lia).
  pose proof (hdr_range (c_size n) true (c_wild n)) as Hr.
  eapply (publish_spec a l1 mid [n] l2); try done.
  - by apply Forall_singleton.
  - simpl. unfold span. lia.
  - fold z. repeat apply agree_outside_store; auto with kernel; lia.
  - apply Forall_singleton. unfold chunk_ok. rewrite Fn. split; mem_simpl; auto.
  - simpl. set_solver.
Qed.

Lemma merge_with_next_chunk_spec a l1 c d l2 bl s :
  let x := a + total l1 in
  let y := x + span c in
  heap_st a (l1 ++ [c; d] ++ l2) bl s -> c_free c = true -> c_free d = true ->
  x ∈ concat bl \/ isolated s x -> y ∈ concat bl \/ isolated s y ->
  exists s' bl', merge_with_next_chunk x s = Ok (tt, s') /\
    heap_st a (l1 ++ [join c d] ++ l2) bl' s' /\ same_rest s s' /\
    keeps a (l1 ++ [c; d] ++ l2) (hs_mem s) (hs_mem s') /\
    (forall z, z ∈ concat bl' <-> z = x \/ (z <> x /\ z <> y /\ z ∈ concat bl)).
Proof.
  intros x y H Hc Hd Lx Ly. pose proof H as [C _ _ _ HW _].
  destruct (wild_ok_join _ _ _ _ Hd HW) as [Hw HW'].
  pose proof (core_layout _ _ _ _ C) as L.
  assert (Fx : free_chunk a (l1 ++ [c; d] ++ l2) x c).
  { split; [|done]. apply place_elem. }
  assert (Fy : free_chunk a (l1 ++ [c; d] ++ l2) y d).
  { split; [|done]. rewrite place_app. simpl. set_solver. }
  destruct (layout_bounds _ _ _ _ _ L (proj1 Fx)) as (Wc & Bx & Ex & _).
  destruct (layout_bounds _ _ _ _ _ L (proj1 Fy)) as (Wd & By & Ey & _).
  pose proof (free_hdr _ _ _ _ _ L Fx) as Hx. rewrite Hw in Hx.
  pose proof (free_hdr _ _ _ _ _ L Fy) as Hy.
  assert (Hn : size_ok (c_size (join c d)) /\ x + c_size (join c d) + 16 < 2 ^ 64).
  { unfold size_ok, join, chunk_wf, span, PAGE_SIZE in *. simpl. unfold y in *. lia. }
  destruct (remove_two_spec _ _ _ _ _ _ _ _ C Fx Fy) as (s1 & bl1 & R & (C1 & F1 & _) & E1);
    [unfold y, span; destruct Wc; lia|done..|].
  pose proof (frame_heap_st _ _ _ _ _ _ H F1 C1) as H1.
  pose proof (core_layout _ _ _ _ C1) as L1.
  pose proof (free_hdr _ _ _ _ _ L1 Fx) as Hx1. pose proof (free_hdr _ _ _ _ _ L1 Fy) as Hy1.
  set (n := c_size (join c d)) in *.
  assert (Hm1 : n = c_size c + c_size d + 16 /\ y = x + c_size c + 16).
  { unfold n, y, span, join. simpl. lia. }
  destruct (publish_joined a l1 [c; d] l2 bl1 s1 (join c d) (fun k => k - 1))
    as (s2 & bl2 & R2 & H2 & S2 & K2 & E2); try done.
  { simpl. fold x y. intros z e. rewrite E1. set_solver. }
  { by repeat constructor. } { by apply join_wf. } { simpl. rewrite span_join. lia. }
  { simpl. destruct (c_wild d) eqn:Ew; [by left|right]. by repeat constructor. }
  { rewrite !length_app. simpl. lia. }
  fold x n in R2.
  eexists _, bl2. split; [|split_and!; [exact H2|..]].
  - unfold merge_with_next_chunk, is_last_chunk_of_heap.
    do 5 run_step. replace (x + c_size c + 16) with y by lia. do 4 run_step.
    rewrite R. do 2 run_step.
    replace (wrap64 _) with n.
    2: { unfold sizeof_HeapChunkFooter, sizeof_HeapChunkHeader. unfold size_ok, chunk_wf in *. rewrite wrap64_small; lia. }
    run_assert; [apply Z.eqb_eq; unfold size_ok in *; lia|].
    run_assert; [apply Z.leb_le; unfold HEAP_CHUNK_MIN_SIZE, chunk_wf in *; lia|].
    rewrite write_free_header_ok by (done || unfold size_ok in *; lia).
    assert (Hy2 : has_hdr (put_header x n (c_wild d) s1) y (c_size d) true (c_wild d)).
    { apply (has_hdr_store s1); [done|]. unfold chunk_wf in *. lia. }
    run_step. run_by write64_ok; [unfold PAGE_SIZE, chunk_wf in *; lia|].
    run_assert; [by apply Z.eqb_eq|].
    replace (y + 8 + c_size d) with (x + 8 + n) by lia. run_by R2. reflexivity.
  - eapply same_rest_trans; [eapply frame_same_rest, F1|exact S2].
  - eapply keeps_trans; [apply F1|exact K2].
  - intros z. rewrite E2, E1. tauto.
Qed.

(** The chunk before another one, found through its footer. *)
Lemma get_prev_ok a l1 p c l2 s :
  layout a (l1 ++ [p; c] ++ l2) (hs_mem s) ->
  get_prev_heap_chunk_header (a + total l1 + span p) s = Ok (a + total l1, s).
Proof.
  intros L.
  assert (Hp : (a + total l1, p) ∈ place a (l1 ++ [p; c] ++ l2)) by apply place_elem.
  destruct (layout_bounds _ _ _ _ _ L Hp) as ([? ?] & ? & ? & _). unfold span, PAGE_SIZE in *.
  unfold get_prev_heap_chunk_header, get_heap_chunk_header_from_footer,
    get_fixed_heap_chunk_size_from_footer, sizeof_HeapChunkFooter, sizeof_HeapChunkHeader.
  rewrite (wrap64_small (_ - 8)) by lia.
  replace (_ - 8) with (a + total l1 + 8 + c_size p) by lia.
  rewrite bind_assoc. run_by read64_ok; [unfold PAGE_SIZE; lia|].
  rewrite (layout_footer _ _ _ _ _ L Hp). run_step.
  rewrite size_plain by (unfold size_ok; lia).
  unfold ret. rewrite (wrap64_small (_ - c_size p)) by lia.
  rewrite wrap64_small by lia. do 2 f_equal. lia.
Qed.

Lemma remove_three_spec a cs bl s x c y d z e :
  core a cs bl s -> free_chunk a cs x c -> free_chunk a cs y d -> free_chunk a cs z e ->
  x <> y -> x <> z -> y <> z ->
  x ∈ concat bl \/ isolated s x -> y ∈ concat bl \/ isolated s y ->
  z ∈ concat bl \/ isolated s z ->
  exists s' bl',
    (forall A (k : M (heap_state V) A),
      (remove_from_bucket_list x;; remove_from_bucket_list y;;
       remove_from_bucket_list z;; k) s = k s') /\
    core a cs bl' s' /\ frame a cs s s' /\
    (forall t, t ∈ concat bl' <-> t <> x /\ t <> y /\ t <> z /\ t ∈ concat bl).
Proof.
  intros C Hx Hy Hz N1 N2 N3 Lx Ly Lz.
  destruct (remove_two_spec _ _ _ _ _ _ _ _ C Hx Hy N1 Lx Ly)
    as (s1 & bl1 & R1 & (C1 & F1 & I1) & E1).
  assert (Lz1 : z ∈ concat bl1 \/ isolated s1 z).
  { destruct (decide (z ∈ concat bl)) as [Hin|Hn].
    - left. apply E1. naive_solver.
    - right. destruct Lz as [|Lz]; [done|]. destruct Hz as [Hz _].
      eapply (I1 z e); try done. rewrite E1. naive_solver. }
  destruct (remove_from_bucket_list_spec a cs bl1 s1 z e C1 Hz Lz1)
    as (s2 & bl2 & R2 & (C2 & F2 & I2) & _ & E2).
  exists s2, bl2. split_and!.
  - intros A k. by rewrite R1, (bind_ok _ _ _ _ _ R2).
  - done.
  - by eapply frame_trans.
  - intros t. rewrite E2, E1. naive_solver.
Qed.

Lemma merge_with_next_and_prev_chunk_spec a l1 p c d l2 bl s :
  let z := a + total l1 in
  let x := z + span p in
  let y := x + span c in
  heap_st a (l1 ++ [p; c; d] ++ l2) bl s ->
  c_free p = true -> c_free c = true -> c_free d = true ->
  x ∈ concat bl \/ isolated s x -> y ∈ concat bl \/ isolated s y ->
  z ∈ concat bl \/ isolated s z ->
  exists s' bl', merge_with_next_and_prev_chunk x s = Ok (tt, s') /\
    heap_st a (l1 ++ [join p (join c d)] ++ l2) bl' s' /\ same_rest s s' /\
    keeps a (l1 ++ [p; c; d] ++ l2) (hs_mem s) (hs_mem s') /\
    (forall t, t ∈ concat bl' <-> t = z \/ (t <> x /\ t <> y /\ t <> z /\ t ∈ concat bl)).
Proof.
  intros z x y H Hp Hc Hd Lx Ly Lz. pose proof H as [C Hst _ _ HW _].
  set (cs := l1 ++ [p; c; d] ++ l2) in *.
  assert (Ecs : cs = (l1 ++ [p]) ++ [c; d] ++ l2) by (unfold cs; by rewrite <-app_assoc).
  pose proof HW as HW1. rewrite Ecs in HW1. apply wild_ok_join in HW1 as [Hw HW1]; [|done].
  rewrite <-app_assoc in HW1. apply (wild_ok_join l1 p (join c d)) in HW1 as [Hwp HW']; [|done].
  pose proof (core_layout _ _ _ _ C) as L.
  assert (Fz : free_chunk a cs z p) by (split; [apply place_elem|done]).
  assert (Fx : free_chunk a cs x c) by (split; [unfold cs; rewrite place_app; simpl; set_solver|done]).
  assert (Fy : free_chunk a cs y d) by (split; [unfold cs; rewrite place_app; simpl; set_solver|done]).
  destruct (layout_bounds _ _ _ _ _ L (proj1 Fz)) as (Wp & Bz & Ez & Az).
  destruct (layout_bounds _ _ _ _ _ L (proj1 Fx)) as (Wc & Bx & Ex & _).
  destruct (layout_bounds _ _ _ _ _ L (proj1 Fy)) as (Wd & By & Ey & _).
  pose proof (free_hdr _ _ _ _ _ L Fx) as Hx. rewrite Hw in Hx.
  pose proof (free_hdr _ _ _ _ _ L Fy) as Hy. pose proof (free_hdr _ _ _ _ _ L Fz) as Hz.
  set (n := c_size (join p (join c d))) in *.
  assert (Hm1 : n = c_size p + c_size c + c_size d + 32 /\ x = z + c_size p + 16 /\
                y = x + c_size c + 16).
  { unfold n, y, x, span, join. simpl. lia. }
  assert (Hn : size_ok n /\ z + n + 16 < 2 ^ 64).
  { unfold size_ok, chunk_wf, span, PAGE_SIZE in *. lia. }
  destruct (remove_three_spec _ _ _ _ _ _ _ _ _ _ C Fx Fy Fz) as (s1 & bl1 & R & C1 & F1 & E1);
    try done; [unfold chunk_wf in *; lia..|].
  pose proof (frame_heap_st _ _ _ _ _ _ H F1 C1) as H1.
  pose proof (core_layout _ _ _ _ C1) as L1.
  pose proof (free_hdr _ _ _ _ _ L1 Fx) as Hx1. pose proof (free_hdr _ _ _ _ _ L1 Fy) as Hy1.
  pose proof (free_hdr _ _ _ _ _ L1 Fz) as Hz1.
  destruct (publish_joined a l1 [p; c; d] l2 bl1 s1 (join p (join c d)) (fun k => k - 2))
    as (s2 & bl2 & R2 & H2 & S2 & K2 & E2); try done.
  { simpl. fold z x y. intros t e. rewrite E1. set_solver. }
  { by repeat constructor. } { by apply join_wf, join_wf. }
  { simpl. rewrite !span_join. lia. }
  { simpl. destruct (c_wild d) eqn:Ew; [by left|right]. by repeat constructor. }
  { rewrite !length_app. simpl. lia. }
  fold z n in R2.
  eexists _, bl2. split; [|split_and!; [exact H2|..]].
  - unfold merge_with_next_and_prev_chunk, is_last_chunk_of_heap, is_first_chunk_of_heap.
    do 2 run_step. run_step. rewrite Hst.
    run_assert; [apply negb_true_iff, Z.eqb_neq; unfold chunk_wf in *; lia|].
    run_step. replace (x + c_size c + 16) with y by lia.
    run_by (get_prev_ok a l1 p c (d :: l2) s); [done|]. fold z.
    do 8 run_step. rewrite R. do 3 run_step. cbv zeta.
    replace (wrap64 _) with n.
    2: { unfold sizeof_HeapChunkFooter, sizeof_HeapChunkHeader.
         unfold size_ok, chunk_wf, PAGE_SIZE in *. unwrap. lia. }
    run_assert; [apply Z.eqb_eq; unfold size_ok in *; lia|].
    run_assert; [apply Z.leb_le; unfold HEAP_CHUNK_MIN_SIZE, chunk_wf in *; lia|].
    rewrite write_free_header_ok by (done || unfold size_ok in *; lia).
    pose proof (has_hdr_put_header z n (c_wild d) s1 Bz (proj1 Hn) (proj2 Hn)) as Hz2.
    run_step. run_by write64_ok; [unfold PAGE_SIZE, chunk_wf in *; lia|].
    run_assert; [apply Z.eqb_eq; lia|].
    run_by R2. reflexivity.
  - eapply same_rest_trans; [eapply frame_same_rest, F1|exact S2].
  - eapply keeps_trans; [apply F1|exact K2].
  - intros t. rewrite E2, E1. tauto.
Qed.

(** ** Splitting and allocating *)

Definition taken (n : Z) : chunk := Chunk n false false.
Definition rest_of (c : chunk) (n : Z) : chunk := Chunk (c_size c - n - 16) true (c_wild c).

Definition request_ok (n : Z) : Prop := 16 <= n /\ n mod 8 = 0 /\ n + 16 <= 2 ^ 63.

(** The chunk is too small to be split: nothing happens. *)
Lemma split_chunk_and_alloc_small a cs bl s x c n :
  core a cs bl s -> free_chunk a cs x c -> c_size c < 2 ^ 63 -> request_ok n ->
  c_size c < n + 32 -> split_chunk_and_alloc x n s = Ok (false, s).
Proof.
  intros C Hx Hc (H16 & H8 & H63) Hlt.
  pose proof (free_hdr _ _ _ _ _ (core_layout _ _ _ _ C) Hx) as HH.
  destruct (layout_bounds _ _ _ _ _ (core_layout _ _ _ _ C) (proj1 Hx)) as ([? _] & _).
  unfold split_chunk_and_alloc. do 2 run_step.
  run_assert; [by apply Z.eqb_eq|]. run_assert; [by apply Z.leb_le|]. do 2 run_step.
  unfold sizeof_HeapChunkFooter, sizeof_HeapChunkHeader, HEAP_CHUNK_MIN_SIZE.
  rewrite to_i64_small by lia. by destruct (Z.ltb_spec (c_size c - (n + 8 + 8)) 16); [|lia].
Qed.

Lemma wild_ok_split l1 c n l2 :
  c_free c = true -> wild_ok (l1 ++ [c] ++ l2) -> wild_ok (l1 ++ [taken n; rest_of c n] ++ l2).
Proof.
  intros Hf [H1 H2]%wild_ok_app; [|done]. apply wild_ok_app; [done|]. split; [done|].
  apply (wild_ok_cons (taken n) (rest_of c n :: l2)); [done|]. split; [done|].
  by apply (wild_ok_flags _ c).
Qed.

(** The memory after a split, before the second chunk is listed. *)
Definition split_mem (x n k : Z) (w : bool) (m : mem) : mem :=
  let y := x + n + 16 in
  store64 (store64 (store64 (store64 m x n) (x + 8 + n) n) y (hdr k true w)) (y + 8 + k) k.

Lemma split_mem_ok x n k w m :
  chunk_wf (taken n) -> chunk_wf (Chunk k true w) -> size_ok n -> size_ok k ->
  Forall (chunk_ok (split_mem x n k w m)) (place x [taken n; Chunk k true w]) /\
  agree_outside x (x + n + k + 32) m (split_mem x n k w m).
Proof.
  unfold chunk_wf, split_mem. simpl. intros [? ?] [? ?] Hn Hk.
  pose proof (hdr_range k true w Hk). unfold size_ok in *. split.
  - unfold span. simpl. replace (x + (n + 16)) with (x + n + 16) by lia.
    apply Forall_cons. split; [|apply Forall_singleton]; unfold chunk_ok; simpl.
    + rewrite hdr_plain. split; by mem_simpl.
    + split; by mem_simpl.
  - repeat apply agree_outside_store; auto with kernel; lia.
Qed.

Lemma split_chunk_and_alloc_spec a l1 c l2 bl s n :
  let x := a + total l1 in
  heap_st a (l1 ++ [c] ++ l2) bl s -> c_free c = true -> x ∈ concat bl ->
  c_size c < 2 ^ 63 -> request_ok n -> n + 32 <= c_size c ->
  exists s' bl', split_chunk_and_alloc x n s = Ok (true, s') /\
    heap_st a (l1 ++ [taken n; rest_of c n] ++ l2) bl' s' /\ same_rest s s' /\
    keeps a (l1 ++ [c] ++ l2) (hs_mem s) (hs_mem s') /\
    (forall z, z ∈ concat bl' <-> z = x + n + 16 \/ (z <> x /\ z ∈ concat bl)).
Proof.
  intros x H Hf Hin Hc Hn Hle. pose proof H as [C _ _ _ HW _].
  pose proof (core_layout _ _ _ _ C) as L.
  assert (Fx : free_chunk a (l1 ++ [c] ++ l2) x c) by (split; [apply place_elem|done]).
  destruct (layout_bounds _ _ _ _ _ L (proj1 Fx)) as (Wc & Bx & Ex & _).
  pose proof (free_hdr _ _ _ _ _ L Fx) as Hx.
  unfold chunk_wf, request_ok, span, PAGE_SIZE in *.
  set (k := c_size (rest_of c n)). set (y := x + n + 16).
  assert (Hk : k = c_size c - n - 16) by done.
  assert (Sn : size_ok n /\ x + n + 16 < 2 ^ 64) by (unfold size_ok; lia).
  assert (Sk : size_ok k /\ y + k + 16 < 2 ^ 64) by (unfold size_ok, y; lia).
  assert (Wk : chunk_wf (taken n) /\ chunk_wf (rest_of c n)) by (unfold chunk_wf; simpl; lia).
  destruct (remove_from_bucket_list_spec _ _ _ _ _ _ C Fx (or_introl Hin))
    as (s1 & bl1 & R & (C1 & F1 & _) & _ & E1).
  pose proof (frame_heap_st _ _ _ _ _ _ H F1 C1) as H1.
  destruct (split_mem_ok x n k (c_wild c) (hs_mem s1)) as [O1 A1]; [apply Wk..|apply Sn|apply Sk|].
  set (m1 := split_mem x n k (c_wild c) (hs_mem s1)) in *.
  destruct (publish_spec a l1 [c] [taken n; rest_of c n] l2 bl1 s1 m1 y (rest_of c n)
    (fun i => i + 1)) as (s2 & bl2 & R2 & H2 & S2 & K2 & E2); try done.
  { simpl. fold x. intros z e [[= -> ->]|[]%elem_of_nil]%elem_of_cons. rewrite E1. tauto. }
  { by repeat constructor. } { rewrite !Forall_cons. naive_solver. }
  { simpl. unfold span. simpl. lia. }
  { simpl. fold x. replace (x + (span c + 0)) with (x + n + k + 32) by (unfold span; lia). done. }
  { simpl. fold x. unfold y, span. simpl. rewrite Z.add_assoc. set_solver. }
  { by apply wild_ok_split. }
  { simpl. destruct (c_wild c) eqn:Ew; [by left|right]. by repeat constructor. }
  { rewrite !length_app. simpl. lia. }
  eexists _, bl2. split; [|split_and!; [exact H2|..]].
  - unfold split_chunk_and_alloc. do 2 run_step.
    run_assert; [apply Z.eqb_eq; lia|]. run_assert; [apply Z.leb_le; apply Hn|]. do 2 run_step.
    unfold sizeof_HeapChunkFooter, sizeof_HeapChunkHeader.
    rewrite to_i64_small by lia. replace (_ - (n + 8 + 8)) with k by lia.
    destruct (Z.ltb_spec k HEAP_CHUNK_MIN_SIZE); [unfold HEAP_CHUNK_MIN_SIZE in *; lia|].
    run_assert; [apply Z.eqb_eq; lia|]. run_step. run_by R.
    run_by write64_ok; [done|].
    pose proof (has_hdr_write s1 x n false false Bx (proj1 Sn) (proj2 Sn)) as Hx1.
    rewrite hdr_plain in Hx1. run_step.
    run_by write64_ok; [unfold PAGE_SIZE; lia|].
    eapply (has_hdr_store _ _ _ _ _ (x + 8 + n) n) in Hx1; [|lia].
    run_step. fold y. rewrite wrap64_small by lia.
    rewrite write_free_header_ok by (unfold PAGE_SIZE, y; first [apply Sk|lia]).
    etransitivity; [eapply bind_ok, get_footer_ok, has_hdr_put_header;
                    unfold PAGE_SIZE, y; first [apply Sk|lia]|cbv beta].
    run_by write64_ok; [unfold PAGE_SIZE, y; lia|].
    run_by R2.
    run_assert; [apply Z.eqb_eq; unfold y; lia|]. reflexivity.
  - eapply same_rest_trans; [eapply frame_same_rest, F1|exact S2].
  - eapply keeps_trans; [apply F1|exact K2].
  - intros z. rewrite E2, E1. tauto.
Qed.

(** ** Changing the flags of one chunk *)

(** Rewriting the header of an unlisted chunk. *)
Lemma core_set_flag a l1 c c' l2 bl s m :
  core a (l1 ++ [c] ++ l2) bl s -> a + total l1 ∉ concat bl ->
  c_size c' = c_size c -> c_wild c' = c_wild c ->
  m = store64 (hs_mem s) (a + total l1) (hdr (c_size c) (c_free c') (c_wild c)) ->
  core a (l1 ++ [c'] ++ l2) bl (set_mem m s).
Proof.
  intros C U Es Ew ->. pose proof (core_layout _ _ _ _ C) as L.
  assert (Hin : (a + total l1, c) ∈ place a (l1 ++ [c] ++ l2)) by apply place_elem.
  destruct (layout_bounds _ _ _ _ _ L Hin) as ([? ?] & ? & ? & _).
  pose proof (layout_footer _ _ _ _ _ L Hin) as Hft.
  pose proof (layout_hdr _ _ _ _ _ L Hin) as (_ & Hsz & _ & _).
  pose proof (hdr_range (c_size c) (c_free c') (c_wild c) Hsz).
  eapply (core_replace a l1 [c] [c']); [exact C|..]; simpl; try done.
  - intros y e [[= -> ->]|[]%elem_of_nil]%elem_of_cons. done.
  - apply Forall_singleton. unfold chunk_wf. rewrite Es. done.
  - unfold span. by rewrite Es.
  - apply agree_outside_store; unfold span; auto with kernel; lia.
  - apply Forall_singleton. unfold chunk_ok. rewrite Es, Ew. split; by mem_simpl.
Qed.

Lemma wild_ok_flag l1 c c' l2 :
  c_wild c = false -> c_wild c' = false ->
  wild_ok (l1 ++ [c] ++ l2) -> wild_ok (l1 ++ [c'] ++ l2) /\ l2 <> [].
Proof.
  intros Hc Hc' [H1 H2]%wild_ok_app; [|done].
  assert (Hl2 : l2 <> []) by (intros ->; destruct H2; congruence).
  apply (wild_ok_cons c l2 Hl2) in H2 as [_ H2]. split; [|done].
  apply wild_ok_app; [done|]. split; [done|]. by apply (wild_ok_cons c' l2 Hl2).
Qed.

(** The rest of [heap_st] when one ordinary chunk changes its free flag. *)
Lemma heap_st_flag a l1 c c' l2 bl bl' s s' :
  heap_st a (l1 ++ [c] ++ l2) bl s ->
  c_size c' = c_size c -> c_wild c = false -> c_wild c' = false ->
  core a (l1 ++ [c'] ++ l2) bl' s' ->
  kheap s' = set_free_buckets (free_buckets (kheap s')) (kheap s) ->
  heap_st a (l1 ++ [c'] ++ l2) bl' s'.
Proof.
  intros [C Hs Hz Hc HW Hwc] Es Hw Hw' C' Hk.
  assert (exists fb, kheap s' = set_free_buckets fb (kheap s)) as [fb Kfb] by eauto.
  split; rewrite ?Kfb; simpl; try done.
  - rewrite Hz, !total_app. simpl. unfold span. rewrite Es. lia.
  - rewrite Hc, !length_app. simpl. lia.
  - by apply (wild_ok_flag _ c c' l2).
  - destruct Hwc as (w & Hin & Hww). exists w. split; [|done].
    eapply (place_replace a l1 [c] [c']); [simpl; unfold span; by rewrite Es|exact Hin|].
    intros [[= _ ->]|[]%elem_of_nil]%elem_of_cons. congruence.
Qed.

Lemma alloc_chunk_spec a l1 c l2 bl s :
  let x := a + total l1 in
  heap_st a (l1 ++ [c] ++ l2) bl s -> c_free c = true -> c_wild c = false -> x ∈ concat bl ->
  exists s' bl', alloc_chunk x s = Ok (tt, s') /\
    heap_st a (l1 ++ [taken (c_size c)] ++ l2) bl' s' /\ same_rest s s' /\
    keeps a (l1 ++ [c] ++ l2) (hs_mem s) (hs_mem s') /\
    (forall z, z ∈ concat bl' <-> z <> x /\ z ∈ concat bl).
Proof.
  intros x H Hf Hw Hin. pose proof (st_core _ _ _ _ H) as C.
  assert (Fx : free_chunk a (l1 ++ [c] ++ l2) x c) by (split; [apply place_elem|done]).
  pose proof (free_hdr _ _ _ _ _ (core_layout _ _ _ _ C) Fx) as Hx. rewrite Hw in Hx.
  destruct (remove_from_bucket_list_spec _ _ _ _ _ _ C Fx (or_introl Hin))
    as (s1 & bl1 & R & (C1 & F1 & _) & _ & E1).
  pose proof (free_hdr _ _ _ _ _ (core_layout _ _ _ _ C1) Fx) as Hx1.
  assert (U1 : x ∉ concat bl1) by (rewrite E1; tauto).
  pose proof (core_set_flag a l1 c (taken (c_size c)) l2 bl1 s1 _ C1 U1 eq_refl (eq_sym Hw)
    eq_refl) as C2.
  pose proof F1 as (? & ? & ? & K1 & P1).
  eexists _, bl1. split.
  - unfold alloc_chunk. do 2 run_step. run_by R. eapply reset_free_ok, Hx1.
  - split_and!.
    + eapply heap_st_flag; [exact H|try done..|exact K1].
    + eapply same_rest_trans; [eapply frame_same_rest, F1|done].
    + eapply keeps_trans; [exact P1|].
      eapply keeps_replace; [apply C|by repeat constructor|]. simpl. fold x.
      apply agree_outside_store; auto with kernel; [lia|]. unfold span.
      destruct (layout_bounds _ _ _ _ _ (core_layout _ _ _ _ C) (proj1 Fx)) as ([? _] & _). lia.
    + exact E1.
Qed.

End ops.
