(* ===== verification/HeapSpec.v ===== *)
(** * The heap as an allocator of blocks

    [blocks a cs] is what a client sees of the heap: the map from the address of
    each live block to its size.  [heap_inv a cs s] is the invariant of the
    kernel heap between two calls; the theorems about [kmalloc] and [kfree] are
    stated on these two. *)

From S2P Require Import Prelude Memory Sync Interfaces Heap HeapChunks HeapInv HeapLists HeapOps.
Import Sequential.

Definition block_list (a : Z) (cs : list chunk) : list (Z * Z) :=
  (fun xc => (xc.1 + 8, c_size xc.2)) <$> filter (fun xc => c_free xc.2 = false) (place a cs).

Definition blocks (a : Z) (cs : list chunk) : gmap Z Z := list_to_map (block_list a cs).

Lemma elem_of_block_list a cs p n :
  (p, n) ∈ block_list a cs <->
  exists c, (p - 8, c) ∈ place a cs /\ c_free c = false /\ c_size c = n.
Proof.
  unfold block_list. rewrite list_elem_of_fmap. split.
  - intros ([x c] & [= -> ->] & [Hf Hin]%list_elem_of_filter). exists c. simpl in *.
    by replace (x + 8 - 8) with x by lia.
  - intros (c & Hin & Hf & <-). exists (p - 8, c). simpl.
    replace (p - 8 + 8) with p by lia. split; [done|]. by apply list_elem_of_filter.
Qed.

Lemma block_list_nodup a cs : Forall chunk_wf cs -> NoDup (block_list a cs).*1.
Proof.
  intros W. revert a. induction W as [|c cs [Hc _] W IH]; intros a; [constructor|].
  unfold block_list. simpl. rewrite filter_cons. case_decide; [|apply IH].
  simpl. apply NoDup_cons. split; [|apply IH].
  rewrite list_elem_of_fmap. intros ([p n] & E & Hin). simpl in E. subst p.
  apply elem_of_block_list in Hin as (d & Hin & _).
  destruct (place_bounds _ _ _ _ W Hin) as (_ & ? & _). unfold span in *. lia.
Qed.

Lemma lookup_blocks a cs p n :
  Forall chunk_wf cs ->
  blocks a cs !! p = Some n <->
  exists c, (p - 8, c) ∈ place a cs /\ c_free c = false /\ c_size c = n.
Proof.
  intros W. rewrite <-elem_of_block_list. symmetry.
  apply elem_of_list_to_map. by apply block_list_nodup.
Qed.

Lemma block_list_app a l1 l2 :
  block_list a (l1 ++ l2) = block_list a l1 ++ block_list (a + total l1) l2.
Proof. unfold block_list. by rewrite place_app, filter_app, fmap_app. Qed.

(** Blocks live in the heap, 8-aligned, and do not overlap. *)
Lemma blocks_bounds a cs m p n :
  layout a cs m -> blocks a cs !! p = Some n ->
  a + 8 <= p /\ p + n + 8 <= a + total cs /\ p mod 8 = 0 /\ 16 <= n /\ n mod 8 = 0.
Proof.
  intros L (c & Hin & _ & <-)%lookup_blocks; [|apply L].
  destruct (place_bounds _ _ _ _ (lay_wf _ _ _ L) Hin) as ([? ?] & ? & ?).
  pose proof (place_mod8 _ _ _ _ (lay_wf _ _ _ L) (lay_mod8 _ _ _ L) Hin).
  unfold span in *. lia.
Qed.

Lemma blocks_disjoint a cs m p n q k :
  layout a cs m -> blocks a cs !! p = Some n -> blocks a cs !! q = Some k -> p <> q ->
  p + n <= q \/ q + k <= p.
Proof.
  intros L (c & Hc & _ & <-)%lookup_blocks (d & Hd & _ & <-)%lookup_blocks Hne; [|apply L..].
  destruct (place_disjoint _ _ _ _ _ _ (lay_wf _ _ _ L) Hc Hd) as [[E _]|?];
    unfold span in *; lia.
Qed.

(** Replacing a block of chunks, seen by the client. *)
Lemma blocks_replace a l1 mid mid' l2 :
  total mid' = total mid -> block_list (a + total l1) mid' = block_list (a + total l1) mid ->
  blocks a (l1 ++ mid' ++ l2) = blocks a (l1 ++ mid ++ l2).
Proof. intros HT HB. unfold blocks. by rewrite !block_list_app, HB, HT. Qed.

Lemma blocks_insert a l1 mid mid' l2 p n :
  Forall chunk_wf (l1 ++ mid' ++ l2) -> total mid' = total mid ->
  block_list (a + total l1) mid = [] -> block_list (a + total l1) mid' = [(p, n)] ->
  blocks a (l1 ++ mid ++ l2) !! p = None /\
  blocks a (l1 ++ mid' ++ l2) = <[p := n]> (blocks a (l1 ++ mid ++ l2)).
Proof.
  intros W HT HB HB'. pose proof (block_list_nodup a _ W) as ND.
  unfold blocks. rewrite !block_list_app, HB', HT in ND. rewrite !block_list_app, HB', HT, HB.
  simpl in *.
  rewrite !fmap_app in ND. simpl in ND.
  apply NoDup_app in ND as (N1 & N12 & [N3 N2]%NoDup_cons). split.
  - apply not_elem_of_list_to_map. rewrite fmap_app, elem_of_app.
    intros [Hp|Hp]; [|done]. apply (N12 p Hp). set_solver.
  - rewrite (list_to_map_app (block_list a l1) ((p, n) :: _)). simpl.
    rewrite <-insert_union_r, <-list_to_map_app; [done|].
    apply not_elem_of_list_to_map. intros Hin. apply (N12 p); set_solver.
Qed.

Lemma block_list_free x mid : Forall (fun c => c_free c = true) mid -> block_list x mid = [].
Proof.
  revert x. induction mid as [|c mid IH]; intros x; [done|]. rewrite Forall_cons. intros [Hc F].
  unfold block_list. simpl. rewrite filter_cons_False by (simpl; congruence). by apply IH.
Qed.

Lemma block_list_taken x n mid :
  Forall (fun c => c_free c = true) mid -> block_list x (taken n :: mid) = [(x + 8, n)].
Proof.
  intros F. unfold block_list. cbn [place]. rewrite filter_cons_True by done. cbn. f_equal.
  by apply block_list_free.
Qed.

(** ** Coalescing: no two neighbours are both free

    [apart b cs]: the list can follow a chunk whose free flag is [b]. *)
Fixpoint apart (b : bool) (cs : list chunk) : Prop :=
  match cs with
  | [] => True
  | c :: cs' => b && c_free c = false /\ apart (c_free c) cs'
  end.

Fixpoint last_free (b : bool) (cs : list chunk) : bool :=
  match cs with
  | [] => b
  | c :: cs' => last_free (c_free c) cs'
  end.

Lemma last_free_app b l1 l2 : last_free b (l1 ++ l2) = last_free (last_free b l1) l2.
Proof. revert b. by induction l1 as [|c l1 IH]; intros b; simpl. Qed.

Lemma apart_app b l1 l2 : apart b (l1 ++ l2) <-> apart b l1 /\ apart (last_free b l1) l2.
Proof.
  revert b. induction l1 as [|c l1 IH]; intros b; simpl; [tauto|]. rewrite IH. tauto.
Qed.

Lemma apart_false b cs : apart b cs -> apart false cs.
Proof. destruct cs as [|c cs]; simpl; [done|]. by intros [_ ?]. Qed.

Section spec.
Context {V : Type} {VP : VMemProvider V} {VL : VMemLaws V}.
Implicit Types (s : heap_state V) (cs : list chunk) (bl : list (list Z)).

Definition complete (a : Z) cs bl : Prop :=
  forall x c, free_chunk a cs x c -> x ∈ concat bl.

(** The region behind the heap has the extent of the chunks. *)
Record backed (a : Z) cs s : Prop := {
  bk_live : vmem_live (heap_vmem (kheap s)) (hs_vmm s);
  bk_addr : get_vmem_addr (heap_vmem (kheap s)) (hs_vmm s) = a;
  bk_size : get_vmem_size (heap_vmem (kheap s)) (hs_vmm s) = total cs
}.

Record heap_inv (a : Z) cs s : Prop := {
  inv_st : exists bl, heap_st a cs bl s /\ complete a cs bl;
  inv_apart : apart false cs;
  inv_backed : backed a cs s;
  inv_lock : kheap_lock s = false
}.

Lemma heap_st_ext a cs bl s s' :
  hs_mem s' = hs_mem s -> kheap s' = kheap s -> heap_st a cs bl s -> heap_st a cs bl s'.
Proof.
  intros Em Ek []. split; rewrite ?Ek; try done. eapply core_ext; [exact Em| |done].
  by rewrite Ek.
Qed.

Lemma backed_same_rest a cs cs' s s' :
  same_rest s s' -> total cs' = total cs -> backed a cs s -> backed a cs' s'.
Proof. intros (_ & _ & Ev & Eh & _) HT []. split; by rewrite Eh, Ev, ?HT. Qed.

Lemma backed_small a cs s : backed a cs s -> total cs < 2 ^ 47.
Proof. intros [Hl Ha Hs]. pose proof (vmem_live_range _ _ Hl). lia. Qed.

Lemma layout_small a cs m x c :
  layout a cs m -> total cs < 2 ^ 47 -> (x, c) ∈ place a cs -> c_size c < 2 ^ 47.
Proof.
  intros L HT Hin. destruct (place_bounds _ _ _ _ (lay_wf _ _ _ L) Hin) as (_ & ? & ?).
  unfold span in *. lia.
Qed.

(** ** Entering and leaving the critical section *)

Definition enter s : heap_state V := put lock_lens true (put if_lens false s).
Definition leave s0 s : heap_state V :=
  if view if_lens s0 then put if_lens true (put lock_lens false s) else put lock_lens false s.

Lemma heap_inv_enter a cs s :
  heap_inv a cs s ->
  exists bl, heap_st a cs bl (enter s) /\ complete a cs bl /\ backed a cs (enter s) /\
    total cs < 2 ^ 47.
Proof.
  intros [(bl & H & HC) HA HB HL]. exists bl. split_and!; [|done| |by eapply backed_small].
  - by eapply heap_st_ext; [| |exact H].
  - destruct HB. split; simpl.
    + by apply vmem_live_if.
    + by rewrite vmem_addr_if.
    + by rewrite vmem_size_if.
Qed.

(** A critical section that re-establishes the heap. *)
Lemma heap_inv_leave a cs' bl' s s' :
  heap_st a cs' bl' s' -> complete a cs' bl' -> apart false cs' -> backed a cs' s' ->
  heap_inv a cs' (leave s s') /\ hs_mem (leave s s') = hs_mem s'.
Proof.
  intros H HC HA HB. split; [|by unfold leave; destruct (view if_lens s)]. split.
  - exists bl'. split; [|done].
    eapply heap_st_ext; [| |exact H]; unfold leave; by destruct (view if_lens s).
  - done.
  - destruct HB. unfold leave. destruct (view if_lens s); split; simpl; try done.
    + by apply vmem_live_if.
    + by rewrite vmem_addr_if.
    + by rewrite vmem_size_if.
  - unfold leave. by destruct (view if_lens s).
Qed.

(** When the body leaves the region alone the interrupt flag is restored too. *)
Lemma leave_vmm s s' : same_rest (enter s) s' -> hs_vmm (leave s s') = hs_vmm s.
Proof.
  intros (_ & _ & Ev & _). simpl in Ev. pose proof vp_if_laws. unfold leave. simpl.
  destruct (view vp_if (hs_vmm s)) eqn:Ei; simpl; rewrite Ev, ?put_put, <-Ei; apply put_view.
Qed.

Lemma critical_section {A} (body : M (heap_state V) A) s r s' :
  kheap_lock s = false -> body (enter s) = Ok (r, s') ->
  with_spinlock_hard lock_lens if_lens body s = Ok (r, leave s s').
Proof. intros HL HB. by apply with_spinlock_hard_run. Qed.

End spec.
