(* ===== verification/HeapFree.v ===== *)
(** * Freeing a block

    [kfree] marks the chunk free and unlinked, then lists it or merges it with
    the free neighbours.  The result is the same heap without the block. *)

From S2P Require Import Prelude Memory Sync Interfaces Heap HeapChunks HeapInv HeapLists HeapOps HeapSpec.
Import Sequential.

Section free.
Context {V : Type} {VP : VMemProvider V} {VL : VMemLaws V}.
Implicit Types (s : heap_state V) (cs : list chunk) (bl : list (list Z)).

Definition freed (c : chunk) : chunk := Chunk (c_size c) true false.

Lemma is_heap_chunk_corrupted_ok a cs s x c :
  layout a cs (hs_mem s) -> (x, c) ∈ place a cs -> is_heap_chunk_corrupted x s = Ok (false, s).
Proof.
  intros L Hin. pose proof (layout_hdr _ _ _ _ _ L Hin) as HH.
  pose proof (layout_footer _ _ _ _ _ L Hin) as Hf.
  destruct (layout_bounds _ _ _ _ _ L Hin) as ([? ?] & ? & ? & _).
  pose proof HH as (_ & Hs & _ & _).
  unfold is_heap_chunk_corrupted. run_step.
  unfold get_fixed_heap_chunk_size_from_footer. rewrite bind_assoc.
  run_by read64_ok; [unfold PAGE_SIZE, span in *; lia|].
  rewrite Hf, size_plain by done. do 2 run_step.
  rewrite Z.eqb_refl. simpl.
  destruct (Z.ltb_spec (c_size c) HEAP_CHUNK_MIN_SIZE); [unfold HEAP_CHUNK_MIN_SIZE in *; lia|].
  run_by read64_ok; [unfold PAGE_SIZE, span in *; lia|].
  by rewrite Hf, size_low_bits.
Qed.

Lemma heap_st_wild_free a cs bl s x c :
  heap_st a cs bl s -> (x, c) ∈ place a cs -> c_free c = false -> c_wild c = false.
Proof.
  intros H Hin Hf. destruct (c_wild c) eqn:Hw; [|done].
  rewrite (wild_ok_free _ _ _ _ (st_wild _ _ _ _ H) Hin Hw) in Hf. done.
Qed.

(** Links of unlisted chunks do not matter to the lists. *)
Lemma core_lw a cs bl s s' X :
  core a cs bl s -> all_free a cs X -> link_writes X (hs_mem s) (hs_mem s') ->
  (forall x, x ∈ X -> x ∉ concat bl) ->
  free_buckets (kheap s') = free_buckets (kheap s) -> core a cs bl s'.
Proof.
  intros C FX W U Hb. pose proof (core_layout _ _ _ _ C) as L.
  split; rewrite ?Hb; try apply C; [by eapply lw_layout|].
  intros i l Hl. destruct (core_lists _ _ _ _ C i l Hl) as (h & q & Hh & Hd).
  exists h, q. split; [done|]. eapply lw_dseg; [| |exact W|exact Hd].
  - eapply all_free_spaced; [exact L|]. apply all_free_app; [done|]. by eapply core_list_free.
  - intros y Hy Hyl. apply (U y Hy). by eapply elem_of_bucket.
Qed.

(** The first part of [kfree]: flag and links of the chunk. *)
Lemma mark_free_spec a l1 c l2 bl s :
  let x := a + total l1 in
  heap_st a (l1 ++ [c] ++ l2) bl s -> c_free c = false ->
  exists s1,
    (forall A (k : M (heap_state V) A),
      (set_heap_chunk_flag x HEAP_FREE_CHUNK;; set_bucket_list_next x NULL;;
       set_bucket_list_prev x NULL;; k) s = k s1) /\
    heap_st a (l1 ++ [freed c] ++ l2) bl s1 /\ same_rest s s1 /\ isolated s1 x /\
    keeps a (l1 ++ [freed c] ++ l2) (hs_mem s) (hs_mem s1) /\ x ∉ concat bl.
Proof.
  intros x H Hf. pose proof (st_core _ _ _ _ H) as C.
  assert (Hin : (x, c) ∈ place a (l1 ++ [c] ++ l2)) by apply place_elem.
  pose proof (heap_st_wild_free _ _ _ _ _ _ H Hin Hf) as Hw.
  pose proof (layout_hdr _ _ _ _ _ (core_layout _ _ _ _ C) Hin) as HH.
  assert (U : x ∉ concat bl).
  { intros Hl. destruct (core_listed_free _ _ _ _ _ C Hl) as (d & Hd & Hdf).
    rewrite (place_unique _ _ _ _ _ (lay_wf _ _ _ (core_layout _ _ _ _ C)) Hd Hin) in Hdf.
    congruence. }
  assert (C1 : core a (l1 ++ [freed c] ++ l2) bl
                 (set_mem (store64 (hs_mem s) x (hdr (c_size c) true (c_wild c))) s)).
  { by eapply core_set_flag. }
  set (s1 := set_mem _ s) in C1.
  assert (Fx : free_chunk a (l1 ++ [freed c] ++ l2) x (freed c)) by (split; [apply place_elem|done]).
  pose proof (core_layout _ _ _ _ C1) as L1.
  set (s2 := set_mem (store64 (hs_mem s1) (x + 8) NULL) s1).
  assert (L2 : layout a (l1 ++ [freed c] ++ l2) (hs_mem s2)) by (by eapply layout_store_free; [|exact Fx|left]).
  set (s3 := set_mem (store64 (hs_mem s2) (x + 16) NULL) s2).
  assert (W : link_writes [x] (hs_mem s1) (hs_mem s3)).
  { unfold s3, s2. simpl. repeat (apply lw_step; [|set_solver|lia]). apply lw_refl. }
  assert (Fxs : all_free a (l1 ++ [freed c] ++ l2) [x]).
  { intros y ->%list_elem_of_singleton. eauto. }
  exists s3. split_and!; [| |done|split| |done].
  - intros A k. rewrite (bind_ok _ _ _ _ _ (set_free_ok _ _ _ _ _ HH)).
    rewrite (bind_ok _ _ _ _ _ (set_next_ok _ _ _ _ _ (free_hdr _ _ s1 _ _ L1 Fx))).
    by rewrite (bind_ok _ _ _ _ _ (set_prev_ok _ _ _ _ _ (free_hdr _ _ s2 _ _ L2 Fx))).
  - eapply heap_st_flag; [exact H|done..| |by destruct s as [? [] ? ? ?]].
    eapply (core_lw _ _ _ _ s3 [x] C1); [exact Fxs|exact W| |done].
    by intros y ->%list_elem_of_singleton.
  - simpl. unfold NULL. by mem_simpl.
  - simpl. unfold NULL. by mem_simpl.
  - eapply keeps_trans; [|eapply lw_keeps; [apply L1|exact Fxs|exact W]].
    eapply keeps_replace; [apply L1|by repeat constructor|].
    simpl. fold x. destruct (layout_bounds _ _ _ _ _ (core_layout _ _ _ _ C) Hin) as ([? _] & _).
    apply agree_outside_store; auto with kernel; unfold span; simpl; lia.
Qed.

(** ** Coalescing *)

Lemma complete_replace a l1 mid mid' l2 bl bl' :
  Forall chunk_wf (l1 ++ mid' ++ l2) -> total mid' = total mid -> Forall chunk_wf mid ->
  (forall y e, free_chunk a (l1 ++ mid ++ l2) y e ->
     (forall d, (y, d) ∉ place (a + total l1) mid) -> y ∈ concat bl) ->
  (forall y, y ∈ concat bl -> (forall e, (y, e) ∉ place (a + total l1) mid) -> y ∈ concat bl') ->
  (forall y e, (y, e) ∈ place (a + total l1) mid' -> c_free e = true -> y ∈ concat bl') ->
  complete a (l1 ++ mid' ++ l2) bl'.
Proof.
  intros W HT Wm HC HB HM y e [Hin Hf].
  destruct (decide ((y, e) ∈ place (a + total l1) mid')) as [|Hn]; [by eauto|].
  pose proof (place_outside _ _ _ _ _ _ W Hin Hn) as Ho.
  destruct (place_bounds _ _ _ _ W Hin) as ([? _] & _).
  assert (Hn' : forall d, (y, d) ∉ place (a + total l1) mid).
  { intros d Hd. destruct (place_bounds _ _ _ _ Wm Hd) as ([? _] & ? & ?). unfold span in *. lia. }
  apply HB; [|done]. eapply HC; [|exact Hn']. split; [|done].
  by eapply place_replace; [|exact Hin|].
Qed.

(** What freeing reaches: chunks [cs'] of the same extent, with the same live
    blocks, coalesced and completely listed. *)
Definition coalesced_from (a : Z) cs s s' : Prop :=
  exists cs' bl', heap_st a cs' bl' s' /\ complete a cs' bl' /\ apart false cs' /\
    same_rest s s' /\ keeps a cs (hs_mem s) (hs_mem s') /\
    total cs' = total cs /\ blocks a cs' = blocks a cs.

Lemma coalesced_replace a l1 mid n l2 bl bl' s s' :
  heap_st a (l1 ++ mid ++ l2) bl s -> Forall (fun c => c_free c = true) mid ->
  c_free n = true -> span n = total mid ->
  (forall y e, free_chunk a (l1 ++ mid ++ l2) y e ->
     (forall d, (y, d) ∉ place (a + total l1) mid) -> y ∈ concat bl) ->
  apart false l1 -> last_free false l1 = false -> apart true l2 ->
  heap_st a (l1 ++ [n] ++ l2) bl' s' -> same_rest s s' ->
  keeps a (l1 ++ mid ++ l2) (hs_mem s) (hs_mem s') ->
  (forall y, y ∈ concat bl -> (forall e, (y, e) ∉ place (a + total l1) mid) -> y ∈ concat bl') ->
  a + total l1 ∈ concat bl' ->
  coalesced_from a (l1 ++ mid ++ l2) s s'.
Proof.
  intros H FM Fn HS HC A1 A2 A3 H' R K HB Hin.
  pose proof (lay_wf _ _ _ (core_layout _ _ _ _ (st_core _ _ _ _ H))) as W.
  pose proof (lay_wf _ _ _ (core_layout _ _ _ _ (st_core _ _ _ _ H'))) as W'.
  assert (HT : total [n] = total mid) by (simpl; lia).
  exists (l1 ++ [n] ++ l2), bl'. split_and!; try done.
  - eapply (complete_replace a l1 mid [n]); try done.
    + rewrite !Forall_app in W. naive_solver.
    + intros y e [[= -> ->]|[]%elem_of_nil]%elem_of_cons. done.
  - apply apart_app. split; [done|]. simpl. rewrite A2, Fn. done.
  - rewrite !total_app. lia.
  - apply blocks_replace; [done|]. rewrite !block_list_free; [done|done|by repeat constructor].
Qed.

(** [x] holds the chunk [kfree] has marked; every other free chunk is listed. *)
Definition marked (a : Z) l1 c l2 bl s : Prop :=
  heap_st a (l1 ++ [freed c] ++ l2) bl s /\ isolated s (a + total l1) /\
  (a + total l1 ∉ concat bl) /\
  (forall y e, free_chunk a (l1 ++ [freed c] ++ l2) y e -> y <> a + total l1 -> y ∈ concat bl).

Lemma coalesce_none a l1 c l2 bl s :
  marked a l1 c l2 bl s ->
  apart false l1 -> last_free false l1 = false -> apart true l2 ->
  exists s', add_to_bucket_list (a + total l1) s = Ok (tt, s') /\
    coalesced_from a (l1 ++ [freed c] ++ l2) s s'.
Proof.
  intros (H & HI & U & HC) A1 A2 A3.
  assert (Fx : free_chunk a (l1 ++ [freed c] ++ l2) (a + total l1) (freed c)).
  { split; [apply place_elem|done]. }
  destruct (add_to_bucket_list_spec _ _ _ _ _ _ (st_core _ _ _ _ H) Fx U)
    as (s' & bl' & R & (C' & F & _) & E).
  exists s'. split; [done|].
  eapply (coalesced_replace a l1 [freed c] (freed c) l2 bl bl'); try done.
  - by repeat constructor.
  - simpl. lia.
  - intros y e Hy Hn. eapply HC; [done|]. intros ->. eapply Hn. apply list_elem_of_here.
  - by eapply frame_heap_st.
  - by eapply frame_same_rest.
  - apply F.
  - intros y Hy _. apply E. by right.
  - apply E. by left.
Qed.

Lemma coalesce_next a l1 c d l2 bl s :
  marked a l1 c (d :: l2) bl s -> c_free d = true ->
  apart false l1 -> last_free false l1 = false -> apart true l2 ->
  exists s', merge_with_next_chunk (a + total l1) s = Ok (tt, s') /\
    coalesced_from a (l1 ++ [freed c] ++ d :: l2) s s'.
Proof.
  intros (H & HI & U & HC) Fd A1 A2 A3.
  destruct (merge_with_next_chunk_spec a l1 (freed c) d l2 bl s) as (s' & bl' & R & H' & SR & K & E);
    try done; [by right| |].
  { left. eapply HC; [split; [|exact Fd]|].
    - rewrite place_app. simpl. set_solver.
    - pose proof (lay_wf _ _ _ (core_layout _ _ _ _ (st_core _ _ _ _ H))) as W.
      rewrite !Forall_app, Forall_singleton in W. destruct W as (_ & [? _] & _). unfold span. lia. }
  exists s'. split; [done|].
  eapply (coalesced_replace a l1 [freed c; d] (join (freed c) d) l2 bl bl'); try done.
  - by repeat constructor.
  - rewrite span_join. simpl. lia.
  - intros y e Hy Hn. eapply HC; [done|]. intros ->. eapply Hn. apply list_elem_of_here.
  - intros y Hy Hn. apply E. right. split_and!; [..|done]; intros ->; eapply Hn.
    + apply list_elem_of_here.
    + apply list_elem_of_further, list_elem_of_here.
  - apply E. by left.
Qed.

Lemma marked_prev a l1 p c l2 bl s :
  marked a (l1 ++ [p]) c l2 bl s ->
  let x := a + total l1 + span p in
  heap_st a (l1 ++ [p; freed c] ++ l2) bl s /\ isolated s x /\ (x ∉ concat bl) /\
  (forall y e, free_chunk a (l1 ++ [p; freed c] ++ l2) y e -> y <> x -> y ∈ concat bl) /\
  a + total l1 <> x.
Proof.
  unfold marked. rewrite total_app, <-app_assoc. simpl.
  replace (a + (total l1 + (span p + 0))) with (a + total l1 + span p) by lia.
  intros (H & HI & U & HC). split_and!; try done.
  pose proof (lay_wf _ _ _ (core_layout _ _ _ _ (st_core _ _ _ _ H))) as W.
  rewrite Forall_app, Forall_cons in W. destruct W as (_ & [? _] & _). unfold span. lia.
Qed.

Lemma coalesce_prev a l1 p c l2 bl s :
  marked a (l1 ++ [p]) c l2 bl s -> c_free p = true ->
  apart false l1 -> last_free false l1 = false -> apart true l2 ->
  exists s', merge_with_next_chunk (a + total l1) s = Ok (tt, s') /\
    coalesced_from a ((l1 ++ [p]) ++ [freed c] ++ l2) s s'.
Proof.
  intros (H & HI & U & HC & Hne)%marked_prev Fp A1 A2 A3. rewrite <-app_assoc.
  destruct (merge_with_next_chunk_spec a l1 p (freed c) l2 bl s) as (s' & bl' & R & H' & SR & K & E);
    try done; [|by right|].
  { left. eapply HC; [split; [apply place_elem|done]|done]. }
  exists s'. split; [done|].
  eapply (coalesced_replace a l1 [p; freed c] (join p (freed c)) l2 bl bl'); try done.
  - by repeat constructor.
  - rewrite span_join. simpl. lia.
  - intros y e Hy Hn. eapply HC; [done|]. intros ->. eapply Hn.
    apply list_elem_of_further, list_elem_of_here.
  - intros y Hy Hn. apply E. right. split_and!; [..|done]; intros ->; eapply Hn.
    + apply list_elem_of_here.
    + apply list_elem_of_further, list_elem_of_here.
  - apply E. by left.
Qed.

Lemma coalesce_both a l1 p c d l2 bl s :
  marked a (l1 ++ [p]) c (d :: l2) bl s -> c_free p = true -> c_free d = true ->
  apart false l1 -> last_free false l1 = false -> apart true l2 ->
  exists s', merge_with_next_and_prev_chunk (a + total l1 + span p) s = Ok (tt, s') /\
    coalesced_from a ((l1 ++ [p]) ++ [freed c] ++ d :: l2) s s'.
Proof.
  intros (H & HI & U & HC & Hne)%marked_prev Fp Fd A1 A2 A3. rewrite <-app_assoc.
  pose proof (lay_wf _ _ _ (core_layout _ _ _ _ (st_core _ _ _ _ H))) as W.
  destruct (merge_with_next_and_prev_chunk_spec a l1 p (freed c) d l2 bl s)
    as (s' & bl' & R & H' & SR & K & E); try done; [by right| | |].
  { left. eapply HC; [split; [|exact Fd]|].
    - rewrite place_app. simpl. set_solver.
    - simpl in W. rewrite Forall_app, !Forall_cons in W. destruct W as (_ & _ & [? _] & _).
      unfold span. lia. }
  { left. eapply HC; [split; [apply place_elem|done]|done]. }
  exists s'. split; [done|].
  eapply (coalesced_replace a l1 [p; freed c; d] (join p (join (freed c) d)) l2 bl bl'); try done.
  - by repeat constructor.
  - rewrite !span_join. simpl. lia.
  - intros y e Hy Hn. eapply HC; [done|]. intros ->. eapply Hn.
    apply list_elem_of_further, list_elem_of_here.
  - intros y Hy Hn. apply E. right. split_and!; [..|done]; intros ->; eapply Hn.
    + apply list_elem_of_further, list_elem_of_here.
    + do 2 apply list_elem_of_further. apply list_elem_of_here.
    + apply list_elem_of_here.
  - apply E. by left.
Qed.

(** The neighbours [kfree] looks at: their addresses when they are free. *)
Definition prev_free (a : Z) (l1 : list chunk) : Z :=
  match last l1 with
  | Some p => if c_free p then a + total l1 - span p else NULL
  | None => NULL
  end.

Lemma kfree_prev_ok a l1 c l2 s :
  layout a (l1 ++ c :: l2) (hs_mem s) ->
  (if negb (a =? a + total l1) then get_prev_heap_chunk_header (a + total l1) else ret NULL) s =
    Ok (match last l1 with Some p => a + total l1 - span p | None => NULL end, s).
Proof.
  intros L. destruct l1 as [|p l1 _] using rev_ind.
  { simpl. by rewrite Z.add_0_r, Z.eqb_refl. }
  rewrite last_snoc. rewrite <-app_assoc in L. pose proof (get_prev_ok a l1 p c l2 s L) as R.
  pose proof (lay_wf _ _ _ L) as W. simpl in W. rewrite Forall_app, Forall_cons in W.
  destruct W as (W1 & [? _] & _). pose proof (total_nonneg _ W1).
  rewrite !total_app. simpl. rewrite (proj2 (Z.eqb_neq a _)) by (unfold span in *; lia). simpl.
  replace (a + (total l1 + (span p + 0))) with (a + total l1 + span p) by lia.
  rewrite R. do 2 f_equal. lia.
Qed.

Lemma kfree_prev_flag_ok a l1 c l2 s :
  layout a (l1 ++ c :: l2) (hs_mem s) ->
  let q := match last l1 with Some p => a + total l1 - span p | None => NULL end in
  (if negb (q =? NULL)
   then pf <- get_heap_chunk_flag q HEAP_FREE_CHUNK;; ret (if negb pf then NULL else q)
   else ret q) s = Ok (prev_free a l1, s).
Proof.
  intros L. unfold prev_free. destruct l1 as [|p l1 _] using rev_ind; [done|].
  rewrite last_snoc, total_app. simpl. rewrite <-app_assoc in L.
  replace (a + (total l1 + (span p + 0)) - span p) with (a + total l1) by lia.
  assert (Hp : (a + total l1, p) ∈ place a (l1 ++ [p] ++ c :: l2)) by apply place_elem.
  destruct (layout_bounds _ _ _ _ _ L Hp) as (_ & ? & _ & _).
  pose proof (layout_hdr _ _ _ _ _ L Hp) as HH.
  rewrite (proj2 (Z.eqb_neq _ NULL)) by (unfold NULL, PAGE_SIZE in *; lia). simpl.
  run_step. by destruct (c_free p).
Qed.

Lemma kfree_coalesce_cases a l1 c d l2 bl s :
  let x := a + total l1 in
  heap_st a (l1 ++ [freed c] ++ d :: l2) bl s ->
  kfree_coalesce x s =
    (if prev_free a l1 =? NULL
     then if c_free d then merge_with_next_chunk x else add_to_bucket_list x
     else if c_free d then merge_with_next_and_prev_chunk x
          else merge_with_next_chunk (prev_free a l1)) s.
Proof.
  intros x H. pose proof (core_layout _ _ _ _ (st_core _ _ _ _ H)) as L.
  set (y := x + span (freed c)).
  assert (Hx : (x, freed c) ∈ place a (l1 ++ [freed c] ++ d :: l2)) by apply place_elem.
  assert (Hy : (y, d) ∈ place a (l1 ++ [freed c] ++ d :: l2)).
  { rewrite place_app. simpl. set_solver. }
  pose proof (layout_hdr _ _ _ _ _ L Hx) as HHx. pose proof (layout_hdr _ _ _ _ _ L Hy) as HHy.
  destruct (layout_bounds _ _ _ _ _ L Hy) as (_ & By & _ & _). simpl in HHx.
  assert (Hyn : (y =? NULL) = false) by (apply Z.eqb_neq; unfold NULL, PAGE_SIZE in *; lia).
  unfold kfree_coalesce, is_first_chunk_of_heap, is_last_chunk_of_heap.
  run_step. rewrite (st_start _ _ _ _ H).
  run_by kfree_prev_ok; [exact L|]. run_step. simpl negb. cbn [negb].
  run_step. replace (x + c_size c + 16) with y by (unfold y, span; simpl; lia).
  run_by kfree_prev_flag_ok; [exact L|]. rewrite Hyn. cbn [negb]. rewrite bind_assoc. run_step.
  run_step. destruct (prev_free a l1 =? NULL), (c_free d); simpl; rewrite ?Hyn; done.
Qed.

Lemma last_free_snoc b l p : last_free b (l ++ [p]) = c_free p.
Proof. by rewrite last_free_app. Qed.

Lemma kfree_coalesce_spec a l1 c d l2 bl s :
  marked a l1 c (d :: l2) bl s -> apart false l1 -> apart false (d :: l2) ->
  exists s', kfree_coalesce (a + total l1) s = Ok (tt, s') /\
    coalesced_from a (l1 ++ [freed c] ++ d :: l2) s s'.
Proof.
  intros HM A1 [_ A2]. rewrite (kfree_coalesce_cases a l1 c d l2 bl s) by apply HM.
  assert (Ad : c_free d = false -> apart true (d :: l2)) by (by intros E; rewrite E in A2; simpl; rewrite E).
  assert (A2' : c_free d = true -> apart true l2) by (by intros E; rewrite E in A2).
  assert (Hp : (prev_free a l1 = NULL /\ last_free false l1 = false) \/
    exists l p, l1 = l ++ [p] /\ c_free p = true /\ prev_free a l1 = a + total l /\
      prev_free a l1 <> NULL /\ a + total l1 = a + total l + span p).
  { unfold prev_free. destruct l1 as [|p l _] using rev_ind; [by left|].
    rewrite last_snoc, last_free_snoc. destruct (c_free p) eqn:Ep; [right|by left].
    exists l, p. rewrite total_app. simpl. split_and!; try done; [lia| |lia].
    destruct HM as (H & _). pose proof (core_layout _ _ _ _ (st_core _ _ _ _ H)) as L.
    rewrite <-app_assoc in L. destruct (layout_bounds _ _ _ (a + total l) p L) as (_ & ? & _).
    { apply place_elem. } unfold NULL, PAGE_SIZE in *. lia. }
  destruct Hp as [(Hp & Hl)|(l & p & -> & Fp & Hp & Hn & Hx)].
  - rewrite Hp. simpl. destruct (c_free d) eqn:Ed.
    + eapply coalesce_next; eauto.
    + eapply coalesce_none; eauto.
  - rewrite (proj2 (Z.eqb_neq _ _) Hn). apply apart_app in A1 as [A1 A1'].
    assert (Hl : last_free false l = false).
    { simpl in A1'. rewrite Fp, andb_true_r in A1'. apply A1'. }
    destruct (c_free d) eqn:Ed.
    + rewrite Hx. eapply coalesce_both; eauto.
    + rewrite Hp. eapply coalesce_prev; eauto.
Qed.

(** ** The operation *)

Lemma from_user_data_ok x : 0 <= x -> x + 8 < 2 ^ 64 -> get_heap_chunk_from_user_data (x + 8) = x.
Proof.
  intros. unfold get_heap_chunk_from_user_data, sizeof_HeapChunkHeader.
  rewrite wrap64_small by lia. lia.
Qed.

Lemma alloc_word_blocks a cs y :
  Forall chunk_wf cs ->
  alloc_word a cs y <-> exists q k, blocks a cs !! q = Some k /\ q <= y /\ y + 8 <= q + k.
Proof.
  intros W. split.
  - intros (x & c & Hin & Hf & ? & ?). exists (x + 8), (c_size c). split; [|lia].
    apply lookup_blocks; [done|]. exists c. by replace (x + 8 - 8) with x by lia.
  - intros (q & k & (c & Hin & Hf & <-)%lookup_blocks & ? & ?); [|done].
    exists (q - 8), c. split_and!; try done; lia.
Qed.

Lemma blocks_freed a l1 c l2 :
  Forall chunk_wf (l1 ++ [c] ++ l2) -> c_free c = false -> c_wild c = false ->
  blocks a (l1 ++ [freed c] ++ l2) = delete (a + total l1 + 8) (blocks a (l1 ++ [c] ++ l2)).
Proof.
  intros W Hf Hw. destruct (blocks_insert a l1 [freed c] [c] l2 (a + total l1 + 8) (c_size c))
    as [HN ->]; try done.
  - destruct c as [sz f w]. simpl in *. subst f w. by apply (block_list_taken _ _ []).
  - by rewrite delete_insert_id.
Qed.

Lemma kfree_mark_spec a l1 c l2 bl s :
  heap_st a (l1 ++ [c] ++ l2) bl s -> complete a (l1 ++ [c] ++ l2) bl ->
  c_free c = false -> apart false (l1 ++ [c] ++ l2) ->
  exists s', (set_heap_chunk_flag (a + total l1) HEAP_FREE_CHUNK;;
    set_bucket_list_next (a + total l1) NULL;;
    set_bucket_list_prev (a + total l1) NULL;; kfree_coalesce (a + total l1)) s = Ok (tt, s') /\
  exists s1, coalesced_from a (l1 ++ [freed c] ++ l2) s1 s' /\ same_rest s s1 /\
    keeps a (l1 ++ [freed c] ++ l2) (hs_mem s) (hs_mem s1).
Proof.
  intros H HC Hf HA.
  destruct (mark_free_spec a l1 c l2 bl s H Hf) as (s1 & R1 & H1 & SR1 & I1 & K1 & U1).
  assert (HM : marked a l1 c l2 bl s1).
  { split_and!; try done. intros y e [Hy He] Hne. eapply HC. split; [|exact He].
    eapply (place_replace a l1 [freed c] [c]); [done|exact Hy|].
    simpl. intros [[= -> ->]|[]%elem_of_nil]%elem_of_cons. done. }
  assert (Hin : (a + total l1, c) ∈ place a (l1 ++ [c] ++ l2)) by apply place_elem.
  destruct (wild_ok_flag l1 c (freed c) l2) as [_ Hl2]; [exact (heap_st_wild_free _ _ _ _ _ _ H Hin Hf)|done|apply H|].
  destruct l2 as [|d l2]; [done|].
  apply apart_app in HA as [A1 A2]. rewrite (apart_app _ [c]) in A2. destruct A2 as [_ A2].
  simpl last_free in A2. rewrite Hf in A2.
  destruct (kfree_coalesce_spec a l1 c d l2 bl s1 HM A1 A2) as (s' & R' & HCF).
  exists s'. split; [by rewrite R1|]. eauto.
Qed.

Lemma kfree_spec a cs s p n :
  heap_inv a cs s -> blocks a cs !! p = Some n ->
  exists s' cs', kfree p s = Ok (tt, s') /\ heap_inv a cs' s' /\
    blocks a cs' = delete p (blocks a cs) /\ total cs' = total cs /\ hs_vmm s' = hs_vmm s /\
    (forall q k z, blocks a cs' !! q = Some k -> q <= z -> z + 8 <= q + k ->
       load64 (hs_mem s') z = load64 (hs_mem s) z).
Proof.
  intros HI Hp. destruct (heap_inv_enter _ _ _ HI) as (bl & H & HC & HB & _).
  pose proof (core_layout _ _ _ _ (st_core _ _ _ _ H)) as L. pose proof (lay_wf _ _ _ L) as W.
  apply lookup_blocks in Hp as (c & Hin & Hf & <-); [|done].
  pose proof (heap_st_wild_free _ _ _ _ _ _ H Hin Hf) as Hw.
  destruct (layout_bounds _ _ _ _ _ L Hin) as ([? _] & ? & ? & _).
  destruct (place_split _ _ _ _ Hin) as (l1 & l2 & -> & Hx).
  replace p with (a + total l1 + 8) in * by lia. clear Hx.
  replace (a + total l1 + 8 - 8) with (a + total l1) in * by lia.
  pose proof (layout_hdr _ _ _ _ _ L Hin) as HH.
  destruct (kfree_mark_spec a l1 c l2 bl (enter s) H HC Hf (inv_apart _ _ _ HI))
    as (s' & R' & s1 & (cs' & bl' & H' & HC' & HA' & SR' & K' & HT' & HBl') & SR1 & K1).
  pose proof (leave_vmm s s' (same_rest_trans _ _ _ SR1 SR')) as Ev.
  destruct (heap_inv_leave a cs' bl' s s') as (HI' & Em); try done.
  { eapply (backed_same_rest a (l1 ++ c :: l2) cs' (enter s)); [by eapply same_rest_trans| |done].
    rewrite HT', !total_app. simpl. unfold span. simpl. lia. }
  exists (leave s s'), cs'. split_and!; try done.
  - unfold kfree. apply critical_section; [apply HI|].
    rewrite from_user_data_ok by (unfold PAGE_SIZE, span in *; lia).
    run_step. rewrite Hf. run_step. run_step. rewrite Hw. run_step.
    run_by (is_heap_chunk_corrupted_ok a (l1 ++ c :: l2) (enter s)); [done|done|]. run_step. exact R'.
  - rewrite HBl'. by apply blocks_freed.
  - rewrite HT', !total_app. simpl. unfold span. simpl. lia.
  - intros q k z Hq Hz1 Hz2. rewrite Em.
    assert (Hwd : alloc_word a (l1 ++ [freed c] ++ l2) z).
    { apply alloc_word_blocks.
      - rewrite Forall_app, Forall_cons in W. simpl. rewrite Forall_app, Forall_cons. naive_solver.
      - exists q, k. by rewrite <-HBl'. }
    rewrite K' by done. by rewrite K1.
Qed.

Lemma kfree_free_spec a cs s x c :
  heap_inv a cs s -> free_chunk a cs x c -> kfree (x + 8) s = Panic HEAP_CORRUPTED.
Proof.
  intros HI Hx. destruct (heap_inv_enter _ _ _ HI) as (bl & H & _).
  pose proof (core_layout _ _ _ _ (st_core _ _ _ _ H)) as L.
  destruct (layout_bounds _ _ _ _ _ L (proj1 Hx)) as ([? _] & ? & ? & _).
  pose proof (free_hdr _ _ _ _ _ L Hx) as HH.
  unfold kfree. apply with_spinlock_hard_panic; [apply HI|].
  rewrite from_user_data_ok by (unfold PAGE_SIZE, span in *; lia).
  run_step. done.
Qed.

End free.
