(* ===== verification/HeapMalloc.v ===== *)
(** * Allocating a block

    [kmalloc] searches the bucket lists from the bucket of the request upwards
    and falls back to the wilderness chunk; the chosen chunk is taken whole,
    split, or, if it is the wilderness and too small, grown first. *)

From S2P Require Import Prelude Memory Sync Interfaces Heap HeapChunks HeapInv HeapLists HeapOps HeapSpec HeapFree.
Import Sequential.

(** The test of the search loop. *)
Definition accepts (n : Z) (c : chunk) : bool := (c_size c =? n) || (32 <=? c_size c).

Section malloc.
Context {V : Type} {VP : VMemProvider V} {VL : VMemLaws V}.
Implicit Types (s : heap_state V) (cs : list chunk) (bl : list (list Z)).

Lemma search_bucket_spec a cs s n fuel p h l q :
  layout a cs (hs_mem s) -> all_free a cs l -> dseg (hs_mem s) p h l q 0 ->
  (length l <= fuel)%nat ->
  exists r, search_bucket fuel h n s = Ok (r, s) /\
    ((r = NULL /\ forall x c, x ∈ l -> (x, c) ∈ place a cs -> accepts n c = false) \/
     (r ∈ l /\ forall c, (r, c) ∈ place a cs -> accepts n c = true)).
Proof.
  intros L. revert p h fuel. induction l as [|x l IH]; intros p h fuel HF HD Hl.
  { destruct HD as [-> _]. exists NULL. split; [by destruct fuel|left]. set_solver. }
  destruct fuel as [|fuel]; [simpl in Hl; lia|]. destruct HD as (-> & _ & HD).
  destruct (HF x) as (c & Hc); [set_solver|].
  pose proof (layout_free_bounds _ _ _ _ _ L Hc) as (_ & _ & Hx0).
  pose proof (free_hdr _ _ _ _ _ L Hc) as HH.
  assert (U : forall d, (x, d) ∈ place a cs -> d = c).
  { intros d Hd. eapply place_unique; [apply L|exact Hd|apply Hc]. }
  cbn [search_bucket]. rewrite (proj2 (Z.eqb_neq x NULL)) by (unfold NULL; lia).
  rewrite (bind_ok _ _ _ _ _ (get_size_ok _ _ _ _ _ HH)). cbv zeta.
  rewrite (bind_ok _ _ _ _ _ (get_list_next_ok _ _ _ _ HH)).
  change (HEAP_CHUNK_MIN_SIZE + HEAP_CHUNK_SPLIT_OVERHEAD) with 32. fold (accepts n c).
  destruct (accepts n c) eqn:EA.
  - exists x. split; [done|right]. split; [set_solver|]. intros d Hd. by rewrite (U d Hd).
  - edestruct (IH x (load64 (hs_mem s) (x + 8)) fuel) as (r & R & HR); [|done|simpl in Hl; lia|].
    { intros y Hy. apply HF. set_solver. }
    exists r. split; [done|]. destruct HR as [[-> HR]|[Hr HR]]; [left|right].
    + split; [done|]. intros y d [->|Hy]%elem_of_cons Hd; [by rewrite (U d Hd)|eauto].
    + split; [set_solver|done].
Qed.

Lemma place_length a cs : length (place a cs) = length cs.
Proof. revert a. induction cs as [|c cs IH]; intros a; simpl; [done|]. by rewrite IH. Qed.

(** A bucket list has no more nodes than the heap has chunks. *)
Lemma bucket_length a cs bl s i l :
  core a cs bl s -> bl !! i = Some l -> (length l <= length cs)%nat.
Proof.
  intros C Hi. rewrite <-(place_length a cs), <-(length_fmap fst).
  apply submseteq_length, NoDup_submseteq; [eapply bucket_nodup; [apply C|done]|].
  intros x Hx. destruct (core_listed _ _ _ _ C _ _ _ Hi Hx) as (c & [Hc _] & _).
  apply list_elem_of_fmap. by exists (x, c).
Qed.

Lemma search_buckets_spec a cs bl s n k fuel i :
  core a cs bl s -> (length cs <= fuel)%nat -> 0 <= i -> i + Z.of_nat k <= BUCKETS_COUNT ->
  exists r, search_buckets k fuel i n s = Ok (r, s) /\
    (r = NULL \/ exists c, free_chunk a cs r c /\ accepts n c = true).
Proof.
  intros C Hf. pose proof (core_layout _ _ _ _ C) as L. revert i.
  induction k as [|k IH]; intros i Hi Hk; [by exists NULL; split; [|left]|].
  assert (is_Some (bl !! Z.to_nat i)) as [l Hl].
  { apply lookup_lt_is_Some. rewrite (core_bl _ _ _ _ C). lia. }
  destruct (core_lists _ _ _ _ C _ _ Hl) as (h & q & Hh & Hd).
  pose proof (core_list_free _ _ _ _ _ _ C Hl) as Fl.
  cbn [search_buckets]. rewrite (bind_ok _ _ _ _ _ (read_bucket_ok _ _ _ Hi Hh)).
  pose proof (bucket_length _ _ _ _ _ _ C Hl).
  destruct (search_bucket_spec a cs s n fuel 0 h l q L Fl Hd) as (r & R & HR); [lia|].
  rewrite (bind_ok _ _ _ _ _ R). destruct HR as [[-> _]|[Hr HR]].
  - simpl. apply IH; lia.
  - destruct (Fl r Hr) as (c & Hc).
    pose proof (layout_free_bounds _ _ _ _ _ L Hc) as (_ & _ & Hr0).
    rewrite (proj2 (Z.eqb_neq r NULL)) by (unfold NULL; lia).
    exists r. split; [done|]. right. exists c. split; [done|]. apply HR, Hc.
Qed.

(** The search always ends with a free chunk: one the test accepts, or the
    wilderness. *)
Lemma kmalloc_search_spec a cs bl s n :
  heap_st a cs bl s -> 16 <= n ->
  exists x c, kmalloc_search n s = Ok (x, s) /\ free_chunk a cs x c /\
    (accepts n c = true \/ c_wild c = true).
Proof.
  intros H Hn. pose proof (bucket_index_range n Hn) as Hb.
  destruct (search_buckets_spec a cs bl s n (Z.to_nat (BUCKETS_COUNT - get_bucket_index_from_size n))
    (Z.to_nat (number_of_chunks (kheap s))) (get_bucket_index_from_size n)) as (r & R & HR).
  { apply H. } { rewrite (st_count _ _ _ _ H). lia. } { lia. } { lia. }
  unfold kmalloc_search, bind at 1, gets at 1.
  assert (Hw := st_wilderness _ _ _ _ H). destruct Hw as (w & Hw & Hww).
  pose proof (wild_ok_free _ _ _ _ (st_wild _ _ _ _ H) Hw Hww) as Hwf.
  destruct HR as [->|(c & Hc & HA)].
  - exists (wilderness_chunk (kheap s)), w. split; [by rewrite (bind_ok _ _ _ _ _ R)|].
    split; [done|by right].
  - exists r, c. split; [|auto]. rewrite (bind_ok _ _ _ _ _ R).
    pose proof (layout_free_bounds _ _ _ _ _ (core_layout _ _ _ _ (st_core _ _ _ _ H)) Hc) as (_ & _ & ?).
    by rewrite (proj2 (Z.eqb_neq r NULL)) by (unfold NULL; lia).
Qed.

(** ** The request *)

Lemma kmalloc_round_spec n :
  0 <= n -> n + 24 <= 2 ^ 63 -> request_ok (kmalloc_round n) /\ n <= kmalloc_round n.
Proof.
  intros H0 H1. unfold kmalloc_round, request_ok, HEAP_CHUNK_MIN_SIZE.
  destruct (Z.ltb_spec n 16); simpl; [lia|].
  destruct (Z.eqb_spec (n mod 8) 0); simpl; [lia|]. rewrite wrap64_small by lia. lia.
Qed.

(** ** Growing the wilderness *)

Lemma wilderness_growth_size_spec n :
  request_ok n ->
  let g := wilderness_growth_size n in
  g mod PAGE_SIZE = 0 /\ n + 16 <= g < 2 ^ 64 /\ KERNEL_HEAP_GROWTH_STEP <= g.
Proof.
  unfold request_ok, wilderness_growth_size, sizeof_HeapChunkFooter, sizeof_HeapChunkHeader,
    KERNEL_HEAP_GROWTH_STEP, PAGE_SIZE, MB. intros (? & ? & ?). unwrap.
  destruct (Z.ltb_spec (16 * (1024 * 1024)) (n + (8 + 8))); simpl.
  - destruct (Z.eqb_spec ((n + (8 + 8)) mod 4096) 0); simpl; [lia|]. rewrite wrap64_small; lia.
  - lia.
Qed.

Definition grown (w : chunk) (g : Z) : chunk := Chunk (c_size w + g) true true.

Definition grow_mem (x n : Z) (m : mem) : mem :=
  store64 (store64 m x (hdr n true true)) (x + 8 + n) n.

Lemma grow_layout a l w g m :
  let x := a + total l in
  layout a (l ++ [w]) m -> 0 <= g -> g mod 8 = 0 -> x + span w + g < 2 ^ 64 ->
  layout a (l ++ [grown w g]) (grow_mem x (c_size w + g) m).
Proof.
  intros x [B M8 E W F] Hg Hg8 He.
  rewrite Forall_app, Forall_singleton in W. destruct W as [W1 [? ?]].
  rewrite place_app, Forall_app in F. destruct F as [F1 _].
  pose proof (total_nonneg _ W1). unfold span, PAGE_SIZE in *.
  assert (Sn : size_ok (c_size w + g)) by (unfold size_ok; lia).
  pose proof (hdr_range _ true true Sn).
  split; [done|done|rewrite total_app; simpl; unfold span; simpl; lia| |].
  - rewrite Forall_app, Forall_singleton. split; [done|]. unfold chunk_wf. simpl. lia.
  - rewrite place_app, Forall_app. split.
    + eapply (chunks_ok_agree x (x + c_size w + g + 16) m); [done| |lia|done].
      unfold grow_mem. repeat apply agree_outside_store; auto with kernel; lia.
    + fold x. apply Forall_singleton. unfold chunk_ok, grow_mem. simpl. split; by mem_simpl.
Qed.

Lemma core_grow a l w bl s s' g :
  let x := a + total l in
  core a (l ++ [w]) bl s -> c_wild w = true -> c_free w = true ->
  0 <= g -> g mod 8 = 0 -> x + span w + g < 2 ^ 64 ->
  hs_mem s' = grow_mem x (c_size w + g) (hs_mem s) ->
  free_buckets (kheap s') = free_buckets (kheap s) ->
  core a (l ++ [grown w g]) bl s'.
Proof.
  intros x C Hw Hwf Hg Hg8 He Hm Hb. pose proof (core_layout _ _ _ _ C) as L.
  assert (Hx : (x, w) ∈ place a (l ++ [w])) by apply place_elem.
  destruct (layout_bounds _ _ _ _ _ L Hx) as ([? ?] & _).
  split; rewrite ?Hb; try apply C.
  - rewrite Hm. by apply grow_layout.
  - rewrite Hm. intros i k Hk. destruct (core_lists _ _ _ _ C i k Hk) as (h & q & Hh & Hd).
    exists h, q. split; [done|]. eapply dseg_ext; [|exact Hd]. intros y Hy.
    destruct (core_listed _ _ _ _ C _ _ _ Hk Hy) as (c & [Hc _] & _).
    destruct (layout_bounds _ _ _ _ _ L Hc) as ([? _] & _ & _ & _). unfold grow_mem.
    destruct (place_disjoint _ _ _ _ _ _ (lay_wf _ _ _ L) Hc Hx) as [[-> ->]|[Ho|Ho]];
      unfold span in *; [split; by mem_simpl|split; by mem_simpl|].
    destruct (place_bounds _ _ _ _ (lay_wf _ _ _ L) Hc) as (_ & _ & Hend).
    rewrite total_app in Hend. simpl in Hend. unfold span in *. lia.
  - intros i k y Hk Hy. destruct (core_listed _ _ _ _ C _ _ _ Hk Hy) as (c & [Hc Hf] & Hi).
    rewrite place_app in Hc. apply elem_of_app in Hc as [Hc|Hc].
    + exists c. split; [|done]. split; [|done]. rewrite place_app. set_solver.
    + apply elem_of_cons in Hc as [[= -> ->]|[]%elem_of_nil]. exists (grown w g).
      split; [split; [apply place_elem|done]|]. rewrite Hi. unfold bucket_of. by rewrite Hw.
Qed.

(** The wilderness is the last chunk of the list. *)
Lemma wilderness_last a cs bl s x w :
  heap_st a cs bl s -> (x, w) ∈ place a cs -> c_wild w = true ->
  exists l, cs = l ++ [w] /\ x = a + total l /\ c_free w = true /\
    wilderness_chunk (kheap s) = x.
Proof.
  intros H Hin Hw. pose proof (wild_ok_free _ _ _ _ (st_wild _ _ _ _ H) Hin Hw) as Hf.
  assert (HL : forall y v, (y, v) ∈ place a cs -> c_wild v = true ->
    exists l, cs = l ++ [v] /\ y = a + total l).
  { intros y v Hv Hvw. destruct (place_split _ _ _ _ Hv) as (l1 & l2 & -> & ->).
    destruct l2 as [|d l2]; [by exists l1|].
    pose proof (st_wild _ _ _ _ H) as HW. apply wild_ok_app in HW as [_ [Hc _]]; [|done]. congruence. }
  destruct (HL x w Hin Hw) as (l & E & Ex). exists l. split_and!; try done.
  destruct (st_wilderness _ _ _ _ H) as (v & Hv & Hvw).
  destruct (HL _ _ Hv Hvw) as (l' & E' & ->). rewrite E' in E.
  apply app_inj_tail in E as [-> _]. done.
Qed.

(** The state after a successful growth. *)
Definition after_growth (x n g : Z) (v : V) s : heap_state V :=
  set_mem (grow_mem x n (hs_mem s)) (set_kheap (set_size (size (kheap s) + g) (kheap s)) (set_vmm v s)).

Lemma hdr_grow n g : size_ok n -> size_ok (n + g) -> 0 <= g ->
  wrap64 (hdr n true true + g) = hdr (n + g) true true.
Proof.
  intros Hn Hg H0. pose proof (hdr_range (n + g) true true Hg). unfold hdr in *.
  rewrite wrap64_small; lia.
Qed.

Lemma try_increase_run a l w bl s n v :
  let x := a + total l in
  let g := wilderness_growth_size n in
  heap_st a (l ++ [w]) bl s -> c_wild w = true -> c_free w = true -> request_ok n ->
  enable_growth (kheap s) = true ->
  try_expand_vmem_top (heap_vmem (kheap s)) g (hs_vmm s) = Ok (true, v) ->
  total (l ++ [w]) + g < 2 ^ 47 -> x + span w + g < 2 ^ 64 ->
  try_increase_wilderness_chunk n s = Ok (true, after_growth x (c_size w + g) g v s).
Proof.
  intros x g H Hw Hwf Hn HE HX HT He.
  destruct (wilderness_growth_size_spec n Hn) as (G1 & G2 & G3). fold g in G1, G2, G3.
  pose proof (core_layout _ _ _ _ (st_core _ _ _ _ H)) as L.
  assert (Hx : (x, w) ∈ place a (l ++ [w])) by apply place_elem.
  destruct (layout_bounds _ _ _ _ _ L Hx) as ([? ?] & Bx & ? & ?).
  destruct (wilderness_last _ _ _ _ _ _ H Hx Hw) as (_ & _ & _ & _ & Hwc).
  pose proof (layout_hdr _ _ _ _ _ L Hx) as HH. rewrite Hwf, Hw in HH.
  pose proof (total_nonneg _ (lay_wf _ _ _ L)) as Ht0.
  unfold span, PAGE_SIZE, KERNEL_HEAP_GROWTH_STEP, MB in *.
  assert (Sg : size_ok (c_size w + g)) by (unfold size_ok; lia).
  unfold try_increase_wilderness_chunk. fold g. cbv zeta.
  run_assert; [by apply Z.eqb_eq|]. run_step. rewrite HE. cbn [negb]. run_step.
  etransitivity; [eapply bind_ok; unfold zoom; cbn [view vmm_lens]; rewrite HX; reflexivity|].
  cbn [negb put vmm_lens]. run_step. run_step.
  set (s1 := set_kheap _ _).
  assert (E1 : wilderness_chunk (kheap s1) = x) by done.
  assert (Em : hs_mem s1 = hs_mem s) by done.
  assert (HH1 : has_hdr s1 x (c_size w) true true) by (unfold has_hdr; by rewrite Em).
  rewrite E1. do 2 run_step.
  run_by read64_ok; [done|]. destruct HH1 as (_ & Sw & _ & ->).
  rewrite hdr_grow by (done || lia). run_by write64_ok; [done|].
  pose proof (has_hdr_write s1 x (c_size w + g) true true Bx Sg ltac:(lia)) as HH2.
  run_step. run_step.
  run_assert.
  { apply Z.eqb_eq. unfold s1. simpl. unfold sizeof_HeapChunkFooter.
    rewrite (st_start _ _ _ _ H), (st_size _ _ _ _ H), total_app in *. simpl in *.
    unfold span in *. rewrite (wrap64_small (total l + (c_size w + 16 + 0) + g)) by lia.
    unwrap. unfold x. lia. }
  run_by read64_ok; [done|]. destruct HH2 as (_ & _ & _ & ->). rewrite hdr_size by done.
  run_by write64_ok; [unfold PAGE_SIZE; lia|]. unfold s1, after_growth, grow_mem. simpl.
  rewrite wrap64_small; [done|]. rewrite (st_size _ _ _ _ H). lia.
Qed.

Lemma heap_st_grow a l w bl s g v :
  let x := a + total l in
  heap_st a (l ++ [w]) bl s -> c_wild w = true -> c_free w = true ->
  0 <= g -> g mod 8 = 0 -> x + span w + g < 2 ^ 64 ->
  let s' := after_growth x (c_size w + g) g v s in
  heap_st a (l ++ [grown w g]) bl s' /\ keeps a (l ++ [w]) (hs_mem s) (hs_mem s').
Proof.
  intros x H Hw Hwf Hg Hg8 He s'. pose proof H as [C Hs Hz Hc HW Hwc].
  assert (Hx : (x, w) ∈ place a (l ++ [w])) by apply place_elem.
  destruct (layout_bounds _ _ _ _ _ (core_layout _ _ _ _ C) Hx) as ([? ?] & Bx & ? & ?).
  destruct (wilderness_last _ _ _ _ _ _ H Hx Hw) as (_ & _ & _ & _ & Hwa).
  split; [split; simpl|].
  - by eapply core_grow.
  - done.
  - rewrite Hz, !total_app. simpl. unfold span. simpl. lia.
  - rewrite Hc, !length_app. done.
  - apply wild_ok_app in HW as [HW _]; [|done]. by apply wild_ok_app.
  - rewrite Hwa. exists (grown w g). split; [apply place_elem|done].
  - intros y Hy. assert (y + 8 <= x) as Hyx.
    { pose proof (alloc_word_outside a l [w] [] y) as Ho. simpl in Ho.
      destruct Ho as [|Ho]; [apply C|by repeat constructor|done|done|].
      destruct Hy as (z & c & Hz' & Hf & ? & ?).
      destruct (place_bounds _ _ _ _ (lay_wf _ _ _ (core_layout _ _ _ _ C)) Hz') as (_ & _ & Hend).
      rewrite total_app in Hend. simpl in Hend. unfold span in *. lia. }
    simpl. unfold grow_mem. unfold span in *. by mem_simpl.
Qed.

(** ** Taking the chosen chunk *)

(** From [cs] the block at [x + 8] of [n] bytes has been carved out. *)
Definition carved (a : Z) cs s (x n : Z) s' : Prop :=
  exists cs' bl', heap_st a cs' bl' s' /\ complete a cs' bl' /\ apart false cs' /\
    same_rest s s' /\ keeps a cs (hs_mem s) (hs_mem s') /\ total cs' = total cs /\
    blocks a cs !! (x + 8) = None /\ blocks a cs' = <[x + 8 := n]> (blocks a cs).

Lemma carve a l1 c rest l2 bl bl' s s' n :
  let x := a + total l1 in
  heap_st a (l1 ++ [c] ++ l2) bl s -> complete a (l1 ++ [c] ++ l2) bl ->
  apart false (l1 ++ [c] ++ l2) -> c_free c = true ->
  Forall (fun d => c_free d = true) rest -> (length rest <= 1)%nat ->
  total (taken n :: rest) = span c ->
  heap_st a (l1 ++ (taken n :: rest) ++ l2) bl' s' -> same_rest s s' ->
  keeps a (l1 ++ [c] ++ l2) (hs_mem s) (hs_mem s') ->
  (forall y, y ∈ concat bl -> y <> x -> y ∈ concat bl') ->
  (forall y d, (y, d) ∈ place (x + span (taken n)) rest -> y ∈ concat bl') ->
  carved a (l1 ++ [c] ++ l2) s x n s'.
Proof.
  intros x H HC HA Hf Fr Hr HT H' SR K HB HR.
  pose proof (lay_wf _ _ _ (core_layout _ _ _ _ (st_core _ _ _ _ H'))) as W'.
  pose proof (lay_wf _ _ _ (core_layout _ _ _ _ (st_core _ _ _ _ H))) as W.
  assert (HT' : total (taken n :: rest) = total [c]) by (simpl in *; lia).
  destruct (blocks_insert a l1 [c] (taken n :: rest) l2 (x + 8) n) as [BN BI]; try done.
  { apply block_list_free. by repeat constructor. } { by apply block_list_taken. }
  exists (l1 ++ (taken n :: rest) ++ l2), bl'. split_and!; try done.
  - eapply (complete_replace a l1 [c] (taken n :: rest) l2 bl); try done.
    + rewrite !Forall_app in W. naive_solver.
    + intros y e Hy _. by eapply HC.
    + intros y Hy Hn. apply HB; [done|]. intros ->. eapply Hn, list_elem_of_here.
    + intros y e [[= -> ->]|Hin]%elem_of_cons He; [done|]. by eapply HR.
  - apply apart_app in HA as [A1 A2]. simpl in A2. destruct A2 as [A2 A3].
    apply apart_app. split; [done|]. rewrite Hf, andb_true_r in A2. rewrite Hf in A3.
    destruct rest as [|d [|e rest]]; simpl in *; [..|lia].
    + rewrite A2. split; [done|]. by eapply apart_false.
    + rewrite A2. apply Forall_cons in Fr as [Fd _]. by rewrite Fd.
  - rewrite !(total_app l1), (total_app (taken n :: rest)), (total_app [c]). lia.
Qed.

Definition fits (n : Z) (c : chunk) : Prop := n + 32 <= c_size c.

#[export] Instance fits_dec n c : Decision (fits n c).
Proof. unfold fits. apply _. Defined.

Lemma split_carved a cs bl s x c n :
  heap_st a cs bl s -> complete a cs bl -> apart false cs -> total cs < 2 ^ 47 ->
  free_chunk a cs x c -> request_ok n -> fits n c ->
  exists s', split_chunk_and_alloc x n s = Ok (true, s') /\ carved a cs s x n s'.
Proof.
  intros H HC HA HT Hx Hn Hf. pose proof (core_layout _ _ _ _ (st_core _ _ _ _ H)) as L.
  pose proof (layout_small _ _ _ _ _ L HT (proj1 Hx)) as Hc47.
  destruct (place_split _ _ _ _ (proj1 Hx)) as (l1 & l2 & -> & ->).
  pose proof (HC _ _ Hx) as Hin. destruct Hx as [Hx Hfc].
  destruct (split_chunk_and_alloc_spec a l1 c l2 bl s n) as (s' & bl' & R & H' & SR & K & E);
    try done; [lia|].
  exists s'. split; [done|]. eapply (carve a l1 c [rest_of c n] l2 bl bl'); try done.
  - by repeat constructor.
  - simpl. unfold span. simpl. lia.
  - intros y Hy Hne. apply E. by right.
  - intros y d [[= -> _]|[]%elem_of_nil]%elem_of_cons. apply E. left. unfold span. simpl. lia.
Qed.

Lemma alloc_carved a cs bl s x c :
  heap_st a cs bl s -> complete a cs bl -> apart false cs ->
  free_chunk a cs x c -> c_wild c = false ->
  exists s', alloc_chunk x s = Ok (tt, s') /\ carved a cs s x (c_size c) s'.
Proof.
  intros H HC HA Hx Hw. pose proof (HC _ _ Hx) as Hin. destruct Hx as [Hx Hfc].
  destruct (place_split _ _ _ _ Hx) as (l1 & l2 & -> & ->).
  destruct (alloc_chunk_spec a l1 c l2 bl s) as (s' & bl' & R & H' & SR & K & E); try done.
  exists s'. split; [done|]. eapply (carve a l1 c [] l2 bl bl'); try done.
  - simpl. lia.
  - simpl. unfold span. simpl. lia.
  - intros y Hy Hne. by apply E.
  - intros y d []%elem_of_nil.
Qed.

(** [kmalloc_take] when the chosen chunk can serve the request. *)
Lemma kmalloc_take_carved a cs bl s x c n :
  heap_st a cs bl s -> complete a cs bl -> apart false cs -> total cs < 2 ^ 47 ->
  free_chunk a cs x c -> request_ok n -> (c_wild c = false /\ c_size c = n) \/ fits n c ->
  exists s', kmalloc_take x n s = Ok (tt, s') /\ carved a cs s x n s'.
Proof.
  intros H HC HA HT Hx Hn Hfit.
  pose proof (free_hdr _ _ _ _ _ (core_layout _ _ _ _ (st_core _ _ _ _ H)) Hx) as HH.
  unfold kmalloc_take. rewrite (bind_ok _ _ _ _ _ (get_wild_ok _ _ _ _ _ HH)).
  destruct (decide (c_wild c = false /\ c_size c = n)) as [[Hw <-]|Hne].
  - rewrite Hw. cbn [negb].
    rewrite (bind_ok _ _ _ _ _ (get_size_ok _ _ _ _ _ HH)), Z.eqb_refl.
    by eapply alloc_carved.
  - destruct Hfit as [|Hfit]; [done|].
    destruct (split_carved a cs bl s x c n) as (s' & R & HCv); try done.
    exists s'. split; [|done]. destruct (c_wild c) eqn:Ew; cbn [negb].
    + run_step. by run_by R.
    + run_step. rewrite (proj2 (Z.eqb_neq (c_size c) n)) by naive_solver.
      run_assert; [|by run_by R]. unfold fits, request_ok in *.
      apply Z.leb_le. unfold HEAP_CHUNK_SPLIT_OVERHEAD, sizeof_HeapChunkHeader,
        sizeof_HeapChunkFooter, HEAP_CHUNK_MIN_SIZE. lia.
Qed.

(** ** The operation *)

(** The data of the live blocks [bs] are the same in both memories. *)
Definition data_kept (bs : gmap Z Z) (m m' : mem) : Prop :=
  forall q k z, bs !! q = Some k -> q <= z -> z + 8 <= q + k -> load64 m' z = load64 m z.

Lemma keeps_data a cs m m' :
  Forall chunk_wf cs -> keeps a cs m m' <-> data_kept (blocks a cs) m m'.
Proof.
  intros W. unfold keeps, data_kept. split.
  - intros H q k z Hq ? ?. apply H, alloc_word_blocks; eauto.
  - intros H y (q & k & ? & ? & ?)%alloc_word_blocks; eauto.
Qed.

(** The result of a successful allocation of [n] bytes at [p]. *)
Definition allocated (a : Z) cs s (p n : Z) cs' s' : Prop :=
  heap_inv a cs' s' /\ blocks a cs !! p = None /\ blocks a cs' = <[p := n]> (blocks a cs) /\
  data_kept (blocks a cs) (hs_mem s) (hs_mem s').

Lemma carved_leave a cs s x n s' :
  backed a cs (enter s) -> Forall chunk_wf cs -> carved a cs (enter s) x n s' ->
  exists cs', allocated a cs s (x + 8) n cs' (leave s s') /\ total cs' = total cs /\
    hs_vmm (leave s s') = hs_vmm s.
Proof.
  intros HB W (cs' & bl' & H' & HC & HA & SR & K & HT & BN & BI).
  destruct (heap_inv_leave a cs' bl' s s') as [HI Em]; try done.
  { by eapply backed_same_rest. }
  exists cs'. split_and!; try done; [|by apply leave_vmm].
  unfold allocated. rewrite Em. split_and!; try done. by apply keeps_data.
Qed.

(** [kmalloc] once the search has chosen the chunk [x]. *)
Lemma kmalloc_chosen n s x r s' :
  kheap_lock s = false -> kmalloc_search (kmalloc_round n) (enter s) = Ok (x, enter s) ->
  kmalloc_take x (kmalloc_round n) (enter s) = Ok (r, s') ->
  kmalloc n s = Ok (get_heap_chunk_user_data x, leave s s').
Proof.
  intros HL HS HT. unfold kmalloc. apply critical_section; [done|]. cbv zeta.
  run_by HS. run_by HT. done.
Qed.

Lemma user_data_free a cs m x c :
  layout a cs m -> (x, c) ∈ place a cs -> get_heap_chunk_user_data x = x + 8.
Proof.
  intros L Hx. destruct (layout_bounds _ _ _ _ _ L Hx) as ([? _] & ? & ? & _).
  unfold PAGE_SIZE, span in *. apply user_data_ok; lia.
Qed.

(** [kmalloc] served from a chunk of the heap as it is. *)
Lemma kmalloc_serve a cs s n x c :
  let r := kmalloc_round n in
  heap_inv a cs s -> 0 <= n -> n + 24 <= 2 ^ 63 ->
  kmalloc_search r (enter s) = Ok (x, enter s) -> free_chunk a cs x c ->
  (c_wild c = false /\ c_size c = r) \/ fits r c ->
  exists s' cs', kmalloc n s = Ok (x + 8, s') /\ allocated a cs s (x + 8) r cs' s' /\
    total cs' = total cs /\ hs_vmm s' = hs_vmm s.
Proof.
  intros r HI H0 Hn HS Hx Hfit. destruct (heap_inv_enter _ _ _ HI) as (bl & H & HC & HB & HT).
  pose proof (core_layout _ _ _ _ (st_core _ _ _ _ H)) as L.
  destruct (kmalloc_round_spec n H0 Hn) as [Hr _].
  destruct (kmalloc_take_carved a cs bl (enter s) x c r) as (s' & R & HCv); try done.
  { apply HI. }
  destruct (carved_leave a cs s x r s' HB) as (cs' & HA & HT' & Ev); [apply L|done|].
  exists (leave s s'), cs'. split_and!; try done.
  rewrite <-(user_data_free _ _ _ _ _ L (proj1 Hx)). by eapply kmalloc_chosen; [apply HI|..].
Qed.

(** ** Growth and retry *)

Lemma grown_range a cs s (g : Z) c l v :
  cs = l ++ [c] -> backed a cs s -> 0 <= g -> g mod PAGE_SIZE = 0 ->
  try_expand_vmem_top (heap_vmem (kheap s)) g (hs_vmm s) = Ok (true, v) ->
  backed a (l ++ [grown c g]) (after_growth (a + total l) (c_size c + g) g v s) /\
  total cs + g < 2 ^ 47 /\ a + total l + span c + g < 2 ^ 64 /\
  total (l ++ [grown c g]) = total cs + g.
Proof.
  intros -> [BL BA BS] Hg Hg8 HX. destruct (vmem_expand _ _ _ _ _ BL Hg Hg8 HX) as (V1 & V2 & V3 & _).
  pose proof (vmem_live_range _ _ V1) as VR. rewrite V2, V3, BA, BS in VR.
  rewrite !total_app in *. simpl in *. unfold span in *. simpl.
  split_and!; [|lia..]. split; simpl; [done|congruence|].
  rewrite V3, BS, !total_app. simpl. unfold span. simpl. lia.
Qed.

Lemma complete_grown a l c g bl :
  complete a (l ++ [c]) bl -> c_free c = true -> complete a (l ++ [grown c g]) bl.
Proof.
  intros HC Hf y e [Hy He]. rewrite place_app in Hy. apply elem_of_app in Hy as [Hy|Hy].
  - eapply HC. split; [|exact He]. rewrite place_app. set_solver.
  - apply elem_of_cons in Hy as [[= -> ->]|[]%elem_of_nil].
    eapply (HC _ c). split; [apply place_elem|done].
Qed.

Lemma growth_carved a l c bl s r v :
  let x := a + total l in
  let g := wilderness_growth_size r in
  heap_st a (l ++ [c]) bl s -> complete a (l ++ [c]) bl -> apart false (l ++ [c]) ->
  backed a (l ++ [c]) s -> c_wild c = true -> c_free c = true -> request_ok r -> ~ fits r c ->
  enable_growth (kheap s) = true ->
  try_expand_vmem_top (heap_vmem (kheap s)) g (hs_vmm s) = Ok (true, v) ->
  exists s1 s2, kmalloc_take x r s = Ok (tt, s2) /\
    backed a (l ++ [grown c g]) s1 /\ carved a (l ++ [grown c g]) s1 x r s2 /\
    keeps a (l ++ [c]) (hs_mem s) (hs_mem s1) /\
    total (l ++ [grown c g]) = total (l ++ [c]) + g.
Proof.
  intros x g H HC HA HB Hw Hf Hr Hnf HG HX.
  pose proof (core_layout _ _ _ _ (st_core _ _ _ _ H)) as L.
  assert (Hx : free_chunk a (l ++ [c]) x c) by (split; [apply place_elem|done]).
  destruct (wilderness_growth_size_spec r Hr) as (G1 & G2 & G3). fold g in G1, G2, G3.
  assert (Hg0 : 0 <= g) by (unfold request_ok in Hr; lia).
  assert (Hg8 : g mod 8 = 0) by (unfold PAGE_SIZE in *; lia).
  destruct (grown_range a _ s g c l v eq_refl HB Hg0 G1 HX) as (B1 & T1 & E1 & TE).
  destruct (layout_bounds _ _ _ _ _ L (proj1 Hx)) as ([Hc16 _] & _).
  pose proof (layout_small _ _ _ _ _ L (backed_small _ _ _ HB) (proj1 Hx)) as Hc47.
  destruct (heap_st_grow a l c bl s g v) as [H1 K1]; try done.
  pose proof (try_increase_run a l c bl s r v H Hw Hf Hr HG HX T1 E1) as R1.
  set (s1 := after_growth x (c_size c + g) g v s) in *.
  destruct (split_carved a (l ++ [grown c g]) bl s1 x (grown c g) r) as (s2 & R2 & HCv); try done.
  { by apply complete_grown. }
  { apply apart_app in HA as [A1 [A2 _]]. apply apart_app. split; [done|]. simpl.
    by rewrite Hf in A2. }
  { rewrite TE. done. } { split; [apply place_elem|done]. }
  { unfold fits, request_ok in *. simpl. lia. }
  exists s1, s2. split_and!; try done.
  pose proof (free_hdr _ _ _ _ _ L Hx) as HH. rewrite Hw in HH.
  unfold kmalloc_take. run_step. cbn [negb]. run_step.
  run_by (split_chunk_and_alloc_small a (l ++ [c]) bl s x c r); [apply H|done|lia|done|unfold fits in *; lia|].
  cbn [negb when]. run_by R1. run_step. run_by R2. done.
Qed.

(** [kmalloc] when the wilderness is chosen and has to grow. *)
Lemma kmalloc_grow a cs s n x c v :
  let r := kmalloc_round n in
  let g := wilderness_growth_size r in
  heap_inv a cs s -> 0 <= n -> n + 24 <= 2 ^ 63 ->
  kmalloc_search r (enter s) = Ok (x, enter s) -> free_chunk a cs x c -> c_wild c = true ->
  ~ fits r c -> enable_growth (kheap s) = true ->
  try_expand_vmem_top (heap_vmem (kheap s)) g (hs_vmm (enter s)) = Ok (true, v) ->
  exists s' cs', kmalloc n s = Ok (x + 8, s') /\ allocated a cs s (x + 8) r cs' s' /\
    total cs' = total cs + g.
Proof.
  intros r g HI H0 Hn HS Hx Hw Hnf HG HX.
  destruct (heap_inv_enter _ _ _ HI) as (bl & H & HC & HB & HT).
  pose proof (core_layout _ _ _ _ (st_core _ _ _ _ H)) as L.
  destruct (kmalloc_round_spec n H0 Hn) as [Hr _]. fold r in Hr.
  pose proof (user_data_free _ _ _ _ _ L (proj1 Hx)) as EU.
  destruct (wilderness_last _ _ _ _ _ _ H (proj1 Hx) Hw) as (l & -> & -> & Hwf & _).
  destruct (growth_carved a l c bl (enter s) r v) as (s1 & s2 & R & B1 & HCv & K1 & T1); try done.
  { apply HI. }
  destruct HCv as (cs' & bl' & H' & HC' & HA' & SR' & K' & HT' & BN & BI).
  assert (BE : blocks a (l ++ [grown c g]) = blocks a (l ++ [c])).
  { unfold blocks. rewrite !block_list_app.
    rewrite (block_list_free _ [c]), (block_list_free _ [grown c g]); by repeat constructor. }
  fold g in BN, BI, T1, HT', K'. rewrite BE in BN, BI.
  destruct (heap_inv_leave a cs' bl' s s2) as [HI' Em]; try done.
  { by eapply backed_same_rest. }
  exists (leave s s2), cs'. split_and!; [|split_and!; try done|by rewrite HT'].
  - rewrite <-EU. by eapply kmalloc_chosen; [apply HI|..].
  - rewrite Em. apply keeps_data; [apply L|]. eapply keeps_trans; [exact K1|].
    intros y Hy. apply K'. apply alloc_word_blocks in Hy; [|apply L].
    eapply alloc_word_blocks; [|by rewrite BE].
    pose proof (lay_wf _ _ _ L) as W. rewrite Forall_app, Forall_singleton in W |- *.
    destruct W as [W1 [? ?]]. destruct (wilderness_growth_size_spec r Hr) as (G1 & G2 & _).
    split; [done|]. unfold chunk_wf, request_ok, PAGE_SIZE, g in *. simpl. lia.
Qed.

(** ** The remaining cases *)

(** The wilderness is too small: everything depends on the expansion. *)
Lemma kmalloc_take_small a cs bl s x c r :
  heap_st a cs bl s -> total cs < 2 ^ 47 -> free_chunk a cs x c -> c_wild c = true ->
  request_ok r -> ~ fits r c ->
  kmalloc_take x r s =
    (increased <- try_increase_wilderness_chunk r;;
     when (negb increased) (kpanic HEAP_OUT_OF_MEM);;
     ok' <- split_chunk_and_alloc x r;;
     when (negb ok') (kpanic HEAP_OUT_OF_MEM)) s.
Proof.
  intros H HT Hx Hw Hr Hnf. pose proof (core_layout _ _ _ _ (st_core _ _ _ _ H)) as L.
  pose proof (layout_small _ _ _ _ _ L HT (proj1 Hx)) as Hc47.
  pose proof (free_hdr _ _ _ _ _ L Hx) as HH. rewrite Hw in HH.
  unfold kmalloc_take. run_step. cbn [negb]. run_step.
  run_by (split_chunk_and_alloc_small a cs bl s x c r);
    [apply H|done|lia|done|unfold fits in *; lia|]. done.
Qed.

Lemma try_increase_fails r s :
  request_ok r ->
  enable_growth (kheap s) = false \/
  (forall v, try_expand_vmem_top (heap_vmem (kheap s)) (wilderness_growth_size r) (hs_vmm s)
     <> Ok (true, v)) ->
  forall s', try_increase_wilderness_chunk r s <> Ok (true, s').
Proof.
  intros Hr HG s'. destruct (wilderness_growth_size_spec r Hr) as (G1 & _).
  unfold try_increase_wilderness_chunk.
  rewrite (bind_ok _ _ _ tt s) by (by apply KASSERT_ok, Z.eqb_eq). erewrite bind_ok by reflexivity.
  destruct (enable_growth (kheap s)); [|done]. destruct HG as [|HG]; [done|]. cbn [negb].
  erewrite bind_ok by reflexivity. unfold zoom, bind at 1. cbn [view vmm_lens].
  destruct (try_expand_vmem_top _ _ _) as [[[] v]| | | |]; try done. by destruct (HG v).
Qed.

(** The wilderness is too small and does not grow: the call does not return. *)
Lemma kmalloc_refused a cs s n x c :
  let r := kmalloc_round n in
  heap_inv a cs s -> 0 <= n -> n + 24 <= 2 ^ 63 ->
  kmalloc_search r (enter s) = Ok (x, enter s) -> free_chunk a cs x c -> c_wild c = true ->
  ~ fits r c ->
  enable_growth (kheap s) = false \/
  (forall v, try_expand_vmem_top (heap_vmem (kheap s)) (wilderness_growth_size r)
     (hs_vmm (enter s)) <> Ok (true, v)) ->
  forall p s', kmalloc n s <> Ok (p, s').
Proof.
  intros r HI H0 Hn HS Hx Hw Hnf HG p s' HK.
  destruct (heap_inv_enter _ _ _ HI) as (bl & H & HC & HB & HT).
  destruct (kmalloc_round_spec n H0 Hn) as [Hr _]. fold r in Hr.
  pose proof (try_increase_fails r (enter s) Hr HG) as HF.
  pose proof (kmalloc_take_small a cs bl (enter s) x c r H HT Hx Hw Hr Hnf) as HTk.
  assert (HN : forall u, kmalloc_take x r (enter s) <> Ok u).
  { rewrite HTk. unfold bind at 1.
    destruct (try_increase_wilderness_chunk r (enter s)) as [[[] s1]| | | |]; try done.
    by destruct (HF s1). }
  apply with_spinlock_hard_inv in HK as [s1 HK]. fold (enter s) in HK. fold r in HK. cbv zeta in HK.
  rewrite (bind_ok _ _ _ _ _ HS) in HK. unfold bind at 1 in HK.
  destruct (kmalloc_take x r (enter s)) as [u| | | |]; try done. by destruct (HN u).
Qed.

(** A refused expansion is reported as such. *)
Lemma kmalloc_out_of_memory a cs s n x c :
  let r := kmalloc_round n in
  heap_inv a cs s -> 0 <= n -> n + 24 <= 2 ^ 63 ->
  kmalloc_search r (enter s) = Ok (x, enter s) -> free_chunk a cs x c -> c_wild c = true ->
  ~ fits r c ->
  enable_growth (kheap s) = false \/
  (exists v, try_expand_vmem_top (heap_vmem (kheap s)) (wilderness_growth_size r)
     (hs_vmm (enter s)) = Ok (false, v)) ->
  kmalloc n s = Panic HEAP_OUT_OF_MEM.
Proof.
  intros r HI H0 Hn HS Hx Hw Hnf HG.
  destruct (heap_inv_enter _ _ _ HI) as (bl & H & HC & HB & HT).
  destruct (kmalloc_round_spec n H0 Hn) as [Hr _]. fold r in Hr.
  destruct (wilderness_growth_size_spec r Hr) as (G1 & _).
  unfold kmalloc. apply with_spinlock_hard_panic; [apply HI|]. fold (enter s). fold r. cbv zeta.
  run_by HS. unfold bind at 1. rewrite (kmalloc_take_small a cs bl _ x c r) by done.
  unfold bind at 1. unfold try_increase_wilderness_chunk.
  rewrite (bind_ok _ _ _ tt (enter s)) by (by apply KASSERT_ok, Z.eqb_eq).
  erewrite bind_ok by reflexivity.
  change (enable_growth (kheap (enter s))) with (enable_growth (kheap s)).
  destruct (enable_growth (kheap s)); [|done]. destruct HG as [|[v HG]]; [done|]. cbn [negb].
  erewrite bind_ok by reflexivity. unfold zoom, bind at 1. cbn [view vmm_lens].
  change (heap_vmem (kheap (enter s))) with (heap_vmem (kheap s)). by rewrite HG.
Qed.

(** A chosen ordinary chunk that neither matches nor can be split: the failed
    split goes unnoticed and the chunk, still free and listed, is handed out. *)
Lemma kmalloc_misfit a cs s n x c :
  let r := kmalloc_round n in
  heap_inv a cs s -> 0 <= n -> n + 24 <= 2 ^ 63 ->
  kmalloc_search r (enter s) = Ok (x, enter s) -> free_chunk a cs x c ->
  c_wild c = false -> c_size c <> r -> ~ fits r c ->
  kmalloc n s = Ok (x + 8, leave s (enter s)) /\ 32 <= c_size c.
Proof.
  intros r HI H0 Hn HS Hx Hw Hne Hnf.
  destruct (heap_inv_enter _ _ _ HI) as (bl & H & HC & HB & HT).
  pose proof (core_layout _ _ _ _ (st_core _ _ _ _ H)) as L.
  pose proof (layout_small _ _ _ _ _ L HT (proj1 Hx)) as Hc47.
  destruct (kmalloc_round_spec n H0 Hn) as [Hr _]. fold r in Hr.
  assert (H32 : 32 <= c_size c).
  { destruct (kmalloc_search_spec a cs bl (enter s) r H) as (y & d & R & [Hy _] & HA);
      [apply Hr|]. rewrite HS in R. simplify_eq. destruct Hx as [Hx _].
    rewrite (place_unique _ _ _ _ _ (lay_wf _ _ _ L) Hy Hx) in HA.
    destruct HA as [HA|HA]; [|congruence]. unfold accepts in HA.
    apply orb_true_iff in HA as [HA%Z.eqb_eq|HA%Z.leb_le]; [congruence|done]. }
  pose proof (free_hdr _ _ _ _ _ L Hx) as HH. rewrite Hw in HH. split; [|done].
  rewrite <-(user_data_free _ _ _ _ _ L (proj1 Hx)).
  eapply (kmalloc_chosen n s x tt (enter s)); [apply HI|done|]. fold r.
  unfold kmalloc_take. run_step. cbn [negb]. run_step.
  rewrite (proj2 (Z.eqb_neq (c_size c) r)) by done.
  run_assert; [apply Z.leb_le; exact H32|].
  run_by (split_chunk_and_alloc_small a cs bl (enter s) x c r);
    [apply H|done|lia|done|unfold fits in *; lia|]. done.
Qed.

End malloc.
