(* ===== verification/HeapTop.v ===== *)
(** * The kernel heap: theorems

    Initialisation, allocation in each of its cases, release, the consistency
    check, and runs of the whole heap over the region provider. *)

From S2P Require Import Prelude Memory Sync Interfaces Heap HeapRegion HeapChunks HeapInv HeapLists HeapOps HeapSpec HeapFree HeapMalloc.
Import Sequential.

Section top.
Context {V : Type} {VP : VMemProvider V} {VL : VMemLaws V}.
Implicit Types (s : heap_state V) (cs : list chunk) (bl : list (list Z)).

(** ** Initialisation *)

Definition empty_lists : list (list Z) := replicate (Z.to_nat BUCKETS_COUNT) [].

Lemma concat_empty_lists : concat empty_lists = [].
Proof. reflexivity. Qed.

Lemma empty_lists_lookup i l : empty_lists !! i = Some l -> l = [].
Proof. by intros [-> _]%lookup_replicate. Qed.

Definition first_chunk (n : Z) : chunk := Chunk (n - 16) true true.

Lemma initial_core a n s :
  PAGE_SIZE <= a -> a mod 8 = 0 -> a + n < 2 ^ 64 -> 128 < n -> n mod 8 = 0 ->
  free_buckets (kheap s) = replicate (Z.to_nat BUCKETS_COUNT) NULL ->
  core a [first_chunk n] empty_lists
    (set_mem (grow_mem a (n - 16) (hs_mem s)) s).
Proof.
  intros Ha Ha8 He Hn Hn8 Hb. unfold PAGE_SIZE in *.
  assert (Sn : size_ok (n - 16)) by (unfold size_ok; lia).
  pose proof (hdr_range _ true true Sn). split; simpl.
  - split; simpl; unfold span; simpl; try lia; [done| |].
    + apply Forall_singleton. unfold chunk_wf. simpl. lia.
    + apply Forall_singleton. unfold chunk_ok, grow_mem. simpl. split; by mem_simpl.
  - by rewrite Hb.
  - done.
  - intros i l Hl. pose proof (empty_lists_lookup _ _ Hl) as ->. exists NULL, 0. split; [|done].
    rewrite Hb. apply lookup_replicate. split; [done|].
    apply lookup_lt_Some in Hl. unfold empty_lists in Hl. by rewrite length_replicate in Hl.
  - change (NoDup (concat empty_lists)). rewrite concat_empty_lists. constructor.
  - intros i l x Hl Hx. rewrite (empty_lists_lookup _ _ Hl) in Hx. set_solver.
Qed.

Lemma initialize_heap_spec h s :
  let a := get_vmem_addr h (hs_vmm s) in
  let n := get_vmem_size h (hs_vmm s) in
  vmem_live h (hs_vmm s) -> 128 < n ->
  exists s' bl, initialize_heap h s = Ok (tt, s') /\ heap_st a [first_chunk n] bl s' /\
    complete a [first_chunk n] bl /\ heap_vmem (kheap s') = h /\ hs_vmm s' = hs_vmm s /\
    kheap_lock s' = kheap_lock s.
Proof.
  intros a n HL Hn. destruct (vmem_live_range _ _ HL) as (R1 & R2 & R3 & R4 & R5).
  fold a n in R1, R2, R3, R4, R5. unfold PAGE_SIZE in *.
  assert (Sn : size_ok (n - 16)) by (unfold size_ok; lia).
  unfold initialize_heap, sizeof_HeapChunkFooter, sizeof_HeapChunkHeader.
  rewrite (bind_ok _ _ _ a s), (bind_ok _ _ _ n s) by done.
  rewrite (bind_ok _ _ _ tt s) by (apply KASSERT_ok, Z.ltb_lt; lia).
  rewrite (bind_ok _ _ _ tt s) by (apply KASSERT_ok, Z.eqb_eq; lia).
  rewrite (bind_ok _ _ _ tt s) by (apply KASSERT_ok, Z.eqb_eq; lia).
  erewrite bind_ok by reflexivity. set (s1 := set_kheap _ s).
  cbv zeta. replace (wrap64 (n - 8 - 8)) with (n - 16) by (rewrite wrap64_small; lia).
  rewrite (bind_ok _ _ _ _ _ (write64_ok _ _ _ R1)).
  pose proof (has_hdr_write s1 a (n - 16) false false R1 Sn ltac:(lia)) as H1.
  rewrite hdr_plain in H1.
  rewrite (bind_ok _ _ _ _ _ (set_wild_ok _ _ _ _ _ H1)). simpl. rewrite store64_store64.
  pose proof (has_hdr_write s1 a (n - 16) false true R1 Sn ltac:(lia)) as H2.
  rewrite (bind_ok _ _ _ _ _ (set_free_ok _ _ _ _ _ H2)). simpl. rewrite store64_store64.
  pose proof (has_hdr_write s1 a (n - 16) true true R1 Sn ltac:(lia)) as H3.
  rewrite (bind_ok _ _ _ _ _ (get_footer_ok _ _ _ _ _ H3)).
  erewrite bind_ok by (apply write64_ok; unfold PAGE_SIZE; lia). simpl.
  fold (grow_mem a (n - 16) (hs_mem s)).
  erewrite bind_ok by reflexivity. simpl. set (s2 := set_kheap _ _).
  assert (C2 : core a [first_chunk n] empty_lists s2).
  { eapply core_ext; [| |apply (initial_core a n s1)]; try done; unfold PAGE_SIZE; lia. }
  assert (F2 : free_chunk a [first_chunk n] a (first_chunk n)) by (split; [simpl; set_solver|done]).
  destruct (add_to_bucket_list_spec _ _ _ _ _ _ C2 F2) as (s' & bl & R & (C' & F & _) & E).
  { rewrite concat_empty_lists. set_solver. }
  pose proof F as (F1 & _ & Fv & Fk & _).
  assert (exists fb, kheap s' = set_free_buckets fb (kheap s2)) as [fb Kfb] by eauto.
  exists s', bl. split; [done|]. rewrite Kfb, Fv, F1. split_and!; try done.
  - split; rewrite ?Kfb; try done; simpl; [unfold span; simpl; lia|].
    exists (first_chunk n). split; [set_solver|done].
  - intros x c [Hx _]. apply E. left. simpl in Hx. set_solver.
Qed.

Lemma kheap_init_spec s h v :
  vmem_wf (hs_vmm s) ->
  allocate_kernel_virtual_memory KERNEL_HEAP_SIZE VM_TYPE_HEAP KERNEL_HEAP_VMM_MAX_SIZE
    KERNEL_HEAP_VMM_LOW_SECURITY_PADDING (hs_vmm s) = Ok (h, v) ->
  is_vmemhandle_invalid h = false ->
  exists s', kheap_init s = Ok (tt, s') /\
    heap_inv (get_vmem_addr h v) [first_chunk KERNEL_HEAP_SIZE] s' /\ kheap_initialized s' = true.
Proof.
  intros HV HX Hh.
  destruct (vmem_alloc KERNEL_HEAP_SIZE VM_TYPE_HEAP KERNEL_HEAP_VMM_MAX_SIZE
    KERNEL_HEAP_VMM_LOW_SECURITY_PADDING (hs_vmm s) h v HV) as [HL HS]; try done.
  set (s1 := set_vmm v (put lock_lens false s)).
  destruct (initialize_heap_spec h s1) as (s' & bl & R & H & HC & Eh & Ev & El); simpl in *.
  { done. } { by rewrite HS. }
  rewrite HS in H, HC. eexists. split.
  - unfold kheap_init. run_step. run_step.
    etransitivity; [eapply bind_ok; unfold zoom; cbn [view vmm_lens]; simpl hs_vmm; rewrite HX; reflexivity|].
    cbn [put vmm_lens]. run_by R. reflexivity.
  - split; [|done]. split; simpl.
    + exists bl. split; [|done]. by eapply heap_st_ext; [| |exact H].
    + done.
    + split; simpl; rewrite Eh, Ev; done.
    + by rewrite El.
Qed.

(** ** The consistency check *)

Lemma leave_enter s : kheap_lock s = false -> leave s (enter s) = s.
Proof.
  intros HL. pose proof (leave_vmm s (enter s) (same_rest_refl _)) as Ev.
  unfold leave, enter in *. simpl in *. destruct s as [m k l i v]; simpl in *. subst l.
  by destruct (view vp_if v); simpl in *; rewrite Ev.
Qed.

Lemma corrupted_walk_spec a l1 l2 bl s fuel :
  heap_st a (l1 ++ l2) bl s -> total (l1 ++ l2) < 2 ^ 47 -> l2 <> [] -> (length l2 < fuel)%nat ->
  corrupted_walk fuel (a + total l1) (Z.of_nat (length l1)) s = Ok (false, s).
Proof.
  intros H HT. pose proof (core_layout _ _ _ _ (st_core _ _ _ _ H)) as L.
  pose proof (layout_length _ _ _ L) as HLen. rewrite length_app in HLen.
  revert l1 fuel H HT L HLen. induction l2 as [|c l2 IH]; intros l1 fuel H HT L HLen Hne Hf; [done|].
  destruct fuel as [|fuel]; [simpl in Hf; lia|].
  assert (Hin : (a + total l1, c) ∈ place a (l1 ++ c :: l2)) by apply place_elem.
  destruct (layout_bounds _ _ _ _ _ L Hin) as ([? ?] & ? & ? & ?).
  pose proof (layout_hdr _ _ _ _ _ L Hin) as HH.
  pose proof (lay_end _ _ _ L) as He. rewrite total_app in He. simpl in He, HLen.
  pose proof (lay_wf _ _ _ L) as W. rewrite Forall_app, Forall_cons in W. destruct W as (_ & _ & W2).
  pose proof (total_nonneg _ W2). unfold span, PAGE_SIZE in *.
  cbn [corrupted_walk]. run_step.
  rewrite (proj2 (Z.eqb_neq _ NULL)) by (unfold NULL; lia).
  rewrite (st_count _ _ _ _ H), (st_start _ _ _ _ H), (st_size _ _ _ _ H), length_app.
  cbn [length]. rewrite (wrap64_small (Z.of_nat _ + 1)) by lia.
  destruct (Z.ltb_spec (Z.of_nat (length l1 + S (length l2))) (Z.of_nat (length l1) + 1)); [lia|].
  run_by read64_ok; [unfold PAGE_SIZE; lia|]. pose proof HH as (_ & _ & _ & ->).
  assert (Hh : c_size c <= hdr (c_size c) (c_free c) (c_wild c) <= c_size c + 3).
  { unfold hdr. destruct (c_free c), (c_wild c); lia. }
  rewrite total_app. cbn [total]. rewrite !wrap64_small by (unfold span; lia).
  destruct (Z.ltb_spec (a + total l1) a); [lia|].
  destruct (Z.ltb_spec (a + (total l1 + (span c + total l2)))
    (a + total l1 + hdr (c_size c) (c_free c) (c_wild c))); [unfold span in *; lia|]. cbn [orb].
  run_by is_heap_chunk_corrupted_ok; [exact L|exact Hin|].
  unfold is_last_chunk_of_heap. run_step. destruct l2 as [|d l2].
  - pose proof (st_wild _ _ _ _ H) as HW. apply wild_ok_app in HW as [_ [Hw _]]; [|done].
    rewrite Hw. run_step. destruct fuel; cbn [corrupted_walk]; run_step; simpl.
    all: rewrite (st_count _ _ _ _ H), length_app; simpl.
    all: rewrite (proj2 (Z.eqb_eq _ _)) by lia; done.
  - pose proof (st_wild _ _ _ _ H) as HW. apply wild_ok_app in HW as [_ [Hw _]]; [|done].
    rewrite Hw. run_step.
    replace (a + total l1 + c_size c + 16) with (a + total (l1 ++ [c])).
    2: { rewrite total_app. simpl. unfold span. lia. }
    replace (Z.of_nat (length l1) + 1) with (Z.of_nat (length (l1 ++ [c]))).
    2: { rewrite length_app. simpl. lia. }
    assert (El : l1 ++ c :: d :: l2 = (l1 ++ [c]) ++ d :: l2) by (by rewrite <-app_assoc).
    rewrite El in *. apply IH; try done; [|simpl in *; lia].
    rewrite length_app. simpl in *. lia.
Qed.

(** ** The allocator a client sees

    The abstract state is the map of live blocks.  An allocation returns a fresh
    8-aligned block of at least the size asked for that overlaps no other; a
    release forgets one block. *)
Inductive event : Type :=
| EMalloc (n p : Z)
| EFree (p : Z).

Inductive abs_step (B : gmap Z Z) : event -> gmap Z Z -> Prop :=
| abs_malloc n p k :
    n <= k -> p mod 8 = 0 -> B !! p = None ->
    (forall q m, B !! q = Some m -> p + k <= q \/ q + m <= p) ->
    abs_step B (EMalloc n p) (<[p := k]> B)
| abs_free p n : B !! p = Some n -> abs_step B (EFree p) (delete p B).

(** The choice of the search is one the rest of [kmalloc] can serve: the
    wilderness, an exact match, or a chunk large enough to be split. *)
Definition selects_suitable (n : Z) : M (heap_state V) bool :=
  let r := kmalloc_round n in
  x <- kmalloc_search r;;
  w <- get_heap_chunk_flag x HEAP_WILDERNESS_CHUNK;;
  sz <- get_fixed_heap_chunk_size x;;
  ret (w || (sz =? r) || (r + 32 <=? sz)).

(** One call of the client: it frees only blocks it holds, and its requests are
    of a sane size and suitably served. *)
Inductive exec (B : gmap Z Z) s : event -> heap_state V -> Prop :=
| exec_malloc n p s' :
    0 <= n -> n + 24 <= 2 ^ 63 -> selects_suitable n (enter s) = Ok (true, enter s) ->
    kmalloc n s = Ok (p, s') -> exec B s (EMalloc n p) s'
| exec_free p n s' : B !! p = Some n -> kfree p s = Ok (tt, s') -> exec B s (EFree p) s'.

Lemma allocated_abs a cs s p n k cs' s' :
  heap_inv a cs s -> allocated a cs s p k cs' s' -> n <= k ->
  abs_step (blocks a cs) (EMalloc n p) (blocks a cs').
Proof.
  intros HI (HI' & BN & BI & _) Hk.
  destruct (heap_inv_enter _ _ _ HI') as (bl & H & _).
  pose proof (core_layout _ _ _ _ (st_core _ _ _ _ H)) as L.
  assert (Hp : blocks a cs' !! p = Some k) by (by rewrite BI, lookup_insert_eq).
  pose proof (blocks_bounds _ _ _ _ _ L Hp) as (_ & _ & Hp8 & _).
  rewrite BI. apply abs_malloc; try done.
  intros q m Hq. assert (p <> q) by (intros ->; congruence).
  eapply (blocks_disjoint a cs' _ p k q m); try done.
  by rewrite BI, lookup_insert_ne.
Qed.

(** A call that returned went through one of the two successful cases. *)
Lemma kmalloc_ok_allocated a cs s n p s' :
  heap_inv a cs s -> 0 <= n -> n + 24 <= 2 ^ 63 ->
  selects_suitable n (enter s) = Ok (true, enter s) -> kmalloc n s = Ok (p, s') ->
  exists cs', allocated a cs s p (kmalloc_round n) cs' s'.
Proof.
  intros HI H0 Hn HSel HK. destruct (heap_inv_enter _ _ _ HI) as (bl & H & HC & HB & HT).
  pose proof (core_layout _ _ _ _ (st_core _ _ _ _ H)) as L.
  destruct (kmalloc_round_spec n H0 Hn) as [Hr _].
  destruct (kmalloc_search_spec a cs bl (enter s) (kmalloc_round n) H) as (x & c & HS & Hx & _);
    [apply Hr|].
  pose proof (free_hdr _ _ _ _ _ L Hx) as HH.
  unfold selects_suitable in HSel. rewrite (bind_ok _ _ _ _ _ HS) in HSel.
  rewrite (bind_ok _ _ _ _ _ (get_wild_ok _ _ _ _ _ HH)) in HSel.
  rewrite (bind_ok _ _ _ _ _ (get_size_ok _ _ _ _ _ HH)) in HSel. injection HSel as HSel.
  set (r := kmalloc_round n) in *.
  destruct (decide ((c_wild c = false /\ c_size c = r) \/ fits r c)) as [Hf|Hf].
  { destruct (kmalloc_serve a cs s n x c HI H0 Hn HS Hx Hf) as (s1 & cs' & R & HA & _).
    rewrite HK in R. simplify_eq. eauto. }
  assert (Hw : c_wild c = true).
  { destruct (c_wild c); [done|]. unfold fits in *. simpl in HSel.
    apply orb_true_iff in HSel as [E%Z.eqb_eq|E%Z.leb_le]; tauto. }
  assert (Hnf : ~ fits r c) by tauto.
  destruct (decide (enable_growth (kheap s) = true)) as [HG|HG].
  2: { destruct (kmalloc_refused a cs s n x c HI H0 Hn HS Hx Hw Hnf) with p s'; [|done].
       left. by destruct (enable_growth (kheap s)). }
  destruct (try_expand_vmem_top (heap_vmem (kheap s)) (wilderness_growth_size r) (hs_vmm (enter s)))
    as [[[] v]| | | |] eqn:HX.
  { destruct (kmalloc_grow a cs s n x c v HI H0 Hn HS Hx Hw Hnf HG HX) as (s1 & cs' & R & HA & _).
    rewrite HK in R. simplify_eq. eauto. }
  all: exfalso; refine (kmalloc_refused a cs s n x c HI H0 Hn HS Hx Hw Hnf (or_intror _) _ _ HK).
  all: fold r; by rewrite HX.
Qed.

End top.

(** ** Theorems *)
Section theorems.
Context {V : Type} {VP : VMemProvider V} {VL : VMemLaws V}.
Implicit Types (s : heap_state V) (cs : list chunk).

Theorem kheap_init_correct s h v :
  vmem_wf (hs_vmm s) ->
  allocate_kernel_virtual_memory KERNEL_HEAP_SIZE VM_TYPE_HEAP KERNEL_HEAP_VMM_MAX_SIZE
    KERNEL_HEAP_VMM_LOW_SECURITY_PADDING (hs_vmm s) = Ok (h, v) ->
  is_vmemhandle_invalid h = false ->
  exists s', kheap_init s = Ok (tt, s') /\ kheap_initialized s' = true /\
    heap_inv (get_vmem_addr h v) [first_chunk KERNEL_HEAP_SIZE] s' /\
    blocks (get_vmem_addr h v) [first_chunk KERNEL_HEAP_SIZE] = ∅.
Proof.
  intros HV HX Hh. destruct (kheap_init_spec s h v HV HX Hh) as (s' & R & HI & Hi).
  by exists s'.
Qed.


(** C1: When the search of kmalloc stops at a free chunk that fits exactly or can be
    split, kmalloc returns the data address of that chunk: a block of at least the
    requested size that was not live, added to the live blocks; the data of every live
    block, the total size and the region are unchanged and the heap invariant holds
    again. *)
Theorem kmalloc_correct a cs s n x c :
  heap_inv a cs s -> 0 <= n -> n + 24 <= 2 ^ 63 ->
  kmalloc_search (kmalloc_round n) (enter s) = Ok (x, enter s) -> free_chunk a cs x c ->
  (c_wild c = false /\ c_size c = kmalloc_round n) \/ kmalloc_round n + 32 <= c_size c ->
  exists s' cs', kmalloc n s = Ok (x + 8, s') /\ heap_inv a cs' s' /\ n <= kmalloc_round n /\
    blocks a cs !! (x + 8) = None /\
    blocks a cs' = <[x + 8 := kmalloc_round n]> (blocks a cs) /\
    data_kept (blocks a cs) (hs_mem s) (hs_mem s') /\
    total cs' = total cs /\ hs_vmm s' = hs_vmm s.
Proof.
  intros HI H0 Hn HS Hx Hf. destruct (kmalloc_round_spec n H0 Hn) as [_ Hle].
  destruct (kmalloc_serve a cs s n x c HI H0 Hn HS Hx Hf) as (s' & cs' & R & (?&?&?&?) & ? & ?).
  exists s', cs'. split_and!; done.
Qed.

Theorem kmalloc_grows_heap a cs s n x c v :
  let g := wilderness_growth_size (kmalloc_round n) in
  heap_inv a cs s -> 0 <= n -> n + 24 <= 2 ^ 63 ->
  kmalloc_search (kmalloc_round n) (enter s) = Ok (x, enter s) -> free_chunk a cs x c ->
  c_wild c = true -> c_size c < kmalloc_round n + 32 -> enable_growth (kheap s) = true ->
  try_expand_vmem_top (heap_vmem (kheap s)) g (hs_vmm (enter s)) = Ok (true, v) ->
  exists s' cs', kmalloc n s = Ok (x + 8, s') /\ heap_inv a cs' s' /\
    blocks a cs' = <[x + 8 := kmalloc_round n]> (blocks a cs) /\
    data_kept (blocks a cs) (hs_mem s) (hs_mem s') /\ total cs' = total cs + g.
Proof.
  intros g HI H0 Hn HS Hx Hw Hnf HG HX.
  destruct (kmalloc_grow a cs s n x c v HI H0 Hn HS Hx Hw) as (s' & cs' & R & (?&?&?&?) & ?);
    [unfold fits; lia|done|done|].
  exists s', cs'. split_and!; done.
Qed.

Theorem kmalloc_out_of_memory_panics a cs s n x c :
  heap_inv a cs s -> 0 <= n -> n + 24 <= 2 ^ 63 ->
  kmalloc_search (kmalloc_round n) (enter s) = Ok (x, enter s) -> free_chunk a cs x c ->
  c_wild c = true -> c_size c < kmalloc_round n + 32 ->
  enable_growth (kheap s) = false \/
  (exists v, try_expand_vmem_top (heap_vmem (kheap s)) (wilderness_growth_size (kmalloc_round n))
     (hs_vmm (enter s)) = Ok (false, v)) ->
  kmalloc n s = Panic HEAP_OUT_OF_MEM.
Proof.
  intros HI H0 Hn HS Hx Hw Hnf HG.
  eapply (kmalloc_out_of_memory a cs s n x c); try done. unfold fits. lia.
Qed.

Theorem kmalloc_misfit_returns_free_chunk a cs s n x c :
  heap_inv a cs s -> 0 <= n -> n + 24 <= 2 ^ 63 ->
  kmalloc_search (kmalloc_round n) (enter s) = Ok (x, enter s) -> free_chunk a cs x c ->
  c_wild c = false -> c_size c <> kmalloc_round n -> c_size c < kmalloc_round n + 32 ->
  kmalloc n s = Ok (x + 8, s).
Proof.
  intros HI H0 Hn HS Hx Hw Hne Hnf.
  destruct (kmalloc_misfit a cs s n x c HI H0 Hn HS Hx Hw Hne) as [R _]; [unfold fits; lia|].
  rewrite leave_enter in R by apply HI. done.
Qed.

(** C2: kfree of a live block removes exactly that block from the live blocks,
    coalesces the chunk with its free neighbours, keeps the data of the remaining blocks
    and re-establishes the heap invariant. *)
Theorem kfree_correct a cs s p n :
  heap_inv a cs s -> blocks a cs !! p = Some n ->
  exists s' cs', kfree p s = Ok (tt, s') /\ heap_inv a cs' s' /\
    blocks a cs' = delete p (blocks a cs) /\
    data_kept (blocks a cs') (hs_mem s) (hs_mem s') /\
    total cs' = total cs /\ hs_vmm s' = hs_vmm s.
Proof.
  intros HI Hp. destruct (kfree_spec a cs s p n HI Hp) as (s' & cs' & R & HI' & HB & HT & Hv & HD).
  exists s', cs'. split_and!; done.
Qed.

Theorem kfree_double_free_panics a cs s x c :
  heap_inv a cs s -> (x, c) ∈ place a cs -> c_free c = true ->
  kfree (x + 8) s = Panic HEAP_CORRUPTED.
Proof. intros HI Hx Hf. by eapply (kfree_free_spec a cs). Qed.

Theorem kmalloc_kfree_roundtrip a cs s n x c :
  heap_inv a cs s -> 0 <= n -> n + 24 <= 2 ^ 63 ->
  kmalloc_search (kmalloc_round n) (enter s) = Ok (x, enter s) -> free_chunk a cs x c ->
  (c_wild c = false /\ c_size c = kmalloc_round n) \/ kmalloc_round n + 32 <= c_size c ->
  exists s1 s2 cs2, kmalloc n s = Ok (x + 8, s1) /\ kfree (x + 8) s1 = Ok (tt, s2) /\
    heap_inv a cs2 s2 /\ blocks a cs2 = blocks a cs /\
    data_kept (blocks a cs) (hs_mem s) (hs_mem s2) /\ hs_vmm s2 = hs_vmm s.
Proof.
  intros HI H0 Hn HS Hx Hf.
  destruct (kmalloc_serve a cs s n x c HI H0 Hn HS Hx Hf)
    as (s1 & cs1 & R1 & (HI1 & BN & BI & K1) & _ & Ev1).
  destruct (kfree_spec a cs1 s1 (x + 8) (kmalloc_round n) HI1) as
    (s2 & cs2 & R2 & HI2 & BD & _ & Ev2 & K2); [by rewrite BI, lookup_insert_eq|].
  rewrite BI, delete_insert_id in BD by done.
  exists s1, s2, cs2. split_and!; try done; [|congruence].
  intros q k z Hq ? ?. rewrite (K2 q k z) by (rewrite ?BD; done). by apply (K1 q k z).
Qed.

(** C3: From a state that satisfies the heap invariant two calls are steps of the
    abstract allocator on the map of live blocks and keep the invariant: a kfree of a
    live block that returns removes that block, and a kmalloc that returns adds a block
    disjoint from the live ones, for a request of at most 2^63 - 24 bytes whose search
    (selects_suitable) stops at a chunk that fits exactly or is large enough to be
    split. Requests whose search stops at a chunk of another size are excluded: there
    the code ignores the failed split and returns a chunk that stays free (heap.c:466).
    *)
Theorem heap_refines_allocator a cs s e s' :
  heap_inv a cs s -> exec (blocks a cs) s e s' ->
  exists cs', heap_inv a cs' s' /\ abs_step (blocks a cs) e (blocks a cs').
Proof.
  intros HI HE. destruct HE as [n p s' H0 Hn HSel HK|p n s' Hp HF].
  - destruct (kmalloc_ok_allocated a cs s n p s' HI H0 Hn HSel HK) as [cs' HA].
    exists cs'. split; [apply HA|]. eapply allocated_abs; [done|done|].
    by apply kmalloc_round_spec.
  - destruct (kfree_spec a cs s p n HI Hp) as (s1 & cs' & R & HI' & HB & _).
    rewrite HF in R. simplify_eq. exists cs'. split; [done|]. rewrite HB. by eapply abs_free.
Qed.

Theorem kheap_check_accepts_invariant a cs s :
  heap_inv a cs s -> is_kheap_corrupted s = Ok (false, s).
Proof.
  intros HI. destruct (heap_inv_enter _ _ _ HI) as (bl & H & _ & HB & HT).
  rewrite <-(leave_enter s) at 2 by apply HI. apply critical_section; [apply HI|].
  pose proof (vmem_live_range _ _ (bk_live _ _ _ HB)) as VR.
  rewrite (bk_addr _ _ _ HB), (bk_size _ _ _ HB) in VR.
  unfold unsync_is_kheap_corrupted. run_step.
  rewrite (st_size _ _ _ _ H), (st_start _ _ _ _ H), (st_count _ _ _ _ H).
  rewrite !(proj2 (Z.eqb_eq _ _)) by apply VR. cbn [negb].
  pose proof (corrupted_walk_spec a [] cs bl (enter s) (Z.to_nat (Z.of_nat (length cs)) + 1)) as HW.
  simpl in HW. rewrite Z.add_0_r in HW. apply HW; try done; [|lia].
  intros ->. apply (st_wild _ _ _ _ H).
Qed.

Theorem heap_lock_held_hangs s n p :
  kheap_lock s = true -> kmalloc n s = Hang /\ kfree p s = Hang.
Proof.
  intros HL. split; by apply with_spinlock_hard_held.
Qed.

End theorems.
