(* ===== verification/HeapCheck.v ===== *)
(** * An executable check of the heap invariant

    [heap_checkb a cs bl s] decides, on a concrete state, that the chunks [cs]
    and the lists [bl] describe the heap of [s]; [heap_checkb_sound] turns the
    result of an evaluation into the invariant the theorems assume. *)

From S2P Require Import Prelude Memory Sync Interfaces Heap HeapChunks HeapInv HeapLists HeapOps HeapSpec.

Fixpoint dsegb (m : mem) (p a : Z) (l : list Z) (n : Z) : bool :=
  match l with
  | [] => a =? n
  | x :: l' => (a =? x) && (load64 m (x + 16) =? p) && dsegb m x (load64 m (x + 8)) l' n
  end.

Lemma dsegb_sound m p a l n : dsegb m p a l n = true -> exists q, dseg m p a l q n.
Proof.
  revert p a. induction l as [|x l IH]; intros p a; simpl.
  - intros ->%Z.eqb_eq. by exists p.
  - intros [[->%Z.eqb_eq E%Z.eqb_eq]%andb_true_iff (q & HD)%IH]%andb_true_iff. by exists q.
Qed.

Definition chunk_okb (m : mem) (xc : Z * chunk) : bool :=
  (load64 m xc.1 =? hdr (c_size xc.2) (c_free xc.2) (c_wild xc.2)) &&
  (load64 m (xc.1 + 8 + c_size xc.2) =? c_size xc.2) &&
  (16 <=? c_size xc.2) && (c_size xc.2 mod 8 =? 0).

Definition layoutb (a : Z) (cs : list chunk) (m : mem) : bool :=
  (PAGE_SIZE <=? a) && (a mod 8 =? 0) && (a + total cs <? 2 ^ 64) &&
  forallb (chunk_okb m) (place a cs).

(** The nodes of bucket [i] are free chunks of that bucket. *)
Definition nodeb (a : Z) (cs : list chunk) (i : nat) (x : Z) : bool :=
  existsb (fun yc => (yc.1 =? x) && c_free yc.2 && (i =? Z.to_nat (bucket_of yc.2))%nat)
    (place a cs).

Definition bucketb (a : Z) (cs : list chunk) (m : mem) (i : nat) (hl : Z * list Z) : bool :=
  dsegb m 0 hl.1 hl.2 0 && forallb (nodeb a cs i) hl.2.

Fixpoint bucketsb (a : Z) (cs : list chunk) (m : mem) (i : nat) (hls : list (Z * list Z)) : bool :=
  match hls with
  | [] => true
  | hl :: hls' => bucketb a cs m i hl && bucketsb a cs m (S i) hls'
  end.

Fixpoint wild_okb (cs : list chunk) : bool :=
  match cs with
  | [] => false
  | [c] => c_wild c && c_free c
  | c :: cs' => negb (c_wild c) && wild_okb cs'
  end.

Fixpoint apartb (b : bool) (cs : list chunk) : bool :=
  match cs with
  | [] => true
  | c :: cs' => negb (b && c_free c) && apartb (c_free c) cs'
  end.

Definition completeb (a : Z) (cs : list chunk) (bl : list (list Z)) : bool :=
  forallb (fun xc => negb (c_free xc.2) || existsb (Z.eqb xc.1) (concat bl)) (place a cs).

Definition heap_checkb {V} (a : Z) (cs : list chunk) (bl : list (list Z)) (s : heap_state V) : bool :=
  let m := hs_mem s in
  let fb := free_buckets (kheap s) in
  layoutb a cs m &&
  (length fb =? Z.to_nat BUCKETS_COUNT)%nat && (length bl =? Z.to_nat BUCKETS_COUNT)%nat &&
  bucketsb a cs m 0 (zip fb bl) && bool_decide (NoDup (concat bl)) &&
  completeb a cs bl && apartb false cs && wild_okb cs &&
  (start (kheap s) =? a) && (size (kheap s) =? total cs) &&
  (number_of_chunks (kheap s) =? Z.of_nat (length cs)) &&
  existsb (fun xc => (xc.1 =? wilderness_chunk (kheap s)) && c_wild xc.2) (place a cs).

Lemma layoutb_sound a cs m : layoutb a cs m = true -> layout a cs m.
Proof.
  unfold layoutb. rewrite !andb_true_iff, Z.leb_le, Z.eqb_eq, Z.ltb_lt, forallb_forall.
  intros (((? & ?) & ?) & F).
  assert (F' : forall x c, (x, c) ∈ place a cs -> chunk_ok m (x, c) /\ chunk_wf c).
  { intros x c Hin%list_elem_of_In%F. unfold chunk_okb, chunk_ok, chunk_wf in *. simpl in Hin.
    rewrite !andb_true_iff, !Z.eqb_eq, Z.leb_le in Hin. tauto. }
  split; try done.
  - apply Forall_forall. intros c Hc. apply list_elem_of_split in Hc as (l1 & l2 & ->).
    eapply F', place_elem.
  - apply Forall_forall. intros [x c] Hin. by apply F'.
Qed.

Lemma bucketsb_sound a cs m i hls :
  bucketsb a cs m i hls = true ->
  forall j h l, hls !! j = Some (h, l) ->
    (exists q, dseg m 0 h l q 0) /\
    (forall x, x ∈ l -> exists c, free_chunk a cs x c /\ (i + j)%nat = Z.to_nat (bucket_of c)).
Proof.
  revert i. induction hls as [|hl hls IH]; intros i; [done|]. simpl.
  intros [[HD HN]%andb_true_iff HB]%andb_true_iff [|j] h l Hj; simpl in Hj.
  - simplify_eq. simpl in *. split; [by apply dsegb_sound|]. rewrite forallb_forall in HN.
    intros x Hx%list_elem_of_In%HN. apply existsb_exists in Hx as ([y c] & Hin & Hx). simpl in Hx.
    rewrite !andb_true_iff, Z.eqb_eq, Nat.eqb_eq in Hx. destruct Hx as ((-> & Hf) & Hi).
    exists c. split; [|by rewrite Nat.add_0_r]. split; [by apply list_elem_of_In|done].
  - destruct (IH (S i) HB j h l Hj) as [? HN']. split; [done|]. intros x Hx.
    destruct (HN' x Hx) as (c & Hc & Hi). exists c. split; [done|lia].
Qed.

Lemma wild_okb_sound cs : wild_okb cs = true -> wild_ok cs.
Proof.
  induction cs as [|c [|d cs] IH]; [done|..].
  - by intros [? ?]%andb_true_iff.
  - intros [?%negb_true_iff ?]%andb_true_iff. by split; [|apply IH].
Qed.

Lemma apartb_sound b cs : apartb b cs = true -> apart b cs.
Proof.
  revert b. induction cs as [|c cs IH]; intros b; [done|].
  intros [?%negb_true_iff ?]%andb_true_iff. by split; [|apply IH].
Qed.

Lemma completeb_sound a cs bl : completeb a cs bl = true -> complete a cs bl.
Proof.
  unfold completeb, complete, free_chunk. rewrite forallb_forall.
  intros F x c [Hin%list_elem_of_In%F Hf]. simpl in Hin. rewrite Hf in Hin. simpl in Hin.
  apply existsb_exists in Hin as (y & Hy & ->%Z.eqb_eq). by apply list_elem_of_In.
Qed.

Lemma heap_checkb_sound {V} {VP : VMemProvider V} {VL : VMemLaws V} a cs bl (s : heap_state V) :
  heap_checkb a cs bl s = true -> backed a cs s -> kheap_lock s = false -> heap_inv a cs s.
Proof.
  unfold heap_checkb. rewrite !andb_true_iff, !Nat.eqb_eq, !Z.eqb_eq, bool_decide_eq_true.
  intros (((((((((((HL & Hfb) & Hbl) & HB) & ND) & HC) & HA) & HW) & ?) & ?) & ?) & Hw) Hbk Hlk.
  pose proof (bucketsb_sound _ _ _ _ _ HB) as HB'.
  assert (HZ : forall i l, bl !! i = Some l -> exists h, free_buckets (kheap s) !! i = Some h /\
                zip (free_buckets (kheap s)) bl !! i = Some (h, l)).
  { intros i l Hi. assert (is_Some (free_buckets (kheap s) !! i)) as [h Hh].
    { apply lookup_lt_is_Some. rewrite Hfb, <-Hbl. by eapply lookup_lt_Some. }
    exists h. split; [done|]. by rewrite lookup_zip_with, Hh, Hi. }
  split; try done; [|by apply apartb_sound].
  exists bl. split; [|by apply completeb_sound]. split; try done; [|by apply wild_okb_sound|].
  - split; try done; [by apply layoutb_sound|..].
    + intros i l Hi. destruct (HZ i l Hi) as (h & Hh & Hz).
      destruct (HB' _ _ _ Hz) as [[q HD] _]. eauto.
    + intros i l x Hi Hx. destruct (HZ i l Hi) as (h & Hh & Hz). by apply (HB' _ _ _ Hz).
  - apply existsb_exists in Hw as ([y c] & Hin & Hy). simpl in Hy.
    apply andb_true_iff in Hy as [->%Z.eqb_eq Hc]. exists c. by rewrite list_elem_of_In.
Qed.
