(* ===== verification/HeapRuns.v ===== *)
(** * Runs of the heap on a concrete region

    The heap evaluated over the region provider: the states below are reached
    from an empty machine by [kheap_init] and a few calls.  They instantiate the
    theorems of [HeapTop], and one of them shows two live blocks at the same
    address. *)

From S2P Require Import Prelude Memory Sync Interfaces Heap HeapRegion HeapChunks HeapInv HeapLists HeapOps HeapSpec HeapFree HeapMalloc HeapTop HeapCheck.

Abbreviation demo_state := (heap_state region).

Definition base : Z := 0xffff800000004000.

Definition boot : demo_state :=
  HeapState ∅ (MkHeap invalid_handle false 0 0 0 0 []) false false (Region true base 0 0).

Definition after {A} (c : M demo_state A) (s : demo_state) : demo_state :=
  match c s with Ok (_, s') => s' | _ => s end.

(** After [kheap_init]; then with one block of 48 bytes; with a second one of 16
    bytes; and with the first one freed again. *)
Definition heap0 : demo_state := Eval vm_compute in after kheap_init boot.
Definition heap1 : demo_state := Eval vm_compute in after (kmalloc 48) heap0.
Definition heap2 : demo_state := Eval vm_compute in after (kmalloc 16) heap1.
Definition heap3 : demo_state := Eval vm_compute in after (kfree (base + 8)) heap2.
Definition heap0_growing : demo_state := Eval vm_compute in after enable_kheap_growth heap0.

Definition lists_with (ixs : list (nat * list Z)) : list (list Z) :=
  foldr (fun ix bl => <[ix.1 := ix.2]> bl) empty_lists ixs.

Definition chunks0 : list chunk := [first_chunk KERNEL_HEAP_SIZE].
Definition chunks1 : list chunk := [taken 48; Chunk (4 * MB - 80) true true].
Definition chunks3 : list chunk :=
  [Chunk 48 true false; taken 16; Chunk (4 * MB - 112) true true].

Lemma heap0_inv : heap_inv base chunks0 heap0.
Proof.
  apply (heap_checkb_sound _ _ (lists_with [(127%nat, [base])])); [by vm_compute| |done].
  split; [by vm_compute|done..].
Qed.

Lemma heap0_growing_inv : heap_inv base chunks0 heap0_growing.
Proof.
  apply (heap_checkb_sound _ _ (lists_with [(127%nat, [base])])); [by vm_compute| |done].
  split; [by vm_compute|done..].
Qed.

Lemma heap1_inv : heap_inv base chunks1 heap1.
Proof.
  apply (heap_checkb_sound _ _ (lists_with [(127%nat, [base + 64])])); [by vm_compute| |done].
  split; [by vm_compute|done..].
Qed.

Lemma heap3_inv : heap_inv base chunks3 heap3.
Proof.
  apply (heap_checkb_sound _ _ (lists_with [(5%nat, [base]); (127%nat, [base + 96])]));
    [by vm_compute| |done].
  split; [by vm_compute|done..].
Qed.

Lemma chunks0_free : free_chunk base chunks0 base (first_chunk KERNEL_HEAP_SIZE).
Proof. split; [apply list_elem_of_here|done]. Qed.

Lemma heap0_search n :
  (n =? 48) || (n =? 8 * MB) = true ->
  kmalloc_search (kmalloc_round n) (enter heap0) = Ok (base, enter heap0).
Proof. intros [->%Z.eqb_eq | ->%Z.eqb_eq]%orb_true_iff; by vm_compute. Qed.

Theorem kmalloc_double_allocation :
  exists s1 s2 s3 s4 s5 a,
    kmalloc 48 heap0 = Ok (a, s1) /\ kmalloc 16 s1 = Ok (a + 64, s2) /\
    kfree a s2 = Ok (tt, s3) /\
    kmalloc 40 s3 = Ok (a, s4) /\ kmalloc 48 s4 = Ok (a, s5).
Proof.
  exists heap1, heap2, heap3, heap3, (after (kmalloc 48) heap3), (base + 8).
  split_and!; by vm_compute.
Qed.

(** ** Instances of the theorems *)

Lemma kheap_init_correct_witness :
  exists s', kheap_init boot = Ok (tt, s') /\ heap_inv base chunks0 s'.
Proof.
  destruct (kheap_init_correct boot region_handle (Region true base KERNEL_HEAP_SIZE
    (KERNEL_HEAP_SIZE + KERNEL_HEAP_VMM_MAX_SIZE))) as (s' & R & _ & HI & _).
  - by vm_compute.
  - reflexivity.
  - reflexivity.
  - exists s'. split; [exact R|exact HI].
Defined.


Lemma kmalloc_correct_witness :
  exists s' cs', kmalloc 48 heap0 = Ok (base + 8, s') /\ heap_inv base cs' s' /\
    blocks base cs' = <[base + 8 := 48]> (blocks base chunks0).
Proof.
  destruct (kmalloc_correct base chunks0 heap0 48 base (first_chunk KERNEL_HEAP_SIZE))
    as (s' & cs' & R & HI & _ & _ & HB & _).
  - exact heap0_inv.
  - lia.
  - lia.
  - by apply heap0_search.
  - exact chunks0_free.
  - right. by vm_compute.
  - exists s', cs'. split; [exact R|]. split; [exact HI|exact HB].
Defined.

Lemma kmalloc_grows_heap_witness :
  exists s' cs', kmalloc (8 * MB) heap0_growing = Ok (base + 8, s') /\ heap_inv base cs' s' /\
    total cs' = total chunks0 + 16 * MB.
Proof.
  destruct (kmalloc_grows_heap base chunks0 heap0_growing (8 * MB) base
    (first_chunk KERNEL_HEAP_SIZE) (Region false base (KERNEL_HEAP_SIZE + 16 * MB)
    (KERNEL_HEAP_SIZE + KERNEL_HEAP_VMM_MAX_SIZE))) as (s' & cs' & R & HI & _ & _ & HT).
  - exact heap0_growing_inv.
  - by vm_compute.
  - by vm_compute.
  - by vm_compute.
  - exact chunks0_free.
  - reflexivity.
  - by vm_compute.
  - reflexivity.
  - by vm_compute.
  - exists s', cs'. split; [exact R|]. split; [exact HI|]. exact HT.
Defined.

Lemma kmalloc_out_of_memory_panics_witness : kmalloc (8 * MB) heap0 = Panic HEAP_OUT_OF_MEM.
Proof.
  apply (kmalloc_out_of_memory_panics base chunks0 heap0 (8 * MB) base
    (first_chunk KERNEL_HEAP_SIZE)).
  - exact heap0_inv.
  - by vm_compute.
  - by vm_compute.
  - by apply heap0_search.
  - exact chunks0_free.
  - reflexivity.
  - by vm_compute.
  - left. reflexivity.
Defined.

Lemma kmalloc_misfit_returns_free_chunk_witness : kmalloc 40 heap3 = Ok (base + 8, heap3).
Proof.
  apply (kmalloc_misfit_returns_free_chunk base chunks3 heap3 40 base (Chunk 48 true false)).
  - exact heap3_inv.
  - lia.
  - lia.
  - by vm_compute.
  - split; [apply list_elem_of_here|reflexivity].
  - reflexivity.
  - by vm_compute.
  - by vm_compute.
Defined.

Lemma kfree_correct_witness :
  exists s' cs', kfree (base + 8) heap1 = Ok (tt, s') /\ heap_inv base cs' s' /\
    blocks base cs' = delete (base + 8) (blocks base chunks1).
Proof.
  destruct (kfree_correct base chunks1 heap1 (base + 8) 48) as (s' & cs' & R & HI & HB & _).
  - exact heap1_inv.
  - by vm_compute.
  - exists s', cs'. split; [exact R|]. split; [exact HI|exact HB].
Defined.

Lemma kfree_double_free_panics_witness : kfree (base + 8) heap3 = Panic HEAP_CORRUPTED.
Proof.
  apply (kfree_double_free_panics base chunks3 heap3 base (Chunk 48 true false)).
  - exact heap3_inv.
  - apply list_elem_of_here.
  - reflexivity.
Defined.

Lemma kmalloc_kfree_roundtrip_witness :
  exists s1 s2 cs2, kmalloc 48 heap0 = Ok (base + 8, s1) /\ kfree (base + 8) s1 = Ok (tt, s2) /\
    blocks base cs2 = blocks base chunks0.
Proof.
  destruct (kmalloc_kfree_roundtrip base chunks0 heap0 48 base (first_chunk KERNEL_HEAP_SIZE))
    as (s1 & s2 & cs2 & R1 & R2 & _ & HB & _).
  - exact heap0_inv.
  - lia.
  - lia.
  - by apply heap0_search.
  - exact chunks0_free.
  - right. by vm_compute.
  - exists s1, s2, cs2. split; [exact R1|]. split; [exact R2|exact HB].
Defined.

Lemma heap_refines_allocator_witness :
  exists cs', heap_inv base cs' heap1 /\
    abs_step (blocks base chunks0) (EMalloc 48 (base + 8)) (blocks base cs').
Proof.
  apply (heap_refines_allocator base chunks0 heap0 (EMalloc 48 (base + 8)) heap1).
  - exact heap0_inv.
  - apply exec_malloc; [lia|lia|by vm_compute|by vm_compute].
Defined.

Lemma kheap_check_accepts_invariant_witness : is_kheap_corrupted heap3 = Ok (false, heap3).
Proof. apply (kheap_check_accepts_invariant base chunks3 heap3). exact heap3_inv. Defined.

Lemma heap_lock_held_hangs_witness :
  kmalloc 8 (enter heap0) = Hang /\ kfree (base + 8) (enter heap0) = Hang.
Proof. apply heap_lock_held_hangs. reflexivity. Defined.
