(* ===== verification/HeapProvider.v ===== *)
(** * The kernel heap behind the interface of the virtual memory manager

    The manager allocates its descriptors with [kmalloc]; the theorems of the
    heap discharge what it relies on, for requests that a chunk found by the
    search can serve. *)

From S2P Require Import Prelude Memory Sync Interfaces Heap HeapChunks HeapInv HeapLists HeapOps HeapSpec HeapFree HeapMalloc HeapTop.
Import Sequential.

(** The address the kernel image is linked at (kernel/linker.ld); the heap lies
    below it, static objects do not. *)
Definition KERNEL_IMAGE_START : Z := 0xffffc00000000000.

Create HintDb heap_init.

Section provider.
Context {V : Type} {VP : VMemProvider V} {VL : VMemLaws V}.
Implicit Types (s : heap_state V).

(** ** The heap stays initialised *)

Definition keeps_init {A} (c : M (heap_state V) A) : Prop :=
  forall s a s', c s = Ok (a, s') -> kheap_initialized s' = kheap_initialized s.

Lemma keeps_init_bind {A B} (c : M (heap_state V) A) (k : A -> M (heap_state V) B) :
  keeps_init c -> (forall a, keeps_init (k a)) -> keeps_init (bind c k).
Proof.
  intros HC HK s b s' R. unfold bind in R. destruct (c s) as [[a s1]| | | |] eqn:E; try discriminate R.
  by rewrite (HK a _ _ _ R), (HC _ _ _ E).
Qed.
Lemma keeps_init_modify f :
  (forall s, kheap_initialized (f s) = kheap_initialized s) -> keeps_init (modify f).
Proof. intros HF s a s' [= <- <-]. apply HF. Qed.
Lemma keeps_init_const {A} (c : M (heap_state V) A) :
  (forall s, match c s with Ok (_, s') => s' = s | _ => True end) -> keeps_init c.
Proof. intros HC s a s' R. specialize (HC s). by rewrite R in HC; subst. Qed.
Lemma keeps_init_if {A} (b : bool) (c c' : M (heap_state V) A) :
  keeps_init c -> keeps_init c' -> keeps_init (if b then c else c').
Proof. by destruct b. Qed.
Lemma keeps_init_zoom {A} (c : M V A) : keeps_init (zoom vmm_lens c).
Proof. intros s a s' R. unfold zoom in R. destruct (c _) as [[]| | | |]; try discriminate R. by injection R as <- <-. Qed.

Lemma keeps_init_when b (c : M (heap_state V) unit) : keeps_init c -> keeps_init (when b c).
Proof. destruct b; [done|]. intros _. by apply keeps_init_const. Qed.
Lemma keeps_init_KASSERT b : keeps_init (KASSERT b).
Proof. apply keeps_init_const. by destruct b. Qed.
#[local] Hint Resolve keeps_init_KASSERT : heap_init.

Ltac keeps_step := first
  [ solve [auto with heap_init nocore]
  | apply keeps_init_bind; [|intros ?]
  | apply keeps_init_if
  | apply keeps_init_when
  | apply keeps_init_modify; done
  | apply keeps_init_zoom
  | apply keeps_init_const; done
  | case_match ].
Ltac keeps_solve := repeat keeps_step.

Lemma keeps_read64 p : keeps_init (read64 p).
Proof. unfold read64; keeps_solve. Qed.
Lemma keeps_write64 p x : keeps_init (write64 p x).
Proof. unfold write64; keeps_solve. Qed.
Lemma keeps_modify_kheap f : keeps_init (modify_kheap f).
Proof. unfold modify_kheap; keeps_solve. Qed.
#[local] Hint Resolve keeps_read64 keeps_write64 keeps_modify_kheap : heap_init.

Lemma keeps_get_fixed_heap_chunk_size x : keeps_init (get_fixed_heap_chunk_size x).
Proof. unfold get_fixed_heap_chunk_size; keeps_solve. Qed.
#[local] Hint Resolve keeps_get_fixed_heap_chunk_size : heap_init.
Lemma keeps_get_heap_chunk_flag x y : keeps_init (get_heap_chunk_flag x y).
Proof. unfold get_heap_chunk_flag; keeps_solve. Qed.
#[local] Hint Resolve keeps_get_heap_chunk_flag : heap_init.
Lemma keeps_set_heap_chunk_flag x y : keeps_init (set_heap_chunk_flag x y).
Proof. unfold set_heap_chunk_flag; keeps_solve. Qed.
#[local] Hint Resolve keeps_set_heap_chunk_flag : heap_init.
Lemma keeps_reset_heap_chunk_flag x y : keeps_init (reset_heap_chunk_flag x y).
Proof. unfold reset_heap_chunk_flag; keeps_solve. Qed.
#[local] Hint Resolve keeps_reset_heap_chunk_flag : heap_init.
Lemma keeps_get_next_heap_chunk_header x : keeps_init (get_next_heap_chunk_header x).
Proof. unfold get_next_heap_chunk_header; keeps_solve. Qed.
#[local] Hint Resolve keeps_get_next_heap_chunk_header : heap_init.
Lemma keeps_get_fixed_heap_chunk_size_from_footer x : keeps_init (get_fixed_heap_chunk_size_from_footer x).
Proof. unfold get_fixed_heap_chunk_size_from_footer; keeps_solve. Qed.
#[local] Hint Resolve keeps_get_fixed_heap_chunk_size_from_footer : heap_init.
Lemma keeps_get_heap_chunk_header_from_footer x : keeps_init (get_heap_chunk_header_from_footer x).
Proof. unfold get_heap_chunk_header_from_footer; keeps_solve. Qed.
#[local] Hint Resolve keeps_get_heap_chunk_header_from_footer : heap_init.
Lemma keeps_get_heap_chunk_footer_from_header x : keeps_init (get_heap_chunk_footer_from_header x).
Proof. unfold get_heap_chunk_footer_from_header; keeps_solve. Qed.
#[local] Hint Resolve keeps_get_heap_chunk_footer_from_header : heap_init.
Lemma keeps_get_prev_heap_chunk_header x : keeps_init (get_prev_heap_chunk_header x).
Proof. unfold get_prev_heap_chunk_header; keeps_solve. Qed.
#[local] Hint Resolve keeps_get_prev_heap_chunk_header : heap_init.
Lemma keeps_is_heap_chunk_corrupted x : keeps_init (is_heap_chunk_corrupted x).
Proof. unfold is_heap_chunk_corrupted; keeps_solve. Qed.
#[local] Hint Resolve keeps_is_heap_chunk_corrupted : heap_init.
Lemma keeps_set_bucket_list_next x y : keeps_init (set_bucket_list_next x y).
Proof. unfold set_bucket_list_next; keeps_solve. Qed.
#[local] Hint Resolve keeps_set_bucket_list_next : heap_init.
Lemma keeps_get_bucket_list_next x : keeps_init (get_bucket_list_next x).
Proof. unfold get_bucket_list_next; keeps_solve. Qed.
#[local] Hint Resolve keeps_get_bucket_list_next : heap_init.
Lemma keeps_set_bucket_list_prev x y : keeps_init (set_bucket_list_prev x y).
Proof. unfold set_bucket_list_prev; keeps_solve. Qed.
#[local] Hint Resolve keeps_set_bucket_list_prev : heap_init.
Lemma keeps_get_bucket_list_prev x : keeps_init (get_bucket_list_prev x).
Proof. unfold get_bucket_list_prev; keeps_solve. Qed.
#[local] Hint Resolve keeps_get_bucket_list_prev : heap_init.
Lemma keeps_get_bucket_index_from_header x : keeps_init (get_bucket_index_from_header x).
Proof. unfold get_bucket_index_from_header; keeps_solve. Qed.
#[local] Hint Resolve keeps_get_bucket_index_from_header : heap_init.
Lemma keeps_read_bucket x : keeps_init (read_bucket x).
Proof. unfold read_bucket; keeps_solve. Qed.
#[local] Hint Resolve keeps_read_bucket : heap_init.
Lemma keeps_write_bucket x y : keeps_init (write_bucket x y).
Proof. unfold write_bucket; keeps_solve. Qed.
#[local] Hint Resolve keeps_write_bucket : heap_init.
Lemma keeps_remove_from_bucket_list x : keeps_init (remove_from_bucket_list x).
Proof. unfold remove_from_bucket_list; keeps_solve. Qed.
#[local] Hint Resolve keeps_remove_from_bucket_list : heap_init.
Lemma keeps_add_to_bucket_list x : keeps_init (add_to_bucket_list x).
Proof. unfold add_to_bucket_list; keeps_solve. Qed.
#[local] Hint Resolve keeps_add_to_bucket_list : heap_init.
Lemma keeps_is_first_chunk_of_heap x : keeps_init (is_first_chunk_of_heap x).
Proof. unfold is_first_chunk_of_heap; keeps_solve. Qed.
#[local] Hint Resolve keeps_is_first_chunk_of_heap : heap_init.
Lemma keeps_is_last_chunk_of_heap x : keeps_init (is_last_chunk_of_heap x).
Proof. unfold is_last_chunk_of_heap; keeps_solve. Qed.
#[local] Hint Resolve keeps_is_last_chunk_of_heap : heap_init.
Lemma keeps_try_increase_wilderness_chunk x : keeps_init (try_increase_wilderness_chunk x).
Proof. unfold try_increase_wilderness_chunk; keeps_solve. Qed.
#[local] Hint Resolve keeps_try_increase_wilderness_chunk : heap_init.
Lemma keeps_merge_with_next_chunk x : keeps_init (merge_with_next_chunk x).
Proof. unfold merge_with_next_chunk; keeps_solve. Qed.
#[local] Hint Resolve keeps_merge_with_next_chunk : heap_init.
Lemma keeps_merge_with_next_and_prev_chunk x : keeps_init (merge_with_next_and_prev_chunk x).
Proof. unfold merge_with_next_and_prev_chunk; keeps_solve. Qed.
#[local] Hint Resolve keeps_merge_with_next_and_prev_chunk : heap_init.
Lemma keeps_split_chunk_and_alloc x y : keeps_init (split_chunk_and_alloc x y).
Proof. unfold split_chunk_and_alloc; keeps_solve. Qed.
#[local] Hint Resolve keeps_split_chunk_and_alloc : heap_init.
Lemma keeps_alloc_chunk x : keeps_init (alloc_chunk x).
Proof. unfold alloc_chunk; keeps_solve. Qed.
#[local] Hint Resolve keeps_alloc_chunk : heap_init.

Lemma keeps_search_bucket fuel x n : keeps_init (search_bucket fuel x n).
Proof. revert x. induction fuel as [|fuel IH]; intros x; cbn [search_bucket]; keeps_solve. Qed.
#[local] Hint Resolve keeps_search_bucket : heap_init.
Lemma keeps_search_buckets n fuel x k : keeps_init (search_buckets n fuel x k).
Proof. revert x. induction n as [|n IH]; intros x; cbn [search_buckets]; keeps_solve. Qed.
#[local] Hint Resolve keeps_search_buckets : heap_init.

Lemma keeps_with_lock {A} (c : M (heap_state V) A) :
  keeps_init c -> keeps_init (with_spinlock_hard lock_lens if_lens c).
Proof.
  intros HC. unfold with_spinlock_hard, acquire_spinlock_hard, release_spinlock_hard,
    disable_and_save_interrupts, restore_interrupt_state, test_and_set. keeps_solve; done.
Qed.

Lemma keeps_kmalloc n : keeps_init (kmalloc n).
Proof. apply keeps_with_lock. unfold kmalloc_search, kmalloc_take. keeps_solve. Qed.
Lemma keeps_kfree p : keeps_init (kfree p).
Proof. apply keeps_with_lock. unfold kfree_coalesce. keeps_solve. Qed.

(** ** The laws *)

#[export] Instance heap_provider : HeapProvider (heap_state V) := {|
  is_kheap_initialzed := kheap_initialized;
  hp_kmalloc := kmalloc;
  hp_kfree := kfree
|}.

(** The chunk the search chooses is of the exact size or can be split. *)
Definition serves_in_place (n : Z) : M (heap_state V) bool :=
  let r := kmalloc_round n in
  x <- kmalloc_search r;;
  w <- get_heap_chunk_flag x HEAP_WILDERNESS_CHUNK;;
  sz <- get_fixed_heap_chunk_size x;;
  ret ((negb w && (sz =? r)) || (r + 32 <=? sz)).

Definition heap_serves s (n : Z) : Prop :=
  0 <= n /\ n + 24 <= 2 ^ 63 /\ serves_in_place n (enter s) = Ok (true, enter s).

Definition heap_blocks s (B : gmap Z Z) : Prop :=
  exists a cs, heap_inv a cs s /\ blocks a cs = B /\ a + total cs <= KERNEL_IMAGE_START.

Lemma heap_serves_ok s B n :
  heap_blocks s B -> heap_serves s n ->
  exists p k s', kmalloc n s = Ok (p, s') /\ n <= k /\ B !! p = None /\ ~ KERNEL_IMAGE_START <= p /\
    0 < p < 2 ^ 64 /\ heap_blocks s' (<[p := k]> B) /\
    (forall q m, B !! q = Some m -> p + k <= q \/ q + m <= p) /\
    kheap_initialized s' = kheap_initialized s.
Proof.
  intros (a & cs & HI & HB & Ht) (H0 & Hn & HSel).
  destruct (heap_inv_enter _ _ _ HI) as (bl & Hst & HC & HBk & HT).
  pose proof (core_layout _ _ _ _ (st_core _ _ _ _ Hst)) as L.
  destruct (kmalloc_round_spec n H0 Hn) as [Hr Hle].
  destruct (kmalloc_search_spec a cs bl (enter s) (kmalloc_round n) Hst) as (x & c & HS & Hx & _);
    [apply Hr|].
  pose proof (free_hdr _ _ _ _ _ L Hx) as HH.
  unfold serves_in_place in HSel. rewrite (bind_ok _ _ _ _ _ HS) in HSel.
  rewrite (bind_ok _ _ _ _ _ (get_wild_ok _ _ _ _ _ HH)) in HSel.
  rewrite (bind_ok _ _ _ _ _ (get_size_ok _ _ _ _ _ HH)) in HSel. injection HSel as HSel.
  set (r := kmalloc_round n) in *.
  destruct (kmalloc_serve a cs s n x c HI H0 Hn HS Hx) as (s' & cs' & R & HA & HT' & _).
  { unfold fits. fold r. apply orb_true_iff in HSel as [E|E%Z.leb_le]; [left|by right].
    apply andb_true_iff in E as [E1%negb_true_iff E2%Z.eqb_eq]. done. }
  pose proof HA as (HI' & BN & BI & _). fold r in HA, BI.
  destruct (heap_inv_enter _ _ _ HI') as (bl' & Hst' & _).
  pose proof (core_layout _ _ _ _ (st_core _ _ _ _ Hst')) as L'.
  assert (Hp : blocks a cs' !! (x + 8) = Some r) by (by rewrite BI, lookup_insert_eq).
  pose proof (blocks_bounds _ _ _ _ _ L' Hp) as (Hb1 & Hb2 & _ & Hb3 & _).
  pose proof (lay_base _ _ _ L') as Hbase. unfold PAGE_SIZE in Hbase.
  exists (x + 8), r, s'. unfold KERNEL_IMAGE_START in *. split_and!; try done; try lia.
  - by rewrite <-HB.
  - exists a, cs'. split_and!; [done|by rewrite BI, HB|]. unfold KERNEL_IMAGE_START. lia.
  - intros q m Hq. rewrite <-HB in Hq. assert (x + 8 <> q) by (intros E; rewrite E in BN; congruence).
    eapply (blocks_disjoint a cs' _ (x + 8) r q m); try done. by rewrite BI, lookup_insert_ne.
  - by apply (keeps_kmalloc n _ _ _ R).
Qed.

#[export] Program Instance heap_laws : HeapLaws (heap_state V) := {|
  hp_inv := heap_blocks;
  hp_serves := heap_serves;
  hp_static p := KERNEL_IMAGE_START <= p
|}.
Next Obligation. intros s B n HB HS. exact (heap_serves_ok s B n HB HS). Qed.
Next Obligation.
  intros s B p n (a & cs & HI & HB & Ht) Hp. rewrite <-HB in Hp.
  destruct (kfree_spec a cs s p n HI Hp) as (s' & cs' & R & HI' & HB' & HT & _).
  exists s'. split_and!; [exact R| |by apply (keeps_kfree p _ _ _ R)].
  exists a, cs'. split_and!; [done|by rewrite HB', HB|lia].
Qed.

End provider.
