(* ===== verification/BootMem.v ===== *)
(** * Memory map handling (HAL/bios/bootloader_data.c)

    The bootloader leaves the firmware's memory map, unsorted, and the state of
    its own frame allocator.  [get_ram_space] and [free_mem_bootloader] turn it
    into sorted, page-aligned ranges of usable memory; [get_memory_map]
    translates the types.  The static result buffers are lists; each of the
    functions fills its buffer once and returns the buffered result afterwards. *)

From S2P Require Import Prelude.

Definition MAX_PHYSICAL_MEMORY_RANGES : Z := 128.
Definition MEMORY_MAP_FREE : Z := 1.
Definition BIOS_MEM_TYPE_USABLE : Z := 1.
Definition BIOS_MEM_TYPE_BAD : Z := 5.
Definition REGISTER_SIZE_BYTES : Z := 8.

Record PhysicalMemoryRange : Type := MkRange { start_address : Z; range_size : Z }.

#[export] Instance PhysicalMemoryRange_inhabited : Inhabited PhysicalMemoryRange :=
  populate (MkRange 0 0).

Record MemoryMapItem : Type := MkItem {
  base_addr : Z; item_size : Z; item_type : Z; item_acpi : Z
}.

Inductive MemoryMapType : Type :=
| MEMORYMAP_USABLE
| MEMORYMAP_RESERVED
| MEMORY_MAP_NON_VOLATILE
| MEMORYMAP_BAD
| MEMORYMAP_ACPI_TABLE
| MEMORYMAP_ACPI_NVS.

Record MemoryMapRange : Type := MkMapRange {
  mm_start : Z; mm_size : Z; mm_type : MemoryMapType
}.

(** What the bootloader passes: the map, the first frame its allocator has not
    handed out, and the base of the map item that allocator used. *)
Record BootLoaderData : Type := MkBootData {
  map_items : list MemoryMapItem;
  first_frame_address : Z;
  frame_alloc_item_base : Z;
  elf_image : Z
}.

(** The static buffers and their "already filled" markers. *)
Record boot_state : Type := MkBoot {
  boot_data : BootLoaderData;
  ram_ranges : option (list PhysicalMemoryRange);
  free_ranges_buffered : option (list PhysicalMemoryRange);
  memory_map : option (list MemoryMapRange)
}.

(** ** Bubble sort, as the three functions write it *)
Section bubble.
Context {A : Type} (key : A -> Z).

Definition cmp_swap (a : list A) (j : nat) : list A :=
  match a !! j, a !! S j with
  | Some x, Some y => if key y <? key x then <[j := y]> (<[S j := x]> a) else a
  | _, _ => a
  end.

(** [for(j = 0; j < k; j++)] *)
Definition bubble_inner (k : nat) (a : list A) : list A := foldl cmp_swap a (seq 0 k).

(** [for(i = 0; i < n; i++)], the inner bound being [n - i - 1]. *)
Definition bubble_sort (a : list A) : list A :=
  foldl (fun a i => bubble_inner (length a - i - 1) a) a (seq 0 (length a)).
End bubble.

(** ** The functions *)

Definition usable_item (m : MemoryMapItem) : bool :=
  (item_type m =? MEMORY_MAP_FREE) && negb (item_size m =? 0).

(** The fill loop; one range too many panics. *)
Fixpoint fill_ranges {S} (items : list MemoryMapItem) (buf : list PhysicalMemoryRange) :
    M S (list PhysicalMemoryRange) :=
  match items with
  | [] => ret buf
  | m :: items' =>
      if usable_item m then
        when (Z.of_nat (length buf) =? MAX_PHYSICAL_MEMORY_RANGES)
          (kpanic FREE_MEM_BOOTLOADER_ERROR);;
        fill_ranges items' (buf ++ [MkRange (base_addr m) (item_size m)])
      else fill_ranges items' buf
  end.

(** Align one range to 4K: the start up, the size down. *)
Definition align_range (r : PhysicalMemoryRange) : PhysicalMemoryRange :=
  if range_size r =? 0 then r else
  let r1 :=
    if negb (start_address r mod PAGE_SIZE =? 0) then
      let to_add := wrap64 (- (start_address r mod PAGE_SIZE) + PAGE_SIZE) in
      MkRange (wrap64 (start_address r + to_add)) (wrap64 (range_size r - to_add))
    else r in
  if negb (range_size r1 mod PAGE_SIZE =? 0)
  then MkRange (start_address r1) (wrap64 (range_size r1 - range_size r1 mod PAGE_SIZE))
  else r1.

(** Cut off the frames the bootloader's allocator has used. *)
Definition cut_used_frames (d : BootLoaderData) (r : PhysicalMemoryRange) : PhysicalMemoryRange :=
  if frame_alloc_item_base d =? start_address r then
    MkRange (first_frame_address d)
      (wrap64 (range_size r - wrap64 (first_frame_address d - start_address r)))
  else r.

(** Cut off the first megabyte. *)
Definition cut_first_MB (r : PhysicalMemoryRange) : PhysicalMemoryRange :=
  if start_address r <? MB then
    if MB <? wrap64 (start_address r + range_size r) then
      MkRange MB (wrap64 (range_size r - (MB - start_address r)))
    else MkRange (start_address r) 0
  else r.

Definition get_ram_space : M boot_state (list PhysicalMemoryRange) :=
  s <- get;;
  match ram_ranges s with
  | Some l => ret l
  | None =>
      buf <- fill_ranges (map_items (boot_data s)) [];;
      let l := align_range <$> bubble_sort start_address buf in
      modify (fun s => MkBoot (boot_data s) (Some l) (free_ranges_buffered s) (memory_map s));;
      ret l
  end.

Definition free_mem_bootloader : M boot_state (list PhysicalMemoryRange) :=
  s <- get;;
  match free_ranges_buffered s with
  | Some l => ret l
  | None =>
      buf <- fill_ranges (map_items (boot_data s)) [];;
      let l := bubble_sort start_address buf in
      let l := cut_used_frames (boot_data s) <$> l in
      let l := cut_first_MB <$> l in
      let l := align_range <$> l in
      modify (fun s => MkBoot (boot_data s) (ram_ranges s) (Some l) (memory_map s));;
      ret l
  end.

Definition get_total_usable_RAM_size (s : boot_state) : Z :=
  foldl (fun total m => if usable_item m then wrap64 (total + item_size m) else total) 0
    (map_items (boot_data s)).

Definition get_last_address (s : boot_state) : Z :=
  foldl (fun last_addr m =>
    if negb (item_size m =? 0) then
      let map_item_last_addr := wrap64 (base_addr m + item_size m - REGISTER_SIZE_BYTES) in
      if last_addr <? map_item_last_addr then map_item_last_addr else last_addr
    else last_addr) 0 (map_items (boot_data s)).

Definition get_bootstage_indentity_mapped_RAM : PhysicalMemoryRange := MkRange 0 (1 * GB).

Definition get_kernel_image (s : boot_state) : Z := elf_image (boot_data s).

Definition get_bootloader_memory_usage (s : boot_state) : Z :=
  let d := boot_data s in
  let boot_frame_allocator_size := wrap64 (first_frame_address d - frame_alloc_item_base d) in
  let reserved :=
    foldl (fun acc m =>
      if usable_item m && (base_addr m <? MB) then
        let end_addr := wrap64 (base_addr m + item_size m) in
        let end_addr := if MB <? end_addr then MB else end_addr in
        wrap64 (acc + (end_addr - base_addr m))
      else acc) 0 (map_items d) in
  wrap64 (reserved + boot_frame_allocator_size).

(** [type_mapping], indexed by the BIOS type. *)
Definition type_mapping (t : Z) : MemoryMapType :=
  match t with
  | 1 => MEMORYMAP_USABLE
  | 3 => MEMORYMAP_ACPI_TABLE
  | 4 => MEMORYMAP_ACPI_NVS
  | 5 => MEMORYMAP_BAD
  | _ => MEMORYMAP_RESERVED
  end.

Definition translate_item (m : MemoryMapItem) : MemoryMapRange :=
  let type :=
    if (BIOS_MEM_TYPE_USABLE <=? item_type m) && (item_type m <=? BIOS_MEM_TYPE_BAD)
    then type_mapping (item_type m) else MEMORYMAP_RESERVED in
  let type := if Z.land (item_acpi m) 1 =? 0 then MEMORYMAP_RESERVED else type in
  let type := if negb (Z.land (item_acpi m) 2 =? 0) then MEMORY_MAP_NON_VOLATILE else type in
  MkMapRange (base_addr m) (item_size m) type.

(** The buffer has 128 entries; a longer map writes past its end. *)
Definition get_memory_map : M boot_state (list MemoryMapRange) :=
  s <- get;;
  match memory_map s with
  | Some l => ret l
  | None =>
      let items := map_items (boot_data s) in
      if MAX_PHYSICAL_MEMORY_RANGES <? Z.of_nat (length items) then fault else
      let l := bubble_sort mm_start (translate_item <$> items) in
      modify (fun s => MkBoot (boot_data s) (ram_ranges s) (free_ranges_buffered s) (Some l));;
      ret l
  end.

Definition get_real_mode_startup_frame : Z := 0x2000.
Definition get_real_mode_secondary_startup_frame : Z := 0x3000.

(** ** The sort is a sort *)
Section bubble_correct.
Context {A : Type} (key : A -> Z).
Implicit Types (l a : list A).

Definition sorted_by l : Prop := forall i j x y,
  (i < j)%nat -> l !! i = Some x -> l !! j = Some y -> key x <= key y.

(** One pass over the first [S k] elements, on the list structure. *)
Fixpoint pass (k : nat) (l : list A) : list A :=
  match k, l with
  | S k', x :: y :: l' =>
      if key y <? key x then y :: pass k' (x :: l') else x :: pass k' (y :: l')
  | _, _ => l
  end.

Lemma cmp_swap_app p x y l :
  cmp_swap key (p ++ x :: y :: l) (length p) =
  p ++ (if key y <? key x then y :: x :: l else x :: y :: l).
Proof.
  unfold cmp_swap.
  rewrite list_lookup_middle by done.
  rewrite lookup_app_r by lia. replace (S (length p) - length p)%nat with 1%nat by lia. simpl.
  destruct (key y <? key x); [|done].
  replace (S (length p)) with (length p + 1)%nat by lia. rewrite insert_app_r.
  rewrite <-(Nat.add_0_r (length p)) at 1. by rewrite insert_app_r.
Qed.

Lemma inner_pass_app k p l :
  (k < length l)%nat \/ k = 0%nat ->
  foldl (cmp_swap key) (p ++ l) (seq (length p) k) = p ++ pass k l.
Proof.
  revert p l. induction k as [|k IH]; intros p l Hk; [by destruct l|].
  destruct l as [|x [|y l]]; simpl in Hk; [lia..|]. cbn [seq foldl].
  rewrite cmp_swap_app. simpl.
  destruct (key y <? key x).
  - specialize (IH (p ++ [y]) (x :: l)). rewrite length_app, Nat.add_comm in IH. simpl in IH.
    rewrite <-!app_assoc in IH. apply IH. simpl. lia.
  - specialize (IH (p ++ [x]) (y :: l)). rewrite length_app, Nat.add_comm in IH. simpl in IH.
    rewrite <-!app_assoc in IH. apply IH. simpl. lia.
Qed.

Lemma bubble_inner_pass k l : (k < length l)%nat \/ k = 0%nat -> bubble_inner key k l = pass k l.
Proof. apply (inner_pass_app k []). Qed.

Lemma pass_perm k l : pass k l ≡ₚ l.
Proof.
  revert l. induction k as [|k IH]; intros l; [by destruct l|].
  destruct l as [|x [|y l]]; simpl; try done.
  destruct (key y <? key x); rewrite IH; [apply Permutation_swap|done].
Qed.

Lemma pass_app k l r : length l = S k -> pass k (l ++ r) = pass k l ++ r.
Proof.
  revert l. induction k as [|k IH]; intros l Hl.
  { destruct l; simpl; [done|]. by destruct (l ++ r), l. }
  destruct l as [|x [|y l]]; simpl in *; [lia..|].
  destruct (key y <? key x); simpl; f_equal; apply (IH (_ :: l)); simpl; lia.
Qed.

(** A pass moves a largest element to the end. *)
Lemma pass_last k l :
  length l = S k ->
  exists l' m, pass k l = l' ++ [m] /\ (forall x, x ∈ l' -> key x <= key m).
Proof.
  revert l. induction k as [|k IH]; intros l Hl.
  { destruct l as [|x []]; simpl in Hl; [lia| |lia]. exists [], x. set_solver. }
  destruct l as [|x [|y l]]; simpl in *; [lia..|].
  destruct (Z.ltb_spec (key y) (key x)).
  - destruct (IH (x :: l)) as (l' & m & E & HM); [simpl; lia|]. exists (y :: l'), m.
    rewrite E. split; [done|]. intros z [->|Hz]%elem_of_cons; [|auto].
    assert (Hx : x ∈ l' ++ [m]) by (rewrite <-E, pass_perm; set_solver).
    apply elem_of_app in Hx as [Hx%HM|Hx]; [lia|]. apply list_elem_of_singleton in Hx as ->. lia.
  - destruct (IH (y :: l)) as (l' & m & E & HM); [simpl; lia|]. exists (x :: l'), m.
    rewrite E. split; [done|]. intros z [->|Hz]%elem_of_cons; [|auto].
    assert (Hy : y ∈ l' ++ [m]) by (rewrite <-E, pass_perm; set_solver).
    apply elem_of_app in Hy as [Hy%HM|Hy]; [lia|]. apply list_elem_of_singleton in Hy as ->. lia.
Qed.

Lemma sorted_by_cons x l :
  sorted_by l -> (forall y, y ∈ l -> key x <= key y) -> sorted_by (x :: l).
Proof.
  intros HS HX [|i] [|j] y z Hij Hy Hz; simpl in *; try lia; simplify_eq.
  - apply HX. by eapply list_elem_of_lookup_2.
  - eapply HS; [|done..]. lia.
Qed.

(** After [i] rounds the last [i] elements are in place. *)
Definition settled (i : nat) l0 l : Prop :=
  l ≡ₚ l0 /\ exists p s, l = p ++ s /\ length s = i /\ sorted_by s /\
    forall x y, x ∈ p -> y ∈ s -> key x <= key y.

Lemma settled_step i l0 l :
  (i < length l0)%nat -> settled i l0 l ->
  settled (S i) l0 (bubble_inner key (length l - i - 1) l).
Proof.
  intros Hi (P & p & s & -> & Hs & HS & HO). pose proof (Permutation_length P) as Hlen.
  rewrite length_app in *. rewrite bubble_inner_pass by (rewrite length_app; lia).
  rewrite pass_app by lia.
  destruct (pass_last (length p + length s - i - 1) p) as (p' & m & E & HM); [lia|].
  assert (PP : p' ++ [m] ≡ₚ p) by (rewrite <-E; apply pass_perm).
  rewrite E. split; [by rewrite PP|]. exists p', (m :: s). rewrite <-app_assoc. split_and!.
  - done.
  - simpl. lia.
  - apply sorted_by_cons; [done|]. intros y Hy. apply HO; [|done]. rewrite <-PP. set_solver.
  - intros x y Hx [->|Hy]%elem_of_cons; [by apply HM|]. apply HO; [|done]. rewrite <-PP. set_solver.
Qed.

Lemma settled_rounds n k i l0 l :
  (i + k = n)%nat -> n = length l0 -> settled i l0 l ->
  settled n l0 (foldl (fun a i => bubble_inner key (length a - i - 1) a) l (seq i k)).
Proof.
  revert i l. induction k as [|k IH]; intros i l Hik Hn HS; simpl.
  { by replace n with i by lia. }
  apply IH; [lia|done|]. apply settled_step; [lia|done].
Qed.

Lemma bubble_sort_settled l : l ≡ₚ bubble_sort key l /\ sorted_by (bubble_sort key l).
Proof.
  destruct (settled_rounds (length l) (length l) 0 l l) as (P & p & s & E & Hs & HS & _); try done.
  { split; [done|]. exists l, []. rewrite app_nil_r. split_and!; try done. set_solver. }
  unfold bubble_sort. rewrite E in P |- *. split; [by symmetry|].
  pose proof (Permutation_length P) as HL. rewrite length_app in HL.
  assert (p = []) as -> by (apply nil_length_inv; lia). done.
Qed.
End bubble_correct.

(** ** The resulting ranges *)

Definition range_of_item (m : MemoryMapItem) : PhysicalMemoryRange :=
  MkRange (base_addr m) (item_size m).

Definition usable_ranges (items : list MemoryMapItem) : list PhysicalMemoryRange :=
  range_of_item <$> List.filter usable_item items.

Lemma fill_ranges_ok {S} items buf (s : S) :
  Z.of_nat (length buf + length (List.filter usable_item items)) <= MAX_PHYSICAL_MEMORY_RANGES ->
  fill_ranges items buf s = Ok (buf ++ usable_ranges items, s).
Proof.
  revert buf. induction items as [|m items IH]; intros buf Hl; unfold usable_ranges in *; simpl.
  { by rewrite app_nil_r. }
  simpl in Hl. destruct (usable_item m); simpl in Hl |- *; [|by apply IH].
  unfold bind. destruct (Z.eqb_spec (Z.of_nat (length buf)) MAX_PHYSICAL_MEMORY_RANGES); [lia|].
  simpl. rewrite IH by (rewrite length_app; simpl; lia). by rewrite <-app_assoc.
Qed.

Lemma fill_ranges_panic {S} items buf (s : S) :
  Z.of_nat (length buf) <= MAX_PHYSICAL_MEMORY_RANGES ->
  MAX_PHYSICAL_MEMORY_RANGES < Z.of_nat (length buf + length (List.filter usable_item items)) ->
  fill_ranges items buf s = Panic FREE_MEM_BOOTLOADER_ERROR.
Proof.
  revert buf. induction items as [|m items IH]; intros buf Hb Hl; unfold usable_ranges in *; simpl.
  { simpl in Hl. lia. }
  simpl in Hl. destruct (usable_item m); simpl in Hl; [|by apply IH].
  unfold bind. destruct (Z.eqb_spec (Z.of_nat (length buf)) MAX_PHYSICAL_MEMORY_RANGES); [done|].
  simpl. apply IH; rewrite length_app; simpl; lia.
Qed.

Definition range_end (r : PhysicalMemoryRange) : Z := start_address r + range_size r.
Definition range_ok (r : PhysicalMemoryRange) : Prop :=
  0 <= start_address r /\ 0 <= range_size r /\ range_end r < 2 ^ 63.

(** [r'] lies inside [r], or has been emptied. *)
Definition shrinks (r r' : PhysicalMemoryRange) : Prop :=
  range_ok r' /\ (range_size r' = 0 \/
    (start_address r <= start_address r' /\ range_end r' <= range_end r /\ range_size r <> 0)).

Lemma shrinks_trans r1 r2 r3 : shrinks r1 r2 -> shrinks r2 r3 -> shrinks r1 r3.
Proof. unfold shrinks, range_end. intros [? [?|?]] [? [?|?]]; split; auto; right; lia. Qed.

(** The bootloader's allocator stands inside the range it works in. *)
Definition frames_inside (d : BootLoaderData) (r : PhysicalMemoryRange) : Prop :=
  frame_alloc_item_base d = start_address r ->
  start_address r <= first_frame_address d <= range_end r.

Lemma cut_used_frames_shrinks d r :
  range_ok r -> range_size r <> 0 -> frames_inside d r -> shrinks r (cut_used_frames d r).
Proof.
  unfold shrinks, range_ok, frames_inside, cut_used_frames, range_end. intros ? ? HF.
  destruct (Z.eqb_spec (frame_alloc_item_base d) (start_address r)) as [E|]; [|lia].
  specialize (HF E). simpl. unwrap. lia.
Qed.

Lemma cut_first_MB_shrinks r : range_ok r -> shrinks r (cut_first_MB r).
Proof.
  unfold shrinks, cut_first_MB, range_ok, range_end, MB. intros ?.
  destruct (Z.ltb_spec (start_address r) (1024 * 1024)); [|lia].
  rewrite (wrap64_small (start_address r + range_size r)) by lia.
  destruct (Z.ltb_spec (1024 * 1024) (start_address r + range_size r)); simpl.
  - rewrite wrap64_small by lia. lia.
  - lia.
Qed.

Lemma cut_first_MB_above r :
  range_ok r -> range_size (cut_first_MB r) = 0 \/ MB <= start_address (cut_first_MB r).
Proof.
  unfold cut_first_MB. intros ?. destruct (Z.ltb_spec (start_address r) MB); [|by right].
  destruct (MB <? _); simpl; [right; lia|by left].
Qed.

(** The range is empty or reaches the next page boundary. *)
Definition align_safe (r : PhysicalMemoryRange) : Prop :=
  range_size r = 0 \/ (- start_address r) mod PAGE_SIZE <= range_size r.

Lemma align_range_spec r :
  range_ok r -> align_safe r ->
  shrinks r (align_range r) /\ start_address r <= start_address (align_range r) /\
  range_size (align_range r) mod PAGE_SIZE = 0 /\
  (range_size (align_range r) <> 0 -> start_address (align_range r) mod PAGE_SIZE = 0) /\
  range_size r - range_size (align_range r) < 2 * PAGE_SIZE.
Proof.
  unfold shrinks, align_safe, align_range, range_ok, range_end, PAGE_SIZE.
  intros ? HA. destruct (Z.eqb_spec (range_size r) 0); [simpl; lia|].
  destruct HA as [|HA]; [lia|].
  destruct (Z.eqb_spec (start_address r mod 4096) 0); simpl.
  - destruct (Z.eqb_spec (range_size r mod 4096) 0); simpl; [lia|].
    rewrite wrap64_small by lia. lia.
  - assert (E : wrap64 (- (start_address r mod 4096) + 4096) = 4096 - start_address r mod 4096).
    { rewrite wrap64_small; lia. }
    rewrite E. set (t := 4096 - start_address r mod 4096) in *.
    assert (Ht : 0 < t < 4096 /\ t <= range_size r /\ (start_address r + t) mod 4096 = 0) by lia.
    clearbody t. rewrite !(wrap64_small (start_address r + t)), !(wrap64_small (range_size r - t)) by lia.
    destruct (Z.eqb_spec ((range_size r - t) mod 4096) 0); simpl; [lia|].
    rewrite wrap64_small by lia. lia.
Qed.

(** Disjointness of ranges, and what it means for a sorted list. *)
Definition disjoint_ranges (l : list PhysicalMemoryRange) : Prop :=
  forall i j r r', i <> j -> l !! i = Some r -> l !! j = Some r' ->
    range_end r <= start_address r' \/ range_end r' <= start_address r.

Definition ordered_ranges (l : list PhysicalMemoryRange) : Prop :=
  forall i j r r', (i < j)%nat -> l !! i = Some r -> l !! j = Some r' ->
    range_size r <> 0 -> range_size r' <> 0 -> range_end r <= start_address r'.

Lemma disjoint_ranges_perm l l' : l' ≡ₚ l -> disjoint_ranges l -> disjoint_ranges l'.
Proof.
  intros HP HD i j r r' Hne Hi Hj.
  apply Permutation_inj in HP as [_ (f & Hf & HL)]. rewrite HL in Hi, Hj.
  eapply (HD (f i) (f j)); try done. by intros ?%Hf.
Qed.

(** Shrinking each range of a sorted, disjoint list keeps the order. *)
Lemma shrunk_ordered (f : PhysicalMemoryRange -> PhysicalMemoryRange) l :
  sorted_by start_address l -> disjoint_ranges l ->
  (forall r, r ∈ l -> range_ok r /\ range_size r <> 0 /\ shrinks r (f r)) ->
  ordered_ranges (f <$> l).
Proof.
  intros HS HD HF i j r r' Hij Hi Hj Hr Hr'.
  apply list_lookup_fmap_Some in Hi as (x & -> & Hi).
  apply list_lookup_fmap_Some in Hj as (y & -> & Hj).
  destruct (HF x) as (Ox & Nx & [_ [?|Sx]]); [by eapply list_elem_of_lookup_2|done|].
  destruct (HF y) as (Oy & Ny & [_ [?|Sy]]); [by eapply list_elem_of_lookup_2|done|].
  pose proof (HS i j x y Hij Hi Hj).
  destruct (HD i j x y) as [?|?]; [lia|done|done|lia|].
  unfold range_ok, range_end in *. lia.
Qed.

Lemma fill_ranges_keeps {S} items buf (s : S) :
  (exists buf', fill_ranges items buf s = Ok (buf', s)) \/ fill_ranges items buf s = Panic FREE_MEM_BOOTLOADER_ERROR.
Proof.
  revert buf. induction items as [|m items IH]; intros buf; cbn [fill_ranges]; [left; by exists buf|].
  destruct (usable_item m); [|apply IH]. destruct (_ =? _); cbn [when]; [by right|]. rewrite (bind_ok _ _ _ tt s) by done. apply IH.
Qed.

(** What each range goes through in [free_mem_bootloader]. *)
Definition trim (d : BootLoaderData) (r : PhysicalMemoryRange) : PhysicalMemoryRange :=
  align_range (cut_first_MB (cut_used_frames d r)).

Definition trim_safe (d : BootLoaderData) (r : PhysicalMemoryRange) : Prop :=
  range_ok r /\ frames_inside d r /\ align_safe (cut_first_MB (cut_used_frames d r)).

Lemma trim_spec d r :
  trim_safe d r -> range_size r <> 0 ->
  shrinks r (trim d r) /\ range_size (trim d r) mod PAGE_SIZE = 0 /\
  (range_size (trim d r) <> 0 ->
     start_address (trim d r) mod PAGE_SIZE = 0 /\ MB <= start_address (trim d r) /\
     (frame_alloc_item_base d = start_address r -> first_frame_address d <= start_address (trim d r))).
Proof.
  intros (Hr & Hf & Ha) Hn. unfold trim.
  pose proof (cut_used_frames_shrinks d r Hr Hn Hf) as S1.
  pose proof (cut_first_MB_shrinks _ (proj1 S1)) as S2.
  destruct (align_range_spec _ (proj1 S2) Ha) as (S3 & H3 & H4 & H5 & _).
  split; [by eapply shrinks_trans; [exact S1|eapply shrinks_trans]|]. split; [done|].
  intros Hz. split; [by apply H5|].
  assert (Hz2 : range_size (cut_first_MB (cut_used_frames d r)) <> 0).
  { destruct S3 as [_ [?|(_ & _ & ?)]]; [done|done]. }
  destruct (cut_first_MB_above _ (proj1 S1)) as [?|HM]; [done|]. split; [lia|].
  intros E. destruct S2 as [_ [?|(? & _)]]; [done|].
  assert (start_address (cut_used_frames d r) = first_frame_address d); [|lia].
  unfold cut_used_frames. by rewrite (proj2 (Z.eqb_eq _ _) E).
Qed.

(** The page at [a] lies in the range. *)
Definition holds_page (r : PhysicalMemoryRange) (a : Z) : Prop :=
  start_address r <= a /\ a + PAGE_SIZE <= range_end r.

Lemma align_range_holds r a :
  range_ok r -> align_safe r -> a mod PAGE_SIZE = 0 -> holds_page r a -> holds_page (align_range r) a.
Proof.
  unfold holds_page, align_safe, align_range, range_ok, range_end, PAGE_SIZE. intros ? HA Ha [H1 H2].
  destruct (Z.eqb_spec (range_size r) 0); [simpl; lia|]. destruct HA as [|HA]; [lia|].
  destruct (Z.eqb_spec (start_address r mod 4096) 0); simpl.
  - destruct (Z.eqb_spec (range_size r mod 4096) 0); simpl; [lia|]. rewrite wrap64_small by lia. lia.
  - rewrite (wrap64_small (- (start_address r mod 4096) + 4096)) by lia.
    set (t := - (start_address r mod 4096) + 4096) in *.
    assert (Ht : 0 < t < 4096 /\ t <= range_size r /\ (start_address r + t) mod 4096 = 0) by lia.
    clearbody t. rewrite !(wrap64_small (start_address r + t)), !(wrap64_small (range_size r - t)) by lia.
    destruct (Z.eqb_spec ((range_size r - t) mod 4096) 0); simpl; [lia|]. rewrite wrap64_small by lia. lia.
Qed.

(** Nothing else is lost: a page of the range survives the trimming when it is above
    the first megabyte and not among the frames the bootloader used. *)
Lemma trim_holds d r a :
  trim_safe d r -> range_size r <> 0 -> a mod PAGE_SIZE = 0 -> holds_page r a -> MB <= a ->
  (frame_alloc_item_base d = start_address r -> first_frame_address d <= a) ->
  holds_page (trim d r) a.
Proof.
  intros (Hr & Hf & Ha) Hn Hm HP HM HB. unfold trim.
  pose proof (cut_used_frames_shrinks d r Hr Hn Hf) as S1.
  pose proof (cut_first_MB_shrinks _ (proj1 S1)) as S2.
  assert (P1 : holds_page (cut_used_frames d r) a).
  { clear S1 S2 Ha Hm. unfold holds_page, frames_inside, cut_used_frames, range_ok, range_end, PAGE_SIZE in *.
    destruct (Z.eqb_spec (frame_alloc_item_base d) (start_address r)) as [E|]; [|done].
    specialize (Hf E). specialize (HB E). simpl. unwrap. lia. }
  apply align_range_holds; [apply S2|done|done|].
  clear Ha Hm S2 HP HB Hf. destruct S1 as [Hr1 _]. set (r1 := cut_used_frames d r) in *. clearbody r1.
  unfold holds_page, cut_first_MB, range_ok, range_end, PAGE_SIZE in *.
  destruct (Z.ltb_spec (start_address r1) MB); [|done]. rewrite (wrap64_small (start_address r1 + range_size r1)) by lia.
  unfold MB in *. destruct (Z.ltb_spec (1024 * 1024) (start_address r1 + range_size r1)); simpl; [|lia].
  rewrite wrap64_small by lia. lia.
Qed.

Lemma usable_ranges_nonzero items r : r ∈ usable_ranges items -> range_size r <> 0.
Proof.
  unfold usable_ranges. intros (m & -> & Hm)%list_elem_of_fmap.
  apply list_elem_of_In, filter_In in Hm as [_ Hm]. unfold usable_item in Hm.
  apply andb_true_iff in Hm as [_ Hm%negb_true_iff%Z.eqb_neq]. done.
Qed.

Lemma map_trim d (l : list PhysicalMemoryRange) :
  align_range <$> (cut_first_MB <$> (cut_used_frames d <$> l)) = trim d <$> l.
Proof. by rewrite <-!list_fmap_compose. Qed.

(** C12: For at most as many usable ranges as the array holds, disjoint and none
    smaller than the part cut off when it is aligned (trim_safe; a smaller one
    underflows to almost 2^64 bytes at bootloader_data.c:141), free_mem_bootloader
    returns as many ranges, ordered, each empty or page aligned, above the first MB,
    inside a usable range and beyond the frames the bootloader used; every page that
    lies in a usable range, above the first MB and beyond these frames lies in a
    returned range; and the result is cached. *)
Theorem free_mem_bootloader_correct s :
  let d := boot_data s in
  let us := usable_ranges (map_items d) in
  free_ranges_buffered s = None -> Z.of_nat (length us) <= MAX_PHYSICAL_MEMORY_RANGES ->
  Forall (trim_safe d) us -> disjoint_ranges us ->
  exists l s', free_mem_bootloader s = Ok (l, s') /\ free_ranges_buffered s' = Some l /\
    length l = length us /\ ordered_ranges l /\
    (forall r', r' ∈ l -> range_size r' mod PAGE_SIZE = 0 /\
       (range_size r' <> 0 -> start_address r' mod PAGE_SIZE = 0 /\ MB <= start_address r' /\
          exists r, r ∈ us /\ start_address r <= start_address r' /\ range_end r' <= range_end r /\
            (frame_alloc_item_base d = start_address r ->
               first_frame_address d <= start_address r'))) /\
    (forall r a, r ∈ us -> a mod PAGE_SIZE = 0 -> holds_page r a -> MB <= a ->
       (frame_alloc_item_base d = start_address r -> first_frame_address d <= a) ->
       exists r', r' ∈ l /\ holds_page r' a).
Proof.
  intros d us HB HL HS HD. rewrite Forall_forall in HS.
  destruct (bubble_sort_settled start_address us) as [HP HSo].
  assert (HF : forall r, r ∈ bubble_sort start_address us ->
    trim_safe d r /\ range_size r <> 0 /\ r ∈ us).
  { intros r Hr. rewrite <-HP in Hr. split_and!; [by apply HS|by eapply usable_ranges_nonzero|done]. }
  eexists (trim d <$> bubble_sort start_address us), _. split_and!.
  - unfold free_mem_bootloader. rewrite (bind_ok _ _ _ _ _ (eq_refl : get s = Ok (s, s))), HB.
    fold d. unfold us, usable_ranges in HL. rewrite length_fmap in HL.
    rewrite (bind_ok _ _ _ _ _ (fill_ranges_ok _ [] s HL)). fold us.
    rewrite map_trim. reflexivity.
  - done.
  - rewrite length_fmap. symmetry. by apply Permutation_length.
  - apply shrunk_ordered; [done|by eapply disjoint_ranges_perm|].
    intros r Hr. destruct (HF r Hr) as (H1 & H2 & _). split_and!; [apply H1|done|by apply trim_spec].
  - intros r' (r & -> & Hr)%list_elem_of_fmap. destruct (HF r Hr) as (H1 & H2 & H3).
    destruct (trim_spec d r H1 H2) as (HSh & Hz & HT). split; [done|]. intros Hn.
    destruct (HT Hn) as (? & ? & ?). split_and!; try done. exists r.
    destruct HSh as [_ [?|(? & ? & _)]]; done.
  - intros r a Hr Ha Hh HM HBase. exists (trim d r). split.
    + apply list_elem_of_fmap. exists r. split; [done|]. by rewrite <-HP.
    + apply trim_holds; try done; [by apply HS|by eapply usable_ranges_nonzero].
Qed.

(** What a call leaves in the static data, whether it fills the buffer or not. *)
Lemma free_mem_buffers s l s' :
  free_mem_bootloader s = Ok (l, s') ->
  boot_data s' = boot_data s /\ ram_ranges s' = ram_ranges s /\ memory_map s' = memory_map s /\
  free_ranges_buffered s' = Some l.
Proof.
  unfold free_mem_bootloader. rewrite (bind_ok _ _ _ _ _ (eq_refl : get s = Ok (s, s))).
  destruct (free_ranges_buffered s) as [l0|] eqn:E; [by intros [= <- <-]|].
  destruct (fill_ranges_keeps (map_items (boot_data s)) [] s) as [[buf R]|R].
  - rewrite (bind_ok _ _ _ _ _ R). by intros [= <- <-].
  - unfold bind at 1. by rewrite R.
Qed.

(** Too many usable ranges stop the boot. *)
Theorem free_mem_bootloader_too_many s :
  free_ranges_buffered s = None ->
  MAX_PHYSICAL_MEMORY_RANGES < Z.of_nat (length (usable_ranges (map_items (boot_data s)))) ->
  free_mem_bootloader s = Panic FREE_MEM_BOOTLOADER_ERROR.
Proof.
  intros HB HL. unfold free_mem_bootloader.
  rewrite (bind_ok _ _ _ _ _ (eq_refl : get s = Ok (s, s))), HB.
  unfold usable_ranges in HL. rewrite length_fmap in HL.
  unfold bind at 1.
  rewrite (fill_ranges_panic _ [] s); [done|unfold MAX_PHYSICAL_MEMORY_RANGES; simpl; lia|exact HL].
Qed.

Theorem get_memory_map_sorted s :
  memory_map s = None -> Z.of_nat (length (map_items (boot_data s))) <= MAX_PHYSICAL_MEMORY_RANGES ->
  exists l s', get_memory_map s = Ok (l, s') /\ memory_map s' = Some l /\
    l ≡ₚ translate_item <$> map_items (boot_data s) /\ sorted_by mm_start l.
Proof.
  intros HB HL.
  destruct (bubble_sort_settled mm_start (translate_item <$> map_items (boot_data s))) as [HP HS].
  set (l := bubble_sort mm_start _) in *.
  exists l, (MkBoot (boot_data s) (ram_ranges s) (free_ranges_buffered s) (Some l)).
  split_and!; [|done|symmetry; exact HP|exact HS].
  unfold get_memory_map. rewrite (bind_ok _ _ _ _ _ (eq_refl : get s = Ok (s, s))), HB.
  cbv zeta. destruct (Z.ltb_spec MAX_PHYSICAL_MEMORY_RANGES (Z.of_nat (length (map_items (boot_data s)))));
    [lia|]. reflexivity.
Qed.

(** ** Concrete maps *)

(** A usual PC map: low memory, the hole, and two ranges above. *)
Definition pc_map : boot_state := MkBoot
  (MkBootData [MkItem 0x100000000 0x40000000 1 1; MkItem 0 0x9fc00 1 1;
               MkItem 0x9fc00 0x60400 2 1; MkItem 0x100000 0x7fee0000 1 1]
     0x1000000 0x100000 0x20000)
  None None None.

Lemma disjoint_dec l :
  forallb (fun i => forallb (fun j => (i =? j)%nat ||
     match l !! i, l !! j with
     | Some r, Some r' => (range_end r <=? start_address r') || (range_end r' <=? start_address r)
     | _, _ => true end) (seq 0 (length l))) (seq 0 (length l)) = true -> disjoint_ranges l.
Proof.
  rewrite forallb_forall. intros H i j r r' Hne Hi Hj.
  assert (In i (seq 0 (length l))) as Ii by (apply in_seq; apply lookup_lt_Some in Hi; lia).
  assert (In j (seq 0 (length l))) as Ij by (apply in_seq; apply lookup_lt_Some in Hj; lia).
  specialize (H i Ii). rewrite forallb_forall in H. specialize (H j Ij).
  rewrite Hi, Hj, (proj2 (Nat.eqb_neq i j)) in H by done. simpl in H.
  apply orb_true_iff in H as [H%Z.leb_le|H%Z.leb_le]; auto.
Qed.

Lemma free_mem_bootloader_correct_witness :
  exists l s', free_mem_bootloader pc_map = Ok (l, s') /\ ordered_ranges l.
Proof.
  destruct (free_mem_bootloader_correct pc_map) as (l & s' & R & _ & _ & HO & _).
  - reflexivity.
  - by vm_compute.
  - repeat constructor; try (by vm_compute); try (by right; vm_compute); by left.
  - apply disjoint_dec. reflexivity.
  - exists l, s'. split; [exact R|exact HO].
Defined.

Lemma free_mem_bootloader_too_many_witness :
  free_mem_bootloader (MkBoot (MkBootData (replicate 129 (MkItem 0 1 1 1)) 0 1 0) None None None)
    = Panic FREE_MEM_BOOTLOADER_ERROR.
Proof. apply free_mem_bootloader_too_many; [reflexivity|by vm_compute]. Defined.

Lemma get_memory_map_sorted_witness :
  exists l s', get_memory_map pc_map = Ok (l, s') /\ sorted_by mm_start l.
Proof.
  destruct (get_memory_map_sorted pc_map) as (l & s' & R & _ & _ & HS);
    [reflexivity|by vm_compute|]. exists l, s'. split; [exact R|exact HS].
Defined.

(** A usable range that ends before the next page boundary: its size wraps
    around to almost the whole address space. *)
Theorem free_mem_tiny_range_underflow :
  free_mem_bootloader
    (MkBoot (MkBootData [MkItem 0x200010 0x20 1 1] 0x1000000 0x100000 0) None None None) =
  Ok ([MkRange 0x201000 0xfffffffffffff000],
      MkBoot (MkBootData [MkItem 0x200010 0x20 1 1] 0x1000000 0x100000 0) None
        (Some [MkRange 0x201000 0xfffffffffffff000]) None).
Proof. reflexivity. Qed.
