(* ===== verification/FrameAllocator.v ===== *)
(** * The physical frame allocator (mem/frame_allocator.c)

    Free frames come from two places: the memory ranges left by the bootloader,
    consumed from their start, and a stack of frames given back, which lives in
    physical memory carved out of one of the ranges.  The abstract view is the
    list of free frames; [fa_inv U s] says they are distinct frames of the set
    [U] that was available at initialisation and that the stack has room for all
    of them. *)

From S2P Require Import Prelude Memory Sync Interfaces BootMem.
Import Sequential.

Record FrameStack : Type := MkFrameStack {
  stack_base : Z; stack_top : Z; max_size_bytes : Z
}.

Record frame_state : Type := MkFrameState {
  fs_mem : mem;
  fs_if : bool;
  hal_initialized : bool;
  fs_boot : boot_state;
  fa_initialized : bool;
  fa_ranges : list PhysicalMemoryRange;
  frame_stack : FrameStack;
  cached_memory_range_index : nat;
  free_frames : Z;
  fa_lock : bool
}.

Definition fs_lock_lens : lens frame_state bool :=
  Lens fa_lock (fun b s => MkFrameState (fs_mem s) (fs_if s) (hal_initialized s) (fs_boot s)
    (fa_initialized s) (fa_ranges s) (frame_stack s) (cached_memory_range_index s)
    (free_frames s) b).
Definition fs_if_lens : lens frame_state bool :=
  Lens fs_if (fun b s => MkFrameState (fs_mem s) b (hal_initialized s) (fs_boot s)
    (fa_initialized s) (fa_ranges s) (frame_stack s) (cached_memory_range_index s)
    (free_frames s) (fa_lock s)).
Definition fs_boot_lens : lens frame_state boot_state :=
  Lens fs_boot (fun b s => MkFrameState (fs_mem s) (fs_if s) (hal_initialized s) b
    (fa_initialized s) (fa_ranges s) (frame_stack s) (cached_memory_range_index s)
    (free_frames s) (fa_lock s)).
Definition set_fs_mem (m : mem) (s : frame_state) : frame_state :=
  MkFrameState m (fs_if s) (hal_initialized s) (fs_boot s) (fa_initialized s) (fa_ranges s)
    (frame_stack s) (cached_memory_range_index s) (free_frames s) (fa_lock s).
Definition set_initialized (b : bool) (s : frame_state) : frame_state :=
  MkFrameState (fs_mem s) (fs_if s) (hal_initialized s) (fs_boot s) b (fa_ranges s)
    (frame_stack s) (cached_memory_range_index s) (free_frames s) (fa_lock s).
(** [free_memory.free_ranges] points to the static buffer of
    [free_mem_bootloader]: an update is seen through both names. *)
Definition set_ranges (l : list PhysicalMemoryRange) (s : frame_state) : frame_state :=
  MkFrameState (fs_mem s) (fs_if s) (hal_initialized s)
    (MkBoot (boot_data (fs_boot s)) (ram_ranges (fs_boot s)) (Some l) (memory_map (fs_boot s)))
    (fa_initialized s) l (frame_stack s) (cached_memory_range_index s) (free_frames s) (fa_lock s).
Definition set_stack (st : FrameStack) (s : frame_state) : frame_state :=
  MkFrameState (fs_mem s) (fs_if s) (hal_initialized s) (fs_boot s) (fa_initialized s)
    (fa_ranges s) st (cached_memory_range_index s) (free_frames s) (fa_lock s).
Definition set_cached (i : nat) (s : frame_state) : frame_state :=
  MkFrameState (fs_mem s) (fs_if s) (hal_initialized s) (fs_boot s) (fa_initialized s)
    (fa_ranges s) (frame_stack s) i (free_frames s) (fa_lock s).
Definition set_free_frames (n : Z) (s : frame_state) : frame_state :=
  MkFrameState (fs_mem s) (fs_if s) (hal_initialized s) (fs_boot s) (fa_initialized s)
    (fa_ranges s) (frame_stack s) (cached_memory_range_index s) n (fa_lock s).

(** ** The frame stack *)

Definition make_frame_stack (addr size : Z) : FrameStack := MkFrameStack addr addr size.

Definition is_frame_stack_valid (st : FrameStack) : bool :=
  negb (max_size_bytes st =? 0) && negb (stack_base st =? NULL) && negb (stack_top st =? NULL) &&
  (stack_base st <=? stack_top st).

Definition frame_stack_size_bytes (st : FrameStack) : Z :=
  wrap64 (stack_top st - stack_base st).

Definition frame_stack_count (st : FrameStack) : Z := frame_stack_size_bytes st / 8.

Definition frame_stack_pop : M frame_state Z :=
  st <- gets frame_stack;;
  when (frame_stack_count st <=? 0) (kpanic FRAME_ALLOCATOR_ERROR);;
  let top := wrap64 (stack_top st - 8) in
  modify (set_stack (MkFrameStack (stack_base st) top (max_size_bytes st)));;
  gets (fun s => load64 (fs_mem s) top).

Definition frame_stack_push (new_value : Z) : M frame_state unit :=
  st <- gets frame_stack;;
  when (max_size_bytes st <? wrap64 (frame_stack_size_bytes st + 8))
    (kpanic FRAME_ALLOCATOR_ERROR);;
  modify (fun s => set_fs_mem (store64 (fs_mem s) (stack_top st) new_value) s);;
  modify (set_stack (MkFrameStack (stack_base st) (wrap64 (stack_top st + 8)) (max_size_bytes st))).

(** ** Initialisation *)

Definition first_bootstage_unusable_addr : Z :=
  wrap64 (start_address get_bootstage_indentity_mapped_RAM +
          range_size get_bootstage_indentity_mapped_RAM).

(** [n] bytes from the start of the range are usable before paging is set up. *)
Definition usable_in_bootstage (n : Z) (r : PhysicalMemoryRange) : bool :=
  (wrap64 (start_address r + n) <? first_bootstage_unusable_addr) &&
  (start_address get_bootstage_indentity_mapped_RAM <=? start_address r).

Definition is_large_enough (n : Z) (r : PhysicalMemoryRange) : bool := n <=? range_size r.

(** [for(i = 0; i < number_of_ranges && !range_found; i++) if(p(ranges[i])) ...] *)
Fixpoint find_range (p : PhysicalMemoryRange -> bool) (i : nat) (l : list PhysicalMemoryRange) :
    option nat :=
  match l with
  | [] => None
  | r :: l' => if p r then Some i else find_range p (S i) l'
  end.

Definition consume (n : Z) (r : PhysicalMemoryRange) : PhysicalMemoryRange :=
  MkRange (wrap64 (start_address r + n)) (wrap64 (range_size r - n)).

(** Bytes for a stack of every frame, an extra page, rounded up to a page. *)
Definition needed_bytes (usable_ram_size : Z) : Z :=
  let n := wrap64 (usable_ram_size / PAGE_SIZE * 8) in
  let n := wrap64 (n + PAGE_SIZE) in
  wrap64 (n + (- (n mod PAGE_SIZE) + PAGE_SIZE)).

Definition count_frames (l : list PhysicalMemoryRange) (n : Z) : Z :=
  foldl (fun acc r => wrap64 (acc + range_size r / PAGE_SIZE)) n l.

Definition init_frame_allocator : M frame_state unit :=
  init_spinlock fs_lock_lens;;
  modify (set_initialized true);;
  ranges <- zoom fs_boot_lens free_mem_bootloader;;
  modify (set_ranges ranges);;
  needed <- gets (fun s => needed_bytes (get_total_usable_RAM_size (fs_boot s)));;
  let found := find_range (fun r => is_large_enough needed r && usable_in_bootstage needed r) 0 ranges in
  match found with
  | Some i =>
      modify (set_cached i);;
      modify (set_stack (make_frame_stack (start_address (ranges !!! i)) needed));;
      modify (set_ranges (alter (consume needed) i ranges))
  | None => ret tt
  end;;
  modify (fun s => set_free_frames (count_frames (fa_ranges s) (free_frames s)) s);;
  match found with
  | Some _ => ret tt
  | None => kpanic FRAME_ALLOCATOR_ERROR
  end.

(** ** Allocation *)

(** Take the first frame of the cached range. *)
Definition take_cached : M frame_state Z :=
  i <- gets cached_memory_range_index;;
  r <- gets (fun s => fa_ranges s !!! i);;
  modify (fun s => set_ranges (alter (consume PAGE_SIZE) i (fa_ranges s)) s);;
  ret (start_address r).

(** Look for a range to cache, then take its first frame. *)
Definition search_and_take (p : PhysicalMemoryRange -> bool) : M frame_state Z :=
  ranges <- gets fa_ranges;;
  match find_range p 0 ranges with
  | Some i => modify (set_cached i);; take_cached
  | None => kpanic FRAME_ALLOCATOR_ERROR
  end.

Definition alloc_frame_body : M frame_state Z :=
  st <- gets frame_stack;;
  when (negb (is_frame_stack_valid st)) (kpanic FRAME_ALLOCATOR_ERROR);;
  modify (fun s => set_free_frames (wrap64 (free_frames s - 1)) s);;
  cached <- gets (fun s => fa_ranges s !!! cached_memory_range_index s);;
  hal <- gets hal_initialized;;
  if 0 <? frame_stack_count st then frame_stack_pop
  else if hal : bool then
    if is_large_enough PAGE_SIZE cached then take_cached
    else search_and_take (is_large_enough PAGE_SIZE)
  else
    if is_large_enough PAGE_SIZE cached && usable_in_bootstage PAGE_SIZE cached then take_cached
    else search_and_take (fun r => is_large_enough PAGE_SIZE r && usable_in_bootstage PAGE_SIZE r).

Definition alloc_frame : M frame_state Z :=
  new_frame <- with_spinlock_hard fs_lock_lens fs_if_lens alloc_frame_body;;
  when (new_frame =? NULL) (kpanic FRAME_ALLOCATOR_ERROR);;
  ret new_frame.

Definition dealloc_frame (paddr : Z) : M frame_state unit :=
  with_spinlock_hard fs_lock_lens fs_if_lens
    (modify (fun s => set_free_frames (wrap64 (free_frames s + 1)) s);;
     frame_stack_push paddr).

Definition get_number_of_free_frames : M frame_state Z :=
  with_spinlock_hard fs_lock_lens fs_if_lens (gets free_frames).

Definition get_frame_allocator_mem_overhead : M frame_state Z :=
  with_spinlock_hard fs_lock_lens fs_if_lens
    (st <- gets frame_stack;;
     when (negb (is_frame_stack_valid st)) (kpanic FRAME_ALLOCATOR_ERROR);;
     ret (max_size_bytes st)).

(** ** The free frames *)

Definition range_frames (r : PhysicalMemoryRange) : list Z :=
  (fun k => start_address r + PAGE_SIZE * Z.of_nat k) <$> seq 0 (Z.to_nat (range_size r / PAGE_SIZE)).

Definition ranges_frames (l : list PhysicalMemoryRange) : list Z := concat (range_frames <$> l).

Definition stack_frames (m : mem) (st : FrameStack) : list Z :=
  (fun k => load64 m (stack_base st + 8 * Z.of_nat k)) <$>
    seq 0 (Z.to_nat ((stack_top st - stack_base st) / 8)).

Definition frames (s : frame_state) : list Z :=
  stack_frames (fs_mem s) (frame_stack s) ++ ranges_frames (fa_ranges s).

Record stack_ok (st : FrameStack) : Prop := {
  so_base : 0 < stack_base st;
  so_top : stack_base st <= stack_top st <= stack_base st + max_size_bytes st;
  so_mod : (stack_top st - stack_base st) mod 8 = 0;
  so_max : 0 < max_size_bytes st /\ max_size_bytes st mod 8 = 0;
  so_end : stack_base st + max_size_bytes st + 8 < 2 ^ 64
}.

(** A range from which frames can be taken. *)
Definition range_wf (r : PhysicalMemoryRange) : Prop :=
  0 <= start_address r /\ 0 <= range_size r /\ range_size r mod PAGE_SIZE = 0 /\
  start_address r + range_size r < 2 ^ 63 /\ (range_size r <> 0 -> 0 < start_address r).

Record fa_inv (U : list Z) (s : frame_state) : Prop := {
  fi_stack : stack_ok (frame_stack s);
  fi_ranges : Forall range_wf (fa_ranges s);
  fi_cached : (cached_memory_range_index s < length (fa_ranges s))%nat;
  fi_nodup : NoDup (frames s);
  fi_univ : forall f, f ∈ frames s -> f ∈ U;
  fi_pos : forall f, f ∈ U -> 0 < f < 2 ^ 64;
  fi_room : 8 * Z.of_nat (length U) <= max_size_bytes (frame_stack s);
  fi_count : free_frames s = Z.of_nat (length (frames s))
}.

(** ** Taking from a range *)

Lemma range_frames_consume r :
  range_wf r -> PAGE_SIZE <= range_size r ->
  range_frames r = start_address r :: range_frames (consume PAGE_SIZE r) /\
  range_wf (consume PAGE_SIZE r).
Proof.
  unfold range_wf, range_frames, consume, PAGE_SIZE. intros (? & ? & ? & ? & ?) ?.
  cbn [start_address range_size]. rewrite !wrap64_small by lia. split; [|lia].
  replace (Z.to_nat (range_size r / 4096)) with (S (Z.to_nat ((range_size r - 4096) / 4096))) by lia.
  cbn [seq fmap list_fmap]. f_equal; [lia|]. rewrite <-seq_shift.
  rewrite <-list_fmap_compose. apply list_fmap_ext. intros i k _. simpl. lia.
Qed.

Lemma ranges_frames_alter l i r :
  Forall range_wf l -> l !! i = Some r -> PAGE_SIZE <= range_size r ->
  ranges_frames l ≡ₚ start_address r :: ranges_frames (alter (consume PAGE_SIZE) i l) /\
  Forall range_wf (alter (consume PAGE_SIZE) i l).
Proof.
  intros W Hi Hr. apply list_elem_of_split_length in Hi as (l1 & l2 & -> & ->).
  rewrite <-(Nat.add_0_r (length l1)), alter_app_r. cbn [alter list_alter].
  rewrite Forall_app, Forall_cons in W |- *. destruct W as (W1 & Wr & W2).
  destruct (range_frames_consume r Wr Hr) as [E Wc]. split; [|done].
  unfold ranges_frames. rewrite !fmap_app, !concat_app. cbn [fmap list_fmap concat].
  rewrite E. solve_Permutation.
Qed.

Lemma find_range_some p i l k :
  find_range p i l = Some k -> exists j r, k = (i + j)%nat /\ l !! j = Some r /\ p r = true.
Proof.
  revert i. induction l as [|x l IH]; intros i; simpl; [done|].
  destruct (p x) eqn:E.
  - intros [= <-]. exists 0%nat, x. split; [lia|done].
  - intros (j & r & -> & Hj & Hr)%IH. exists (S j), r. split; [lia|done].
Qed.

Lemma find_range_first p i l k :
  find_range p i l = Some k -> forall j r, (i + j < k)%nat -> l !! j = Some r -> p r = false.
Proof.
  revert i. induction l as [|x l IH]; intros i; simpl; [done|]. destruct (p x) eqn:E.
  - intros [= <-] j r Hj. lia.
  - intros Hk [|j] r Hj Hl; [by injection Hl as <-|]. apply (IH _ Hk j); [lia|done].
Qed.

Lemma find_range_none p i l : find_range p i l = None -> Forall (fun r => p r = false) l.
Proof.
  revert i. induction l as [|x l IH]; intros i; simpl; [constructor|].
  destruct (p x) eqn:E; [done|]. intros H. constructor; [done|]. by eapply IH.
Qed.

Lemma find_range_is_some p l r : r ∈ l -> p r = true -> exists k, find_range p 0 l = Some k.
Proof.
  intros Hr Hp. destruct (find_range p 0 l) eqn:E; [eauto|].
  apply find_range_none in E. rewrite Forall_forall in E. rewrite E in Hp by done. done.
Qed.

(** ** The stack *)

Lemma stack_count_ok st : stack_ok st -> frame_stack_count st = (stack_top st - stack_base st) / 8.
Proof.
  intros []. unfold frame_stack_count, frame_stack_size_bytes. rewrite wrap64_small by lia. done.
Qed.

Lemma stack_valid_ok st : stack_ok st -> is_frame_stack_valid st = true.
Proof.
  intros []. unfold is_frame_stack_valid, NULL. rewrite !andb_true_iff, !negb_true_iff, !Z.eqb_neq, Z.leb_le.
  lia.
Qed.

Definition popped (st : FrameStack) : FrameStack :=
  MkFrameStack (stack_base st) (stack_top st - 8) (max_size_bytes st).
Definition pushed (st : FrameStack) : FrameStack :=
  MkFrameStack (stack_base st) (stack_top st + 8) (max_size_bytes st).

Lemma stack_frames_pop m st :
  stack_ok st -> 0 < (stack_top st - stack_base st) / 8 ->
  stack_frames m st = stack_frames m (popped st) ++ [load64 m (stack_top st - 8)] /\
  stack_ok (popped st).
Proof.
  intros [] H. unfold stack_frames, popped. simpl. split; [|split; simpl; lia].
  replace (Z.to_nat ((stack_top st - stack_base st) / 8)) with
    (S (Z.to_nat ((stack_top st - 8 - stack_base st) / 8))) by lia.
  rewrite seq_S, fmap_app. simpl. do 3 f_equal. lia.
Qed.

Lemma stack_frames_push m st v :
  stack_ok st -> stack_top st - stack_base st + 8 <= max_size_bytes st -> 0 <= v < 2 ^ 64 ->
  stack_frames (store64 m (stack_top st) v) (pushed st) = stack_frames m st ++ [v] /\
  stack_ok (pushed st).
Proof.
  intros [] H Hv. unfold stack_frames, pushed. simpl. split; [|split; simpl; lia].
  replace (Z.to_nat ((stack_top st + 8 - stack_base st) / 8)) with
    (S (Z.to_nat ((stack_top st - stack_base st) / 8))) by lia.
  rewrite seq_S, fmap_app. simpl. f_equal.
  - apply list_fmap_ext. intros i k Hk. apply lookup_seq in Hk as [-> Hk].
    apply load64_store64_ne. lia.
  - f_equal. replace (stack_base st + 8 * _) with (stack_top st) by lia.
    by apply load64_store64_eq.
Qed.

(** ** Invariant steps *)

(** Removing [f] from the free frames in any way the allocator does. *)
Lemma fa_inv_take U s s' f :
  fa_inv U s -> frames s ≡ₚ f :: frames s' ->
  stack_ok (frame_stack s') -> Forall range_wf (fa_ranges s') ->
  (cached_memory_range_index s' < length (fa_ranges s'))%nat ->
  max_size_bytes (frame_stack s') = max_size_bytes (frame_stack s) ->
  free_frames s' = wrap64 (free_frames s - 1) ->
  fa_inv U s' /\ f ∈ U /\ f ∉ frames s'.
Proof.
  intros [] HP HS HR HC HM HF. rewrite HP in fi_nodup0. apply NoDup_cons in fi_nodup0 as [Hn ND].
  assert (Hf : f ∈ U) by (apply fi_univ0; rewrite HP; set_solver).
  split_and!; [|done|done]. split; try done.
  - intros g Hg. apply fi_univ0. rewrite HP. set_solver.
  - by rewrite HM.
  - rewrite HF, fi_count0, HP. simpl. rewrite wrap64_small; [lia|].
    split; [lia|]. assert (Hsub : frames s ⊆+ U).
    { apply NoDup_submseteq; [rewrite HP; by apply NoDup_cons|done]. }
    apply submseteq_length in Hsub. rewrite HP in Hsub. simpl in Hsub.
    destruct fi_stack0. lia.
Qed.

(** The parts of the state the invariant is about. *)
Definition same_frames (s s' : frame_state) : Prop :=
  fs_mem s' = fs_mem s /\ fa_ranges s' = fa_ranges s /\ frame_stack s' = frame_stack s /\
  cached_memory_range_index s' = cached_memory_range_index s /\ free_frames s' = free_frames s /\
  hal_initialized s' = hal_initialized s.

Lemma same_frames_inv U s s' : same_frames s s' -> fa_inv U s -> fa_inv U s'.
Proof.
  intros (E1 & E2 & E3 & E4 & E5 & _) []. unfold frames in *.
  split; unfold frames; rewrite ?E1, ?E2, ?E3, ?E4, ?E5; done.
Qed.

(** Some frame can be handed out in the current stage of the boot. *)
Definition takeable (s : frame_state) (r : PhysicalMemoryRange) : bool :=
  is_large_enough PAGE_SIZE r && (hal_initialized s || usable_in_bootstage PAGE_SIZE r).

Definition available (s : frame_state) : Prop :=
  0 < frame_stack_count (frame_stack s) \/ exists r, r ∈ fa_ranges s /\ takeable s r = true.

Lemma take_cached_spec U s r :
  fa_inv U s -> fa_ranges s !! cached_memory_range_index s = Some r -> PAGE_SIZE <= range_size r ->
  let s' := set_ranges (alter (consume PAGE_SIZE) (cached_memory_range_index s) (fa_ranges s)) s in
  take_cached s = Ok (start_address r, s') /\ frames s ≡ₚ start_address r :: frames s' /\
  Forall range_wf (fa_ranges s').
Proof.
  intros HI Hr Hs s'. destruct (ranges_frames_alter _ _ _ (fi_ranges _ _ HI) Hr Hs) as [HP HW].
  split_and!; [|unfold frames; simpl; rewrite HP; solve_Permutation|done].
  unfold take_cached, bind, gets, modify, ret. rewrite (list_lookup_total_correct _ _ _ Hr). done.
Qed.

(** The body of [alloc_frame] takes one frame out of the free ones. *)
Definition took (U : list Z) s f s' : Prop :=
  fa_inv U s' /\ f ∈ U /\ (f ∉ frames s') /\ frames s ≡ₚ f :: frames s' /\
  fa_lock s' = fa_lock s /\ fs_if s' = fs_if s /\ hal_initialized s' = hal_initialized s /\
  fs_mem s' = fs_mem s /\ stack_base (frame_stack s') = stack_base (frame_stack s) /\
  max_size_bytes (frame_stack s') = max_size_bytes (frame_stack s).

Lemma took_range U s s1 r :
  fa_inv U s ->
  s1 = set_cached (cached_memory_range_index s1) (set_free_frames (wrap64 (free_frames s - 1)) s) ->
  fa_ranges s !! cached_memory_range_index s1 = Some r -> PAGE_SIZE <= range_size r ->
  exists s', take_cached s1 = Ok (start_address r, s') /\ took U s (start_address r) s'.
Proof.
  intros HI E Hr Hs.
  assert (Er : fa_ranges s1 = fa_ranges s) by (by rewrite E).
  assert (Hc : (cached_memory_range_index s1 < length (fa_ranges s))%nat) by by eapply lookup_lt_Some.
  destruct (ranges_frames_alter _ _ _ (fi_ranges _ _ HI) Hr Hs) as [HP HW].
  eexists. split.
  { unfold take_cached, bind, gets, modify, ret. rewrite Er, (list_lookup_total_correct _ _ _ Hr).
    reflexivity. }
  set (s' := set_ranges _ s1).
  assert (HF : frames s ≡ₚ start_address r :: frames s').
  { unfold frames, s'. simpl. rewrite HP, E. simpl. solve_Permutation. }
  destruct (fa_inv_take U s s' (start_address r)) as (? & ? & ?); try done.
  - unfold s'. simpl. rewrite E. apply HI.
  - unfold s'. simpl. by rewrite length_alter.
  - unfold s'. simpl. by rewrite E.
  - unfold s'. simpl. by rewrite E.
  - split_and!; try done; unfold s'; simpl; by rewrite E.
Qed.

Lemma took_stack U s :
  fa_inv U s -> 0 < frame_stack_count (frame_stack s) ->
  exists f s', frame_stack_pop (set_free_frames (wrap64 (free_frames s - 1)) s) = Ok (f, s') /\
    took U s f s'.
Proof.
  intros HI Hc. pose proof (fi_stack _ _ HI) as HS. pose proof HS as [].
  pose proof Hc as Hc'. rewrite stack_count_ok in Hc' by done.
  destruct (stack_frames_pop (fs_mem s) _ HS Hc') as [E HS'].
  set (f := load64 (fs_mem s) (stack_top (frame_stack s) - 8)) in *.
  exists f, (set_stack (popped (frame_stack s)) (set_free_frames (wrap64 (free_frames s - 1)) s)).
  split.
  { unfold frame_stack_pop, bind, gets, modify, when. cbn [frame_stack set_free_frames].
    destruct (Z.leb_spec (frame_stack_count (frame_stack s)) 0); [lia|]. unfold ret.
    rewrite wrap64_small by lia. done. }
  set (s' := set_stack _ _).
  assert (HF : frames s ≡ₚ f :: frames s').
  { unfold frames. rewrite E. simpl. solve_Permutation. }
  destruct (fa_inv_take U s s' f) as (? & ? & ?); try done; try apply HI.
Qed.

Lemma search_and_take_spec U s p :
  fa_inv U s -> (forall r, p r = true -> PAGE_SIZE <= range_size r) ->
  (exists r, r ∈ fa_ranges s /\ p r = true) ->
  exists f s', search_and_take p (set_free_frames (wrap64 (free_frames s - 1)) s) = Ok (f, s') /\
    took U s f s'.
Proof.
  intros HI Hp (r0 & Hin & Hr0). destruct (find_range_is_some p _ _ Hin Hr0) as [k Hk].
  destruct (find_range_some _ _ _ _ Hk) as (j & r & -> & Hj & Hr). simpl in Hk.
  set (s1 := set_cached j (set_free_frames (wrap64 (free_frames s - 1)) s)).
  destruct (took_range U s s1 r) as (s' & R & HT); [done|done|done|by apply Hp|].
  exists (start_address r), s'. split; [|done].
  unfold search_and_take, bind at 1, gets. cbn [fa_ranges set_free_frames]. rewrite Hk. exact R.
Qed.

Lemma alloc_frame_body_spec U s :
  fa_inv U s -> available s -> exists f s', alloc_frame_body s = Ok (f, s') /\ took U s f s'.
Proof.
  intros HI HA. pose proof (fi_stack _ _ HI) as HS.
  unfold alloc_frame_body. rewrite (bind_ok _ _ _ (frame_stack s) s) by done.
  rewrite (stack_valid_ok _ HS). cbn [negb when]. rewrite (bind_ok _ _ _ tt s) by done.
  set (s0 := set_free_frames (wrap64 (free_frames s - 1)) s).
  rewrite (bind_ok _ _ _ tt s0) by done.
  destruct (lookup_lt_is_Some_2 _ _ (fi_cached _ _ HI)) as [c Hc].
  rewrite (bind_ok _ _ _ c s0) by (unfold gets; simpl; by rewrite (list_lookup_total_correct _ _ _ Hc)).
  rewrite (bind_ok _ _ _ (hal_initialized s) s0) by done.
  destruct (Z.ltb_spec 0 (frame_stack_count (frame_stack s))); [by apply took_stack|].
  destruct HA as [|(r & Hin & Hr)]; [lia|]. unfold takeable, is_large_enough in Hr.
  assert (HT : is_large_enough PAGE_SIZE c = true ->
    exists f s', take_cached s0 = Ok (f, s') /\ took U s f s').
  { intros Hb. destruct (took_range U s s0 c) as (s' & R & HTk); try done; [|eauto].
    by apply Z.leb_le. }
  destruct (hal_initialized s).
  - destruct (is_large_enough PAGE_SIZE c) eqn:E; [by apply HT|].
    apply search_and_take_spec; [done|by intros ? ?%Z.leb_le|].
    exists r. rewrite andb_true_r in Hr. done.
  - destruct (is_large_enough PAGE_SIZE c && usable_in_bootstage PAGE_SIZE c) eqn:E.
    + apply andb_true_iff in E as [E _]. by apply HT.
    + apply search_and_take_spec; [done|by intros ? [?%Z.leb_le _]%andb_true_iff|].
      exists r. done.
Qed.

(** The whole critical section. *)
Lemma alloc_frame_spec U s :
  fa_inv U s -> fa_lock s = false -> available s ->
  exists f s', alloc_frame s = Ok (f, s') /\ took U s f s'.
Proof.
  intros HI HL HA.
  set (e := put fs_lock_lens true (put fs_if_lens false s)).
  destruct (alloc_frame_body_spec U e) as (f & s1 & R & HI1 & HU & Hn & HP & Hl & Hif & Hh & Hm & Hb & Hx).
  { by eapply same_frames_inv; [|exact HI]. } { done. }
  set (s' := if fs_if s then put fs_if_lens true (put fs_lock_lens false s1)
             else put fs_lock_lens false s1).
  assert (SF : same_frames s1 s') by (unfold s'; by destruct (fs_if s)).
  assert (FF : frames s' = frames s1).
  { destruct SF as (E1 & E2 & E3 & _). unfold frames. by rewrite E1, E2, E3. }
  exists f, s'. split; [|split_and!].
  - unfold alloc_frame. rewrite (bind_ok _ _ _ f s').
    + pose proof (fi_pos _ _ HI f HU).
      destruct (Z.eqb_spec f NULL); [unfold NULL in *; lia|done].
    + rewrite (with_spinlock_hard_run _ _ _ s f s1) by done. done.
  - by eapply same_frames_inv.
  - done.
  - by rewrite FF.
  - by rewrite FF.
  - unfold s'. rewrite HL. by destruct (fs_if s).
  - unfold s'. destruct (fs_if s) eqn:E; [done|]. simpl. by rewrite Hif.
  - unfold s'. by destruct (fs_if s).
  - unfold s'. by destruct (fs_if s).
  - unfold s'. by destruct (fs_if s).
  - unfold s'. by destruct (fs_if s).
Qed.

(** ** Theorems *)

(** C8: While a frame is available alloc_frame returns a frame of the managed set
    that was free, and exactly that frame leaves the free frames; the memory is
    unchanged and the lock is released. *)
Theorem alloc_frame_correct U s :
  fa_inv U s -> fa_lock s = false -> available s ->
  exists f s', alloc_frame s = Ok (f, s') /\ fa_inv U s' /\ f ∈ U /\ (f ∉ frames s') /\
    frames s ≡ₚ f :: frames s' /\ fs_mem s' = fs_mem s /\ fa_lock s' = false /\ fs_if s' = fs_if s.
Proof.
  intros HI HL HA. destruct (alloc_frame_spec U s HI HL HA) as (f & s' & R & HT).
  exists f, s'. rewrite <-HL. unfold took in HT. tauto.
Qed.

Lemma alloc_frame_panics U s :
  fa_inv U s -> fa_lock s = false -> ~ available s ->
  alloc_frame s = Panic FRAME_ALLOCATOR_ERROR.
Proof.
  intros HI HL HA. pose proof (fi_stack _ _ HI) as HS.
  assert (Hr : forall r, r ∈ fa_ranges s -> takeable s r = false).
  { intros r Hin. destruct (takeable s r) eqn:E; [|done]. destruct HA. right. eauto. }
  unfold alloc_frame, bind at 1. erewrite with_spinlock_hard_panic; [done|done|].
  unfold alloc_frame_body. erewrite bind_ok by reflexivity. cbn [frame_stack fs_lock_lens fs_if_lens put].
  rewrite (stack_valid_ok _ HS). cbn [negb when].
  do 4 (erewrite bind_ok by reflexivity). simpl.
  destruct (Z.ltb_spec 0 (frame_stack_count (frame_stack s))); [by destruct HA; left|].
  destruct (lookup_lt_is_Some_2 _ _ (fi_cached _ _ HI)) as [c Hc].
  rewrite (list_lookup_total_correct _ _ _ Hc).
  assert (HN : forall p, (forall r, r ∈ fa_ranges s -> p r = takeable s r) ->
    find_range p 0 (fa_ranges s) = None).
  { intros p Hp. destruct (find_range p 0 (fa_ranges s)) as [k|] eqn:E; [|done].
    destruct (find_range_some _ _ _ _ E) as (j & r & _ & Hj & Hpr).
    apply list_elem_of_lookup_2 in Hj. rewrite Hp, Hr in Hpr by done. done. }
  pose proof (Hr c (list_elem_of_lookup_2 _ _ _ Hc)) as Hcr. unfold takeable in *.
  destruct (hal_initialized s); simpl in *.
  - rewrite andb_true_r in Hcr. rewrite Hcr. unfold search_and_take, bind, gets. simpl.
    rewrite HN; [done|]. intros r _. by rewrite andb_true_r.
  - rewrite Hcr. unfold search_and_take, bind, gets. simpl. by rewrite HN.
Qed.

Theorem alloc_frame_exhausted U s :
  fa_inv U s -> fa_lock s = false -> ~ available s ->
  alloc_frame s = Panic FRAME_ALLOCATOR_ERROR.
Proof. apply alloc_frame_panics. Qed.

Lemma dealloc_frame_spec U s f :
  fa_inv U s -> fa_lock s = false -> f ∈ U -> f ∉ frames s ->
  exists s', dealloc_frame f s = Ok (tt, s') /\ fa_inv U s' /\ frames s' ≡ₚ f :: frames s /\
    fa_lock s' = false /\ fs_if s' = fs_if s /\ available s' /\ hal_initialized s' = hal_initialized s /\
    stack_base (frame_stack s') = stack_base (frame_stack s) /\ max_size_bytes (frame_stack s') = max_size_bytes (frame_stack s) /\
    agree_outside (stack_base (frame_stack s)) (stack_base (frame_stack s) + max_size_bytes (frame_stack s)) (fs_mem s) (fs_mem s').
Proof.
  intros HI HL HU Hn. pose proof HI as [HS HR HC ND HUn HP HRm HCt]. pose proof HS as [].
  pose proof (HP f HU) as Hf.
  (* the stack has room: the free frames and [f] are distinct members of [U] *)
  assert (Hlen : (length (f :: frames s) <= length U)%nat).
  { apply submseteq_length, NoDup_submseteq; [by apply NoDup_cons|].
    intros g [->|Hg]%elem_of_cons; auto. }
  assert (Hroom : stack_top (frame_stack s) - stack_base (frame_stack s) + 8 <=
                  max_size_bytes (frame_stack s)).
  { unfold frames, stack_frames in Hlen. simpl in Hlen.
    rewrite length_app, length_fmap, length_seq in Hlen. lia. }
  destruct (stack_frames_push (fs_mem s) _ f HS Hroom) as [E HS']; [lia|].
  set (e := put fs_lock_lens true (put fs_if_lens false s)).
  set (s1 := set_stack (pushed (frame_stack s))
    (set_fs_mem (store64 (fs_mem s) (stack_top (frame_stack s)) f)
      (set_free_frames (wrap64 (free_frames s + 1)) e))).
  set (s' := if fs_if s then put fs_if_lens true (put fs_lock_lens false s1)
             else put fs_lock_lens false s1).
  assert (SF : same_frames s1 s') by (unfold s'; by destruct (fs_if s)).
  assert (FF : frames s' ≡ₚ f :: frames s).
  { destruct SF as (E1 & E2 & E3 & _). unfold frames. rewrite E1, E2, E3. simpl. rewrite E.
    solve_Permutation. }
  exists s'. split_and!.
  - unfold dealloc_frame, s'. change (fs_if s) with (view fs_if_lens s).
    apply with_spinlock_hard_run; [done|]. fold e.
    unfold frame_stack_push, frame_stack_size_bytes, bind, gets, modify, when. simpl.
    rewrite !(wrap64_small (_ - _)), (wrap64_small (_ - _ + 8)), (wrap64_small (_ + 8)) by lia.
    destruct (Z.ltb_spec (max_size_bytes (frame_stack s))
      (stack_top (frame_stack s) - stack_base (frame_stack s) + 8)); [lia|]. done.
  - eapply same_frames_inv; [exact SF|]. unfold frames in FF. destruct SF as (E1 & E2 & E3 & _).
    rewrite E1, E2, E3 in FF. split; unfold frames; try done.
    + rewrite FF. by apply NoDup_cons.
    + intros g Hg. rewrite FF in Hg. apply elem_of_cons in Hg as [->|Hg]; auto.
    + rewrite FF. simpl. rewrite HCt. simpl in Hlen. rewrite wrap64_small; unfold frames in *; lia.
  - done.
  - unfold s'. by destruct (fs_if s).
  - unfold s'. by destruct (fs_if s) eqn:E0.
  - left. unfold s'. assert (frame_stack s' = pushed (frame_stack s)) as Es by (unfold s'; by destruct (fs_if s)).
    fold s'. rewrite Es, stack_count_ok by done. simpl. lia.
  - unfold s'. by destruct (fs_if s).
  - unfold s'. by destruct (fs_if s).
  - unfold s'. by destruct (fs_if s).
  - assert (Em : fs_mem s' = store64 (fs_mem s) (stack_top (frame_stack s)) f) by (unfold s'; by destruct (fs_if s)).
    rewrite Em. apply agree_outside_store; [lia|lia|apply agree_outside_refl].
Qed.

Theorem dealloc_frame_correct U s f :
  fa_inv U s -> fa_lock s = false -> f ∈ U -> f ∉ frames s ->
  exists s', dealloc_frame f s = Ok (tt, s') /\ fa_inv U s' /\ frames s' ≡ₚ f :: frames s /\
    fa_lock s' = false /\ fs_if s' = fs_if s /\ available s'.
Proof.
  intros HI HL HU Hn. destruct (dealloc_frame_spec U s f HI HL HU Hn) as (s' & R & H1 & H2 & H3 & H4 & H5 & _).
  exists s'. by split_and!.
Qed.

(** ** Initialisation establishes the invariant *)

Fixpoint sum_sizes (l : list PhysicalMemoryRange) : Z :=
  match l with [] => 0 | r :: l' => range_size r + sum_sizes l' end.

Lemma elem_of_range_frames r f :
  range_wf r -> f ∈ range_frames r ->
  start_address r <= f /\ f + PAGE_SIZE <= range_end r /\ 0 < f < 2 ^ 63 /\ range_size r <> 0.
Proof.
  unfold range_wf, range_frames, range_end, PAGE_SIZE. intros W (k & -> & Hk)%list_elem_of_fmap.
  apply elem_of_seq in Hk. split_and!; try lia.
Qed.

Lemma elem_of_ranges_frames l f : f ∈ ranges_frames l <-> exists r, r ∈ l /\ f ∈ range_frames r.
Proof.
  unfold ranges_frames. rewrite list_elem_of_In, in_concat. split.
  - intros (x & (r & -> & Hr)%list_elem_of_In%list_elem_of_fmap & Hf). exists r.
    split; [done|]. by apply list_elem_of_In.
  - intros (r & Hr & Hf). exists (range_frames r). rewrite <-!list_elem_of_In.
    split; [apply list_elem_of_fmap; eauto|done].
Qed.

Lemma length_range_frames r :
  range_wf r -> PAGE_SIZE * Z.of_nat (length (range_frames r)) = range_size r.
Proof.
  unfold range_wf, range_frames, PAGE_SIZE. intros W. rewrite length_fmap, length_seq. lia.
Qed.

Lemma length_ranges_frames l :
  Forall range_wf l -> PAGE_SIZE * Z.of_nat (length (ranges_frames l)) = sum_sizes l.
Proof.
  induction 1 as [|r l Wr W IH]; [done|]. unfold ranges_frames in *.
  cbn [fmap list_fmap concat sum_sizes]. rewrite length_app. pose proof (length_range_frames r Wr). unfold PAGE_SIZE in *. lia.
Qed.

Lemma ordered_tail r l :
  ordered_ranges (r :: l) ->
  ordered_ranges l /\ forall r', r' ∈ l -> range_size r <> 0 -> range_size r' <> 0 ->
    range_end r <= start_address r'.
Proof.
  intros H. split.
  - intros i j x y Hij Hi Hj. by apply (H (S i) (S j)); [lia|..].
  - intros r' [j Hj]%list_elem_of_lookup. by apply (H 0%nat (S j)); [lia|..].
Qed.

Lemma ranges_frames_nodup l : Forall range_wf l -> ordered_ranges l -> NoDup (ranges_frames l).
Proof.
  induction 1 as [|r l Wr W IH]; intros HO; [constructor|].
  apply ordered_tail in HO as [HO HR]. unfold ranges_frames. simpl. apply NoDup_app. split_and!.
  - unfold range_frames. apply NoDup_fmap_2_strong; [|apply NoDup_seq].
    unfold PAGE_SIZE. intros x y _ _ E. lia.
  - intros f Hf Hf'. apply (elem_of_ranges_frames l) in Hf' as (r' & Hr' & Hf').
    apply elem_of_range_frames in Hf as (? & ? & ? & ?); [|done].
    apply elem_of_range_frames in Hf' as (? & ? & ? & ?); [|by eapply Forall_forall].
    specialize (HR r' Hr'). unfold PAGE_SIZE in *. lia.
  - by apply IH.
Qed.

Lemma count_frames_spec l n :
  Forall range_wf l -> 0 <= n -> n + sum_sizes l < 2 ^ 64 ->
  count_frames l n = n + Z.of_nat (length (ranges_frames l)).
Proof.
  unfold count_frames. intros W. revert n. induction W as [|r l Wr W IH]; intros n Hn Hs; simpl.
  { simpl. lia. }
  pose proof (length_range_frames r Wr). pose proof (length_ranges_frames l W).
  simpl in Hs. pose proof Wr as (? & ? & ? & _). unfold PAGE_SIZE in *.
  rewrite (wrap64_small (n + range_size r / 4096)) by lia.
  rewrite IH by lia. unfold ranges_frames. cbn [fmap list_fmap concat]. rewrite length_app. fold (ranges_frames l). lia.
Qed.

(** Consuming the front of one range. *)
Lemma consume_wf n r :
  range_wf r -> 0 <= n <= range_size r -> n mod PAGE_SIZE = 0 ->
  range_wf (consume n r) /\ start_address (consume n r) = start_address r + n /\
  range_size (consume n r) = range_size r - n.
Proof.
  unfold range_wf, consume, PAGE_SIZE. simpl. intros W ? ?. rewrite !wrap64_small by lia. lia.
Qed.

Lemma alter_consume_wf n i l r :
  Forall range_wf l -> ordered_ranges l -> l !! i = Some r ->
  0 <= n <= range_size r -> n mod PAGE_SIZE = 0 ->
  let l' := alter (consume n) i l in
  Forall range_wf l' /\ ordered_ranges l' /\ sum_sizes l' = sum_sizes l - n /\
  length l' = length l.
Proof.
  intros W HO Hi Hn Hn8 l'. pose proof W as W0. rewrite Forall_lookup in W0.
  destruct (consume_wf n r (W0 _ _ Hi) Hn Hn8) as (Wc & Es & Ez).
  assert (HL : forall k x, l' !! k = Some x -> exists y, l !! k = Some y /\
    start_address y <= start_address x /\ range_end x = range_end y /\
    (range_size x <> 0 -> range_size y <> 0)).
  { intros k x Hk. unfold l' in Hk. rewrite list_lookup_alter in Hk. case_decide; subst.
    - rewrite Hi in Hk. simpl in Hk. simplify_eq. exists r. unfold range_end. rewrite Es, Ez. split_and!; try done; lia.
    - exists x. split_and!; done. }
  split_and!.
  - apply Forall_alter; [done|]. intros x Hx. by simplify_eq.
  - intros a b x y Hab Hx Hy Nx Ny. destruct (HL _ _ Hx) as (x' & Hx' & _ & Ex & Nx').
    destruct (HL _ _ Hy) as (y' & Hy' & Sy & _ & Ny').
    specialize (HO a b x' y' Hab Hx' Hy' (Nx' Nx) (Ny' Ny)). lia.
  - unfold l'. apply list_elem_of_split_length in Hi as (l1 & l2 & -> & ->).
    rewrite <-(Nat.add_0_r (length l1)), alter_app_r. cbn [alter list_alter].
    clear -Ez. induction l1 as [|z l1 IH]; cbn [app sum_sizes]; lia.
  - unfold l'. by rewrite length_alter.
Qed.

Lemma needed_bytes_spec R :
  0 <= R < 2 ^ 60 ->
  let n := needed_bytes R in
  n mod PAGE_SIZE = 0 /\ R / PAGE_SIZE * 8 + PAGE_SIZE < n <= R / PAGE_SIZE * 8 + 2 * PAGE_SIZE.
Proof.
  unfold needed_bytes, PAGE_SIZE. cbv zeta. intros HR. rewrite (wrap64_small (R / 4096 * 8)) by lia.
  rewrite (wrap64_small (R / 4096 * 8 + 4096)) by lia. rewrite wrap64_small by lia. lia.
Qed.

Lemma elem_of_range_frames_iff r f :
  range_wf r -> f ∈ range_frames r <->
    (f - start_address r) mod PAGE_SIZE = 0 /\ start_address r <= f /\ f + PAGE_SIZE <= range_end r.
Proof.
  unfold range_wf, range_frames, range_end, PAGE_SIZE. intros W. rewrite list_elem_of_fmap. split.
  - intros (k & -> & Hk%elem_of_seq). lia.
  - intros (H1 & H2 & H3). exists (Z.to_nat ((f - start_address r) / 4096)). rewrite elem_of_seq. lia.
Qed.

(** The frames left when the first [n] bytes of one range are taken. *)
Lemma consumed_frames n i l r :
  Forall range_wf l -> ordered_ranges l -> l !! i = Some r -> 0 < n <= range_size r -> n mod PAGE_SIZE = 0 ->
  forall f, f ∈ ranges_frames (alter (consume n) i l) <->
    f ∈ ranges_frames l /\ (f + PAGE_SIZE <= start_address r \/ start_address r + n <= f).
Proof.
  intros W HO Hi Hn Hm f. rewrite Forall_lookup in W. pose proof (W _ _ Hi) as Wr.
  destruct (consume_wf n r Wr) as (Wc & Es & Ez); [lia|done|].
  rewrite !elem_of_ranges_frames. split.
  - intros (x & [j Hj]%list_elem_of_lookup & Hf). rewrite list_lookup_alter in Hj. case_decide as E.
    + subst j. rewrite Hi in Hj. injection Hj as <-. apply elem_of_range_frames_iff in Hf; [|done].
      unfold range_end in Hf. rewrite Es, Ez in Hf. split; [|right; lia]. exists r. split; [by eapply list_elem_of_lookup_2|].
      apply elem_of_range_frames_iff; [done|]. unfold range_end. clear -Hf Hn Hm. unfold PAGE_SIZE in *. lia.
    + split; [exists x; split; [by eapply list_elem_of_lookup_2|done]|].
      apply elem_of_range_frames in Hf as (? & ? & ? & ?); [|by eauto].
      destruct (Nat.lt_ge_cases i j) as [Hij|Hij].
      * pose proof (HO i j r x Hij Hi Hj). unfold range_end in *. lia.
      * assert (Hji : (j < i)%nat) by lia. pose proof (HO j i x r Hji Hj Hi). unfold range_end in *. lia.
  - intros ((x & [j Hj]%list_elem_of_lookup & Hf) & Hout). destruct (decide (i = j)) as [<-|E].
    + rewrite Hi in Hj. injection Hj as <-. exists (consume n r). split.
      * eapply (list_elem_of_lookup_2 _ i). by rewrite list_lookup_alter_eq, Hi.
      * apply elem_of_range_frames_iff in Hf; [|done]. apply elem_of_range_frames_iff; [done|].
        unfold range_end in *. rewrite Es, Ez. clear -Hf Hn Hm Hout. unfold PAGE_SIZE in *. lia.
    + exists x. split; [|done]. eapply (list_elem_of_lookup_2 _ j). by rewrite list_lookup_alter_ne.
Qed.

(** The physical memory the stack occupies. *)
Definition stack_area (s : frame_state) : Z * Z :=
  (stack_base (frame_stack s), stack_base (frame_stack s) + max_size_bytes (frame_stack s)).

(** C13: Given the ranges free_mem_bootloader returns (computed or cached), well
    formed, ordered and with one that has room for the frame stack below 1 GB,
    initialisation puts the stack at the start of the first range with room, manages
    exactly the frames of the ranges that do not overlap the stack, all of them free,
    and establishes the invariant of the allocator with the lock free. *)
Theorem init_frame_allocator_correct s l b0 :
  let R := get_total_usable_RAM_size (fs_boot s) in
  let n := needed_bytes R in
  let room r := n <= range_size r /\ start_address r + n < GB in
  free_mem_bootloader (fs_boot s) = Ok (l, b0) -> free_frames s = 0 ->
  Forall range_wf l -> ordered_ranges l -> 0 <= R < 2 ^ 60 -> sum_sizes l <= R ->
  (exists r, r ∈ l /\ room r) ->
  exists s' U i r, init_frame_allocator s = Ok (tt, s') /\ fa_inv U s' /\ frames s' = U /\
    fa_lock s' = false /\ fa_initialized s' = true /\
    l !! i = Some r /\ room r /\ (forall j x, (j < i)%nat -> l !! j = Some x -> ~ room x) /\
    stack_area s' = (start_address r, start_address r + n) /\
    sum_sizes l = n + PAGE_SIZE * Z.of_nat (length U) /\
    (forall f, f ∈ U <-> f ∈ ranges_frames l /\ (f + PAGE_SIZE <= start_address r \/ start_address r + n <= f)).
Proof.
  intros R n room HB HF W HO HR HS (r0 & Hin0 & Hr0).
  destruct (needed_bytes_spec R HR) as [N1 N2]. fold n in N1, N2.
  destruct (free_mem_buffers _ _ _ HB) as (EB1 & EB2 & EB3 & _).
  set (p := fun r => is_large_enough n r && usable_in_bootstage n r).
  assert (Hpr : forall r, r ∈ l -> p r = true <-> room r).
  { intros r Hin. rewrite Forall_forall in W. pose proof (W r Hin) as W0. unfold range_wf in W0.
    unfold p, room, is_large_enough, usable_in_bootstage. rewrite !andb_true_iff, Z.leb_le, Z.ltb_lt, Z.leb_le.
    change first_bootstage_unusable_addr with GB. simpl. unfold PAGE_SIZE in *.
    split; intros HH; rewrite wrap64_small in * by (unfold GB, MB, KB in *; lia); lia. }
  destruct (find_range_is_some p l r0 Hin0 (proj2 (Hpr r0 Hin0) Hr0)) as [k Hk].
  pose proof (find_range_first _ _ _ _ Hk) as Hfst.
  destruct (find_range_some _ _ _ _ Hk) as (i & r & -> & Hi & Hpi). simpl in Hk.
  apply (Hpr r) in Hpi as Hroom; [|by eapply list_elem_of_lookup_2].
  assert (Hr : n <= range_size r) by apply Hroom.
  assert (Wr : range_wf r) by (rewrite Forall_lookup in W; eauto).
  destruct (alter_consume_wf n i l r W HO Hi) as (W' & HO' & HS' & HL'); [unfold PAGE_SIZE in *; lia|done|].
  set (l' := alter (consume n) i l) in *.
  pose proof (length_ranges_frames l' W') as HU.
  set (U := ranges_frames l') in *.
  assert (Hl' : l' !! i = Some (consume n r)) by (unfold l'; by rewrite list_lookup_alter_eq, Hi).
  destruct (consume_wf n r Wr) as (Wc & Es & Ez); [unfold PAGE_SIZE in *; lia|done|].
  pose proof Wr as (Wr1 & Wr2 & Wr3 & Wr4 & Wr5).
  set (b := MkBoot (boot_data b0) (ram_ranges b0) (Some l') (BootMem.memory_map b0)).
  set (s' := MkFrameState (fs_mem s) (fs_if s) (hal_initialized s) b true l'
    (make_frame_stack (start_address r) n) i (count_frames l' 0) false).
  assert (HFr : frames s' = U).
  { unfold frames, s', stack_frames. simpl. by rewrite Z.sub_diag. }
  unfold PAGE_SIZE in *.
  exists s', U, i, r. split_and!; try done.
  - unfold init_frame_allocator, init_spinlock. erewrite bind_ok by reflexivity.
    erewrite bind_ok by reflexivity. erewrite bind_ok.
    2: { unfold zoom. cbn [view fs_boot_lens set_initialized put fs_lock_lens fs_boot]. rewrite HB. reflexivity. }
    erewrite bind_ok by reflexivity. erewrite (bind_ok _ _ _ n) by (unfold gets, n, R, get_total_usable_RAM_size; cbn; by rewrite EB1).
    cbv zeta.
    change (find_range _ 0 l) with (find_range p 0 l). rewrite Hk.
    unfold bind, modify. simpl. rewrite (list_lookup_total_correct _ _ _ Hi), HF. done.
  - split; try done; try (by rewrite HFr).
    + split; simpl; unfold PAGE_SIZE; lia.
    + simpl. rewrite HL'. by eapply lookup_lt_Some.
    + rewrite HFr. by apply ranges_frames_nodup.
    + intros f (x & Hx & Hf)%elem_of_ranges_frames.
      apply elem_of_range_frames in Hf; [lia|by eapply Forall_forall].
    + simpl. lia.
    + rewrite HFr. unfold s'. cbn [free_frames].
      rewrite count_frames_spec by (done || lia). fold U. lia.
  - intros j x Hj Hx Hr'. apply (Hpr x) in Hr'; [|by eapply list_elem_of_lookup_2]. rewrite (Hfst j x Hj Hx) in Hr'. done.
  - lia.
  - apply (consumed_frames n i l r W HO Hi); [unfold PAGE_SIZE; lia|done].
Qed.

(** ** The allocator behind the interface of its clients *)

Definition page_clear (s : frame_state) (f : Z) : Prop :=
  f + PAGE_SIZE <= (stack_area s).1 \/ (stack_area s).2 <= f.

#[export] Instance frame_provider : FrameProvider frame_state := {|
  fp_mem := Lens fs_mem set_fs_mem;
  fp_alloc := alloc_frame;
  fp_dealloc := dealloc_frame
|}.

(** After [initialize_hal], the allocator unlocked, and its frames ordinary
    physical pages away from the frame stack. *)
Definition provider_ok (s : frame_state) : Prop :=
  exists U, fa_inv U s /\ fa_lock s = false /\ hal_initialized s = true /\
    (forall f, f ∈ U -> f mod PAGE_SIZE = 0 /\ f < 2 ^ 48 /\ page_clear s f).

Definition provider_owned (s : frame_state) (f : Z) : Prop := (f ∉ frames s) /\ page_clear s f.

Lemma frames_available s :
  hal_initialized s = true -> Forall range_wf (fa_ranges s) -> stack_ok (frame_stack s) ->
  frames s <> [] -> available s.
Proof.
  intros HH HR HS HF. unfold available. rewrite stack_count_ok by done.
  destruct (decide (0 < (stack_top (frame_stack s) - stack_base (frame_stack s)) / 8)) as [|Hz]; [by left|].
  right. unfold frames, stack_frames in HF.
  replace (Z.to_nat _) with 0%nat in HF by lia. cbn [seq fmap list_fmap app] in HF.
  destruct (ranges_frames (fa_ranges s)) as [|f l] eqn:E; [done|].
  assert (Hf : f ∈ ranges_frames (fa_ranges s)) by (rewrite E; apply list_elem_of_here).
  apply elem_of_ranges_frames in Hf as (r & Hr & Hf). exists r. split; [done|].
  rewrite Forall_forall in HR. pose proof (elem_of_range_frames r f (HR r Hr) Hf) as (H1 & H2 & _).
  unfold takeable, is_large_enough. rewrite HH. cbn [orb]. rewrite andb_true_r. apply Z.leb_le.
  unfold range_end, PAGE_SIZE in *. lia.
Qed.

(** Writing outside the frame stack leaves the free frames alone. *)
Lemma stack_frames_agree m m' st f :
  stack_ok st -> f + PAGE_SIZE <= stack_base st \/ stack_base st + max_size_bytes st <= f ->
  agree_outside f (f + PAGE_SIZE) m m' -> stack_frames m' st = stack_frames m st.
Proof.
  intros [] Hf HA. unfold stack_frames. apply list_fmap_ext. intros i k Hk.
  apply lookup_seq in Hk as [-> Hk]. apply HA. unfold PAGE_SIZE in *. lia.
Qed.

Lemma provider_alloc_ok s f s' :
  provider_ok s -> alloc_frame s = Ok (f, s') ->
  provider_ok s' /\ frames s ≡ₚ f :: frames s' /\ fs_mem s' = fs_mem s /\
  f mod PAGE_SIZE = 0 /\ 0 < f < 2 ^ 48 /\ ~ provider_owned s f /\
  (forall g, provider_owned s' g <-> g = f \/ provider_owned s g).
Proof.
  intros (U & HI & HL & HH & HU) R.
  assert (HA : available s \/ ~ available s).
  { destruct (frames s) eqn:E; [|left; apply frames_available; [done|apply HI|apply HI|congruence]].
    unfold available. rewrite stack_count_ok by apply HI.
    right. unfold frames in E. apply app_eq_nil in E as [E1 E2]. intros [Hc|(r & Hr & Ht)].
    - unfold stack_frames in E1. apply fmap_nil_inv in E1. apply (f_equal length) in E1.
      rewrite length_seq in E1. simpl in E1. lia.
    - unfold takeable, is_large_enough in Ht. apply andb_true_iff in Ht as [Ht%Z.leb_le _].
      pose proof (fi_ranges _ _ HI) as W. rewrite Forall_forall in W.
      destruct (range_frames_consume r (W r Hr) Ht) as [Ef _].
      assert (Hin : start_address r ∈ ranges_frames (fa_ranges s)).
      { apply elem_of_ranges_frames. exists r. split; [done|]. rewrite Ef. apply list_elem_of_here. }
      rewrite E2 in Hin. by apply elem_of_nil in Hin. }
  destruct HA as [HA|HA].
  2: { rewrite (alloc_frame_panics U s) in R by done. done. }
  destruct (alloc_frame_spec U s HI HL HA) as (f' & s1 & R' & HI' & Hf & Hn & HP & Hl & _ & Hh & Hm & Hb & Hx).
  rewrite R in R'. injection R' as -> ->. rename f' into f, s1 into s'.
  assert (HC : forall g, page_clear s' g <-> page_clear s g).
  { intros g. unfold page_clear, stack_area. by rewrite Hb, Hx. }
  destruct (HU f Hf) as (Ha & Hlt & Hc). pose proof (fi_pos _ _ HI f Hf) as Hpos.
  split_and!; try done; try lia.
  - exists U. split_and!; [done|congruence|congruence|]. intros g Hg. rewrite HC. by apply HU.
  - intros [Hnf _]. apply Hnf. rewrite HP. apply list_elem_of_here.
  - intros g. unfold provider_owned. rewrite HC, HP, not_elem_of_cons.
    destruct (decide (g = f)) as [->|]; tauto.
Qed.

#[export] Program Instance frame_laws : FrameLaws frame_state := {|
  fp_ok := provider_ok;
  fp_free := frames;
  fp_owned := provider_owned
|}.
Next Obligation. split; intros; try done; by destruct s. Qed.
Next Obligation.
  intros s (U & HI & HL & HH & HU) HF. destruct (alloc_frame_spec U s HI HL) as (f & s' & R & _).
  { apply frames_available; [done|apply HI|apply HI|done]. }
  by exists f, s'.
Qed.
Next Obligation. exact provider_alloc_ok. Qed.
Next Obligation.
  intros s f m' (U & HI & HL & HH & HU) [Hn Hc] HA.
  assert (E : frames (set_fs_mem m' s) = frames s).
  { unfold frames. cbn [fs_mem frame_stack fa_ranges set_fs_mem]. f_equal.
    by apply (stack_frames_agree _ _ _ f); [apply HI|..]. }
  split_and!; [|exact E|].
  - exists U. split_and!; [|exact HL|exact HH|exact HU]. destruct HI.
    change (fa_inv U (set_fs_mem m' s)). split; rewrite ?E; assumption.
  - intros g. unfold provider_owned. cbn [put fp_mem frame_provider].
    by rewrite E.
Qed.

(** ** Frames given back *)

Definition provider_taken (s : frame_state) (T : list Z) : Prop :=
  exists U, fa_inv U s /\ fa_lock s = false /\ hal_initialized s = true /\
    (forall f, f ∈ U -> f mod PAGE_SIZE = 0 /\ f < 2 ^ 48 /\ page_clear s f) /\
    NoDup T /\ (forall f, f ∈ T -> f ∈ U /\ f ∉ frames s).

#[export] Program Instance frame_return : FrameReturn frame_state := {| fp_taken := provider_taken |}.
Next Obligation.
  intros s T f (U & _ & _ & _ & HU & _ & HT) Hf. destruct (HT f Hf) as [H1 H2]. split; [exact H2|by apply HU].
Qed.
Next Obligation.
  intros s T f s' (U & HI & HL & HH & HU & ND & HT) R. change (alloc_frame s = Ok (f, s')) in R.
  assert (HO : provider_ok s) by (exists U; by split_and!).
  destruct (provider_alloc_ok s f s' HO R) as (_ & HP & _ & _ & _ & _ & _).
  assert (HF : frames s <> []) by (intros E; rewrite E in HP; by apply Permutation_nil_l in HP).
  destruct (alloc_frame_spec U s HI HL) as (f' & s1 & R' & HI' & Hf & Hn & _ & Hl & _ & Hh & _ & Hb & Hx).
  { apply frames_available; [done|apply HI|apply HI|done]. }
  assert (f' = f /\ s1 = s') as [-> ->] by (rewrite R in R'; by injection R').
  exists U. split_and!; [done|congruence|congruence| | |].
  - intros g Hg. destruct (HU g Hg) as (? & ? & ?). split_and!; [done|done|]. unfold page_clear, stack_area in *. by rewrite Hb, Hx.
  - apply NoDup_cons. split; [|done]. intros Hin. apply HT in Hin as [_ Hin]. apply Hin. rewrite HP. apply list_elem_of_here.
  - intros g [->|Hg]%elem_of_cons; [done|]. destruct (HT g Hg) as [H1 H2]. split; [done|]. intros Hg'. apply H2. rewrite HP. by apply list_elem_of_further.
Qed.
Next Obligation.
  intros s T f m' (U & HI & HL & HH & HU & ND & HT) [Hn Hc] HA.
  assert (E : frames (set_fs_mem m' s) = frames s).
  { unfold frames. cbn [fs_mem frame_stack fa_ranges set_fs_mem]. f_equal. by apply (stack_frames_agree _ _ _ f); [apply HI|..]. }
  exists U. split_and!; [|exact HL|exact HH|exact HU|exact ND|].
  - destruct HI. change (fa_inv U (set_fs_mem m' s)). split; rewrite ?E; assumption.
  - intros g Hg. change (g ∈ U /\ g ∉ frames (set_fs_mem m' s)). rewrite E. by apply HT.
Qed.
Next Obligation.
  intros s f T _ (U & HI & HL & HH & HU & [Hf ND]%NoDup_cons & HT).
  destruct (HT f (list_elem_of_here _ _)) as [Hf1 Hf2].
  destruct (dealloc_frame_spec U s f HI HL Hf1 Hf2) as (s' & R & HI' & HP & HL' & _ & _ & HH' & Eb & Em & HA).
  assert (HC : forall g, page_clear s' g <-> page_clear s g) by (intros g; unfold page_clear, stack_area; by rewrite Eb, Em).
  assert (HU' : forall g, g ∈ U -> g mod PAGE_SIZE = 0 /\ g < 2 ^ 48 /\ page_clear s' g) by (intros g Hg; rewrite HC; by apply HU).
  exists s'. split_and!; [done| | |done| |].
  - exists U. split_and!; [done|done|congruence|done].
  - exists U. split_and!; [done|done|congruence|done|done|]. intros g Hg. destruct (HT g (list_elem_of_further _ _ _ Hg)) as [H1 H2]. split; [done|].
    rewrite HP, not_elem_of_cons. split; [|done]. intros ->. contradiction.
  - intros g. unfold provider_owned. cbn. unfold provider_owned. rewrite HC, HP, not_elem_of_cons. tauto.
  - intros g y [_ Hc] H1 H2. apply HA. unfold page_clear, stack_area in Hc. cbn [fst snd] in Hc. lia.
Qed.

(** ** A concrete allocator *)

(** 4 MB of memory at 16 MB, of which the allocator keeps the first pages. *)
Definition small_boot : boot_state := MkBoot
  (MkBootData [MkItem 0x1000000 0x400000 1 1] 0 0 0) None (Some [MkRange 0x1000000 0x400000]) None.

Definition small_state : frame_state :=
  MkFrameState ∅ true true small_boot false [] (MkFrameStack 0 0 0) 0 0 true.

(** The same memory before its ranges are asked for the first time. *)
Definition fresh_state : frame_state :=
  MkFrameState ∅ true true (MkBoot (boot_data small_boot) None None None) false [] (MkFrameStack 0 0 0) 0 0 true.

Lemma single_range_ordered (r : PhysicalMemoryRange) : ordered_ranges [r].
Proof.
  intros i j x y Hij Hi Hj. exfalso.
  apply lookup_lt_Some in Hj. simpl in Hj. lia.
Qed.

Lemma small_range_wf : Forall range_wf [MkRange 0x1000000 0x400000].
Proof. repeat constructor; unfold PAGE_SIZE; simpl; lia. Qed.

Lemma init_frame_allocator_correct_witness :
  exists s' U, init_frame_allocator fresh_state = Ok (tt, s') /\ fa_inv U s' /\
    0x400000 = 0x4000 + PAGE_SIZE * Z.of_nat (length U).
Proof.
  destruct (init_frame_allocator_correct fresh_state [MkRange 0x1000000 0x400000] small_boot)
    as (s' & U & i & r & R & HI & _ & _ & _ & _ & _ & _ & _ & HS & _).
  - reflexivity.
  - reflexivity.
  - exact small_range_wf.
  - apply single_range_ordered.
  - by vm_compute.
  - by vm_compute.
  - exists (MkRange 0x1000000 0x400000). split; [apply list_elem_of_here|by vm_compute].
  - exists s', U. split; [exact R|]. split; [exact HI|exact HS].
Defined.

(** One range of two frames, the stack of capacity two below it. *)
Definition two_frames : frame_state :=
  MkFrameState ∅ true true small_boot true [MkRange 0x1000000 0x2000]
    (MkFrameStack 0x200000 0x200000 16) 0 2 false.

Definition no_frames : frame_state :=
  MkFrameState ∅ true true small_boot true [MkRange 0x1002000 0]
    (MkFrameStack 0x200000 0x200000 16) 0 0 false.

Definition two_univ : list Z := [0x1000000; 0x1001000].

Lemma two_frames_inv : fa_inv two_univ two_frames.
Proof.
  split.
  - split; simpl; lia.
  - repeat constructor; unfold PAGE_SIZE; simpl; lia.
  - simpl. lia.
  - apply (bool_decide_unpack _). by vm_compute.
  - intros f Hf. exact Hf.
  - unfold two_univ. intros f. rewrite !elem_of_cons. intros [->|[->|[]%elem_of_nil]]; lia.
  - simpl. lia.
  - reflexivity.
Qed.

Lemma no_frames_inv : fa_inv two_univ no_frames.
Proof.
  split.
  - split; simpl; lia.
  - repeat constructor; unfold PAGE_SIZE; simpl; lia.
  - simpl. lia.
  - apply (bool_decide_unpack _). by vm_compute.
  - intros f Hf. by apply elem_of_nil in Hf.
  - unfold two_univ. intros f. rewrite !elem_of_cons. intros [->|[->|[]%elem_of_nil]]; lia.
  - simpl. lia.
  - reflexivity.
Qed.

Lemma alloc_frame_correct_witness :
  exists f s', alloc_frame two_frames = Ok (f, s') /\ fa_inv two_univ s' /\ f ∈ two_univ.
Proof.
  destruct (alloc_frame_correct two_univ two_frames) as (f & s' & R & HI & HU & _).
  - exact two_frames_inv.
  - reflexivity.
  - right. exists (MkRange 0x1000000 0x2000). split; [apply list_elem_of_here|reflexivity].
  - exists f, s'. split; [exact R|]. split; [exact HI|exact HU].
Defined.

Lemma alloc_frame_exhausted_witness : alloc_frame no_frames = Panic FRAME_ALLOCATOR_ERROR.
Proof.
  apply (alloc_frame_exhausted two_univ).
  - exact no_frames_inv.
  - reflexivity.
  - intros [H|(r & Hr & Ht)]; [by vm_compute in H|].
    apply list_elem_of_singleton in Hr. subst r. by vm_compute in Ht.
Defined.

Lemma dealloc_frame_correct_witness :
  exists s', dealloc_frame 0x1000000 no_frames = Ok (tt, s') /\ fa_inv two_univ s'.
Proof.
  destruct (dealloc_frame_correct two_univ no_frames 0x1000000) as (s' & R & HI & _).
  - exact no_frames_inv.
  - reflexivity.
  - apply list_elem_of_here.
  - by intros ?%elem_of_nil.
  - exists s'. split; [exact R|exact HI].
Defined.
