(* ===== verification/Paging.v ===== *)
(** * Page tables (HAL/x86-64/x64-memory.c)

    Four levels of 512-entry tables in physical memory, which the kernel
    accesses through its identity map.  [unsync_get_page_table_entry] walks to
    the last level and creates the tables that are missing; [paging_map],
    [invalidate_paging_mapping] and the copy routine write the entry it finds;
    [get_physical_address] walks without creating anything.  The frames of new
    tables come from the allocator behind [FrameProvider]. *)

From S2P Require Import Prelude Memory Interfaces.

Definition PAGE_PRESENT : Z := 1.
Definition PAGE_WRITABLE : Z := 2.
Definition ADDR_MASK : Z := 0x0000fffffffff000.
Definition IA32_PAT_MSR : Z := 0x277.

Record PagingMapState : Type := MkMapState { paddr : Z; flags : Z; mmap_present : bool }.

Record pg_state (F : Type) : Type := PgState {
  pg_frames : F;
  pg_trace : list hw_event;
  pg_cr3 : Z
}.
Arguments PgState {F} _ _ _.
Arguments pg_frames {F} _.
Arguments pg_trace {F} _.
Arguments pg_cr3 {F} _.

(** The bits of a virtual address that index the table of level [k] (PML4 is
    level 4, PT level 1). *)
Definition table_index (k : nat) (vaddr : Z) : Z :=
  Z.land (Z.shiftr vaddr (12 + 9 * (Z.of_nat k - 1))) 0x1ff.

Definition entry_present (e : Z) : bool := negb (Z.land e PAGE_PRESENT =? 0).
Definition entry_addr (e : Z) : Z := Z.land e ADDR_MASK.

Section paging.
Context {F : Type} {FP : FrameProvider F}.
Abbreviation state := (pg_state F).
Implicit Types (s : pg_state F).

Definition frames_lens : lens state F :=
  Lens pg_frames (fun f s => PgState f (pg_trace s) (pg_cr3 s)).
Definition pmem s : mem := view fp_mem (pg_frames s).
Definition set_pmem (m : mem) s : state := put frames_lens (put fp_mem m (pg_frames s)) s.

Definition pread (p : Z) : M state Z := gets (fun s => load64 (pmem s) p).
Definition pwrite (p v : Z) : M state unit := modify (fun s => set_pmem (store64 (pmem s) p v) s).
Definition pzero (p size : Z) : M state unit :=
  modify (fun s => set_pmem (memset (pmem s) p 0 size) s).
Definition pemit (e : hw_event) : M state unit :=
  modify (fun s => PgState (pg_frames s) (e :: pg_trace s) (pg_cr3 s)).
Definition alloc_frame : M state Z := zoom frames_lens fp_alloc.
Definition dealloc_frame (p : Z) : M state unit := zoom frames_lens (fp_dealloc p).

Definition write_cr3 (v : Z) : M state unit :=
  modify (fun s => PgState (pg_frames s) (WriteCr3 v :: pg_trace s) v).

(** [PAT_VALUE] of memory_defs.h. *)
Definition PAT_ENTRY (value index : Z) : Z := Z.shiftl value (index * 8).
Definition PAT_VALUE : Z :=
  Z.lor (PAT_ENTRY 0 7) (Z.lor (PAT_ENTRY 7 6) (Z.lor (PAT_ENTRY 4 5) (Z.lor (PAT_ENTRY 1 4)
    (Z.lor (PAT_ENTRY 0 3) (Z.lor (PAT_ENTRY 7 2) (Z.lor (PAT_ENTRY 4 1) (PAT_ENTRY 6 0))))))).

Definition enable_PAT : M state unit :=
  pemit (Wrmsr IA32_PAT_MSR (wrap32 PAT_VALUE) (Z.shiftr PAT_VALUE 32));;
  cr3 <- gets pg_cr3;;
  write_cr3 cr3.

Definition delete_all_translation_cache : M state unit :=
  cr3 <- gets pg_cr3;;
  write_cr3 cr3.

Definition invalidate_TLB (vaddr : Z) : M state unit := pemit (Invlpg vaddr).
Definition delete_page_translation_cache (vaddr : Z) : M state unit := invalidate_TLB vaddr.

(** [x64PagingStructure]: the root table at offset 0, the lock at offset 8. *)
Definition get_raw_paging_structure (ps : Z) : M state Z := pread ps.

Definition set_active_paging_structure (ps : Z) : M state unit :=
  root <- get_raw_paging_structure ps;;
  write_cr3 root.

Definition init_paging_lock (ps : Z) : M state unit :=
  modify (fun s => set_pmem (store8 (pmem s) (ps + 8) 0) s).

Definition get_bootloader_paging_structure : M state Z :=
  cr3 <- gets pg_cr3;;
  let cr3 := Z.land cr3 0xfffffffffffff000 in
  ps <- alloc_frame;;
  init_paging_lock ps;;
  pwrite ps cr3;;
  ret ps.

(** A zeroed frame for a table. *)
Definition new_table : M state Z :=
  f <- alloc_frame;;
  let new_frame := Z.land f ADDR_MASK in
  pzero new_frame PAGE_SIZE;;
  ret new_frame.

(** One step of the walk: follow the entry, creating the table if needed. *)
Definition next_table (table index : Z) : M state Z :=
  e <- pread (table + 8 * index);;
  when (negb (entry_present e))
    (new_frame <- new_table;;
     pwrite (table + 8 * index) (Z.lor (Z.lor new_frame PAGE_PRESENT) PAGE_WRITABLE));;
  e <- pread (table + 8 * index);;
  ret (entry_addr e).

(** The address of the page table entry of [vaddr]. *)
Definition unsync_get_page_table_entry (root vaddr : Z) : M state Z :=
  PDPT <- next_table root (table_index 4 vaddr);;
  PDT <- next_table PDPT (table_index 3 vaddr);;
  PT <- next_table PDT (table_index 2 vaddr);;
  ret (PT + 8 * table_index 1 vaddr).

Definition paging_map (ps vaddr paddr flags : Z) : M state unit :=
  root <- get_raw_paging_structure ps;;
  table_entry <- unsync_get_page_table_entry root vaddr;;
  let flags := Z.land (Z.lor flags PAGE_PRESENT) 0xfff in
  pwrite table_entry (Z.lor (Z.land paddr ADDR_MASK) flags);;
  invalidate_TLB vaddr.

Definition invalidate_paging_mapping (ps vaddr : Z) : M state unit :=
  root <- get_raw_paging_structure ps;;
  table_entry <- unsync_get_page_table_entry root vaddr;;
  new_value <- pread table_entry;;
  pwrite table_entry (Z.land new_value (wrap64 (Z.lnot PAGE_PRESENT)));;
  invalidate_TLB vaddr.

Definition mmap_not_present : PagingMapState := MkMapState 0 0 false.

(** The end of [get_physical_address]: decode the last entry. *)
Definition decode_entry (e : Z) : PagingMapState :=
  let flags := Z.land e 0xfff in
  let paddr_i := Z.land e ADDR_MASK in
  let paddr_i := if negb (Z.land paddr_i 0x0000800000000000 =? 0)
                 then Z.lor paddr_i 0xffff000000000000 else paddr_i in
  if Z.land flags PAGE_PRESENT =? 0 then MkMapState paddr_i flags false
  else MkMapState paddr_i flags true.

(** [translate k m t v]: the walk of [get_physical_address] from table [t] of
    level [k]. *)
Fixpoint translate (k : nat) (m : mem) (t vaddr : Z) : PagingMapState :=
  let e := load64 m (t + 8 * table_index k vaddr) in
  match k with
  | S (S _ as k') =>
      if entry_present e then translate k' m (entry_addr e) vaddr else mmap_not_present
  | _ => decode_entry e
  end.

Definition get_physical_address (ps vaddr : Z) : M state PagingMapState :=
  root <- get_raw_paging_structure ps;;
  gets (fun s => translate 4 (pmem s) root vaddr).

(** [for(i = 0; i < 512; i++) paging_structure[i] = ...] *)
Fixpoint fill_tables (n : nat) (root i : Z) : M state unit :=
  match n with
  | O => ret tt
  | S n' =>
      new_frame <- new_table;;
      pwrite (root + 8 * i) (Z.lor (Z.lor new_frame PAGE_PRESENT) PAGE_WRITABLE);;
      fill_tables n' root (i + 1)
  end.

Definition create_empty_kernel_paging_structure : M state Z :=
  root <- alloc_frame;;
  pzero root PAGE_SIZE;;
  fill_tables 512 root 0;;
  ps <- alloc_frame;;
  init_paging_lock ps;;
  pwrite ps root;;
  ret ps.

(** The function returns before it frees anything. *)
Definition delete_paging_structure (ps : Z) : M state unit := ret tt.

(** The loop of the copy routine, [n] pages from [vaddr] on. *)
Fixpoint copy_mapping_loop (n : nat) (src dst vaddr new_flags : Z) : M state unit :=
  match n with
  | O => ret tt
  | S n' =>
      src_root <- get_raw_paging_structure src;;
      src_entry <- unsync_get_page_table_entry src_root vaddr;;
      dst_root <- get_raw_paging_structure dst;;
      dst_entry <- unsync_get_page_table_entry dst_root vaddr;;
      e <- pread src_entry;;
      (if new_flags =? 0 then pwrite dst_entry e
       else pwrite dst_entry (Z.lor (Z.land e ADDR_MASK) new_flags));;
      copy_mapping_loop n' src dst (wrap64 (vaddr + PAGE_SIZE)) new_flags
  end.

(** The 64-bit counter of bytes goes through the multiples of the page size; above
    the last of them it never reaches the size and the loop does not end. *)
Definition copy_paging_structure_mapping_no_page_invalidation
    (src dst start_vaddr size_bytes new_flags : Z) : M state unit :=
  if 2 ^ 64 - PAGE_SIZE <? size_bytes then out_of_fuel else
  copy_mapping_loop (Z.to_nat ((size_bytes + PAGE_SIZE - 1) / PAGE_SIZE)) src dst start_vaddr new_flags.

(** The frames of the tables below and including [t]. *)
Fixpoint count_map_tables_frames (k : nat) (m : mem) (t : Z) (counter : Z) : Z :=
  let counter :=
    match k with
    | S (S _ as k') =>
        foldl (fun c i =>
          let e := load64 m (t + 8 * Z.of_nat i) in
          if entry_present e then count_map_tables_frames k' m (entry_addr e) c else c)
          counter (seq 0 512)
    | _ => counter
    end in
  match k with O => counter | _ => wrap64 (counter + 1) end.

Definition get_paging_mem_overhead (ps : Z) : M state Z :=
  root <- get_raw_paging_structure ps;;
  counter <- gets (fun s => count_map_tables_frames 4 (pmem s) root 0);;
  ret (wrap64 (counter * PAGE_SIZE)).

End paging.
