(* ===== verification/PagingInv.v ===== *)
(** * Page tables: the tree invariant and the walk

    [tables_ok lv m]: [lv] gives the level of every table frame; a present entry
    of a table of level [k] points to a table of level [k - 1], and no table is
    pointed to twice.  Creating a missing table preserves it and changes no
    translation. *)

From S2P Require Import Prelude Memory Interfaces Paging.

(** ** Entries *)

Lemma entry_addr_range e : 0 <= entry_addr e < 2 ^ 48 /\ entry_addr e mod PAGE_SIZE = 0.
Proof.
  unfold entry_addr, ADDR_MASK, PAGE_SIZE.
  change 0xfffffffff000 with (2 ^ 48 - 2 ^ 12). 
  assert (E : Z.land e (2 ^ 48 - 2 ^ 12) = Z.land (e mod 2 ^ 48) (2 ^ 48 - 2 ^ 12)).
  { change (2 ^ 48 - 2 ^ 12) with (Z.land (2 ^ 48 - 2 ^ 12) (Z.ones 48)) at 1.
    rewrite (Z.land_comm (2 ^ 48 - 2 ^ 12)), Z.land_assoc, Z.land_ones by lia. done. }
  rewrite E. pose proof (Z.mod_pos_bound e (2 ^ 48)).
  rewrite land_high_mask by lia. lia.
Qed.

(** An aligned 48-bit address with flags in the low bits. *)
Lemma entry_addr_flags a fl :
  0 <= a < 2 ^ 48 -> a mod PAGE_SIZE = 0 -> 0 <= fl < PAGE_SIZE ->
  Z.lor a fl = a + fl /\ entry_addr (Z.lor a fl) = a.
Proof.
  unfold PAGE_SIZE. intros Ha Hm Hf.
  assert (E : Z.lor a fl = a + fl).
  { replace a with ((a / 4096) * 2 ^ 12 + 0) at 1 by lia. rewrite lor_low_bits by lia.
    rewrite Z.lor_0_l. lia. }
  split; [done|]. rewrite E. unfold entry_addr, ADDR_MASK.
  change 0xfffffffff000 with (2 ^ 48 - 2 ^ 12). rewrite land_high_mask by lia. lia.
Qed.

Lemma flag_low a fl x :
  a mod PAGE_SIZE = 0 -> 0 <= fl < PAGE_SIZE -> 0 <= x < PAGE_SIZE ->
  Z.land (a + fl) x = Z.land fl x.
Proof.
  unfold PAGE_SIZE. intros Ha Hf Hx. replace (a + fl) with ((a / 4096) * 2 ^ 12 + fl) by lia.
  rewrite land_low_bits by lia. by rewrite Z.mod_small by lia.
Qed.

(** The entry written for a new table. *)
Definition table_entry (f : Z) : Z := Z.lor (Z.lor f PAGE_PRESENT) PAGE_WRITABLE.

Lemma table_entry_spec f :
  0 <= f < 2 ^ 48 -> f mod PAGE_SIZE = 0 ->
  entry_present (table_entry f) = true /\ entry_addr (table_entry f) = f /\
  0 <= table_entry f < 2 ^ 64.
Proof.
  intros Hf Hm. unfold table_entry. rewrite <-Z.lor_assoc.
  change (Z.lor PAGE_PRESENT PAGE_WRITABLE) with 3.
  destruct (entry_addr_flags f 3 Hf Hm) as [E1 E2]; [unfold PAGE_SIZE; lia|].
  split_and!; [|done|lia|lia].
  unfold entry_present, PAGE_PRESENT. rewrite E1, flag_low by (done || unfold PAGE_SIZE; lia). done.
Qed.

Lemma frame_masked f : 0 <= f < 2 ^ 48 -> f mod PAGE_SIZE = 0 -> Z.land f ADDR_MASK = f.
Proof.
  intros. destruct (entry_addr_flags f 0) as [E E']; [done|done|unfold PAGE_SIZE; lia|].
  rewrite Z.lor_0_r in E'. done.
Qed.

Lemma table_index_range k v : 0 <= table_index k v < 512.
Proof.
  unfold table_index. change 0x1ff with (Z.ones 9). rewrite Z.land_ones by lia.
  apply Z.mod_pos_bound. lia.
Qed.

Lemma translate_zero k m t v :
  (forall i, 0 <= i < 512 -> load64 m (t + 8 * i) = 0) ->
  translate k m t v = mmap_not_present.
Proof.
  intros H. destruct k as [|[|k]]; cbn [translate]; rewrite H by apply table_index_range; done.
Qed.

(** ** The tree *)

Record tables_ok (lv : gmap Z nat) (m : mem) : Prop := {
  tk_frame : forall f k, lv !! f = Some k ->
    f mod PAGE_SIZE = 0 /\ 0 < f < 2 ^ 48 /\ (1 <= k <= 4)%nat;
  tk_child : forall f k i, lv !! f = Some (S (S k)) -> 0 <= i < 512 ->
    entry_present (load64 m (f + 8 * i)) = true ->
    lv !! entry_addr (load64 m (f + 8 * i)) = Some (S k);
  tk_uniq : forall f k i f' k' i',
    lv !! f = Some (S (S k)) -> lv !! f' = Some (S (S k')) -> 0 <= i < 512 -> 0 <= i' < 512 ->
    entry_present (load64 m (f + 8 * i)) = true ->
    entry_present (load64 m (f' + 8 * i')) = true ->
    entry_addr (load64 m (f + 8 * i)) = entry_addr (load64 m (f' + 8 * i')) ->
    f = f' /\ i = i'
}.

(** Different frames are a page apart. *)
Lemma frames_apart f g :
  f mod PAGE_SIZE = 0 -> g mod PAGE_SIZE = 0 -> f <> g ->
  f + PAGE_SIZE <= g \/ g + PAGE_SIZE <= f.
Proof. unfold PAGE_SIZE. lia. Qed.

(** Memory that agrees on the table frames translates alike. *)
Lemma translate_agree lv m m' k t v :
  tables_ok lv m -> lv !! t = Some k ->
  (forall f j i, lv !! f = Some j -> 0 <= i < 512 -> load64 m' (f + 8 * i) = load64 m (f + 8 * i)) ->
  translate k m' t v = translate k m t v.
Proof.
  intros T Ht HA. revert t Ht. induction k as [|k IH]; intros t Ht.
  { cbn [translate]. by rewrite (HA t 0%nat) by (done || apply table_index_range). }
  pose proof (table_index_range (S k) v) as Hi.
  cbn [translate]. rewrite (HA t (S k)) by done.
  destruct k as [|k]; [done|].
  destruct (entry_present _) eqn:E; [|done]. apply IH. by eapply tk_child.
Qed.

(** Adding an empty table [g] below the absent entry [i] of [t]. *)
Definition add_table (t i g : Z) (m : mem) : mem :=
  store64 (memset m g 0 PAGE_SIZE) (t + 8 * i) (table_entry g).

Section add.
Context (lv : gmap Z nat) (m : mem) (t i g : Z) (k : nat).
Context (T : tables_ok lv m) (Ht : lv !! t = Some (S (S k))) (Hi : 0 <= i < 512)
  (Hg : lv !! g = None) (Hga : g mod PAGE_SIZE = 0) (Hgr : 0 < g < 2 ^ 48)
  (Habs : entry_present (load64 m (t + 8 * i)) = false).
Let m' := add_table t i g m.
Let lv' := <[g := S k]> lv.

Lemma add_table_frame f j : lv !! f = Some j -> f mod PAGE_SIZE = 0 /\ f <> g.
Proof. intros H. split; [by apply (tk_frame _ _ T _ _ H)|]. intros ->. congruence. Qed.

Lemma add_table_entry : load64 m' (t + 8 * i) = table_entry g.
Proof.
  unfold m', add_table. apply load64_store64_eq.
  by destruct (table_entry_spec g) as (_ & _ & ?); [lia|done|].
Qed.

Lemma add_table_new n : 0 <= n < 512 -> load64 m' (g + 8 * n) = 0.
Proof.
  intros Hn. destruct (add_table_frame t (S (S k)) Ht) as [? ?].
  destruct (frames_apart t g) as [|]; [done..| |]; unfold PAGE_SIZE in *;
    unfold m', add_table; rewrite load64_store64_ne by lia;
    apply load64_memset_zero; unfold PAGE_SIZE; lia.
Qed.

(** Every word outside the new table and the entry is as before. *)
Lemma add_table_other y :
  y + 8 <= g \/ g + PAGE_SIZE <= y -> y + 8 <= t + 8 * i \/ t + 8 * i + 8 <= y ->
  load64 m' y = load64 m y.
Proof.
  intros Hy1 Hy2. unfold m', add_table. rewrite load64_store64_ne by lia.
  apply load64_memset_out; [unfold PAGE_SIZE; lia|done].
Qed.

Lemma add_table_old f j n :
  lv !! f = Some j -> 0 <= n < 512 -> f <> t \/ n <> i ->
  load64 m' (f + 8 * n) = load64 m (f + 8 * n).
Proof.
  intros Hf Hn Hne. destruct (add_table_frame f j Hf) as [? ?].
  destruct (add_table_frame t _ Ht) as [? ?].
  apply add_table_other.
  - destruct (frames_apart f g) as [|]; [done..| |]; unfold PAGE_SIZE in *; lia.
  - destruct (decide (f = t)) as [->|]; [lia|].
    destruct (frames_apart f t) as [|]; [done..| |]; unfold PAGE_SIZE in *; lia.
Qed.

Lemma add_table_cases f j n :
  lv' !! f = Some (S (S j)) -> 0 <= n < 512 -> entry_present (load64 m' (f + 8 * n)) = true ->
  (f = t /\ n = i /\ entry_addr (load64 m' (f + 8 * n)) = g /\ j = k) \/
  (lv !! f = Some (S (S j)) /\ (f <> t \/ n <> i) /\ load64 m' (f + 8 * n) = load64 m (f + 8 * n)).
Proof.
  intros Hf Hn Hp. unfold lv' in Hf. destruct (decide (f = g)) as [->|Hfg].
  { rewrite add_table_new in Hp by done. done. }
  rewrite lookup_insert_ne in Hf by done.
  destruct (decide (f = t /\ n = i)) as [[-> ->]|Hne].
  - left. split_and!; [done|done| |congruence]. rewrite add_table_entry.
    by destruct (table_entry_spec g) as (_ & ? & _); [lia|done|].
  - right. assert (f <> t \/ n <> i) by (clear -Hne; lia).
    split_and!; [done|done|]. by eapply add_table_old.
Qed.

Lemma add_table_ok : tables_ok lv' m'.
Proof.
  pose proof (tk_frame _ _ T _ _ Ht) as (_ & _ & Hk). split.
  - intros f j Hf. unfold lv' in Hf. apply lookup_insert_Some in Hf as [[<- <-]|[? Hf]].
    + split_and!; try done; lia.
    + by apply (tk_frame _ _ T).
  - intros f j n Hf Hn Hp.
    destruct (add_table_cases f j n Hf Hn Hp) as [(-> & -> & -> & ->)|(Hf' & _ & E)].
    + unfold lv'. by rewrite lookup_insert_eq.
    + rewrite E in Hp |- *. pose proof (tk_child _ _ T _ _ _ Hf' Hn Hp) as Hc. unfold lv'.
      rewrite lookup_insert_ne; [done|]. intros E'. rewrite <-E' in Hc. congruence.
  - intros f j n f' j' n' Hf Hf' Hn Hn' Hp Hp' HE.
    destruct (add_table_cases f j n Hf Hn Hp) as [(-> & -> & E & _)|(Hf1 & _ & E)];
    destruct (add_table_cases f' j' n' Hf' Hn' Hp') as [(-> & -> & E' & _)|(Hf1' & _ & E')].
    + split; reflexivity.
    + rewrite E, E' in HE. rewrite E' in Hp'.
      pose proof (tk_child _ _ T _ _ _ Hf1' Hn' Hp') as Hc. rewrite <-HE in Hc. congruence.
    + rewrite E, E' in HE. rewrite E in Hp.
      pose proof (tk_child _ _ T _ _ _ Hf1 Hn Hp) as Hc. rewrite HE in Hc. congruence.
    + rewrite E, E' in HE. rewrite E in Hp. rewrite E' in Hp'.
      exact (tk_uniq _ _ T f j n f' j' n' Hf1 Hf1' Hn Hn' Hp Hp' HE).
Qed.

Lemma add_table_translate f j v :
  lv !! f = Some j -> translate j m' f v = translate j m f v.
Proof.
  revert f. induction j as [|j IH]; intros f Hf.
  { destruct (tk_frame _ _ T _ _ Hf) as (_ & _ & ?). lia. }
  pose proof (table_index_range (S j) v) as Hn. cbn [translate].
  destruct (decide (f = t /\ table_index (S j) v = i)) as [[-> Ei]|Hne].
  - assert (j = S k) as -> by congruence. rewrite Ei, add_table_entry, Habs.
    destruct (table_entry_spec g) as (-> & -> & _); [lia|done|].
    apply translate_zero. apply add_table_new.
  - assert (f <> t \/ table_index (S j) v <> i) as Hne' by (clear -Hne; lia).
    rewrite (add_table_old f (S j) _ Hf Hn Hne').
    destruct j as [|j]; [done|].
    destruct (entry_present (load64 m (f + 8 * table_index (S (S j)) v))) eqn:E; [|reflexivity].
    apply IH. exact (tk_child _ _ T _ _ _ Hf Hn E).
Qed.
End add.

Section walk.
Context {F : Type} {FP : FrameProvider F} {FL : FrameLaws F}.
Implicit Types (s : pg_state F) (lv : gmap Z nat).

Abbreviation owned s := (fp_owned (pg_frames s)).
Abbreviation free s := (fp_free (pg_frames s)).

(** The paging structure at [ps] with root table [root]. *)
Record pg_inv lv (ps root : Z) s : Prop := {
  pi_ok : fp_ok (pg_frames s);
  pi_tables : tables_ok lv (pmem s);
  pi_owned : forall f k, lv !! f = Some k -> owned s f;
  pi_root : lv !! root = Some 4%nat;
  pi_ps : owned s ps /\ lv !! ps = None /\ ps mod PAGE_SIZE = 0;
  pi_ps_root : load64 (pmem s) ps = root
}.

Lemma pmem_set_pmem m s : pmem (set_pmem m s) = m.
Proof. pose proof fp_mem_laws. unfold pmem, set_pmem. simpl. apply view_put. Qed.

Lemma set_pmem_set_pmem m m' s : set_pmem m (set_pmem m' s) = set_pmem m s.
Proof. pose proof fp_mem_laws. unfold set_pmem. simpl. by rewrite put_put. Qed.

(** The pages the caller owns besides the tables keep their contents, and no
    more than [n] frames are used. *)
Definition pg_frame (n : nat) lv lv' s s' : Prop :=
  lv ⊆ lv' /\
  (forall g, owned s g -> owned s' g) /\
  (forall g, owned s g -> lv !! g = None -> lv' !! g = None) /\
  (forall g y, owned s g -> g mod PAGE_SIZE = 0 -> lv !! g = None ->
     g <= y -> y + 8 <= g + PAGE_SIZE -> load64 (pmem s') y = load64 (pmem s) y) /\
  (length (free s) <= length (free s') + n)%nat /\
  pg_cr3 s' = pg_cr3 s /\ pg_trace s' = pg_trace s.

Lemma pg_frame_refl lv s : pg_frame 0 lv lv s s.
Proof. split_and!; try done. lia. Qed.

Lemma pg_frame_trans n k lv1 lv2 lv3 s1 s2 s3 :
  pg_frame n lv1 lv2 s1 s2 -> pg_frame k lv2 lv3 s2 s3 -> pg_frame (n + k) lv1 lv3 s1 s3.
Proof.
  intros (A1 & A2 & A3 & A4 & A5 & A6 & A7) (B1 & B2 & B3 & B4 & B5 & B6 & B7).
  split_and!; [by etrans|auto|auto| |lia|congruence|congruence].
  intros g y Hg Ha Hn H1 H2. rewrite (B4 g y) by auto. by apply (A4 g y).
Qed.

Lemma pg_frame_mono n n' lv lv' s s' :
  (n <= n')%nat -> pg_frame n lv lv' s s' -> pg_frame n' lv lv' s s'.
Proof. intros Hn (A1 & A2 & A3 & A4 & A5 & A6 & A7). split_and!; try done. lia. Qed.

(** Writing a page the caller owns. *)
Lemma set_pmem_owned s f m :
  fp_ok (pg_frames s) -> owned s f -> agree_outside f (f + PAGE_SIZE) (pmem s) m ->
  fp_ok (pg_frames (set_pmem m s)) /\ free (set_pmem m s) = free s /\
  (forall g, owned (set_pmem m s) g <-> owned s g).
Proof. intros HO Hf HA. by apply fp_write_ok with (f := f). Qed.

(** A fresh zeroed frame. *)
Lemma new_table_spec s :
  fp_ok (pg_frames s) -> free s <> [] ->
  exists f s', new_table s = Ok (f, s') /\ fp_ok (pg_frames s') /\
    pmem s' = memset (pmem s) f 0 PAGE_SIZE /\ f mod PAGE_SIZE = 0 /\ 0 < f < 2 ^ 48 /\
    ~ owned s f /\ (forall g, owned s' g <-> g = f \/ owned s g) /\
    (length (free s) <= length (free s') + 1)%nat /\
    pg_cr3 s' = pg_cr3 s /\ pg_trace s' = pg_trace s.
Proof.
  intros HO HF. destruct (fp_alloc_total _ HO HF) as (f & fs' & R).
  destruct (fp_alloc_ok _ _ _ HO R) as (HO' & HP & Hm & Ha & Hr & Hn & Hown).
  set (s1 := put frames_lens fs' s).
  assert (Em : pmem s1 = pmem s) by exact Hm.
  destruct (set_pmem_owned s1 f (memset (pmem s1) f 0 PAGE_SIZE)) as (HO2 & HF2 & Hown2).
  { done. } { apply Hown. by left. }
  { intros y Hy. apply load64_memset_out; [unfold PAGE_SIZE; lia|done]. }
  exists f, (set_pmem (memset (pmem s1) f 0 PAGE_SIZE) s1). split_and!; try done.
  - unfold new_table, alloc_frame, zoom, bind. cbn [view frames_lens]. rewrite R.
    rewrite frame_masked by (done || lia). done.
  - by rewrite pmem_set_pmem, Em.
  - lia.
  - lia.
  - intros g. rewrite Hown2. apply Hown.
  - rewrite HF2. apply Permutation_length in HP. simpl in *. lia.
Qed.

(** Present entries are not overwritten by the walk. *)
Definition entries_kept lv (m m' : mem) : Prop :=
  forall f j n, lv !! f = Some j -> 0 <= n < 512 ->
    entry_present (load64 m (f + 8 * n)) = true -> load64 m' (f + 8 * n) = load64 m (f + 8 * n).

(** Last-level tables are not written at all by the walk. *)
Definition leaves_kept lv (m m' : mem) : Prop :=
  forall f n, lv !! f = Some 1%nat -> 0 <= n < 512 -> load64 m' (f + 8 * n) = load64 m (f + 8 * n).

Lemma next_table_spec lv ps root s t k i :
  pg_inv lv ps root s -> lv !! t = Some (S (S k)) -> 0 <= i < 512 -> free s <> [] ->
  exists g s' lv', next_table t i s = Ok (g, s') /\ pg_inv lv' ps root s' /\
    lv' !! g = Some (S k) /\ entry_present (load64 (pmem s') (t + 8 * i)) = true /\
    entry_addr (load64 (pmem s') (t + 8 * i)) = g /\ pg_frame 1 lv lv' s s' /\
    (forall f j v, lv !! f = Some j -> translate j (pmem s') f v = translate j (pmem s) f v) /\
    entries_kept lv (pmem s) (pmem s') /\ leaves_kept lv (pmem s) (pmem s') /\
    (forall n, 0 <= n < 512 -> n <> i -> load64 (pmem s') (t + 8 * n) = load64 (pmem s) (t + 8 * n)).
Proof.
  intros [HO HT HW HR [Hp1 [Hp2 Hp3]] Hpr] Ht Hi HF. unfold next_table.
  rewrite (bind_ok _ _ _ (load64 (pmem s) (t + 8 * i)) s) by done.
  destruct (entry_present (load64 (pmem s) (t + 8 * i))) eqn:EP; cbn [negb when].
  { exists (entry_addr (load64 (pmem s) (t + 8 * i))), s, lv.
    split_and!; try done; [by eapply tk_child|]. eapply pg_frame_mono; [|apply pg_frame_refl]. lia. }
  destruct (new_table_spec s HO HF) as (g & s1 & R1 & HO1 & Em1 & Ha & Hr & Hn & Hown & HL & Hc3 & Htr).
  assert (Hg : lv !! g = None).
  { destruct (lv !! g) eqn:E; [|done]. destruct Hn. by eapply HW. }
  destruct (tk_frame _ _ HT _ _ Ht) as (Hta & Htr' & _).
  set (m' := add_table t i g (pmem s)).
  destruct (set_pmem_owned s1 t m') as (HO2 & HF2 & Hown2); [done|apply Hown; right; by eapply HW| |].
  { unfold m', add_table. rewrite <-Em1.
    apply agree_outside_store; [lia|unfold PAGE_SIZE; lia|apply agree_outside_refl]. }
  set (s2 := set_pmem m' s1) in *.
  assert (Em2 : pmem s2 = m') by apply pmem_set_pmem.
  assert (HFr : forall x y, owned s x -> lv !! x = None -> x mod PAGE_SIZE = 0 ->
    x <= y -> y + 8 <= x + PAGE_SIZE -> load64 m' y = load64 (pmem s) y).
  { intros x y Hx Hxn Hxa H1 H2. assert (x <> g) by (intros ->; contradiction).
    assert (x <> t) by (intros ->; congruence).
    assert (y + 8 <= g \/ g + PAGE_SIZE <= y).
    { destruct (frames_apart x g) as [|]; [assumption..| |]; unfold PAGE_SIZE in *; lia. }
    assert (y + 8 <= t + 8 * i \/ t + 8 * i + 8 <= y).
    { destruct (frames_apart x t) as [|]; [assumption..| |]; unfold PAGE_SIZE in *; lia. }
    unfold m', add_table. rewrite load64_store64_ne by lia.
    apply load64_memset_out; [unfold PAGE_SIZE; lia|assumption]. }
  exists g, s2, (<[g := S k]> lv). split_and!.
  - rewrite (bind_ok _ _ _ tt s2).
    2: { rewrite (bind_ok _ _ _ _ _ R1). unfold pwrite, modify. by rewrite Em1. }
    rewrite (bind_ok _ _ _ (table_entry g) s2).
    2: { unfold pread, gets. rewrite Em2. unfold m'. by rewrite add_table_entry by (done || lia). }
    unfold ret. by destruct (table_entry_spec g) as (_ & -> & _); [lia|done|].
  - split.
    + exact HO2.
    + rewrite Em2. apply (add_table_ok lv (pmem s) t i g k); assumption.
    + intros f j [[<- <-]|[_ Hf]]%lookup_insert_Some; apply Hown2, Hown; [by left|right; by eapply HW].
    + rewrite lookup_insert_ne; [assumption|]. intros ->. congruence.
    + split; [apply Hown2, Hown; by right|]. split; [|assumption].
      rewrite lookup_insert_ne; [assumption|]. intros ->. contradiction.
    + rewrite Em2, <-Hpr. apply (HFr ps); [assumption..|lia|unfold PAGE_SIZE; lia].
  - by rewrite lookup_insert_eq.
  - rewrite Em2. unfold m'. rewrite add_table_entry by (done || lia).
    by destruct (table_entry_spec g) as (? & _ & _); [lia|done|].
  - rewrite Em2. unfold m'. rewrite add_table_entry by (done || lia).
    by destruct (table_entry_spec g) as (_ & ? & _); [lia|done|].
  - split_and!; [| | | | |assumption..].
    + by apply insert_subseteq.
    + intros x Hx. apply Hown2, Hown. by right.
    + intros x Hx Hxn. rewrite lookup_insert_ne; [assumption|]. intros ->. contradiction.
    + intros x y Hx Hxa Hxn H1 H2. rewrite Em2.
      by apply (HFr x y).
    + rewrite HF2. exact HL.
  - intros f j v Hf. rewrite Em2. apply (add_table_translate lv (pmem s) t i g k); assumption.
  - intros f j n Hf Hn' Hpn. rewrite Em2.
    apply (add_table_old lv (pmem s) t i g k HT Ht Hi Hg Ha Hr f j n Hf Hn').
    destruct (decide (f = t)) as [->|]; [right|by left]. intros ->. congruence.
  - intros f n Hf Hn'. rewrite Em2.
    apply (add_table_old lv (pmem s) t i g k HT Ht Hi Hg Ha Hr f 1 n Hf Hn').
    left. intros ->. congruence.
  - intros n Hn' Hne. rewrite Em2. apply (add_table_old lv (pmem s) t i g k HT Ht Hi Hg Ha Hr t _ n Ht Hn'). by right.
Qed.

(** A second structure in the same memory is not disturbed. *)
Lemma pg_inv_other n lv lv' ps root ps' root' s s' :
  pg_inv lv ps' root' s -> pg_frame n lv lv' s s' -> pg_inv lv' ps root s' -> pg_inv lv' ps' root' s'.
Proof.
  intros [HO HT HW HR (Hp1 & Hp2 & Hp3) Hpr] (F1 & F2 & F3 & F4 & _) [HO' HT' HW' HR' _ _].
  split; [assumption..| | |].
  - by eapply lookup_weaken.
  - split_and!; auto.
  - rewrite <-Hpr. apply (F4 ps'); [assumption..|lia|unfold PAGE_SIZE; lia].
Qed.

End walk.
