(* ===== verification/PagingTop.v ===== *)
(** * Page tables: theorems

    What mapping and unmapping a page does to the translation of every address:
    the page of the address changes as asked, every other page translates as
    before. *)

From S2P Require Import Prelude Memory Interfaces Paging PagingInv.

(** The last-level table a walk ends in. *)
Fixpoint leaf (k : nat) (m : mem) (t v : Z) : option Z :=
  match k with
  | S (S _ as k') =>
      let e := load64 m (t + 8 * table_index k v) in
      if entry_present e then leaf k' m (entry_addr e) v else None
  | _ => Some t
  end.

Lemma translate_leaf k m t v :
  translate k m t v =
    match leaf k m t v with
    | Some pt => decode_entry (load64 m (pt + 8 * table_index 1 v))
    | None => mmap_not_present
    end \/ k = 0%nat.
Proof.
  destruct k as [|k]; [by right|left]. revert t. induction k as [|k IH]; intros t; [done|].
  cbn [translate leaf]. destruct (entry_present _); [apply IH|done].
Qed.

Lemma leaf_level lv m k t v pt :
  tables_ok lv m -> lv !! t = Some (S k) -> leaf (S k) m t v = Some pt -> lv !! pt = Some 1%nat.
Proof.
  intros T. revert t. induction k as [|k IH]; intros t Ht.
  { intros [= <-]. done. }
  cbn [leaf]. destruct (entry_present _) eqn:E; [|done].
  apply IH. by eapply tk_child; [done|done|apply table_index_range|].
Qed.

(** Two walks that end in the same table took the same path. *)
Lemma leaf_unique lv m k t t' v v' pt :
  tables_ok lv m -> lv !! t = Some (S k) -> lv !! t' = Some (S k) ->
  leaf (S k) m t v = Some pt -> leaf (S k) m t' v' = Some pt ->
  t = t' /\ forall j, (2 <= j <= S k)%nat -> table_index j v = table_index j v'.
Proof.
  intros T. revert t t'. induction k as [|k IH]; intros t t' Ht Ht'.
  { intros [= <-] [= <-]. split; [done|]. intros j Hj. lia. }
  cbn [leaf].
  destruct (entry_present (load64 m (t + 8 * table_index (S (S k)) v))) eqn:E; [|done].
  destruct (entry_present (load64 m (t' + 8 * table_index (S (S k)) v'))) eqn:E'; [|done].
  pose proof (table_index_range (S (S k)) v) as R. pose proof (table_index_range (S (S k)) v') as R'.
  intros H1 H2. pose proof (tk_child _ _ T _ _ _ Ht R E) as C.
  pose proof (tk_child _ _ T _ _ _ Ht' R' E') as C'.
  destruct (IH _ _ C C' H1 H2) as [Ea HI].
  destruct (tk_uniq _ _ T _ _ _ _ _ _ Ht Ht' R R' E E' Ea) as [-> Ei].
  split; [done|]. intros j Hj. destruct (decide (j = S (S k))) as [->|]; [done|]. apply HI. lia.
Qed.

(** ** Pages *)

Definition page_number (v : Z) : Z := (v / PAGE_SIZE) mod 2 ^ 36.

Lemma table_index_div k v :
  (1 <= k)%nat -> table_index k v = (v / 2 ^ (12 + 9 * (Z.of_nat k - 1))) mod 512.
Proof.
  intros Hk. unfold table_index. change 0x1ff with (Z.ones 9).
  rewrite Z.land_ones, Z.shiftr_div_pow2 by lia. done.
Qed.

Lemma page_number_indices v :
  page_number v = table_index 1 v + 512 * table_index 2 v + 512 ^ 2 * table_index 3 v +
                  512 ^ 3 * table_index 4 v.
Proof.
  rewrite !table_index_div by lia. unfold page_number, PAGE_SIZE.
  change (2 ^ (12 + 9 * (Z.of_nat 1 - 1))) with 4096.
  change (2 ^ (12 + 9 * (Z.of_nat 2 - 1))) with (4096 * 512).
  change (2 ^ (12 + 9 * (Z.of_nat 3 - 1))) with (4096 * (512 * 512)).
  change (2 ^ (12 + 9 * (Z.of_nat 4 - 1))) with (4096 * (512 * (512 * 512))).
  rewrite <-!Z.div_div by lia. generalize (v / 4096). intros p. lia.
Qed.

Lemma same_page_indices v v' :
  page_number v = page_number v' <->
  forall j, (1 <= j <= 4)%nat -> table_index j v = table_index j v'.
Proof.
  split.
  - rewrite !page_number_indices. intros H j Hj.
    pose proof (table_index_range 1 v). pose proof (table_index_range 1 v').
    pose proof (table_index_range 2 v). pose proof (table_index_range 2 v').
    pose proof (table_index_range 3 v). pose proof (table_index_range 3 v').
    pose proof (table_index_range 4 v). pose proof (table_index_range 4 v').
    assert (table_index 1 v = table_index 1 v' /\ table_index 2 v = table_index 2 v' /\
            table_index 3 v = table_index 3 v' /\ table_index 4 v = table_index 4 v') by lia.
    destruct j as [|[|[|[|[|j]]]]]; try lia; naive_solver.
  - intros H. rewrite !page_number_indices.
    by rewrite (H 1%nat), (H 2%nat), (H 3%nat), (H 4%nat) by lia.
Qed.

Lemma page_number_next v : page_number (wrap64 (v + PAGE_SIZE)) = (page_number v + 1) mod 2 ^ 36.
Proof. unfold page_number, wrap64, wrap, PAGE_SIZE. lia. Qed.

(** ** Writing one entry of a last-level table *)

Lemma leaf_agree lv m m' k t v :
  tables_ok lv m -> lv !! t = Some (S k) ->
  (forall f j i, lv !! f = Some (S (S j)) -> 0 <= i < 512 ->
     load64 m' (f + 8 * i) = load64 m (f + 8 * i)) ->
  leaf (S k) m' t v = leaf (S k) m t v.
Proof.
  intros T Ht HA. revert t Ht. induction k as [|k IH]; intros t Ht; [done|].
  pose proof (table_index_range (S (S k)) v) as Hi. cbn [leaf]. rewrite (HA t k) by done.
  destruct (entry_present _) eqn:E; [|done]. apply IH. by eapply tk_child.
Qed.

Section write.
Context (lv : gmap Z nat) (m : mem) (root v pt e : Z).
Context (T : tables_ok lv m) (Hroot : lv !! root = Some 4%nat)
  (Hleaf : leaf 4 m root v = Some pt) (He : 0 <= e < 2 ^ 64).
Let m' := store64 m (pt + 8 * table_index 1 v) e.

Lemma write_leaf_level : lv !! pt = Some 1%nat.
Proof. by eapply (leaf_level lv m 3). Qed.

Lemma write_leaf_other f j i :
  lv !! f = Some j -> 0 <= i < 512 -> f <> pt \/ i <> table_index 1 v ->
  load64 m' (f + 8 * i) = load64 m (f + 8 * i).
Proof.
  intros Hf Hi Hne. pose proof (table_index_range 1 v).
  destruct (tk_frame _ _ T _ _ Hf) as (Ha & _). destruct (tk_frame _ _ T _ _ write_leaf_level) as (Hp & _).
  apply load64_store64_ne. destruct (decide (f = pt)) as [->|Hfp]; [lia|].
  destruct (frames_apart f pt Ha Hp Hfp); unfold PAGE_SIZE in *; lia.
Qed.

Lemma write_leaf_upper f j i :
  lv !! f = Some (S (S j)) -> 0 <= i < 512 -> load64 m' (f + 8 * i) = load64 m (f + 8 * i).
Proof.
  intros Hf Hi. eapply write_leaf_other; [done|done|]. left. intros ->.
  pose proof write_leaf_level. congruence.
Qed.

Lemma write_leaf_tables : tables_ok lv m'.
Proof.
  split.
  - apply T.
  - intros f k i Hf Hi. rewrite (write_leaf_upper f k) by done. by apply (tk_child _ _ T).
  - intros f k i f' k' i' Hf Hf' Hi Hi'.
    rewrite (write_leaf_upper f k), (write_leaf_upper f' k') by done. by apply (tk_uniq _ _ T f k i f' k').
Qed.

Lemma write_leaf_translate v' :
  translate 4 m' root v' =
    if decide (page_number v' = page_number v) then decode_entry e else translate 4 m root v'.
Proof.
  destruct (translate_leaf 4 m' root v') as [->|]; [|done].
  destruct (translate_leaf 4 m root v') as [->|]; [|done].
  rewrite (leaf_agree lv m m' 3) by (done || apply write_leaf_upper).
  case_decide as Hpg.
  - rewrite same_page_indices in Hpg.
    assert (E : leaf 4 m root v' = leaf 4 m root v).
    { cbn [leaf]. by rewrite !Hpg by lia. }
    rewrite E, Hleaf, (Hpg 1%nat) by lia. unfold m'. by rewrite load64_store64_eq.
  - destruct (leaf 4 m root v') as [pt'|] eqn:EL; [|done]. f_equal.
    apply (write_leaf_other pt' 1); [by eapply (leaf_level lv m 3)|apply table_index_range|].
    destruct (decide (pt' = pt)) as [->|]; [right|by left]. intros E1. apply Hpg.
    apply same_page_indices. intros j Hj. destruct (decide (j = 1%nat)) as [->|]; [done|].
    destruct (leaf_unique lv m 3 root root v' v pt T Hroot Hroot EL Hleaf) as [_ HI]. apply HI. lia.
Qed.

(** The other paging structures keep every translation. *)
Lemma write_leaf_translate_other root' v' :
  lv !! root' = Some 4%nat -> root' <> root -> translate 4 m' root' v' = translate 4 m root' v'.
Proof.
  intros Hr' Hne.
  destruct (translate_leaf 4 m' root' v') as [->|]; [|done].
  destruct (translate_leaf 4 m root' v') as [->|]; [|done].
  rewrite (leaf_agree lv m m' 3) by (done || apply write_leaf_upper).
  destruct (leaf 4 m root' v') as [pt'|] eqn:EL; [|done]. f_equal.
  apply (write_leaf_other pt' 1); [by eapply (leaf_level lv m 3)|apply table_index_range|].
  left. intros ->.
  by destruct (leaf_unique lv m 3 root' root v' v pt T Hr' Hroot EL Hleaf) as [? _].
Qed.
End write.

(** ** The walk *)

Section walk.
Context {F : Type} {FP : FrameProvider F} {FL : FrameLaws F}.
Implicit Types (s : pg_state F) (lv : gmap Z nat).

(** One step down at an entry the later steps keep. *)
Lemma leaf_step k m m' lv t v :
  lv !! t = Some (S (S k)) -> entries_kept lv m m' ->
  entry_present (load64 m (t + 8 * table_index (S (S k)) v)) = true ->
  leaf (S (S k)) m' t v =
    leaf (S k) m' (entry_addr (load64 m (t + 8 * table_index (S (S k)) v))) v.
Proof.
  intros Ht HK HP. cbn [leaf]. pose proof (table_index_range (S (S k)) v) as Hi.
  by rewrite (HK t _ _ Ht Hi HP), HP.
Qed.

Lemma entries_kept_trans lv lv' m1 m2 m3 :
  lv ⊆ lv' -> entries_kept lv m1 m2 -> entries_kept lv' m2 m3 -> entries_kept lv m1 m3.
Proof.
  intros HS H1 H2 f j n Hf Hn Hp. pose proof (H1 f j n Hf Hn Hp) as E.
  rewrite (H2 f j n) by (done || by (eapply lookup_weaken; eauto) || by rewrite E). done.
Qed.

Lemma free_length n lv lv' s s' :
  pg_frame n lv lv' s s' -> (n < length (fp_free (pg_frames s)))%nat -> fp_free (pg_frames s') <> [].
Proof. intros (_ & _ & _ & _ & HL & _) Hn E. rewrite E in HL. simpl in HL. lia. Qed.

Lemma walk_spec lv ps root s v :
  pg_inv lv ps root s -> (3 <= length (fp_free (pg_frames s)))%nat ->
  exists pt s' lv',
    unsync_get_page_table_entry root v s = Ok (pt + 8 * table_index 1 v, s') /\
    pg_inv lv' ps root s' /\ pg_frame 3 lv lv' s s' /\ leaf 4 (pmem s') root v = Some pt /\
    (forall f j v', lv !! f = Some j -> translate j (pmem s') f v' = translate j (pmem s) f v') /\
    leaves_kept lv (pmem s) (pmem s').
Proof.
  intros I HF. unfold unsync_get_page_table_entry.
  destruct (next_table_spec lv ps root s root 2 (table_index 4 v)) as
    (t3 & s1 & lv1 & R1 & I1 & Ht3 & P1 & A1 & F1 & T1 & K1 & L1 & _);
    [done|apply I|apply table_index_range|by intros E; rewrite E in HF; simpl in HF; lia|].
  destruct (next_table_spec lv1 ps root s1 t3 1 (table_index 3 v)) as
    (t2 & s2 & lv2 & R2 & I2 & Ht2 & P2 & A2 & F2 & T2 & K2 & L2 & _);
    [done|done|apply table_index_range|eapply free_length; [done|lia]|].
  pose proof (pg_frame_trans _ _ _ _ _ _ _ _ F1 F2) as F12.
  destruct (next_table_spec lv2 ps root s2 t2 0 (table_index 2 v)) as
    (t1 & s3 & lv3 & R3 & I3 & Ht1 & P3 & A3 & F3 & T3 & K3 & L3 & _);
    [done|done|apply table_index_range|eapply free_length; [done|simpl; lia]|].
  pose proof (pg_frame_trans _ _ _ _ _ _ _ _ F12 F3) as F13.
  destruct F1 as (S1 & _). destruct F2 as (S2 & _). destruct F3 as (S3 & _).
  exists t1, s3, lv3. split_and!; [|done|exact F13| | |].
  - rewrite (bind_ok _ _ _ _ _ R1), (bind_ok _ _ _ _ _ R2), (bind_ok _ _ _ _ _ R3). done.
  - pose proof (entries_kept_trans _ _ _ _ _ S2 K2 K3) as K23.
    rewrite (leaf_step 2 (pmem s1) (pmem s3) lv1), A1 by (done || apply I1).
    rewrite (leaf_step 1 (pmem s2) (pmem s3) lv2), A2 by
      (done || by (eapply lookup_weaken; [exact Ht3|done])).
    rewrite (leaf_step 0 (pmem s3) (pmem s3) lv3), A3 by
      (done || by (eapply lookup_weaken; [exact Ht2|done])). done.
  - intros f j v' Hf.
    rewrite (T3 f j), (T2 f j), (T1 f j) by (repeat (eapply lookup_weaken; [|done]); done). done.
  - intros f n Hf Hn.
    rewrite (L3 f n), (L2 f n), (L1 f n) by (repeat (eapply lookup_weaken; [|done]); done). done.
Qed.

(** Writing the entry the walk found. *)
(** The frames a walk takes: none when its tables are there. *)
Definition table_cost (root v : Z) s : nat := match leaf 4 (pmem s) root v with Some _ => 0 | None => 3 end.

Lemma next_table_present t i s : entry_present (load64 (pmem s) (t + 8 * i)) = true ->
  next_table t i s = Ok (entry_addr (load64 (pmem s) (t + 8 * i)), s).
Proof. intros H. unfold next_table. rewrite (bind_ok _ _ _ (load64 (pmem s) (t + 8 * i)) s) by done. rewrite H. done. Qed.

(** A walk whose tables are there leaves everything as it is. *)
Lemma walk_present root s v pt :
  leaf 4 (pmem s) root v = Some pt -> unsync_get_page_table_entry root v s = Ok (pt + 8 * table_index 1 v, s).
Proof.
  intros E. cbn [leaf] in E. unfold unsync_get_page_table_entry.
  destruct (entry_present (load64 (pmem s) (root + 8 * table_index 4 v))) eqn:E4; [|done]. rewrite (bind_ok _ _ _ _ _ (next_table_present _ _ _ E4)).
  set (t3 := entry_addr _) in *. destruct (entry_present (load64 (pmem s) (t3 + 8 * table_index 3 v))) eqn:E3; [|done].
  rewrite (bind_ok _ _ _ _ _ (next_table_present _ _ _ E3)).
  set (t2 := entry_addr (load64 (pmem s) (t3 + 8 * table_index 3 v))) in *. destruct (entry_present (load64 (pmem s) (t2 + 8 * table_index 2 v))) eqn:E2; [|done].
  rewrite (bind_ok _ _ _ _ _ (next_table_present _ _ _ E2)). by injection E as <-.
Qed.

Lemma walk_cost lv ps root s v :
  pg_inv lv ps root s -> (table_cost root v s <= length (fp_free (pg_frames s)))%nat ->
  exists pt s' lv',
    unsync_get_page_table_entry root v s = Ok (pt + 8 * table_index 1 v, s') /\
    pg_inv lv' ps root s' /\ pg_frame (table_cost root v s) lv lv' s s' /\ leaf 4 (pmem s') root v = Some pt /\
    (forall f j v', lv !! f = Some j -> translate j (pmem s') f v' = translate j (pmem s) f v') /\
    leaves_kept lv (pmem s) (pmem s').
Proof.
  unfold table_cost. intros I HF. destruct (leaf 4 (pmem s) root v) as [pt|] eqn:E; [|by apply walk_spec].
  exists pt, s, lv. split; [by apply walk_present|by split_and!; [done|apply pg_frame_refl|..]].
Qed.

Lemma write_entry_spec lv ps root s v pt e :
  pg_inv lv ps root s -> leaf 4 (pmem s) root v = Some pt -> 0 <= e < 2 ^ 64 ->
  let s' := set_pmem (store64 (pmem s) (pt + 8 * table_index 1 v) e) s in
  pg_inv lv ps root s' /\ pg_frame 0 lv lv s s' /\
  (forall v', translate 4 (pmem s') root v' =
     if decide (page_number v' = page_number v) then decode_entry e else translate 4 (pmem s) root v') /\
  (forall root' v', lv !! root' = Some 4%nat -> root' <> root ->
     translate 4 (pmem s') root' v' = translate 4 (pmem s) root' v').
Proof.
  intros [HO HT HW HR [Hp1 [Hp2 Hp3]] Hpr] HL He s'.
  assert (Hpt : lv !! pt = Some 1%nat) by (by apply (write_leaf_level lv (pmem s) root v)).
  destruct (tk_frame _ _ HT _ _ Hpt) as (Ha & _). pose proof (table_index_range 1 v) as Hi.
  destruct (set_pmem_owned s pt (store64 (pmem s) (pt + 8 * table_index 1 v) e)) as (HO2 & HF2 & Hown2);
    [done|by eapply HW| |].
  { apply agree_outside_store; [lia|unfold PAGE_SIZE; lia|apply agree_outside_refl]. }
  fold s' in HO2, HF2, Hown2.
  assert (Em : pmem s' = store64 (pmem s) (pt + 8 * table_index 1 v) e) by apply pmem_set_pmem.
  assert (HFr : forall g y, fp_owned (pg_frames s) g -> g mod PAGE_SIZE = 0 -> lv !! g = None ->
     g <= y -> y + 8 <= g + PAGE_SIZE -> load64 (pmem s') y = load64 (pmem s) y).
  { intros g y Hg Hga Hgn H1 H2. rewrite Em. apply load64_store64_ne.
    assert (g <> pt) by (intros ->; congruence).
    destruct (frames_apart g pt) as [|]; [assumption..| |]; unfold PAGE_SIZE in *; lia. }
  split_and!; [split|split_and!| |].
  - exact HO2.
  - rewrite Em. by eapply write_leaf_tables.
  - intros f k Hf. apply Hown2. by eapply HW.
  - exact HR.
  - split_and!; [by apply Hown2|assumption..].
  - rewrite <-Hpr. apply (HFr ps); [assumption..|lia|unfold PAGE_SIZE; lia].
  - done.
  - intros g. apply Hown2.
  - done.
  - exact HFr.
  - rewrite HF2. lia.
  - done.
  - done.
  - intros v'. rewrite Em. by apply (write_leaf_translate lv).
  - intros root' v' Hr' Hne. rewrite Em.
    exact (write_leaf_translate_other lv (pmem s) root v pt e HT HR HL He root' v' Hr' Hne).
Qed.

(** The physical address in canonical form: bit 47 copied upwards. *)
Definition canonical (p : Z) : Z :=
  if Z.testbit p 47 then Z.land p ADDR_MASK + (2 ^ 64 - 2 ^ 48) else Z.land p ADDR_MASK.

Lemma map_entry_range p fl :
  0 <= fl < PAGE_SIZE -> 0 <= Z.lor (Z.land p ADDR_MASK) fl < 2 ^ 64.
Proof.
  intros Hf. destruct (entry_addr_range p) as [Hr Hm]. unfold entry_addr in *.
  destruct (entry_addr_flags (Z.land p ADDR_MASK) fl) as [E _]; [assumption..|].
  rewrite E. unfold PAGE_SIZE in *. lia.
Qed.

Lemma bit47_mask p : (Z.land (Z.land p ADDR_MASK) 0x0000800000000000 =? 0) = negb (Z.testbit p 47).
Proof.
  rewrite <-Z.land_assoc. change (Z.land ADDR_MASK 0x0000800000000000) with (2 ^ 47).
  destruct (Z.testbit p 47) eqn:E; cbn [negb].
  - apply Z.eqb_neq. intros H. assert (Z.testbit (Z.land p (2 ^ 47)) 47 = true) as H2.
    { by rewrite Z.land_spec, E, Z.pow2_bits_true. }
    by rewrite H, Z.bits_0 in H2.
  - apply Z.eqb_eq. apply Z.bits_inj'. intros n Hn. rewrite Z.land_spec, Z.bits_0, Z.pow2_bits_eqb by lia.
    destruct (47 =? n) eqn:En; [apply Z.eqb_eq in En as <-; by rewrite E|apply andb_false_r].
Qed.

(** Flags in the low bits do not change the address. *)
Lemma canonical_flags p fl :
  0 <= fl < PAGE_SIZE -> canonical (Z.lor (Z.land p ADDR_MASK) fl) = canonical p.
Proof.
  intros Hfl. destruct (entry_addr_range p) as [Hr Hm]. unfold entry_addr in *.
  destruct (entry_addr_flags (Z.land p ADDR_MASK) fl) as [_ E2]; [done..|].
  unfold canonical. unfold entry_addr in E2. rewrite E2, Z.lor_spec, Z.land_spec.
  change (Z.testbit ADDR_MASK 47) with true. rewrite andb_true_r, (Z.bits_above_log2 fl).
  - by rewrite orb_false_r.
  - lia.
  - unfold PAGE_SIZE in Hfl. destruct (decide (fl = 0)) as [->|]; [done|].
    apply Z.log2_lt_pow2; lia.
Qed.

Lemma canonical_wrap p : canonical (wrap64 p) = canonical p.
Proof.
  unfold canonical, wrap64, wrap. rewrite Z.mod_pow2_bits_low by lia.
  assert (E : Z.land (p mod 2 ^ 64) ADDR_MASK = Z.land p ADDR_MASK); [|by rewrite E].
  rewrite <-Z.land_ones by lia. rewrite <-Z.land_assoc. by change (Z.land (Z.ones 64) ADDR_MASK) with ADDR_MASK.
Qed.

Lemma same_page_translate m root v v' :
  page_number v' = page_number v -> translate 4 m root v' = translate 4 m root v.
Proof.
  intros Hpg. rewrite same_page_indices in Hpg. cbn [translate]. by rewrite !Hpg by lia.
Qed.

(** What the decoder makes of an entry. *)
Lemma decode_entry_spec e :
  decode_entry e = MkMapState (canonical e) (e mod PAGE_SIZE) (Z.testbit e 0).
Proof.
  unfold decode_entry, canonical. rewrite bit47_mask, negb_involutive.
  assert (Hfl : Z.land e 0xfff = e mod PAGE_SIZE).
  { change 0xfff with (Z.ones 12). by rewrite Z.land_ones. }
  assert (HP : (Z.land (Z.land e 0xfff) PAGE_PRESENT =? 0) = negb (Z.testbit e 0)).
  { rewrite <-Z.land_assoc. change (Z.land 0xfff PAGE_PRESENT) with (Z.ones 1).
    rewrite Z.land_ones by lia. rewrite Z.bit0_eqb. change (2 ^ 1) with 2.
    pose proof (Z.mod_pos_bound e 2). destruct (Z.eqb_spec (e mod 2) 0), (Z.eqb_spec (e mod 2) 1); simpl; lia. }
  rewrite HP, Hfl.
  assert (HC : (if Z.testbit e 47 then Z.lor (Z.land e ADDR_MASK) 0xffff000000000000 else Z.land e ADDR_MASK) =
    (if Z.testbit e 47 then Z.land e ADDR_MASK + (2 ^ 64 - 2 ^ 48) else Z.land e ADDR_MASK)).
  { destruct (Z.testbit e 47); [|done]. destruct (entry_addr_range e) as [Hr _]. unfold entry_addr in Hr.
    rewrite Z.lor_comm. change 0xffff000000000000 with (0xffff * 2 ^ 48 + 0).
    rewrite lor_low_bits by lia. rewrite Z.lor_0_l. lia. }
  rewrite HC. by destruct (Z.testbit e 0).
Qed.

(** ** The operations *)

Lemma get_physical_address_run lv ps root s v :
  pg_inv lv ps root s -> get_physical_address ps v s = Ok (translate 4 (pmem s) root v, s).
Proof. intros I. unfold get_physical_address, bind, get_raw_paging_structure, pread, gets.
  by rewrite (pi_ps_root _ _ _ _ I). Qed.

(** What an operation on the structure at [ps] guarantees besides the
    translations: the invariant, the frames it may use, the pages of others. *)
(** Pages the allocator has given away and that are not tables keep their content. *)
Definition pages_kept lv lv' s s' : Prop :=
  forall g, fp_owned (pg_frames s) g -> g mod PAGE_SIZE = 0 -> lv !! g = None ->
    lv' !! g = None /\ forall y, g <= y -> y + 8 <= g + PAGE_SIZE -> load64 (pmem s') y = load64 (pmem s) y.

(** Other paging structures stay as they are. *)
Definition others_kept lv lv' root s s' : Prop :=
  pages_kept lv lv' s s' /\
  forall ps2 root2, root2 <> root -> pg_inv lv ps2 root2 s ->
    pg_inv lv' ps2 root2 s' /\ forall v', translate 4 (pmem s') root2 v' = translate 4 (pmem s) root2 v'.

(** A change of the translation that takes at most [n] frames for tables. *)
Definition pg_step_n (n : nat) lv ps root s s' : Prop :=
  exists lv', pg_inv lv' ps root s' /\ lv ⊆ lv' /\
    (length (fp_free (pg_frames s)) <= length (fp_free (pg_frames s')) + n)%nat /\
    (forall g, fp_owned (pg_frames s) g -> fp_owned (pg_frames s') g) /\
    (forall g y, fp_owned (pg_frames s) g -> g mod PAGE_SIZE = 0 -> lv !! g = None ->
       g <= y -> y + 8 <= g + PAGE_SIZE -> load64 (pmem s') y = load64 (pmem s) y) /\
    (forall root' v', lv !! root' = Some 4%nat -> root' <> root ->
       translate 4 (pmem s') root' v' = translate 4 (pmem s) root' v') /\
    others_kept lv lv' root s s'.
Definition pg_step := pg_step_n 3.

(** Walk, rewrite the entry, flush. *)
Lemma update_entry_cost lv ps root s v (upd : Z -> Z) :
  pg_inv lv ps root s -> (table_cost root v s <= length (fp_free (pg_frames s)))%nat ->
  (forall e, 0 <= e < 2 ^ 64 -> 0 <= upd e < 2 ^ 64) ->
  exists old s',
    (pte <- unsync_get_page_table_entry root v;;
     e <- pread pte;; pwrite pte (upd e);; invalidate_TLB v) s = Ok (tt, s') /\
    0 <= old < 2 ^ 64 /\ decode_entry old = translate 4 (pmem s) root v /\
    pg_step_n (table_cost root v s) lv ps root s s' /\ pg_trace s' = Invlpg v :: pg_trace s /\ pg_cr3 s' = pg_cr3 s /\
    (forall v', translate 4 (pmem s') root v' =
       if decide (page_number v' = page_number v) then decode_entry (upd old)
       else translate 4 (pmem s) root v').
Proof.
  intros I HF HU.
  destruct (walk_cost lv ps root s v I HF) as (pt & s1 & lv1 & R & I1 & Fr & HL & HT & _).
  set (old := load64 (pmem s1) (pt + 8 * table_index 1 v)).
  assert (Hold : 0 <= old < 2 ^ 64) by apply load64_range.
  destruct (write_entry_spec lv1 ps root s1 v pt (upd old) I1 HL (HU _ Hold)) as
    (I2 & Fr2 & HT2 & HO2).
  set (s2 := set_pmem _ s1) in *.
  pose proof (pg_frame_trans _ _ _ _ _ _ _ _ Fr Fr2) as Fr12. pose proof Fr12 as (S1 & P2 & P3 & P4 & P5 & P6 & P7).
  assert (HO : forall root' v', lv !! root' = Some 4%nat -> root' <> root -> translate 4 (pmem s2) root' v' = translate 4 (pmem s) root' v').
  { intros root' v' Hr' Hne. rewrite HO2 by (done || by (eapply lookup_weaken; [exact Hr'|])). by apply HT. }
  exists old, (PgState (pg_frames s2) (Invlpg v :: pg_trace s2) (pg_cr3 s2)). split_and!.
  - rewrite (bind_ok _ _ _ _ _ R). reflexivity.
  - apply Hold.
  - apply Hold.
  - rewrite <-(HT root 4%nat v (pi_root _ _ _ _ I)).
    destruct (translate_leaf 4 (pmem s1) root v) as [->|]; [|done]. by rewrite HL.
  - exists lv1. split_and!; [split; apply I2|done|rewrite Nat.add_0_r in P5; exact P5|exact P2|exact P4|exact HO|].
    split; [intros g H1 H2 H3; split; [by apply P3|intros y; by apply (P4 g)]|]. intros ps2 root2 Hne I0. pose proof (pg_inv_other _ _ _ _ _ _ _ _ _ I0 Fr12 I2) as I3. split; [split; apply I3|].
    intros v'. exact (HO root2 v' (pi_root _ _ _ _ I0) Hne).
  - cbn [pg_trace]. by rewrite P7.
  - exact P6.
  - intros v'. change (translate 4 (pmem s2) root v' = if decide (page_number v' = page_number v)
      then decode_entry (upd old) else translate 4 (pmem s) root v').
    rewrite HT2. case_decide; [done|]. apply HT. apply I.
Qed.

Lemma pg_step_le n lv ps root s s' : pg_step_n n lv ps root s s' -> (n <= 3)%nat -> pg_step lv ps root s s'.
Proof. intros (lv' & I & S & L & R) Hn. exists lv'. split_and!; [done|done|lia|apply R..]. Qed.

Lemma table_cost_le root v s : (table_cost root v s <= 3)%nat.
Proof. unfold table_cost. destruct (leaf _ _ _ _); lia. Qed.

Lemma update_entry_spec lv ps root s v (upd : Z -> Z) :
  pg_inv lv ps root s -> (3 <= length (fp_free (pg_frames s)))%nat ->
  (forall e, 0 <= e < 2 ^ 64 -> 0 <= upd e < 2 ^ 64) ->
  exists old s',
    (pte <- unsync_get_page_table_entry root v;;
     e <- pread pte;; pwrite pte (upd e);; invalidate_TLB v) s = Ok (tt, s') /\
    0 <= old < 2 ^ 64 /\ decode_entry old = translate 4 (pmem s) root v /\
    pg_step lv ps root s s' /\ pg_trace s' = Invlpg v :: pg_trace s /\ pg_cr3 s' = pg_cr3 s /\
    (forall v', translate 4 (pmem s') root v' =
       if decide (page_number v' = page_number v) then decode_entry (upd old)
       else translate 4 (pmem s) root v').
Proof.
  intros I HF HU. pose proof (table_cost_le root v s) as Hc.
  destruct (update_entry_cost lv ps root s v upd I ltac:(lia) HU) as (old & s' & R & H1 & H2 & HS & H3). exists old, s'.
  split; [exact R|]. split; [exact H1|]. split; [exact H2|]. split; [by eapply pg_step_le|exact H3].
Qed.

Lemma paging_map_cost lv ps root s v p fl :
  pg_inv lv ps root s -> (table_cost root v s <= length (fp_free (pg_frames s)))%nat ->
  exists s', paging_map ps v p fl s = Ok (tt, s') /\
    pg_step_n (table_cost root v s) lv ps root s s' /\ pg_trace s' = Invlpg v :: pg_trace s /\ pg_cr3 s' = pg_cr3 s /\
    (forall v', translate 4 (pmem s') root v' =
       if decide (page_number v' = page_number v)
       then MkMapState (canonical p) (Z.lor (fl mod PAGE_SIZE) PAGE_PRESENT) true
       else translate 4 (pmem s) root v').
Proof.
  intros I HF. set (fl' := Z.land (Z.lor fl PAGE_PRESENT) 0xfff).
  assert (Efl : fl' = Z.lor (fl mod PAGE_SIZE) PAGE_PRESENT).
  { unfold fl', PAGE_SIZE. rewrite Z.land_lor_distr_l. change 0xfff with (Z.ones 12) at 1.
    by rewrite Z.land_ones. }
  assert (Hfl : 0 <= fl' < PAGE_SIZE).
  { unfold fl'. change 0xfff with (Z.ones 12). rewrite Z.land_ones by lia. unfold PAGE_SIZE. lia. }
  set (e := Z.lor (Z.land p ADDR_MASK) fl').
  assert (He : 0 <= e < 2 ^ 64) by by apply map_entry_range.
  destruct (update_entry_cost lv ps root s v (fun _ => e) I HF) as
    (old & s' & R & _ & _ & HS & Htr & Hc & HT); [done|].
  exists s'. split_and!; [|done..|].
  - unfold paging_map, get_raw_paging_structure, pread.
    rewrite (bind_ok _ _ _ root s) by (unfold gets; by rewrite (pi_ps_root _ _ _ _ I)). exact R.
  - intros v'. rewrite HT. case_decide; [|done]. rewrite decode_entry_spec.
    destruct (entry_addr_range p) as [Hr Hm]. unfold entry_addr in *.
    destruct (entry_addr_flags (Z.land p ADDR_MASK) fl') as [E1 E2]; [done..|].
    f_equal.
    + unfold e. by apply canonical_flags.
    + rewrite <-Efl. unfold e. rewrite E1. rewrite Z.add_mod, Hm by done.
      rewrite Z.add_0_l, Z.mod_mod by done. by apply Z.mod_small.
    + unfold e. rewrite Z.lor_spec, Efl, Z.lor_spec. change (Z.testbit PAGE_PRESENT 0) with true.
      by rewrite !orb_true_r.
Qed.

Lemma paging_map_spec lv ps root s v p fl :
  pg_inv lv ps root s -> (3 <= length (fp_free (pg_frames s)))%nat ->
  exists s', paging_map ps v p fl s = Ok (tt, s') /\
    pg_step lv ps root s s' /\ pg_trace s' = Invlpg v :: pg_trace s /\ pg_cr3 s' = pg_cr3 s /\
    (forall v', translate 4 (pmem s') root v' =
       if decide (page_number v' = page_number v)
       then MkMapState (canonical p) (Z.lor (fl mod PAGE_SIZE) PAGE_PRESENT) true
       else translate 4 (pmem s) root v').
Proof.
  intros I HF. pose proof (table_cost_le root v s) as Hc. destruct (paging_map_cost lv ps root s v p fl I ltac:(lia)) as (s' & R & HS & H3).
  exists s'. split; [exact R|]. split; [by eapply pg_step_le|exact H3].
Qed.

(** C7: paging_map with three free frames makes every address of the page translate
    to the given frame and flags, leaves every other translation alone, keeps the table
    invariant and invalidates the translation of that page. *)
Theorem paging_map_correct lv ps root s v p fl :
  pg_inv lv ps root s -> (3 <= length (fp_free (pg_frames s)))%nat ->
  exists s', paging_map ps v p fl s = Ok (tt, s') /\
    pg_step lv ps root s s' /\ pg_trace s' = Invlpg v :: pg_trace s /\ pg_cr3 s' = pg_cr3 s /\
    (forall v', page_number v' = page_number v ->
       get_physical_address ps v' s' =
         Ok (MkMapState (canonical p) (Z.lor (fl mod PAGE_SIZE) PAGE_PRESENT) true, s')) /\
    (forall v' st, page_number v' <> page_number v ->
       get_physical_address ps v' s = Ok (st, s) -> get_physical_address ps v' s' = Ok (st, s')).
Proof.
  intros I HF. destruct (paging_map_spec lv ps root s v p fl I HF) as (s' & R & HS & Htr & Hc & HT).
  exists s'. split_and!; [done..| |].
  - intros v' Hv. destruct HS as (lv' & I' & _). rewrite (get_physical_address_run lv' ps root) by done.
    by rewrite HT, decide_True.
  - intros v' st Hv. destruct HS as (lv' & I' & _).
    rewrite (get_physical_address_run lv' ps root s'), (get_physical_address_run lv ps root s) by done.
    rewrite HT, decide_False by done. congruence.
Qed.

Lemma clear_present e :
  0 <= e < 2 ^ 64 ->
  let e' := Z.land e (wrap64 (Z.lnot PAGE_PRESENT)) in
  0 <= e' < 2 ^ 64 /\
  decode_entry e' =
    MkMapState (paddr (decode_entry e)) (Z.ldiff (flags (decode_entry e)) PAGE_PRESENT) false.
Proof.
  intros He e'.
  assert (E : e' = Z.ldiff e 1).
  { unfold e'. change (wrap64 (Z.lnot PAGE_PRESENT)) with (Z.ldiff (Z.ones 64) 1).
    apply Z.bits_inj'. intros n Hn. rewrite Z.land_spec, !Z.ldiff_spec.
    destruct (decide (n < 64)) as [|Hbig].
    - rewrite Z.ones_spec_low by lia. done.
    - rewrite (Z.bits_above_log2 e n); [done|lia|].
      destruct (decide (e = 0)) as [->|]; [cbn; lia|]. apply Z.log2_lt_pow2; [lia|].
      eapply Z.lt_le_trans; [apply He|]. apply Z.pow_le_mono_r; lia. }
  rewrite !decode_entry_spec. cbn [paddr flags]. rewrite E.
  assert (HB : forall n, n <> 0 -> Z.testbit (Z.ldiff e 1) n = Z.testbit e n).
  { intros n Hn. rewrite Z.ldiff_spec. change (Z.testbit 1 n) with (Z.testbit (2 ^ 0) n). rewrite Z.pow2_bits_eqb by lia.
    rewrite (proj2 (Z.eqb_neq 0 n)) by lia. by rewrite andb_true_r. }
  split.
  { change 1 with (Z.ones 1). rewrite Z.ldiff_ones_r, Z.shiftl_mul_pow2, Z.shiftr_div_pow2 by lia. lia. }
  f_equal.
  - unfold canonical. rewrite HB by lia.
    assert (EA : Z.land (Z.ldiff e 1) ADDR_MASK = Z.land e ADDR_MASK).
    { apply Z.bits_inj'. intros n Hn. rewrite !Z.land_spec. destruct (decide (n = 0)) as [->|].
      - change (Z.testbit ADDR_MASK 0) with false. by rewrite !andb_false_r.
      - by rewrite HB. }
    by rewrite EA.
  - unfold PAGE_SIZE. change 4096 with (2 ^ 12). rewrite <-!Z.land_ones by lia.
    apply Z.bits_inj'. intros n Hn. rewrite Z.land_spec, !Z.ldiff_spec, Z.land_spec. unfold PAGE_PRESENT.
    by destruct (Z.testbit e n), (Z.testbit 1 n), (Z.testbit (Z.ones 12) n).
  - rewrite Z.ldiff_spec. by rewrite andb_false_r.
Qed.

Theorem invalidate_paging_mapping_correct lv ps root s v :
  pg_inv lv ps root s -> (3 <= length (fp_free (pg_frames s)))%nat ->
  exists s', invalidate_paging_mapping ps v s = Ok (tt, s') /\
    pg_step lv ps root s s' /\ pg_trace s' = Invlpg v :: pg_trace s /\ pg_cr3 s' = pg_cr3 s /\
    (forall v' st, get_physical_address ps v' s = Ok (st, s) ->
       get_physical_address ps v' s' =
         Ok (if decide (page_number v' = page_number v)
             then MkMapState (paddr st) (Z.ldiff (flags st) PAGE_PRESENT) false else st, s')).
Proof.
  intros I HF.
  destruct (update_entry_spec lv ps root s v (fun e => Z.land e (wrap64 (Z.lnot PAGE_PRESENT))) I HF) as
    (old & s' & R & Hold & Ed & HS & Htr & Hc & HT).
  { intros e He. by apply clear_present. }
  exists s'. split_and!; [|done..|].
  - unfold invalidate_paging_mapping, get_raw_paging_structure.
    rewrite (bind_ok _ _ _ root s) by (unfold pread, gets; by rewrite (pi_ps_root _ _ _ _ I)). exact R.
  - intros v' st. destruct HS as (lv' & I' & _).
    rewrite (get_physical_address_run lv' ps root s'), (get_physical_address_run lv ps root s) by done.
    intros Hst. assert (st = translate 4 (pmem s) root v') as -> by congruence. clear Hst.
    rewrite HT. case_decide as Hpg; [|done].
    destruct (clear_present old Hold) as [_ ->]. rewrite Ed.
    by rewrite (same_page_translate (pmem s) root v v').
Qed.

(** ** Copying mappings between two structures *)

(** What the copy makes of a mapping of the source. *)
Definition recode (new_flags : Z) (st : PagingMapState) : PagingMapState :=
  if new_flags =? 0 then st else MkMapState (paddr st) new_flags (Z.testbit new_flags 0).

Lemma recode_entry e nf :
  0 <= e < 2 ^ 64 -> 0 <= nf < PAGE_SIZE -> nf <> 0 ->
  decode_entry (Z.lor (Z.land e ADDR_MASK) nf) = recode nf (decode_entry e).
Proof.
  intros He Hnf Hz. unfold recode. rewrite (proj2 (Z.eqb_neq nf 0)) by done. rewrite !decode_entry_spec.
  cbn [paddr]. destruct (entry_addr_range e) as [Hr Hm]. unfold entry_addr in *.
  destruct (entry_addr_flags (Z.land e ADDR_MASK) nf) as [E1 E2]; [done..|].
  f_equal.
  - by apply canonical_flags.
  - rewrite E1, Z.add_mod, Hm by done. rewrite Z.add_0_l, Z.mod_mod by done. by apply Z.mod_small.
  - rewrite Z.lor_spec, Z.land_spec. change (Z.testbit ADDR_MASK 0) with false.
    by rewrite andb_false_r.
Qed.

Section copy.
Context (src sroot dst droot nf : Z) (Hne : sroot <> droot) (Hnf : 0 <= nf < PAGE_SIZE).

Record copy_inv lv s : Prop := {
  ci_src : pg_inv lv src sroot s;
  ci_dst : pg_inv lv dst droot s
}.

(** One pass of the loop. *)
Lemma copy_page_spec lv s v n :
  copy_inv lv s -> (6 <= length (fp_free (pg_frames s)))%nat ->
  exists s' lv',
    copy_mapping_loop (S n) src dst v nf s =
      copy_mapping_loop n src dst (wrap64 (v + PAGE_SIZE)) nf s' /\
    copy_inv lv' s' /\ pg_frame 6 lv lv' s s' /\
    (forall v', translate 4 (pmem s') sroot v' = translate 4 (pmem s) sroot v') /\
    (forall v', translate 4 (pmem s') droot v' =
       if decide (page_number v' = page_number v) then recode nf (translate 4 (pmem s) sroot v')
       else translate 4 (pmem s) droot v').
Proof.
  intros [IS ID] HF.
  destruct (walk_spec lv src sroot s v IS) as (pt1 & s1 & lv1 & R1 & IS1 & F1 & L1 & T1 & K1); [lia|].
  pose proof (pg_inv_other _ _ _ _ _ _ _ _ _ ID F1 IS1) as ID1.
  destruct (walk_spec lv1 dst droot s1 v ID1) as (pt2 & s2 & lv2 & R2 & ID2 & F2 & L2 & T2 & K2).
  { destruct F1 as (_ & _ & _ & _ & ? & _). lia. }
  pose proof (pg_inv_other _ _ _ _ _ _ _ _ _ IS1 F2 ID2) as IS2.
  set (e := load64 (pmem s2) (pt1 + 8 * table_index 1 v)).
  assert (He : 0 <= e < 2 ^ 64) by apply load64_range.
  assert (Ee : decode_entry e = translate 4 (pmem s) sroot v).
  { rewrite <-(T1 sroot 4%nat v) by apply IS.
    destruct (translate_leaf 4 (pmem s1) sroot v) as [->|]; [|done]. rewrite L1. unfold e. f_equal.
    apply K2; [|apply table_index_range].
    apply (leaf_level lv1 (pmem s1) 3 sroot v); [apply IS1|apply IS1|done]. }
  set (e' := if nf =? 0 then e else Z.lor (Z.land e ADDR_MASK) nf).
  assert (He' : 0 <= e' < 2 ^ 64).
  { unfold e'. destruct (nf =? 0); [done|]. by apply map_entry_range. }
  assert (Ee' : decode_entry e' = recode nf (translate 4 (pmem s) sroot v)).
  { unfold e'. destruct (Z.eqb_spec nf 0) as [Ez|].
    - rewrite Ez. exact Ee.
    - rewrite <-Ee. by apply recode_entry. }
  destruct (write_entry_spec lv2 dst droot s2 v pt2 e' ID2 L2 He') as (ID3 & F3 & T3 & O3).
  set (s3 := set_pmem _ s2) in *.
  pose proof (pg_inv_other _ _ _ _ _ _ _ _ _ IS2 F3 ID3) as IS3.
  pose proof (pg_frame_trans _ _ _ _ _ _ _ _ (pg_frame_trans _ _ _ _ _ _ _ _ F1 F2) F3) as F13.
  exists s3, lv2. split_and!; [|by split|exact F13| |].
  - cbn [copy_mapping_loop]. unfold get_raw_paging_structure.
    rewrite (bind_ok _ _ _ sroot s) by (unfold pread, gets; by rewrite (pi_ps_root _ _ _ _ IS)).
    rewrite (bind_ok _ _ _ _ _ R1).
    rewrite (bind_ok _ _ _ droot s1) by (unfold pread, gets; by rewrite (pi_ps_root _ _ _ _ ID1)).
    rewrite (bind_ok _ _ _ _ _ R2). rewrite (bind_ok _ _ _ e s2) by done.
    rewrite (bind_ok _ _ _ tt s3); [reflexivity|]. unfold s3, e'. by destruct (nf =? 0).
  - intros v'. rewrite O3; [|apply IS2|done].
    rewrite T2 by apply IS1. by rewrite T1 by apply IS.
  - intros v'. rewrite T3. case_decide as Hpg.
    + rewrite Ee'. by rewrite (same_page_translate (pmem s) sroot v v').
    + rewrite T2 by apply ID1. by rewrite T1 by apply ID.
Qed.

(** The pages of a range of [n] pages from the page of [v], modulo the address
    space. *)
Definition in_pages (n v v' : Z) : bool := ((page_number v' - page_number v) mod 2 ^ 36 <? n).

Lemma in_pages_succ n v v' :
  0 <= n ->
  in_pages (n + 1) v v' =
    bool_decide (page_number v' = page_number v) || in_pages n (wrap64 (v + PAGE_SIZE)) v'.
Proof.
  intros Hn. unfold in_pages. rewrite page_number_next.
  assert (0 <= page_number v < 2 ^ 36 /\ 0 <= page_number v' < 2 ^ 36) as [H1 H2].
  { unfold page_number. lia. }
  generalize dependent (page_number v). generalize dependent (page_number v'). intros a Ha b Hb.
  case_bool_decide; cbn [orb].
  - apply Z.ltb_lt. subst. rewrite Z.sub_diag. cbn. lia.
  - apply eq_true_iff_eq. rewrite !Z.ltb_lt. lia.
Qed.

Lemma copy_loop_spec n lv s v :
  copy_inv lv s -> (6 * n <= length (fp_free (pg_frames s)))%nat ->
  exists s' lv',
    copy_mapping_loop n src dst v nf s = Ok (tt, s') /\
    copy_inv lv' s' /\ pg_frame (6 * n) lv lv' s s' /\
    (forall v', translate 4 (pmem s') sroot v' = translate 4 (pmem s) sroot v') /\
    (forall v', translate 4 (pmem s') droot v' =
       if in_pages (Z.of_nat n) v v' then recode nf (translate 4 (pmem s) sroot v')
       else translate 4 (pmem s) droot v').
Proof.
  revert lv s v. induction n as [|n IH]; intros lv s v I HF.
  { exists s, lv. split_and!; try done; [apply pg_frame_refl|].
    intros v'. unfold in_pages. rewrite (proj2 (Z.ltb_ge _ _)); [done|].
    apply Z.mod_pos_bound. lia. }
  destruct (copy_page_spec lv s v n I) as (s1 & lv1 & R1 & I1 & F1 & S1 & D1); [lia|].
  destruct (IH lv1 s1 (wrap64 (v + PAGE_SIZE)) I1) as (s2 & lv2 & R2 & I2 & F2 & S2 & D2).
  { destruct F1 as (_ & _ & _ & _ & ? & _). lia. }
  exists s2, lv2. split_and!; [by rewrite R1|done| | |].
  - eapply pg_frame_mono; [|exact (pg_frame_trans _ _ _ _ _ _ _ _ F1 F2)]. lia.
  - intros v'. by rewrite S2, S1.
  - intros v'. rewrite D2, S1, D1, Nat2Z.inj_succ. unfold Z.succ. rewrite in_pages_succ by lia.
    destruct (in_pages (Z.of_nat n) _ v'); [by rewrite orb_true_r|]. rewrite orb_false_r.
    by case_decide; case_bool_decide.
Qed.

(** C15: Copying a range of mappings gives every page of the range in the
    destination the translation of the source, with the new flags when they are given,
    and leaves the source and the other pages alone. *)
Theorem copy_paging_structure_mapping_correct lv s start_vaddr size_bytes :
  let n := (size_bytes + PAGE_SIZE - 1) / PAGE_SIZE in
  pg_inv lv src sroot s -> pg_inv lv dst droot s -> 0 <= size_bytes <= 2 ^ 64 - PAGE_SIZE ->
  6 * n <= Z.of_nat (length (fp_free (pg_frames s))) ->
  exists s' lv',
    copy_paging_structure_mapping_no_page_invalidation src dst start_vaddr size_bytes nf s = Ok (tt, s') /\
    pg_inv lv' src sroot s' /\ pg_inv lv' dst droot s' /\ lv ⊆ lv' /\ pg_trace s' = pg_trace s /\
    (forall v' st, get_physical_address src v' s = Ok (st, s) ->
       get_physical_address src v' s' = Ok (st, s')) /\
    (forall v' st st', get_physical_address src v' s = Ok (st, s) ->
       get_physical_address dst v' s = Ok (st', s) ->
       get_physical_address dst v' s' =
         Ok (if in_pages n start_vaddr v' then recode nf st else st', s')).
Proof.
  intros n IS ID Hsz HF.
  assert (Hn : 0 <= n) by (unfold n, PAGE_SIZE in *; lia).
  destruct (copy_loop_spec (Z.to_nat n) lv s start_vaddr) as (s' & lv' & R & [IS' ID'] & Fr & S1 & D1);
    [by split|lia|].
  rewrite Z2Nat.id in D1 by done.
  exists s', lv'. split_and!; try done; [|apply Fr|apply Fr| |].
  - unfold copy_paging_structure_mapping_no_page_invalidation. by rewrite (proj2 (Z.ltb_ge _ _)) by lia.
  - intros v' st. rewrite (get_physical_address_run lv' src sroot s'), (get_physical_address_run lv src sroot s) by done.
    rewrite S1. congruence.
  - intros v' st st'.
    rewrite (get_physical_address_run lv' dst droot s'), (get_physical_address_run lv src sroot s),
      (get_physical_address_run lv dst droot s) by done.
    rewrite D1. intros H1 H2. assert (translate 4 (pmem s) sroot v' = st) as -> by congruence.
    by assert (translate 4 (pmem s) droot v' = st') as -> by congruence.
Qed.

End copy.

End walk.
