(* ===== verification/PagingCreate.v ===== *)
(** * Page tables: making paging structures

    The structure of the boot loader's tables ([get_bootloader_paging_structure])
    and a new one with nothing mapped ([create_empty_kernel_paging_structure]). *)

From S2P Require Import Prelude Memory Sync Interfaces Paging PagingInv PagingTop.
Import Sequential.

Lemma load64_store8_ne m a v y : a < y \/ y + 8 <= a -> load64 (store8 m a v) y = load64 m y.
Proof. intros H. apply (load_le_ext 8). intros c Hc. apply load8_store8_ne. lia. Qed.

Lemma tables_agree lv m m' : tables_ok lv m ->
  (forall f k n, lv !! f = Some k -> 0 <= n < 512 -> load64 m' (f + 8 * n) = load64 m (f + 8 * n)) -> tables_ok lv m'.
Proof.
  intros [A B C] H. split; [exact A| |].
  - intros f k i Hf Hi. rewrite (H f _ i Hf Hi). by apply B.
  - intros f k i f' k' i' Hf Hf' Hi Hi'. rewrite (H f _ i Hf Hi), (H f' _ i' Hf' Hi'). by eapply C.
Qed.

Section create.
Context {F : Type} {FP : FrameProvider F} {FL : FrameLaws F}.
Implicit Types (s : pg_state F) (lv : gmap Z nat).
#[local] Abbreviation owned s := (fp_owned (pg_frames s)).
#[local] Abbreviation free s := (fp_free (pg_frames s)).

(** The tables without a structure that refers to them. *)
Record table_base lv s : Prop := {
  tb_ok : fp_ok (pg_frames s);
  tb_tables : tables_ok lv (pmem s);
  tb_owned : forall f k, lv !! f = Some k -> owned s f
}.

Lemma pg_inv_base n lv lv' ps root s s' : pg_inv lv ps root s -> pg_frame n lv lv' s s' -> table_base lv' s' -> pg_inv lv' ps root s'.
Proof.
  intros [HO HT HW HR (Hp1 & Hp2 & Hp3) Hpr] (F1 & F2 & F3 & F4 & _) [HO' HT' HW']. split; [assumption..| | |].
  - by eapply lookup_weaken.
  - split_and!; auto.
  - rewrite <-Hpr. apply (F4 ps); [assumption..|lia|unfold PAGE_SIZE; lia].
Qed.

Definition tables_kept lv s s' : Prop := forall f j v, lv !! f = Some j -> translate j (pmem s') f v = translate j (pmem s) f v.

(** A frame that holds a structure for the root [root]. *)
Lemma new_structure_spec lv root s : table_base lv s -> lv !! root = Some 4%nat -> free s <> [] ->
  exists ps s', (ps <- alloc_frame;; init_paging_lock ps;; pwrite ps root;; ret ps) s = Ok (ps, s') /\
    pg_inv lv ps root s' /\ pg_frame 1 lv lv s s' /\ tables_kept lv s s'.
Proof.
  intros [HO HT HW] HR HF. destruct (fp_alloc_total _ HO HF) as (f & fs & R).
  destruct (fp_alloc_ok _ _ _ HO R) as (HO' & HP & Hm & Ha & Hr & Hn & Hown).
  set (s1 := put frames_lens fs s). assert (Em : pmem s1 = pmem s) by exact Hm.
  set (m2 := store64 (store8 (pmem s1) (f + 8) 0) f root).
  assert (HA : forall y, y + 8 <= f \/ f + PAGE_SIZE <= y -> load64 m2 y = load64 (pmem s) y).
  { intros y Hy. unfold m2, PAGE_SIZE in *. rewrite load64_store64_ne, load64_store8_ne, Em by lia. reflexivity. }
  destruct (set_pmem_owned s1 f m2) as (HO2 & HF2 & Hown2); [done|apply Hown; by left|intros y Hy; by rewrite HA, Em|].
  assert (Em2 : pmem (set_pmem m2 s1) = m2) by apply pmem_set_pmem.
  assert (HE : forall g k n, lv !! g = Some k -> 0 <= n < 512 -> load64 m2 (g + 8 * n) = load64 (pmem s) (g + 8 * n)).
  { intros g k n Hg Hi. apply HA. destruct (tk_frame _ _ HT _ _ Hg) as (Hga & _ & _). assert (g <> f) by (intros ->; destruct Hn; by eapply HW).
    destruct (frames_apart g f) as [|]; [assumption..| |]; unfold PAGE_SIZE in *; lia. }
  assert (HT2 : tables_ok lv m2) by (by eapply tables_agree).
  exists f, (set_pmem m2 s1). split_and!.
  - unfold alloc_frame, zoom, bind. cbn [view frames_lens]. rewrite R. unfold init_paging_lock, pwrite, modify, ret. fold s1.
    rewrite pmem_set_pmem, set_pmem_set_pmem. reflexivity.
  - split; [exact HO2|by rewrite Em2| |exact HR| |].
    + intros g k Hg. apply Hown2, Hown. right. by eapply HW.
    + split; [apply Hown2, Hown; by left|]. split; [|exact Ha]. destruct (lv !! f) eqn:E; [|done]. destruct Hn. by eapply HW.
    + rewrite Em2. unfold m2. apply load64_store64_eq. destruct (tk_frame _ _ HT _ _ HR) as (_ & ? & _). lia.
  - split_and!; [reflexivity| |intros g _ Hg; exact Hg| | |reflexivity|reflexivity].
    + intros g Hg. apply Hown2, Hown. by right.
    + intros g y Hg Hga Hgn H1 H2. rewrite Em2. apply HA. assert (g <> f) by (intros ->; contradiction).
      destruct (frames_apart g f) as [|]; [assumption..| |]; unfold PAGE_SIZE in *; lia.
    + rewrite HF2. apply Permutation_length in HP. cbn in *. lia.
  - intros g j v Hg. rewrite Em2. by apply (translate_agree lv).
Qed.

(** ** The boot loader's tables *)

Lemma get_bootloader_paging_structure_spec lv s : table_base lv s -> lv !! Z.land (pg_cr3 s) 0xfffffffffffff000 = Some 4%nat -> free s <> [] ->
  exists ps s', get_bootloader_paging_structure s = Ok (ps, s') /\ pg_inv lv ps (Z.land (pg_cr3 s) 0xfffffffffffff000) s' /\
    pg_frame 1 lv lv s s' /\ tables_kept lv s s'.
Proof. intros TB HR HF. exact (new_structure_spec lv _ s TB HR HF). Qed.

(** ** An empty structure *)

(** A zeroed frame becomes a table nothing refers to. *)
Lemma new_root_spec lv s : table_base lv s -> free s <> [] ->
  exists root s', (forall A (k : Z -> M (pg_state F) A), (root <- alloc_frame;; pzero root PAGE_SIZE;; k root) s = k root s') /\
    lv !! root = None /\ table_base (<[root := 4%nat]> lv) s' /\ pg_frame 1 lv (<[root := 4%nat]> lv) s s' /\ tables_kept lv s s' /\
    (forall n, 0 <= n < 512 -> load64 (pmem s') (root + 8 * n) = 0).
Proof.
  intros [HO HT HW] HF. destruct (new_table_spec s HO HF) as (g & s1 & R1 & HO1 & Em1 & Ha & Hr & Hn & Hown & HL & Hc3 & Htr).
  assert (Hg : lv !! g = None) by (destruct (lv !! g) eqn:E; [destruct Hn; by eapply HW|done]).
  assert (HA : forall y, y + 8 <= g \/ g + PAGE_SIZE <= y -> load64 (pmem s1) y = load64 (pmem s) y).
  { intros y Hy. rewrite Em1. apply load64_memset_out; [unfold PAGE_SIZE; lia|done]. }
  assert (HZ : forall n, 0 <= n < 512 -> load64 (pmem s1) (g + 8 * n) = 0).
  { intros n Hi. rewrite Em1. apply load64_memset_zero; unfold PAGE_SIZE; lia. }
  assert (HE : forall f k n, lv !! f = Some k -> 0 <= n < 512 -> load64 (pmem s1) (f + 8 * n) = load64 (pmem s) (f + 8 * n)).
  { intros f k n Hf Hi. apply HA. destruct (tk_frame _ _ HT _ _ Hf) as (Hfa & _ & _). assert (f <> g) by congruence.
    destruct (frames_apart f g) as [|]; [assumption..| |]; unfold PAGE_SIZE in *; lia. }
  assert (HT1 : tables_ok lv (pmem s1)) by (by eapply tables_agree).
  exists g, s1. split_and!; [|exact Hg| | | |exact HZ].
  - intros A k. unfold new_table in R1. unfold bind, alloc_frame, zoom, pzero, modify, ret in *. cbn [view frames_lens] in *.
    destruct (fp_alloc (pg_frames s)) as [[f t]| | | |] eqn:R; try discriminate R1.
    destruct (fp_alloc_ok _ _ _ HO R) as (_ & _ & _ & Hfa & Hfr & _). rewrite frame_masked in R1 by first [assumption|lia]. injection R1 as <- <-. reflexivity.
  - split; [exact HO1| |].
    + destruct HT1 as [A B C]. split.
      * intros f k [[<- <-]|[_ Hf]]%lookup_insert_Some; [split_and!; [exact Ha|lia|lia|lia|lia]|by apply A].
      * intros f k i [[<- _]|[_ Hf]]%lookup_insert_Some Hi Hp; [by rewrite HZ in Hp|].
        pose proof (B f k i Hf Hi Hp) as Hc. rewrite lookup_insert_ne; [exact Hc|]. intros E. rewrite <-E in Hc. congruence.
      * intros f k i f' k' i' [[<- _]|[_ Hf]]%lookup_insert_Some [[<- _]|[_ Hf']]%lookup_insert_Some Hi Hi' Hp Hp' HEq;
          [by rewrite HZ in Hp|by rewrite HZ in Hp|by rewrite HZ in Hp'|by eapply C].
    + intros f k [[<- _]|[_ Hf]]%lookup_insert_Some; apply Hown; [by left|right; by eapply HW].
  - split_and!; [| | | |exact HL|exact Hc3|exact Htr].
    + by apply insert_subseteq.
    + intros x Hx. apply Hown. by right.
    + intros x Hx Hxn. rewrite lookup_insert_ne; [done|]. intros ->. contradiction.
    + intros x y Hx Hxa Hxn H1 H2. apply HA. assert (x <> g) by (intros ->; contradiction).
      destruct (frames_apart x g) as [|]; [assumption..| |]; unfold PAGE_SIZE in *; lia.
  - intros f j v Hf. by apply (translate_agree lv).
Qed.

(** One turn of the fill loop: the walk creates the missing table the same way. *)
Lemma fill_step_spec lv ps root t i s : pg_inv lv ps root s -> lv !! t = Some 4%nat -> 0 <= i < 512 -> free s <> [] ->
  load64 (pmem s) (t + 8 * i) = 0 ->
  exists s' lv', (forall A (k : M (pg_state F) A),
      (new_frame <- new_table;; pwrite (t + 8 * i) (Z.lor (Z.lor new_frame PAGE_PRESENT) PAGE_WRITABLE);; k) s = k s') /\
    pg_inv lv' ps root s' /\ pg_frame 1 lv lv' s s' /\ tables_kept lv s s' /\
    (forall n, 0 <= n < 512 -> n <> i -> load64 (pmem s') (t + 8 * n) = load64 (pmem s) (t + 8 * n)).
Proof.
  intros I Ht Hi HF H0. destruct (next_table_spec lv ps root s t 2 i I Ht Hi HF) as (g & s' & lv' & R & I' & _ & _ & _ & Fr & T & _ & _ & O).
  exists s', lv'. split; [|by split_and!]. intros A k. unfold next_table in R.
  rewrite (bind_ok _ _ _ (load64 (pmem s) (t + 8 * i)) s) in R by done. rewrite H0 in R. change (negb (entry_present 0)) with true in R. cbn [when] in R.
  unfold bind in *. destruct (new_table s) as [[f s1]| | | |]; try discriminate R. by injection R as _ <-.
Qed.

Lemma fill_tables_spec n lv ps root t i s : pg_inv lv ps root s -> lv !! t = Some 4%nat -> 0 <= i -> i + Z.of_nat n <= 512 -> (n <= length (free s))%nat ->
  (forall j, i <= j < 512 -> load64 (pmem s) (t + 8 * j) = 0) ->
  exists s' lv', fill_tables n t i s = Ok (tt, s') /\ pg_inv lv' ps root s' /\ pg_frame n lv lv' s s' /\ tables_kept lv s s'.
Proof.
  revert lv i s. induction n as [|n IH]; intros lv i s I Ht Hi Hn HF H0.
  { exists s, lv. split_and!; [done|done|apply pg_frame_refl|done]. }
  destruct (fill_step_spec lv ps root t i s I Ht ltac:(lia)) as (s1 & lv1 & R1 & I1 & F1 & T1 & O1);
    [intros E; rewrite E in HF; cbn in HF; lia|apply H0; lia|].
  assert (Ht1 : lv1 !! t = Some 4%nat) by (eapply lookup_weaken; [exact Ht|apply F1]).
  destruct (IH lv1 (i + 1) s1 I1 Ht1) as (s2 & lv2 & R2 & I2 & F2 & T2); [lia|lia| | |].
  { destruct F1 as (_ & _ & _ & _ & ? & _). lia. }
  { intros j Hj. rewrite O1 by lia. apply H0. lia. }
  exists s2, lv2. split_and!; [by rewrite <-R2; apply R1|done|exact (pg_frame_trans _ _ _ _ _ _ _ _ F1 F2)|].
  intros f j v Hf. rewrite T2 by (eapply lookup_weaken; [exact Hf|apply F1]). by apply T1.
Qed.

Lemma create_empty_spec lv ps root s : pg_inv lv ps root s -> (514 <= length (free s))%nat ->
  exists ps2 root2 s' lv', create_empty_kernel_paging_structure s = Ok (ps2, s') /\ pg_inv lv' ps2 root2 s' /\ pg_inv lv' ps root s' /\
    pg_frame 514 lv lv' s s' /\ tables_kept lv s s' /\ root2 <> root /\ ps2 <> ps /\
    (forall v, translate 4 (pmem s') root2 v = mmap_not_present).
Proof.
  intros I HF. assert (TB : table_base lv s) by (destruct I; by split).
  assert (NE : forall n s', (length (free s) <= length (free s') + n)%nat -> (n < 514)%nat -> free s' <> []).
  { intros n s' Hl Hn E. rewrite E in Hl. cbn in Hl. lia. }
  destruct (new_root_spec lv s TB) as (t & s1 & R1 & Hn1 & TB1 & F1 & T1 & Z1); [by apply (NE 0%nat); lia|].
  pose proof (pg_inv_base _ _ _ _ _ _ _ I F1 TB1) as I1.
  destruct (fill_tables_spec 512 _ ps root t 0 s1 I1 (lookup_insert_eq _ _ _)) as (s2 & lv2 & R2 & I2 & F2 & T2); [lia|lia| | |].
  { destruct F1 as (_ & _ & _ & _ & ? & _). lia. } { intros j Hj. apply Z1. lia. }
  assert (Ht2 : lv2 !! t = Some 4%nat) by (eapply lookup_weaken; [apply lookup_insert_eq|apply F2]).
  destruct (new_structure_spec lv2 t s2) as (ps2 & s3 & R3 & I3 & F3 & T3); [destruct I2; by split|done| |].
  { destruct F1 as (_ & _ & _ & _ & L1 & _). destruct F2 as (_ & _ & _ & _ & L2 & _). apply (NE 513%nat); lia. }
  pose proof (pg_inv_base _ _ _ _ _ _ _ I2 F3 ltac:(destruct I3; by split)) as I3'.
  pose proof (pg_frame_trans _ _ _ _ _ _ _ _ (pg_frame_trans _ _ _ _ _ _ _ _ F1 F2) F3) as F13.
  exists ps2, t, s3, lv2. split_and!; [|done|done|exact F13| | | |].
  - unfold create_empty_kernel_paging_structure. rewrite R1. rewrite (bind_ok _ _ _ _ _ R2). exact R3.
  - intros f j v Hf. rewrite T3 by (eapply lookup_weaken; [exact Hf|]; etrans; [apply F1|apply F2]).
    rewrite T2 by (eapply lookup_weaken; [exact Hf|apply F1]). by apply T1.
  - intros ->. destruct I as [_ _ _ HR _ _]. congruence.
  - intros ->. pose proof (pi_ps_root _ _ _ _ I3) as E1. pose proof (pi_ps_root _ _ _ _ I3') as E2. rewrite E1 in E2. subst t.
    destruct I as [_ _ _ HR _ _]. congruence.
  - intros v. rewrite T3 by done. rewrite T2 by apply lookup_insert_eq. apply translate_zero. exact Z1.
Qed.
End create.
