(* ===== verification/PagingRuns.v ===== *)
(** * Page tables: concrete structures

    Two empty paging structures over the frame allocator, on which the theorems
    of the page tables are applied. *)

From S2P Require Import Prelude Memory Interfaces BootMem FrameAllocator Paging PagingInv PagingTop.

(** Structure 1: descriptor 0x500000, root 0x400000; structure 2: descriptor
    0x700000, root 0x600000. *)
Definition demo_tables : mem := store64 (store64 ∅ 0x500000 0x400000) 0x700000 0x600000.

(** Sixty-four free frames at 16 MB; the stack of the allocator is at 2 MB. *)
Definition demo_frames : frame_state :=
  MkFrameState demo_tables true true small_boot true [MkRange 0x1000000 0x40000]
    (MkFrameStack 0x200000 0x200000 0x1000) 0 64 false.

Definition demo_paging : pg_state frame_state := PgState demo_frames [] 0x400000.

Definition demo_levels : gmap Z nat := {[ 0x400000 := 4%nat; 0x600000 := 4%nat ]}.

Lemma demo_levels_inv f k :
  demo_levels !! f = Some k -> (f = 0x400000 \/ f = 0x600000) /\ k = 4%nat.
Proof.
  unfold demo_levels. intros [[<- <-]|[_ [<- <-]%lookup_singleton_Some]]%lookup_insert_Some; auto.
Qed.

Lemma load64_empty a : load64 ∅ a = 0.
Proof. Local Transparent load64. reflexivity. Qed.

Lemma demo_zero f k i : demo_levels !! f = Some k -> 0 <= i < 512 -> load64 demo_tables (f + 8 * i) = 0.
Proof.
  intros [Hf _]%demo_levels_inv Hi. unfold demo_tables. rewrite !load64_store64_ne by lia.
  apply load64_empty.
Qed.

Lemma demo_tables_ok : tables_ok demo_levels demo_tables.
Proof.
  split.
  - intros f k [[-> | ->] ->]%demo_levels_inv; unfold PAGE_SIZE; split_and!; (reflexivity || lia).
  - intros f k i Hf Hi. rewrite (demo_zero f _ i Hf Hi). discriminate.
  - intros f k i f' k' i' Hf Hf' Hi Hi'. rewrite (demo_zero f _ i Hf Hi). discriminate.
Qed.

Lemma demo_frames_range f : f ∈ frames demo_frames ->
  0x1000000 <= f < 0x1040000 /\ f mod PAGE_SIZE = 0.
Proof.
  intros Hf. change (frames demo_frames) with (ranges_frames [MkRange 0x1000000 0x40000]) in Hf.
  unfold ranges_frames in Hf. cbn [fmap list_fmap concat] in Hf. rewrite app_nil_r in Hf.
  unfold range_frames in Hf. apply list_elem_of_fmap in Hf as (n & -> & Hn%elem_of_seq).
  cbn [start_address range_size] in *. unfold PAGE_SIZE in *.
  change (Z.to_nat (0x40000 / 4096)) with 64%nat in Hn. lia.
Qed.

Lemma demo_provider_ok : provider_ok demo_frames.
Proof.
  exists (frames demo_frames). split_and!; [|reflexivity..|].
  - split.
    + split; cbn; lia.
    + repeat constructor; unfold PAGE_SIZE; cbn; lia.
    + cbn. lia.
    + apply (bool_decide_unpack _). by vm_compute.
    + intros f Hf. exact Hf.
    + intros f Hf%demo_frames_range. lia.
    + by vm_compute.
    + by vm_compute.
  - intros f Hf%demo_frames_range. unfold page_clear, stack_area. cbn. unfold PAGE_SIZE in *. lia.
Qed.

Lemma demo_owned f : 0x400000 <= f < 0x1000000 -> provider_owned demo_frames f.
Proof.
  intros Hf. split; [intros H%demo_frames_range; lia|]. unfold page_clear, stack_area. cbn. lia.
Qed.

Lemma demo_inv ps root :
  (ps = 0x500000 /\ root = 0x400000) \/ (ps = 0x700000 /\ root = 0x600000) ->
  pg_inv demo_levels ps root demo_paging.
Proof.
  intros H. split.
  - exact demo_provider_ok.
  - exact demo_tables_ok.
  - intros f k [[-> | ->] _]%demo_levels_inv; apply demo_owned; lia.
  - destruct H as [[-> ->]|[-> ->]]; reflexivity.
  - destruct H as [[-> ->]|[-> ->]]; (split; [apply demo_owned; lia|split; reflexivity]).
  - destruct H as [[-> ->]|[-> ->]]; vm_compute; reflexivity.
Qed.

Lemma demo_free n : (n <= 64)%nat -> (n <= length (fp_free (pg_frames demo_paging)))%nat.
Proof. intros Hn. change (length _) with 64%nat. exact Hn. Qed.

Lemma paging_map_correct_witness :
  exists s', paging_map 0x500000 0xffff800000001000 0xb8000 PAGE_WRITABLE demo_paging = Ok (tt, s') /\
    get_physical_address 0x500000 0xffff800000001234 s' = Ok (MkMapState 0xb8000 3 true, s').
Proof.
  destruct (paging_map_correct demo_levels 0x500000 0x400000 demo_paging
    0xffff800000001000 0xb8000 PAGE_WRITABLE) as (s' & R & _ & _ & _ & HG & _).
  - apply demo_inv. left. split; reflexivity.
  - apply demo_free. lia.
  - exists s'. split; [exact R|]. apply (HG 0xffff800000001234). reflexivity.
Defined.

Lemma invalidate_paging_mapping_correct_witness :
  exists s', invalidate_paging_mapping 0x500000 0x1000 demo_paging = Ok (tt, s') /\
    get_physical_address 0x500000 0x1fff s' = Ok (mmap_not_present, s').
Proof.
  destruct (invalidate_paging_mapping_correct demo_levels 0x500000 0x400000 demo_paging 0x1000)
    as (s' & R & _ & _ & _ & HG).
  - apply demo_inv. left. split; reflexivity.
  - apply demo_free. lia.
  - exists s'. split; [exact R|]. apply (HG 0x1fff mmap_not_present). vm_compute. reflexivity.
Defined.

Lemma copy_paging_structure_mapping_correct_witness :
  exists s',
    copy_paging_structure_mapping_no_page_invalidation 0x500000 0x700000 0x1000 0x2000 0 demo_paging =
      Ok (tt, s') /\
    get_physical_address 0x700000 0x2000 s' = Ok (mmap_not_present, s').
Proof.
  destruct (copy_paging_structure_mapping_correct 0x500000 0x400000 0x700000 0x600000 0)
    with (lv := demo_levels) (s := demo_paging) (start_vaddr := 0x1000) (size_bytes := 0x2000)
    as (s' & lv' & R & _ & _ & _ & _ & _ & HD).
  - discriminate.
  - unfold PAGE_SIZE. lia.
  - apply demo_inv. left. split; reflexivity.
  - apply demo_inv. right. split; reflexivity.
  - unfold PAGE_SIZE. lia.
  - change (length _) with 64%nat. vm_compute. discriminate.
  - exists s'. split; [exact R|].
    apply (HD 0x2000 mmap_not_present mmap_not_present); vm_compute; reflexivity.
Defined.
