(* ===== verification/Vmm.v ===== *)
(** * The virtual memory manager (mem/vmm.c)

    A manager is a doubly linked list of descriptors that partition the address
    space it manages; the descriptors live at addresses of a store, because the
    code shares and relinks them through pointers.  Reading a pointer that holds
    no descriptor is a [Fault].  The page tables, the kernel heap and the
    shootdown subsystem are called through their interfaces.  The console is the
    list of the pieces of text printed on it, if it is initialised: printing
    before that goes through the NULL buffer of an empty queue and is a [Fault]. *)

From stdpp Require Import strings.
From S2P Require Import Prelude Memory Sync Interfaces Paging.
Import Sequential.

Definition VIRTUAL_MEMORY_DESCRIPTOR_EARLY_ALLOCATION_SIZE : Z := 64.
Definition sizeof_VirtualMemoryDescriptor : Z := 64.
Definition MEMORY_MAP_PADDING : Z := PAGE_SIZE * 4.
Definition COPY_FLAGS_ON_MMAP_COPY : Z := 0.
Definition KERNEL_VMEM_START : Z := 0xffff800000000000.
Definition IDENTITY_MAP_VMEM_END : Z := 512 * GB.
Definition USER_VMEM_START : Z := IDENTITY_MAP_VMEM_END.
Definition USER_VMEM_END : Z := KERNEL_VMEM_START.
Definition LAST_VADDR : Z := 0xffffffffffffffff.
Definition KERNEL_STACK_EXPANSION_STEP : Z := 64 * KB.
Definition MINIMUM_STACK_PADDING : Z := PAGE_SIZE.
Definition PAGE_FAULT_ADDITIONAL_PAGE_LOAD : Z := 16.

Record VirtualMemoryDescriptor : Type := MkDesc {
  start_vaddr : Z; size_bytes : Z; upper_padding : Z; lower_padding : Z;
  type : VirtualMemoryType; next : Z; prev : Z; is_from_heap : bool
}.

Definition set_start_vaddr (v : Z) (d : VirtualMemoryDescriptor) :=
  MkDesc v (size_bytes d) (upper_padding d) (lower_padding d) (type d) (next d) (prev d) (is_from_heap d).
Definition set_size_bytes (v : Z) (d : VirtualMemoryDescriptor) :=
  MkDesc (start_vaddr d) v (upper_padding d) (lower_padding d) (type d) (next d) (prev d) (is_from_heap d).
Definition set_upper_padding (v : Z) (d : VirtualMemoryDescriptor) :=
  MkDesc (start_vaddr d) (size_bytes d) v (lower_padding d) (type d) (next d) (prev d) (is_from_heap d).
Definition set_lower_padding (v : Z) (d : VirtualMemoryDescriptor) :=
  MkDesc (start_vaddr d) (size_bytes d) (upper_padding d) v (type d) (next d) (prev d) (is_from_heap d).
Definition set_type (v : VirtualMemoryType) (d : VirtualMemoryDescriptor) :=
  MkDesc (start_vaddr d) (size_bytes d) (upper_padding d) (lower_padding d) v (next d) (prev d) (is_from_heap d).
Definition set_next (v : Z) (d : VirtualMemoryDescriptor) :=
  MkDesc (start_vaddr d) (size_bytes d) (upper_padding d) (lower_padding d) (type d) v (prev d) (is_from_heap d).
Definition set_prev (v : Z) (d : VirtualMemoryDescriptor) :=
  MkDesc (start_vaddr d) (size_bytes d) (upper_padding d) (lower_padding d) (type d) (next d) v (is_from_heap d).
Definition set_is_from_heap (v : bool) (d : VirtualMemoryDescriptor) :=
  MkDesc (start_vaddr d) (size_bytes d) (upper_padding d) (lower_padding d) (type d) (next d) (prev d) v.

(** What a static descriptor holds before its first use. *)
Definition zero_desc : VirtualMemoryDescriptor := MkDesc 0 0 0 0 VM_TYPE_FREE NULL NULL false.

Record VirtualMemoryManager : Type := MkVMM {
  vm_list_head : Z; paging_structure : Z; kernel_mode : bool; vmm_lock : bool
}.

Record PageFaultState : Type := MkPageFaultState {
  servicing_page_fault : bool; pf_lock : bool
}.

(** What one call prints: a string, or a number in hexadecimal. *)
Inductive console_piece : Type :=
| PText (text : string)
| PHex (number : Z).

Record vmm_state (F H D : Type) : Type := VmmState {
  vs_pg : pg_state F;
  vs_heap : H;
  vs_shootdown : D;
  vs_if : bool;
  vs_descs : gmap Z VirtualMemoryDescriptor;
  bump_allocator : Z;
  next_free_descriptor : Z;
  vs_vmms : gmap Z VirtualMemoryManager;
  vs_page_fault : PageFaultState;
  page_fault_vector : option Z;
  vs_console : option (list console_piece)
}.
Arguments VmmState {F H D}.
Arguments vs_pg {F H D}.
Arguments vs_heap {F H D}.
Arguments vs_shootdown {F H D}.
Arguments vs_if {F H D}.
Arguments vs_descs {F H D}.
Arguments bump_allocator {F H D}.
Arguments next_free_descriptor {F H D}.
Arguments vs_vmms {F H D}.
Arguments vs_page_fault {F H D}.
Arguments page_fault_vector {F H D}.
Arguments vs_console {F H D}.

Definition is_kernel_virtual_memory (vaddr : Z) : bool :=
  negb ((USER_VMEM_START <=? vaddr) && (vaddr <? USER_VMEM_END)).

Section vmm.
Context {F H D : Type} {FP : FrameProvider F} {HP : HeapProvider H} {SP : ShootdownProvider D}.
Abbreviation state := (vmm_state F H D).
Implicit Types (s : state).

(** ** State access *)

Definition pg_lens : lens state (pg_state F) :=
  Lens vs_pg (fun x s => VmmState x (vs_heap s) (vs_shootdown s) (vs_if s) (vs_descs s)
    (bump_allocator s) (next_free_descriptor s) (vs_vmms s) (vs_page_fault s)
    (page_fault_vector s) (vs_console s)).
Definition kheap_lens : lens state H :=
  Lens vs_heap (fun x s => VmmState (vs_pg s) x (vs_shootdown s) (vs_if s) (vs_descs s)
    (bump_allocator s) (next_free_descriptor s) (vs_vmms s) (vs_page_fault s)
    (page_fault_vector s) (vs_console s)).
Definition shootdown_lens : lens state D :=
  Lens vs_shootdown (fun x s => VmmState (vs_pg s) (vs_heap s) x (vs_if s) (vs_descs s)
    (bump_allocator s) (next_free_descriptor s) (vs_vmms s) (vs_page_fault s)
    (page_fault_vector s) (vs_console s)).
Definition vs_if_lens : lens state bool :=
  Lens vs_if (fun x s => VmmState (vs_pg s) (vs_heap s) (vs_shootdown s) x (vs_descs s)
    (bump_allocator s) (next_free_descriptor s) (vs_vmms s) (vs_page_fault s)
    (page_fault_vector s) (vs_console s)).
Definition pf_lens : lens state PageFaultState :=
  Lens vs_page_fault (fun x s => VmmState (vs_pg s) (vs_heap s) (vs_shootdown s) (vs_if s) (vs_descs s)
    (bump_allocator s) (next_free_descriptor s) (vs_vmms s) x
    (page_fault_vector s) (vs_console s)).
Definition set_descs (m : gmap Z VirtualMemoryDescriptor) s : state :=
  VmmState (vs_pg s) (vs_heap s) (vs_shootdown s) (vs_if s) m
    (bump_allocator s) (next_free_descriptor s) (vs_vmms s) (vs_page_fault s)
    (page_fault_vector s) (vs_console s).
Definition set_vmms (m : gmap Z VirtualMemoryManager) s : state :=
  VmmState (vs_pg s) (vs_heap s) (vs_shootdown s) (vs_if s) (vs_descs s)
    (bump_allocator s) (next_free_descriptor s) m (vs_page_fault s)
    (page_fault_vector s) (vs_console s).
Definition set_next_free (n : Z) s : state :=
  VmmState (vs_pg s) (vs_heap s) (vs_shootdown s) (vs_if s) (vs_descs s)
    (bump_allocator s) n (vs_vmms s) (vs_page_fault s)
    (page_fault_vector s) (vs_console s).
Definition set_page_fault_vector (n : Z) s : state :=
  VmmState (vs_pg s) (vs_heap s) (vs_shootdown s) (vs_if s) (vs_descs s)
    (bump_allocator s) (next_free_descriptor s) (vs_vmms s) (vs_page_fault s) (Some n) (vs_console s).
Definition set_console (c : option (list console_piece)) s : state :=
  VmmState (vs_pg s) (vs_heap s) (vs_shootdown s) (vs_if s) (vs_descs s)
    (bump_allocator s) (next_free_descriptor s) (vs_vmms s) (vs_page_fault s) (page_fault_vector s) c.

(** ** Printing *)

Definition kio_initialized s : bool := bool_decide (is_Some (vs_console s)).

Definition print_piece (x : console_piece) : M state unit := fun s =>
  match vs_console s with
  | Some l => Ok (tt, set_console (Some (l ++ [x])) s)
  | None => Fault
  end.
Definition newline : string := String (Ascii.ascii_of_nat 10) EmptyString.
Definition print (text : string) : M state unit := print_piece (PText text).
Definition print_uint64_hex (number : Z) : M state unit := print_piece (PHex number).

(** Dereferencing a descriptor or a manager. *)
Definition read_desc (p : Z) : M state VirtualMemoryDescriptor := fun s =>
  match vs_descs s !! p with Some d => Ok (d, s) | None => Fault end.
Definition modify_desc (p : Z) (f : VirtualMemoryDescriptor -> VirtualMemoryDescriptor) : M state unit :=
  d <- read_desc p;;
  modify (fun s => set_descs (<[p := f d]> (vs_descs s)) s).
Definition read_vmm (p : Z) : M state VirtualMemoryManager := fun s =>
  match vs_vmms s !! p with Some d => Ok (d, s) | None => Fault end.
Definition modify_vmm (p : Z) (f : VirtualMemoryManager -> VirtualMemoryManager) : M state unit :=
  d <- read_vmm p;;
  modify (fun s => set_vmms (<[p := f d]> (vs_vmms s)) s).

Definition set_lock (b : bool) (v : VirtualMemoryManager) : VirtualMemoryManager :=
  MkVMM (vm_list_head v) (paging_structure v) (kernel_mode v) b.
Definition set_head (p : Z) (v : VirtualMemoryManager) : VirtualMemoryManager :=
  MkVMM p (paging_structure v) (kernel_mode v) (vmm_lock v).

(** The lock of the manager at [p]. *)
Definition vmm_lock_lens (p : Z) : lens state bool :=
  Lens (fun s => default false (vmm_lock <$> vs_vmms s !! p))
       (fun b s => set_vmms (alter (set_lock b) p (vs_vmms s)) s).

Definition on_paging {A} (m : M (pg_state F) A) : M state A := zoom pg_lens m.

Definition pages (size : Z) : nat := Z.to_nat ((size + PAGE_SIZE - 1) / PAGE_SIZE).

Definition acquire_vmm (vmm : Z) : M state bool := acquire_spinlock_hard (vmm_lock_lens vmm) vs_if_lens.
Definition release_vmm (vmm : Z) (istate : bool) : M state unit :=
  release_spinlock_hard (vmm_lock_lens vmm) vs_if_lens istate.

Definition shootdown (vaddr_start size : Z) : M state unit :=
  KASSERT (size mod PAGE_SIZE =? 0);;
  b <- gets (fun s => is_vmmcache_shootdown_subsystem_initialized (vs_shootdown s));;
  when b (zoom shootdown_lens (sp_shootdown vaddr_start (size / PAGE_SIZE))).

(** ** Descriptors *)

(** The fields the allocation sets; the others hold what the memory held. *)
Definition init_desc (p : Z) (from_heap : bool) : M state unit :=
  modify (fun s => set_descs (<[p := set_upper_padding 0 (set_lower_padding 0
    (set_is_from_heap from_heap (default zero_desc (vs_descs s !! p))))]> (vs_descs s)) s).

Definition allocate_vmem_descriptor : M state Z :=
  b <- gets (fun s => is_kheap_initialzed (vs_heap s));;
  if b : bool then
    p <- zoom kheap_lens (hp_kmalloc sizeof_VirtualMemoryDescriptor);;
    init_desc p true;;
    ret p
  else
    n <- gets next_free_descriptor;;
    when (VIRTUAL_MEMORY_DESCRIPTOR_EARLY_ALLOCATION_SIZE <=? n) (kpanic VMM_ERROR);;
    base <- gets bump_allocator;;
    let p := base + sizeof_VirtualMemoryDescriptor * n in
    modify (set_next_free (wrap64 (n + 1)));;
    init_desc p false;;
    ret p.

Definition deallocate_vmm_descriptor (p : Z) : M state unit :=
  d <- read_desc p;;
  when (is_from_heap d)
    (zoom kheap_lens (hp_kfree p);;
     modify (fun s => set_descs (delete p (vs_descs s)) s)).

Definition get_no_padding_size (d : VirtualMemoryDescriptor) : Z :=
  wrap64 (size_bytes d - upper_padding d - lower_padding d).
Definition get_no_padding_start_addr (d : VirtualMemoryDescriptor) : Z :=
  wrap64 (start_vaddr d + lower_padding d).
Definition desc_end (d : VirtualMemoryDescriptor) : Z := wrap64 (start_vaddr d + size_bytes d).

(** [while(go(descriptor)) descriptor = descriptor->next;] *)
Fixpoint walk_list (fuel : nat) (go : VirtualMemoryDescriptor -> bool) (p : Z) : M state Z :=
  match fuel with
  | O => out_of_fuel
  | S fuel' =>
      d <- read_desc p;;
      if go d then walk_list fuel' go (next d) else ret p
  end.

Definition desc_fuel s : nat := S (size (vs_descs s)).

Fixpoint update_head_loop (fuel : nat) (vmm : Z) : M state unit :=
  match fuel with
  | O => out_of_fuel
  | S fuel' =>
      v <- read_vmm vmm;;
      d <- read_desc (vm_list_head v);;
      if prev d =? NULL then ret tt
      else modify_vmm vmm (set_head (prev d));; update_head_loop fuel' vmm
  end.

Definition update_head (vmm : Z) : M state unit :=
  fuel <- gets desc_fuel;;
  update_head_loop fuel vmm.

Definition is_free_type (t : VirtualMemoryType) : bool :=
  bool_decide (t = VM_TYPE_FREE) || bool_decide (t = VM_TYPE_IDENTITY_MAP_FREE).

(** [if(p != NULL) p->next = q], and the same for [prev]. *)
Definition link_next (p q : Z) : M state unit := when (negb (p =? NULL)) (modify_desc p (set_next q)).
Definition link_prev (p q : Z) : M state unit := when (negb (p =? NULL)) (modify_desc p (set_prev q)).

Definition cut_descriptor_start (vmm descriptor size : Z) : M state Z :=
  d <- read_desc descriptor;;
  KASSERT (is_free_type (type d));;
  KASSERT (size <=? size_bytes d);;
  KASSERT (size_bytes d mod PAGE_SIZE =? 0);;
  KASSERT (size mod PAGE_SIZE =? 0);;
  let old_prev := prev d in
  let old_next := next d in
  if size_bytes d =? size then ret descriptor else
  new_descriptor <- allocate_vmem_descriptor;;
  let new_size := wrap64 (size_bytes d - size) in
  modify_desc descriptor (set_size_bytes size);;
  modify_desc new_descriptor (set_size_bytes new_size);;
  modify_desc new_descriptor (set_type (type d));;
  modify_desc new_descriptor (set_start_vaddr (wrap64 (start_vaddr d + size)));;
  link_next old_prev descriptor;;
  modify_desc descriptor (set_prev old_prev);;
  modify_desc descriptor (set_next new_descriptor);;
  modify_desc new_descriptor (set_next old_next);;
  modify_desc new_descriptor (set_prev descriptor);;
  link_prev old_next new_descriptor;;
  d <- read_desc descriptor;;
  n <- read_desc new_descriptor;;
  KASSERT (desc_end d =? start_vaddr n);;
  update_head vmm;;
  ret descriptor.

(** Cut the end off [descriptor]. *)
Definition cut_descriptor_end (vmm descriptor start size : Z) : M state Z :=
  d <- read_desc descriptor;;
  let old_prev := prev d in
  let old_next := next d in
  new_descriptor <- allocate_vmem_descriptor;;
  let new_size := wrap64 (size_bytes d - size) in
  modify_desc descriptor (set_size_bytes new_size);;
  modify_desc new_descriptor (set_size_bytes size);;
  modify_desc new_descriptor (set_start_vaddr (wrap64 (start_vaddr d + new_size)));;
  modify_desc new_descriptor (set_type (type d));;
  n <- read_desc new_descriptor;;
  KASSERT (start_vaddr n =? start);;
  link_next old_prev descriptor;;
  modify_desc descriptor (set_prev old_prev);;
  modify_desc descriptor (set_next new_descriptor);;
  modify_desc new_descriptor (set_next old_next);;
  modify_desc new_descriptor (set_prev descriptor);;
  link_prev old_next new_descriptor;;
  d <- read_desc descriptor;;
  n <- read_desc new_descriptor;;
  KASSERT (desc_end d =? start_vaddr n);;
  update_head vmm;;
  ret new_descriptor.

(** Cut the middle out of [descriptor], which becomes the cut part. *)
Definition cut_descriptor_middle (vmm descriptor start size : Z) : M state Z :=
  d <- read_desc descriptor;;
  let old_prev := prev d in
  let old_next := next d in
  KASSERT (start_vaddr d <? start);;
  let old_size := size_bytes d in
  let old_start_vaddr := start_vaddr d in
  prev_descriptor <- allocate_vmem_descriptor;;
  next_descriptor <- allocate_vmem_descriptor;;
  modify_desc prev_descriptor (set_type (type d));;
  modify_desc next_descriptor (set_type (type d));;
  link_next old_prev prev_descriptor;;
  modify_desc prev_descriptor (set_prev old_prev);;
  modify_desc prev_descriptor (set_next descriptor);;
  modify_desc descriptor (set_prev prev_descriptor);;
  modify_desc descriptor (set_next next_descriptor);;
  modify_desc next_descriptor (set_prev descriptor);;
  modify_desc next_descriptor (set_next old_next);;
  link_prev old_next next_descriptor;;
  modify_desc prev_descriptor (set_start_vaddr old_start_vaddr);;
  modify_desc prev_descriptor (set_size_bytes (wrap64 (start - old_start_vaddr)));;
  p <- read_desc prev_descriptor;;
  KASSERT (desc_end p =? start);;
  modify_desc descriptor (set_start_vaddr start);;
  modify_desc descriptor (set_size_bytes size);;
  modify_desc next_descriptor (set_start_vaddr (wrap64 (start + size)));;
  modify_desc next_descriptor (set_size_bytes (wrap64 (old_start_vaddr + old_size - (start + size))));;
  n <- read_desc next_descriptor;;
  KASSERT (wrap64 (old_start_vaddr + old_size) =? desc_end n);;
  update_head vmm;;
  ret descriptor.

Definition cut_descriptor (vmm descriptor start size : Z) : M state Z :=
  d <- read_desc descriptor;;
  KASSERT (is_free_type (type d));;
  KASSERT (size_bytes d mod PAGE_SIZE =? 0);;
  KASSERT (size mod PAGE_SIZE =? 0);;
  if (start_vaddr d =? start) && (size_bytes d =? size) then ret descriptor
  else if start_vaddr d =? start then cut_descriptor_start vmm descriptor size
  else if desc_end d =? wrap64 (start + size) then cut_descriptor_end vmm descriptor start size
  else cut_descriptor_middle vmm descriptor start size.

(** ** Initialisation *)

(** The vector at which [page_fault] becomes the handler. *)
Definition install_handler (vector : Z) : M state unit := modify (set_page_fault_vector vector).

Definition initialize_kernel_VMM (vmm paging : Z) : M state unit :=
  install_handler 0xe;;
  first_desc <- allocate_vmem_descriptor;;
  second_desc <- allocate_vmem_descriptor;;
  let size1 := wrap64 (IDENTITY_MAP_VMEM_END - PAGE_SIZE) in
  modify_desc first_desc (set_start_vaddr PAGE_SIZE);;
  modify_desc first_desc (set_size_bytes (wrap64 (size1 - size1 mod PAGE_SIZE)));;
  modify_desc first_desc (set_type VM_TYPE_IDENTITY_MAP_FREE);;
  modify_desc first_desc (set_prev NULL);;
  modify_desc first_desc (set_next second_desc);;
  let size2 := wrap64 (LAST_VADDR - (KERNEL_VMEM_START + 1)) in
  modify_desc second_desc (set_start_vaddr KERNEL_VMEM_START);;
  modify_desc second_desc (set_size_bytes (wrap64 (size2 - size2 mod PAGE_SIZE)));;
  modify_desc second_desc (set_type VM_TYPE_FREE);;
  modify_desc second_desc (set_prev first_desc);;
  modify_desc second_desc (set_next NULL);;
  modify (fun s => set_vmms (<[vmm := MkVMM first_desc paging true false]> (vs_vmms s)) s).

Definition initialize_user_VMM (vmm paging : Z) : M state unit :=
  install_handler 0xe;;
  desc <- allocate_vmem_descriptor;;
  let size := wrap64 (USER_VMEM_END - USER_VMEM_START) in
  modify_desc desc (set_start_vaddr USER_VMEM_START);;
  modify_desc desc (set_size_bytes (wrap64 (size - size mod PAGE_SIZE)));;
  modify_desc desc (set_type VM_TYPE_FREE);;
  modify_desc desc (set_prev NULL);;
  modify_desc desc (set_next NULL);;
  modify (fun s => set_vmms (<[vmm := MkVMM desc paging false false]> (vs_vmms s)) s).

Definition get_VMM_paging_structure (vmm : Z) : M state Z :=
  v <- read_vmm vmm;;
  ret (paging_structure v).

(** ** Searching the list *)

(** The descriptor the list walk of [identity_map] stops at. *)
Definition find_address (vmm addr : Z) : M state Z :=
  v <- read_vmm vmm;;
  fuel <- gets desc_fuel;;
  walk_list fuel (fun d => negb (next d =? NULL) && (desc_end d <=? addr)) (vm_list_head v).

(** The first free descriptor of at least [size] bytes, or the last one. *)
Definition find_free (vmm size : Z) : M state Z :=
  v <- read_vmm vmm;;
  fuel <- gets desc_fuel;;
  walk_list fuel (fun d => negb ((size <=? size_bytes d) && bool_decide (type d = VM_TYPE_FREE)) &&
                           negb (next d =? NULL)) (vm_list_head v).

(** ** Mapping loops *)

Fixpoint map_pages (n : nat) (vmm vaddr paddr flags : Z) : M state unit :=
  match n with
  | O => ret tt
  | S n' =>
      v <- read_vmm vmm;;
      on_paging (paging_map (paging_structure v) vaddr paddr flags);;
      map_pages n' vmm (wrap64 (vaddr + PAGE_SIZE)) (wrap64 (paddr + PAGE_SIZE)) flags
  end.

(** Map [n] pages from [vaddr] on to fresh frames, checking each address. *)
Fixpoint alloc_pages (n : nat) (vmm vaddr : Z) (check : Z -> bool) : M state unit :=
  match n with
  | O => ret tt
  | S n' =>
      KASSERT (check vaddr);;
      v <- read_vmm vmm;;
      frame <- on_paging alloc_frame;;
      on_paging (paging_map (paging_structure v) vaddr frame (Z.lor PAGE_PRESENT PAGE_WRITABLE));;
      alloc_pages n' vmm (wrap64 (vaddr + PAGE_SIZE)) check
  end.

Fixpoint unmap_pages (n : nat) (vmm desc vaddr : Z) : M state unit :=
  match n with
  | O => ret tt
  | S n' =>
      v <- read_vmm vmm;;
      d <- read_desc desc;;
      when (owns_frames (type d))
        (st <- on_paging (get_physical_address (paging_structure v) vaddr);;
         when (mmap_present st) (on_paging (dealloc_frame (paddr st))));;
      on_paging (invalidate_paging_mapping (paging_structure v) vaddr);;
      unmap_pages n' vmm desc (wrap64 (vaddr + PAGE_SIZE))
  end.

Fixpoint flush_pages (n : nat) (vaddr : Z) : M state unit :=
  match n with
  | O => ret tt
  | S n' => on_paging (delete_page_translation_cache vaddr);; flush_pages n' (wrap64 (vaddr + PAGE_SIZE))
  end.

(** ** Operations *)

Definition identity_map (vmm paddr size : Z) : M state VMemHandle :=
  KASSERT (negb (paddr =? NULL));;
  KASSERT (size mod PAGE_SIZE =? 0);;
  KASSERT (paddr mod PAGE_SIZE =? 0);;
  istate <- acquire_vmm vmm;;
  v <- read_vmm vmm;;
  KASSERT (kernel_mode v);;
  descriptor <- find_address vmm paddr;;
  d <- read_desc descriptor;;
  result <-
    (if (paddr <? start_vaddr d) || (desc_end d <? wrap64 (paddr + size)) then ret invalid_handle
     else if negb (bool_decide (type d = VM_TYPE_IDENTITY_MAP_FREE)) then ret invalid_handle
     else
       cutted <- cut_descriptor vmm descriptor paddr size;;
       c <- read_desc cutted;;
       KASSERT (start_vaddr c mod PAGE_SIZE =? 0);;
       modify_desc cutted (set_type VM_TYPE_IDENTITY_MAP);;
       ret (MkVMemHandle cutted vmm));;
  release_vmm vmm istate;;
  ret result.

Definition load_identity_map_pages (vmm paddr size : Z) (handle : VMemHandle) : M state unit :=
  KASSERT (Interfaces.vmm handle =? vmm);;
  KASSERT (size mod PAGE_SIZE =? 0);;
  KASSERT (paddr mod PAGE_SIZE =? 0);;
  istate <- acquire_vmm vmm;;
  v <- read_vmm vmm;;
  KASSERT (kernel_mode v);;
  release_vmm vmm istate;;
  let last := wrap64 (paddr + size) in
  map_pages (if paddr <? last then pages (last - paddr) else 0%nat) vmm paddr paddr
    (Z.lor PAGE_WRITABLE PAGE_PRESENT);;
  shootdown paddr size.

Definition memory_map (vmm paddr size page_flags : Z) : M state VMemHandle :=
  istate <- acquire_vmm vmm;;
  v <- read_vmm vmm;;
  KASSERT (kernel_mode v);;
  let size := wrap64 (size + MEMORY_MAP_PADDING * 2) in
  KASSERT (size mod PAGE_SIZE =? 0);;
  KASSERT (paddr mod PAGE_SIZE =? 0);;
  descriptor <- find_free vmm size;;
  d <- read_desc descriptor;;
  when (negb (bool_decide (type d = VM_TYPE_FREE))) (kpanic VMM_ERROR);;
  cutted <- cut_descriptor_start vmm descriptor size;;
  modify_desc cutted (set_type VM_TYPE_MEMORY_MAPPING);;
  c <- read_desc cutted;;
  KASSERT (start_vaddr c mod PAGE_SIZE =? 0);;
  modify_desc cutted (set_lower_padding MEMORY_MAP_PADDING);;
  modify_desc cutted (set_upper_padding MEMORY_MAP_PADDING);;
  c <- read_desc cutted;;
  let vaddr := get_no_padding_start_addr c in
  let no_padding_size := get_no_padding_size c in
  release_vmm vmm istate;;
  map_pages (pages no_padding_size) vmm vaddr paddr (Z.lor page_flags PAGE_PRESENT);;
  shootdown vaddr no_padding_size;;
  ret (MkVMemHandle cutted vmm).

Definition copy_memory_mapping_from_paging_structure
    (vmm src_paging_structure vaddr size page_flags : Z) : M state VMemHandle :=
  KASSERT (size mod PAGE_SIZE =? 0);;
  istate <- acquire_vmm vmm;;
  v <- read_vmm vmm;;
  KASSERT (kernel_mode v);;
  descriptor <- find_address vmm vaddr;;
  d <- read_desc descriptor;;
  if (vaddr <? start_vaddr d) || (desc_end d <? wrap64 (vaddr + size)) then
    release_vmm vmm istate;; ret invalid_handle
  else if negb (bool_decide (type d = VM_TYPE_FREE)) then
    release_vmm vmm istate;; ret invalid_handle
  else
    cutted <- cut_descriptor vmm descriptor vaddr size;;
    c <- read_desc cutted;;
    KASSERT (start_vaddr c mod PAGE_SIZE =? 0);;
    modify_desc cutted (set_type VM_TYPE_MEMORY_MAPPING);;
    let page_flags := if page_flags =? COPY_FLAGS_ON_MMAP_COPY then 0 else page_flags in
    release_vmm vmm istate;;
    v <- read_vmm vmm;;
    on_paging (copy_paging_structure_mapping_no_page_invalidation src_paging_structure
      (paging_structure v) vaddr size page_flags);;
    flush_pages (pages size) vaddr;;
    shootdown vaddr size;;
    istate <- acquire_vmm vmm;;
    release_vmm vmm istate;;
    ret (MkVMemHandle cutted vmm).

Definition allocate_kernel_virtual_memory
    (vmm size : Z) (ty : VirtualMemoryType) (upper_pad lower_pad : Z) : M state VMemHandle :=
  let size := wrap64 (size + (lower_pad + upper_pad)) in
  KASSERT (size mod PAGE_SIZE =? 0);;
  let is_valid := negb (bool_decide (ty = VM_TYPE_IDENTITY_MAP_FREE)) &&
    negb (bool_decide (ty = VM_TYPE_IDENTITY_MAP)) && negb (bool_decide (ty = VM_TYPE_MEMORY_MAPPING)) in
  when (negb is_valid) (kpanic VMM_ERROR);;
  istate <- acquire_vmm vmm;;
  v <- read_vmm vmm;;
  KASSERT (kernel_mode v);;
  descriptor <- find_free vmm size;;
  d <- read_desc descriptor;;
  when (negb (bool_decide (type d = VM_TYPE_FREE))) (kpanic VMM_ERROR);;
  cutted <- cut_descriptor_start vmm descriptor size;;
  modify_desc cutted (set_type ty);;
  c <- read_desc cutted;;
  KASSERT (start_vaddr c mod PAGE_SIZE =? 0);;
  modify_desc cutted (set_lower_padding lower_pad);;
  modify_desc cutted (set_upper_padding upper_pad);;
  c <- read_desc cutted;;
  let vaddr := get_no_padding_start_addr c in
  let no_padding_size := get_no_padding_size c in
  release_vmm vmm istate;;
  alloc_pages (pages no_padding_size) vmm vaddr (fun _ => true);;
  shootdown (wrap64 (vaddr + PAGE_SIZE * Z.of_nat (pages no_padding_size))) no_padding_size;;
  ret (MkVMemHandle cutted vmm).

Definition get_vmem_type (handle : VMemHandle) : M state VirtualMemoryType :=
  d <- read_desc (vm_desc handle);;
  ret (type d).
Definition get_vmem_size (handle : VMemHandle) : M state Z :=
  d <- read_desc (vm_desc handle);;
  ret (get_no_padding_size d).
Definition get_vmem_addr (handle : VMemHandle) : M state Z :=
  d <- read_desc (vm_desc handle);;
  ret (get_no_padding_start_addr d).

(** The loop that drops the free descriptors after [desc]. *)
Fixpoint merge_free (fuel : nat) (free_type : VirtualMemoryType) (last_range total_size : Z) :
    M state (Z * Z) :=
  match fuel with
  | O => out_of_fuel
  | S fuel' =>
      if last_range =? NULL then ret (last_range, total_size)
      else
        l <- read_desc last_range;;
        if negb (bool_decide (type l = free_type)) then ret (last_range, total_size)
        else
          deallocate_vmm_descriptor last_range;;
          merge_free fuel' free_type (next l) (wrap64 (total_size + size_bytes l))
  end.

Definition deallocate_kernel_virtual_memory (handle : VMemHandle) : M state bool :=
  let vmm := Interfaces.vmm handle in
  istate <- acquire_vmm vmm;;
  v <- read_vmm vmm;;
  KASSERT (kernel_mode v);;
  let desc := vm_desc handle in
  t <- get_vmem_type handle;;
  KASSERT (negb (bool_decide (t = VM_TYPE_FREE)));;
  KASSERT (negb (bool_decide (t = VM_TYPE_IDENTITY_MAP_FREE)));;
  d <- read_desc desc;;
  let free_type := if start_vaddr d <? IDENTITY_MAP_VMEM_END then VM_TYPE_IDENTITY_MAP_FREE
                   else VM_TYPE_FREE in
  let n := pages (get_no_padding_size d) in
  let vaddr := get_no_padding_start_addr d in
  unmap_pages n vmm desc vaddr;;
  shootdown (wrap64 (vaddr + PAGE_SIZE * Z.of_nat n)) (get_no_padding_size d);;
  modify_desc desc (set_type free_type);;
  modify_desc desc (set_lower_padding 0);;
  modify_desc desc (set_upper_padding 0);;
  d <- read_desc desc;;
  desc <-
    (if prev d =? NULL then ret desc
     else p <- read_desc (prev d);;
          ret (if bool_decide (type p = free_type) then prev d else desc));;
  d <- read_desc desc;;
  nx <- read_desc (next d);;
  when (bool_decide (type nx = free_type))
    (fuel <- gets desc_fuel;;
     r <- merge_free fuel free_type (next d) (size_bytes d);;
     let '(last_range, total_size) := r in
     modify_desc desc (set_size_bytes total_size);;
     modify_desc desc (set_next last_range);;
     link_prev last_range desc);;
  release_vmm vmm istate;;
  ret true.

Definition round_up_page (size : Z) : Z :=
  if size mod PAGE_SIZE =? 0 then size else wrap64 (size + (PAGE_SIZE - size mod PAGE_SIZE)).

(** The lock is released on the successful path only. *)
Definition _try_expand_vmem_top (handle : VMemHandle) (size : Z) (use_spinlock : bool) : M state bool :=
  let vmm := Interfaces.vmm handle in
  let size := round_up_page size in
  lock_istate <- (if use_spinlock then acquire_vmm vmm else ret false);;
  let desc := vm_desc handle in
  d <- read_desc desc;;
  let is_type_invalid := negb (owns_frames (type d)) in
  let is_too_small := upper_padding d <? size in
  let not_expandable := is_type_invalid || is_too_small in
  let vaddr := wrap64 (get_no_padding_start_addr d + get_no_padding_size d) in
  let desc_end_vaddr := desc_end d in
  when (negb not_expandable)
    (modify_desc desc (set_upper_padding (wrap64 (upper_padding d - size)));;
     when use_spinlock (release_vmm vmm lock_istate);;
     alloc_pages (pages size) vmm vaddr (fun v => v <? desc_end_vaddr);;
     shootdown (wrap64 (vaddr + PAGE_SIZE * Z.of_nat (pages size))) size);;
  ret (negb not_expandable).

Definition try_expand_vmem_top (handle : VMemHandle) (size : Z) : M state bool :=
  _try_expand_vmem_top handle size true.

Definition _try_expand_vmem_bottom (handle : VMemHandle) (size : Z) (use_spinlock : bool) : M state bool :=
  let vmm := Interfaces.vmm handle in
  let size := round_up_page size in
  lock_istate <- (if use_spinlock then acquire_vmm vmm else ret false);;
  let desc := vm_desc handle in
  d <- read_desc desc;;
  let is_type_invalid := negb (owns_frames (type d)) in
  let is_too_small := lower_padding d <? size in
  let not_expandable := is_type_invalid || is_too_small in
  let vaddr := wrap64 (get_no_padding_start_addr d - size) in
  let desc_start_vaddr := start_vaddr d in
  when (negb not_expandable)
    (modify_desc desc (set_lower_padding (wrap64 (lower_padding d - size)));;
     when use_spinlock (release_vmm vmm lock_istate);;
     alloc_pages (pages size) vmm vaddr (fun v => desc_start_vaddr <=? v);;
     shootdown (wrap64 (vaddr + PAGE_SIZE * Z.of_nat (pages size))) size);;
  ret (negb not_expandable).

Definition try_expand_vmem_bottom (handle : VMemHandle) (size : Z) : M state bool :=
  _try_expand_vmem_bottom handle size true.

(** ** Page faults *)

Definition get_vmem_from_address (vmm addr : Z) : M state VMemHandle :=
  v <- read_vmm vmm;;
  fuel <- gets desc_fuel;;
  descriptor <- walk_list fuel (fun d => negb (next d =? NULL) &&
    negb ((start_vaddr d <=? addr) && (addr <? desc_end d))) (vm_list_head v);;
  d <- read_desc descriptor;;
  ret (if desc_end d <=? addr then invalid_handle
       else if addr <? start_vaddr d then invalid_handle
       else MkVMemHandle descriptor vmm).

Record PageFaultInfo : Type := MkPageFaultInfo {
  page_error : Z; fault_address : Z; fault_vmem : VMemHandle; page_not_present : bool
}.

Definition get_vm_type_string (vm_type : VirtualMemoryType) : string :=
  match vm_type with
  | VM_TYPE_FREE => "FREE"
  | VM_TYPE_IDENTITY_MAP_FREE => "IDENTITY MAP FREE"
  | VM_TYPE_STACK => "STACK"
  | VM_TYPE_HEAP => "HEAP"
  | VM_TYPE_GENERAL_USE => "GENERAL USE"
  | VM_TYPE_MEMORY_MAPPING => "MEMORY MAPPING"
  | VM_TYPE_IDENTITY_MAP => "IDENTITY MAP"
  end.

Definition print_page_fault_error (pf : PageFaultInfo) : M state unit :=
  let error := page_error pf in
  let bit n := Z.testbit error n in
  print "[PAGE FAULT] ";;
  (if bit 1 then print "(write) " else print "(read) ");;
  (if negb (bit 0) then print "page not present "
   else when (bit 3) (print "reserved write "));;
  when (bit 4) (print "caused by instruction fetch ");;
  when (bit 5) (print "caused by Protection Key ");;
  when (bit 6) (print "caused by Shadow Stack Access ");;
  when (bit 15) (print "caused by SGX ");;
  print newline;;
  print "[PAGE FAULT ADDRESS] ";;
  print_uint64_hex (fault_address pf);;
  print newline;;
  when (fault_address pf <=? NULL + PAGE_SIZE) (print ("[PAGE FAULT] NULL PAGE POINTER DEREFERENCE" ++ newline)%string);;
  print "[PAGE FAULT VMEM] ";;
  (if is_vmemhandle_invalid (fault_vmem pf) then print "NULL vmem (not allocated virtual memory)"
   else
     t <- get_vmem_type (fault_vmem pf);;
     print (get_vm_type_string t);;
     print " ";;
     a <- get_vmem_addr (fault_vmem pf);;
     print_uint64_hex a;;
     print " -> ";;
     a <- get_vmem_addr (fault_vmem pf);;
     n <- get_vmem_size (fault_vmem pf);;
     print_uint64_hex (wrap64 (a + n)));;
  print newline.

Definition page_fault_check_identity_map_load (vmm : Z) (pf : PageFaultInfo) : M state bool :=
  if is_vmemhandle_invalid (fault_vmem pf) then ret false else
  t <- get_vmem_type (fault_vmem pf);;
  if bool_decide (t = VM_TYPE_IDENTITY_MAP) && page_not_present pf then
    let to_map := wrap64 (fault_address pf - PAGE_FAULT_ADDITIONAL_PAGE_LOAD / 2) in
    let last_page := wrap64 (to_map + (1 + PAGE_FAULT_ADDITIONAL_PAGE_LOAD) * PAGE_SIZE) in
    let n := if to_map <? last_page then pages (last_page - to_map) else 0%nat in
    map_pages n vmm to_map to_map (Z.lor PAGE_WRITABLE PAGE_PRESENT);;
    let to_map := wrap64 (to_map + PAGE_SIZE * Z.of_nat n) in
    b <- gets (fun s => is_vmmcache_shootdown_subsystem_initialized (vs_shootdown s));;
    when b (zoom shootdown_lens (sp_shootdown to_map (wrap64 (Z.quot (last_page - to_map) PAGE_SIZE))));;
    ret true
  else ret false.

Definition page_fault_check_stack_overflow (vmm : Z) (pf : PageFaultInfo) : M state bool :=
  if is_vmemhandle_invalid (fault_vmem pf) then ret false else
  t <- get_vmem_type (fault_vmem pf);;
  a <- get_vmem_addr (fault_vmem pf);;
  if bool_decide (t = VM_TYPE_STACK) && (fault_address pf <? a) && page_not_present pf then
    kio <- gets kio_initialized;;
    when (negb kio) (kpanic UNRECOVERABLE_PAGE_FAULT);;
    print_page_fault_error pf;;
    print ("[PAGE FAULT] POSSIBLE STACK OVERFLOW" ++ newline)%string;;
    d <- read_desc (vm_desc (fault_vmem pf));;
    let remaining_padding := to_i64 (wrap64 (lower_padding d - KERNEL_STACK_EXPANSION_STEP)) in
    expanded <- (if MINIMUM_STACK_PADDING <=? remaining_padding
                 then _try_expand_vmem_bottom (fault_vmem pf) KERNEL_STACK_EXPANSION_STEP false
                 else ret false);;
    if expanded : bool then
      print ("[PAGE FAULT] STACK EXPANDED, TRYING TO CONTINUE" ++ newline ++ newline)%string;; ret true
    else
      print ("[PAGE FAULT] FAILED TO EXPAND THE STACK" ++ newline ++ newline)%string;; ret false
  else ret false.

Definition set_servicing (b : bool) : M state unit :=
  modify (fun s => put pf_lens (MkPageFaultState b (pf_lock (vs_page_fault s))) s).

Definition pf_lock_lens : lens state bool :=
  Lens (fun s => pf_lock (vs_page_fault s))
       (fun b s => put pf_lens (MkPageFaultState (servicing_page_fault (vs_page_fault s)) b) s).

(** The handler: [cr2] is the faulting address, [error] the error code, and
    [kernel_vmm] what [get_kernel_VMM_from_kernel_data] returns. *)
Definition page_fault (kernel_vmm cr2 error : Z) : M state unit :=
  when (negb (is_kernel_virtual_memory cr2)) (kpanic UNRECOVERABLE_PAGE_FAULT);;
  acquire_spinlock pf_lock_lens;;
  servicing <- gets (fun s => servicing_page_fault (vs_page_fault s));;
  when servicing (
    print "[UNRECOVERABLE PAGE FAULT] fault addr=";; print_uint64_hex cr2;;
    kpanic UNRECOVERABLE_PAGE_FAULT);;
  set_servicing true;;
  release_spinlock pf_lock_lens;;
  acquire_spinlock (vmm_lock_lens kernel_vmm);;
  vmem <- get_vmem_from_address kernel_vmm cr2;;
  let info := MkPageFaultInfo error cr2 vmem (Z.land error 1 =? 0) in
  solved <- page_fault_check_identity_map_load kernel_vmm info;;
  solved <- (if solved : bool then ret true else page_fault_check_stack_overflow kernel_vmm info);;
  when (negb solved) (
    print_page_fault_error info;;
    print ("[PAGE FAULT] CANNOT RECOVER THE PAGE FAULT" ++ newline)%string;;
    kpanic UNRECOVERABLE_PAGE_FAULT);;
  release_spinlock (vmm_lock_lens kernel_vmm);;
  acquire_spinlock pf_lock_lens;;
  set_servicing false;;
  release_spinlock pf_lock_lens.

End vmm.
