(* ===== verification/VmmInv.v ===== *)
(** * The virtual memory manager: the list of regions

    [dseg m prv L nxt]: the descriptors of [L], a list of addresses and regions,
    are linked in this order in the store [m].  Relinking one end, inserting a
    descriptor and changing a region preserve it.  [vmm_inv] is the invariant of
    a manager: its list partitions the space into page-aligned regions in
    increasing order. *)

From S2P Require Import Prelude Memory Sync Interfaces Paging Vmm.
Import Sequential.

(** The part of a descriptor that is not a link. *)
Record region : Type := MkRegion {
  r_start : Z; r_size : Z; r_upper : Z; r_lower : Z; r_type : VirtualMemoryType
}.

Definition region_of (d : VirtualMemoryDescriptor) : region :=
  MkRegion (start_vaddr d) (size_bytes d) (upper_padding d) (lower_padding d) (type d).

Abbreviation store := (gmap Z VirtualMemoryDescriptor).
Abbreviation rlist := (list (Z * region)).
Implicit Types (m : store) (L : rlist).

Definition first_ptr L (nxt : Z) : Z := match L with [] => nxt | (p, _) :: _ => p end.
Definition last_ptr (prv : Z) L : Z := match last L with Some (p, _) => p | None => prv end.
Definition ptrs L : list Z := fst <$> L.

(** The descriptor at [p] holds region [r] between [prv] and [nxt]. *)
Definition node m (p : Z) (r : region) (prv nxt : Z) : Prop :=
  exists d, m !! p = Some d /\ region_of d = r /\ prev d = prv /\ next d = nxt.

Fixpoint dseg m (prv : Z) L (nxt : Z) : Prop :=
  match L with
  | [] => True
  | (p, r) :: L' => p <> NULL /\ node m p r prv (first_ptr L' nxt) /\ dseg m p L' nxt
  end.

Lemma first_ptr_app L1 L2 nxt : first_ptr (L1 ++ L2) nxt = first_ptr L1 (first_ptr L2 nxt).
Proof. by destruct L1 as [|[p r] L1]. Qed.

Lemma last_ptr_cons prv p r L : last_ptr prv ((p, r) :: L) = last_ptr p L.
Proof. unfold last_ptr. rewrite last_cons. by destruct (last L) as [[? ?]|]. Qed.

Lemma last_ptr_app prv L1 L2 : last_ptr prv (L1 ++ L2) = last_ptr (last_ptr prv L1) L2.
Proof. unfold last_ptr. rewrite last_app. by destruct (last L2) as [[? ?]|]. Qed.

Lemma vdseg_app m prv L1 L2 nxt :
  dseg m prv (L1 ++ L2) nxt <-> dseg m prv L1 (first_ptr L2 nxt) /\ dseg m (last_ptr prv L1) L2 nxt.
Proof.
  revert prv. induction L1 as [|[p r] L1 IH]; intros prv; cbn [app dseg].
  - split; [intros HD; split; [exact I|exact HD]|intros [_ HD]; exact HD].
  - rewrite IH, last_ptr_cons, first_ptr_app. tauto.
Qed.

Lemma dseg_frame m m' prv L nxt :
  (forall x, x ∈ ptrs L -> m' !! x = m !! x) -> dseg m prv L nxt -> dseg m' prv L nxt.
Proof.
  revert prv. induction L as [|[p r] L IH]; intros prv HE; [done|]. intros (Hp & (d & Hd & HR) & HD).
  split; [done|]. split.
  - exists d. by rewrite HE by (apply list_elem_of_here).
  - apply IH; [|done]. intros x Hx. apply HE. by apply list_elem_of_further.
Qed.

Lemma dseg_insert m prv L nxt x d :
  (x ∉ ptrs L) -> dseg m prv L nxt -> dseg (<[x := d]> m) prv L nxt.
Proof.
  intros Hx. apply dseg_frame. intros y Hy. rewrite lookup_insert_ne; [done|]. intros ->. contradiction.
Qed.

Lemma dseg_delete m prv L nxt x :
  (x ∉ ptrs L) -> dseg m prv L nxt -> dseg (delete x m) prv L nxt.
Proof.
  intros Hx. apply dseg_frame. intros y Hy. rewrite lookup_delete_ne; [done|]. intros ->. contradiction.
Qed.

Lemma dseg_lookup m prv L nxt p r :
  dseg m prv L nxt -> (p, r) ∈ L -> exists d, m !! p = Some d /\ region_of d = r.
Proof.
  revert prv. induction L as [|[q z] L IH]; intros prv HD Hin; [by apply elem_of_nil in Hin|].
  destruct HD as (_ & (d & Hd & HR & _) & HD). apply elem_of_cons in Hin as [[= -> ->]|Hin]; [by exists d|].
  by eapply IH.
Qed.

Lemma dseg_nonnull m prv L nxt p : dseg m prv L nxt -> p ∈ ptrs L -> p <> NULL.
Proof.
  revert prv. induction L as [|[q z] L IH]; intros prv HD Hin; [by apply elem_of_nil in Hin|].
  destruct HD as (Hq & _ & HD). apply elem_of_cons in Hin as [->|Hin]; [done|]. by eapply IH.
Qed.

(** [if(p != NULL) p->prev = q] and [p->next = q] on the store. *)
Definition upd_prev (p q : Z) m : store := if p =? NULL then m else alter (set_prev q) p m.
Definition upd_next (p q : Z) m : store := if p =? NULL then m else alter (set_next q) p m.

Lemma upd_prev_ne p q m x : x <> p -> upd_prev p q m !! x = m !! x.
Proof. intros. unfold upd_prev. destruct (p =? NULL); [done|]. by rewrite lookup_alter_ne. Qed.
Lemma upd_next_ne p q m x : x <> p -> upd_next p q m !! x = m !! x.
Proof. intros. unfold upd_next. destruct (p =? NULL); [done|]. by rewrite lookup_alter_ne. Qed.

(** The first descriptor gets another predecessor. *)
Lemma dseg_upd_prev m prv L q :
  NoDup (ptrs L) -> dseg m prv L NULL -> dseg (upd_prev (first_ptr L NULL) q m) q L NULL.
Proof.
  destruct L as [|[p r] L]; intros ND HD; [done|].
  unfold ptrs in ND. cbn in ND. apply NoDup_cons in ND as [Hp ND]. destruct HD as (Hn & (d & Hd & HR & Hpr & Hnx) & HD).
  cbn [first_ptr]. unfold upd_prev. rewrite (proj2 (Z.eqb_neq p NULL)) by done. split_and!; [done| |].
  - exists (set_prev q d). by rewrite lookup_alter_eq, Hd.
  - eapply dseg_frame; [|exact HD]. intros x Hx. rewrite lookup_alter_ne; [done|].
    intros <-. contradiction.
Qed.

(** The last descriptor gets another successor. *)
Lemma dseg_upd_next m L nxt q :
  NoDup (ptrs L) -> dseg m NULL L nxt -> dseg (upd_next (last_ptr NULL L) q m) NULL L q.
Proof.
  destruct L as [|[p r] L _] using rev_ind; intros ND HD; [done|].
  unfold ptrs in ND. rewrite fmap_app in ND. apply NoDup_app in ND as (ND & Hdis & _).
  apply vdseg_app in HD as [HD (Hn & (d & Hd & HR & Hpr & Hnx) & _)].
  rewrite last_ptr_app. unfold last_ptr at 1. cbn [last first_ptr] in *.
  unfold upd_next. rewrite (proj2 (Z.eqb_neq p NULL)) by done. apply vdseg_app. cbn [first_ptr]. split.
  - eapply dseg_frame; [|exact HD]. intros x Hx. rewrite lookup_alter_ne; [done|].
    intros <-. apply (Hdis p Hx). apply list_elem_of_here.
  - split_and!; [done| |done]. exists (set_next q d). by rewrite lookup_alter_eq, Hd.
Qed.

(** ** Regions *)

Definition r_end (r : region) : Z := r_start r + r_size r.

Record region_ok (r : region) : Prop := {
  ro_start : 0 < r_start r /\ r_start r mod PAGE_SIZE = 0;
  ro_size : 0 < r_size r /\ r_size r mod PAGE_SIZE = 0;
  ro_end : r_end r < 2 ^ 64;
  ro_pad : 0 <= r_upper r /\ 0 <= r_lower r /\ r_upper r + r_lower r <= r_size r;
  ro_free : is_free_type (r_type r) = true -> r_upper r = 0 /\ r_lower r = 0
}.

(** Increasing, without overlap. *)
Fixpoint ordered (lo : Z) (rs : list region) : Prop :=
  match rs with
  | [] => True
  | r :: rs' => lo <= r_start r /\ region_ok r /\ ordered (r_end r) rs'
  end.

Lemma ordered_app lo rs1 rs2 :
  ordered lo (rs1 ++ rs2) <-> ordered lo rs1 /\ ordered (foldl (fun _ r => r_end r) lo rs1) rs2.
Proof.
  revert lo. induction rs1 as [|r rs1 IH]; intros lo; cbn; [tauto|]. rewrite IH. tauto.
Qed.

Lemma ordered_weaken lo lo' rs : lo' <= lo -> ordered lo rs -> ordered lo' rs.
Proof. intros H. destruct rs as [|r rs]; [done|]. intros (? & ? & ?). split_and!; [lia|done|done]. Qed.

Lemma ordered_ok lo rs r : ordered lo rs -> r ∈ rs -> region_ok r.
Proof.
  revert lo. induction rs as [|x rs IH]; intros lo HO Hin; [by apply elem_of_nil in Hin|].
  destruct HO as (_ & ? & ?). apply elem_of_cons in Hin as [->|]; [done|]. by eapply IH.
Qed.

Lemma ordered_above lo rs r : ordered lo rs -> r ∈ rs -> lo <= r_start r.
Proof.
  revert lo. induction rs as [|x rs IH]; intros lo HO Hin; [by apply elem_of_nil in Hin|].
  destruct HO as (? & [? ? ? ? ?] & HO). apply elem_of_cons in Hin as [->|Hin]; [done|].
  specialize (IH _ HO Hin). unfold r_end in *. lia.
Qed.

Section inv.
Context {F H D : Type} {FP : FrameProvider F} {HP : HeapProvider H} {SP : ShootdownProvider D}.
Context {HL : HeapLaws H}.
Abbreviation state := (vmm_state F H D).
Implicit Types (s : vmm_state F H D).

(** ** Descriptors in use *)

Definition bump_slot s (p : Z) (n : Z) : Prop :=
  p = bump_allocator s + sizeof_VirtualMemoryDescriptor * n.

(** [U] are the descriptors in use: early ones from the static array, later ones
    blocks of the heap. *)
Record desc_pool (B : gmap Z Z) (U : list Z) s : Prop := {
  dp_bump : 0 < bump_allocator s /\
    bump_allocator s + sizeof_VirtualMemoryDescriptor *
      VIRTUAL_MEMORY_DESCRIPTOR_EARLY_ALLOCATION_SIZE < 2 ^ 64;
  dp_next : 0 <= next_free_descriptor s <= VIRTUAL_MEMORY_DESCRIPTOR_EARLY_ALLOCATION_SIZE;
  dp_used : forall p, p ∈ U ->
    (exists n, 0 <= n < next_free_descriptor s /\ bump_slot s p n) \/ (exists k, B !! p = Some k);
  dp_heap : if is_kheap_initialzed (vs_heap s)
    then hp_inv (vs_heap s) B /\
         (forall p n, 0 <= n < VIRTUAL_MEMORY_DESCRIPTOR_EARLY_ALLOCATION_SIZE -> bump_slot s p n -> hp_static p)
    else B = ∅
}.

Definition can_alloc s : Prop :=
  if is_kheap_initialzed (vs_heap s) then hp_serves (vs_heap s) sizeof_VirtualMemoryDescriptor
  else next_free_descriptor s < VIRTUAL_MEMORY_DESCRIPTOR_EARLY_ALLOCATION_SIZE.

(** What operations on descriptors leave alone. *)
Definition keeps s s' : Prop :=
  vs_pg s' = vs_pg s /\ vs_shootdown s' = vs_shootdown s /\ vs_if s' = vs_if s /\
  bump_allocator s' = bump_allocator s /\ vs_page_fault s' = vs_page_fault s /\
  page_fault_vector s' = page_fault_vector s /\
  vs_console s' = vs_console s /\
  is_kheap_initialzed (vs_heap s') = is_kheap_initialzed (vs_heap s) /\ vs_vmms s' = vs_vmms s.

Lemma vkeeps_refl s : keeps s s.
Proof. by split_and!. Qed.
Lemma vkeeps_trans s1 s2 s3 : keeps s1 s2 -> keeps s2 s3 -> keeps s1 s3.
Proof. unfold keeps. intuition congruence. Qed.
Lemma keeps_descs s m : keeps s (set_descs m s).
Proof. by split_and!. Qed.

Lemma desc_pool_descs B U s m : desc_pool B U s -> desc_pool B U (set_descs m s).
Proof. intros []. by split. Qed.

Lemma allocate_desc_spec B U s :
  desc_pool B U s -> can_alloc s ->
  exists p d s' B', allocate_vmem_descriptor s = Ok (p, s') /\ (p ∉ U) /\ p <> NULL /\
    vs_descs s' = <[p := d]> (vs_descs s) /\ upper_padding d = 0 /\ lower_padding d = 0 /\
    keeps s s' /\ desc_pool B' (p :: U) s'.
Proof.
  intros [HB HN HU HH] HC. unfold can_alloc in HC. unfold allocate_vmem_descriptor.
  rewrite (bind_ok _ _ _ (is_kheap_initialzed (vs_heap s)) s) by done.
  destruct (is_kheap_initialzed (vs_heap s)) eqn:EI.
  - destruct HH as [HI HS]. destruct (hp_kmalloc_ok _ _ _ HI HC) as (p & k & h & R & Hk & Hf & Hst & Hp & HI' & _ & EI').
    set (s1 := put kheap_lens h s).
    rewrite (bind_ok _ _ _ p s1) by (unfold zoom; cbn [view kheap_lens]; by rewrite R).
    eexists p, _, _, (<[p := k]> B). split; [reflexivity|]. split_and!.
    + intros Hin. destruct (HU p Hin) as [(n & Hn & Hb)|(j & Hj)]; [|congruence].
      apply Hst. eapply HS; [|exact Hb]. lia.
    + unfold NULL. lia.
    + reflexivity.
    + reflexivity.
    + reflexivity.
    + split_and!; try reflexivity. exact EI'.
    + split; cbn; [done|done| |].
      * intros q [->|Hq]%elem_of_cons; [right; exists k; apply lookup_insert_eq|].
        destruct (HU q Hq) as [?|(j & Hj)]; [by left|right]. exists j.
        rewrite lookup_insert_ne; [done|]. intros ->. congruence.
      * rewrite EI', EI. split; [exact HI'|exact HS].
  - unfold VIRTUAL_MEMORY_DESCRIPTOR_EARLY_ALLOCATION_SIZE, sizeof_VirtualMemoryDescriptor in *.
    rewrite (bind_ok _ _ _ (next_free_descriptor s) s) by done.
    destruct (Z.leb_spec 64 (next_free_descriptor s)); [lia|]. cbn [when].
    rewrite (bind_ok _ _ _ tt s) by done. rewrite (bind_ok _ _ _ (bump_allocator s) s) by done.
    cbv zeta. set (p := bump_allocator s + 64 * next_free_descriptor s).
    eexists p, _, _, B. split; [reflexivity|]. split_and!.
    + intros Hin. destruct (HU p Hin) as [(n & Hn & Hb)|(j & Hj)]; [|subst B; done].
      unfold bump_slot, sizeof_VirtualMemoryDescriptor in Hb. unfold p in Hb. lia.
    + unfold p, NULL. lia.
    + reflexivity.
    + reflexivity.
    + reflexivity.
    + split_and!; reflexivity.
    + split; cbn.
      * exact HB.
      * rewrite wrap64_small by lia. unfold VIRTUAL_MEMORY_DESCRIPTOR_EARLY_ALLOCATION_SIZE. lia.
      * rewrite wrap64_small by lia. intros q [->|Hq]%elem_of_cons.
        { left. exists (next_free_descriptor s). split; [lia|done]. }
        destruct (HU q Hq) as [(n & Hn & Hb)|?]; [left|by right]. exists n. split; [lia|done].
      * by rewrite EI.
Qed.

(** ** The invariant of a manager *)

Record vmm_inv (B : gmap Z Z) (U : list Z) (vmm : Z) (v : VirtualMemoryManager) L s : Prop := {
  vi_vmm : vs_vmms s !! vmm = Some v;
  vi_head : vm_list_head v = first_ptr L NULL;
  vi_nonempty : L <> [];
  vi_seg : dseg (vs_descs s) NULL L NULL;
  vi_nodup : NoDup (ptrs L);
  vi_used : forall p, p ∈ ptrs L -> p ∈ U;
  vi_pool : desc_pool B U s;
  vi_regions : ordered 0 (snd <$> L)
}.

Lemma vmm_inv_region B U vmm v L s p r : vmm_inv B U vmm v L s -> (p, r) ∈ L -> region_ok r.
Proof.
  intros [] Hin. eapply ordered_ok; [done|]. apply list_elem_of_fmap. by exists (p, r).
Qed.

Lemma ptrs_elem L p r : (p, r) ∈ L -> p ∈ ptrs L.
Proof. intros Hin. apply list_elem_of_fmap. by exists (p, r). Qed.

(** ** Walks *)

(** The first region that [g] rejects, or the last one. *)
Fixpoint stop_at (g : region -> bool) L : option (Z * region) :=
  match L with
  | [] => None
  | [x] => Some x
  | x :: L' => if g x.2 then stop_at g L' else Some x
  end.

Lemma stop_at_split g L p r :
  stop_at g L = Some (p, r) ->
  exists L1 L2, L = L1 ++ (p, r) :: L2 /\ (forall x, x ∈ L1 -> g x.2 = true) /\ (g r = false \/ L2 = []).
Proof.
  induction L as [|[q z] L IH]; [done|]. destruct L as [|y L].
  - intros [= -> ->]. exists [], []. split_and!; [done|by intros x ?%elem_of_nil|by right].
  - cbn [stop_at snd]. destruct (g z) eqn:E.
    + intros HS. destruct (IH HS) as (L1 & L2 & EL & HG & HT). exists ((q, z) :: L1), L2.
      rewrite EL. split_and!; [done| |done]. intros x [->|Hx]%elem_of_cons; [done|by apply HG].
    + intros [= -> ->]. exists [], (y :: L). split_and!; [done|by intros x ?%elem_of_nil|by left].
Qed.

Lemma stop_at_some g L : L <> [] -> exists p r, stop_at g L = Some (p, r).
Proof.
  induction L as [|[q z] L IH]; [done|]. intros _. destruct L as [|y L]; [by exists q, z|].
  cbn [stop_at snd]. destruct (g z); [by apply IH|by exists q, z].
Qed.

Lemma walk_list_spec fuel (go : VirtualMemoryDescriptor -> bool) g prv L s :
  (forall d, go d = g (region_of d) && negb (next d =? NULL)) ->
  dseg (vs_descs s) prv L NULL -> L <> [] -> (length L <= fuel)%nat ->
  exists p r, stop_at g L = Some (p, r) /\ walk_list fuel go (first_ptr L NULL) s = Ok (p, s).
Proof.
  intros HG. revert prv fuel. induction L as [|[p r] L IH]; intros prv fuel HD Hne Hf; [done|].
  destruct fuel as [|fuel]; [cbn in Hf; lia|].
  destruct HD as (Hp & (d & Hd & HR & Hpr & Hnx) & HD). cbn [first_ptr walk_list].
  rewrite (bind_ok _ _ _ d s) by (unfold read_desc; by rewrite Hd). rewrite HG, HR, Hnx.
  destruct L as [|[q z] L].
  - cbn. rewrite andb_false_r. by exists p, r.
  - cbn [first_ptr] in *. rewrite (proj2 (Z.eqb_neq q NULL)) by (by destruct HD as (? & _)).
    rewrite andb_true_r. cbn [stop_at snd]. destruct (g r); [|by exists p, r].
    eapply (IH p); [exact HD|done|cbn in *; lia].
Qed.

Lemma fuel_spare prv L nxt s :
  dseg (vs_descs s) prv L nxt -> NoDup (ptrs L) -> (length L < desc_fuel s)%nat.
Proof.
  intros HD ND. unfold desc_fuel.
  assert (HS : list_to_set (ptrs L) ⊆ dom (vs_descs s)).
  { intros x Hx%elem_of_list_to_set. apply list_elem_of_fmap in Hx as ([q r] & -> & Hin).
    destruct (dseg_lookup _ _ _ _ _ _ HD Hin) as (d & Hd & _). by apply elem_of_dom_2 in Hd. }
  apply subseteq_size in HS. rewrite size_list_to_set, size_dom in HS by done.
  unfold ptrs in HS. rewrite length_fmap in HS. lia.
Qed.

Lemma fuel_enough prv L nxt s :
  dseg (vs_descs s) prv L nxt -> NoDup (ptrs L) -> (length L <= desc_fuel s)%nat.
Proof. intros HD ND. apply Nat.lt_le_incl. by eapply fuel_spare. Qed.

Lemma find_walk B U vmm v L s (go : VirtualMemoryDescriptor -> bool) g :
  vmm_inv B U vmm v L s -> (forall d, go d = g (region_of d) && negb (next d =? NULL)) ->
  exists p r L1 L2, L = L1 ++ (p, r) :: L2 /\ (forall x, x ∈ L1 -> g x.2 = true) /\
    (g r = false \/ L2 = []) /\
    (v <- read_vmm vmm;; fuel <- gets desc_fuel;; walk_list fuel go (vm_list_head v)) s = Ok (p, s).
Proof.
  intros [] HG.
  destruct (walk_list_spec (desc_fuel s) go g NULL L s HG) as (p & r & HS & HW); try done.
  { by eapply fuel_enough. }
  destruct (stop_at_split _ _ _ _ HS) as (L1 & L2 & EL & HA & HT).
  exists p, r, L1, L2. split_and!; try done.
  rewrite (bind_ok _ _ _ v s) by (unfold read_vmm; by rewrite vi_vmm0).
  rewrite (bind_ok _ _ _ (desc_fuel s) s) by done. by rewrite vi_head0.
Qed.

Lemma find_free_spec B U vmm v L s size :
  vmm_inv B U vmm v L s ->
  exists p r L1 L2, L = L1 ++ (p, r) :: L2 /\ find_free vmm size s = Ok (p, s) /\
    (forall x, x ∈ L1 -> ~ (size <= r_size x.2 /\ r_type x.2 = VM_TYPE_FREE)) /\
    ((size <= r_size r /\ r_type r = VM_TYPE_FREE) \/ L2 = []).
Proof.
  intros HI.
  destruct (find_walk B U vmm v L s (fun d => negb ((size <=? size_bytes d) &&
    bool_decide (type d = VM_TYPE_FREE)) && negb (next d =? NULL))
    (fun r => negb ((size <=? r_size r) && bool_decide (r_type r = VM_TYPE_FREE))) HI)
    as (p & r & L1 & L2 & EL & HA & HT & R); [done|].
  exists p, r, L1, L2. split_and!; [done|exact R| |].
  - intros x Hx [H1 H2]. specialize (HA x Hx).
    apply negb_true_iff, andb_false_iff in HA as [HA|HA]; [apply Z.leb_gt in HA; lia|].
    by apply bool_decide_eq_false in HA.
  - destruct HT as [HT| ->]; [left|by right]. apply negb_false_iff, andb_true_iff in HT as [HT1 HT2].
    by apply Z.leb_le in HT1; apply bool_decide_eq_true in HT2.
Qed.

(** With a free region large enough in the list, the search ends at the first one. *)
Lemma find_free_first B U vmm v L s size :
  vmm_inv B U vmm v L s -> (exists x, x ∈ L /\ r_type x.2 = VM_TYPE_FREE /\ size <= r_size x.2) ->
  exists p r L1 L2, L = L1 ++ (p, r) :: L2 /\ find_free vmm size s = Ok (p, s) /\
    (forall x, x ∈ L1 -> ~ (size <= r_size x.2 /\ r_type x.2 = VM_TYPE_FREE)) /\
    size <= r_size r /\ r_type r = VM_TYPE_FREE.
Proof.
  intros HI (x & Hx & Hxt & Hxs). destruct (find_free_spec B U vmm v L s size HI) as (p & r & L1 & L2 & EL & R & HA & HR).
  exists p, r, L1, L2. split_and!; [done|done|done| |]; destruct HR as [[? ?]| ->]; try done;
    rewrite EL in Hx; apply elem_of_app in Hx as [Hx|Hx]; try (by destruct (HA x Hx));
    by apply list_elem_of_singleton in Hx as ->.
Qed.

Lemma find_address_spec B U vmm v L s addr :
  vmm_inv B U vmm v L s ->
  exists p r L1 L2, L = L1 ++ (p, r) :: L2 /\ find_address vmm addr s = Ok (p, s) /\
    (forall x, x ∈ L1 -> r_end x.2 <= addr) /\ (addr < r_end r \/ L2 = []).
Proof.
  intros HI.
  destruct (find_walk B U vmm v L s (fun d => negb (next d =? NULL) && (desc_end d <=? addr))
    (fun r => wrap64 (r_end r) <=? addr) HI) as (p & r & L1 & L2 & EL & HA & HT & R).
  { intros d. rewrite andb_comm. done. }
  assert (HW : forall x z, (x, z) ∈ L -> wrap64 (r_end z) = r_end z).
  { intros x z Hin. destruct (vmm_inv_region _ _ _ _ _ _ _ _ HI Hin). apply wrap64_small.
    unfold r_end in *. lia. }
  exists p, r, L1, L2. split_and!; [done|exact R| |].
  - intros [x z] Hx. specialize (HA _ Hx). cbn [snd] in *. rewrite (HW x z) in HA by (rewrite EL; set_solver).
    by apply Z.leb_le in HA.
  - destruct HT as [HT|]; [left|by right]. rewrite (HW p r) in HT by (rewrite EL; set_solver).
    by apply Z.leb_gt in HT.
Qed.

End inv.
