(* ===== verification/VmmCut.v ===== *)
(** * The virtual memory manager: cutting descriptors

    Each of the three ways [cut_descriptor] cuts a region replaces, in the list
    of the manager, the region by its parts. *)

From S2P Require Import Prelude Memory Sync Interfaces Paging Vmm VmmInv.
Import Sequential.

Lemma bind_KASSERT {S A} (b : bool) (k : unit -> M S A) (s : S) :
  b = true -> bind (KASSERT b) k s = k tt s.
Proof. by intros ->. Qed.

(** ** Updates of a few cells of the store *)

Lemma upd_prev_insert p q x d m : x <> p -> upd_prev p q (<[x := d]> m) = <[x := d]> (upd_prev p q m).
Proof.
  intros Hne. unfold upd_prev. destruct (p =? NULL); [done|]. by rewrite alter_insert_ne.
Qed.
Lemma upd_next_insert p q x d m : x <> p -> upd_next p q (<[x := d]> m) = <[x := d]> (upd_next p q m).
Proof.
  intros Hne. unfold upd_next. destruct (p =? NULL); [done|]. by rewrite alter_insert_ne.
Qed.

Section cut.
Context {F H D : Type} {FP : FrameProvider F} {HP : HeapProvider H} {SP : ShootdownProvider D}.
Context {HL : HeapLaws H}.
Implicit Types (s : vmm_state F H D).

Lemma read_desc_at p m s d : m !! p = Some d -> read_desc p (set_descs m s) = Ok (d, set_descs m s).
Proof. intros Hd. unfold read_desc. cbn. by rewrite Hd. Qed.

Lemma modify_desc_at p f m s d :
  m !! p = Some d -> modify_desc p f (set_descs m s) = Ok (tt, set_descs (<[p := f d]> m) s).
Proof. intros Hd. unfold modify_desc. by rewrite (bind_ok _ _ _ _ _ (read_desc_at _ _ _ _ Hd)). Qed.

Lemma link_prev_at p q m s :
  p = NULL \/ is_Some (m !! p) ->
  link_prev p q (set_descs m s) = Ok (tt, set_descs (upd_prev p q m) s).
Proof.
  intros HS. unfold link_prev, upd_prev. destruct (Z.eqb_spec p NULL) as [|Hn]; [done|]. cbn [negb when].
  destruct HS as [?|[d Hd]]; [done|]. rewrite (modify_desc_at _ _ _ _ _ Hd). do 3 f_equal.
  by rewrite <-(insert_id m p d Hd) at 2; rewrite alter_insert_eq.
Qed.
Lemma link_next_at p q m s :
  p = NULL \/ is_Some (m !! p) ->
  link_next p q (set_descs m s) = Ok (tt, set_descs (upd_next p q m) s).
Proof.
  intros HS. unfold link_next, upd_next. destruct (Z.eqb_spec p NULL) as [|Hn]; [done|]. cbn [negb when].
  destruct HS as [?|[d Hd]]; [done|]. rewrite (modify_desc_at _ _ _ _ _ Hd). do 3 f_equal.
  by rewrite <-(insert_id m p d Hd) at 2; rewrite alter_insert_eq.
Qed.

(** Relinking to the descriptor already linked changes nothing. *)
Lemma upd_next_noop m L q : dseg m NULL L q -> upd_next (last_ptr NULL L) q m = m.
Proof.
  destruct L as [|[p r] L _] using rev_ind; [done|]. intros HD.
  apply vdseg_app in HD as [_ (Hn & (d & Hd & _ & _ & Hnx) & _)].
  rewrite last_ptr_app. unfold last_ptr at 1. cbn [last first_ptr] in *. unfold upd_next.
  rewrite (proj2 (Z.eqb_neq p NULL)) by done. apply map_eq. intros x. rewrite lookup_alter.
  case_decide as E; [|done]. subst x. rewrite Hd. cbn. f_equal. destruct d; cbn in *. by subst.
Qed.

Lemma last_ptr_in L : last_ptr NULL L = NULL \/ last_ptr NULL L ∈ ptrs L.
Proof.
  destruct L as [|[p r] L _] using rev_ind; [by left|]. right. rewrite last_ptr_app.
  unfold last_ptr at 1. cbn. unfold ptrs. rewrite fmap_app. set_solver.
Qed.
Lemma first_ptr_in L : first_ptr L NULL = NULL \/ first_ptr L NULL ∈ ptrs L.
Proof. destruct L as [|[p r] L]; [by left|right]. apply list_elem_of_here. Qed.

Lemma dseg_is_some m prv L nxt p : dseg m prv L nxt -> p ∈ ptrs L -> is_Some (m !! p).
Proof.
  intros HD Hp. apply list_elem_of_fmap in Hp as ([q r] & -> & Hin).
  destruct (dseg_lookup _ _ _ _ _ _ HD Hin) as (d & E & _). by exists d.
Qed.

(** The head of a list with the invariant does not move. *)
Lemma update_head_stays vmm v m s :
  vs_vmms s !! vmm = Some v -> (exists d, m !! vm_list_head v = Some d /\ prev d = NULL) ->
  update_head vmm (set_descs m s) = Ok (tt, set_descs m s).
Proof.
  intros Hv (d & Hd & Hp). unfold update_head, desc_fuel.
  rewrite (bind_ok _ _ _ (S (size m)) (set_descs m s)) by done. cbn [update_head_loop].
  rewrite (bind_ok _ _ _ v (set_descs m s)) by (unfold read_vmm; cbn; by rewrite Hv).
  rewrite (bind_ok _ _ _ _ _ (read_desc_at _ _ _ _ Hd)). by rewrite Hp.
Qed.

Lemma dseg_first_prev m L : L <> [] -> dseg m NULL L NULL ->
  exists d, m !! first_ptr L NULL = Some d /\ prev d = NULL.
Proof.
  destruct L as [|[p r] L]; [done|]. intros _ (_ & (d & Hd & _ & Hp & _) & _). by exists d.
Qed.

(** ** Splitting a region in two *)

(** [p] keeps the first part [r1], the new descriptor [q] gets the second, [r2]. *)
Lemma dseg_split m L1 p r L2 q dp dq r1 r2 :
  dseg m NULL (L1 ++ (p, r) :: L2) NULL -> NoDup (ptrs (L1 ++ (p, r) :: L2)) ->
  (q ∉ ptrs (L1 ++ (p, r) :: L2)) -> q <> NULL ->
  region_of dp = r1 -> prev dp = last_ptr NULL L1 -> next dp = q ->
  region_of dq = r2 -> prev dq = p -> next dq = first_ptr L2 NULL ->
  let m' := <[p := dp]> (<[q := dq]> (upd_prev (first_ptr L2 NULL) q m)) in
  dseg m' NULL (L1 ++ (p, r1) :: (q, r2) :: L2) NULL.
Proof.
  intros HD ND Hq Hqn Rp Pp Np Rq Pq Nq m'.
  apply vdseg_app in HD as [HD1 (Hpn & _ & HD2)].
  unfold ptrs in *. rewrite fmap_app, fmap_cons in ND, Hq. cbn [fst] in *.
  apply NoDup_app in ND as (ND1 & Hdis & [Hp2 ND2]%NoDup_cons).
  assert (Hpq : p <> q) by (intros ->; apply Hq; set_solver).
  assert (Hq1 : q ∉ ptrs L1) by (unfold ptrs; set_solver).
  assert (Hq2 : q ∉ ptrs L2) by (unfold ptrs; set_solver).
  assert (Hp1 : p ∉ ptrs L1) by (intros Hin; apply (Hdis p Hin); set_solver).
  assert (H12 : forall x, x ∈ ptrs L1 -> x <> first_ptr L2 NULL).
  { intros x Hx ->. destruct (first_ptr_in L2) as [E|Hin].
    - rewrite E in Hx. by apply (dseg_nonnull _ _ _ _ _ HD1) in Hx.
    - apply (Hdis _ Hx). set_solver. }
  apply vdseg_app. split; [|cbn [dseg first_ptr]; split_and!].
  - cbn [first_ptr]. unfold m'. apply dseg_insert; [done|]. apply dseg_insert; [done|].
    eapply dseg_frame; [|exact HD1]. intros x Hx. apply upd_prev_ne. by apply H12.
  - done.
  - exists dp. split; [apply lookup_insert_eq|]. done.
  - done.
  - exists dq. unfold m'. rewrite lookup_insert_ne by done. split; [apply lookup_insert_eq|]. done.
  - unfold m'. apply dseg_insert; [done|]. apply dseg_insert; [done|]. eapply dseg_upd_prev; done.
Qed.

(** Steps on a store in which the two cells are known. *)
Section two_cells.
Context (p q : Z) (Hpq : p <> q) (dp dq : VirtualMemoryDescriptor) (m : store) (s : vmm_state F H D).
Let cells dp dq m := set_descs (<[p := dp]> (<[q := dq]> m)) s.

Lemma modify_fst f : modify_desc p f (cells dp dq m) = Ok (tt, cells (f dp) dq m).
Proof.
  unfold cells. rewrite (modify_desc_at _ _ _ _ dp) by apply lookup_insert_eq.
  by rewrite insert_insert_eq.
Qed.
Lemma modify_snd f : modify_desc q f (cells dp dq m) = Ok (tt, cells dp (f dq) m).
Proof.
  unfold cells. rewrite (modify_desc_at _ _ _ _ dq).
  - by rewrite (insert_insert_ne _ q p), insert_insert_eq by done.
  - rewrite lookup_insert_ne by done. apply lookup_insert_eq.
Qed.
Lemma read_fst : read_desc p (cells dp dq m) = Ok (dp, cells dp dq m).
Proof. apply read_desc_at, lookup_insert_eq. Qed.
Lemma read_snd : read_desc q (cells dp dq m) = Ok (dq, cells dp dq m).
Proof. apply read_desc_at. rewrite lookup_insert_ne by done. apply lookup_insert_eq. Qed.
Lemma link_prev_cells x y :
  x <> p -> x <> q -> x = NULL \/ is_Some (m !! x) ->
  link_prev x y (cells dp dq m) = Ok (tt, cells dp dq (upd_prev x y m)).
Proof.
  intros Hp Hq HS. unfold cells. rewrite link_prev_at.
  - by rewrite !upd_prev_insert by done.
  - by rewrite !lookup_insert_ne by done.
Qed.
Lemma link_next_cells x y :
  x <> p -> x <> q -> x = NULL \/ is_Some (m !! x) ->
  link_next x y (cells dp dq m) = Ok (tt, cells dp dq (upd_next x y m)).
Proof.
  intros Hp Hq HS. unfold cells. rewrite link_next_at.
  - by rewrite !upd_next_insert by done.
  - by rewrite !lookup_insert_ne by done.
Qed.
End two_cells.

(** Facts on the neighbours of a descriptor of the list. *)
Record neighbours m L1 (p : Z) (r : region) L2 (d : VirtualMemoryDescriptor) : Prop := {
  nb_d : m !! p = Some d;
  nb_region : region_of d = r;
  nb_prev : prev d = last_ptr NULL L1;
  nb_next : next d = first_ptr L2 NULL;
  nb_null : p <> NULL;
  nb_pp : last_ptr NULL L1 <> p /\ (last_ptr NULL L1 = NULL \/ is_Some (m !! last_ptr NULL L1));
  nb_nn : first_ptr L2 NULL <> p /\ (first_ptr L2 NULL = NULL \/ is_Some (m !! first_ptr L2 NULL));
  nb_noop : upd_next (last_ptr NULL L1) p m = m
}.

Lemma vdseg_neighbours m L1 p r L2 :
  dseg m NULL (L1 ++ (p, r) :: L2) NULL -> NoDup (ptrs (L1 ++ (p, r) :: L2)) ->
  exists d, neighbours m L1 p r L2 d.
Proof.
  intros HD ND. apply vdseg_app in HD as [HD1 (Hpn & (d & Hd & HR & Hpr & Hnx) & HD2)].
  unfold ptrs in ND. rewrite fmap_app, fmap_cons in ND.
  apply NoDup_app in ND as (ND1 & Hdis & [Hp2 ND2]%NoDup_cons). cbn [fst] in *.
  exists d. split; try done.
  - destruct (last_ptr_in L1) as [E|Hin].
    + rewrite E. split; [congruence|by left].
    + split; [|right; exact (dseg_is_some _ _ _ _ _ HD1 Hin)].
      intros E. rewrite E in Hin. apply (Hdis p Hin). set_solver.
  - destruct (first_ptr_in L2) as [E|Hin].
    + rewrite E. split; [congruence|by left].
    + split; [|right; exact (dseg_is_some _ _ _ _ _ HD2 Hin)]. intros E. by rewrite E in Hin.
  - by apply upd_next_noop.
Qed.

(** ** Regions of the parts *)

Definition part (r : region) (start size : Z) : region := MkRegion start size 0 0 (r_type r).

Lemma elem_mid {A} (x : A) l1 l2 : x ∈ l1 ++ x :: l2.
Proof. apply elem_of_app. right. apply list_elem_of_here. Qed.

Lemma ordered_replace lo rs1 r rs2 rs' :
  ordered lo (rs1 ++ r :: rs2) -> rs' <> [] ->
  ordered (r_start r) rs' -> foldl (fun _ x => r_end x) (r_start r) rs' <= r_end r ->
  ordered lo (rs1 ++ rs' ++ rs2).
Proof.
  intros HO Hne HR HE. apply ordered_app in HO as [H1 (H2 & _ & H3)].
  apply ordered_app. split; [done|]. apply ordered_app. split.
  - by eapply ordered_weaken.
  - destruct rs' as [|x rs']; [done|]. cbn [foldl] in *. eapply ordered_weaken; [exact HE|exact H3].
Qed.

Lemma part_ok r start size :
  region_ok r -> is_free_type (r_type r) = true -> r_start r <= start -> 0 < size ->
  start + size <= r_end r -> start mod PAGE_SIZE = 0 -> size mod PAGE_SIZE = 0 ->
  region_ok (part r start size).
Proof.
  intros [(S1 & _) (Z1 & _) E1 _ _] HT H1 H2 H3 H4 H5. unfold r_end in *.
  split; unfold r_end; cbn [part r_start r_size r_upper r_lower r_type].
  - split; [clear H4 H5; lia|done].
  - split; [clear H4 H5; lia|done].
  - clear H4 H5. lia.
  - clear H4 H5. lia.
  - done.
Qed.

(** Two consecutive parts. *)
Lemma ordered_parts r n :
  region_ok r -> is_free_type (r_type r) = true -> 0 < n < r_size r -> n mod PAGE_SIZE = 0 ->
  ordered (r_start r) [part r (r_start r) n; part r (r_start r + n) (r_size r - n)].
Proof.
  intros Hok HT Hn Hn8. pose proof Hok as [(S1 & S2) (Z1 & Z2) _ _ _]. unfold PAGE_SIZE in *.
  cbn [ordered part r_start]. split_and!; [lia| | | |done].
  - apply part_ok; unfold r_end, PAGE_SIZE; done || lia.
  - unfold r_end. cbn [part r_start r_size]. lia.
  - apply part_ok; unfold r_end, PAGE_SIZE; done || lia.
Qed.

Lemma region_free r d :
  region_of d = r -> region_ok r -> is_free_type (r_type r) = true ->
  upper_padding d = 0 /\ lower_padding d = 0.
Proof. intros <- [] HT. cbn in *. auto. Qed.

Lemma vmm_inv_change B U B' U' vmm v L L' s s' :
  vmm_inv B U vmm v L s -> keeps s s' -> first_ptr L' NULL = first_ptr L NULL -> L' <> [] ->
  dseg (vs_descs s') NULL L' NULL -> NoDup (ptrs L') -> (forall p, p ∈ ptrs L' -> p ∈ U') ->
  desc_pool B' U' s' -> ordered 0 (snd <$> L') -> vmm_inv B' U' vmm v L' s'.
Proof.
  intros [] (_ & _ & _ & _ & _ & _ & _ & _ & Ev) Eh Hne HD ND HU HP' HO.
  split; try assumption; congruence.
Qed.

Lemma vmm_inv_split B U B' vmm v L1 p r L2 s s' q r1 r2 :
  vmm_inv B U vmm v (L1 ++ (p, r) :: L2) s -> keeps s s' -> (q ∉ U) ->
  dseg (vs_descs s') NULL (L1 ++ (p, r1) :: (q, r2) :: L2) NULL -> desc_pool B' (q :: U) s' ->
  ordered (r_start r) [r1; r2] -> r_end r2 <= r_end r ->
  vmm_inv B' (q :: U) vmm v (L1 ++ (p, r1) :: (q, r2) :: L2) s'.
Proof.
  intros HI HK Hq HD HP' HO HE.
  pose proof (vi_nodup _ _ _ _ _ _ HI) as ND. pose proof (vi_used _ _ _ _ _ _ HI) as HU.
  unfold ptrs in ND, HU. rewrite fmap_app in ND, HU. cbn [fmap list_fmap fst] in ND, HU.
  assert (EP : ptrs (L1 ++ (p, r1) :: (q, r2) :: L2) ≡ₚ q :: (ptrs L1 ++ p :: ptrs L2)).
  { unfold ptrs. rewrite fmap_app. cbn [fmap list_fmap fst]. solve_Permutation. }
  eapply vmm_inv_change; [exact HI|exact HK| | |exact HD| | |exact HP'|].
  - by destruct L1 as [|[? ?] ?].
  - by destruct L1.
  - rewrite EP. apply NoDup_cons. split; [|exact ND]. intros Hin. apply Hq. by apply HU.
  - intros x. rewrite EP. rewrite !elem_of_cons. intros [->|Hx]; [by left|right; by apply HU].
  - rewrite fmap_app. cbn [fmap list_fmap snd]. change (r1 :: r2 :: ?c) with ([r1; r2] ++ c).
    pose proof (vi_regions _ _ _ _ _ _ HI) as HR. rewrite fmap_app in HR. cbn [fmap list_fmap snd] in HR.
    by eapply (ordered_replace 0 _ r).
Qed.

Lemma update_head_inv B U vmm v L L' s s1 m' :
  vmm_inv B U vmm v L s -> keeps s s1 -> dseg m' NULL L' NULL ->
  first_ptr L' NULL = first_ptr L NULL -> update_head vmm (set_descs m' s1) = Ok (tt, set_descs m' s1).
Proof.
  intros HI (_ & _ & _ & _ & _ & _ & _ & _ & Ev) HD E. apply (update_head_stays vmm v); [rewrite Ev; apply HI|].
  rewrite (vi_head _ _ _ _ _ _ HI), <-E. apply dseg_first_prev; [|done]. intros ->. cbn in E.
  pose proof (vi_seg _ _ _ _ _ _ HI) as HS. pose proof (vi_nonempty _ _ _ _ _ _ HI).
  destruct L as [|[? ?] ?]; [done|]. by destruct HS as (? & _).
Qed.

(** A fresh descriptor is none of the three around the cut. *)
Lemma fresh_apart L1 p r L2 q :
  (q ∉ ptrs (L1 ++ (p, r) :: L2)) -> NULL <> q ->
  p <> q /\ last_ptr NULL L1 <> q /\ first_ptr L2 NULL <> q.
Proof.
  unfold ptrs. rewrite fmap_app. cbn [fmap list_fmap fst].
  rewrite not_elem_of_app, not_elem_of_cons. intros (H1 & H2 & H3) Hn. split_and!.
  - done.
  - destruct (last_ptr_in L1) as [->|Hin]; [done|]. intros E. apply H1. by rewrite <-E.
  - destruct (first_ptr_in L2) as [->|Hin]; [done|]. intros E. apply H3. by rewrite <-E.
Qed.

Lemma cut_start_spec B U vmm v L1 p r L2 size s :
  vmm_inv B U vmm v (L1 ++ (p, r) :: L2) s -> is_free_type (r_type r) = true ->
  0 < size <= r_size r -> size mod PAGE_SIZE = 0 -> size = r_size r \/ can_alloc s ->
  exists s' B' U' Lq, cut_descriptor_start vmm p size s = Ok (p, s') /\ keeps s s' /\
    vmm_inv B' U' vmm v (L1 ++ (p, part r (r_start r) size) :: Lq ++ L2) s' /\
    (snd <$> Lq) = (if size =? r_size r then [] else [part r (r_start r + size) (r_size r - size)]).
Proof.
  intros HI HT Hs Hs8 HC.
  assert (Hok : region_ok r) by (apply (vmm_inv_region _ _ _ _ _ _ p r HI); apply elem_mid).
  pose proof Hok as [(S1 & S2) (Z1 & Z2) E1 P1 F1]. destruct (F1 HT) as [U0 L0].
  destruct (vdseg_neighbours _ _ _ _ _ (vi_seg _ _ _ _ _ _ HI) (vi_nodup _ _ _ _ _ _ HI)) as [d [Nd Nr Np Nn Nnull Npp Nnn Nnoop]].
  assert (Et : type d = r_type r /\ size_bytes d = r_size r /\ start_vaddr d = r_start r) by (by subst r).
  destruct Et as (Et & Ez & Ea). unfold r_end in E1.
  assert (W1 : wrap64 (r_start r + size) = r_start r + size) by (clear -Hs S1 E1; apply wrap64_small; lia).
  assert (W2 : wrap64 (r_size r - size) = r_size r - size) by (clear -Hs S1 E1; apply wrap64_small; lia).
  unfold cut_descriptor_start. rewrite (bind_ok _ _ _ d s) by (unfold read_desc; by rewrite Nd).
  rewrite Et, Ez, Ea. cbv zeta.
  rewrite bind_KASSERT by done. rewrite bind_KASSERT by (apply Z.leb_le; lia).
  rewrite !bind_KASSERT by (by apply Z.eqb_eq).
  destruct (Z.eqb_spec (r_size r) size) as [E|Hne].
  { exists s, B, U, []. rewrite (proj2 (Z.eqb_eq size (r_size r))) by done. split_and!; try done.
    assert (part r (r_start r) size = r) as ->; [|done].
    unfold part. subst size. destruct r; cbn in *. by subst. }
  destruct HC as [->|HC]; [done|].
  destruct (allocate_desc_spec B U s (vi_pool _ _ _ _ _ _ HI) HC) as
    (q & dq & s1 & B' & R & Hq & Hqn & Em & Uq & Lq0 & HK & HP').
  assert (HqL : q ∉ ptrs (L1 ++ (p, r) :: L2)).
  { intros Hin. apply Hq. by eapply vi_used. }
  destruct (fresh_apart _ _ _ _ _ HqL) as (Hpq & Hpp & Hnn); [congruence|].
  assert (Es1 : s1 = set_descs (<[p := d]> (<[q := dq]> (vs_descs s))) s1).
  { rewrite insert_id; [rewrite <-Em; by destruct s1|]. by rewrite lookup_insert_ne. }
  rewrite Es1 in R. rewrite (bind_ok _ _ _ _ _ R).
  rewrite (bind_ok _ _ _ _ _ (modify_fst _ _ _ _ _ _ _)).
  do 3 rewrite (bind_ok _ _ _ _ _ (modify_snd _ _ Hpq _ _ _ _ _)).
  rewrite Np, Nn.
  rewrite (bind_ok _ _ _ _ _ (link_next_cells _ _ _ _ _ _ _ _ (proj1 Npp) Hpp (proj2 Npp))), Nnoop.
  do 2 rewrite (bind_ok _ _ _ _ _ (modify_fst _ _ _ _ _ _ _)).
  do 2 rewrite (bind_ok _ _ _ _ _ (modify_snd _ _ Hpq _ _ _ _ _)).
  rewrite (bind_ok _ _ _ _ _ (link_prev_cells _ _ _ _ _ _ _ _ (proj1 Nnn) Hnn (proj2 Nnn))).
  rewrite (bind_ok _ _ _ _ _ (read_fst _ _ _ _ _ _)).
  rewrite (bind_ok _ _ _ _ _ (read_snd _ _ Hpq _ _ _ _)).
  rewrite bind_KASSERT by (unfold desc_end; cbn; rewrite Ea; apply Z.eqb_refl).
  match goal with |- context [set_descs (<[p := ?a]> (<[q := ?b]> _)) s1] => set (dp' := a); set (dq' := b) end.
  assert (HD' : dseg (<[p := dp']> (<[q := dq']> (upd_prev (first_ptr L2 NULL) q (vs_descs s)))) NULL
    (L1 ++ (p, part r (r_start r) size) :: (q, part r (r_start r + size) (r_size r - size)) :: L2) NULL).
  { eapply dseg_split; try done; try apply HI.
    - destruct (region_free r d Nr Hok HT) as [Ud Ld]. unfold region_of, dp', part. cbn. by rewrite Ud, Ld, Ea, Et.
    - unfold region_of, dq', part. cbn. by rewrite Uq, Lq0, W1, W2. }
  set (m' := <[p := dp']> _) in *.
  rewrite (bind_ok _ _ _ tt (set_descs m' s1)) by (eapply update_head_inv; [exact HI|exact HK|exact HD'|by destruct L1 as [|[? ?] ?]]).
  exists (set_descs m' s1), B', (q :: U), [(q, part r (r_start r + size) (r_size r - size))].
  rewrite (proj2 (Z.eqb_neq size (r_size r))) by done. split_and!; try done.
  eapply vmm_inv_split; [exact HI|done|exact Hq|exact HD'|by apply desc_pool_descs| |].
  - apply ordered_parts; try done. clear -Hs Hne. lia.
  - unfold r_end. cbn [part r_start r_size]. clear. lia.
Qed.

Lemma cut_end_spec B U vmm v L1 p r L2 start size s :
  vmm_inv B U vmm v (L1 ++ (p, r) :: L2) s -> is_free_type (r_type r) = true ->
  0 < size < r_size r -> size mod PAGE_SIZE = 0 -> start + size = r_end r -> can_alloc s ->
  exists q s' B' U', cut_descriptor_end vmm p start size s = Ok (q, s') /\ keeps s s' /\
    vmm_inv B' U' vmm v (L1 ++ (p, part r (r_start r) (r_size r - size)) :: (q, part r start size) :: L2) s'.
Proof.
  intros HI HT Hs Hs8 He HC.
  assert (Hok : region_ok r) by (apply (vmm_inv_region _ _ _ _ _ _ p r HI); apply elem_mid).
  pose proof Hok as [(S1 & S2) (Z1 & Z2) E1 P1 F1].
  destruct (vdseg_neighbours _ _ _ _ _ (vi_seg _ _ _ _ _ _ HI) (vi_nodup _ _ _ _ _ _ HI)) as [d [Nd Nr Np Nn Nnull Npp Nnn Nnoop]].
  assert (Et : type d = r_type r /\ size_bytes d = r_size r /\ start_vaddr d = r_start r) by (by subst r).
  destruct Et as (Et & Ez & Ea). unfold r_end in E1, He.
  assert (Est : start = r_start r + (r_size r - size)) by (clear -He; lia).
  assert (W2 : wrap64 (r_size r - size) = r_size r - size) by (clear -Hs S1 E1; apply wrap64_small; lia).
  assert (W1 : wrap64 (r_start r + (r_size r - size)) = start) by (clear -Hs S1 E1 Est; subst; apply wrap64_small; lia).
  destruct (allocate_desc_spec B U s (vi_pool _ _ _ _ _ _ HI) HC) as
    (q & dq & s1 & B' & R & Hq & Hqn & Em & Uq & Lq0 & HK & HP').
  assert (HqL : q ∉ ptrs (L1 ++ (p, r) :: L2)) by (intros Hin; apply Hq; by eapply vi_used).
  destruct (fresh_apart _ _ _ _ _ HqL) as (Hpq & Hpp & Hnn); [congruence|].
  assert (Es1 : s1 = set_descs (<[p := d]> (<[q := dq]> (vs_descs s))) s1).
  { rewrite insert_id; [rewrite <-Em; by destruct s1|]. by rewrite lookup_insert_ne. }
  unfold cut_descriptor_end. rewrite (bind_ok _ _ _ d s) by (unfold read_desc; by rewrite Nd).
  cbv zeta. rewrite Es1 in R. rewrite (bind_ok _ _ _ _ _ R). rewrite Et, Ez, Ea, W2, W1.
  rewrite (bind_ok _ _ _ _ _ (modify_fst _ _ _ _ _ _ _)).
  do 3 rewrite (bind_ok _ _ _ _ _ (modify_snd _ _ Hpq _ _ _ _ _)).
  rewrite (bind_ok _ _ _ _ _ (read_snd _ _ Hpq _ _ _ _)).
  rewrite bind_KASSERT by (cbn; apply Z.eqb_refl).
  rewrite Np, Nn.
  rewrite (bind_ok _ _ _ _ _ (link_next_cells _ _ _ _ _ _ _ _ (proj1 Npp) Hpp (proj2 Npp))), Nnoop.
  do 2 rewrite (bind_ok _ _ _ _ _ (modify_fst _ _ _ _ _ _ _)).
  do 2 rewrite (bind_ok _ _ _ _ _ (modify_snd _ _ Hpq _ _ _ _ _)).
  rewrite (bind_ok _ _ _ _ _ (link_prev_cells _ _ _ _ _ _ _ _ (proj1 Nnn) Hnn (proj2 Nnn))).
  rewrite (bind_ok _ _ _ _ _ (read_fst _ _ _ _ _ _)).
  rewrite (bind_ok _ _ _ _ _ (read_snd _ _ Hpq _ _ _ _)).
  rewrite bind_KASSERT by (unfold desc_end; cbn; rewrite Ea, W1; apply Z.eqb_refl).
  match goal with |- context [set_descs (<[p := ?a]> (<[q := ?b]> _)) s1] => set (dp' := a); set (dq' := b) end.
  assert (HD' : dseg (<[p := dp']> (<[q := dq']> (upd_prev (first_ptr L2 NULL) q (vs_descs s)))) NULL
    (L1 ++ (p, part r (r_start r) (r_size r - size)) :: (q, part r start size) :: L2) NULL).
  { eapply dseg_split; try done; try apply HI.
    - destruct (region_free r d Nr Hok HT) as [Ud Ld]. unfold region_of, dp', part. cbn. by rewrite Ud, Ld, Ea, Et.
    - unfold region_of, dq', part. cbn. by rewrite Uq, Lq0. }
  set (m' := <[p := dp']> _) in *.
  rewrite (bind_ok _ _ _ tt (set_descs m' s1)) by (eapply update_head_inv; [exact HI|exact HK|exact HD'|by destruct L1 as [|[? ?] ?]]).
  exists q, (set_descs m' s1), B', (q :: U). split_and!; try done.
  eapply vmm_inv_split; [exact HI|done|exact Hq|exact HD'|by apply desc_pool_descs| |].
  - subst start. pose proof (ordered_parts r (r_size r - size) Hok HT) as HO.
    replace (r_size r - (r_size r - size)) with size in HO by (clear; lia).
    apply HO; [clear -Hs; lia|unfold PAGE_SIZE in *; clear -Z2 Hs8; lia].
  - unfold r_end. cbn [part r_start r_size]. clear -He. lia.
Qed.

(** ** Cutting the middle *)

Section three_cells.
Context (p a b : Z) (Hpa : p <> a) (Hpb : p <> b) (Hab : a <> b).
Context (dp da db : VirtualMemoryDescriptor) (m : store) (s : vmm_state F H D).
Let cells dp da db m := set_descs (<[p := dp]> (<[a := da]> (<[b := db]> m))) s.

Lemma modify3_p f : modify_desc p f (cells dp da db m) = Ok (tt, cells (f dp) da db m).
Proof. apply modify_fst. Qed.
Lemma modify3_a f : modify_desc a f (cells dp da db m) = Ok (tt, cells dp (f da) db m).
Proof. by apply modify_snd. Qed.
Lemma modify3_b f : modify_desc b f (cells dp da db m) = Ok (tt, cells dp da (f db) m).
Proof.
  unfold cells. rewrite (modify_desc_at _ _ _ _ db).
  - by rewrite (insert_insert_ne _ b p), (insert_insert_ne _ b a), insert_insert_eq by done.
  - rewrite !lookup_insert_ne by done. apply lookup_insert_eq.
Qed.
Lemma read3_a : read_desc a (cells dp da db m) = Ok (da, cells dp da db m).
Proof. by apply read_snd. Qed.
Lemma read3_b : read_desc b (cells dp da db m) = Ok (db, cells dp da db m).
Proof. apply read_desc_at. rewrite !lookup_insert_ne by done. apply lookup_insert_eq. Qed.
Lemma link_next3 x y :
  x <> p -> x <> a -> x <> b -> x = NULL \/ is_Some (m !! x) ->
  link_next x y (cells dp da db m) = Ok (tt, cells dp da db (upd_next x y m)).
Proof.
  intros. unfold cells. rewrite link_next_cells by (done || by rewrite !lookup_insert_ne by done).
  by rewrite upd_next_insert by done.
Qed.
Lemma link_prev3 x y :
  x <> p -> x <> a -> x <> b -> x = NULL \/ is_Some (m !! x) ->
  link_prev x y (cells dp da db m) = Ok (tt, cells dp da db (upd_prev x y m)).
Proof.
  intros. unfold cells. rewrite link_prev_cells by (done || by rewrite !lookup_insert_ne by done).
  by rewrite upd_prev_insert by done.
Qed.
End three_cells.

Lemma upd_next_some x y m z : is_Some (m !! z) -> is_Some (upd_next x y m !! z).
Proof.
  intros HS. unfold upd_next. destruct (x =? NULL); [done|]. rewrite lookup_alter.
  case_decide; [subst; by rewrite fmap_is_Some|done].
Qed.

Lemma dseg_split3 m L1 p r L2 a b da dp db ra rp rb :
  dseg m NULL (L1 ++ (p, r) :: L2) NULL -> NoDup (ptrs (L1 ++ (p, r) :: L2)) ->
  (a ∉ ptrs (L1 ++ (p, r) :: L2)) -> (b ∉ a :: ptrs (L1 ++ (p, r) :: L2)) -> a <> NULL -> b <> NULL ->
  region_of da = ra -> prev da = last_ptr NULL L1 -> next da = p ->
  region_of dp = rp -> prev dp = a -> next dp = b ->
  region_of db = rb -> prev db = p -> next db = first_ptr L2 NULL ->
  let m' := <[p := dp]> (<[a := da]> (<[b := db]>
    (upd_prev (first_ptr L2 NULL) b (upd_next (last_ptr NULL L1) a m)))) in
  dseg m' NULL (L1 ++ (a, ra) :: (p, rp) :: (b, rb) :: L2) NULL.
Proof.
  intros HD ND Ha Hb Han Hbn Ra Pa Na Rp Pp Np Rb Pb Nb m'.
  apply vdseg_app in HD as [HD1 (Hpn & _ & HD2)].
  apply not_elem_of_cons in Hb as [Hab Hb].
  unfold ptrs in *. rewrite fmap_app, fmap_cons in ND, Ha, Hb. cbn [fst] in *.
  apply NoDup_app in ND as (ND1 & Hdis & [Hp2 ND2]%NoDup_cons).
  apply not_elem_of_app in Ha as [Ha1 [Hpa Ha2]%not_elem_of_cons].
  apply not_elem_of_app in Hb as [Hb1 [Hpb Hb2]%not_elem_of_cons].
  assert (Hp1 : p ∉ ptrs L1) by (intros Hin; apply (Hdis p Hin); apply list_elem_of_here).
  assert (H12 : forall x, x ∈ ptrs L1 -> x <> first_ptr L2 NULL).
  { intros x Hx ->. destruct (first_ptr_in L2) as [E|Hin].
    - rewrite E in Hx. by apply (dseg_nonnull _ _ _ _ _ HD1) in Hx.
    - apply (Hdis _ Hx). by apply list_elem_of_further. }
  assert (H21 : forall x, x ∈ ptrs L2 -> x <> last_ptr NULL L1).
  { intros x Hx ->. destruct (last_ptr_in L1) as [E|Hin].
    - rewrite E in Hx. by apply (dseg_nonnull _ _ _ _ _ HD2) in Hx.
    - apply (Hdis _ Hin). by apply list_elem_of_further. }
  apply vdseg_app. split; [|cbn [dseg first_ptr]; split_and!].
  - cbn [first_ptr]. unfold m'. do 3 (apply dseg_insert; [done|]).
    apply (dseg_frame (upd_next (last_ptr NULL L1) a m)).
    + intros x Hx. apply upd_prev_ne. by apply H12.
    + eapply dseg_upd_next; [done|exact HD1].
  - done.
  - exists da. unfold m'. rewrite lookup_insert_ne by done. split; [apply lookup_insert_eq|]. done.
  - done.
  - exists dp. split; [apply lookup_insert_eq|]. done.
  - done.
  - exists db. unfold m'. rewrite !lookup_insert_ne by done. split; [apply lookup_insert_eq|]. done.
  - unfold m'. do 3 (apply dseg_insert; [done|]). eapply (dseg_upd_prev _ p); [done|].
    eapply dseg_frame; [|exact HD2]. intros x Hx. apply upd_next_ne. by apply H21.
Qed.

(** The head follows a descriptor inserted before it. *)
Lemma update_head_moves vmm v m s L1 a L :
  vs_vmms s !! vmm = Some v -> a <> NULL -> dseg m NULL (L1 ++ L) NULL -> first_ptr L NULL = a ->
  (L1 = [] -> exists d, m !! vm_list_head v = Some d /\ prev d = a) ->
  (L1 <> [] -> vm_list_head v = first_ptr L1 NULL) ->
  let v' := match L1 with [] => set_head a v | _ => v end in
  update_head vmm (set_descs m s) = Ok (tt, set_vmms (<[vmm := v']> (vs_vmms s)) (set_descs m s)).
Proof.
  intros Hv Han HD Ea H0 H1 v'. destruct L1 as [|[x z] L1].
  - destruct (H0 eq_refl) as (d & Hd & Hp). clear H0 H1.
    destruct L as [|[a' ra] L]; [by subst|]. cbn [first_ptr] in Ea. subst a'.
    destruct HD as (_ & (da & Hda & _ & Hpa & _) & _).
    unfold update_head, desc_fuel.
    rewrite (bind_ok _ _ _ (S (size m)) (set_descs m s)) by done.
    assert (Hsz : (size m <> 0)%nat) by (intros E; apply map_size_empty_inv in E; subst m; done).
    destruct (size m) as [|n]; [done|]. cbn [update_head_loop].
    rewrite (bind_ok _ _ _ v (set_descs m s)) by (unfold read_vmm; cbn; by rewrite Hv).
    rewrite (bind_ok _ _ _ _ _ (read_desc_at _ _ _ _ Hd)), Hp.
    rewrite (proj2 (Z.eqb_neq a NULL)) by done.
    rewrite (bind_ok _ _ _ tt (set_vmms (<[vmm := v']> (vs_vmms s)) (set_descs m s))).
    2: { unfold modify_vmm, read_vmm, bind, modify. cbn [vs_vmms set_descs]. by rewrite Hv. }
    rewrite (bind_ok _ _ _ v' (set_vmms (<[vmm := v']> (vs_vmms s)) (set_descs m s))).
    2: { unfold read_vmm. cbn [vs_vmms set_vmms]. by rewrite lookup_insert_eq. }
    rewrite (bind_ok _ _ _ da (set_vmms (<[vmm := v']> (vs_vmms s)) (set_descs m s))).
    2: { unfold read_desc. cbn [vs_descs set_vmms set_descs vm_list_head v' set_head]. by rewrite Hda. }
    by rewrite Hpa.
  - rewrite (update_head_stays vmm v); [|done|].
    + do 2 f_equal. unfold v'. by rewrite insert_id by done.
    + rewrite (H1 ltac:(done)). destruct HD as (_ & (d & Hd & _ & Hp & _) & _). by exists d.
Qed.

Definition can_alloc_two s : Prop :=
  if is_kheap_initialzed (vs_heap s) then
    hp_serves (vs_heap s) sizeof_VirtualMemoryDescriptor /\
    forall p h, hp_kmalloc sizeof_VirtualMemoryDescriptor (vs_heap s) = Ok (p, h) ->
      hp_serves h sizeof_VirtualMemoryDescriptor
  else next_free_descriptor s + 1 < VIRTUAL_MEMORY_DESCRIPTOR_EARLY_ALLOCATION_SIZE.

Lemma can_alloc_two_spec B U s :
  desc_pool B U s -> can_alloc_two s ->
  can_alloc s /\ forall p s', allocate_vmem_descriptor s = Ok (p, s') -> can_alloc s'.
Proof.
  intros HP' HC. pose proof HP' as [_ HN _ HH]. unfold can_alloc_two, can_alloc in *.
  destruct (is_kheap_initialzed (vs_heap s)) eqn:EI.
  - destruct HC as [HC1 HC2]. split; [done|]. intros p s'. destruct HH as [HI _].
    destruct (hp_kmalloc_ok _ _ _ HI HC1) as (q & k & h & R & _ & _ & _ & _ & _ & _ & EI').
    unfold allocate_vmem_descriptor. rewrite (bind_ok _ _ _ true s) by (unfold gets; by rewrite EI).
    rewrite (bind_ok _ _ _ q (put kheap_lens h s)) by (unfold zoom; cbn [view kheap_lens]; by rewrite R).
    intros [= <- <-]. cbn. rewrite EI', EI. by eapply HC2.
  - unfold VIRTUAL_MEMORY_DESCRIPTOR_EARLY_ALLOCATION_SIZE in *. split; [lia|]. intros p s'.
    unfold allocate_vmem_descriptor. rewrite (bind_ok _ _ _ false s) by (unfold gets; by rewrite EI).
    rewrite (bind_ok _ _ _ (next_free_descriptor s) s) by done.
    rewrite (proj2 (Z.leb_gt _ _)) by (unfold VIRTUAL_MEMORY_DESCRIPTOR_EARLY_ALLOCATION_SIZE; lia).
    intros [= <- <-]. cbn. rewrite EI. rewrite wrap64_small by lia. done.
Qed.

(** Only the store, the pool and the head of the manager change. *)
Definition keeps_vmm (vmm : Z) (v' : VirtualMemoryManager) s s' : Prop :=
  exists s0, keeps s s0 /\ s' = set_vmms (<[vmm := v']> (vs_vmms s)) s0.

Definition moved_head (v v' : VirtualMemoryManager) : Prop := v' = set_head (vm_list_head v') v.

Lemma ordered_parts3 r start size :
  region_ok r -> is_free_type (r_type r) = true -> r_start r < start -> 0 < size ->
  start + size < r_end r -> start mod PAGE_SIZE = 0 -> size mod PAGE_SIZE = 0 ->
  ordered (r_start r) [part r (r_start r) (start - r_start r); part r start size;
                       part r (start + size) (r_end r - (start + size))].
Proof.
  intros Hok HT H1 H2 H3 H4 H5. pose proof Hok as [(S1 & S2) (Z1 & Z2) _ _ _].
  unfold r_end, PAGE_SIZE in *.
  cbn [ordered]. unfold r_end. cbn [part r_start r_size].
  split_and!; [lia| |lia| |lia| |done]; apply part_ok; unfold r_end, PAGE_SIZE; done || lia.
Qed.

Lemma desc_pool_vmms B U s x : desc_pool B U s -> desc_pool B U (set_vmms x s).
Proof. intros []. by split. Qed.

Lemma cut_middle_spec B U vmm v L1 p r L2 start size s :
  vmm_inv B U vmm v (L1 ++ (p, r) :: L2) s -> is_free_type (r_type r) = true ->
  r_start r < start -> 0 < size -> start + size < r_end r ->
  start mod PAGE_SIZE = 0 -> size mod PAGE_SIZE = 0 -> can_alloc_two s ->
  exists a b s' B' U' v', cut_descriptor_middle vmm p start size s = Ok (p, s') /\
    keeps_vmm vmm v' s s' /\ moved_head v v' /\
    vmm_inv B' U' vmm v' (L1 ++ (a, part r (r_start r) (start - r_start r)) :: (p, part r start size) ::
      (b, part r (start + size) (r_end r - (start + size))) :: L2) s'.
Proof.
  intros HI HT Hs1 Hs2 Hs3 Ha8 Hs8 HCT. destruct (can_alloc_two_spec B U s (vi_pool _ _ _ _ _ _ HI) HCT) as [HC HC2].
  assert (Hok : region_ok r) by (apply (vmm_inv_region _ _ _ _ _ _ p r HI); apply elem_mid).
  pose proof Hok as [(S1 & S2) (Z1 & Z2) E1 P1 F1].
  destruct (vdseg_neighbours _ _ _ _ _ (vi_seg _ _ _ _ _ _ HI) (vi_nodup _ _ _ _ _ _ HI)) as [d [Nd Nr Np Nn Nnull Npp Nnn _]].
  assert (Et : type d = r_type r /\ size_bytes d = r_size r /\ start_vaddr d = r_start r) by (by subst r).
  destruct Et as (Et & Ez & Ea). destruct (region_free r d Nr Hok HT) as [Ud Ld].
  assert (W1 : wrap64 (start - r_start r) = start - r_start r) by (clear -Hs1 Hs2 Hs3 S1 E1; apply wrap64_small; lia).
  assert (W2 : wrap64 (start + size) = start + size) by (clear -Hs1 Hs2 Hs3 S1 E1; apply wrap64_small; lia).
  assert (W3 : wrap64 (r_start r + r_size r - (start + size)) = r_end r - (start + size))
    by (clear -Hs1 Hs2 Hs3 S1 E1; unfold r_end in *; apply wrap64_small; lia).
  assert (W4 : wrap64 (r_start r + r_size r) = r_end r) by (clear -S1 Z1 E1; unfold r_end in *; apply wrap64_small; lia).
  assert (W5 : wrap64 (r_start r + (start - r_start r)) = start)
    by (clear -Hs1 Hs2 Hs3 S1 E1; rewrite wrap64_small; lia).
  destruct (allocate_desc_spec B U s (vi_pool _ _ _ _ _ _ HI) HC) as
    (a & da & s1 & B1 & R1 & Ha & Han & Em1 & Ua & La & HK1 & HP1).
  specialize (HC2 _ _ R1).
  destruct (allocate_desc_spec B1 (a :: U) s1 HP1 HC2) as
    (b & db & s2 & B2 & R2 & Hb & Hbn & Em2 & Ub & Lb & HK2 & HP2).
  assert (HaL : a ∉ ptrs (L1 ++ (p, r) :: L2)) by (intros Hin; apply Ha; by eapply vi_used).
  pose proof Hb as [Hba HbU]%not_elem_of_cons.
  assert (HbL : b ∉ ptrs (L1 ++ (p, r) :: L2)) by (intros Hin; apply HbU; by eapply vi_used).
  destruct (fresh_apart _ _ _ _ _ HaL) as (Hpa & Hppa & Hnna); [congruence|].
  destruct (fresh_apart _ _ _ _ _ HbL) as (Hpb & Hppb & Hnnb); [congruence|].
  assert (Hab : a <> b) by congruence.
  assert (Es2 : s2 = set_descs (<[p := d]> (<[a := da]> (<[b := db]> (vs_descs s)))) s2).
  { rewrite (insert_insert_ne _ a b), <-Em1, <-Em2 by congruence. rewrite insert_id; [by destruct s2|].
    by rewrite Em2, Em1, !lookup_insert_ne by congruence. }
  unfold cut_descriptor_middle. rewrite (bind_ok _ _ _ d s) by (unfold read_desc; by rewrite Nd).
  cbv zeta. rewrite Et, Ez, Ea.
  rewrite bind_KASSERT by (apply Z.ltb_lt; exact Hs1).
  rewrite (bind_ok _ _ _ _ _ R1). rewrite Es2 in R2. rewrite (bind_ok _ _ _ _ _ R2). rewrite W1, W2, W3, W4, Np, Nn.
  rewrite (bind_ok _ _ _ _ _ (modify3_a _ _ _ Hpa _ _ _ _ _ _)).
  rewrite (bind_ok _ _ _ _ _ (modify3_b _ _ _ Hpb Hab _ _ _ _ _ _)).
  rewrite (bind_ok _ _ _ _ _ (link_next3 _ _ _ _ _ _ _ _ _ _ (proj1 Npp) Hppa Hppb (proj2 Npp))).
  do 2 rewrite (bind_ok _ _ _ _ _ (modify3_a _ _ _ Hpa _ _ _ _ _ _)).
  do 2 rewrite (bind_ok _ _ _ _ _ (modify3_p _ _ _ _ _ _ _ _ _)).
  do 2 rewrite (bind_ok _ _ _ _ _ (modify3_b _ _ _ Hpb Hab _ _ _ _ _ _)).
  assert (Nn2 : first_ptr L2 NULL = NULL \/
    is_Some (upd_next (last_ptr NULL L1) a (vs_descs s) !! first_ptr L2 NULL)).
  { destruct (proj2 Nnn) as [?|?]; [by left|right; by apply upd_next_some]. }
  rewrite (bind_ok _ _ _ _ _ (link_prev3 _ _ _ _ _ _ _ _ _ _ (proj1 Nnn) Hnna Hnnb Nn2)).
  do 2 rewrite (bind_ok _ _ _ _ _ (modify3_a _ _ _ Hpa _ _ _ _ _ _)).
  rewrite (bind_ok _ _ _ _ _ (read3_a _ _ _ Hpa _ _ _ _ _)).
  rewrite bind_KASSERT by (unfold desc_end; cbn; rewrite W5; apply Z.eqb_refl).
  do 2 rewrite (bind_ok _ _ _ _ _ (modify3_p _ _ _ _ _ _ _ _ _)).
  do 2 rewrite (bind_ok _ _ _ _ _ (modify3_b _ _ _ Hpb Hab _ _ _ _ _ _)).
  rewrite (bind_ok _ _ _ _ _ (read3_b _ _ _ Hpb Hab _ _ _ _ _)).
  rewrite bind_KASSERT.
  2: { unfold desc_end. cbn. replace (start + size + (r_end r - (start + size))) with (r_start r + r_size r) by (unfold r_end; clear; lia).
       rewrite W4. apply Z.eqb_refl. }
  match goal with |- context [set_descs (<[p := ?x]> (<[a := ?y]> (<[b := ?z]> ?m))) s2] =>
    set (dp' := x); set (da' := y); set (db' := z); set (m' := <[p := dp']> (<[a := da']> (<[b := db']> m))) end.
  assert (HD' : dseg m' NULL (L1 ++ (a, part r (r_start r) (start - r_start r)) :: (p, part r start size) ::
      (b, part r (start + size) (r_end r - (start + size))) :: L2) NULL).
  { eapply dseg_split3; try done; try apply HI.
    - apply not_elem_of_cons. by split.
    - unfold region_of, da', part. cbn. by rewrite Ua, La.
    - unfold region_of, dp', part. cbn. by rewrite Ud, Ld, Et.
    - unfold region_of, db', part. cbn. by rewrite Ub, Lb. }
  pose proof (vkeeps_trans _ _ _ HK1 HK2) as HK. pose proof HK as (_ & _ & _ & _ & _ & _ & _ & _ & Ev).
  pose proof (vi_vmm _ _ _ _ _ _ HI) as Hv. pose proof (vi_head _ _ _ _ _ _ HI) as Hh.
  set (v' := match L1 with [] => set_head a v | _ => v end).
  exists a, b, (set_vmms (<[vmm := v']> (vs_vmms s)) (set_descs m' s2)), B2, (b :: a :: U), v'.
  split_and!.
  - rewrite (bind_ok _ _ _ tt (set_vmms (<[vmm := v']> (vs_vmms s)) (set_descs m' s2))); [done|].
    rewrite <-Ev. eapply update_head_moves; [by rewrite Ev|exact Han|exact HD'|done| |].
    + intros ->. cbn in Hh. exists dp'. split; [rewrite Hh; apply lookup_insert_eq|done].
    + intros HN. rewrite Hh. by destruct L1 as [|[? ?] ?].
  - exists (set_descs m' s2). split; [|done]. eapply vkeeps_trans; [exact HK|apply keeps_descs].
  - unfold moved_head, v'. destruct L1; [done|]. by destruct v.
  - split.
    + cbn. apply lookup_insert_eq.
    + unfold v'. destruct L1 as [|[? ?] ?]; [done|]. exact Hh.
    + by destruct L1.
    + exact HD'.
    + pose proof (vi_nodup _ _ _ _ _ _ HI) as ND. 
      assert (EP : ptrs (L1 ++ (a, part r (r_start r) (start - r_start r)) :: (p, part r start size) ::
        (b, part r (start + size) (r_end r - (start + size))) :: L2) ≡ₚ b :: a :: ptrs (L1 ++ (p, r) :: L2)).
      { unfold ptrs. rewrite !fmap_app. cbn [fmap list_fmap fst]. solve_Permutation. }
      rewrite EP. apply NoDup_cons. split; [|by apply NoDup_cons]. apply not_elem_of_cons. by split.
    + intros x. unfold ptrs. rewrite fmap_app. cbn [fmap list_fmap fst]. rewrite elem_of_app, !elem_of_cons.
      pose proof (vi_used _ _ _ _ _ _ HI x) as HU. unfold ptrs in HU. rewrite fmap_app in HU.
      cbn [fmap list_fmap fst] in HU. rewrite elem_of_app, elem_of_cons in HU. tauto.
    + by apply desc_pool_vmms, desc_pool_descs.
    + rewrite fmap_app. cbn [fmap list_fmap snd].
      match goal with |- ordered 0 (_ ++ ?x :: ?y :: ?z :: ?w) => change (x :: y :: z :: w) with ([x; y; z] ++ w) end.
      pose proof (vi_regions _ _ _ _ _ _ HI) as HR. rewrite fmap_app in HR. cbn [fmap list_fmap snd] in HR.
      eapply (ordered_replace 0 _ r); [exact HR|done|by apply ordered_parts3|].
      cbn [foldl]. unfold r_end. cbn [part r_start r_size]. clear. lia.
Qed.

End cut.
