(* ===== verification/VmmMap.v ===== *)
(** * The virtual memory manager: mapping pages

    The loops of the manager that map a range of pages, over the page tables:
    to given frames ([map_pages]) or to fresh ones ([alloc_pages]). *)

From S2P Require Import Prelude Memory Sync Interfaces Paging PagingInv PagingTop Vmm VmmInv.
Import Sequential.

Section frames.
Context {F : Type} {FP : FrameProvider F} {FL : FrameLaws F}.
Implicit Types (s : pg_state F) (lv : gmap Z nat).

(** Taking a frame from the allocator does not touch the tables. *)
Lemma alloc_frame_pg lv ps root s :
  pg_inv lv ps root s -> fp_free (pg_frames s) <> [] ->
  exists f s', alloc_frame s = Ok (f, s') /\ pg_inv lv ps root s' /\ pmem s' = pmem s /\
    f mod PAGE_SIZE = 0 /\ 0 < f < 2 ^ 48 /\ ~ fp_owned (pg_frames s) f /\
    (forall g, fp_owned (pg_frames s') g <-> g = f \/ fp_owned (pg_frames s) g) /\
    (length (fp_free (pg_frames s)) <= length (fp_free (pg_frames s')) + 1)%nat /\
    pg_trace s' = pg_trace s /\ pg_cr3 s' = pg_cr3 s.
Proof.
  intros [HO HT HW HR (Hp1 & Hp2 & Hp3) Hpr] HF.
  destruct (fp_alloc_total _ HO HF) as (f & fs & R).
  destruct (fp_alloc_ok _ _ _ HO R) as (HO' & HP & Hm & Ha & Hr & Hn & Hown).
  set (s' := put frames_lens fs s). assert (Em : pmem s' = pmem s) by exact Hm.
  exists f, s'. split_and!; try done.
  - unfold alloc_frame, zoom. cbn [view frames_lens]. by rewrite R.
  - split; [exact HO'| | |exact HR| |].
    + by rewrite Em.
    + intros g k Hg. apply Hown. right. by eapply HW.
    + split_and!; [apply Hown; by right|done..].
    + by rewrite Em.
  - lia.
  - lia.
  - apply Permutation_length in HP. cbn in *. lia.
Qed.

End frames.

Section map.
Context {F H D : Type} {FP : FrameProvider F} {HP : HeapProvider H} {SP : ShootdownProvider D}.
Context {FL : FrameLaws F}.
Implicit Types (s : vmm_state F H D).

Lemma on_paging_run {A} (c : M (pg_state F) A) s a g :
  c (vs_pg s) = Ok (a, g) -> on_paging c s = Ok (a, put pg_lens g s).
Proof. intros R. unfold on_paging, zoom. cbn [view pg_lens]. by rewrite R. Qed.

Definition free_count (g : pg_state F) : nat := length (fp_free (pg_frames g)).

(** What the loops guarantee besides the translations. *)
Definition pages_step lv ps root (n : nat) (g g' : pg_state F) : Prop :=
  exists lv', pg_inv lv' ps root g' /\ lv ⊆ lv' /\ (free_count g <= free_count g' + n)%nat /\
    (forall f, fp_owned (pg_frames g) f -> fp_owned (pg_frames g') f) /\ others_kept lv lv' root g g'.

Lemma others_kept_refl lv root (g : pg_state F) : others_kept lv lv root g g.
Proof. split; [by intros x _ _ Hx|]. intros ps2 root2 _ I. by split. Qed.

Lemma others_kept_trans lv1 lv2 lv3 root (g1 g2 g3 : pg_state F) :
  (forall f, fp_owned (pg_frames g1) f -> fp_owned (pg_frames g2) f) ->
  others_kept lv1 lv2 root g1 g2 -> others_kept lv2 lv3 root g2 g3 -> others_kept lv1 lv3 root g1 g3.
Proof.
  intros HO [K1 H1] [K2 H2]. split.
  - intros x Hx Ha Hn. destruct (K1 x Hx Ha Hn) as [Hn2 M1]. destruct (K2 x (HO x Hx) Ha Hn2) as [Hn3 M2]. split; [done|].
    intros y Hy1 Hy2. rewrite M2 by done. by apply M1.
  - intros ps2 root2 Hne I. destruct (H1 ps2 root2 Hne I) as [I2 T2]. destruct (H2 ps2 root2 Hne I2) as [I3 T3].
    split; [done|]. intros v'. by rewrite T3.
Qed.

(** Position of the page of [v'] in the range from [v] on. *)
Definition page_index (v v' : Z) : Z := (page_number v' - page_number v) mod 2 ^ 36.

Lemma page_index_next v v' :
  page_index (wrap64 (v + PAGE_SIZE)) v' =
    if decide (page_number v' = page_number v) then 2 ^ 36 - 1 else page_index v v' - 1.
Proof.
  unfold page_index. rewrite page_number_next.
  assert (0 <= page_number v < 2 ^ 36 /\ 0 <= page_number v' < 2 ^ 36) as [H1 H2].
  { unfold page_number. lia. }
  generalize dependent (page_number v). generalize dependent (page_number v'). intros a Ha b Hb.
  case_decide; lia.
Qed.

Lemma page_index_zero v v' : page_index v v' = 0 <-> page_number v' = page_number v.
Proof.
  unfold page_index.
  assert (0 <= page_number v < 2 ^ 36 /\ 0 <= page_number v' < 2 ^ 36) as [H1 H2].
  { unfold page_number. lia. }
  lia.
Qed.

Lemma page_index_range v v' : 0 <= page_index v v' < 2 ^ 36.
Proof. unfold page_index. lia. Qed.

(** ** Mapping to given frames *)

(** The frames [n] pages from [v] on take for tables: three at the start of every
    block of 512 pages, and for the first page unless its table is there. *)
Fixpoint map_cost (n : nat) (v : Z) (first : bool) : nat :=
  match n with
  | O => 0
  | S n' => (if first || (page_number v mod 512 =? 0) then 3 else 0) + map_cost n' (wrap64 (v + PAGE_SIZE)) false
  end.

Lemma map_cost_le n v b : (map_cost n v b <= 3 * n)%nat.
Proof. revert v b. induction n as [|n IH]; intros v b; [done|]. cbn [map_cost]. specialize (IH (wrap64 (v + PAGE_SIZE)) false). case_match; lia. Qed.

Lemma map_cost_blocks n v b : Z.of_nat (map_cost n v b) <= 3 * (Z.of_nat n / 512 + 2).
Proof.
  assert (HC : forall n v, Z.of_nat (map_cost n v false) = 3 * ((Z.of_nat n + page_number v mod 512 + 511) / 512 - (page_number v mod 512 + 511) / 512)).
  { clear. induction n as [|n IH]; intros v; [cbn [map_cost]; lia|]. cbn [map_cost orb]. rewrite Nat2Z.inj_add, IH, page_number_next.
    assert (E : ((page_number v + 1) mod 2 ^ 36) mod 512 = (page_number v mod 512 + 1) mod 512) by (generalize (page_number v); intros q; lia).
    rewrite E. generalize (page_number v). intros q. destruct (Z.eqb_spec (q mod 512) 0); lia. }
  destruct n as [|n]; [cbn; lia|]. cbn [map_cost]. rewrite Nat2Z.inj_add, HC. generalize (page_number (wrap64 (v + PAGE_SIZE))). intros q. case_match; lia.
Qed.

(** Pages of one block share their last table. *)
Lemma leaf_block m root v v' : page_number v' / 512 = page_number v / 512 -> leaf 4 m root v' = leaf 4 m root v.
Proof.
  intros E. rewrite !page_number_indices in E.
  assert (Ei : forall j, (2 <= j <= 4)%nat -> table_index j v' = table_index j v).
  { pose proof (table_index_range 1 v). pose proof (table_index_range 1 v'). pose proof (table_index_range 2 v). pose proof (table_index_range 2 v').
    pose proof (table_index_range 3 v). pose proof (table_index_range 3 v'). intros j Hj. destruct j as [|[|[|[|[|j]]]]]; lia. }
  cbn [leaf]. rewrite (Ei 4%nat), (Ei 3%nat), (Ei 2%nat) by lia. reflexivity.
Qed.

(** A page that is mapped has its tables. *)
Lemma mapped_table_cost root v v' (g : pg_state F) :
  mmap_present (translate 4 (pmem g) root v) = true -> page_number v' / 512 = page_number v / 512 -> table_cost root v' g = 0%nat.
Proof.
  intros Hp E. unfold table_cost. rewrite (leaf_block _ _ v v') by done.
  destruct (translate_leaf 4 (pmem g) root v) as [Et|]; [|done]. rewrite Et in Hp. by destruct (leaf 4 (pmem g) root v).
Qed.

Lemma map_pages_cost n lv vmm vm root s v p fl b :
  vs_vmms s !! vmm = Some vm -> pg_inv lv (paging_structure vm) root (vs_pg s) ->
  (b = false -> page_number v mod 512 <> 0 -> table_cost root v (vs_pg s) = 0%nat) ->
  (map_cost n v b <= free_count (vs_pg s))%nat -> Z.of_nat n <= 2 ^ 36 ->
  exists g', map_pages n vmm v p fl s = Ok (tt, put pg_lens g' s) /\
    pages_step lv (paging_structure vm) root (map_cost n v b) (vs_pg s) g' /\
    (forall v', translate 4 (pmem g') root v' =
       if decide (page_index v v' < Z.of_nat n)
       then MkMapState (canonical (wrap64 (p + PAGE_SIZE * page_index v v')))
              (Z.lor (fl mod PAGE_SIZE) PAGE_PRESENT) true
       else translate 4 (pmem (vs_pg s)) root v').
Proof.
  revert lv s v p b. induction n as [|n IH]; intros lv s v p b Hv I Hb HF Hn.
  { exists (vs_pg s). split_and!.
    - cbn. by destruct s.
    - exists lv. split_and!; try done; try lia; apply others_kept_refl.
    - intros v'. pose proof (page_index_range v v'). by rewrite decide_False by lia. }
  cbn [map_cost] in HF |- *. set (c := if b || _ then 3%nat else 0%nat) in *.
  assert (Hc : (table_cost root v (vs_pg s) <= c)%nat).
  { unfold c. pose proof (table_cost_le root v (vs_pg s)). destruct b; [done|]. cbn [orb]. destruct (Z.eqb_spec (page_number v mod 512) 0); [done|]. by rewrite Hb. }
  destruct (paging_map_cost lv (paging_structure vm) root (vs_pg s) v p fl I) as
    (g1 & R1 & (lv1 & I1 & S1 & F1 & O1 & _ & _ & X1) & _ & _ & T1).
  { unfold free_count in HF. lia. }
  set (s1 := put pg_lens g1 s).
  destruct (IH lv1 s1 (wrap64 (v + PAGE_SIZE)) (wrap64 (p + PAGE_SIZE)) false) as (g2 & R2 & (lv2 & I2 & S2 & F2 & O2 & X2) & T2);
    [done|exact I1| |unfold free_count in *; cbn; lia|lia|].
  { intros _ Hne. change (vs_pg s1) with g1. apply (mapped_table_cost root v); [by rewrite T1, decide_True|].
    rewrite page_number_next in Hne |- *. assert (0 <= page_number v < 2 ^ 36) by (unfold page_number; lia). generalize dependent (page_number v). intros q. lia. }
  exists g2. split_and!.
  - cbn [map_pages]. rewrite (bind_ok _ _ _ vm s) by (unfold read_vmm; by rewrite Hv).
    rewrite (bind_ok _ _ _ _ _ (on_paging_run _ _ _ _ R1)). exact R2.
  - exists lv2. split_and!; [done|by etrans|unfold free_count in *; cbn in *; lia|auto|by eapply others_kept_trans].
  - intros v'. rewrite T2. change (vs_pg s1) with g1. rewrite T1, page_index_next.
    pose proof (page_index_range v v') as Hr. pose proof (page_index_zero v v') as Hz.
    destruct (decide (page_number v' = page_number v)) as [Hpg|Hpg].
    + rewrite (decide_False (P := 2 ^ 36 - 1 < Z.of_nat n)) by lia.
      rewrite (proj2 Hz Hpg), decide_True by lia. by rewrite Z.mul_0_r, Z.add_0_r, canonical_wrap.
    + assert (page_index v v' <> 0) by tauto.
      destruct (decide (page_index v v' < Z.of_nat (S n))).
      * rewrite decide_True by lia. do 2 f_equal. unfold wrap64, wrap.
        rewrite Zplus_mod_idemp_l. f_equal. lia.
      * by rewrite decide_False by lia.
Qed.

Lemma map_pages_spec n lv vmm vm root s v p fl :
  vs_vmms s !! vmm = Some vm -> pg_inv lv (paging_structure vm) root (vs_pg s) ->
  (3 * n <= free_count (vs_pg s))%nat -> Z.of_nat n <= 2 ^ 36 ->
  exists g', map_pages n vmm v p fl s = Ok (tt, put pg_lens g' s) /\
    pages_step lv (paging_structure vm) root (3 * n) (vs_pg s) g' /\
    (forall v', translate 4 (pmem g') root v' =
       if decide (page_index v v' < Z.of_nat n)
       then MkMapState (canonical (wrap64 (p + PAGE_SIZE * page_index v v')))
              (Z.lor (fl mod PAGE_SIZE) PAGE_PRESENT) true
       else translate 4 (pmem (vs_pg s)) root v').
Proof.
  intros Hv I HF Hn. pose proof (map_cost_le n v true) as Hc.
  destruct (map_pages_cost n lv vmm vm root s v p fl true Hv I ltac:(done) ltac:(lia) Hn) as (g' & R & (lv' & I' & S' & F' & R') & T).
  exists g'. split_and!; [done| |done]. exists lv'. split_and!; [done|done|lia|apply R'..].
Qed.

(** ** Mapping to fresh frames *)

Definition fresh_mapping (f : Z) : PagingMapState :=
  MkMapState (canonical f) (Z.lor PAGE_PRESENT PAGE_WRITABLE) true.

(** The frames the loop took: distinct, the allocator's before and the caller's
    after. *)
Record fresh_frames (g g' : pg_state F) (fs : list Z) : Prop := {
  ff_nodup : NoDup fs;
  ff_before : forall f, f ∈ fs -> ~ fp_owned (pg_frames g) f;
  ff_after : forall f, f ∈ fs -> fp_owned (pg_frames g') f;
  ff_frame : forall f, f ∈ fs -> f mod PAGE_SIZE = 0 /\ 0 < f < 2 ^ 48
}.

Lemma alloc_pages_spec n lv vmm vm root s v check :
  vs_vmms s !! vmm = Some vm -> pg_inv lv (paging_structure vm) root (vs_pg s) ->
  (4 * n <= free_count (vs_pg s))%nat -> Z.of_nat n <= 2 ^ 36 ->
  (forall i, 0 <= i < Z.of_nat n -> check (wrap64 (v + PAGE_SIZE * i)) = true) -> 0 <= v < 2 ^ 64 ->
  exists g' fs, alloc_pages n vmm v check s = Ok (tt, put pg_lens g' s) /\ length fs = n /\
    pages_step lv (paging_structure vm) root (4 * n) (vs_pg s) g' /\ fresh_frames (vs_pg s) g' fs /\
    (forall v', translate 4 (pmem g') root v' =
       match fs !! Z.to_nat (page_index v v') with
       | Some f => fresh_mapping f
       | None => translate 4 (pmem (vs_pg s)) root v'
       end).
Proof.
  revert lv s v. induction n as [|n IH]; intros lv s v Hv I HF Hn HC Hvr.
  { exists (vs_pg s), []. split_and!; [cbn; by destruct s|done| | |done].
    - exists lv. split_and!; try done; try lia; apply others_kept_refl.
    - split; [constructor| | |]; by intros f ?%elem_of_nil. }
  destruct (alloc_frame_pg lv (paging_structure vm) root (vs_pg s) I) as
    (f & g0 & R0 & I0 & M0 & Fa & Fr & Fn & O0 & L0 & _ & _).
  { unfold free_count in HF. intros E. rewrite E in HF. cbn in HF. lia. }
  destruct (paging_map_spec lv (paging_structure vm) root g0 v f (Z.lor PAGE_PRESENT PAGE_WRITABLE) I0) as
    (g1 & R1 & (lv1 & I1 & S1 & F1 & O1 & _ & _ & X1) & _ & _ & T1).
  { unfold free_count in HF. lia. }
  set (s1 := put pg_lens g1 s).
  destruct (IH lv1 s1 (wrap64 (v + PAGE_SIZE))) as (g2 & fs & R2 & HL & (lv2 & I2 & S2 & F2 & O2 & X2) & [N1 N2 N3 N4] & T2);
    [done|exact I1|unfold free_count in *; cbn; lia|lia| |unfold wrap64, wrap; lia|].
  { intros i Hi. rewrite <-(HC (i + 1)) by lia. f_equal. unfold wrap64, wrap.
    rewrite Zplus_mod_idemp_l. f_equal. lia. }
  exists g2, (f :: fs). split_and!.
  - cbn [alloc_pages]. rewrite (bind_ok _ _ _ tt s).
    2: { apply KASSERT_ok. rewrite <-(HC 0) by lia. f_equal. rewrite Z.mul_0_r, Z.add_0_r.
         by rewrite wrap64_small by lia. }
    rewrite (bind_ok _ _ _ vm s) by (unfold read_vmm; by rewrite Hv).
    rewrite (bind_ok _ _ _ _ _ (on_paging_run _ _ _ _ R0)).
    rewrite (bind_ok _ _ _ tt s1) by (by apply (on_paging_run _ (put pg_lens g0 s))). exact R2.
  - cbn. by rewrite HL.
  - exists lv2. split_and!; [done|by etrans|unfold free_count in *; cbn in *; lia| |].
    + intros x Hx. apply O2. cbn. apply O1, O0. by right.
    + eapply others_kept_trans; [| |exact X2]; [intros x Hx; apply O1, O0; by right|].
      eapply others_kept_trans; [| |exact X1]; [intros x Hx; apply O0; by right|]. split; [intros x _ _ Hx; split; [done|by rewrite M0]|].
      intros ps2 root2 _ Ii.
      destruct (alloc_frame_pg lv ps2 root2 (vs_pg s) Ii) as (f' & g' & R' & I' & _); [unfold free_count in HF; intros E; rewrite E in HF; cbn in HF; lia|].
      rewrite R0 in R'. injection R' as <- <-. split; [done|]. intros v'. by rewrite M0.
  - assert (Hf1 : fp_owned (pg_frames g1) f) by (apply O1, O0; by left). split.
    + apply NoDup_cons. split; [|done]. intros Hin. by apply (N2 f Hin).
    + intros x [->|Hx]%elem_of_cons; [done|]. intros Ho. apply (N2 x Hx). cbn. apply O1, O0. by right.
    + intros x [->|Hx]%elem_of_cons; [by apply O2|by apply N3].
    + intros x [->|Hx]%elem_of_cons; [done|by apply N4].
  - intros v'. rewrite T2. change (vs_pg s1) with g1. rewrite T1, page_index_next, M0.
    pose proof (page_index_range v v') as Hr. pose proof (page_index_zero v v') as Hz.
    destruct (decide (page_number v' = page_number v)) as [Hpg|Hpg].
    + rewrite (proj2 Hz Hpg). rewrite (lookup_ge_None_2 fs) by lia. reflexivity.
    + assert (page_index v v' <> 0) by tauto.
      replace (Z.to_nat (page_index v v')) with (S (Z.to_nat (page_index v v' - 1))) by lia. reflexivity.
Qed.

End map.
