(* ===== verification/VmmOps.v ===== *)
(** * The virtual memory manager: operations on a region

    The critical sections of the manager: reserving a region, growing one at
    either end, giving one back. *)

From S2P Require Import Prelude Memory Sync Interfaces Paging PagingInv PagingTop Vmm VmmInv VmmCut VmmMap.
Import Sequential.

Section ops.
Context {F H D : Type} {FP : FrameProvider F} {HP : HeapProvider H} {SP : ShootdownProvider D}.
Context {HL : HeapLaws H}.
Implicit Types (s : vmm_state F H D).

(** ** The lock of a manager *)

Definition locked (vmm : Z) s : vmm_state F H D :=
  put (vmm_lock_lens vmm) true (put vs_if_lens false s).
Definition unlocked (vmm : Z) (istate : bool) s : vmm_state F H D :=
  if istate then put vs_if_lens true (put (vmm_lock_lens vmm) false s)
  else put (vmm_lock_lens vmm) false s.

Lemma acquire_vmm_run vmm v s :
  vs_vmms s !! vmm = Some v -> vmm_lock v = false ->
  acquire_vmm vmm s = Ok (vs_if s, locked vmm s).
Proof.
  intros Hv HN. unfold acquire_vmm, acquire_spinlock_hard, disable_and_save_interrupts, test_and_set,
    bind, gets, modify, ret. cbn. rewrite Hv. cbn. by rewrite HN.
Qed.

Lemma acquire_vmm_held vmm v s :
  vs_vmms s !! vmm = Some v -> vmm_lock v = true -> acquire_vmm vmm s = Hang.
Proof.
  intros Hv HN. unfold acquire_vmm, acquire_spinlock_hard, disable_and_save_interrupts, test_and_set,
    bind, gets, modify, ret. cbn. rewrite Hv. cbn. by rewrite HN.
Qed.

Lemma acquire_vmm_inv vmm v s b s' :
  vs_vmms s !! vmm = Some v -> acquire_vmm vmm s = Ok (b, s') ->
  vmm_lock v = false /\ b = vs_if s /\ s' = locked vmm s.
Proof.
  intros Hv R. destruct (vmm_lock v) eqn:E.
  - by rewrite (acquire_vmm_held _ _ _ Hv E) in R.
  - rewrite (acquire_vmm_run _ _ _ Hv E) in R. by simplify_eq.
Qed.

Lemma release_vmm_run vmm b s : release_vmm vmm b s = Ok (tt, unlocked vmm b s).
Proof. unfold release_vmm, release_spinlock_hard, restore_interrupt_state, bind, modify, when. by destruct b. Qed.

(** The invariant does not depend on the lock and the interrupt flag. *)
Lemma vmm_inv_frame B U vmm v v' L s s' :
  vmm_inv B U vmm v L s -> vs_descs s' = vs_descs s -> vs_heap s' = vs_heap s ->
  bump_allocator s' = bump_allocator s -> next_free_descriptor s' = next_free_descriptor s ->
  vs_vmms s' !! vmm = Some v' -> vm_list_head v' = vm_list_head v -> vmm_inv B U vmm v' L s'.
Proof.
  intros [Hv Hh Hne HD ND HU [P1 P2 P3 P4] HO] E1 E2 E3 E4 Hv' Eh. split; try assumption.
  - congruence.
  - by rewrite E1.
  - split; unfold bump_slot in *; rewrite ?E2, ?E3, ?E4; assumption.
Qed.

Lemma locked_vmm vmm v s :
  vs_vmms s !! vmm = Some v -> vs_vmms (locked vmm s) !! vmm = Some (set_lock true v).
Proof. intros Hv. cbn. by rewrite lookup_alter_eq, Hv. Qed.

Lemma unlocked_vmm vmm v b s :
  vs_vmms s !! vmm = Some v -> vs_vmms (unlocked vmm b s) !! vmm = Some (set_lock false v).
Proof. intros Hv. destruct b; cbn; by rewrite lookup_alter_eq, Hv. Qed.

Lemma vmm_inv_locked B U vmm v L s :
  vmm_inv B U vmm v L s -> vmm_inv B U vmm (set_lock true v) L (locked vmm s).
Proof.
  intros HI. eapply vmm_inv_frame; [exact HI|done..| |done]. apply locked_vmm. apply HI.
Qed.

Lemma vmm_inv_unlocked B U vmm v L b s :
  vmm_inv B U vmm v L s -> vmm_inv B U vmm (set_lock false v) L (unlocked vmm b s).
Proof.
  intros HI. eapply vmm_inv_frame; [exact HI|by destruct b..| |done]. apply unlocked_vmm. apply HI.
Qed.

Lemma vmm_inv_pg B U vmm v L s g : vmm_inv B U vmm v L s -> vmm_inv B U vmm v L (put pg_lens g s).
Proof. intros HI. eapply vmm_inv_frame; [exact HI|done..|apply HI|done]. Qed.

Lemma vmm_inv_sd B U vmm v L s d : vmm_inv B U vmm v L s -> vmm_inv B U vmm v L (put shootdown_lens d s).
Proof. intros HI. eapply vmm_inv_frame; [exact HI|done..|apply HI|done]. Qed.

Lemma vmm_inv_console B U vmm v L s c : vmm_inv B U vmm v L s -> vmm_inv B U vmm v L (set_console c s).
Proof. intros HI. eapply vmm_inv_frame; [exact HI|done..|apply HI|done]. Qed.

(** ** Changing one region *)

Lemma dseg_update m L1 p r L2 d' r' :
  dseg m NULL (L1 ++ (p, r) :: L2) NULL -> NoDup (ptrs (L1 ++ (p, r) :: L2)) ->
  region_of d' = r' -> prev d' = last_ptr NULL L1 -> next d' = first_ptr L2 NULL ->
  dseg (<[p := d']> m) NULL (L1 ++ (p, r') :: L2) NULL.
Proof.
  intros HD ND HR Hp Hn. apply vdseg_app in HD as [HD1 (Hpn & _ & HD2)].
  unfold ptrs in ND. rewrite fmap_app in ND. cbn [fmap list_fmap fst] in ND.
  apply NoDup_app in ND as (ND1 & Hdis & [Hp2 ND2]%NoDup_cons).
  apply vdseg_app. split; [|cbn [dseg]; split_and!].
  - apply dseg_insert; [|exact HD1]. intros Hin. apply (Hdis p Hin). apply list_elem_of_here.
  - done.
  - exists d'. split; [apply lookup_insert_eq|done].
  - by apply dseg_insert.
Qed.

Lemma vmm_inv_update B U vmm v L1 p r L2 s f r' :
  vmm_inv B U vmm v (L1 ++ (p, r) :: L2) s ->
  (forall d, region_of d = r -> region_of (f d) = r' /\ prev (f d) = prev d /\ next (f d) = next d) ->
  region_ok r' -> r_start r' = r_start r -> r_size r' = r_size r ->
  exists d, vs_descs s !! p = Some d /\ region_of d = r /\
    modify_desc p f s = Ok (tt, set_descs (<[p := f d]> (vs_descs s)) s) /\
    vmm_inv B U vmm v (L1 ++ (p, r') :: L2) (set_descs (<[p := f d]> (vs_descs s)) s).
Proof.
  intros HI Hf Hok Es Ez.
  destruct (vdseg_neighbours _ _ _ _ _ (vi_seg _ _ _ _ _ _ HI) (vi_nodup _ _ _ _ _ _ HI)) as [d [Nd Nr Np Nn Nnull Npp Nnn _]].
  destruct (Hf d Nr) as (Fr & Fp & Fn). exists d. split_and!; try done.
  { unfold modify_desc, read_desc, bind, modify. by rewrite Nd. }
  eapply vmm_inv_change; [exact HI|apply keeps_descs|by destruct L1 as [|[? ?] ?]|by destruct L1| | | |by apply desc_pool_descs, HI|].
  - eapply dseg_update; [apply HI|apply HI|done|congruence|congruence].
  - pose proof (vi_nodup _ _ _ _ _ _ HI) as ND. unfold ptrs in *. by rewrite fmap_app in *.
  - intros x. pose proof (vi_used _ _ _ _ _ _ HI x) as HU. unfold ptrs in *. by rewrite fmap_app in *.
  - pose proof (vi_regions _ _ _ _ _ _ HI) as HR. rewrite fmap_app in *. cbn [fmap list_fmap snd] in *.
    apply (ordered_replace 0 _ r _ [r'] HR); [done| |].
    + cbn. split_and!; [lia|done|done].
    + cbn. unfold r_end. lia.
Qed.

Lemma read_region B U vmm v L1 p r L2 s :
  vmm_inv B U vmm v (L1 ++ (p, r) :: L2) s ->
  exists d, read_desc p s = Ok (d, s) /\ region_of d = r.
Proof.
  intros HI. destruct (dseg_lookup _ _ _ _ p r (vi_seg _ _ _ _ _ _ HI)) as (d & Hd & HR).
  { apply elem_mid. }
  exists d. split; [|done]. unfold read_desc. by rewrite Hd.
Qed.

Lemma read_vmm_run B U vmm v L s : vmm_inv B U vmm v L s -> read_vmm vmm s = Ok (v, s).
Proof. intros HI. unfold read_vmm. by rewrite (vi_vmm _ _ _ _ _ _ HI). Qed.

(** ** Reserving a region *)

(** What the critical sections leave alone. *)
Definition same_outside s s' : Prop :=
  vs_pg s' = vs_pg s /\ vs_shootdown s' = vs_shootdown s /\ vs_if s' = vs_if s /\
  vs_console s' = vs_console s /\ vs_page_fault s' = vs_page_fault s /\
  is_kheap_initialzed (vs_heap s') = is_kheap_initialzed (vs_heap s).

Lemma relock (v : VirtualMemoryManager) : vmm_lock v = false -> set_lock false (set_lock true v) = v.
Proof. destruct v. cbn. by intros ->. Qed.

Lemma same_outside_unlocked vmm s s2 :
  keeps (locked vmm s) s2 -> same_outside s (unlocked vmm (vs_if s) s2).
Proof.
  intros (E1 & E2 & E3 & _ & E5 & _ & E7 & E8 & _). cbn in *.
  split_and!; destruct (vs_if s); cbn; congruence.
Qed.

(** The two steps after the cut: the type, then the paddings. *)
Lemma set_region_spec B U vmm v L1 p r L2 s ty up low :
  vmm_inv B U vmm v (L1 ++ (p, r) :: L2) s -> r_upper r = 0 -> r_lower r = 0 ->
  is_free_type ty = false -> 0 <= up -> 0 <= low -> up + low <= r_size r ->
  exists d s', (forall A (k : VirtualMemoryDescriptor -> M (vmm_state F H D) A),
      (modify_desc p (set_type ty);; c <- read_desc p;; KASSERT (start_vaddr c mod PAGE_SIZE =? 0);;
       modify_desc p (set_lower_padding low);; modify_desc p (set_upper_padding up);;
       c <- read_desc p;; k c) s = k d s') /\
    region_of d = MkRegion (r_start r) (r_size r) up low ty /\ keeps s s' /\
    vmm_inv B U vmm v (L1 ++ (p, MkRegion (r_start r) (r_size r) up low ty) :: L2) s'.
Proof.
  intros HI Hu Hl HT Hup Hlow Hsum.
  assert (Hok : region_ok r) by (apply (vmm_inv_region _ _ _ _ _ _ p r HI); apply elem_mid).
  pose proof Hok as [(S1 & S2) (Z1 & Z2) E1 P1 _].
  assert (Hr : forall u l, 0 <= u -> 0 <= l -> u + l <= r_size r -> region_ok (MkRegion (r_start r) (r_size r) u l ty)).
  { intros u l H1 H2 H3. split; cbn [r_start r_size r_upper r_lower r_type]; try done. by rewrite HT. }
  destruct (vmm_inv_update _ _ _ _ _ _ _ _ _ (set_type ty) (MkRegion (r_start r) (r_size r) 0 0 ty) HI)
    as (d1 & D1 & G1 & R1 & I1); [|apply Hr; lia|done|done|].
  { intros d E. unfold region_of. cbn. split; [|done]. rewrite <-E in Hu, Hl |- *. cbn in *. by rewrite Hu, Hl. }
  set (s1 := set_descs _ s) in *.
  destruct (vmm_inv_update _ _ _ _ _ _ _ _ _ (set_lower_padding low) (MkRegion (r_start r) (r_size r) 0 low ty) I1)
    as (d2 & D2 & G2 & R2 & I2); [|apply Hr; lia|done|done|].
  { intros d E. unfold region_of in *. cbn. by injection E as -> -> -> _ ->. }
  set (s2 := set_descs _ s1) in *.
  destruct (vmm_inv_update _ _ _ _ _ _ _ _ _ (set_upper_padding up) (MkRegion (r_start r) (r_size r) up low ty) I2)
    as (d3 & D3 & G3 & R3 & I3); [|apply Hr; lia|done|done|].
  { intros d E. unfold region_of in *. cbn. by injection E as -> -> _ -> ->. }
  set (s3 := set_descs _ s2) in *.
  destruct (read_region _ _ _ _ _ _ _ _ _ I1) as (c1 & RD1 & C1).
  destruct (read_region _ _ _ _ _ _ _ _ _ I3) as (c3 & RD3 & C3).
  exists c3, s3. split_and!; [|done|by split_and!|exact I3].
  intros A k. rewrite (bind_ok _ _ _ _ _ R1), (bind_ok _ _ _ _ _ RD1).
  rewrite bind_KASSERT.
  2: { assert (start_vaddr c1 = r_start r) as -> by (by unfold region_of in C1; injection C1).
       apply Z.eqb_eq. exact S2. }
  rewrite (bind_ok _ _ _ _ _ R2), (bind_ok _ _ _ _ _ R3), (bind_ok _ _ _ _ _ RD3). done.
Qed.

Lemma owns_frames_types ty :
  owns_frames ty = true ->
  is_free_type ty = false /\
  negb (bool_decide (ty = VM_TYPE_IDENTITY_MAP_FREE)) && negb (bool_decide (ty = VM_TYPE_IDENTITY_MAP)) &&
    negb (bool_decide (ty = VM_TYPE_MEMORY_MAPPING)) = true.
Proof. by destruct ty. Qed.

(** [allocate_kernel_virtual_memory] up to the end of its critical section. *)
Lemma allocate_reserve_spec B U vmm v L1 p r L2 s size ty up low :
  vmm_inv B U vmm v (L1 ++ (p, r) :: L2) s -> kernel_mode v = true -> vmm_lock v = false ->
  0 < size -> 0 <= up -> 0 <= low -> size + (low + up) < 2 ^ 64 ->
  size mod PAGE_SIZE = 0 -> up mod PAGE_SIZE = 0 -> low mod PAGE_SIZE = 0 -> owns_frames ty = true ->
  find_free vmm (size + (low + up)) (locked vmm s) = Ok (p, locked vmm s) ->
  r_type r = VM_TYPE_FREE -> size + (low + up) <= r_size r ->
  size + (low + up) = r_size r \/ can_alloc s ->
  exists s1 B' U' Lq,
    allocate_kernel_virtual_memory vmm size ty up low s =
      (alloc_pages (pages size) vmm (r_start r + low) (fun _ => true);;
       shootdown (wrap64 (r_start r + low + PAGE_SIZE * Z.of_nat (pages size))) size;;
       ret (MkVMemHandle p vmm)) s1 /\
    same_outside s s1 /\
    vmm_inv B' U' vmm v (L1 ++ (p, MkRegion (r_start r) (size + (low + up)) up low ty) :: Lq ++ L2) s1 /\
    (snd <$> Lq) = (if size + (low + up) =? r_size r then []
      else [part r (r_start r + (size + (low + up))) (r_size r - (size + (low + up)))]).
Proof.
  intros HI HK HN Hs Hu Hl Ht Ms Mu Ml Ho HFd HT Hfit HC.
  destruct (owns_frames_types ty Ho) as [Hty Hval].
  assert (Hok : region_ok r) by (apply (vmm_inv_region _ _ _ _ _ _ p r HI); apply elem_mid).
  pose proof Hok as [(S1 & S2) (Z1 & Z2) E1 P1 F1]. unfold r_end in E1.
  set (total := size + (low + up)) in *.
  assert (Hmt : total mod PAGE_SIZE = 0) by (clear -Ms Mu Ml; unfold total, PAGE_SIZE in *; lia).
  assert (Htot : 0 < total) by (clear -Hs Hu Hl; unfold total; lia).
  pose proof (vmm_inv_locked _ _ _ _ _ _ HI) as HIl.
  destruct (cut_start_spec B U vmm (set_lock true v) L1 p r L2 total (locked vmm s) HIl) as
    (s1 & B1 & U1 & Lq & R1 & K1 & I1 & ELq); [by rewrite HT|lia|done|done|].
  destruct (set_region_spec B1 U1 vmm _ L1 p (part r (r_start r) total) (Lq ++ L2) s1 ty up low I1) as
    (d & s2 & R2 & Gd & K2 & I2); [done|done|done|done|done|cbn; clear -Hs; unfold total; lia|].
  cbn [part r_start r_size] in Gd, I2.
  exists (unlocked vmm (vs_if s) s2), B1, U1, Lq. split_and!; [| | |exact ELq].
  - unfold allocate_kernel_virtual_memory. fold total.
    rewrite (wrap64_small total) by (clear -Htot Ht; lia). cbv zeta.
    rewrite bind_KASSERT by (by apply Z.eqb_eq). rewrite Hval. cbn [negb when].
    rewrite (bind_ok _ _ _ tt s) by done.
    rewrite (bind_ok _ _ _ _ _ (acquire_vmm_run _ _ _ (vi_vmm _ _ _ _ _ _ HI) HN)).
    rewrite (bind_ok _ _ _ _ _ (read_vmm_run _ _ _ _ _ _ HIl)). rewrite bind_KASSERT by done.
    rewrite (bind_ok _ _ _ _ _ HFd).
    destruct (read_region _ _ _ _ _ _ _ _ _ HIl) as (d0 & RD0 & G0).
    rewrite (bind_ok _ _ _ _ _ RD0).
    assert (type d0 = VM_TYPE_FREE) as -> by (by unfold region_of in G0; subst r).
    rewrite (bind_ok _ _ _ tt (locked vmm s)) by done.
    rewrite (bind_ok _ _ _ _ _ R1), R2.
    rewrite (bind_ok _ _ _ _ _ (release_vmm_run _ _ _)).
    assert (get_no_padding_size d = size) as ->.
    { unfold get_no_padding_size. unfold region_of in Gd. injection Gd as _ -> -> -> _.
      rewrite wrap64_small; clear -Hs Hu Hl Ht; unfold total in *; lia. }
    assert (get_no_padding_start_addr d = r_start r + low) as ->; [|done].
    unfold get_no_padding_start_addr. unfold region_of in Gd. injection Gd as -> _ _ -> _.
    apply wrap64_small. clear -S1 Hl Hfit E1 Hs Hu. unfold total in *. lia.
  - apply same_outside_unlocked. by eapply vkeeps_trans.
  - rewrite <-(relock v HN). by apply vmm_inv_unlocked.
Qed.

(** ** Growing a region *)

Definition region_with (r : region) (up low : Z) : region :=
  MkRegion (r_start r) (r_size r) up low (r_type r).

Lemma region_with_ok r up low :
  region_ok r -> owns_frames (r_type r) = true -> 0 <= up -> 0 <= low -> up + low <= r_size r ->
  region_ok (region_with r up low).
Proof.
  intros [] Ho Hu Hl Hs. destruct (owns_frames_types _ Ho) as [Hf _].
  split; cbn [region_with r_start r_size r_upper r_lower r_type]; try done. by rewrite Hf.
Qed.

Lemma round_up_aligned size : size mod PAGE_SIZE = 0 -> round_up_page size = size.
Proof. intros Hm. unfold round_up_page. by rewrite (proj2 (Z.eqb_eq _ _) Hm). Qed.

(** Entering and leaving the critical section of an expansion. *)
Definition entered (use : bool) vmm s := if use then locked vmm s else s.
Definition left (use : bool) vmm s s2 := if use then unlocked vmm (vs_if s) s2 else s2.

Lemma enter_run use vmm v s :
  vs_vmms s !! vmm = Some v -> (use = true -> vmm_lock v = false) ->
  (if use then acquire_vmm vmm else ret false) s = Ok (if use then vs_if s else false, entered use vmm s).
Proof. intros Hv HN. destruct use; [|done]. apply (acquire_vmm_run _ v); auto. Qed.

Lemma left_run use vmm s s2 :
  when use (release_vmm vmm (if use then vs_if s else false)) s2 = Ok (tt, left use vmm s s2).
Proof. destruct use; [apply release_vmm_run|done]. Qed.

Lemma vmm_inv_entered use B U vmm v L s :
  vmm_inv B U vmm v L s -> exists v', vmm_inv B U vmm v' L (entered use vmm s) /\
    v' = (if use then set_lock true v else v).
Proof. intros HI. destruct use; eexists; (split; [|reflexivity]); [by apply vmm_inv_locked|done]. Qed.

Lemma vmm_inv_left use B U vmm v L s s2 :
  (use = true -> vmm_lock v = false) ->
  vmm_inv B U vmm (if use then set_lock true v else v) L s2 -> vmm_inv B U vmm v L (left use vmm s s2).
Proof.
  intros HN HI. destruct use; [|done]. rewrite <-(relock v) by auto. by apply vmm_inv_unlocked.
Qed.

Lemma same_outside_left use vmm s s2 :
  keeps (entered use vmm s) s2 -> same_outside s (left use vmm s s2).
Proof.
  destruct use; [apply same_outside_unlocked|]. unfold keeps, same_outside. cbn. intuition congruence.
Qed.

Lemma region_set_upper n d r :
  region_of d = r -> region_of (set_upper_padding n d) = region_with r n (r_lower r) /\
    prev (set_upper_padding n d) = prev d /\ next (set_upper_padding n d) = next d.
Proof. by intros <-. Qed.
Lemma region_set_lower n d r :
  region_of d = r -> region_of (set_lower_padding n d) = region_with r (r_upper r) n /\
    prev (set_lower_padding n d) = prev d /\ next (set_lower_padding n d) = next d.
Proof. by intros <-. Qed.

Section expand.
Context (B : gmap Z Z) (U : list Z) (vmm : Z) (v : VirtualMemoryManager) (L1 : rlist) (p : Z)
  (r : region) (L2 : rlist) (s : vmm_state F H D) (size : Z) (use : bool).
Context (HI : vmm_inv B U vmm v (L1 ++ (p, r) :: L2) s) (HN : use = true -> vmm_lock v = false)
  (H0 : 0 <= size < 2 ^ 64) (Hm : size mod PAGE_SIZE = 0).
Let h := MkVMemHandle p vmm.

Lemma expand_region_ok : region_ok r.
Proof using HI. apply (vmm_inv_region _ _ _ _ _ _ p r HI); apply elem_mid. Qed.

Lemma expand_top_ok :
  owns_frames (r_type r) = true -> size <= r_upper r ->
  exists s1,
    _try_expand_vmem_top h size use s =
      (alloc_pages (pages size) vmm (r_end r - r_upper r) (fun x => x <? r_end r);;
       shootdown (wrap64 (r_end r - r_upper r + PAGE_SIZE * Z.of_nat (pages size))) size;;
       ret true) s1 /\
    same_outside s s1 /\
    vmm_inv B U vmm v (L1 ++ (p, region_with r (r_upper r - size) (r_lower r)) :: L2) s1.
Proof using HI HN H0 Hm.
  intros Ho Hup. pose proof expand_region_ok as Hok. pose proof Hok as [(S1 & _) (Z1 & _) E1 (P1 & P2 & P3) _].
  unfold r_end in E1. clear Hok.
  destruct (vmm_inv_entered use _ _ _ _ _ _ HI) as (v' & HIe & Ev).
  destruct (read_region _ _ _ _ _ _ _ _ _ HIe) as (d & RD & G).
  destruct (vmm_inv_update _ _ _ _ _ _ _ _ _ (set_upper_padding (r_upper r - size))
    (region_with r (r_upper r - size) (r_lower r)) HIe) as (d' & _ & _ & R2 & I2).
  { intros x. apply region_set_upper. }
  { apply region_with_ok; [apply expand_region_ok|done|clear -Hup; lia|done|clear -P3 H0; lia]. }
  { done. } { done. }
  set (s2 := set_descs _ _) in R2, I2. exists (left use vmm s s2). split_and!.
  - unfold _try_expand_vmem_top. rewrite (round_up_aligned _ Hm). cbv zeta. cbn [h Interfaces.vmm vm_desc].
    rewrite (bind_ok _ _ _ _ _ (enter_run use vmm v s (vi_vmm _ _ _ _ _ _ HI) HN)).
    rewrite (bind_ok _ _ _ _ _ RD).
    assert (Ed : type d = r_type r /\ upper_padding d = r_upper r /\ lower_padding d = r_lower r /\
      start_vaddr d = r_start r /\ size_bytes d = r_size r) by (by rewrite <-G).
    destruct Ed as (Et & Eu & El & Es & Ez). unfold get_no_padding_size, get_no_padding_start_addr, desc_end.
    rewrite Et, Eu, El, Es, Ez, Ho. cbn [negb orb]. rewrite (proj2 (Z.ltb_ge _ _) Hup). cbn [negb when].
    rewrite (wrap64_small (r_upper r - size)) by (clear -Hup H0 P1 P2 P3 E1 S1; lia).
    rewrite (wrap64_small (r_start r + r_lower r)) by (clear -P1 P2 P3 E1 S1; lia).
    rewrite (wrap64_small (r_size r - r_upper r - r_lower r)) by (clear -P1 P2 P3 E1 S1; lia).
    rewrite (wrap64_small (r_start r + r_lower r + (r_size r - r_upper r - r_lower r))) by (clear -P1 P2 P3 E1 S1; lia).
    rewrite (wrap64_small (r_start r + r_size r)) by (clear -P1 P2 P3 E1 S1; lia).
    replace (r_start r + r_lower r + (r_size r - r_upper r - r_lower r)) with (r_end r - r_upper r)
      by (unfold r_end; clear; lia). fold (r_end r).
    rewrite bind_assoc, (bind_ok _ _ _ _ _ R2).
    rewrite bind_assoc, (bind_ok _ _ _ _ _ (left_run use vmm s s2)). rewrite bind_assoc. done.
  - apply same_outside_left. apply keeps_descs.
  - apply vmm_inv_left; [done|]. by rewrite <-Ev.
Qed.

Lemma expand_top_refused :
  owns_frames (r_type r) = false \/ r_upper r < size ->
  _try_expand_vmem_top h size use s = Ok (false, entered use vmm s).
Proof using HI HN H0 Hm.
  intros Ho. destruct (vmm_inv_entered use _ _ _ _ _ _ HI) as (v' & HIe & Ev).
  destruct (read_region _ _ _ _ _ _ _ _ _ HIe) as (d & RD & G).
  unfold _try_expand_vmem_top. rewrite (round_up_aligned _ Hm). cbv zeta. cbn [h Interfaces.vmm vm_desc].
  rewrite (bind_ok _ _ _ _ _ (enter_run use vmm v s (vi_vmm _ _ _ _ _ _ HI) HN)).
  rewrite (bind_ok _ _ _ _ _ RD).
  assert (Ed : type d = r_type r /\ upper_padding d = r_upper r) by (by rewrite <-G).
  destruct Ed as (-> & ->).
  assert (negb (owns_frames (r_type r)) || (r_upper r <? size) = true) as ->; [|done].
  destruct Ho as [->|Hlt]; [done|]. apply orb_true_iff. right. by apply Z.ltb_lt.
Qed.

Lemma expand_bottom_ok :
  owns_frames (r_type r) = true -> size <= r_lower r ->
  exists s1,
    _try_expand_vmem_bottom h size use s =
      (alloc_pages (pages size) vmm (r_start r + r_lower r - size) (fun x => r_start r <=? x);;
       shootdown (wrap64 (r_start r + r_lower r - size + PAGE_SIZE * Z.of_nat (pages size))) size;;
       ret true) s1 /\
    same_outside s s1 /\
    vmm_inv B U vmm v (L1 ++ (p, region_with r (r_upper r) (r_lower r - size)) :: L2) s1.
Proof using HI HN H0 Hm.
  intros Ho Hlo. pose proof expand_region_ok as Hok. pose proof Hok as [(S1 & _) (Z1 & _) E1 (P1 & P2 & P3) _].
  unfold r_end in E1. clear Hok.
  destruct (vmm_inv_entered use _ _ _ _ _ _ HI) as (v' & HIe & Ev).
  destruct (read_region _ _ _ _ _ _ _ _ _ HIe) as (d & RD & G).
  destruct (vmm_inv_update _ _ _ _ _ _ _ _ _ (set_lower_padding (r_lower r - size))
    (region_with r (r_upper r) (r_lower r - size)) HIe) as (d' & _ & _ & R2 & I2).
  { intros x. apply region_set_lower. }
  { apply region_with_ok; [apply expand_region_ok|done|done|clear -Hlo; lia|clear -P3 H0; lia]. }
  { done. } { done. }
  set (s2 := set_descs _ _) in R2, I2. exists (left use vmm s s2). split_and!.
  - unfold _try_expand_vmem_bottom. rewrite (round_up_aligned _ Hm). cbv zeta. cbn [h Interfaces.vmm vm_desc].
    rewrite (bind_ok _ _ _ _ _ (enter_run use vmm v s (vi_vmm _ _ _ _ _ _ HI) HN)).
    rewrite (bind_ok _ _ _ _ _ RD).
    assert (Ed : type d = r_type r /\ upper_padding d = r_upper r /\ lower_padding d = r_lower r /\
      start_vaddr d = r_start r /\ size_bytes d = r_size r) by (by rewrite <-G).
    destruct Ed as (Et & Eu & El & Es & Ez). unfold get_no_padding_start_addr.
    rewrite Et, El, Es, Ho. cbn [negb orb]. rewrite (proj2 (Z.ltb_ge _ _) Hlo). cbn [negb when].
    rewrite (wrap64_small (r_lower r - size)) by (clear -Hlo H0 P1 P2 P3 E1 S1; lia).
    rewrite (wrap64_small (r_start r + r_lower r)) by (clear -P1 P2 P3 E1 S1; lia).
    rewrite (wrap64_small (r_start r + r_lower r - size)) by (clear -Hlo H0 P1 P2 P3 E1 S1; lia).
    rewrite bind_assoc, (bind_ok _ _ _ _ _ R2).
    rewrite bind_assoc, (bind_ok _ _ _ _ _ (left_run use vmm s s2)). rewrite bind_assoc. done.
  - apply same_outside_left. apply keeps_descs.
  - apply vmm_inv_left; [done|]. by rewrite <-Ev.
Qed.
End expand.

End ops.
