(* ===== verification/VmmTop.v ===== *)
(** * The virtual memory manager: theorems

    Initialisation, allocation, growth, lookup by address, and the manager as the
    provider of the heap's region. *)

From S2P Require Import Prelude Memory Sync Interfaces Paging PagingInv PagingTop Vmm VmmInv VmmCut VmmMap VmmOps.
Import Sequential.

Section top.
Context {F H D : Type} {FP : FrameProvider F} {HP : HeapProvider H} {SP : ShootdownProvider D}.
Context {FL : FrameLaws F} {HL : HeapLaws H}.
Implicit Types (s : vmm_state F H D).

(** A shootdown request that is made completes. *)
Definition shootdown_completes s : Prop :=
  is_vmmcache_shootdown_subsystem_initialized (vs_shootdown s) = true ->
  forall a n, exists d, sp_shootdown a n (vs_shootdown s) = Ok (tt, d).

Lemma shootdown_run a size s :
  shootdown_completes s -> size mod PAGE_SIZE = 0 ->
  exists d, shootdown a size s = Ok (tt, put shootdown_lens d s).
Proof.
  intros HS Hm. unfold shootdown. rewrite bind_KASSERT by (by apply Z.eqb_eq).
  rewrite (bind_ok _ _ _ (is_vmmcache_shootdown_subsystem_initialized (vs_shootdown s)) s) by done.
  destruct (is_vmmcache_shootdown_subsystem_initialized (vs_shootdown s)) eqn:E; cbn [when].
  - destruct (HS E a (size / PAGE_SIZE)) as [d R]. exists d. unfold zoom. cbn [view shootdown_lens].
    by rewrite R.
  - exists (vs_shootdown s). by destruct s.
Qed.

Lemma pages_aligned size : 0 <= size -> size mod PAGE_SIZE = 0 -> PAGE_SIZE * Z.of_nat (pages size) = size.
Proof. unfold pages, PAGE_SIZE. lia. Qed.

(** The pages of the range of [n] bytes at [a] are mapped to fresh frames, every
    other page translates as before. *)
Definition maps_fresh (root a : Z) (n : nat) (g g' : pg_state F) : Prop :=
  exists fs, length fs = n /\ fresh_frames g g' fs /\
    forall v', translate 4 (pmem g') root v' =
      match fs !! Z.to_nat (page_index a v') with
      | Some f => fresh_mapping f
      | None => translate 4 (pmem g) root v'
      end.

Definition paging_ok (ps root : Z) (g : pg_state F) : Prop := exists lv, pg_inv lv ps root g.

(** Allocate the pages, shoot down, return. *)
Lemma alloc_and_shootdown {A} n vmm vm root s a check size (x : A) b :
  vs_vmms s !! vmm = Some vm -> paging_ok (paging_structure vm) root (vs_pg s) ->
  shootdown_completes s -> (4 * n <= free_count (vs_pg s))%nat -> Z.of_nat n <= 2 ^ 36 ->
  (forall i, 0 <= i < Z.of_nat n -> check (wrap64 (a + PAGE_SIZE * i)) = true) -> 0 <= a < 2 ^ 64 ->
  size mod PAGE_SIZE = 0 ->
  exists g d, (alloc_pages n vmm a check;; shootdown b size;; ret x) s =
      Ok (x, put shootdown_lens d (put pg_lens g s)) /\
    paging_ok (paging_structure vm) root g /\ maps_fresh root a n (vs_pg s) g.
Proof.
  intros Hv [lv I] HS HF Hn HC Ha Hm.
  destruct (alloc_pages_spec n lv vmm vm root s a check Hv I HF Hn HC Ha) as
    (g & fs & R & Hlen & (lv' & I' & _) & Hff & HT).
  destruct (shootdown_run b size (put pg_lens g s)) as [d RS]; [done|done|].
  exists g, d. split_and!.
  - by rewrite (bind_ok _ _ _ _ _ R), (bind_ok _ _ _ _ _ RS).
  - by exists lv'.
  - by exists fs.
Qed.

(** ** Allocation *)

(** C5: For the types that own their frames (heap, stack and general use), page-
    aligned sizes, a free region large enough, free descriptors and frames,
    allocate_kernel_virtual_memory returns a handle to a region of the requested type
    and paddings cut from the start of the first free region of the list that is large
    enough (no region before it is both free and large enough), maps each of its pages
    to a fresh frame, leaves every other translation alone, releases the lock and re-
    establishes the invariant of the manager. *)
Theorem allocate_kernel_virtual_memory_correct B U vmm v L s root size ty up low :
  let total := size + (low + up) in
  vmm_inv B U vmm v L s -> kernel_mode v = true -> vmm_lock v = false ->
  paging_ok (paging_structure v) root (vs_pg s) -> shootdown_completes s -> can_alloc s ->
  0 < size -> 0 <= up -> 0 <= low -> total < 2 ^ 48 ->
  size mod PAGE_SIZE = 0 -> up mod PAGE_SIZE = 0 -> low mod PAGE_SIZE = 0 -> owns_frames ty = true ->
  (exists x, x ∈ L /\ r_type x.2 = VM_TYPE_FREE /\ total <= r_size x.2) ->
  4 * (size / PAGE_SIZE) <= Z.of_nat (free_count (vs_pg s)) ->
  exists s' B' U' L1 p r L2 Lq,
    allocate_kernel_virtual_memory vmm size ty up low s = Ok (MkVMemHandle p vmm, s') /\
    L = L1 ++ (p, r) :: L2 /\ r_type r = VM_TYPE_FREE /\ total <= r_size r /\
    (forall x, x ∈ L1 -> ~ (total <= r_size x.2 /\ r_type x.2 = VM_TYPE_FREE)) /\
    vmm_inv B' U' vmm v (L1 ++ (p, MkRegion (r_start r) total up low ty) :: Lq ++ L2) s' /\
    (snd <$> Lq) = (if total =? r_size r then [] else [part r (r_start r + total) (r_size r - total)]) /\
    vs_if s' = vs_if s /\ paging_ok (paging_structure v) root (vs_pg s') /\
    maps_fresh root (r_start r + low) (Z.to_nat (size / PAGE_SIZE)) (vs_pg s) (vs_pg s').
Proof.
  intros total HI HK HN HPg HS HC Hs Hu Hl Ht Ms Mu Ml Ho Hx HF.
  destruct (find_free_first B U vmm (set_lock true v) L (locked vmm s) total) as
    (p & r & L1 & L2 & EL & RF & HA & Hfit & HT); [by apply vmm_inv_locked|done|]. subst L.
  assert (Hok : region_ok r) by (apply (vmm_inv_region _ _ _ _ _ _ p r HI); apply elem_mid).
  destruct Hok as [(S1 & _) _ E1 _ _]. unfold r_end in E1.
  destruct (allocate_reserve_spec B U vmm v L1 p r L2 s size ty up low HI HK HN Hs Hu Hl) as
    (s1 & B' & U' & Lq & R1 & (G1 & G2 & G3 & _) & I1 & ELq); try done.
  { clear -Ht. unfold total in Ht. lia. } { by right. }
  assert (Epg : pages size = Z.to_nat (size / PAGE_SIZE)).
  { clear -Hs Ms. unfold pages, PAGE_SIZE in *. lia. }
  destruct (alloc_and_shootdown (pages size) vmm v root s1 (r_start r + low) (fun _ => true) size
    (MkVMemHandle p vmm) (wrap64 (r_start r + low + PAGE_SIZE * Z.of_nat (pages size))))
    as (g & d & R2 & HPg' & HM).
  { apply I1. } { by rewrite G1. } { unfold shootdown_completes. by rewrite G2. }
  { rewrite G1, Epg. clear -HF. lia. }
  { rewrite Epg. clear -Hs Hu Hl Ht. unfold total, PAGE_SIZE in *. lia. }
  { done. } { clear -S1 E1 Hl Hfit Hs Hu. unfold total in *. lia. } { done. }
  exists (put shootdown_lens d (put pg_lens g s1)), B', U', L1, p, r, L2, Lq.
  split_and!; try done.
  - by rewrite R1, R2.
  - by apply vmm_inv_sd, vmm_inv_pg.
  - rewrite <-Epg. rewrite <-G1. exact HM.
Qed.

(** ** Growth *)

Section expand.
Context (B : gmap Z Z) (U : list Z) (vmm : Z) (v : VirtualMemoryManager) (L1 : rlist) (p : Z)
  (r : region) (L2 : rlist) (root size : Z).

Theorem try_expand_vmem_top_correct s :
  vmm_inv B U vmm v (L1 ++ (p, r) :: L2) s -> vmm_lock v = false ->
  paging_ok (paging_structure v) root (vs_pg s) -> shootdown_completes s ->
  0 <= size < 2 ^ 48 -> size mod PAGE_SIZE = 0 ->
  owns_frames (r_type r) = true -> size <= r_upper r ->
  4 * (size / PAGE_SIZE) <= Z.of_nat (free_count (vs_pg s)) ->
  exists s', try_expand_vmem_top (MkVMemHandle p vmm) size s = Ok (true, s') /\
    vmm_inv B U vmm v (L1 ++ (p, region_with r (r_upper r - size) (r_lower r)) :: L2) s' /\
    vs_if s' = vs_if s /\ paging_ok (paging_structure v) root (vs_pg s') /\
    maps_fresh root (r_end r - r_upper r) (Z.to_nat (size / PAGE_SIZE)) (vs_pg s) (vs_pg s').
Proof.
  intros HI HN HPg HS H0 Hm Ho Hup HF.
  pose proof (expand_region_ok B U vmm v L1 p r L2 s HI) as [(S1 & _) (Z1 & _) E1 (P1 & P2 & P3) _]. 
  destruct (expand_top_ok B U vmm v L1 p r L2 s size true HI (fun _ => HN)) as
    (s1 & R1 & (G1 & G2 & G3 & _) & I1); try done. { clear -H0. lia. }
  assert (Epg : pages size = Z.to_nat (size / PAGE_SIZE)) by (clear -H0 Hm; unfold pages, PAGE_SIZE in *; lia).
  destruct (alloc_and_shootdown (pages size) vmm v root s1 (r_end r - r_upper r) (fun x => x <? r_end r) size
    true (wrap64 (r_end r - r_upper r + PAGE_SIZE * Z.of_nat (pages size)))) as (g & d & R2 & HPg' & HM).
  { apply I1. } { by rewrite G1. } { unfold shootdown_completes. by rewrite G2. }
  { rewrite G1, Epg. clear -HF. lia. }
  { rewrite Epg. clear -H0. unfold PAGE_SIZE. lia. }
  { intros i Hi. rewrite Epg in Hi. apply Z.ltb_lt. unfold r_end, PAGE_SIZE in *.
    rewrite wrap64_small; clear -Hi S1 Z1 E1 P1 P2 P3 Hup H0; lia. }
  { clear -S1 Z1 E1 P1 P2 P3. unfold r_end in *. lia. } { done. }
  exists (put shootdown_lens d (put pg_lens g s1)). split_and!; try done.
  - unfold try_expand_vmem_top. by rewrite R1, R2.
  - by apply vmm_inv_sd, vmm_inv_pg.
  - rewrite <-Epg, <-G1. exact HM.
Qed.

Lemma expand_bottom_run s use :
  vmm_inv B U vmm v (L1 ++ (p, r) :: L2) s -> (use = true -> vmm_lock v = false) ->
  paging_ok (paging_structure v) root (vs_pg s) -> shootdown_completes s ->
  0 <= size < 2 ^ 48 -> size mod PAGE_SIZE = 0 ->
  owns_frames (r_type r) = true -> size <= r_lower r ->
  4 * (size / PAGE_SIZE) <= Z.of_nat (free_count (vs_pg s)) ->
  exists s', _try_expand_vmem_bottom (MkVMemHandle p vmm) size use s = Ok (true, s') /\
    vmm_inv B U vmm v (L1 ++ (p, region_with r (r_upper r) (r_lower r - size)) :: L2) s' /\
    vs_if s' = vs_if s /\ paging_ok (paging_structure v) root (vs_pg s') /\
    vs_page_fault s' = vs_page_fault s /\ vs_console s' = vs_console s /\
    maps_fresh root (r_start r + r_lower r - size) (Z.to_nat (size / PAGE_SIZE)) (vs_pg s) (vs_pg s').
Proof.
  intros HI HN HPg HS H0 Hm Ho Hlo HF.
  pose proof (expand_region_ok B U vmm v L1 p r L2 s HI) as [(S1 & _) (Z1 & _) E1 (P1 & P2 & P3) _].
  destruct (expand_bottom_ok B U vmm v L1 p r L2 s size use HI HN) as
    (s1 & R1 & (G1 & G2 & G3 & G4 & G5 & _) & I1); try done. { clear -H0. lia. }
  assert (Epg : pages size = Z.to_nat (size / PAGE_SIZE)) by (clear -H0 Hm; unfold pages, PAGE_SIZE in *; lia).
  destruct (alloc_and_shootdown (pages size) vmm v root s1 (r_start r + r_lower r - size)
    (fun x => r_start r <=? x) size true
    (wrap64 (r_start r + r_lower r - size + PAGE_SIZE * Z.of_nat (pages size)))) as (g & d & R2 & HPg' & HM).
  { apply I1. } { by rewrite G1. } { unfold shootdown_completes. by rewrite G2. }
  { rewrite G1, Epg. clear -HF. lia. }
  { rewrite Epg. clear -H0. unfold PAGE_SIZE. lia. }
  { intros i Hi. rewrite Epg in Hi. apply Z.leb_le. unfold r_end, PAGE_SIZE in *.
    rewrite wrap64_small; clear -Hi S1 Z1 E1 P1 P2 P3 Hlo H0; lia. }
  { clear -S1 Z1 E1 P1 P2 P3 Hlo H0. unfold r_end in *. lia. } { done. }
  exists (put shootdown_lens d (put pg_lens g s1)). split_and!; try done.
  - by rewrite R1, R2.
  - by apply vmm_inv_sd, vmm_inv_pg.
  - rewrite <-Epg, <-G1. exact HM.
Qed.

Theorem try_expand_vmem_bottom_correct s :
  vmm_inv B U vmm v (L1 ++ (p, r) :: L2) s -> vmm_lock v = false ->
  paging_ok (paging_structure v) root (vs_pg s) -> shootdown_completes s ->
  0 <= size < 2 ^ 48 -> size mod PAGE_SIZE = 0 ->
  owns_frames (r_type r) = true -> size <= r_lower r ->
  4 * (size / PAGE_SIZE) <= Z.of_nat (free_count (vs_pg s)) ->
  exists s', try_expand_vmem_bottom (MkVMemHandle p vmm) size s = Ok (true, s') /\
    vmm_inv B U vmm v (L1 ++ (p, region_with r (r_upper r) (r_lower r - size)) :: L2) s' /\
    vs_if s' = vs_if s /\ paging_ok (paging_structure v) root (vs_pg s') /\
    maps_fresh root (r_start r + r_lower r - size) (Z.to_nat (size / PAGE_SIZE)) (vs_pg s) (vs_pg s').
Proof.
  intros HI HN HPg HS H0 Hm Ho Hlo HF.
  destruct (expand_bottom_run s true) as (s' & R & I' & Hi & HP' & _ & _ & HM); try done.
  exists s'. by split_and!.
Qed.

(** A refused expansion leaves the lock taken and the interrupts disabled, so
    every later operation on the manager waits for ever. *)
Theorem try_expand_vmem_top_refused_keeps_lock s :
  vmm_inv B U vmm v (L1 ++ (p, r) :: L2) s -> vmm_lock v = false ->
  0 <= size < 2 ^ 64 -> size mod PAGE_SIZE = 0 ->
  owns_frames (r_type r) = false \/ r_upper r < size ->
  exists s', try_expand_vmem_top (MkVMemHandle p vmm) size s = Ok (false, s') /\
    vmm_inv B U vmm (set_lock true v) (L1 ++ (p, r) :: L2) s' /\ vs_if s' = false /\
    (forall h n, Interfaces.vmm h = vmm -> try_expand_vmem_top h n s' = Hang) /\
    (forall h, Interfaces.vmm h = vmm -> deallocate_kernel_virtual_memory h s' = Hang) /\
    (forall pa n fl, memory_map vmm pa n fl s' = Hang).
Proof.
  intros HI HN H0 Hm Hr. pose proof (vi_vmm _ _ _ _ _ _ HI) as Hv.
  assert (HH : acquire_vmm vmm (locked vmm s) = Hang).
  { eapply acquire_vmm_held; [by apply locked_vmm|done]. }
  exists (locked vmm s). split_and!.
  - unfold try_expand_vmem_top. rewrite (expand_top_refused B U vmm v L1 p r L2 s size true); try done.
  - by apply vmm_inv_locked.
  - done.
  - intros h n <-. unfold try_expand_vmem_top, _try_expand_vmem_top. unfold bind at 1. by rewrite HH.
  - intros h <-. unfold deallocate_kernel_virtual_memory. unfold bind at 1. by rewrite HH.
  - intros pa n fl. unfold memory_map. unfold bind at 1. by rewrite HH.
Qed.

End expand.

(** ** Lookup by address *)

Definition contains (r : region) (a : Z) : Prop := r_start r <= a < r_end r.

Lemma ordered_contains_unique lo rs1 r rs2 x a :
  ordered lo (rs1 ++ r :: rs2) -> contains r a -> x ∈ rs1 ++ rs2 -> ~ contains x a.
Proof.
  intros HO Hr Hx Hc. unfold contains in *. apply elem_of_app in Hx as [Hx|Hx].
  - apply list_elem_of_split in Hx as (l1 & l2 & ->). rewrite <-app_assoc in HO. cbn in HO.
    apply ordered_app in HO as [_ (_ & _ & HO)].
    assert (r_end x <= r_start r); [|lia]. eapply ordered_above; [exact HO|]. apply elem_mid.
  - apply ordered_app in HO as [_ (_ & _ & HO)].
    assert (r_end r <= r_start x); [|lia]. by eapply ordered_above.
Qed.

Lemma get_vmem_from_address_spec B U vmm v L s addr :
  vmm_inv B U vmm v L s ->
  (exists L1 p r L2, L = L1 ++ (p, r) :: L2 /\ contains r addr /\
     get_vmem_from_address vmm addr s = Ok (MkVMemHandle p vmm, s)) \/
  ((forall x, x ∈ L -> ~ contains x.2 addr) /\
     get_vmem_from_address vmm addr s = Ok (invalid_handle, s)).
Proof.
  intros HI.
  destruct (find_walk B U vmm v L s
    (fun d => negb (next d =? NULL) && negb ((start_vaddr d <=? addr) && (addr <? desc_end d)))
    (fun r => negb ((r_start r <=? addr) && (addr <? wrap64 (r_end r)))) HI)
    as (p & r & L1 & L2 & EL & HA & HT & R).
  { intros d. rewrite andb_comm. done. }
  assert (HW : forall x z, (x, z) ∈ L -> wrap64 (r_end z) = r_end z).
  { intros x z Hin. destruct (vmm_inv_region _ _ _ _ _ _ _ _ HI Hin) as [(? & _) (? & _) ? _ _].
    apply wrap64_small. unfold r_end in *. lia. }
  assert (Hpr : (p, r) ∈ L) by (rewrite EL; apply elem_mid).
  destruct (dseg_lookup _ _ _ _ _ _ (vi_seg _ _ _ _ _ _ HI) Hpr) as (d & Hd & Gd).
  assert (R' : get_vmem_from_address vmm addr s =
    Ok (if r_end r <=? addr then invalid_handle else if addr <? r_start r then invalid_handle
        else MkVMemHandle p vmm, s)).
  { unfold get_vmem_from_address. rewrite <-(HW p r Hpr).
    rewrite (bind_ok _ _ _ v s) in R by (unfold read_vmm; by rewrite (vi_vmm _ _ _ _ _ _ HI)).
    rewrite (bind_ok _ _ _ v s) by (unfold read_vmm; by rewrite (vi_vmm _ _ _ _ _ _ HI)).
    rewrite (bind_ok _ _ _ (desc_fuel s) s) in R by done.
    rewrite (bind_ok _ _ _ (desc_fuel s) s) by done.
    rewrite (bind_ok _ _ _ _ _ R). rewrite (bind_ok _ _ _ d s) by (unfold read_desc; by rewrite Hd).
    rewrite <-Gd. done. }
  destruct (decide (r_start r <= addr < r_end r)) as [Hc|Hc].
  - left. exists L1, p, r, L2. split_and!; [done|done..|]. rewrite R'.
    by rewrite (proj2 (Z.leb_gt _ _)), (proj2 (Z.ltb_ge _ _)) by lia.
  - right. split.
    + intros [q z] Hin. unfold contains. cbn [snd]. subst L.
      assert (HL1 : forall q z, (q, z) ∈ L1 -> ~ (r_start z <= addr < r_end z)).
      { intros q' z' Hin'. specialize (HA _ Hin'). cbn [snd] in HA.
        rewrite (HW q' z') in HA by (apply elem_of_app; by left). lia. }
      destruct HT as [HT| ->].
      * rewrite (HW p r Hpr) in HT. apply negb_false_iff, andb_true_iff in HT. lia.
      * apply elem_of_app in Hin as [Hin|Hin%list_elem_of_singleton]; [by eapply HL1|].
        by injection Hin as -> ->.
    + rewrite R'. destruct (Z.leb_spec (r_end r) addr); [done|].
      by rewrite (proj2 (Z.ltb_lt _ _)) by lia.
Qed.

Theorem get_vmem_from_address_correct B U vmm v L s addr :
  vmm_inv B U vmm v L s ->
  exists h, get_vmem_from_address vmm addr s = Ok (h, s) /\
    (forall p r, (p, r) ∈ L -> contains r addr -> h = MkVMemHandle p vmm) /\
    ((forall p r, (p, r) ∈ L -> ~ contains r addr) -> h = invalid_handle).
Proof.
  intros HI. destruct (get_vmem_from_address_spec B U vmm v L s addr HI) as
    [(L1 & p & r & L2 & EL & Hc & R)|[HN R]].
  - exists (MkVMemHandle p vmm). split_and!; [done| |].
    + intros q z Hin Hz. pose proof (vi_regions _ _ _ _ _ _ HI) as HO. subst L. rewrite fmap_app in HO.
      cbn [fmap list_fmap snd] in HO. pose proof (ordered_contains_unique 0 _ r _ z addr HO Hc) as HU.
      apply elem_of_app in Hin as [Hin|[[= -> ->]|Hin]%elem_of_cons]; [exfalso|done|exfalso];
        (apply HU; [|exact Hz]); apply elem_of_app; [left|right]; apply list_elem_of_fmap; by exists (q, z).
    + intros HN. exfalso. eapply HN; [|exact Hc]. rewrite EL. apply elem_mid.
  - exists invalid_handle. split_and!; [done| |done]. intros p r Hin Hc. exfalso. by apply (HN (p, r) Hin).
Qed.

End top.
