(* ===== verification/VmmFault.v ===== *)
(** * The virtual memory manager: identity maps and page faults *)

From stdpp Require Import strings.
From S2P Require Import Prelude Memory Sync Interfaces Paging PagingInv PagingTop Vmm VmmInv VmmCut VmmMap VmmOps VmmTop.
Import Sequential.

Section fault.
Context {F H D : Type} {FP : FrameProvider F} {HP : HeapProvider H} {SP : ShootdownProvider D}.
Context {FL : FrameLaws F} {HL : HeapLaws H}.
Implicit Types (s : vmm_state F H D).

(** ** Cutting a range out of a free region *)

(** The parts of [r] before and after the range. *)
Definition before (r : region) (start : Z) : list region :=
  if start =? r_start r then [] else [part r (r_start r) (start - r_start r)].
Definition after (r : region) (stop : Z) : list region :=
  if stop =? r_end r then [] else [part r stop (r_end r - stop)].

Lemma keeps_keeps_vmm B U vmm v L s s' : vmm_inv B U vmm v L s -> keeps s s' -> keeps_vmm vmm v s s'.
Proof.
  intros HI HK. exists s'. split; [done|]. destruct HK as (_ & _ & _ & _ & _ & _ & _ & _ & Ev).
  rewrite insert_id by apply HI. rewrite <-Ev. by destruct s'.
Qed.

Lemma part_whole r : region_ok r -> is_free_type (r_type r) = true -> part r (r_start r) (r_size r) = r.
Proof. intros Hok HT. destruct (ro_free _ Hok HT) as [E1 E2]. unfold part. destruct r; cbn in *. by subst. Qed.

Lemma cut_descriptor_spec B U vmm v L1 p r L2 start size s :
  vmm_inv B U vmm v (L1 ++ (p, r) :: L2) s -> is_free_type (r_type r) = true ->
  r_start r <= start -> 0 < size -> start + size <= r_end r ->
  start mod PAGE_SIZE = 0 -> size mod PAGE_SIZE = 0 -> can_alloc_two s ->
  exists q s' B' U' v' La Lb, cut_descriptor vmm p start size s = Ok (q, s') /\
    keeps_vmm vmm v' s s' /\ moved_head v v' /\
    vmm_inv B' U' vmm v' ((L1 ++ La) ++ (q, part r start size) :: Lb ++ L2) s' /\
    (snd <$> La) = before r start /\ (snd <$> Lb) = after r (start + size).
Proof.
  intros HI HT H1 H2 H3 H4 H5 HCT. destruct (can_alloc_two_spec B U s (vi_pool _ _ _ _ _ _ HI) HCT) as [HC _].
  assert (Hok : region_ok r) by (apply (vmm_inv_region _ _ _ _ _ _ p r HI); apply elem_mid).
  pose proof Hok as [(S1 & S2) (Z1 & Z2) E1 _ _].
  destruct (read_region _ _ _ _ _ _ _ _ _ HI) as (d & RD & G).
  assert (Ed : type d = r_type r /\ start_vaddr d = r_start r /\ size_bytes d = r_size r) by (by rewrite <-G).
  destruct Ed as (Et & Es & Ez).
  assert (MH : moved_head v v) by (unfold moved_head; by destruct v).
  unfold cut_descriptor. rewrite (bind_ok _ _ _ _ _ RD), Et, Es, Ez. unfold desc_end. rewrite Es, Ez.
  rewrite bind_KASSERT by done. rewrite !bind_KASSERT by (by apply Z.eqb_eq).
  rewrite (wrap64_small (r_start r + r_size r)) by (clear -S1 Z1 E1; unfold r_end in *; lia).
  rewrite (wrap64_small (start + size)) by (clear -S1 H1 H2 H3 E1; lia).
  unfold before, after, r_end in *.
  destruct (Z.eqb_spec (r_start r) start) as [Ea|Ea]; cbn [andb].
  - subst start. rewrite Z.eqb_refl.
    destruct (Z.eqb_spec (r_size r) size) as [Eb|Eb].
    + subst size. rewrite Z.eqb_refl. exists p, s, B, U, v, [], []. rewrite app_nil_r.
      split_and!; try done; [by eapply keeps_keeps_vmm|]. by rewrite part_whole.
    + destruct (cut_start_spec B U vmm v L1 p r L2 size s HI HT) as (s' & B' & U' & Lq & R & K & I' & EL).
      { clear -H2 H3. lia. } { done. } { by right. }
      exists p, s', B', U', v, [], Lq. rewrite app_nil_r. split_and!; try done.
      * by eapply keeps_keeps_vmm.
      * rewrite EL. rewrite (proj2 (Z.eqb_neq size (r_size r))) by done.
        rewrite (proj2 (Z.eqb_neq (r_start r + size) _)) by (clear -Eb; lia). do 2 f_equal. lia.
  - rewrite (proj2 (Z.eqb_neq start (r_start r))) by done.
    destruct (Z.eqb_spec (r_start r + r_size r) (start + size)) as [Eb|Eb].
    + destruct (cut_end_spec B U vmm v L1 p r L2 start size s HI HT) as (q & s' & B' & U' & R & K & I').
      { clear -H1 H2 H3 Ea Eb. lia. } { done. } { done. } { done. }
      exists q, s', B', U', v, [(p, part r (r_start r) (r_size r - size))], [].
      rewrite (proj2 (Z.eqb_eq (start + size) _)) by done. rewrite <-app_assoc. split_and!; try done.
      * by eapply keeps_keeps_vmm.
      * cbn. do 2 f_equal. clear -Eb. lia.
    + destruct (cut_middle_spec B U vmm v L1 p r L2 start size s HI HT) as
        (a & b & s' & B' & U' & v' & R & K & M & I'); try done.
      { clear -H1 Ea. lia. } { unfold r_end. clear -H3 Eb. lia. }
      rewrite (proj2 (Z.eqb_neq (start + size) _)) by done.
      exists p, s', B', U', v', [(a, part r (r_start r) (start - r_start r))],
        [(b, part r (start + size) (r_start r + r_size r - (start + size)))].
      rewrite <-app_assoc. by split_and!.
Qed.

(** ** Identity mapping *)

Definition retyped (r : region) (ty : VirtualMemoryType) : region :=
  MkRegion (r_start r) (r_size r) (r_upper r) (r_lower r) ty.

Lemma same_outside_keeps_vmm vmm v' s s2 :
  keeps_vmm vmm v' (locked vmm s) s2 -> same_outside s (unlocked vmm (vs_if s) s2).
Proof.
  intros (s0 & (E1 & E2 & E3 & _ & E5 & _ & E7 & E8 & _) & ->). cbn in *.
  split_and!; destruct (vs_if s); cbn; congruence.
Qed.

Theorem identity_map_correct B U vmm v L s addr size :
  vmm_inv B U vmm v L s -> kernel_mode v = true -> vmm_lock v = false -> can_alloc_two s ->
  0 < addr -> 0 < size -> addr + size < 2 ^ 64 -> addr mod PAGE_SIZE = 0 -> size mod PAGE_SIZE = 0 ->
  (exists L1 p r L2 La Lb q s' B' U' v', L = L1 ++ (p, r) :: L2 /\
     r_type r = VM_TYPE_IDENTITY_MAP_FREE /\ r_start r <= addr /\ addr + size <= r_end r /\
     identity_map vmm addr size s = Ok (MkVMemHandle q vmm, s') /\ same_outside s s' /\ moved_head v v' /\
     vmm_inv B' U' vmm v' ((L1 ++ La) ++ (q, MkRegion addr size 0 0 VM_TYPE_IDENTITY_MAP) :: Lb ++ L2) s' /\
     (snd <$> La) = before r addr /\ (snd <$> Lb) = after r (addr + size)) \/
  ((forall x, x ∈ L -> r_type x.2 = VM_TYPE_IDENTITY_MAP_FREE -> r_start x.2 <= addr -> ~ addr + size <= r_end x.2) /\
   exists s', identity_map vmm addr size s = Ok (invalid_handle, s') /\ same_outside s s' /\
     vmm_inv B U vmm v L s').
Proof.
  intros HI HK HN HC Ha Hs He Ma Ms. pose proof (vmm_inv_locked _ _ _ _ _ _ HI) as HIl.
  destruct (find_address_spec B U vmm (set_lock true v) L (locked vmm s) addr HIl) as
    (p & r & L1 & L2 & EL & RF & HB & HT).
  subst L. destruct (read_region _ _ _ _ _ _ _ _ _ HIl) as (d & RD & G).
  assert (Hok : region_ok r) by (apply (vmm_inv_region _ _ _ _ _ _ p r HI); apply elem_mid).
  pose proof Hok as [(S1 & S2) (Z1 & Z2) E1 _ _].
  assert (Ed : type d = r_type r /\ start_vaddr d = r_start r /\ size_bytes d = r_size r) by (by rewrite <-G).
  destruct Ed as (Et & Es & Ez).
  assert (RI : identity_map vmm addr size s =
    (result <-
      (if (addr <? r_start r) || (r_end r <? addr + size) then ret invalid_handle
       else if negb (bool_decide (r_type r = VM_TYPE_IDENTITY_MAP_FREE)) then ret invalid_handle
       else
         cutted <- cut_descriptor vmm p addr size;;
         c <- read_desc cutted;;
         KASSERT (start_vaddr c mod PAGE_SIZE =? 0);;
         modify_desc cutted (set_type VM_TYPE_IDENTITY_MAP);;
         ret (MkVMemHandle cutted vmm));;
      release_vmm vmm (vs_if s);; ret result) (locked vmm s)).
  { unfold identity_map. rewrite bind_KASSERT.
    2: { apply negb_true_iff, Z.eqb_neq. unfold NULL. clear -Ha. lia. }
    rewrite !bind_KASSERT by (by apply Z.eqb_eq).
    rewrite (bind_ok _ _ _ _ _ (acquire_vmm_run _ _ _ (vi_vmm _ _ _ _ _ _ HI) HN)).
    rewrite (bind_ok _ _ _ _ _ (read_vmm_run _ _ _ _ _ _ HIl)). rewrite bind_KASSERT by done.
    rewrite (bind_ok _ _ _ _ _ RF), (bind_ok _ _ _ _ _ RD).
    unfold desc_end. rewrite Et, Es, Ez.
    rewrite (wrap64_small (r_start r + r_size r)) by (clear -S1 Z1 E1; unfold r_end in *; lia).
    rewrite (wrap64_small (addr + size)) by (clear -Ha Hs He; lia). done. }
  destruct (decide (r_start r <= addr /\ addr + size <= r_end r /\ r_type r = VM_TYPE_IDENTITY_MAP_FREE))
    as [(C1 & C2 & C3)|Hno].
  - left. rewrite (proj2 (Z.ltb_ge addr (r_start r)) C1), (proj2 (Z.ltb_ge (r_end r) _) C2) in RI.
    cbn [orb] in RI. rewrite bool_decide_eq_true_2 in RI by done. cbn [negb] in RI.
    destruct (cut_descriptor_spec B U vmm (set_lock true v) L1 p r L2 addr size (locked vmm s) HIl) as
      (q & s1 & B' & U' & v1 & La & Lb & R1 & K1 & M1 & I1 & EA & EB); [by rewrite C3|done|done|done|done|done|done|].
    destruct (read_region _ _ _ _ _ _ _ _ _ I1) as (c & RC & GC).
    destruct (vmm_inv_update _ _ _ _ _ _ _ _ _ (set_type VM_TYPE_IDENTITY_MAP)
      (MkRegion addr size 0 0 VM_TYPE_IDENTITY_MAP) I1) as (c' & _ & _ & R2 & I2).
    { intros x E. unfold region_of, part in *. cbn. injection E as Ea Eb Ec Ef _.
      by rewrite Ea, Eb, Ec, Ef. }
    { split; cbn [r_start r_size r_upper r_lower r_type]; try done.
      all: unfold r_end in *; cbn [r_start r_size]; clear -Hs He; lia. }
    { done. } { done. }
    set (s2 := set_descs _ s1) in *.
    exists L1, p, r, L2, La, Lb, q, (unlocked vmm (vs_if s) s2), B', U', (set_lock false v1).
    split_and!; try done.
    + rewrite RI. rewrite bind_assoc, (bind_ok _ _ _ _ _ R1). rewrite bind_assoc, (bind_ok _ _ _ _ _ RC).
      rewrite bind_assoc, bind_KASSERT.
      2: { assert (start_vaddr c = addr) as -> by (by unfold region_of in GC; injection GC). by apply Z.eqb_eq. }
      rewrite bind_assoc, (bind_ok _ _ _ _ _ R2). unfold bind at 1, ret at 1.
      by rewrite (bind_ok _ _ _ _ _ (release_vmm_run _ _ _)).
    + eapply (same_outside_keeps_vmm _ v1). destruct K1 as (s0 & K0 & ->).
      exists (set_descs (vs_descs s2) s0). split; [|done]. eapply vkeeps_trans; [exact K0|apply keeps_descs].
    + unfold moved_head in *. rewrite M1. destruct v; cbn in *. by rewrite HN.
    + apply vmm_inv_unlocked. exact I2.
  - right. split.
    + intros [x z] Hx Hxt Hxa Hxe. cbn [snd] in *. apply Hno.
      assert (Hc : contains z addr) by (unfold contains; clear -Hxa Hxe Hs; lia).
      apply elem_of_app in Hx as [Hx|[[= -> ->]|Hx]%elem_of_cons]; [|done|].
      * specialize (HB _ Hx). cbn [snd] in HB. unfold contains in Hc. lia.
      * destruct HT as [HT| ->]; [|by apply elem_of_nil in Hx].
        pose proof (vi_regions _ _ _ _ _ _ HI) as HO. rewrite fmap_app in HO. cbn [fmap list_fmap snd] in HO.
        apply ordered_app in HO as [_ (_ & _ & HO)].
        assert (HE : r_end r <= r_start z) by (eapply ordered_above; [exact HO|]; apply list_elem_of_fmap; by exists (x, z)).
        clear -HT Hxa HE. lia.
    + exists (unlocked vmm (vs_if s) (locked vmm s)). split_and!.
      * rewrite RI. set (c := if _ || _ then _ else _).
        assert (c (locked vmm s) = Ok (invalid_handle, locked vmm s)) as Rc.
        { unfold c. destruct (Z.ltb_spec addr (r_start r)); [done|].
          destruct (Z.ltb_spec (r_end r) (addr + size)); [done|]. cbn [orb].
          rewrite bool_decide_eq_false_2; [done|]. intros E. apply Hno. split_and!; [lia|lia|done]. }
        rewrite (bind_ok _ _ _ _ _ Rc). by rewrite (bind_ok _ _ _ _ _ (release_vmm_run _ _ _)).
      * apply same_outside_unlocked, vkeeps_refl.
      * rewrite <-(relock v HN). by apply vmm_inv_unlocked.
Qed.

End fault.

(** ** The virtual memory manager: page faults

    A fault on an identity-mapped region loads the page and its neighbours, a
    fault below a stack grows the stack by one step, and every other fault
    panics.  [recoverable] says which is which. *)

Section page_fault.
Context {F H D : Type} {FP : FrameProvider F} {HP : HeapProvider H} {SP : ShootdownProvider D}.
Context {FL : FrameLaws F} {HL : HeapLaws H}.
Implicit Types (s : vmm_state F H D).

(** ** Entering and leaving the handler *)

Definition servicing : PageFaultState := MkPageFaultState true false.
Definition idle : PageFaultState := MkPageFaultState false false.

(** The state in which the handler works: the manager locked, a fault noted. *)
Definition faulting (k : Z) s : vmm_state F H D := put (vmm_lock_lens k) true (put pf_lens servicing s).
Definition resumed (k : Z) s : vmm_state F H D := put pf_lens idle (put (vmm_lock_lens k) false s).

Lemma page_fault_enter k v cr2 error s :
  vs_vmms s !! k = Some v -> vmm_lock v = false -> vs_page_fault s = idle ->
  is_kernel_virtual_memory cr2 = true ->
  page_fault k cr2 error s =
    (vmem <- get_vmem_from_address k cr2;;
     let info := MkPageFaultInfo error cr2 vmem (Z.land error 1 =? 0) in
     solved <- page_fault_check_identity_map_load k info;;
     solved <- (if solved : bool then ret true else page_fault_check_stack_overflow k info);;
     when (negb solved) (
       print_page_fault_error info;;
       print ("[PAGE FAULT] CANNOT RECOVER THE PAGE FAULT" ++ newline)%string;;
       kpanic UNRECOVERABLE_PAGE_FAULT);;
     release_spinlock (vmm_lock_lens k);;
     acquire_spinlock pf_lock_lens;;
     set_servicing false;;
     release_spinlock pf_lock_lens) (faulting k s).
Proof.
  intros Hv HN HP0 Hk. unfold page_fault. rewrite Hk. cbn [negb when].
  unfold acquire_spinlock at 1, test_and_set, set_servicing, release_spinlock at 1, bind at 1, gets at 1, modify at 1, ret.
  destruct s as [pg h d i ds b n vm pf inst kio]. cbn in *. subst pf.
  unfold bind at 1 2 3 4 5 6 7 8 9 10, gets at 1, modify at 1. cbn.
  unfold acquire_spinlock, test_and_set, bind, gets, modify. cbn. rewrite Hv. cbn. rewrite HN. done.
Qed.

Lemma page_fault_leave k s :
  vs_page_fault s = servicing ->
  (release_spinlock (vmm_lock_lens k);; acquire_spinlock pf_lock_lens;; set_servicing false;;
   release_spinlock pf_lock_lens) s = Ok (tt, resumed k s).
Proof. intros E. destruct s as [pg h d i ds b n vm pf inst kio]. cbn in E. by subst pf. Qed.

Lemma faulting_inv B U k v L s :
  vmm_inv B U k v L s -> vmm_inv B U k (set_lock true v) L (faulting k s).
Proof.
  intros HI. eapply vmm_inv_frame; [exact HI|done..| |done]. cbn.
  by rewrite lookup_alter_eq, (vi_vmm _ _ _ _ _ _ HI).
Qed.

Lemma resumed_inv B U k v L s :
  vmm_lock v = false -> vmm_inv B U k (set_lock true v) L s -> vmm_inv B U k v L (resumed k s).
Proof.
  intros HN HI. eapply vmm_inv_frame; [exact HI|done..| |by destruct v]. cbn.
  rewrite lookup_alter_eq, (vi_vmm _ _ _ _ _ _ HI). cbn. f_equal. by apply relock.
Qed.

(** The region at the faulting address, once the handler has found it. *)
Lemma fault_region B U k v L1 p r L2 s cr2 :
  vmm_inv B U k v (L1 ++ (p, r) :: L2) s -> contains r cr2 ->
  get_vmem_from_address k cr2 (faulting k s) = Ok (MkVMemHandle p k, faulting k s).
Proof.
  intros HI Hc. destruct (get_vmem_from_address_spec B U k _ _ (faulting k s) cr2 (faulting_inv _ _ _ _ _ _ HI))
    as [(M1 & q & z & M2 & EL & Hz & R)|[HN _]].
  - pose proof (vi_regions _ _ _ _ _ _ HI) as HO. rewrite fmap_app in HO. cbn [fmap list_fmap snd] in HO.
    pose proof (ordered_contains_unique 0 _ r _ z cr2 HO Hc) as HU.
    assert (Hin : (q, z) ∈ L1 ++ (p, r) :: L2) by (rewrite EL; apply elem_mid).
    apply elem_of_app in Hin as [Hin|[[= -> ->]|Hin]%elem_of_cons]; [exfalso|exact R|exfalso];
      (apply HU; [|exact Hz]); apply elem_of_app; [left|right]; apply list_elem_of_fmap; by exists (q, z).
  - exfalso. apply (HN (p, r)); [apply elem_mid|exact Hc].
Qed.

(** ** Loading identity-mapped pages *)

Lemma canonical_low a : 0 <= a < 2 ^ 47 -> canonical a = a - a mod PAGE_SIZE.
Proof.
  intros Ha. unfold canonical. assert (Z.testbit a 47 = false) as ->.
  { rewrite <-(Z.mod_small a (2 ^ 47)) by lia. apply Z.mod_pow2_bits_high. lia. }
  unfold ADDR_MASK, PAGE_SIZE. change 0x0000fffffffff000 with (2 ^ 48 - 2 ^ 12).
  rewrite (land_high_mask 12 48) by lia. done.
Qed.

Lemma page_index_before a d : 0 <= d < PAGE_SIZE -> d <= a -> a < 2 ^ 47 ->
  let i := page_index (a - d) a in
  0 <= i <= 1 /\ canonical (wrap64 (a - d + PAGE_SIZE * i)) = a - a mod PAGE_SIZE.
Proof.
  intros Hd Ha Hh i.
  assert (Hi : i = a / PAGE_SIZE - (a - d) / PAGE_SIZE).
  { unfold i, page_index, page_number, PAGE_SIZE in *. rewrite !(Z.mod_small (_ / 4096)) by lia.
    rewrite Z.mod_small; lia. }
  clearbody i. unfold PAGE_SIZE in *. rewrite wrap64_small by lia.
  rewrite canonical_low by lia. unfold PAGE_SIZE. lia.
Qed.

(** The pages the handler loads, counted from the one of [cr2 - 8]. *)
Definition fault_pages : Z := 1 + PAGE_FAULT_ADDITIONAL_PAGE_LOAD.

Lemma load_identity_run k vm root s cr2 error h p :
  vs_vmms s !! k = Some vm -> paging_ok (paging_structure vm) root (vs_pg s) -> shootdown_completes s ->
  (51 <= free_count (vs_pg s))%nat -> 8 <= cr2 < 2 ^ 47 ->
  get_vmem_type (MkVMemHandle p k) s = Ok (VM_TYPE_IDENTITY_MAP, s) -> p <> NULL ->
  h = MkVMemHandle p k ->
  exists g d, page_fault_check_identity_map_load k (MkPageFaultInfo error cr2 h true) s =
      Ok (true, put shootdown_lens d (put pg_lens g s)) /\
    paging_ok (paging_structure vm) root g /\
    translate 4 (pmem g) root cr2 =
      MkMapState (cr2 - cr2 mod PAGE_SIZE) (Z.lor PAGE_WRITABLE PAGE_PRESENT) true /\
    (forall v', fault_pages <= page_index (cr2 - 8) v' ->
       translate 4 (pmem g) root v' = translate 4 (pmem (vs_pg s)) root v').
Proof.
  intros Hv [lv I] HS HF Hc HT Hp ->.
  destruct (map_pages_spec 17 lv k vm root s (cr2 - 8) (cr2 - 8) (Z.lor PAGE_WRITABLE PAGE_PRESENT) Hv I) as
    (g & R & (lv' & I' & _) & HTr); [lia|lia|].
  set (a := wrap64 (cr2 - 8 + PAGE_SIZE * Z.of_nat 17)).
  set (q := wrap64 (Z.quot (wrap64 (cr2 - 8 + (1 + 16) * PAGE_SIZE) - a) PAGE_SIZE)).
  assert (HSD : exists d, when (is_vmmcache_shootdown_subsystem_initialized (vs_shootdown s))
      (zoom shootdown_lens (sp_shootdown a q)) (put pg_lens g s) = Ok (tt, put shootdown_lens d (put pg_lens g s))).
  { destruct (is_vmmcache_shootdown_subsystem_initialized (vs_shootdown s)) eqn:E; cbn [when].
    - destruct (HS E a q) as [d RS]. exists d. unfold zoom. cbn [view shootdown_lens]. cbn. by rewrite RS.
    - exists (vs_shootdown s). by destruct s. }
  destruct HSD as [d RS]. exists g, d. split_and!.
  - unfold page_fault_check_identity_map_load, is_vmemhandle_invalid. cbn [fault_vmem vm_desc Interfaces.vmm].
    rewrite (proj2 (Z.eqb_neq p NULL) Hp), andb_false_r. rewrite (bind_ok _ _ _ _ _ HT).
    cbn [page_not_present fault_address]. rewrite bool_decide_eq_true_2 by done. cbn [andb].
    unfold PAGE_FAULT_ADDITIONAL_PAGE_LOAD. change (16 / 2) with 8. cbv zeta.
    rewrite (wrap64_small (cr2 - 8)) by lia.
    rewrite (wrap64_small (cr2 - 8 + (1 + 16) * PAGE_SIZE)) by (unfold PAGE_SIZE; lia).
    rewrite (proj2 (Z.ltb_lt _ _)) by (unfold PAGE_SIZE; lia).
    replace (pages (cr2 - 8 + (1 + 16) * PAGE_SIZE - (cr2 - 8))) with 17%nat by (unfold pages, PAGE_SIZE; lia).
    rewrite (bind_ok _ _ _ _ _ R).
    rewrite (bind_ok _ _ _ (is_vmmcache_shootdown_subsystem_initialized (vs_shootdown s)) (put pg_lens g s)) by done.
    unfold a, q in RS. rewrite (wrap64_small (cr2 - 8 + (1 + 16) * PAGE_SIZE)) in RS by (unfold PAGE_SIZE; lia).
    by rewrite (bind_ok _ _ _ _ _ RS).
  - by exists lv'.
  - destruct (page_index_before cr2 8) as [Hi Hcan]; [unfold PAGE_SIZE; lia|lia|lia|].
    rewrite HTr, decide_True by lia. by rewrite Hcan.
  - intros v' Hv'. rewrite HTr, decide_False; [done|]. unfold fault_pages, PAGE_FAULT_ADDITIONAL_PAGE_LOAD in Hv'. lia.
Qed.

(** The two checks at the region the handler found. *)
Lemma fault_type B U k v L1 p r L2 s :
  vmm_inv B U k v (L1 ++ (p, r) :: L2) s ->
  p <> NULL /\ get_vmem_type (MkVMemHandle p k) s = Ok (r_type r, s) /\
  get_vmem_addr (MkVMemHandle p k) s = Ok (r_start r + r_lower r, s) /\
  exists d, read_desc p s = Ok (d, s) /\ region_of d = r.
Proof.
  intros HI. destruct (read_region _ _ _ _ _ _ _ _ _ HI) as (d & RD & G).
  assert (Hok : region_ok r) by (apply (vmm_inv_region _ _ _ _ _ _ p r HI); apply elem_mid).
  destruct Hok as [(S1 & _) _ E1 (P1 & P2 & P3) _]. unfold r_end in E1. split_and!.
  - eapply dseg_nonnull; [apply HI|]. eapply ptrs_elem, elem_mid.
  - unfold get_vmem_type. rewrite (bind_ok _ _ _ _ _ RD). by rewrite <-G.
  - unfold get_vmem_addr. rewrite (bind_ok _ _ _ _ _ RD). unfold get_no_padding_start_addr.
    rewrite <-G in *. cbn in *. rewrite wrap64_small by lia. done.
  - by exists d.
Qed.

Lemma stack_check_skips k s h pf t :
  is_vmemhandle_invalid h = false -> fault_vmem pf = h -> get_vmem_type h s = Ok (t, s) ->
  t <> VM_TYPE_IDENTITY_MAP \/ page_not_present pf = false ->
  page_fault_check_identity_map_load k pf s = Ok (false, s).
Proof.
  intros Hh Hf HT Hn. unfold page_fault_check_identity_map_load. rewrite Hf, Hh, (bind_ok _ _ _ _ _ HT).
  destruct Hn as [Hn|Hn]; [rewrite bool_decide_eq_false_2 by done|rewrite Hn, andb_false_r]; done.
Qed.

Definition MINIMUM_PADDING_TO_GROW : Z := KERNEL_STACK_EXPANSION_STEP + MINIMUM_STACK_PADDING.

(** *** Printing *)

(** [m] only prints, on a console that is initialised. *)
Definition prints s (m : M (vmm_state F H D) unit) : Prop :=
  forall l, exists l', m (set_console (Some l) s) = Ok (tt, set_console (Some l') s).

Lemma prints_piece s x : prints s (print_piece x).
Proof. intros l. exists (l ++ [x]). by destruct s. Qed.
Lemma prints_seq s m1 m2 : prints s m1 -> prints s m2 -> prints s (m1;; m2).
Proof.
  intros H1 H2 l. destruct (H1 l) as [l1 R1]. destruct (H2 l1) as [l2 R2]. exists l2. by rewrite (bind_ok _ _ _ _ _ R1).
Qed.
Lemma prints_when s (b : bool) m : prints s m -> prints s (when b m).
Proof. intros Hm. destruct b; [done|]. intros l. by exists l. Qed.
Lemma prints_read {A} s (m : M (vmm_state F H D) A) k x :
  (forall c, m (set_console c s) = Ok (x, set_console c s)) -> prints s (k x) -> prints s (bind m k).
Proof. intros Hm Hk l. destruct (Hk l) as [l' R]. exists l'. by rewrite (bind_ok _ _ _ _ _ (Hm _)). Qed.

Lemma print_error_prints B U k v L1 p r L2 s cr2 error np :
  vmm_inv B U k v (L1 ++ (p, r) :: L2) s -> forall h, h = MkVMemHandle p k \/ h = invalid_handle ->
  prints s (print_page_fault_error (MkPageFaultInfo error cr2 h np)).
Proof.
  intros HI h Hh. destruct (read_region _ _ _ _ _ _ _ _ _ HI) as (d & RD & _).
  assert (Hp : p <> NULL) by (eapply dseg_nonnull; [apply HI|]; eapply ptrs_elem, elem_mid).
  assert (RC : forall c, read_desc p (set_console c s) = Ok (d, set_console c s)).
  { intros c. unfold read_desc in *. cbn. by destruct (vs_descs s !! p); [injection RD as ->|]. }
  unfold print_page_fault_error, print, print_uint64_hex. cbv zeta. cbn [page_error fault_address fault_vmem].
  repeat first [apply prints_seq|apply prints_when|apply prints_piece|
    match goal with |- prints _ (if ?b then _ else _) => destruct b eqn:?E end].
  destruct Hh as [-> | ->]; [|done].
  eapply prints_read; [intros c; unfold get_vmem_type; by rewrite (bind_ok _ _ _ _ _ (RC c))|]. do 2 (apply prints_seq; [apply prints_piece|]).
  eapply prints_read; [intros c; unfold get_vmem_addr; by rewrite (bind_ok _ _ _ _ _ (RC c))|]. do 2 (apply prints_seq; [apply prints_piece|]).
  eapply prints_read; [intros c; unfold get_vmem_addr; by rewrite (bind_ok _ _ _ _ _ (RC c))|].
  eapply prints_read; [intros c; unfold get_vmem_size; by rewrite (bind_ok _ _ _ _ _ (RC c))|]. apply prints_piece.
Qed.

Lemma prints_run s m l :
  prints s m -> vs_console s = Some l -> exists l', m s = Ok (tt, set_console (Some l') s).
Proof. intros Hm El. destruct (Hm l) as [l' R]. exists l'. rewrite <-R. destruct s. cbn in *. by subst. Qed.

Lemma print_error_faults s pf : vs_console s = None -> print_page_fault_error pf s = Fault.
Proof. intros E. unfold print_page_fault_error. cbv zeta. unfold bind at 1, print at 1, print_piece at 1. by rewrite E. Qed.

(** *** A fault below a stack *)

Definition overflows_stack (cr2 error : Z) (r : region) : bool :=
  bool_decide (r_type r = VM_TYPE_STACK) && (cr2 <? r_start r + r_lower r) && (Z.land error 1 =? 0).

Section stack.
Context (B : gmap Z Z) (U : list Z) (k : Z) (v : VirtualMemoryManager) (L1 : rlist) (p : Z) (r : region) (L2 : rlist)
  (cr2 error : Z).
Let info : PageFaultInfo := MkPageFaultInfo error cr2 (MkVMemHandle p k) (Z.land error 1 =? 0).

Lemma stack_check_enter s :
  vmm_inv B U k v (L1 ++ (p, r) :: L2) s ->
  page_fault_check_stack_overflow k info s =
    (if overflows_stack cr2 error r then
       kio <- gets kio_initialized;;
       when (negb kio) (kpanic UNRECOVERABLE_PAGE_FAULT);;
       print_page_fault_error info;;
       print ("[PAGE FAULT] POSSIBLE STACK OVERFLOW" ++ newline)%string;;
       d <- read_desc p;;
       expanded <- (if MINIMUM_STACK_PADDING <=? to_i64 (wrap64 (lower_padding d - KERNEL_STACK_EXPANSION_STEP))
                    then _try_expand_vmem_bottom (MkVMemHandle p k) KERNEL_STACK_EXPANSION_STEP false
                    else ret false);;
       if expanded : bool then
         print ("[PAGE FAULT] STACK EXPANDED, TRYING TO CONTINUE" ++ newline ++ newline)%string;; ret true
       else
         print ("[PAGE FAULT] FAILED TO EXPAND THE STACK" ++ newline ++ newline)%string;; ret false
     else ret false) s.
Proof.
  intros HI. destruct (fault_type _ _ _ _ _ _ _ _ _ HI) as (Hp & RT & RA & _).
  unfold page_fault_check_stack_overflow, is_vmemhandle_invalid, overflows_stack.
  change (fault_vmem info) with (MkVMemHandle p k). cbn [vm_desc Interfaces.vmm].
  rewrite (proj2 (Z.eqb_neq p NULL) Hp), andb_false_r.
  rewrite (bind_ok _ _ _ _ _ RT), (bind_ok _ _ _ _ _ RA). done.
Qed.

Lemma stack_check_silent s :
  vmm_inv B U k v (L1 ++ (p, r) :: L2) s -> overflows_stack cr2 error r = true -> vs_console s = None ->
  page_fault_check_stack_overflow k info s = Panic UNRECOVERABLE_PAGE_FAULT.
Proof.
  intros HI Ho Hc. rewrite stack_check_enter by done. rewrite Ho. unfold bind at 1, gets, kio_initialized. by rewrite Hc.
Qed.

(** The message is printed and the stack grown, if a guard page remains. *)
Lemma stack_check_run s l :
  vmm_inv B U k v (L1 ++ (p, r) :: L2) s -> r_lower r < 2 ^ 63 -> overflows_stack cr2 error r = true ->
  vs_console s = Some l ->
  exists l', page_fault_check_stack_overflow k info s =
    (expanded <- (if MINIMUM_PADDING_TO_GROW <=? r_lower r
                  then _try_expand_vmem_bottom (MkVMemHandle p k) KERNEL_STACK_EXPANSION_STEP false
                  else ret false);;
     if expanded : bool then
       print ("[PAGE FAULT] STACK EXPANDED, TRYING TO CONTINUE" ++ newline ++ newline)%string;; ret true
     else
       print ("[PAGE FAULT] FAILED TO EXPAND THE STACK" ++ newline ++ newline)%string;; ret false)
    (set_console (Some l') s).
Proof.
  intros HI H63 Ho Hl.
  destruct (prints_run s _ l (prints_seq s _ _ (print_error_prints B U k v L1 p r L2 s cr2 error (Z.land error 1 =? 0) HI _ (or_introl eq_refl))
    (prints_piece s (PText ("[PAGE FAULT] POSSIBLE STACK OVERFLOW" ++ newline)%string))) Hl) as [l' R].
  exists l'. rewrite stack_check_enter by done. rewrite Ho.
  rewrite (bind_ok _ _ _ true s) by (unfold gets, kio_initialized; by rewrite Hl).
  cbn [negb when]. rewrite (bind_ok _ _ _ tt s) by done.
  destruct (fault_type _ _ _ _ _ _ _ _ _ (vmm_inv_console _ _ _ _ _ _ (Some l') HI)) as (_ & _ & _ & d & RD & G).
  assert (Hok : region_ok r) by (apply (vmm_inv_region _ _ _ _ _ _ p r HI); apply elem_mid).
  destruct Hok as [_ _ _ (P1 & P2 & P3) _].
  unfold bind at 1 in R. unfold bind at 1. destruct (print_page_fault_error _ s) as [[[] s1]|c| | |]; try discriminate R.
  unfold print at 1. rewrite (bind_ok _ _ _ _ _ R). rewrite (bind_ok _ _ _ _ _ RD).
  assert (lower_padding d = r_lower r) as -> by (by rewrite <-G). unfold bind.
  assert (Eb : (MINIMUM_STACK_PADDING <=? to_i64 (wrap64 (r_lower r - KERNEL_STACK_EXPANSION_STEP))) = (MINIMUM_PADDING_TO_GROW <=? r_lower r)).
  { unfold MINIMUM_PADDING_TO_GROW, KERNEL_STACK_EXPANSION_STEP, MINIMUM_STACK_PADDING, PAGE_SIZE, KB in *.
    unfold to_i64. rewrite (wrap64_small (wrap64 _)) by (apply wrap_range; lia).
    clear -H63 P2. unfold wrap64, wrap.
    destruct (Z.ltb_spec ((r_lower r - 64 * 1024) mod 2 ^ 64) (2 ^ 63));
      destruct (Z.leb_spec (64 * 1024 + 4096) (r_lower r)); rewrite ?Z.leb_le, ?Z.leb_gt; lia. }
  by rewrite Eb.
Qed.

End stack.

(** ** The handler *)

Section handler.
Context (B : gmap Z Z) (U : list Z) (k : Z) (v : VirtualMemoryManager) (L1 : rlist) (p : Z) (r : region)
  (L2 : rlist) (root cr2 error : Z).
Context (HN : vmm_lock v = false) (Hk : is_kernel_virtual_memory cr2 = true)
  (Hc : contains r cr2) (He : Z.land error 1 = 0).

(** C9: A not-present fault inside an identity-mapped region, with the locks free
    and 51 free frames, returns with the faulting page mapped to itself; only pages of
    the window of 17 pages that begins with the page of the address 8 bytes below the
    fault (vmm.c:739 subtracts bytes, so that the window begins one page before the
    faulting page when the fault is in the first 8 bytes of it) are affected, and the
    handler has released its locks and is ready for the next fault. *)
Theorem page_fault_loads_identity_map s :
  vmm_inv B U k v (L1 ++ (p, r) :: L2) s -> vs_page_fault s = idle ->
  r_type r = VM_TYPE_IDENTITY_MAP -> cr2 < IDENTITY_MAP_VMEM_END ->
  paging_ok (paging_structure v) root (vs_pg s) -> shootdown_completes s ->
  (51 <= free_count (vs_pg s))%nat ->
  exists s', page_fault k cr2 error s = Ok (tt, s') /\
    vmm_inv B U k v (L1 ++ (p, r) :: L2) s' /\ vs_page_fault s' = idle /\ vs_if s' = vs_if s /\
    paging_ok (paging_structure v) root (vs_pg s') /\
    translate 4 (pmem (vs_pg s')) root cr2 =
      MkMapState (cr2 - cr2 mod PAGE_SIZE) (Z.lor PAGE_WRITABLE PAGE_PRESENT) true /\
    (forall v', fault_pages <= page_index (cr2 - 8) v' ->
       translate 4 (pmem (vs_pg s')) root v' = translate 4 (pmem (vs_pg s)) root v').
Proof using HN Hk Hc He.
  intros HI Hpf HT Hlt HPg HS HF. pose proof (faulting_inv _ _ _ _ _ _ HI) as HIf.
  destruct (fault_type _ _ _ _ _ _ _ _ _ HIf) as (Hp & RT & _).
  assert (Hok : region_ok r) by (apply (vmm_inv_region _ _ _ _ _ _ p r HI); apply elem_mid).
  destruct (load_identity_run k (set_lock true v) root (faulting k s) cr2 error (MkVMemHandle p k) p) as
    (g & d & R & HPg' & HTr & HTo); try done.
  { apply HIf. }
  { destruct Hok as [(S1 & S2) _ _ _ _]. unfold contains in Hc. unfold IDENTITY_MAP_VMEM_END, GB, MB, KB in Hlt.
    clear -S1 S2 Hc Hlt. unfold PAGE_SIZE in S2. lia. }
  { by rewrite RT, HT. }
  set (s1 := put shootdown_lens d (put pg_lens g (faulting k s))) in *.
  exists (resumed k s1). split_and!; try done.
  - rewrite (page_fault_enter k v) by (try done; apply HI).
    rewrite (bind_ok _ _ _ _ _ (fault_region B U k v L1 p r L2 s cr2 HI Hc)). rewrite He. cbv zeta.
    rewrite (bind_ok _ _ _ _ _ R). rewrite (bind_ok _ _ _ true s1) by done. cbn [negb when].
    rewrite (bind_ok _ _ _ tt s1) by done. by apply page_fault_leave.
  - apply resumed_inv; [done|]. by apply vmm_inv_sd, vmm_inv_pg.
Qed.


End handler.

(** What the handler can repair: a missing page of an identity map, or a missing
    page below a stack that keeps a guard page when it grows. *)
Definition recoverable s (cr2 error : Z) (r : region) : bool :=
  (Z.land error 1 =? 0) &&
  (bool_decide (r_type r = VM_TYPE_IDENTITY_MAP) ||
   (bool_decide (r_type r = VM_TYPE_STACK) && (cr2 <? r_start r + r_lower r) &&
    kio_initialized s && (MINIMUM_PADDING_TO_GROW <=? r_lower r))).

Lemma recoverable_not_overflow s cr2 error r :
  recoverable s cr2 error r = false -> overflows_stack cr2 error r = true ->
  kio_initialized s && (MINIMUM_PADDING_TO_GROW <=? r_lower r) = false.
Proof.
  unfold recoverable, overflows_stack. intros HR [[Ht Hl]%andb_true_iff Hn]%andb_true_iff.
  rewrite Hn, Ht, Hl in HR. cbn [andb] in HR. apply orb_false_iff in HR. by destruct HR.
Qed.

(** The end of a fault that is not repaired: on the console, or not. *)
Lemma fault_report B U k v L1 p r L2 s cr2 error np h (m : M (vmm_state F H D) unit) :
  vmm_inv B U k v (L1 ++ (p, r) :: L2) s -> h = MkVMemHandle p k \/ h = invalid_handle ->
  (when (negb false) (print_page_fault_error (MkPageFaultInfo error cr2 h np);;
     print ("[PAGE FAULT] CANNOT RECOVER THE PAGE FAULT" ++ newline)%string;;
     kpanic UNRECOVERABLE_PAGE_FAULT);; m) s =
  if kio_initialized s then Panic UNRECOVERABLE_PAGE_FAULT else Fault.
Proof.
  intros HI Hh. unfold kio_initialized. cbn [negb when]. destruct (vs_console s) as [l|] eqn:Hl.
  - destruct (prints_run s _ l (print_error_prints _ _ _ _ _ _ _ _ _ cr2 error np HI h Hh) Hl) as [l' R].
    unfold bind at 1. rewrite (bind_ok _ _ _ _ _ R). done.
  - unfold bind at 1. unfold bind at 1. by rewrite print_error_faults.
Qed.

Lemma fault_checks_fail B U k v L1 p r L2 s cr2 error (m : M (vmm_state F H D) unit) :
  vmm_inv B U k v (L1 ++ (p, r) :: L2) s -> r_lower r < 2 ^ 63 -> recoverable s cr2 error r = false ->
  let info := MkPageFaultInfo error cr2 (MkVMemHandle p k) (Z.land error 1 =? 0) in
  (solved <- page_fault_check_identity_map_load k info;;
   solved <- (if solved : bool then ret true else page_fault_check_stack_overflow k info);;
   when (negb solved) (print_page_fault_error info;;
     print ("[PAGE FAULT] CANNOT RECOVER THE PAGE FAULT" ++ newline)%string;;
     kpanic UNRECOVERABLE_PAGE_FAULT);; m) s =
  if negb (kio_initialized s) && negb (overflows_stack cr2 error r) then Fault else Panic UNRECOVERABLE_PAGE_FAULT.
Proof.
  intros HI H63 HR info. destruct (fault_type _ _ _ _ _ _ _ _ _ HI) as (Hp & RT & RA & _).
  rewrite (bind_ok _ _ _ false s).
  2: { eapply stack_check_skips; [|done|exact RT|].
       { unfold is_vmemhandle_invalid. cbn. by rewrite (proj2 (Z.eqb_neq p NULL) Hp), andb_false_r. }
       cbn [info page_not_present]. unfold recoverable in HR. destruct (Z.land error 1 =? 0); [|by right]. left. intros E.
       by rewrite E, bool_decide_eq_true_2 in HR. }
  destruct (overflows_stack cr2 error r) eqn:Ho.
  - pose proof (recoverable_not_overflow _ _ _ _ HR Ho) as HG. unfold kio_initialized in *. rewrite andb_false_r.
    destruct (vs_console s) as [l|] eqn:Hl.
    + destruct (stack_check_run B U k v L1 p r L2 cr2 error s l HI H63 Ho Hl) as [l' R].
      rewrite bool_decide_eq_true_2 in HG by done. cbn [andb] in HG. rewrite HG in R. unfold info.
      unfold bind at 1 2 in R. unfold ret at 1, print, print_piece in R. cbn [vs_console set_console] in R.
      rewrite (bind_ok _ _ _ _ _ R).
      rewrite (fault_report B U k v L1 p r L2); [done| |by left]. do 2 apply vmm_inv_console; try done.
    + unfold bind at 1. unfold info. by rewrite (stack_check_silent B U k v L1 p r L2).
  - rewrite (bind_ok _ _ _ false s) by (unfold info; rewrite (stack_check_enter B U k v L1 p r L2) by done; by rewrite Ho).
    unfold info. rewrite (fault_report B U k v L1 p r L2 s) by (try done; by left). rewrite andb_true_r. by destruct (kio_initialized s).
Qed.

(** Whether some region makes the fault a stack overflow. *)
Definition overflows_some_stack (L : rlist) (cr2 error : Z) : bool :=
  existsb (fun x => (r_start x.2 <=? cr2) && (cr2 <? r_end x.2) && overflows_stack cr2 error x.2) L.

Lemma overflows_some_stack_at B U k v L1 p r L2 s cr2 error :
  vmm_inv B U k v (L1 ++ (p, r) :: L2) s -> contains r cr2 ->
  overflows_some_stack (L1 ++ (p, r) :: L2) cr2 error = overflows_stack cr2 error r.
Proof.
  intros HI Hc. apply eq_true_iff_eq. unfold overflows_some_stack. rewrite existsb_exists. split.
  - intros ([q z] & Hin%list_elem_of_In & HB). cbn [snd] in HB. apply andb_true_iff in HB as [HB Ho].
    assert (Hz : contains z cr2) by (unfold contains; lia).
    pose proof (vi_regions _ _ _ _ _ _ HI) as HO. rewrite fmap_app in HO. cbn [fmap list_fmap snd] in HO.
    pose proof (ordered_contains_unique 0 _ r _ z cr2 HO Hc) as HU.
    apply elem_of_app in Hin as [Hin|[[= -> ->]|Hin]%elem_of_cons]; [exfalso|exact Ho|exfalso];
      (apply HU; [|exact Hz]); apply elem_of_app; [left|right]; apply list_elem_of_fmap; by exists (q, z).
  - intros Ho. exists (p, r). split; [apply list_elem_of_In, elem_mid|]. cbn [snd]. unfold contains in Hc. rewrite Ho. lia.
Qed.

(** C11: With the locks free, a fault at a user address, during the service of
    another fault, or at an address whose region is not recoverable does not return: it
    panics with UNRECOVERABLE_PAGE_FAULT. The exception is a fault at a kernel address
    while the console is not initialised, where the message printed before the panic
    faults itself; only when the address is below a stack (and no other fault is being
    served) does the handler test the console first and panic. *)
Theorem page_fault_unrecoverable_panics B U k v L s cr2 error :
  vmm_inv B U k v L s -> vmm_lock v = false -> pf_lock (vs_page_fault s) = false ->
  (forall p r, (p, r) ∈ L -> r_lower r < 2 ^ 63) ->
  let nested := servicing_page_fault (vs_page_fault s) in
  is_kernel_virtual_memory cr2 = false \/ nested = true \/
    (forall p r, (p, r) ∈ L -> contains r cr2 -> recoverable s cr2 error r = false) ->
  page_fault k cr2 error s =
    if is_kernel_virtual_memory cr2 && negb (kio_initialized s) && (nested || negb (overflows_some_stack L cr2 error))
    then Fault else Panic UNRECOVERABLE_PAGE_FAULT.
Proof.
  intros HI HN Hpf H63 nested Hno. destruct (is_kernel_virtual_memory cr2) eqn:Hk.
  2: { unfold page_fault. by rewrite Hk. }
  cbn [andb]. destruct nested eqn:Hs; unfold nested in Hs.
  { unfold page_fault. rewrite Hk. unfold kio_initialized. cbn [orb]. rewrite andb_true_r.
    destruct s as [? ? ? ? ? ? ? ? [b l] ? [?|]]; cbn in Hs, Hpf; by subst b l. }
  destruct Hno as [?|[?|Hno]]; [done..|]. cbn [orb].
  rewrite (page_fault_enter k v); [|apply HI|done| |done].
  2: { destruct (vs_page_fault s). cbn in *. by subst. }
  pose proof (faulting_inv _ _ _ _ _ _ HI) as HIf. change (kio_initialized s) with (kio_initialized (faulting k s)).
  destruct (get_vmem_from_address_spec B U k _ _ (faulting k s) cr2 HIf) as
    [(L1 & p & r & L2 & EL & Hc & R)|[Hout R]]; rewrite (bind_ok _ _ _ _ _ R); cbv zeta.
  - subst L. rewrite (fault_checks_fail B U k _ L1 p r L2 (faulting k s) cr2 error _ HIf); [|eapply H63, elem_mid|].
    + by rewrite (overflows_some_stack_at _ _ _ _ _ _ _ _ _ _ _ HI Hc).
    + apply (Hno p r); [apply elem_mid|done].
  - assert (overflows_some_stack L cr2 error = false) as ->.
    { apply not_true_is_false. unfold overflows_some_stack. rewrite existsb_exists. intros (x & Hin%list_elem_of_In & HB).
      apply (Hout x Hin). unfold contains. lia. }
    rewrite andb_true_r. rewrite (bind_ok _ _ _ false (faulting k s)) by done. rewrite (bind_ok _ _ _ false (faulting k s)) by done.
    destruct L as [|[p r] L2]; [by destruct (vi_nonempty _ _ _ _ _ _ HI)|].
    rewrite (fault_report B U k _ [] p r L2 (faulting k s)) by (try done; by right). by destruct (kio_initialized (faulting k s)).
Qed.

End page_fault.
