(* ===== verification/VmmInit.v ===== *)
(** * The virtual memory manager: initialisation

    [initialize_kernel_VMM] links two descriptors, the space reserved for
    identity maps and the kernel's half of the address space, and establishes
    the invariant of the manager. *)

From S2P Require Import Prelude Memory Sync Interfaces Paging Vmm VmmInv VmmCut.
Import Sequential.

Section init.
Context {F H D : Type} {FP : FrameProvider F} {HP : HeapProvider H} {SP : ShootdownProvider D}.
Context {HL : HeapLaws H}.
Implicit Types (s : vmm_state F H D).

Definition identity_space : region :=
  MkRegion PAGE_SIZE (IDENTITY_MAP_VMEM_END - PAGE_SIZE) 0 0 VM_TYPE_IDENTITY_MAP_FREE.
Definition kernel_space : region :=
  MkRegion KERNEL_VMEM_START (LAST_VADDR - 4095 - KERNEL_VMEM_START) 0 0 VM_TYPE_FREE.

Lemma spaces_ok : region_ok identity_space /\ region_ok kernel_space.
Proof. split_and!; split; by vm_compute. Qed.

Lemma desc_pool_handler B U s : desc_pool B U s -> desc_pool B U (set_page_fault_vector 0xe s).
Proof. intros []. by split. Qed.

Lemma initialize_kernel_VMM_spec B U vmm paging s :
  desc_pool B U s -> can_alloc_two s ->
  exists s' B' p q, initialize_kernel_VMM vmm paging s = Ok (tt, s') /\
    page_fault_vector s' = Some 0xe /\ vs_pg s' = vs_pg s /\ vs_if s' = vs_if s /\ vs_shootdown s' = vs_shootdown s /\
    (forall k, k <> vmm -> vs_vmms s' !! k = vs_vmms s !! k) /\
    vmm_inv B' (q :: p :: U) vmm (MkVMM p paging true false) [(p, identity_space); (q, kernel_space)] s'.
Proof.
  intros HP0 HCT. set (s0 := set_page_fault_vector 0xe s).
  assert (HPool : desc_pool B U s0) by (by apply desc_pool_handler).
  destruct (can_alloc_two_spec B U s0 HPool HCT) as [HC HC2].
  destruct (allocate_desc_spec B U s0 HPool HC) as (p & dp & s1 & B1 & R1 & Hp & Hpn & Em1 & Up & Lp & HK1 & HP1).
  destruct (allocate_desc_spec B1 (p :: U) s1 HP1 (HC2 _ _ R1)) as
    (q & dq & s2 & B2 & R2 & Hq & Hqn & Em2 & Uq & Lq & HK2 & HP2).
  pose proof Hq as [Hqp _]%not_elem_of_cons.
  assert (Hpq : p <> q) by congruence.
  assert (Es2 : s2 = set_descs (<[p := dp]> (<[q := dq]> (vs_descs s))) s2).
  { rewrite insert_insert_ne by congruence. change (vs_descs s) with (vs_descs s0).
    rewrite <-Em1, <-Em2. by destruct s2. }
  unfold initialize_kernel_VMM. unfold install_handler. rewrite (bind_ok _ _ _ tt s0) by done.
  rewrite (bind_ok _ _ _ _ _ R1). rewrite Es2 in R2. rewrite (bind_ok _ _ _ _ _ R2). cbv zeta.
  do 5 rewrite (bind_ok _ _ _ _ _ (modify_fst p q _ _ _ _ _)).
  do 5 rewrite (bind_ok _ _ _ _ _ (modify_snd p q Hpq _ _ _ _ _)).
  eexists _, B2, p, q. split; [reflexivity|].
  destruct (vkeeps_trans _ _ _ HK1 HK2) as (E1 & E2 & E3 & _ & _ & E6 & _ & _ & E9).
  split_and!.
  - cbn. by rewrite E6.
  - cbn. by rewrite E1.
  - cbn. by rewrite E3.
  - cbn. by rewrite E2.
  - intros k Hk. cbn. rewrite lookup_insert_ne by done. by rewrite E9.
  - split; cbn [vs_vmms set_vmms vs_descs set_descs].
    + apply lookup_insert_eq.
    + done.
    + done.
    + cbn [dseg first_ptr]. split_and!; [done| |done| |done].
      * eexists. split; [apply lookup_insert_eq|]. unfold region_of. cbn [set_next set_prev set_type set_size_bytes
          set_start_vaddr start_vaddr size_bytes upper_padding lower_padding type next prev]. by rewrite Up, Lp.
      * eexists. split; [rewrite lookup_insert_ne by done; apply lookup_insert_eq|].
        unfold region_of. cbn [set_next set_prev set_type set_size_bytes
          set_start_vaddr start_vaddr size_bytes upper_padding lower_padding type next prev]. by rewrite Uq, Lq.
    + apply NoDup_cons. split; [by intros ?%list_elem_of_singleton|apply NoDup_singleton].
    + intros x [->|[->|[]%elem_of_nil]%elem_of_cons]%elem_of_cons; set_solver.
    + apply desc_pool_vmms, desc_pool_descs. exact HP2.
    + cbn [fmap list_fmap snd ordered]. destruct spaces_ok as (O1 & O2).
      split_and!; [done|exact O1|by vm_compute|exact O2|done].
Qed.

(** C4: initialize_kernel_VMM links the identity-map space and the kernel half of
    the address space into the list of the manager, installs the page fault handler and
    establishes the invariant of the manager. *)
Theorem initialize_kernel_VMM_correct B U vmm paging s :
  desc_pool B U s -> can_alloc_two s ->
  exists s' B' p q, initialize_kernel_VMM vmm paging s = Ok (tt, s') /\
    page_fault_vector s' = Some 0xe /\ vs_pg s' = vs_pg s /\ vs_if s' = vs_if s /\
    (forall k, k <> vmm -> vs_vmms s' !! k = vs_vmms s !! k) /\
    vmm_inv B' (q :: p :: U) vmm (MkVMM p paging true false) [(p, identity_space); (q, kernel_space)] s'.
Proof.
  intros HP0 HCT. destruct (initialize_kernel_VMM_spec B U vmm paging s HP0 HCT) as (s' & B' & p & q & R & H1 & H2 & H3 & _ & H4 & H5).
  exists s', B', p, q. split_and!; [exact R|exact H1|exact H2|exact H3|exact H4|exact H5].
Qed.

End init.

(** ** The virtual memory manager: descriptors taken before the heap is ready

    Until the heap is initialised descriptors come from a static array.  [takes n m]:
    a run of [m] takes at most [n] of them. *)

Section takes.
Context {F H D : Type} {FP : FrameProvider F} {HP : HeapProvider H} {SP : ShootdownProvider D}.
#[local] Abbreviation state := (vmm_state F H D).
Implicit Types (s : vmm_state F H D).

Definition early s : Prop := is_kheap_initialzed (vs_heap s) = false /\ 0 <= next_free_descriptor s.

Definition takes {A} (n : Z) (m : M state A) : Prop :=
  forall s a s', early s -> m s = Ok (a, s') -> early s' /\ next_free_descriptor s' <= next_free_descriptor s + n.

Lemma takes_ret {A} n (a : A) : 0 <= n -> takes n (ret a).
Proof. intros Hn s x s' E [= _ <-]. split; [done|lia]. Qed.

Lemma takes_bind {A B} n k (m : M state A) (f : A -> M state B) : takes n m -> (forall a, takes k (f a)) -> takes (n + k) (bind m f).
Proof.
  intros Hm Hf s b s' E R. unfold bind in R. destruct (m s) as [[a s1]| | | |] eqn:E1; try discriminate R.
  destruct (Hm _ _ _ E E1) as [E2 L1]. destruct (Hf a _ _ _ E2 R) as [E3 L2]. split; [done|lia].
Qed.

Lemma takes_weaken {A} n k (m : M state A) : takes n m -> n <= k -> takes k m.
Proof. intros Hm Hn s a s' E R. destruct (Hm _ _ _ E R) as [E' L]. split; [done|lia]. Qed.

Lemma takes_bind0 {A B} n (m : M state A) (f : A -> M state B) : takes 0 m -> (forall a, takes n (f a)) -> takes n (bind m f).
Proof. intros Hm Hf. apply (takes_weaken (0 + n)); [by apply takes_bind|lia]. Qed.

(** A step that leaves the heap and the array alone. *)
Lemma takes_same {A} (m : M state A) :
  (forall s a s', m s = Ok (a, s') -> vs_heap s' = vs_heap s /\ next_free_descriptor s' = next_free_descriptor s) -> takes 0 m.
Proof. intros Hm s a s' [E1 E2] R. destruct (Hm _ _ _ R) as [F1 F2]. unfold early. rewrite F1, F2. split; [by split|lia]. Qed.

Lemma takes_zoom {T A} (L : lens state T) (m : M T A) :
  (forall t s, vs_heap (put L t s) = vs_heap s /\ next_free_descriptor (put L t s) = next_free_descriptor s) -> takes 0 (zoom L m).
Proof. intros HL. apply takes_same. intros s a s' R. unfold zoom in R. destruct (m (view L s)) as [[x t]| | | |]; try discriminate R. injection R as _ <-. apply HL. Qed.

Lemma takes_gets {A} (f : state -> A) : takes 0 (gets f).
Proof. apply takes_same. by intros s a s' [= _ <-]. Qed.
Lemma takes_KASSERT b : takes 0 (@KASSERT state b).
Proof. apply takes_same. intros s a s'. unfold KASSERT. destruct b; [by intros [= _ <-]|done]. Qed.
Lemma takes_kpanic {A} c : takes 0 (@kpanic state A c).
Proof. by intros s a s' _ R. Qed.
Lemma takes_out_of_fuel {A} : takes 0 (@out_of_fuel state A).
Proof. by intros s a s' _ R. Qed.
Lemma takes_when n b (m : M state unit) : takes n m -> 0 <= n -> takes n (when b m).
Proof. intros Hm Hn. destruct b; [done|]. by apply takes_ret. Qed.
Lemma takes_read_desc p : takes 0 (@read_desc F H D p).
Proof. apply takes_same. intros s a s'. unfold read_desc. destruct (_ !! p); [by intros [= _ <-]|done]. Qed.
Lemma takes_read_vmm p : takes 0 (@read_vmm F H D p).
Proof. apply takes_same. intros s a s'. unfold read_vmm. destruct (_ !! p); [by intros [= _ <-]|done]. Qed.
Lemma takes_modify (f : state -> state) :
  (forall s, vs_heap (f s) = vs_heap s /\ next_free_descriptor (f s) = next_free_descriptor s) -> takes 0 (modify f).
Proof. intros Hf. apply takes_same. intros s a s' [= _ <-]. apply Hf. Qed.
Lemma takes_modify_desc p f : takes 0 (@modify_desc F H D p f).
Proof. apply takes_bind0; [apply takes_read_desc|]. intros d. by apply takes_modify. Qed.
Lemma takes_modify_vmm p f : takes 0 (@modify_vmm F H D p f).
Proof. apply takes_bind0; [apply takes_read_vmm|]. intros d. by apply takes_modify. Qed.
Lemma takes_acquire vmm : takes 0 (@acquire_vmm F H D vmm).
Proof.
  unfold acquire_vmm, acquire_spinlock_hard, disable_and_save_interrupts, test_and_set.
  do 2 (apply takes_bind0; [apply takes_bind0; [apply takes_gets|intros ?]; apply takes_bind0; [by apply takes_modify|intros ?; by apply takes_ret]|intros ?]).
  case_match; [by intros ? ? ? _ ?|by apply takes_ret].
Qed.
Lemma takes_release vmm b : takes 0 (@release_vmm F H D vmm b).
Proof.
  unfold release_vmm, release_spinlock_hard, restore_interrupt_state. apply takes_bind0; [by apply takes_modify|intros ?].
  apply takes_when; [by apply takes_modify|done].
Qed.
Lemma takes_on_paging {A} (m : M (pg_state F) A) : takes 0 (@on_paging F H D A m).
Proof. by apply takes_zoom. Qed.
Lemma takes_shootdown a n : takes 0 (@shootdown F H D SP a n).
Proof.
  apply takes_bind0; [apply takes_KASSERT|intros ?]. apply takes_bind0; [apply takes_gets|intros ?]. apply takes_when; [by apply takes_zoom|done].
Qed.

Lemma takes_alloc : takes 1 (@allocate_vmem_descriptor F H D HP).
Proof.
  intros s a s' [E1 E2] R. unfold allocate_vmem_descriptor, bind, gets in R. rewrite E1 in R.
  destruct (VIRTUAL_MEMORY_DESCRIPTOR_EARLY_ALLOCATION_SIZE <=? next_free_descriptor s) eqn:E; [done|]. injection R as _ <-. cbn.
  unfold VIRTUAL_MEMORY_DESCRIPTOR_EARLY_ALLOCATION_SIZE in E. unfold early. cbn. rewrite wrap64_small by lia. split; [split; [done|lia]|lia].
Qed.

Lemma takes_walk fuel go p : takes 0 (@walk_list F H D fuel go p).
Proof.
  revert p. induction fuel as [|fuel IH]; intros p; [apply takes_out_of_fuel|]. cbn [walk_list].
  apply takes_bind0; [apply takes_read_desc|intros d]. case_match; [apply IH|by apply takes_ret].
Qed.
Lemma takes_update_head_loop fuel vmm : takes 0 (@update_head_loop F H D fuel vmm).
Proof.
  induction fuel as [|fuel IH]; [apply takes_out_of_fuel|]. cbn [update_head_loop].
  apply takes_bind0; [apply takes_read_vmm|intros v]. apply takes_bind0; [apply takes_read_desc|intros d]. case_match; [by apply takes_ret|].
  apply takes_bind0; [apply takes_modify_vmm|intros ?; exact IH].
Qed.
Lemma takes_update_head vmm : takes 0 (@update_head F H D vmm).
Proof. apply takes_bind0; [apply takes_gets|intros ?; apply takes_update_head_loop]. Qed.
Lemma takes_find_address vmm a : takes 0 (@find_address F H D vmm a).
Proof. apply takes_bind0; [apply takes_read_vmm|intros ?]. apply takes_bind0; [apply takes_gets|intros ?; apply takes_walk]. Qed.
Lemma takes_link_next p q : takes 0 (@link_next F H D p q).
Proof. by apply takes_when; [apply takes_modify_desc|]. Qed.
Lemma takes_link_prev p q : takes 0 (@link_prev F H D p q).
Proof. by apply takes_when; [apply takes_modify_desc|]. Qed.
Lemma takes_flush n a : takes 0 (@flush_pages F H D n a).
Proof.
  revert a. induction n as [|n IH]; intros a; [by apply takes_ret|]. cbn [flush_pages]. apply takes_bind0; [apply takes_on_paging|intros ?; apply IH].
Qed.
Lemma takes_map_pages n vmm a p fl : takes 0 (@map_pages F H D FP n vmm a p fl).
Proof.
  revert a p. induction n as [|n IH]; intros a p; [by apply takes_ret|]. cbn [map_pages].
  apply takes_bind0; [apply takes_read_vmm|intros ?]. apply takes_bind0; [apply takes_on_paging|intros ?; apply IH].
Qed.
End takes.

Create HintDb takes discriminated.
#[export] Hint Resolve takes_gets takes_KASSERT takes_read_desc takes_read_vmm takes_modify_desc takes_acquire takes_release takes_on_paging takes_shootdown takes_update_head takes_find_address takes_link_next takes_link_prev takes_flush takes_map_pages : takes.

Ltac taking :=
  repeat match goal with
  | |- takes _ (if ?b then _ else _) => destruct b
  | |- takes _ (ret _) => apply takes_ret; lia
  | |- takes ?n (bind allocate_vmem_descriptor _) => apply (takes_weaken (1 + (n - 1))); [apply takes_bind; [apply takes_alloc|intros ?]|lia]
  | |- takes _ (bind (bind _ _) _) => fail 1
  | |- takes _ (bind _ _) => apply takes_bind0; [by auto with takes|intros ?]
  | |- takes _ (let _ := _ in _) => cbv zeta
  end.

Section operations.
Context {F H D : Type} {FP : FrameProvider F} {HP : HeapProvider H} {SP : ShootdownProvider D}.
Implicit Types (s : vmm_state F H D).

Lemma takes_cut_start vmm p size : takes 1 (@cut_descriptor_start F H D HP vmm p size).
Proof. unfold cut_descriptor_start. taking. Qed.
Lemma takes_cut_end vmm p a size : takes 1 (@cut_descriptor_end F H D HP vmm p a size).
Proof. unfold cut_descriptor_end. taking. Qed.
Lemma takes_cut_middle vmm p a size : takes 2 (@cut_descriptor_middle F H D HP vmm p a size).
Proof. unfold cut_descriptor_middle. taking. Qed.

Lemma takes_cut vmm p a size : takes 2 (@cut_descriptor F H D HP vmm p a size).
Proof.
  unfold cut_descriptor. taking; [apply (takes_weaken 1); [apply takes_cut_start|lia]|apply (takes_weaken 1); [apply takes_cut_end|lia]|apply takes_cut_middle].
Qed.

Lemma takes_bind2 {A B} (m : M (vmm_state F H D) A) (f : A -> M (vmm_state F H D) B) : takes 2 m -> (forall a, takes 0 (f a)) -> takes 2 (bind m f).
Proof. intros Hm Hf. apply (takes_weaken (2 + 0)); [by apply takes_bind|lia]. Qed.

Lemma takes_identity_map vmm a size : takes 2 (@identity_map F H D HP vmm a size).
Proof.
  unfold identity_map. taking. apply takes_bind2; [|intros ?; taking]. taking. apply takes_bind2; [apply takes_cut|intros ?; taking].
Qed.

Lemma takes_copy_memory_mapping vmm src a size fl : takes 2 (@copy_memory_mapping_from_paging_structure F H D FP HP SP vmm src a size fl).
Proof.
  unfold copy_memory_mapping_from_paging_structure. taking. apply takes_bind2; [apply takes_cut|intros ?; taking].
Qed.

Lemma takes_initialize_kernel_VMM vmm ps : takes 2 (@initialize_kernel_VMM F H D HP vmm ps).
Proof.
  unfold initialize_kernel_VMM, install_handler. apply takes_bind0; [by apply takes_modify|intros ?]. taking.
  apply (takes_weaken 0); [by apply takes_modify|lia].
Qed.
End operations.
