(* ===== verification/VmmLoad.v ===== *)
(** * The virtual memory manager: mapping given frames

    [load_identity_map_pages], [memory_map] and
    [copy_memory_mapping_from_paging_structure]: the operations that map pages to
    frames the caller names or another paging structure maps. *)

From S2P Require Import Prelude Memory Sync Interfaces Paging PagingInv PagingTop Vmm VmmInv VmmCut VmmMap VmmOps VmmTop VmmFault.
Import Sequential.

Section load.
Context {F H D : Type} {FP : FrameProvider F} {HP : HeapProvider H} {SP : ShootdownProvider D}.
Context {FL : FrameLaws F} {HL : HeapLaws H}.
Implicit Types (s : vmm_state F H D).

(** Taking and giving back a free lock changes nothing. *)
Lemma unlocked_locked vmm v s : vs_vmms s !! vmm = Some v -> vmm_lock v = false -> unlocked vmm (vs_if s) (locked vmm s) = s.
Proof.
  intros Hv HN. assert (E : alter (set_lock false) vmm (alter (set_lock true) vmm (vs_vmms s)) = vs_vmms s).
  { apply map_eq. intros k. destruct (decide (k = vmm)) as [->|]; [|by rewrite !lookup_alter_ne].
    rewrite !lookup_alter_eq, Hv. cbn. by rewrite relock. }
  destruct s as [a b c i d e f vmms g h j]. unfold locked, unlocked. cbn in *. unfold set_vmms. cbn. by destruct i; cbn; rewrite E.
Qed.

(** [n] pages from [a] on are mapped to the frames from [p] on with flags [fl],
    every other page translates as before. *)
Definition maps_range (root a : Z) (n : nat) (p fl : Z) (g g' : pg_state F) : Prop :=
  forall v', translate 4 (pmem g') root v' =
    if decide (page_index a v' < Z.of_nat n)
    then MkMapState (canonical (wrap64 (p + PAGE_SIZE * page_index a v'))) (Z.lor (fl mod PAGE_SIZE) PAGE_PRESENT) true
    else translate 4 (pmem g) root v'.

(** A shootdown before the subsystem is initialised does nothing. *)
Lemma shootdown_run_idle a size s : shootdown_completes s -> size mod PAGE_SIZE = 0 ->
  exists d, shootdown a size s = Ok (tt, put shootdown_lens d s) /\
    (is_vmmcache_shootdown_subsystem_initialized (vs_shootdown s) = false -> d = vs_shootdown s).
Proof.
  intros HS Hm. destruct (is_vmmcache_shootdown_subsystem_initialized (vs_shootdown s)) eqn:E.
  - destruct (shootdown_run a size s HS Hm) as [d R]. exists d. by split.
  - exists (vs_shootdown s). split; [|done]. unfold shootdown. rewrite bind_KASSERT by (by apply Z.eqb_eq).
    rewrite (bind_ok _ _ _ false s) by (unfold gets; by rewrite E). by destruct s.
Qed.

(** Map the pages, shoot down, return. *)
Lemma map_and_shootdown {A} n lv vmm vm root s a p fl b size (k : M (vmm_state F H D) A) :
  vs_vmms s !! vmm = Some vm -> pg_inv lv (paging_structure vm) root (vs_pg s) -> shootdown_completes s ->
  (map_cost n a true <= free_count (vs_pg s))%nat -> Z.of_nat n <= 2 ^ 36 -> size mod PAGE_SIZE = 0 ->
  exists g d, (map_pages n vmm a p fl;; shootdown b size;; k) s = k (put shootdown_lens d (put pg_lens g s)) /\
    pages_step lv (paging_structure vm) root (map_cost n a true) (vs_pg s) g /\ maps_range root a n p fl (vs_pg s) g /\
    (is_vmmcache_shootdown_subsystem_initialized (vs_shootdown s) = false -> d = vs_shootdown s).
Proof.
  intros Hv I HS HF Hn Hm. destruct (map_pages_cost n lv vmm vm root s a p fl true Hv I ltac:(done) HF Hn) as (g & R & Hst & HT).
  destruct (shootdown_run_idle b size (put pg_lens g s)) as (d & RS & Hd); [done|done|].
  exists g, d. split_and!; [|exact Hst|exact HT|exact Hd]. by rewrite (bind_ok _ _ _ _ _ R), (bind_ok _ _ _ _ _ RS).
Qed.

(** ** Loading pages of an identity map *)

Theorem load_identity_map_pages_correct B U vmm v L s lv root addr size h :
  vmm_inv B U vmm v L s -> kernel_mode v = true -> vmm_lock v = false -> Interfaces.vmm h = vmm ->
  pg_inv lv (paging_structure v) root (vs_pg s) -> shootdown_completes s ->
  0 <= addr -> 0 <= size -> addr + size < 2 ^ 48 -> addr mod PAGE_SIZE = 0 -> size mod PAGE_SIZE = 0 ->
  3 * (size / PAGE_SIZE / 512 + 2) <= Z.of_nat (free_count (vs_pg s)) ->
  exists g d, load_identity_map_pages vmm addr size h s = Ok (tt, put shootdown_lens d (put pg_lens g s)) /\
    vmm_inv B U vmm v L (put shootdown_lens d (put pg_lens g s)) /\
    pages_step lv (paging_structure v) root (map_cost (Z.to_nat (size / PAGE_SIZE)) addr true) (vs_pg s) g /\
    maps_range root addr (Z.to_nat (size / PAGE_SIZE)) addr (Z.lor PAGE_WRITABLE PAGE_PRESENT) (vs_pg s) g /\
    (is_vmmcache_shootdown_subsystem_initialized (vs_shootdown s) = false -> d = vs_shootdown s).
Proof.
  intros HI HK HN Hh HPg HS Ha Hs He Ma Ms HF. pose proof (vmm_inv_locked _ _ _ _ _ _ HI) as HIl.
  assert (En : (if addr <? wrap64 (addr + size) then pages (wrap64 (addr + size) - addr) else 0%nat) = Z.to_nat (size / PAGE_SIZE)).
  { rewrite wrap64_small by lia. destruct (Z.ltb_spec addr (addr + size)); unfold pages, PAGE_SIZE in *; lia. }
  destruct (map_and_shootdown (Z.to_nat (size / PAGE_SIZE)) lv vmm v root s addr addr (Z.lor PAGE_WRITABLE PAGE_PRESENT) addr size (ret tt)) as
    (g & d & R & Hst & HM & Hd); [apply HI|done|done| | |done|].
  { pose proof (map_cost_blocks (Z.to_nat (size / PAGE_SIZE)) addr true) as Hb. rewrite Z2Nat.id in Hb by (unfold PAGE_SIZE; lia). lia. } { unfold PAGE_SIZE in *. lia. }
  exists g, d. split_and!; [|by apply vmm_inv_sd, vmm_inv_pg|done|done|done].
  unfold load_identity_map_pages. rewrite bind_KASSERT by (by apply Z.eqb_eq). rewrite !bind_KASSERT by (by apply Z.eqb_eq).
  rewrite (bind_ok _ _ _ _ _ (acquire_vmm_run _ _ _ (vi_vmm _ _ _ _ _ _ HI) HN)).
  rewrite (bind_ok _ _ _ _ _ (read_vmm_run _ _ _ _ _ _ HIl)). rewrite bind_KASSERT by done.
  rewrite (bind_ok _ _ _ _ _ (release_vmm_run _ _ _)), (unlocked_locked _ _ _ (vi_vmm _ _ _ _ _ _ HI) HN). cbv zeta. rewrite En. etrans; [|exact R].
  unfold bind, ret. destruct (map_pages _ _ _ _ _ _) as [[? ?]| | | |]; [|done..]. by destruct (shootdown _ _ _) as [[[] ?]| | | |].
Qed.

(** ** Mapping a range of physical memory *)

Theorem memory_map_correct B U vmm v L s root paddr size fl :
  let total := size + MEMORY_MAP_PADDING * 2 in
  vmm_inv B U vmm v L s -> kernel_mode v = true -> vmm_lock v = false ->
  paging_ok (paging_structure v) root (vs_pg s) -> shootdown_completes s -> can_alloc s ->
  0 < size -> total < 2 ^ 48 -> size mod PAGE_SIZE = 0 -> paddr mod PAGE_SIZE = 0 ->
  (exists x, x ∈ L /\ r_type x.2 = VM_TYPE_FREE /\ total <= r_size x.2) ->
  3 * (size / PAGE_SIZE / 512 + 2) <= Z.of_nat (free_count (vs_pg s)) ->
  exists s' B' U' L1 p r L2 Lq,
    memory_map vmm paddr size fl s = Ok (MkVMemHandle p vmm, s') /\
    L = L1 ++ (p, r) :: L2 /\ r_type r = VM_TYPE_FREE /\ total <= r_size r /\
    (forall x, x ∈ L1 -> ~ (total <= r_size x.2 /\ r_type x.2 = VM_TYPE_FREE)) /\
    vmm_inv B' U' vmm v (L1 ++ (p, MkRegion (r_start r) total MEMORY_MAP_PADDING MEMORY_MAP_PADDING VM_TYPE_MEMORY_MAPPING) :: Lq ++ L2) s' /\
    (snd <$> Lq) = (if total =? r_size r then [] else [part r (r_start r + total) (r_size r - total)]) /\
    vs_if s' = vs_if s /\ paging_ok (paging_structure v) root (vs_pg s') /\
    maps_range root (r_start r + MEMORY_MAP_PADDING) (Z.to_nat (size / PAGE_SIZE)) paddr (Z.lor fl PAGE_PRESENT) (vs_pg s) (vs_pg s').
Proof.
  intros total HI HK HN [lv HPg] HS HC Hs Ht Ms Mp Hx HF. pose proof (vmm_inv_locked _ _ _ _ _ _ HI) as HIl.
  assert (Etot : total = size + 32768) by (unfold total, MEMORY_MAP_PADDING, PAGE_SIZE; lia).
  destruct (find_free_first B U vmm (set_lock true v) L (locked vmm s) total HIl Hx) as (p & r & L1 & L2 & EL & RF & HA & Hfit & HT). subst L.
  assert (Hok : region_ok r) by (apply (vmm_inv_region _ _ _ _ _ _ p r HI); apply elem_mid).
  destruct Hok as [(S1 & S2) (Z1 & Z2) E1 _ _]. unfold r_end in E1.
  assert (Hmt : total mod PAGE_SIZE = 0) by (rewrite Etot; clear -Ms; unfold PAGE_SIZE in *; lia).
  destruct (cut_start_spec B U vmm (set_lock true v) L1 p r L2 total (locked vmm s) HIl) as
    (s1 & B1 & U1 & Lq & R1 & K1 & I1 & ELq); [by rewrite HT|clear -Hs Etot Hfit; lia|done|by right|].
  destruct (set_region_spec B1 U1 vmm _ L1 p (part r (r_start r) total) (Lq ++ L2) s1 VM_TYPE_MEMORY_MAPPING MEMORY_MAP_PADDING MEMORY_MAP_PADDING I1)
    as (d & s2 & R2 & Gd & K2 & I2); [done|done|done|done|done|cbn; clear -Hs Etot; unfold MEMORY_MAP_PADDING, PAGE_SIZE; lia|].
  cbn [part r_start r_size] in Gd, I2. set (s3 := unlocked vmm (vs_if s) s2).
  assert (K3 : same_outside s s3) by (apply same_outside_unlocked; by eapply vkeeps_trans).
  assert (I3 : vmm_inv B1 U1 vmm v (L1 ++ (p, MkRegion (r_start r) total MEMORY_MAP_PADDING MEMORY_MAP_PADDING VM_TYPE_MEMORY_MAPPING) :: Lq ++ L2) s3)
    by (rewrite <-(relock v HN); by apply vmm_inv_unlocked).
  destruct K3 as (G1 & G2 & G3 & _).
  destruct (map_and_shootdown (Z.to_nat (size / PAGE_SIZE)) lv vmm v root s3 (r_start r + MEMORY_MAP_PADDING) paddr (Z.lor fl PAGE_PRESENT)
    (r_start r + MEMORY_MAP_PADDING) size (ret (MkVMemHandle p vmm))) as (g & d' & R3 & (lv' & HPg' & _) & HM & _); [apply I3|by rewrite G1| | | |done|].
  { unfold shootdown_completes. by rewrite G2. } { rewrite G1. pose proof (map_cost_blocks (Z.to_nat (size / PAGE_SIZE)) (r_start r + MEMORY_MAP_PADDING) true) as Hb.
    rewrite Z2Nat.id in Hb by (clear -Hs; unfold PAGE_SIZE; lia). clear -HF Hb. lia. } { clear -Ht Etot. unfold PAGE_SIZE in *. lia. }
  exists (put shootdown_lens d' (put pg_lens g s3)), B1, U1, L1, p, r, L2, Lq. split_and!; try done.
  - unfold memory_map. rewrite (bind_ok _ _ _ _ _ (acquire_vmm_run _ _ _ (vi_vmm _ _ _ _ _ _ HI) HN)).
    rewrite (bind_ok _ _ _ _ _ (read_vmm_run _ _ _ _ _ _ HIl)). rewrite bind_KASSERT by done. cbv zeta. fold total.
    rewrite (wrap64_small total) by (clear -Hs Etot Ht; lia). rewrite !bind_KASSERT by (by apply Z.eqb_eq).
    rewrite (bind_ok _ _ _ _ _ RF). destruct (read_region _ _ _ _ _ _ _ _ _ HIl) as (d0 & RD0 & G0). rewrite (bind_ok _ _ _ _ _ RD0).
    assert (type d0 = VM_TYPE_FREE) as -> by (by unfold region_of in G0; subst r).
    rewrite (bind_ok _ _ _ tt (locked vmm s)) by done. rewrite (bind_ok _ _ _ _ _ R1), R2.
    assert (get_no_padding_size d = size) as ->.
    { unfold get_no_padding_size. unfold region_of in Gd. injection Gd as _ -> -> -> _. unfold MEMORY_MAP_PADDING, PAGE_SIZE.
      rewrite wrap64_small; clear -Hs Etot Ht; lia. }
    assert (get_no_padding_start_addr d = r_start r + MEMORY_MAP_PADDING) as ->.
    { unfold get_no_padding_start_addr. unfold region_of in Gd. injection Gd as -> _ _ -> _. apply wrap64_small.
      clear -S1 Hfit E1 Hs Etot. unfold MEMORY_MAP_PADDING, PAGE_SIZE. lia. }
    rewrite (bind_ok _ _ _ _ _ (release_vmm_run _ _ _)). fold s3.
    replace (pages size) with (Z.to_nat (size / PAGE_SIZE)) by (clear -Hs Ms; unfold pages, PAGE_SIZE in *; lia). exact R3.
  - by apply vmm_inv_sd, vmm_inv_pg.
  - by exists lv'.
  - cbn. by rewrite <-G1.
Qed.

(** ** Copying mappings of another structure *)

(** The walk for an address stops at the region that contains it. *)
Lemma find_address_hit B U vmm v L s p0 r0 addr : vmm_inv B U vmm v L s -> (p0, r0) ∈ L -> r_start r0 <= addr < r_end r0 ->
  exists L1 L2, L = L1 ++ (p0, r0) :: L2 /\ find_address vmm addr s = Ok (p0, s).
Proof.
  intros HI Hin Hc. destruct (find_address_spec B U vmm v L s addr HI) as (p & r & L1 & L2 & -> & RF & HB & HT).
  apply elem_of_app in Hin as [Hx|[[= -> ->]|Hx]%elem_of_cons]; [|by exists L1, L2|].
  - specialize (HB _ Hx). cbn [snd] in HB. lia.
  - destruct HT as [HT| ->]; [|by apply elem_of_nil in Hx]. pose proof (vi_regions _ _ _ _ _ _ HI) as HO.
    rewrite fmap_app in HO. cbn [fmap list_fmap snd] in HO. apply ordered_app in HO as [_ (_ & _ & HO)].
    assert (HE : r_end r <= r_start r0) by (eapply ordered_above; [exact HO|]; apply list_elem_of_fmap; by exists (p0, r0)). lia.
Qed.

Lemma flush_pages_run n a s : exists tr, flush_pages n a s = Ok (tt, put pg_lens (PgState (pg_frames (vs_pg s)) tr (pg_cr3 (vs_pg s))) s).
Proof.
  revert a s. induction n as [|n IH]; intros a s; [exists (pg_trace (vs_pg s)); destruct s as [[] ? ? ? ? ? ? ? ? ? ?]; reflexivity|].
  destruct (IH (wrap64 (a + PAGE_SIZE)) (put pg_lens (PgState (pg_frames (vs_pg s)) (Invlpg a :: pg_trace (vs_pg s)) (pg_cr3 (vs_pg s))) s)) as [tr E].
  exists tr. cbn [flush_pages]. rewrite (bind_ok _ _ s tt (put pg_lens (PgState (pg_frames (vs_pg s)) (Invlpg a :: pg_trace (vs_pg s)) (pg_cr3 (vs_pg s))) s)); [|reflexivity].
  rewrite E. reflexivity.
Qed.

(** The critical section: the range is cut out of the free region that contains it. *)
Lemma copy_reserve_spec B U vmm v L s p r src addr size nf :
  vmm_inv B U vmm v L s -> kernel_mode v = true -> vmm_lock v = false -> can_alloc_two s ->
  (p, r) ∈ L -> r_type r = VM_TYPE_FREE -> r_start r <= addr -> 0 < size -> addr + size <= r_end r ->
  addr mod PAGE_SIZE = 0 -> size mod PAGE_SIZE = 0 ->
  exists L1 L2 q s1 B' U' v' La Lb, L = L1 ++ (p, r) :: L2 /\
    copy_memory_mapping_from_paging_structure vmm src addr size nf s =
      (on_paging (copy_paging_structure_mapping_no_page_invalidation src (paging_structure v) addr size nf);;
       flush_pages (pages size) addr;; shootdown addr size;; istate <- acquire_vmm vmm;; release_vmm vmm istate;; ret (MkVMemHandle q vmm)) s1 /\
    same_outside s s1 /\ moved_head v v' /\
    vmm_inv B' U' vmm v' ((L1 ++ La) ++ (q, MkRegion addr size 0 0 VM_TYPE_MEMORY_MAPPING) :: Lb ++ L2) s1 /\
    (snd <$> La) = before r addr /\ (snd <$> Lb) = after r (addr + size).
Proof.
  intros HI HK HN HC Hin HT H1 Hs H2 Ma Ms. pose proof (vmm_inv_locked _ _ _ _ _ _ HI) as HIl.
  destruct (find_address_hit B U vmm (set_lock true v) L (locked vmm s) p r addr HIl Hin) as (L1 & L2 & -> & RF); [lia|].
  assert (Hok : region_ok r) by (apply (vmm_inv_region _ _ _ _ _ _ p r HI); apply elem_mid).
  pose proof Hok as [(S1 & S2) (Z1 & Z2) E1 _ _].
  destruct (read_region _ _ _ _ _ _ _ _ _ HIl) as (d & RD & G).
  assert (Ed : type d = r_type r /\ start_vaddr d = r_start r /\ size_bytes d = r_size r) by (by rewrite <-G). destruct Ed as (Et & Es & Ez).
  destruct (cut_descriptor_spec B U vmm (set_lock true v) L1 p r L2 addr size (locked vmm s) HIl) as
    (q & s1 & B' & U' & v1 & La & Lb & R1 & K1 & M1 & I1 & EA & EB); [by rewrite HT|done|done|done|done|done|done|].
  destruct (read_region _ _ _ _ _ _ _ _ _ I1) as (c & RC & GC).
  destruct (vmm_inv_update _ _ _ _ _ _ _ _ _ (set_type VM_TYPE_MEMORY_MAPPING) (MkRegion addr size 0 0 VM_TYPE_MEMORY_MAPPING) I1) as (c' & _ & _ & R2 & I2).
  { intros x E. unfold region_of, part in *. cbn. injection E as Ea Eb Ec Ef _. by rewrite Ea, Eb, Ec, Ef. }
  { unfold r_end in *. split; unfold r_end; cbn [r_start r_size r_upper r_lower r_type]; [split; [clear -S1 H1; lia|exact Ma]|by split|clear -H2 E1; lia|clear -Hs; lia|done]. }
  { done. } { done. }
  set (s2 := set_descs _ s1) in *.
  assert (Eps : paging_structure v1 = paging_structure v) by (unfold moved_head in M1; rewrite M1; done).
  exists L1, L2, q, (unlocked vmm (vs_if s) s2), B', U', (set_lock false v1), La, Lb. split_and!; try done.
  - unfold copy_memory_mapping_from_paging_structure. rewrite bind_KASSERT by (by apply Z.eqb_eq).
    rewrite (bind_ok _ _ _ _ _ (acquire_vmm_run _ _ _ (vi_vmm _ _ _ _ _ _ HI) HN)).
    rewrite (bind_ok _ _ _ _ _ (read_vmm_run _ _ _ _ _ _ HIl)). rewrite bind_KASSERT by done.
    rewrite (bind_ok _ _ _ _ _ RF), (bind_ok _ _ _ _ _ RD). unfold desc_end. rewrite Et, Es, Ez.
    rewrite (wrap64_small (r_start r + r_size r)) by (clear -S1 Z1 E1; unfold r_end in *; lia).
    rewrite (wrap64_small (addr + size)) by (clear -S1 H1 Hs H2 E1; lia).
    rewrite (proj2 (Z.ltb_ge addr (r_start r)) H1), (proj2 (Z.ltb_ge (r_start r + r_size r) _) H2). cbn [orb].
    rewrite HT, bool_decide_eq_true_2 by done. cbn [negb].
    rewrite (bind_ok _ _ _ _ _ R1), (bind_ok _ _ _ _ _ RC), bind_KASSERT.
    2: { assert (start_vaddr c = addr) as -> by (by unfold region_of in GC; injection GC). by apply Z.eqb_eq. }
    rewrite (bind_ok _ _ _ _ _ R2). cbv zeta. rewrite (bind_ok _ _ _ _ _ (release_vmm_run _ _ _)).
    rewrite (bind_ok _ _ _ _ _ (read_vmm_run _ _ _ _ _ _ (vmm_inv_unlocked _ _ _ _ _ (vs_if s) _ I2))). cbn [set_lock paging_structure]. rewrite Eps.
    unfold COPY_FLAGS_ON_MMAP_COPY. destruct (Z.eqb_spec nf 0) as [->|]; done.
  - eapply (same_outside_keeps_vmm _ v1). destruct K1 as (s0 & K0 & ->).
    exists (set_descs (vs_descs s2) s0). split; [|done]. eapply vkeeps_trans; [exact K0|apply keeps_descs].
  - unfold moved_head in *. rewrite M1. destruct v; cbn in *. by rewrite HN.
  - apply vmm_inv_unlocked. exact I2.
Qed.

Lemma pg_inv_trace lv ps root (g : pg_state F) tr c : pg_inv lv ps root g -> pg_inv lv ps root (PgState (pg_frames g) tr c).
Proof. intros []. by split. Qed.

(** Copying the mappings of a range out of another paging structure cuts the
    range out of the free region that contains it, gives every page of the range the
    frame it has in the source with the flags asked for (those of the source for 0),
    leaves every other page and the source alone and returns with the lock free. *)
Theorem copy_memory_mapping_correct B U vmm v L s p r lv root src sroot addr size nf :
  vmm_inv B U vmm v L s -> kernel_mode v = true -> vmm_lock v = false -> can_alloc_two s ->
  pg_inv lv (paging_structure v) root (vs_pg s) -> pg_inv lv src sroot (vs_pg s) -> sroot <> root -> shootdown_completes s ->
  (p, r) ∈ L -> r_type r = VM_TYPE_FREE -> r_start r <= addr -> 0 < size -> addr + size <= r_end r ->
  addr mod PAGE_SIZE = 0 -> size mod PAGE_SIZE = 0 -> 0 <= nf < PAGE_SIZE ->
  6 * (size / PAGE_SIZE) <= Z.of_nat (free_count (vs_pg s)) ->
  exists L1 L2 q s' B' U' v' La Lb lv', L = L1 ++ (p, r) :: L2 /\
    copy_memory_mapping_from_paging_structure vmm src addr size nf s = Ok (MkVMemHandle q vmm, s') /\
    moved_head v v' /\ vmm_lock v' = false /\ vs_if s' = vs_if s /\
    (is_vmmcache_shootdown_subsystem_initialized (vs_shootdown s) = false -> vs_shootdown s' = vs_shootdown s) /\
    vmm_inv B' U' vmm v' ((L1 ++ La) ++ (q, MkRegion addr size 0 0 VM_TYPE_MEMORY_MAPPING) :: Lb ++ L2) s' /\
    (snd <$> La) = before r addr /\ (snd <$> Lb) = after r (addr + size) /\
    pg_inv lv' (paging_structure v) root (vs_pg s') /\ pg_inv lv' src sroot (vs_pg s') /\ pg_frame (6 * Z.to_nat (size / PAGE_SIZE)) lv lv' (vs_pg s) (PgState (pg_frames (vs_pg s')) (pg_trace (vs_pg s)) (pg_cr3 (vs_pg s'))) /\
    (forall a, translate 4 (pmem (vs_pg s')) sroot a = translate 4 (pmem (vs_pg s)) sroot a) /\
    (forall a, translate 4 (pmem (vs_pg s')) root a =
       if in_pages (size / PAGE_SIZE) addr a then recode nf (translate 4 (pmem (vs_pg s)) sroot a) else translate 4 (pmem (vs_pg s)) root a).
Proof.
  intros HI HK HN HC IP IS Hne HS Hin HT H1 Hs H2 Ma Ms Hnf HF.
  destruct (copy_reserve_spec B U vmm v L s p r src addr size nf HI HK HN HC Hin HT H1 Hs H2 Ma Ms) as
    (L1 & L2 & q & s1 & B' & U' & v' & La & Lb & EL & R1 & (G1 & G2 & G3 & G4 & G5 & G6) & M1 & I1 & EA & EB).
  assert (En : Z.to_nat ((size + PAGE_SIZE - 1) / PAGE_SIZE) = Z.to_nat (size / PAGE_SIZE)) by (clear -Hs Ms; unfold PAGE_SIZE in *; lia).
  assert (Esz : (2 ^ 64 - PAGE_SIZE <? size) = false).
  { destruct (vmm_inv_region _ _ _ _ _ _ _ _ HI Hin) as [[S0 _] _ E0 _ _]. clear -S0 E0 H1 H2 Ms. apply Z.ltb_ge. unfold PAGE_SIZE in *. lia. }
  rewrite <-G1 in IP, IS, HF.
  destruct (copy_loop_spec src sroot (paging_structure v) root nf Hne Hnf (Z.to_nat (size / PAGE_SIZE)) lv (vs_pg s1) addr) as
    (g & lv' & R2 & [IS' IP'] & Fr & TS & TD); [by split|clear -HF; unfold free_count in HF; unfold PAGE_SIZE in *; lia|].
  rewrite Z2Nat.id in TD by (clear -Hs; unfold PAGE_SIZE; lia).
  set (s2 := put pg_lens g s1). destruct (flush_pages_run (pages size) addr s2) as [tr R3]. set (s3 := put pg_lens _ s2) in *.
  destruct (shootdown_run_idle addr size s3) as (d & R4 & Hd); [by unfold shootdown_completes; cbn; rewrite G2|done|]. set (s4 := put shootdown_lens d s3) in *.
  assert (I4 : vmm_inv B' U' vmm v' ((L1 ++ La) ++ (q, MkRegion addr size 0 0 VM_TYPE_MEMORY_MAPPING) :: Lb ++ L2) s4) by (by apply vmm_inv_sd, vmm_inv_pg, vmm_inv_pg).
  assert (HN' : vmm_lock v' = false) by (unfold moved_head in M1; by rewrite M1).
  exists L1, L2, q, s4, B', U', v', La, Lb, lv'. split_and!; try done.
  - rewrite R1. rewrite (bind_ok _ _ s1 tt s2) by (apply on_paging_run; unfold copy_paging_structure_mapping_no_page_invalidation; by rewrite Esz, En).
    rewrite (bind_ok _ _ _ _ _ R3), (bind_ok _ _ _ _ _ R4).
    rewrite (bind_ok _ _ _ _ _ (acquire_vmm_run _ _ _ (vi_vmm _ _ _ _ _ _ I4) HN')), (bind_ok _ _ _ _ _ (release_vmm_run _ _ _)).
    by rewrite (unlocked_locked _ _ _ (vi_vmm _ _ _ _ _ _ I4) HN').
  - intros E. cbn. rewrite Hd by (cbn; by rewrite G2). exact G2.
  - by apply pg_inv_trace.
  - by apply pg_inv_trace.
  - rewrite <-G1. destruct Fr as (A1 & A2 & A3 & A4 & A5 & A6 & A7). by split_and!.
  - intros a. rewrite <-G1. exact (TS a).
  - intros a. rewrite <-G1. exact (TD a).
Qed.
End load.
