(* ===== verification/VmmFree.v ===== *)
(** * The virtual memory manager: regions given back

    [deallocate_kernel_virtual_memory] returns the frames of a region to the
    allocator, makes its pages not present, marks the region free and merges it
    with the free regions around it. *)

From S2P Require Import Prelude Memory Sync Interfaces Paging PagingInv PagingTop Vmm VmmInv VmmCut VmmMap VmmOps VmmTop.
Import Sequential.

(** ** One page *)

Section page.
Context {F : Type} {FP : FrameProvider F} {FL : FrameLaws F} {FR : FrameReturn F}.
Implicit Types (s : pg_state F) (lv : gmap Z nat).

(** A mapping with its present bit cleared. *)
Definition cleared (st : PagingMapState) : PagingMapState := MkMapState (paddr st) (Z.ldiff (flags st) PAGE_PRESENT) false.

(** A frame that is no table is given back: the tables do not change. *)
Lemma dealloc_frame_pg lv ps root s f T :
  pg_inv lv ps root s -> fp_taken (pg_frames s) (f :: T) -> lv !! f = None -> f <> ps ->
  exists s', dealloc_frame f s = Ok (tt, s') /\ pg_inv lv ps root s' /\ fp_taken (pg_frames s') T /\
    fp_free (pg_frames s') ≡ₚ f :: fp_free (pg_frames s) /\
    (forall g, fp_owned (pg_frames s') g <-> g <> f /\ fp_owned (pg_frames s) g) /\
    (forall v', translate 4 (pmem s') root v' = translate 4 (pmem s) root v').
Proof.
  intros [HO HT HW HR (Hp1 & Hp2 & Hp3) Hpr] HK Hf Hps.
  destruct (fp_dealloc_ok _ f T HO HK) as (fs & R & HO' & HK' & HP & Hown & Hm).
  set (s' := put frames_lens fs s).
  assert (HE : forall g j i, lv !! g = Some j -> 0 <= i < 512 -> load64 (pmem s') (g + 8 * i) = load64 (pmem s) (g + 8 * i)).
  { intros g j i Hg Hi. apply (Hm g); [by eapply HW|lia|unfold PAGE_SIZE; lia]. }
  exists s'. split_and!; [|split|done|done|done|].
  - unfold dealloc_frame, zoom. cbn [view frames_lens]. by rewrite R.
  - exact HO'.
  - destruct HT as [T1 T2 T3]. split; [done| |].
    + intros g k i Hg Hi. rewrite (HE g _ i Hg Hi). by apply T2.
    + intros g k i g' k' i' Hg Hg' Hi Hi'. rewrite (HE g _ i Hg Hi), (HE g' _ i' Hg' Hi'). by apply (T3 g k i g' k' i').
  - intros g k Hg. apply Hown. split; [intros ->; congruence|by eapply HW].
  - exact HR.
  - split_and!; [apply Hown; by split|done..].
  - rewrite <-Hpr. apply (Hm ps); [done|lia|unfold PAGE_SIZE; lia].
  - intros v'. by apply (translate_agree lv).
Qed.

(** A mapped page is made not present: no table is needed. *)
Lemma invalidate_mapped lv ps root s v T :
  pg_inv lv ps root s -> mmap_present (translate 4 (pmem s) root v) = true -> fp_taken (pg_frames s) T ->
  exists s', invalidate_paging_mapping ps v s = Ok (tt, s') /\ pg_inv lv ps root s' /\ fp_taken (pg_frames s') T /\
    fp_free (pg_frames s') = fp_free (pg_frames s) /\
    (forall g, fp_owned (pg_frames s') g <-> fp_owned (pg_frames s) g) /\
    pg_trace s' = Invlpg v :: pg_trace s /\
    (forall v', translate 4 (pmem s') root v' =
       if decide (page_number v' = page_number v) then cleared (translate 4 (pmem s) root v') else translate 4 (pmem s) root v').
Proof.
  intros I Hp HK.
  assert (HC : table_cost root v s = 0%nat) by (by apply (mapped_table_cost root v v)).
  destruct (leaf 4 (pmem s) root v) as [pt|] eqn:HL; [|unfold table_cost in HC; by rewrite HL in HC].
  assert (RW : unsync_get_page_table_entry root v s = Ok (pt + 8 * table_index 1 v, s)) by (by apply walk_present).
  assert (Et : decode_entry (load64 (pmem s) (pt + 8 * table_index 1 v)) = translate 4 (pmem s) root v).
  { destruct (translate_leaf 4 (pmem s) root v) as [->|]; [by rewrite HL|done]. }
  set (old := load64 (pmem s) (pt + 8 * table_index 1 v)) in *.
  destruct (clear_present old (load64_range _ _)) as [He Ec]. set (e := Z.land old _) in *.
  destruct (write_entry_spec lv ps root s v pt e I HL He) as (I2 & _ & HT2 & _).
  assert (Hpt : lv !! pt = Some 1%nat) by (apply (leaf_level lv (pmem s) 3 root v pt (pi_tables _ _ _ _ I) (pi_root _ _ _ _ I) HL)).
  destruct (tk_frame _ _ (pi_tables _ _ _ _ I) _ _ Hpt) as (Ha & _). pose proof (table_index_range 1 v) as Hi.
  assert (HA : agree_outside pt (pt + PAGE_SIZE) (pmem s) (store64 (pmem s) (pt + 8 * table_index 1 v) e)).
  { apply agree_outside_store; [lia|unfold PAGE_SIZE; lia|apply agree_outside_refl]. }
  pose proof (pi_owned _ _ _ _ I _ _ Hpt) as Hown.
  destruct (set_pmem_owned s pt _ (pi_ok _ _ _ _ I) Hown HA) as (_ & HF2 & Hown2).
  set (s2 := set_pmem _ s) in *.
  exists (PgState (pg_frames s2) (Invlpg v :: pg_trace s2) (pg_cr3 s2)). split_and!.
  - unfold invalidate_paging_mapping, get_raw_paging_structure.
    rewrite (bind_ok _ _ _ root s) by (unfold pread, gets; by rewrite (pi_ps_root _ _ _ _ I)).
    rewrite (bind_ok _ _ _ _ _ RW). reflexivity.
  - split; apply I2.
  - by apply (fp_write_taken _ _ pt).
  - exact HF2.
  - exact Hown2.
  - done.
  - intros v'. change (translate 4 (pmem s2) root v' = if decide (page_number v' = page_number v)
      then cleared (translate 4 (pmem s) root v') else translate 4 (pmem s) root v').
    rewrite HT2. case_decide as Hpg; [|done]. rewrite Ec, Et. by rewrite (same_page_translate (pmem s) root v v').
Qed.

End page.

(** ** The pages of a region *)

Section pages.
Context {F H D : Type} {FP : FrameProvider F} {HP : HeapProvider H} {SP : ShootdownProvider D}.
Context {FL : FrameLaws F} {FR : FrameReturn F}.
Implicit Types (s : vmm_state F H D) (g : pg_state F).

(** The pages from [v] on are mapped to the frames of [fs]. *)
Definition backed (root v : Z) (fs : list Z) g : Prop :=
  forall v' f, fs !! Z.to_nat (page_index v v') = Some f -> exists fl, translate 4 (pmem g) root v' = MkMapState f fl true.

(** The frames of [fs] are free again, and the pages from [v] on not present. *)
Record given_back (root v : Z) (fs : list Z) (g g' : pg_state F) : Prop := {
  gb_free : fp_free (pg_frames g') ≡ₚ fs ++ fp_free (pg_frames g);
  gb_owned : forall x, fp_owned (pg_frames g') x <-> (x ∉ fs) /\ fp_owned (pg_frames g) x;
  gb_pages : forall v', translate 4 (pmem g') root v' =
    if decide (page_index v v' < Z.of_nat (length fs)) then cleared (translate 4 (pmem g) root v') else translate 4 (pmem g) root v'
}.

Lemma backed_next root v f fs g g' :
  Z.of_nat (length (f :: fs)) <= 2 ^ 36 -> backed root v (f :: fs) g ->
  (forall v', page_number v' <> page_number v -> translate 4 (pmem g') root v' = translate 4 (pmem g) root v') ->
  backed root (wrap64 (v + PAGE_SIZE)) fs g'.
Proof.
  intros Hn HB HT v' f' Hf. pose proof (page_index_range v v') as Hr. pose proof (page_index_zero v v') as Hz. rewrite page_index_next in Hf. cbn [length] in Hn.
  case_decide as Hpg.
  - apply lookup_lt_Some in Hf. lia.
  - rewrite HT by done. apply HB. assert (page_index v v' <> 0) by tauto.
    replace (Z.to_nat (page_index v v')) with (S (Z.to_nat (page_index v v' - 1))) by lia. exact Hf.
Qed.

Lemma unmap_pages_spec fs lv vmm vm root s desc d v T :
  vs_vmms s !! vmm = Some vm -> vs_descs s !! desc = Some d -> owns_frames (type d) = true ->
  pg_inv lv (paging_structure vm) root (vs_pg s) -> fp_taken (pg_frames (vs_pg s)) (fs ++ T) ->
  (forall f, f ∈ fs -> lv !! f = None /\ f <> paging_structure vm) -> backed root v fs (vs_pg s) -> Z.of_nat (length fs) <= 2 ^ 36 ->
  exists g', unmap_pages (length fs) vmm desc v s = Ok (tt, put pg_lens g' s) /\
    pg_inv lv (paging_structure vm) root g' /\ fp_taken (pg_frames g') T /\ given_back root v fs (vs_pg s) g'.
Proof.
  revert s v. induction fs as [|f fs IH]; intros s v Hv Hd Ho I HK Hf HB Hn.
  { exists (vs_pg s). split_and!; [cbn; by destruct s|done|done|]. split; [done|set_solver|].
    intros v'. pose proof (page_index_range v v'). rewrite decide_False by (cbn; lia). done. }
  destruct (HB v f) as [fl Et].
  { rewrite (proj2 (page_index_zero v v) eq_refl). done. }
  destruct (Hf f (list_elem_of_here _ _)) as [Hf1 Hf2].
  destruct (dealloc_frame_pg lv _ root (vs_pg s) f (fs ++ T) I HK Hf1 Hf2) as (g1 & R1 & I1 & K1 & F1 & O1 & T1).
  destruct (invalidate_mapped lv _ root g1 v (fs ++ T) I1) as (g2 & R2 & I2 & K2 & F2 & O2 & _ & T2); [by rewrite T1, Et|done|].
  set (s2 := put pg_lens g2 s).
  destruct (IH s2 (wrap64 (v + PAGE_SIZE))) as (g3 & R3 & I3 & K3 & [G1 G2 G3]); [done..| | |cbn [length] in Hn; lia|].
  { intros x Hx. apply Hf. by apply list_elem_of_further. }
  { eapply backed_next; [exact Hn|exact HB|]. intros v' Hne. change (vs_pg s2) with g2. rewrite T2, decide_False by done. apply T1. }
  exists g3. split_and!; [|done|done|split].
  - cbn [length unmap_pages]. rewrite (bind_ok _ _ _ vm s) by (unfold read_vmm; by rewrite Hv).
    rewrite (bind_ok _ _ _ d s) by (unfold read_desc; by rewrite Hd). rewrite Ho. cbn [when].
    rewrite (bind_ok _ _ _ tt (put pg_lens g1 s)).
    2: { rewrite (bind_ok _ _ _ _ _ (on_paging_run _ _ _ _ (get_physical_address_run lv _ root (vs_pg s) v I))). rewrite Et. cbn [mmap_present when paddr].
         apply (on_paging_run _ (put pg_lens (vs_pg s) s)). exact R1. }
    rewrite (bind_ok _ _ _ tt s2) by (by apply (on_paging_run _ (put pg_lens g1 s))). exact R3.
  - rewrite G1. change (vs_pg s2) with g2. rewrite F2, F1. solve_Permutation.
  - intros x. rewrite G2. change (vs_pg s2) with g2. rewrite O2, O1, not_elem_of_cons. tauto.
  - intros v'. rewrite G3. change (vs_pg s2) with g2. rewrite T2, page_index_next.
    pose proof (page_index_range v v') as Hr. pose proof (page_index_zero v v') as Hz. cbn [length] in *.
    destruct (decide (page_number v' = page_number v)) as [Hpg|Hpg].
    + rewrite (decide_False (P := 2 ^ 36 - 1 < Z.of_nat (length fs))) by lia. rewrite (proj2 Hz Hpg), decide_True by lia. by rewrite T1.
    + assert (page_index v v' <> 0) by tauto. rewrite T1. destruct (decide (page_index v v' < Z.of_nat (S (length fs)))).
      * by rewrite decide_True by lia.
      * by rewrite decide_False by lia.
Qed.

End pages.

(** ** Merging free regions *)

Implicit Types (m : store) (L : rlist).

(** The free type of a region is decided by the half of the space it is in. *)
Definition free_type_at (a : Z) : VirtualMemoryType := if a <? IDENTITY_MAP_VMEM_END then VM_TYPE_IDENTITY_MAP_FREE else VM_TYPE_FREE.

Definition zoned (r : region) : Prop := is_free_type (r_type r) = true -> r_type r = free_type_at (r_start r).

(** Neighbours of the same half touch. *)
Fixpoint gapless (rs : list region) : Prop :=
  match rs with
  | a :: (b :: _) as rs' => (free_type_at (r_start a) = free_type_at (r_start b) -> r_end a = r_start b) /\ gapless rs'
  | _ => True
  end.

Definition whole (rs : list region) : Prop := gapless rs /\ Forall zoned rs.

(** The regions of type [ft] at the start of a list, and the bytes of some regions. *)
Fixpoint free_run (ft : VirtualMemoryType) L : rlist :=
  match L with
  | x :: L' => if bool_decide (r_type x.2 = ft) then x :: free_run ft L' else []
  | [] => []
  end.
Definition after_run (ft : VirtualMemoryType) L : rlist := drop (length (free_run ft L)) L.
Definition bytes_of L : Z := foldr (fun x n => r_size x.2 + n) 0 L.

Lemma run_split ft L : L = free_run ft L ++ after_run ft L.
Proof.
  unfold after_run. induction L as [|x L IH]; [done|]. cbn [free_run]. case_bool_decide; [|done]. cbn [length drop app]. by f_equal.
Qed.
Lemma run_type ft L x : x ∈ free_run ft L -> r_type x.2 = ft.
Proof.
  induction L as [|y L IH]; [by intros ?%elem_of_nil|]. cbn [free_run]. case_bool_decide; [|by intros ?%elem_of_nil].
  intros [->|Hx]%elem_of_cons; auto.
Qed.
Lemma after_run_head ft L x L' : after_run ft L = x :: L' -> r_type x.2 <> ft.
Proof.
  unfold after_run. induction L as [|y L IH]; [done|]. cbn [free_run]. case_bool_decide; cbn [length drop]; [done|]. by intros [= <- _].
Qed.

(** [rq] together with the free regions that follow it. *)
Definition absorb (ft : VirtualMemoryType) (q : Z) (rq : region) L : rlist :=
  (q, MkRegion (r_start rq) (r_size rq + bytes_of (free_run ft L)) 0 0 ft) :: after_run ft L.

(** The list after the region [r] at [p] was given back. *)
Definition freed_list L1 (p : Z) (r : region) L2 : rlist :=
  let ft := free_type_at (r_start r) in
  let r0 := MkRegion (r_start r) (r_size r) 0 0 ft in
  match last L1 with
  | Some (q, rq) => if bool_decide (r_type rq = ft) then take (length L1 - 1) L1 ++ absorb ft q rq ((p, r0) :: L2) else L1 ++ absorb ft p r0 L2
  | None => L1 ++ absorb ft p r0 L2
  end.

Lemma free_type_at_free a : is_free_type (free_type_at a) = true.
Proof. unfold free_type_at. by destruct (_ <? _). Qed.

Lemma gapless_app rs1 rs2 : gapless (rs1 ++ rs2) -> gapless rs1 /\ gapless rs2.
Proof.
  induction rs1 as [|a rs1 IH]; [done|]. destruct rs1 as [|b rs1]; cbn [app gapless] in *.
  - intros HG. split; [done|]. destruct rs2 as [|c rs2]; [done|]. apply HG.
  - intros [H1 H2]. destruct (IH H2) as [H3 H4]. done.
Qed.

(** The free regions from [a] on are consecutive. *)
Lemma run_end ft (a : region) L :
  whole (a :: (snd <$> L)) -> r_type a = ft -> is_free_type ft = true ->
  foldl (fun _ x => r_end x) (r_end a) (snd <$> free_run ft L) = r_end a + bytes_of (free_run ft L).
Proof.
  intros HW Ha Hft. revert a HW Ha. induction L as [|[p b] L IH]; intros a [HG HZ] Ha; [cbn; lia|]. cbn [free_run]. case_bool_decide as Hb; [|cbn; lia].
  cbn [snd] in Hb. cbn [fmap list_fmap snd gapless] in HG, HZ. apply Forall_cons in HZ as [HZa HZ]. destruct HG as [HG1 HG2].
  cbn [bytes_of foldr fmap list_fmap foldl snd]. fold (bytes_of (free_run ft L)).
  fold (snd <$> free_run ft L). rewrite (IH b); [|by split|done].
  assert (E : r_end a = r_start b); [|unfold r_end in *; lia]. apply HG1. apply Forall_cons in HZ as [HZb _]. rewrite <-HZa, <-HZb by congruence. congruence.
Qed.

Lemma gapless_prefix rs a a' rest rest' :
  gapless (rs ++ a :: rest) -> gapless (a' :: rest') -> r_start a' = r_start a -> gapless (rs ++ a' :: rest').
Proof.
  intros HG HG' E. induction rs as [|b rs IH]; [done|]. destruct rs as [|c rs]; cbn [app gapless] in *; destruct HG as [H1 H2].
  - split; [by rewrite E|done].
  - split; [done|by apply IH].
Qed.

(** Absorbing the free regions that follow leaves no gap. *)
Lemma whole_absorb ft (a : region) L :
  whole (a :: (snd <$> L)) -> r_type a = ft -> is_free_type ft = true ->
  whole (MkRegion (r_start a) (r_size a + bytes_of (free_run ft L)) 0 0 ft :: (snd <$> after_run ft L)).
Proof.
  intros HW Ha Hft. assert (Hz : ft = free_type_at (r_start a)).
  { destruct HW as [_ [HZ _]%Forall_cons]. rewrite <-Ha. apply HZ. by rewrite Ha. }
  unfold after_run. revert a HW Ha Hz. induction L as [|[p b] L IH]; intros a [HG HZ] Ha Hz.
  - split; [done|]. apply Forall_cons. split; [intros _; exact Hz|done].
  - cbn [fmap list_fmap snd gapless] in HG, HZ. destruct HG as [HG1 HG2]. apply Forall_cons in HZ as [HZa HZ]. cbn [free_run]. case_bool_decide as Hb.
    + cbn [snd] in Hb. assert (Hzb : ft = free_type_at (r_start b)). { apply Forall_cons in HZ as [HZb _]. rewrite <-Hb. apply HZb. by rewrite Hb. }
      cbn [length drop bytes_of foldr snd]. fold (bytes_of (free_run ft L)). rewrite Z.add_assoc.
      apply (IH (MkRegion (r_start a) (r_size a + r_size b) 0 0 ft)); [|done|done]. apply Forall_cons in HZ as [HZb HZ]. split.
      * destruct (snd <$> L) as [|c rs]; [done|]. cbn [gapless r_start] in HG2 |- *. destruct HG2 as [HG2 HG3]. split; [|done]. intros E.
        assert (r_end a = r_start b) by (apply HG1; congruence). rewrite <-HG2 by congruence. unfold r_end in *. cbn [r_start r_size]. lia.
      * apply Forall_cons. split; [intros _; exact Hz|done].
    + cbn [length drop bytes_of foldr snd fmap list_fmap]. rewrite Z.add_0_r. split; [|apply Forall_cons; split; [intros _; exact Hz|done]]. cbn [gapless]. split; [|exact HG2]. exact HG1.
Qed.

Lemma ordered_bytes lo L :
  ordered lo (snd <$> L) -> lo < 2 ^ 64 ->
  0 <= bytes_of L /\ bytes_of L mod PAGE_SIZE = 0 /\ foldl (fun _ x => r_end x) lo (snd <$> L) < 2 ^ 64 /\ (forall x, x ∈ L -> 0 <= r_size x.2).
Proof.
  revert lo. induction L as [|[p r] L IH]; intros lo; [intros _ Hlo; split_and!; [done|done|exact Hlo|by intros x ?%elem_of_nil]|].
  cbn [fmap list_fmap snd ordered bytes_of foldr foldl]. fold (bytes_of L). intros (_ & [_ (Z1 & Z2) E1 _ _] & HO) _.
  destruct (IH _ HO E1) as (H1 & H2 & H3 & H4). split_and!; [lia| |exact H3|].
  - rewrite Z.add_mod by done. by rewrite Z2, H2.
  - intros x [->|Hx]%elem_of_cons; [cbn; lia|by apply H4].
Qed.

(** The free addresses of a list. *)
Definition in_region (r : region) (a : Z) : Prop := r_start r <= a < r_end r.
Definition free_at L (a : Z) : Prop := exists x, x ∈ L /\ is_free_type (r_type x.2) = true /\ in_region x.2 a.

Lemma free_at_app L1 L2 a : free_at (L1 ++ L2) a <-> free_at L1 a \/ free_at L2 a.
Proof. unfold free_at. setoid_rewrite elem_of_app. naive_solver. Qed.
Lemma free_at_cons x L a : free_at (x :: L) a <-> is_free_type (r_type x.2) = true /\ in_region x.2 a \/ free_at L a.
Proof. unfold free_at. setoid_rewrite elem_of_cons. naive_solver. Qed.

(** Absorbing changes no free address. *)
Lemma absorb_free_at ft q (b : region) L a lo :
  whole (b :: (snd <$> L)) -> ordered lo (b :: (snd <$> L)) -> r_type b = ft -> is_free_type ft = true ->
  free_at (absorb ft q b L) a <-> free_at ((q, b) :: L) a.
Proof.
  intros HW HO Ht Hft. unfold absorb. rewrite !free_at_cons. cbn [snd r_type]. rewrite Ht, Hft.
  rewrite (run_split ft L) at 3. rewrite free_at_app.
  assert (HE : in_region (MkRegion (r_start b) (r_size b + bytes_of (free_run ft L)) 0 0 ft) a <-> in_region b a \/ free_at (free_run ft L) a); [|tauto].
  revert b lo HW HO Ht. induction L as [|[p c] L IH]; intros b lo [HG HZ] HO Ht.
  - cbn [free_run bytes_of foldr]. unfold in_region, r_end, free_at. cbn [r_start r_size]. rewrite Z.add_0_r. split; [by left|]. intros [?|(x & Hx & _)]; [done|by apply elem_of_nil in Hx].
  - cbn [free_run snd]. case_bool_decide as Hc.
    + cbn [fmap list_fmap snd] in HG, HZ, HO. destruct HG as [HG1 HG2]. apply Forall_cons in HZ as [HZb HZ]. destruct HO as (_ & Hokb & HO).
      rewrite free_at_cons. cbn [snd]. rewrite Hc, Hft. destruct (IH c (r_end b)) as [I1 I2]; [by split|exact HO|done|].
      assert (E : r_end b = r_start c). { apply HG1. apply Forall_cons in HZ as [HZc _]. rewrite <-HZb, <-HZc by congruence. congruence. }
      destruct HO as (_ & [_ (Zc & _) _ _ _] & HO'). destruct Hokb as [_ (Zb & _) Eb _ _].
      assert (0 <= bytes_of (free_run ft L)).
      { rewrite (run_split ft L), fmap_app in HO'. apply ordered_app in HO' as [HO' _]. clear -HO'. revert HO'. generalize (r_end c). induction (free_run ft L) as [|[x y] R IHR]; intros lo HO; [done|].
        destruct HO as (_ & [_ (Zy & _) _ _ _] & HO). cbn [bytes_of foldr snd]. fold (bytes_of R). specialize (IHR _ HO). cbn [snd] in Zy. lia. }
      unfold in_region, r_end in *. cbn [r_start r_size bytes_of foldr snd] in *. fold (bytes_of (free_run ft L)) in *. split.
      * intros Ha. destruct (decide (a < r_start b + r_size b)); [left; lia|right]. destruct I1 as [?|?]; [lia|left; split; [done|lia]|by right].
      * intros [Ha|[[_ Ha]|Ha]]; [lia|lia|]. specialize (I2 (or_intror Ha)). lia.
    + cbn [bytes_of foldr]. unfold in_region, r_end, free_at. cbn [r_start r_size]. rewrite Z.add_0_r. split; [by left|]. intros [?|(x & Hx & _)]; [done|by apply elem_of_nil in Hx].
Qed.

(** The regions in use. *)
Definition in_use L : list region := filter (fun r => is_free_type (r_type r) = false) (snd <$> L).

Lemma absorb_in_use ft q b L : r_type b = ft -> is_free_type ft = true -> in_use (absorb ft q b L) = in_use ((q, b) :: L).
Proof.
  intros Ht Hft. unfold in_use, absorb. cbn [fmap list_fmap snd]. rewrite !filter_cons_False by (cbn; congruence).
  rewrite (run_split ft L) at 2. fold (snd <$> after_run ft L). rewrite (fmap_app snd), filter_app.
  assert (E : filter (fun r : region => is_free_type (r_type r) = false) (snd <$> free_run ft L) = []); [|by rewrite E].
  assert (HR : forall x, x ∈ free_run ft L -> r_type x.2 = ft) by apply run_type. clear -HR Hft. induction (free_run ft L) as [|x R IH]; [done|].
  cbn [fmap list_fmap]. rewrite filter_cons_False; [apply IH; set_solver|]. rewrite (HR x (list_elem_of_here _ _)). congruence.
Qed.

(** The descriptors left when those of [Lr] are dropped. *)
Lemma ptrs_dropped La q (rq r' : region) Lr L3 :
  NoDup (ptrs (La ++ (q, rq) :: Lr ++ L3)) ->
  NoDup (ptrs (La ++ (q, r') :: L3)) /\ NoDup (ptrs (Lr ++ L3)) /\ (q ∉ ptrs Lr) /\
  (forall x, x ∈ ptrs Lr -> x ∈ ptrs (La ++ (q, rq) :: Lr ++ L3)) /\
  (forall x, x ∈ ptrs (La ++ (q, r') :: L3) -> x ∈ ptrs (La ++ (q, rq) :: Lr ++ L3) /\ x ∉ ptrs Lr).
Proof.
  unfold ptrs. rewrite !fmap_app, !fmap_cons, !fmap_app. cbn [fst]. generalize (fst <$> La), (fst <$> Lr), (fst <$> L3). clear.
  intros A R C. rewrite !NoDup_app, !NoDup_cons, !NoDup_app. intros (N1 & N2 & N3 & N4 & N5 & N6). split_and!; [done|set_solver|set_solver|done|done|done|done|set_solver|set_solver|].
  intros x Hx. split; [set_solver|]. apply elem_of_app in Hx as [Hx|[->|Hx]%elem_of_cons]; set_solver.
Qed.

(** The store after the descriptors of [Lr] between [q] and [L3] were dropped. *)
Lemma dseg_merge m m' La q rq Lr L3 d' r' :
  dseg m NULL (La ++ (q, rq) :: Lr ++ L3) NULL -> NoDup (ptrs (La ++ (q, rq) :: Lr ++ L3)) ->
  (forall x, x ∉ ptrs Lr -> m' !! x = m !! x) ->
  region_of d' = r' -> prev d' = last_ptr NULL La -> next d' = first_ptr L3 NULL ->
  dseg (upd_prev (first_ptr L3 NULL) q (<[q := d']> m')) NULL (La ++ (q, r') :: L3) NULL.
Proof.
  intros HD ND HM HR Hp Hn. apply vdseg_app in HD as [HD1 (Hqn & _ & HD2)]. apply vdseg_app in HD2 as [_ HD3].
  unfold ptrs in ND. rewrite fmap_app, fmap_cons, fmap_app in ND. cbn [fst] in ND.
  apply NoDup_app in ND as (ND1 & Hdis & [Hq ND2]%NoDup_cons). apply NoDup_app in ND2 as (NDr & Hdr & ND3).
  fold (ptrs La) in *. fold (ptrs Lr) in *. fold (ptrs L3) in *.
  assert (H13 : forall x, x ∈ ptrs La -> x <> first_ptr L3 NULL).
  { intros x Hx ->. destruct (first_ptr_in L3) as [E|Hin].
    - rewrite E in Hx. by apply (dseg_nonnull _ _ _ _ _ HD1) in Hx.
    - apply (Hdis _ Hx). set_solver. }
  assert (Hq3 : q <> first_ptr L3 NULL).
  { destruct (first_ptr_in L3) as [->|Hin]; [done|]. intros ->. apply Hq. set_solver. }
  apply vdseg_app. split; [|cbn [dseg first_ptr]; split_and!].
  - cbn [first_ptr]. eapply dseg_frame; [|exact HD1]. intros x Hx. rewrite upd_prev_ne by (by apply H13).
    rewrite lookup_insert_ne by (intros ->; apply (Hdis x Hx); set_solver). apply HM. intros Hr. apply (Hdis x Hx). set_solver.
  - done.
  - exists d'. rewrite upd_prev_ne by done. rewrite lookup_insert_eq. done.
  - apply (dseg_upd_prev _ (last_ptr q Lr)); [done|]. apply dseg_insert; [set_solver|]. eapply dseg_frame; [|exact HD3].
    intros x Hx. apply HM. intros Hr. by apply (Hdr x Hr).
Qed.

Section merge.
Context {F H D : Type} {FP : FrameProvider F} {HP : HeapProvider H} {SP : ShootdownProvider D}.
Context {HL : HeapLaws H}.
Implicit Types (s : vmm_state F H D).

(** Descriptors marked as blocks of the heap are. *)
Definition heap_marks (B : gmap Z Z) (P : list Z) s : Prop :=
  forall x d, x ∈ P -> vs_descs s !! x = Some d -> is_from_heap d = true -> is_Some (B !! x).

Definition from_heap s (x : Z) : Prop := exists d, vs_descs s !! x = Some d /\ is_from_heap d = true.

(** The descriptors of [Q] that the heap gave are given back to it, and no other
    block is. *)
Record released (Q : list Z) (B : gmap Z Z) s (B' : gmap Z Z) s' : Prop := {
  rl_gone : forall x, x ∈ Q -> from_heap s x -> B' !! x = None /\ vs_descs s' !! x = None;
  rl_kept : forall x, ~ (x ∈ Q /\ from_heap s x) -> B' !! x = B !! x
}.

Lemma upd_prev_none p q (m : gmap Z VirtualMemoryDescriptor) x : m !! x = None -> upd_prev p q m !! x = None.
Proof. intros E. unfold upd_prev. destruct (p =? NULL); [done|]. by apply lookup_alter_None. Qed.

Lemma released_nil B s s' : released [] B s B s'.
Proof. split; [by intros x ?%elem_of_nil|done]. Qed.

Lemma released_cons p Q B s B1 s1 B' s' :
  p ∉ Q -> released [p] B s B1 s1 -> released Q B1 s1 B' s' ->
  (forall x, x <> p -> vs_descs s1 !! x = vs_descs s !! x) -> (forall x, x ∉ Q -> vs_descs s' !! x = vs_descs s1 !! x) ->
  released (p :: Q) B s B' s'.
Proof.
  intros Hp [G1 K1] [G2 K2] E1 E2.
  assert (HH : forall x, x <> p -> from_heap s1 x <-> from_heap s x) by (intros x Hx; unfold from_heap; by rewrite E1).
  split.
  - intros x [->|Hx]%elem_of_cons Hh.
    + rewrite E2, K2 by (try done; by intros [? _]). apply G1; [by apply list_elem_of_singleton|done].
    + assert (Hne : x <> p) by (by intros ->). apply G2; [done|]. by apply HH.
  - intros x Hn. destruct (decide (x = p)) as [->|Hne].
    + rewrite K2 by (by intros [? _]). apply K1. intros [_ Hh]. apply Hn. split; [apply list_elem_of_here|done].
    + rewrite K2, K1; [done|by intros [->%list_elem_of_singleton _]|]. intros [Hx Hh]. apply Hn. split; [by right|by apply HH].
Qed.

Lemma deallocate_desc_spec B U s p d :
  desc_pool B U s -> vs_descs s !! p = Some d -> (is_from_heap d = true -> is_Some (B !! p)) ->
  exists s' B', deallocate_vmm_descriptor p s = Ok (tt, s') /\ keeps s s' /\
    (forall x, x <> p -> vs_descs s' !! x = vs_descs s !! x /\ B' !! x = B !! x) /\ released [p] B s B' s' /\
    (forall U', (forall x, x ∈ U' -> x ∈ U /\ x <> p) -> desc_pool B' U' s').
Proof.
  intros [HB HN HU HH] Hd Hm. unfold deallocate_vmm_descriptor.
  rewrite (bind_ok _ _ _ d s) by (unfold read_desc; by rewrite Hd). destruct (is_from_heap d) eqn:Eh; cbn [when].
  - destruct (Hm eq_refl) as [k Hk]. destruct (is_kheap_initialzed (vs_heap s)) eqn:EI; [|subst B; done]. destruct HH as [HI HS].
    destruct (hp_kfree_ok _ _ _ _ HI Hk) as (h & R & HI' & EI').
    exists (set_descs (delete p (vs_descs s)) (put kheap_lens h s)), (delete p B). split_and!.
    + rewrite (bind_ok _ _ _ tt (put kheap_lens h s)) by (unfold zoom; cbn [view kheap_lens]; by rewrite R). done.
    + by split_and!.
    + intros x Hx. cbn. by rewrite !lookup_delete_ne by done.
    + split.
      * intros x ->%list_elem_of_singleton _. cbn. by rewrite !lookup_delete_eq.
      * intros x Hn. apply lookup_delete_ne. intros <-. apply Hn. split; [by apply list_elem_of_singleton|by exists d].
    + intros U' HU'. split; cbn; [done|done| |].
      * intros x Hx. destruct (HU' x Hx) as [Hx1 Hx2]. destruct (HU x Hx1) as [?|(j & Hj)]; [by left|right]. exists j. by rewrite lookup_delete_ne.
      * rewrite EI', EI. split; [exact HI'|exact HS].
  - exists s, B. split_and!; [done|apply vkeeps_refl|done| |].
    + split; [|done]. intros x ->%list_elem_of_singleton (d' & Hd' & Hh). congruence.
    + intros U' HU'. split; [done|done| |done]. intros x Hx. by apply HU, HU'.
Qed.

Lemma merge_free_spec fuel ft L3 Lr B U prv total s :
  dseg (vs_descs s) prv (Lr ++ L3) NULL -> NoDup (ptrs (Lr ++ L3)) ->
  (forall x, x ∈ Lr -> r_type x.2 = ft) -> (forall x L', L3 = x :: L' -> r_type x.2 <> ft) ->
  (length Lr < fuel)%nat -> desc_pool B U s -> heap_marks B (ptrs Lr) s -> 0 <= total ->
  (forall x, x ∈ Lr -> 0 <= r_size x.2) -> total + bytes_of Lr < 2 ^ 64 ->
  exists s' B', merge_free fuel ft (first_ptr (Lr ++ L3) NULL) total s = Ok ((first_ptr L3 NULL, total + bytes_of Lr), s') /\
    keeps s s' /\ (forall x, x ∉ ptrs Lr -> vs_descs s' !! x = vs_descs s !! x /\ B' !! x = B !! x) /\
    released (ptrs Lr) B s B' s' /\
    (forall U', (forall x, x ∈ U' -> x ∈ U /\ x ∉ ptrs Lr) -> desc_pool B' U' s').
Proof.
  revert fuel B U prv total s. induction Lr as [|[p r] Lr IH]; intros fuel B U prv total s HD ND HT H3 Hf HPl HM H0 Hz Hb.
  - destruct fuel as [|fuel]; [cbn in Hf; lia|]. exists s, B. cbn [bytes_of foldr app] in *. rewrite Z.add_0_r in *. split_and!; [|apply vkeeps_refl|done|apply released_nil|].
    + cbn [merge_free]. destruct L3 as [|[q z] L3]; [done|]. cbn [first_ptr].
      destruct HD as (Hq & (d & Hd & HR & _) & _). rewrite (proj2 (Z.eqb_neq q NULL)) by done.
      rewrite (bind_ok _ _ _ d s) by (unfold read_desc; by rewrite Hd).
      rewrite bool_decide_false; [done|]. specialize (H3 _ _ eq_refl). cbn in H3. by subst z.
    + intros U' HU'. destruct HPl as [P1 P2 P3 P4]. split; [done|done| |done]. intros x Hx. by apply P3, HU'.
  - destruct fuel as [|fuel]; [cbn in Hf; lia|]. cbn [app] in HD, ND. destruct HD as (Hp & (d & Hd & HR & Hpr & Hnx) & HD).
    unfold ptrs in ND. rewrite fmap_cons in ND. cbn [fst] in ND. apply NoDup_cons in ND as [Hpn ND]. fold (ptrs (Lr ++ L3)) in Hpn, ND.
    assert (Hin : p ∈ ptrs ((p, r) :: Lr)) by apply list_elem_of_here.
    destruct (deallocate_desc_spec B U s p d HPl Hd (HM p d Hin Hd)) as (s1 & B1 & R1 & K1 & E1 & G1 & P1).
    assert (Hsz : 0 <= r_size r) by (apply (Hz (p, r)), list_elem_of_here).
    assert (Hbs : 0 <= bytes_of Lr).
    { clear -Hz. induction Lr as [|x Lr IH]; [done|]. cbn [bytes_of foldr]. fold (bytes_of Lr). assert (0 <= r_size x.2) by (apply Hz; set_solver).
      assert (0 <= bytes_of Lr); [|lia]. apply IH. intros y Hy. apply Hz. set_solver. }
    cbn [bytes_of foldr snd] in Hb |- *. fold (bytes_of Lr) in Hb |- *.
    destruct (IH fuel B1 (filter (.≠ p) U) p (total + r_size r) s1) as (s' & B' & R & K & E & G & P).
    + eapply dseg_frame; [|exact HD]. intros x Hx. apply E1. intros ->. contradiction.
    + exact ND.
    + intros x Hx. apply HT. by apply list_elem_of_further.
    + exact H3.
    + cbn in Hf. lia.
    + apply P1. intros x Hx. apply list_elem_of_filter in Hx as [H1 H2]. done.
    + intros x d' Hx Hd' Hh. assert (Hxp : x <> p). { intros ->. apply Hpn. unfold ptrs. rewrite fmap_app. set_solver. }
      destruct (E1 x Hxp) as [E2 E3]. rewrite E2 in Hd'. rewrite E3. apply (HM x d'); [|done|done]. by apply list_elem_of_further.
    + lia.
    + intros x Hx. apply Hz. by apply list_elem_of_further.
    + lia.
    + exists s', B'. split_and!.
      * cbn [app first_ptr merge_free]. rewrite (proj2 (Z.eqb_neq p NULL)) by done. rewrite (bind_ok _ _ _ d s) by (unfold read_desc; by rewrite Hd).
        assert (type d = ft) as ->. { assert (Ht : r_type r = ft) by (apply (HT (p, r)), list_elem_of_here). by subst r. }
        rewrite bool_decide_true by done. cbn [negb]. rewrite (bind_ok _ _ _ _ _ R1), Hnx.
        assert (size_bytes d = r_size r) as -> by (by subst r). rewrite wrap64_small by lia. rewrite R. by rewrite Z.add_assoc.
      * by eapply vkeeps_trans.
      * intros x Hx. unfold ptrs in Hx. rewrite fmap_cons in Hx. cbn [fst] in Hx. apply not_elem_of_cons in Hx as [H1 H2]. destruct (E x H2) as [-> ->]. by apply E1.
      * unfold ptrs. rewrite fmap_cons. cbn [fst]. eapply released_cons; [|exact G1|exact G|intros x Hx; by apply E1|intros x Hx; by apply E].
        intros Hx. apply Hpn. unfold ptrs in *. rewrite fmap_app. set_solver.
      * intros U' HU'. apply P. intros x Hx. destruct (HU' x Hx) as [H1 H2]. unfold ptrs in H2. rewrite fmap_cons in H2. cbn [fst] in H2.
        apply not_elem_of_cons in H2 as [H2 H4]. split; [|done]. apply list_elem_of_filter. done.
Qed.

(** The end of the deallocation: the region at [q] absorbs the free ones after it. *)
Lemma merge_at B U vmm v La q rq Lb s ft :
  vmm_inv B U vmm v (La ++ (q, rq) :: Lb) s -> whole (snd <$> (La ++ (q, rq) :: Lb)) -> r_type rq = ft -> is_free_type ft = true ->
  heap_marks B (ptrs (La ++ (q, rq) :: Lb)) s -> Lb <> [] ->
  exists s' B' U', (forall A (k : M (vmm_state F H D) A),
      (d <- read_desc q;; nx <- read_desc (next d);;
       when (bool_decide (type nx = ft))
         (fuel <- gets desc_fuel;; r <- merge_free fuel ft (next d) (size_bytes d);;
          let '(last_range, total_size) := r in
          modify_desc q (set_size_bytes total_size);; modify_desc q (set_next last_range);; link_prev last_range q);; k) s = k s') /\
    keeps s s' /\ vmm_inv B' U' vmm v (La ++ absorb ft q rq Lb) s' /\ whole (snd <$> (La ++ absorb ft q rq Lb)) /\
    released (ptrs (free_run ft Lb)) B s B' s'.
Proof.
  intros HI HW Ht Hft HM Hne.
  destruct (vdseg_neighbours _ _ _ _ _ (vi_seg _ _ _ _ _ _ HI) (vi_nodup _ _ _ _ _ _ HI)) as [d [Nd Nr Np Nn Nnull Npp Nnn _]].
  assert (Hok : region_ok rq) by (apply (vmm_inv_region _ _ _ _ _ _ q rq HI), elem_mid).
  assert (Hpad : r_upper rq = 0 /\ r_lower rq = 0) by (apply Hok; by rewrite Ht).
  assert (HWq : whole (rq :: (snd <$> Lb))).
  { destruct HW as [HG HZ]. rewrite fmap_app in HG, HZ. split; [by apply gapless_app in HG as [_ HG]|by apply Forall_app in HZ as [_ HZ]]. }
  assert (HW' : whole (snd <$> (La ++ absorb ft q rq Lb))).
  { destruct (whole_absorb ft rq Lb HWq Ht Hft) as [G1 Z1]. destruct HW as [HG HZ]. rewrite fmap_app in *. cbn [fmap list_fmap snd] in *. split.
    - by eapply gapless_prefix; [exact HG|exact G1|].
    - apply Forall_app in HZ as [HZ _]. by apply Forall_app. }
  pose proof (run_end ft rq Lb HWq Ht Hft) as HRE. pose proof (run_type ft Lb) as HTy. pose proof (after_run_head ft Lb) as HHd.
  unfold absorb in *. rewrite (run_split ft Lb) in HI, Hne, HM, Nn, Nnn.
  generalize dependent (free_run ft Lb). generalize dependent (after_run ft Lb). intros L3 HHd Lr. intros.
  pose proof (vi_regions _ _ _ _ _ _ HI) as HO. rewrite fmap_app in HO. cbn [fmap list_fmap snd] in HO. apply ordered_app in HO as [HOa (HOq & _ & HO)].
  fold (snd <$> (Lr ++ L3)) in HO. rewrite fmap_app in HO. apply ordered_app in HO as [HOr HO3]. rewrite HRE in HO3.
  destruct Hok as [(S1 & S2) (Z1 & Z2) E1 P1 F1]. destruct (ordered_bytes _ _ HOr E1) as (Y1 & Y2 & Y3 & Y4).
  rewrite HRE in Y3. unfold r_end in Y3, HO3.
  pose proof (vi_seg _ _ _ _ _ _ HI) as HD. pose proof (vi_nodup _ _ _ _ _ _ HI) as ND.
  assert (Hrd : read_desc q s = Ok (d, s)) by (unfold read_desc; by rewrite Nd).
  set (r' := MkRegion (r_start rq) (r_size rq + bytes_of Lr) 0 0 ft).
  assert (Hok' : region_ok r').
  { split; cbn [r_start r_size r_upper r_lower r_type r']; [done| | |clear Y2 Z2; lia|done].
    - split; [clear Y2 Z2; lia|]. rewrite Z.add_mod by done. by rewrite Z2, Y2.
    - unfold r_end. cbn [r_start r_size r']. clear Y2 Z2. lia. }
  fold r' in HW' |- *. destruct Lr as [|[p1 r1] Lr'] eqn:ELr.
  - destruct L3 as [|[p1 r1] L3'] eqn:EL3; [done|]. cbn [app] in HD, ND, HI, HM, Nn.
    destruct (dseg_lookup _ _ _ _ p1 r1 HD) as (nx & Hnx & Hrx).
    { apply elem_of_app. right. apply list_elem_of_further, list_elem_of_here. }
    exists s, B, U. split_and!; [|apply vkeeps_refl| |exact HW'|apply released_nil].
    + intros A k. rewrite (bind_ok _ _ _ _ _ Hrd), Nn. cbn [first_ptr].
      rewrite (bind_ok _ _ _ nx s) by (unfold read_desc; by rewrite Hnx).
      rewrite bool_decide_false; [done|]. pose proof (HHd _ _ eq_refl) as Hh. cbn in Hh. by subst r1.
    + replace r' with rq; [exact HI|]. unfold r'. cbn [bytes_of foldr]. rewrite Z.add_0_r. destruct rq, Hpad. cbn in *. by subst.
  - rewrite <-ELr in *. assert (HDr : dseg (vs_descs s) q (Lr ++ L3) NULL) by (by apply vdseg_app in HD as [_ (_ & _ & HD)]).
    destruct (dseg_lookup _ _ _ _ p1 r1 HDr) as (nx & Hnx & Hrx); [rewrite ELr; apply list_elem_of_here|].
    assert (Htn : type nx = ft) by (assert (Ht1 : r_type r1 = ft) by (apply (HTy (p1, r1)); rewrite ELr; apply list_elem_of_here); by subst r1).
    destruct (ptrs_dropped La q rq r' Lr L3 ND) as (ND' & NDr & Hqr & Hin1 & EP).
    assert (Hsz : size_bytes d = r_size rq) by (by subst rq).
    destruct (merge_free_spec (desc_fuel s) ft L3 Lr B U q (r_size rq) s HDr NDr HTy HHd) as (s1 & B1 & R1 & K1 & Em & Gm & Pm).
    { pose proof (fuel_enough _ _ _ _ HD ND) as Hfu. rewrite length_app in Hfu. cbn [length] in Hfu. rewrite length_app in Hfu. lia. }
    { apply HI. } { intros x dx Hx. by apply HM, Hin1. } { clear Z2 Y2. lia. } { exact Y4. } { clear -Y3 S1. lia. }
    set (d1 := set_next (first_ptr L3 NULL) (set_size_bytes (r_size rq + bytes_of Lr) d)).
    set (m2 := <[q := d1]> (vs_descs s1)).
    assert (Eq1 : vs_descs s1 !! q = Some d) by (rewrite <-Nd; by apply Em).
    exists (set_descs (upd_prev (first_ptr L3 NULL) q m2) s1), B1, (filter (.∉ ptrs Lr) U). split_and!; [| | |exact HW'|].
    + intros A k. rewrite (bind_ok _ _ _ _ _ Hrd), Nn. rewrite ELr at 1. cbn [app first_ptr].
      rewrite (bind_ok _ _ _ nx s) by (unfold read_desc; by rewrite Hnx). rewrite bool_decide_true by done. cbn [when].
      rewrite (bind_ok _ _ _ tt (set_descs (upd_prev (first_ptr L3 NULL) q m2) s1)); [done|].
      rewrite (bind_ok _ _ _ (desc_fuel s) s) by done. rewrite Hsz, (bind_ok _ _ _ _ _ R1). cbv iota beta.
      assert (Es1 : s1 = set_descs (vs_descs s1) s1) by (by destruct s1). rewrite Es1 at 1.
      rewrite (bind_ok _ _ _ _ _ (modify_desc_at q (set_size_bytes (r_size rq + bytes_of Lr)) _ s1 d Eq1)).
      rewrite (bind_ok _ _ _ _ _ (modify_desc_at q (set_next (first_ptr L3 NULL)) _ s1 _ (lookup_insert_eq _ _ _))).
      rewrite insert_insert_eq. fold d1. fold m2. apply link_prev_at.
      destruct (first_ptr_in L3) as [->|Hin]; [by left|right]. unfold m2.
      destruct (decide (first_ptr L3 NULL = q)) as [->|Hne']; [rewrite lookup_insert_eq; by eexists|]. rewrite lookup_insert_ne by done.
      destruct (EP (first_ptr L3 NULL)) as [Hin' Hnr].
      { unfold ptrs in *. rewrite fmap_app, fmap_cons. apply elem_of_app. right. by apply list_elem_of_further. }
      destruct (Em _ Hnr) as [-> _]. by apply (dseg_is_some _ _ _ _ _ HD).
    + eapply vkeeps_trans; [exact K1|]. apply keeps_descs.
    + eapply vmm_inv_change; [exact HI|eapply vkeeps_trans; [exact K1|apply keeps_descs]|by destruct La as [|[? ?] ?]|by destruct La| | | | |].
      * apply (dseg_merge (vs_descs s) (vs_descs s1) La q rq Lr L3 d1 r' HD ND); [intros x Hx; by apply Em| |exact Np|done].
        unfold r', d1. destruct Hpad as [Hu Hl]. subst rq. unfold region_of. cbn. f_equal; [by rewrite ELr|exact Hu|exact Hl|exact Ht].
      * exact ND'.
      * intros x Hx. destruct (EP x Hx) as [H1 H2]. apply list_elem_of_filter. split; [done|]. by apply (vi_used _ _ _ _ _ _ HI).
      * apply desc_pool_descs. apply Pm. intros x Hx. apply list_elem_of_filter in Hx as [H1 H2]. done.
      * rewrite fmap_app. cbn [fmap list_fmap snd]. apply ordered_app. split; [exact HOa|]. cbn [ordered]. split_and!; [exact HOq|exact Hok'|].
        unfold r_end. cbn [r_start r_size r']. rewrite Z.add_assoc, <-ELr. exact HO3.
    + split; [|apply Gm]. intros x Hx Hh. destruct (rl_gone _ _ _ _ _ Gm x Hx Hh) as [E1' E2']. split; [done|]. cbn [vs_descs set_descs].
      apply upd_prev_none. unfold m2. rewrite lookup_insert_ne; [done|]. by intros ->.
Qed.

End merge.

(** ** The operation *)

Section free.
Context {F H D : Type} {FP : FrameProvider F} {HP : HeapProvider H} {SP : ShootdownProvider D}.
Context {FL : FrameLaws F} {FR : FrameReturn F} {HL : HeapLaws H}.
Implicit Types (s : vmm_state F H D) (g : pg_state F).

(** The pages of [r] are mapped to the frames of [fs], which the allocator handed
    out and which hold no table. *)
Record region_backed (lv : gmap Z nat) (ps root : Z) (r : region) (fs T : list Z) g : Prop := {
  rb_tables : pg_inv lv ps root g;
  rb_taken : fp_taken (pg_frames g) (fs ++ T);
  rb_data : forall f, f ∈ fs -> lv !! f = None /\ f <> ps;
  rb_backed : backed root (r_start r + r_lower r) fs g;
  rb_length : PAGE_SIZE * Z.of_nat (length fs) = r_size r - r_upper r - r_lower r;
  rb_size : r_size r <= 2 ^ 48
}.

(** The region as free as its half of the space is. *)
Definition freed (r : region) : region := MkRegion (r_start r) (r_size r) 0 0 (free_type_at (r_start r)).

Definition free_desc (ft : VirtualMemoryType) (d : VirtualMemoryDescriptor) : VirtualMemoryDescriptor :=
  set_upper_padding 0 (set_lower_padding 0 (set_type ft d)).

Lemma region_ok_freed r : region_ok r -> region_ok (freed r).
Proof. intros [S1 Z1 E1 _ _]. split; cbn; [done|done|done|lia|done]. Qed.

Lemma whole_freed L1 p r L2 : whole (snd <$> (L1 ++ (p, r) :: L2)) -> whole (snd <$> (L1 ++ (p, freed r) :: L2)).
Proof.
  intros [HG HZ]. rewrite fmap_app in *. cbn [fmap list_fmap snd] in *. split.
  - eapply gapless_prefix; [exact HG| |done]. apply gapless_app in HG as [_ HG]. destruct (list_fmap (Z * region)%type region snd L2); [done|]. exact HG.
  - apply Forall_app in HZ as [HZ1 [_ HZ2]%Forall_cons]. apply Forall_app. split; [done|]. by apply Forall_cons.
Qed.

(** The first part: the frames are given back and the region is marked free. *)
Lemma deallocate_start {A} B U vmm v L1 p r L2 s lv root fs T (k : M (vmm_state F H D) A) :
  let ft := free_type_at (r_start r) in
  vmm_inv B U vmm v (L1 ++ (p, r) :: L2) s -> vs_vmms s !! vmm = Some v -> owns_frames (r_type r) = true -> shootdown_completes s ->
  region_backed lv (paging_structure v) root r fs T (vs_pg s) ->
  exists d g dd, vs_descs s !! p = Some d /\ region_of d = r /\
    (unmap_pages (pages (get_no_padding_size d)) vmm p (get_no_padding_start_addr d);;
     shootdown (wrap64 (get_no_padding_start_addr d + PAGE_SIZE * Z.of_nat (pages (get_no_padding_size d)))) (get_no_padding_size d);;
     modify_desc p (set_type ft);; modify_desc p (set_lower_padding 0);; modify_desc p (set_upper_padding 0);; k) s =
      k (set_descs (<[p := free_desc ft d]> (vs_descs s)) (put shootdown_lens dd (put pg_lens g s))) /\
    pg_inv lv (paging_structure v) root g /\ fp_taken (pg_frames g) T /\ given_back root (r_start r + r_lower r) fs (vs_pg s) g.
Proof.
  intros ft HI Hv Ho HS [RB1 RB2 RB3 RB4 RB5 RB6].
  destruct (dseg_lookup _ _ _ _ p r (vi_seg _ _ _ _ _ _ HI)) as (d & Hd & HR); [apply elem_mid|].
  assert (Hok : region_ok r) by (apply (vmm_inv_region _ _ _ _ _ _ p r HI); apply elem_mid).
  destruct Hok as [(S1 & _) (Z1 & _) E1 (P1 & P2 & P3) _]. unfold r_end in E1.
  assert (Esz : get_no_padding_size d = r_size r - r_upper r - r_lower r).
  { subst r. unfold get_no_padding_size. cbn in *. apply wrap64_small. lia. }
  assert (Est : get_no_padding_start_addr d = r_start r + r_lower r).
  { subst r. unfold get_no_padding_start_addr. cbn in *. apply wrap64_small. lia. }
  assert (Epg : pages (r_size r - r_upper r - r_lower r) = length fs) by (rewrite <-RB5; clear; unfold pages, PAGE_SIZE; lia).
  destruct (unmap_pages_spec fs lv vmm v root s p d (r_start r + r_lower r) T Hv Hd) as (g & RU & IU & TU & GU); [by subst r|done..| |].
  { unfold PAGE_SIZE in RB5. lia. }
  destruct (shootdown_run (wrap64 (r_start r + r_lower r + PAGE_SIZE * Z.of_nat (length fs))) (r_size r - r_upper r - r_lower r) (put pg_lens g s)) as [dd RS]; [done| |].
  { rewrite <-RB5. rewrite Z.mul_comm. apply Z.mod_mul. done. }
  exists d, g, dd. split_and!; [done|done| |done|done|done].
  rewrite Esz, Est, Epg. rewrite (bind_ok _ _ _ _ _ RU), (bind_ok _ _ _ _ _ RS).
  set (s2 := put shootdown_lens dd (put pg_lens g s)). assert (Es : s2 = set_descs (vs_descs s) s2) by (by destruct s). rewrite Es at 1.
  rewrite (bind_ok _ _ _ _ _ (modify_desc_at p (set_type ft) _ s2 d Hd)).
  rewrite (bind_ok _ _ _ _ _ (modify_desc_at p (set_lower_padding 0) _ s2 _ (lookup_insert_eq _ _ _))), insert_insert_eq.
  rewrite (bind_ok _ _ _ _ _ (modify_desc_at p (set_upper_padding 0) _ s2 _ (lookup_insert_eq _ _ _))), insert_insert_eq. reflexivity.
Qed.

(** Where the merge starts: at the previous region when that one is free. *)
Definition merge_from L1 (p : Z) (r : region) L2 : rlist * (Z * region) * rlist :=
  let ft := free_type_at (r_start r) in
  match last L1 with
  | Some (q, rq) => if bool_decide (r_type rq = ft) then (take (length L1 - 1) L1, (q, rq), (p, freed r) :: L2) else (L1, (p, freed r), L2)
  | None => (L1, (p, freed r), L2)
  end.

Lemma merge_from_split L1 p r L2 La q rq Lb :
  merge_from L1 p r L2 = (La, (q, rq), Lb) ->
  L1 ++ (p, freed r) :: L2 = La ++ (q, rq) :: Lb /\ r_type rq = free_type_at (r_start r) /\
  freed_list L1 p r L2 = La ++ absorb (free_type_at (r_start r)) q rq Lb /\
  (Lb <> [] <-> L2 <> [] \/ exists x, last L1 = Some x /\ r_type x.2 = free_type_at (r_start r)).
Proof.
  unfold merge_from, freed_list. fold (freed r). destruct (last L1) as [[q' rq']|] eqn:EL.
  - case_bool_decide as Ht; intros [= <- <- <- <-].
    + split_and!; [|done|done|].
      * apply last_Some in EL as [l ->]. rewrite length_app, Nat.add_sub, take_app_length, <-app_assoc. done.
      * split; [|done]. intros _. right. by exists (q', rq').
    + split_and!; [done|done|done|]. split; [by left|]. intros [?|(x & [= <-] & Hx)]; [done|]. by destruct Ht.
  - intros [= <- <- <- <-]. split_and!; [done|done|done|]. split; [by left|]. intros [?|(x & Hx & _)]; done.
Qed.

(** The pointers the merge drops. *)
Lemma dropped_elems (q : Z) (A R C : list Z) :
  NoDup (A ++ q :: R ++ C) -> forall x, x ∈ filter (.∉ A ++ q :: C) (A ++ q :: R ++ C) <-> x ∈ R.
Proof.
  intros (_ & HA & [HQ (_ & HB & _)%NoDup_app]%NoDup_cons)%NoDup_app x.
  rewrite list_elem_of_filter, !elem_of_app, !elem_of_cons, elem_of_app. split; [tauto|].
  intros Hx. split; [|tauto]. intros [Hi|[->|Hi]].
  - apply (HA x Hi). rewrite elem_of_cons, elem_of_app. tauto.
  - apply HQ. rewrite elem_of_app. tauto.
  - by apply (HB x Hx).
Qed.

Lemma dropped_ptrs ft La q rq Lb P :
  P = ptrs (La ++ (q, rq) :: Lb) -> NoDup (ptrs (La ++ (q, rq) :: Lb)) ->
  forall x, x ∈ filter (.∉ ptrs (La ++ absorb ft q rq Lb)) P <-> x ∈ ptrs (free_run ft Lb).
Proof.
  intros -> ND x.
  assert (E : ptrs (La ++ (q, rq) :: Lb) = ptrs La ++ q :: ptrs (free_run ft Lb) ++ ptrs (after_run ft Lb)).
  { rewrite (run_split ft Lb) at 1. unfold ptrs. by rewrite fmap_app, fmap_cons, fmap_app. }
  assert (E' : ptrs (La ++ absorb ft q rq Lb) = ptrs La ++ q :: ptrs (after_run ft Lb)).
  { unfold ptrs, absorb. by rewrite fmap_app, fmap_cons. }
  rewrite E in ND |- *. rewrite E'. by apply dropped_elems.
Qed.

Section operation.
Context (B : gmap Z Z) (U : list Z) (vmm : Z) (v : VirtualMemoryManager) (L1 : rlist) (p : Z) (r : region) (L2 : rlist).
Context (lv : gmap Z nat) (root : Z) (fs T : list Z).

(** The region can be given back. *)
Record can_free s : Prop := {
  cf_inv : vmm_inv B U vmm v (L1 ++ (p, r) :: L2) s;
  cf_whole : whole (snd <$> (L1 ++ (p, r) :: L2));
  cf_marks : heap_marks B (ptrs (L1 ++ (p, r) :: L2)) s;
  cf_kernel : kernel_mode v = true;
  cf_lock : vmm_lock v = false;
  cf_shootdown : shootdown_completes s;
  cf_type : owns_frames (r_type r) = true;
  cf_backed : region_backed lv (paging_structure v) root r fs T (vs_pg s)
}.

(** Up to the choice of the region that absorbs the others. *)
Lemma deallocate_run s La q rq Lb :
  can_free s -> merge_from L1 p r L2 = (La, (q, rq), Lb) ->
  let ft := free_type_at (r_start r) in
  exists s3,
    deallocate_kernel_virtual_memory (MkVMemHandle p vmm) s =
      (d <- read_desc q;; nx <- read_desc (next d);;
       when (bool_decide (type nx = ft))
         (fuel <- gets desc_fuel;; r <- merge_free fuel ft (next d) (size_bytes d);;
          let '(last_range, total_size) := r in
          modify_desc q (set_size_bytes total_size);; modify_desc q (set_next last_range);; link_prev last_range q);;
       release_vmm vmm (vs_if s);; ret true) s3 /\
    vmm_inv B U vmm (set_lock true v) (L1 ++ (p, freed r) :: L2) s3 /\ heap_marks B (ptrs (L1 ++ (p, freed r) :: L2)) s3 /\
    (vs_descs s !! NULL = None -> vs_descs s3 !! NULL = None) /\ (forall x, from_heap s3 x <-> from_heap s x) /\ vs_if s3 = false /\
    pg_inv lv (paging_structure v) root (vs_pg s3) /\ fp_taken (pg_frames (vs_pg s3)) T /\
    given_back root (r_start r + r_lower r) fs (vs_pg s) (vs_pg s3).
Proof.
  intros [HI HW HM HK HN HS Ho HB] HF ft.
  pose proof (vmm_inv_locked _ _ _ _ _ _ HI) as HIl. pose proof (vi_vmm _ _ _ _ _ _ HIl) as Hvl.
  destruct (deallocate_start B U vmm (set_lock true v) L1 p r L2 (locked vmm s) lv root fs T
    (d <- read_desc p;;
     desc <- (if prev d =? NULL then ret p else pp <- read_desc (prev d);; ret (if bool_decide (type pp = ft) then prev d else p));;
     d <- read_desc desc;; nx <- read_desc (next d);;
     when (bool_decide (type nx = ft))
       (fuel <- gets desc_fuel;; r <- merge_free fuel ft (next d) (size_bytes d);;
        let '(last_range, total_size) := r in
        modify_desc desc (set_size_bytes total_size);; modify_desc desc (set_next last_range);; link_prev last_range desc);;
     release_vmm vmm (vs_if s);; ret true) HIl Hvl Ho HS HB) as (d & g & dd & Hd & HR & RS & IG & TG & GG).
  set (s2 := put shootdown_lens dd (put pg_lens g (locked vmm s))) in *.
  assert (I2 : vmm_inv B U vmm (set_lock true v) (L1 ++ (p, r) :: L2) s2) by (by apply vmm_inv_sd, vmm_inv_pg).
  assert (Hok : region_ok r) by (apply (vmm_inv_region _ _ _ _ _ _ p r HI); apply elem_mid).
  destruct (vmm_inv_update B U vmm _ L1 p r L2 s2 (free_desc ft) (freed r) I2) as (d' & Hd' & _ & _ & I3);
    [intros d0 <-; by split_and!|by apply region_ok_freed|done|done|].
  change (vs_descs s2) with (vs_descs (locked vmm s)) in Hd', I3. rewrite Hd in Hd'. injection Hd' as <-.
  exists (set_descs (<[p := free_desc ft d]> (vs_descs (locked vmm s))) s2).
  set (s3 := set_descs _ s2) in *. split_and!; [|exact I3| | | |done|exact IG|exact TG|exact GG].
  - unfold deallocate_kernel_virtual_memory. cbn [Interfaces.vmm vm_desc].
    rewrite (bind_ok _ _ _ _ _ (acquire_vmm_run _ _ _ (vi_vmm _ _ _ _ _ _ HI) HN)).
    rewrite (bind_ok _ _ _ _ _ (read_vmm_run _ _ _ _ _ _ HIl)). rewrite bind_KASSERT by done.
    assert (RD : read_desc p (locked vmm s) = Ok (d, locked vmm s)) by (unfold read_desc; by rewrite Hd).
    rewrite (bind_ok _ _ _ (type d) (locked vmm s)) by (unfold get_vmem_type; cbn [vm_desc]; by rewrite (bind_ok _ _ _ _ _ RD)).
    assert (Ht : type d = r_type r) by (by subst r).
    rewrite !bind_KASSERT by (rewrite Ht; by destruct (r_type r)). rewrite (bind_ok _ _ _ _ _ RD).
    assert (start_vaddr d = r_start r) as -> by (by subst r). fold (free_type_at (r_start r)). fold ft. etransitivity; [exact RS|]. clear RS.
    destruct (merge_from_split _ _ _ _ _ _ _ _ HF) as (ES & Hrq & _).
    destruct (vdseg_neighbours _ _ _ _ _ (vi_seg _ _ _ _ _ _ I3) (vi_nodup _ _ _ _ _ _ I3)) as [d3 [Nd Nr Np Nn Nnull Npp Nnn _]].
    rewrite (bind_ok _ _ _ d3 s3) by (unfold read_desc; by rewrite Nd). rewrite Np.
    assert (EQ : (if last_ptr NULL L1 =? NULL then ret p else pp <- read_desc (last_ptr NULL L1);; ret (if bool_decide (type pp = ft) then last_ptr NULL L1 else p)) s3 = Ok (q, s3)).
    { unfold merge_from in HF. unfold last_ptr. destruct (last L1) as [[q' rq']|] eqn:EL; [|by injection HF as <- <- <- <-].
      assert (Hin : (q', rq') ∈ L1 ++ (p, freed r) :: L2) by (apply last_Some in EL as [l ->]; apply elem_of_app; left; apply elem_mid).
      destruct (dseg_lookup _ _ _ _ _ _ (vi_seg _ _ _ _ _ _ I3) Hin) as (dq & Hdq & HRq).
      rewrite (proj2 (Z.eqb_neq q' NULL)) by (apply (dseg_nonnull _ _ _ _ _ (vi_seg _ _ _ _ _ _ I3)), (ptrs_elem _ _ _ Hin)).
      rewrite (bind_ok _ _ _ dq s3) by (unfold read_desc; by rewrite Hdq). unfold ret. fold ft in HF.
      assert (type dq = r_type rq') as -> by (by subst rq'). case_bool_decide; by injection HF as <- <- <- <-. }
    rewrite (bind_ok _ _ _ _ _ EQ). reflexivity.
  - intros x dx Hx Hdx. assert (Hx' : x ∈ ptrs (L1 ++ (p, r) :: L2)) by (unfold ptrs in *; by rewrite fmap_app in *).
    cbn [vs_descs s3 set_descs] in Hdx. destruct (decide (x = p)) as [->|Hne].
    + rewrite lookup_insert_eq in Hdx. injection Hdx as <-. intros Hh. by apply (HM p d).
    + rewrite lookup_insert_ne in Hdx by done. by apply HM.
  - intros H0. cbn. rewrite lookup_insert_ne; [exact H0|]. intros E. change (vs_descs s !! p = Some d) in Hd. congruence.
  - intros x. unfold from_heap. cbn [vs_descs s3 set_descs]. change (vs_descs s !! p = Some d) in Hd.
    change (vs_descs (locked vmm s)) with (vs_descs s). destruct (decide (p = x)) as [<-|Hx].
    + rewrite lookup_insert_eq, Hd. split; intros (d' & [= <-] & Hh); by eexists.
    + by rewrite lookup_insert_ne.
Qed.

(** C6: Releasing a region that owns its frames, and that has a successor in the
    list or a free region of its own half before it (the last region otherwise makes the
    code dereference NULL, vmm.c:352), returns exactly the frames behind its pages to
    the frame allocator, makes its pages not present and leaves every other translation
    alone, turns the region into free space merged with the free neighbours it has,
    releases exactly the descriptors of the regions merged away (the heap blocks of
    those that came from the heap are freed and no other block; the code keeps the slots
    of the boot array), releases the lock and re-establishes the invariant. *)
Theorem deallocate_kernel_virtual_memory_correct s :
  can_free s -> (L2 <> [] \/ exists x, last L1 = Some x /\ r_type x.2 = free_type_at (r_start r)) ->
  let L := L1 ++ (p, r) :: L2 in
  exists s' B' U', deallocate_kernel_virtual_memory (MkVMemHandle p vmm) s = Ok (true, s') /\
    vmm_inv B' U' vmm v (freed_list L1 p r L2) s' /\ whole (snd <$> freed_list L1 p r L2) /\
    (forall a, free_at (freed_list L1 p r L2) a <-> free_at L a \/ in_region r a) /\
    in_use (freed_list L1 p r L2) = in_use (L1 ++ L2) /\ vs_if s' = vs_if s /\
    released (filter (.∉ ptrs (freed_list L1 p r L2)) (ptrs L)) B s B' s' /\
    pg_inv lv (paging_structure v) root (vs_pg s') /\ fp_taken (pg_frames (vs_pg s')) T /\
    given_back root (r_start r + r_lower r) fs (vs_pg s) (vs_pg s').
Proof.
  intros HC Hne L. destruct (merge_from L1 p r L2) as [[La [q rq]] Lb] eqn:EF.
  destruct (deallocate_run s La q rq Lb HC EF) as (s3 & R & I3 & M3 & _ & HH3 & Hif & IG & TG & GG).
  destruct (merge_from_split _ _ _ _ _ _ _ _ EF) as (ES & Hrq & EFL & Hb).
  pose proof (whole_freed L1 p r L2 (cf_whole _ HC)) as HW3. rewrite ES in I3, M3, HW3.
  set (ft := free_type_at (r_start r)) in *. pose proof (free_type_at_free (r_start r) : is_free_type ft = true) as Hft.
  destruct (merge_at B U vmm _ La q rq Lb s3 ft I3 HW3 Hrq Hft M3 (proj2 Hb Hne)) as (s4 & B' & U' & RM & K4 & I4 & W4 & [RG RK]).
  pose proof (vi_regions _ _ _ _ _ _ I3) as HO. rewrite fmap_app in HO. apply ordered_app in HO as [_ HO]. cbn [fmap list_fmap snd] in HO.
  assert (HWq : whole (rq :: (snd <$> Lb))).
  { destruct HW3 as [HG HZ]. rewrite fmap_app in HG, HZ. split; [by apply gapless_app in HG as [_ HG]|by apply Forall_app in HZ as [_ HZ]]. }
  assert (Hused : is_free_type (r_type r) = false) by (by destruct (owns_frames_types _ (cf_type _ HC))).
  pose proof K4 as (E1 & _ & E3 & _). rewrite <-E1 in IG, TG, GG. rewrite EFL.
  exists (unlocked vmm (vs_if s) s4), B', U'. split_and!.
  - rewrite R, RM. by rewrite (bind_ok _ _ _ _ _ (release_vmm_run _ _ _)).
  - rewrite <-(relock v (cf_lock _ HC)). by apply vmm_inv_unlocked.
  - exact W4.
  - intros a. rewrite free_at_app, (absorb_free_at ft q rq Lb a _ HWq HO Hrq Hft), <-free_at_app, <-ES. unfold L.
    rewrite !free_at_app, !free_at_cons. cbn [snd freed r_type]. fold ft. rewrite Hft, Hused.
    assert (E : in_region (freed r) a <-> in_region r a) by done. rewrite E. intuition congruence.
  - unfold in_use. rewrite !fmap_app, !filter_app. pose proof (absorb_in_use ft q rq Lb Hrq Hft) as EU. unfold in_use in EU. rewrite EU.
    rewrite <-filter_app, <-fmap_app, <-ES, fmap_app, filter_app. cbn [fmap list_fmap snd]. by rewrite filter_cons_False by (cbn [freed r_type]; fold ft; congruence).
  - destruct (vs_if s) eqn:Ei; [done|]. cbn. by rewrite E3.
  - assert (EQ : forall x, x ∈ filter (.∉ ptrs (La ++ absorb ft q rq Lb)) (ptrs L) <-> x ∈ ptrs (free_run ft Lb)).
    { apply dropped_ptrs; [|exact (vi_nodup _ _ _ _ _ _ I3)]. rewrite <-ES. unfold L, ptrs. by rewrite !fmap_app. }
    split; intros x.
    + rewrite EQ. intros Hx Hh. destruct (RG x Hx) as [H1 H2]; [by apply HH3|]. split; [done|]. by destruct (vs_if s).
    + intros Hn. apply RK. by rewrite <-EQ, HH3.
  - by destruct (vs_if s).
  - by destruct (vs_if s).
  - by destruct (vs_if s).
Qed.

(** The code follows the successor of the region without a test: giving back the
    last region when the one before is in use reads through a null pointer. *)
Theorem deallocate_last_region_faults s :
  can_free s -> L2 = [] -> (forall x, last L1 = Some x -> r_type x.2 <> free_type_at (r_start r)) -> vs_descs s !! NULL = None ->
  deallocate_kernel_virtual_memory (MkVMemHandle p vmm) s = Fault.
Proof.
  intros HC E2 HL1 H0. assert (EF : merge_from L1 p r L2 = (L1, (p, freed r), L2)).
  { unfold merge_from. destruct (last L1) as [[q rq]|]; [|done]. by rewrite bool_decide_false by apply (HL1 _ eq_refl). }
  destruct (deallocate_run s _ _ _ _ HC EF) as (s3 & R & I3 & _ & N3 & _). rewrite R.
  destruct (vdseg_neighbours _ _ _ _ _ (vi_seg _ _ _ _ _ _ I3) (vi_nodup _ _ _ _ _ _ I3)) as [d3 [Nd Nr Np Nn _ _ _ _]].
  rewrite (bind_ok _ _ _ d3 s3) by (unfold read_desc; by rewrite Nd). rewrite Nn, E2. cbn [first_ptr].
  unfold bind at 1, read_desc. by rewrite N3.
Qed.

End operation.

End free.
