(* ===== verification/VmmRuns.v ===== *)
(** * The virtual memory manager on a concrete machine

    A manager with five regions over the page tables of [PagingRuns] and sixty-four
    free frames, before the heap and the shootdown subsystem are initialised.  The
    theorems of the manager are applied to it. *)

From S2P Require Import Prelude Memory Sync Interfaces Heap HeapRegion HeapChunks HeapProvider BootMem FrameAllocator Paging PagingInv PagingTop PagingRuns Vmm VmmInv VmmCut VmmMap VmmOps VmmTop VmmFault VmmInit VmmLoad VmmFree.
Import Sequential.

(** A shootdown subsystem that is not initialised and never called. *)
#[export] Instance no_shootdown : ShootdownProvider unit := {|
  is_vmmcache_shootdown_subsystem_initialized _ := false;
  sp_shootdown _ _ := ret tt
|}.

Definition no_heap : heap_state HeapRegion.region :=
  HeapState ∅ (MkHeap invalid_handle false 0 0 0 0 []) false false (Region true 0xffff900000000000 0 0).

Abbreviation machine := (vmm_state frame_state (heap_state HeapRegion.region) unit).

Definition KVMM : Z := 0x900000.
Definition slots : Z := 0x910000.

Definition blank : machine :=
  VmmState demo_paging no_heap tt true ∅ slots 0 ∅ idle None (Some []).

(** The regions of the example: an identity map between two free parts of its
    space, a stack with room to grow, and the rest of the kernel's half. *)
Definition demo_regions : list region :=
  [MkRegion 0x1000 0xff000 0 0 VM_TYPE_IDENTITY_MAP_FREE;
   MkRegion 0x100000 0x100000 0 0 VM_TYPE_IDENTITY_MAP;
   MkRegion 0x200000 0x100000 0 0 VM_TYPE_IDENTITY_MAP_FREE;
   MkRegion 0xffff800000000000 0x40000 0x10000 0x20000 VM_TYPE_STACK;
   MkRegion 0xffff800000040000 0x40000000 0 0 VM_TYPE_FREE].

Definition slot (n : Z) : Z := slots + sizeof_VirtualMemoryDescriptor * n.
Definition demo_list : rlist := zip (slot <$> [0; 1; 2; 3; 4]) demo_regions.

(** The store in which a list of regions is linked. *)
Fixpoint link_up (prv : Z) (L : rlist) (m : store) : store :=
  match L with
  | [] => m
  | (p, r) :: L' =>
      <[p := MkDesc (r_start r) (r_size r) (r_upper r) (r_lower r) (r_type r) (first_ptr L' NULL) prv false]>
        (link_up p L' m)
  end.

Definition demo_manager : VirtualMemoryManager := MkVMM slots 0x500000 true false.

Definition demo : machine :=
  VmmState demo_paging no_heap tt true (link_up NULL demo_list ∅) slots 5 {[ KVMM := demo_manager ]} idle (Some 0xe) (Some []).

Lemma demo_pool : desc_pool ∅ (ptrs demo_list) demo.
Proof.
  split; [by vm_compute|by vm_compute| |done].
  intros p Hp. left. unfold ptrs, demo_list in Hp. cbn in Hp.
  repeat (apply elem_of_cons in Hp as [->|Hp]); [..|by apply elem_of_nil in Hp];
    [exists 0|exists 1|exists 2|exists 3|exists 4]; by vm_compute.
Qed.

Lemma demo_vmm_inv : vmm_inv ∅ (ptrs demo_list) KVMM demo_manager demo_list demo.
Proof.
  split; [by vm_compute|done|done| | |done|exact demo_pool|].
  - unfold demo_list. cbn [demo_regions fmap list_fmap zip zip_with dseg first_ptr].
    split_and!; try done; (eexists; split; [vm_compute; reflexivity|by vm_compute]).
  - apply (bool_decide_unpack _). by vm_compute.
  - unfold demo_list. cbn [demo_regions fmap list_fmap zip zip_with snd ordered].
    split_and!; try (by vm_compute); (split; by vm_compute).
Qed.

Lemma demo_paging_ok : paging_ok (paging_structure demo_manager) 0x400000 (vs_pg demo).
Proof. exists demo_levels. apply demo_inv. left. split; reflexivity. Qed.

Lemma demo_shootdown : shootdown_completes demo.
Proof. intros E. discriminate E. Qed.

Lemma demo_free_count : free_count (vs_pg demo) = 64%nat.
Proof. reflexivity. Qed.

Lemma demo_can_alloc_two : can_alloc_two demo.
Proof. by vm_compute. Qed.

(** ** Instances of the theorems *)

Abbreviation stack := (MkRegion 0xffff800000000000 0x40000 0x10000 0x20000 VM_TYPE_STACK).
Abbreviation idmap := (MkRegion 0x100000 0x100000 0 0 VM_TYPE_IDENTITY_MAP).

Lemma initialize_kernel_VMM_correct_witness :
  exists s', initialize_kernel_VMM KVMM 0x500000 blank = Ok (tt, s') /\ page_fault_vector s' = Some 0xe.
Proof.
  destruct (initialize_kernel_VMM_correct ∅ [] KVMM 0x500000 blank) as (s' & B' & p & q & R & Hh & _).
  - split; [by vm_compute|by vm_compute|by intros p ?%elem_of_nil|reflexivity].
  - by vm_compute.
  - exists s'. split; [exact R|exact Hh].
Defined.

Lemma allocate_kernel_virtual_memory_correct_witness :
  exists s' h, allocate_kernel_virtual_memory KVMM 0x2000 VM_TYPE_HEAP 0x1000 0x1000 demo = Ok (h, s') /\
    vs_if s' = true.
Proof.
  destruct (allocate_kernel_virtual_memory_correct ∅ (ptrs demo_list) KVMM demo_manager demo_list demo
    0x400000 0x2000 VM_TYPE_HEAP 0x1000 0x1000) as (s' & B' & U' & L1 & p & r & L2 & Lq & R & _ & _ & _ & _ & _ & _ & HIf & _).
  - exact demo_vmm_inv.
  - reflexivity.
  - reflexivity.
  - exact demo_paging_ok.
  - exact demo_shootdown.
  - by vm_compute.
  - lia.
  - lia.
  - lia.
  - lia.
  - reflexivity.
  - reflexivity.
  - reflexivity.
  - reflexivity.
  - exists (slot 4, MkRegion 0xffff800000040000 0x40000000 0 0 VM_TYPE_FREE). split_and!.
    + apply (list_elem_of_lookup_2 _ 4). reflexivity.
    + reflexivity.
    + cbn. lia.
  - rewrite demo_free_count. unfold PAGE_SIZE. lia.
  - exists s', (MkVMemHandle p KVMM). split; [exact R|exact HIf].
Defined.

Lemma try_expand_vmem_top_correct_witness :
  exists s', try_expand_vmem_top (MkVMemHandle (slot 3) KVMM) 0x2000 demo = Ok (true, s') /\ vs_if s' = true.
Proof.
  destruct (try_expand_vmem_top_correct ∅ (ptrs demo_list) KVMM demo_manager (take 3 demo_list) (slot 3) stack
    (drop 4 demo_list) 0x400000 0x2000 demo) as (s' & R & _ & HIf & _).
  - exact demo_vmm_inv.
  - reflexivity.
  - exact demo_paging_ok.
  - exact demo_shootdown.
  - lia.
  - reflexivity.
  - reflexivity.
  - cbn. lia.
  - rewrite demo_free_count. unfold PAGE_SIZE. lia.
  - exists s'. split; [exact R|exact HIf].
Defined.

Lemma try_expand_vmem_bottom_correct_witness :
  exists s', try_expand_vmem_bottom (MkVMemHandle (slot 3) KVMM) 0x2000 demo = Ok (true, s') /\ vs_if s' = true.
Proof.
  destruct (try_expand_vmem_bottom_correct ∅ (ptrs demo_list) KVMM demo_manager (take 3 demo_list) (slot 3) stack
    (drop 4 demo_list) 0x400000 0x2000 demo) as (s' & R & _ & HIf & _).
  - exact demo_vmm_inv.
  - reflexivity.
  - exact demo_paging_ok.
  - exact demo_shootdown.
  - lia.
  - reflexivity.
  - reflexivity.
  - cbn. lia.
  - rewrite demo_free_count. unfold PAGE_SIZE. lia.
  - exists s'. split; [exact R|exact HIf].
Defined.

Lemma try_expand_vmem_top_refused_keeps_lock_witness :
  exists s', try_expand_vmem_top (MkVMemHandle (slot 3) KVMM) 0x20000 demo = Ok (false, s') /\
    memory_map KVMM 0xb8000 0x1000 PAGE_WRITABLE s' = Hang.
Proof.
  destruct (try_expand_vmem_top_refused_keeps_lock ∅ (ptrs demo_list) KVMM demo_manager (take 3 demo_list) (slot 3)
    stack (drop 4 demo_list) 0x20000 demo) as (s' & R & _ & _ & _ & _ & HM).
  - exact demo_vmm_inv.
  - reflexivity.
  - lia.
  - reflexivity.
  - right. cbn. lia.
  - exists s'. split; [exact R|apply HM].
Defined.

Lemma get_vmem_from_address_correct_witness :
  get_vmem_from_address KVMM 0x123456 demo = Ok (MkVMemHandle (slot 1) KVMM, demo).
Proof.
  destruct (get_vmem_from_address_correct ∅ (ptrs demo_list) KVMM demo_manager demo_list demo 0x123456)
    as (h & R & Hh & _).
  - exact demo_vmm_inv.
  - rewrite (Hh (slot 1) idmap) in R; [exact R| |].
    + apply (list_elem_of_lookup_2 _ 1). reflexivity.
    + unfold contains, r_end. cbn. lia.
Defined.

Lemma identity_map_correct_witness : exists h s', identity_map KVMM 0x210000 0x2000 demo = Ok (h, s').
Proof.
  destruct (identity_map_correct ∅ (ptrs demo_list) KVMM demo_manager demo_list demo 0x210000 0x2000)
    as [(L1 & p & r & L2 & La & Lb & q & s' & B' & U' & v' & _ & _ & _ & _ & R & _)|[_ (s' & R & _)]].
  - exact demo_vmm_inv.
  - reflexivity.
  - reflexivity.
  - exact demo_can_alloc_two.
  - lia.
  - lia.
  - lia.
  - reflexivity.
  - reflexivity.
  - exists (MkVMemHandle q KVMM), s'. exact R.
  - exists invalid_handle, s'. exact R.
Defined.

Lemma page_fault_loads_identity_map_witness :
  exists s', page_fault KVMM 0x123456 2 demo = Ok (tt, s') /\
    translate 4 (pmem (vs_pg s')) 0x400000 0x123456 = MkMapState 0x123000 3 true.
Proof.
  destruct (page_fault_loads_identity_map ∅ (ptrs demo_list) KVMM demo_manager (take 1 demo_list) (slot 1) idmap
    (drop 2 demo_list) 0x400000 0x123456 2) with (s := demo) as (s' & R & _ & _ & _ & _ & HT & _).
  - reflexivity.
  - reflexivity.
  - unfold contains, r_end. cbn. lia.
  - reflexivity.
  - exact demo_vmm_inv.
  - reflexivity.
  - reflexivity.
  - reflexivity.
  - exact demo_paging_ok.
  - exact demo_shootdown.
  - rewrite demo_free_count. lia.
  - exists s'. split; [exact R|exact HT].
Defined.


Lemma page_fault_unrecoverable_panics_witness :
  page_fault KVMM 0x250000 2 demo = Panic UNRECOVERABLE_PAGE_FAULT.
Proof.
  etransitivity; [apply (page_fault_unrecoverable_panics ∅ (ptrs demo_list) KVMM demo_manager demo_list)|reflexivity].
  - exact demo_vmm_inv.
  - reflexivity.
  - reflexivity.
  - intros p r Hin. apply list_elem_of_lookup_1 in Hin as [n Hn].
    do 5 (destruct n as [|n]; [injection Hn as <- <-; cbn; lia|]). discriminate Hn.
  - right. right. intros p r Hin Hc. apply list_elem_of_lookup_1 in Hin as [n Hn]. unfold contains, r_end in Hc.
    do 5 (destruct n as [|n]; [injection Hn as <- <-; cbn in Hc; first [exfalso; lia|reflexivity]|]).
    discriminate Hn.
Defined.

Lemma memory_map_correct_witness :
  exists s' p, memory_map KVMM 0xfee00000 0x1000 0x12 demo = Ok (MkVMemHandle p KVMM, s') /\ vs_if s' = true.
Proof.
  destruct (memory_map_correct ∅ (ptrs demo_list) KVMM demo_manager demo_list demo 0x400000 0xfee00000 0x1000 0x12) as
    (s' & B' & U' & L1 & p & r & L2 & Lq & R & _ & _ & _ & _ & _ & _ & HIf & _).
  - exact demo_vmm_inv.
  - reflexivity.
  - reflexivity.
  - exact demo_paging_ok.
  - exact demo_shootdown.
  - by vm_compute.
  - lia.
  - by vm_compute.
  - reflexivity.
  - reflexivity.
  - exists (slot 4, MkRegion 0xffff800000040000 0x40000000 0 0 VM_TYPE_FREE). split_and!.
    + apply (list_elem_of_lookup_2 _ 4). reflexivity.
    + reflexivity.
    + by vm_compute.
  - rewrite demo_free_count. by vm_compute.
  - exists s', p. split; [exact R|exact HIf].
Defined.

(** ** A region given back *)

(** One page of the kernel's half, mapped to the first frame of the allocator. *)
Definition page_va : Z := 0xffff800000001000.
Definition map_first : M (pg_state frame_state) Z :=
  f <- Paging.alloc_frame;; paging_map 0x500000 page_va f (Z.lor PAGE_PRESENT PAGE_WRITABLE);; ret f.
Definition mapped_paging : pg_state frame_state := match map_first demo_paging with Ok (_, g) => g | _ => demo_paging end.

Definition used_regions : list region :=
  [MkRegion 0x1000 0xff000 0 0 VM_TYPE_IDENTITY_MAP_FREE;
   MkRegion 0xffff800000000000 0x3000 0x1000 0x1000 VM_TYPE_GENERAL_USE;
   MkRegion 0xffff800000003000 0x40000000 0 0 VM_TYPE_FREE].
Definition used_list : rlist := zip (slot <$> [0; 1; 2]) used_regions.
Definition used : machine :=
  VmmState mapped_paging no_heap tt true (link_up NULL used_list ∅) slots 3 {[ KVMM := demo_manager ]} idle (Some 0xe) (Some []).

Lemma used_vmm_inv : vmm_inv ∅ (ptrs used_list) KVMM demo_manager used_list used.
Proof.
  split; [by vm_compute|done|done| | |done| |].
  - unfold used_list. cbn [used_regions fmap list_fmap zip zip_with dseg first_ptr].
    split_and!; try done; (eexists; split; [vm_compute; reflexivity|by vm_compute]).
  - apply (bool_decide_unpack _). by vm_compute.
  - split; [by vm_compute|by vm_compute| |done]. intros p Hp. left. unfold ptrs, used_list in Hp. cbn in Hp.
    repeat (apply elem_of_cons in Hp as [->|Hp]); [..|by apply elem_of_nil in Hp]; [exists 0|exists 1|exists 2]; by vm_compute.
  - unfold used_list. cbn [used_regions fmap list_fmap zip zip_with snd ordered].
    split_and!; try (by vm_compute); (split; by vm_compute).
Qed.

Definition allocator_fields (s : frame_state) :=
  (fa_ranges s, frame_stack s, fa_lock s, hal_initialized s, cached_memory_range_index s, free_frames s).
Definition mapped_fields := ([MkRange 0x1004000 0x3c000], MkFrameStack 0x200000 0x200000 0x1000, false, true, 0%nat, 60).

Lemma mapped_allocator : allocator_fields (pg_frames mapped_paging) = mapped_fields.
Proof. vm_compute. reflexivity. Qed.

Lemma mapped_frames s : allocator_fields s = mapped_fields -> frames s = ranges_frames [MkRange 0x1004000 0x3c000].
Proof. intros E. injection E as E1 E2 _ _ _ _. unfold frames. by rewrite E1, E2. Qed.

Lemma mapped_range f : f ∈ ranges_frames [MkRange 0x1004000 0x3c000] -> 0x1004000 <= f < 0x1040000 /\ f ∈ frames demo_frames.
Proof.
  intros Hf. change (frames demo_frames) with (ranges_frames [MkRange 0x1000000 0x40000]).
  unfold ranges_frames in *. cbn [fmap list_fmap concat] in *. rewrite app_nil_r in *.
  unfold range_frames in *. apply list_elem_of_fmap in Hf as (n & -> & Hn%elem_of_seq). cbn [start_address range_size] in *. unfold PAGE_SIZE in *.
  change (Z.to_nat (0x3c000 / 4096)) with 60%nat in Hn. split; [lia|]. apply list_elem_of_fmap. exists (n + 4)%nat. split; [lia|]. apply elem_of_seq.
  change (Z.to_nat (0x40000 / 4096)) with 64%nat. lia.
Qed.

Lemma mapped_taken s : allocator_fields s = mapped_fields -> fp_taken s [0x1000000].
Proof.
  intros E. pose proof (mapped_frames s E) as EF. injection E as E1 E2 E3 E4 E5 E6.
  exists (frames demo_frames). split_and!; [split|done|done| | |].
  - rewrite E2. split; cbn; lia.
  - rewrite E1. repeat constructor; unfold PAGE_SIZE; cbn; lia.
  - rewrite E1, E5. cbn. lia.
  - rewrite EF. apply (bool_decide_unpack _). by vm_compute.
  - intros f. rewrite EF. apply mapped_range.
  - intros f Hf%demo_frames_range. lia.
  - rewrite E2. by vm_compute.
  - rewrite E6, EF. by vm_compute.
  - intros f Hf%demo_frames_range. unfold page_clear, stack_area. rewrite E2. cbn. unfold PAGE_SIZE in *. lia.
  - apply (bool_decide_unpack _). by vm_compute.
  - intros f ->%list_elem_of_singleton. split; [|rewrite EF; intros Hf%mapped_range; lia].
    change (frames demo_frames) with (ranges_frames [MkRange 0x1000000 0x40000]). unfold ranges_frames. cbn [fmap list_fmap concat]. rewrite app_nil_r.
    apply list_elem_of_fmap. exists 0%nat. split; [done|]. apply elem_of_seq. vm_compute. lia.
Qed.

(** The page is mapped to a frame that is no table. *)
Lemma mapped_page : exists lv, pg_inv lv 0x500000 0x400000 mapped_paging /\ lv !! 0x1000000 = None /\
  translate 4 (pmem mapped_paging) 0x400000 page_va = MkMapState 0x1000000 3 true.
Proof.
  assert (I0 : pg_inv demo_levels 0x500000 0x400000 demo_paging) by (apply demo_inv; left; split; reflexivity).
  destruct (alloc_frame_pg demo_levels 0x500000 0x400000 demo_paging I0) as (f & g0 & R0 & I1 & _ & Fa & _ & _ & O0 & L0 & _); [discriminate|].
  destruct (paging_map_spec demo_levels 0x500000 0x400000 g0 page_va f (Z.lor PAGE_PRESENT PAGE_WRITABLE) I1) as (g1 & R1 & (lv & I2 & _ & _ & _ & _ & _ & [X1 _]) & _ & _ & T1).
  { change (length (fp_free (pg_frames demo_paging))) with 64%nat in L0. lia. }
  assert (ER : map_first demo_paging = Ok (f, g1)) by (unfold map_first; rewrite (bind_ok _ _ _ _ _ R0), (bind_ok _ _ _ _ _ R1); reflexivity).
  assert (Ef : f = 0x1000000) by (injection R0; intros _ <-; vm_compute; reflexivity).
  assert (Eg : mapped_paging = g1) by (unfold mapped_paging; by rewrite ER). rewrite Eg. subst f.
  exists lv. split_and!; [exact I2| |].
  - apply X1; [apply O0; by left|reflexivity|reflexivity].
  - rewrite T1, decide_True by done. reflexivity.
Qed.

Lemma used_whole : whole (snd <$> used_list).
Proof. split; [by vm_compute|]. repeat (apply Forall_cons; split; [by vm_compute|]). apply Forall_nil. done. Qed.

Lemma deallocate_kernel_virtual_memory_correct_witness :
  exists s', deallocate_kernel_virtual_memory (MkVMemHandle (slot 1) KVMM) used = Ok (true, s') /\ vs_if s' = true /\
    fp_free (pg_frames (vs_pg s')) ≡ₚ 0x1000000 :: fp_free (pg_frames mapped_paging).
Proof.
  destruct mapped_page as (lv & IG & Hlv & Ht).
  destruct (deallocate_kernel_virtual_memory_correct ∅ (ptrs used_list) KVMM demo_manager (take 1 used_list) (slot 1)
    (MkRegion 0xffff800000000000 0x3000 0x1000 0x1000 VM_TYPE_GENERAL_USE) (drop 2 used_list) lv 0x400000 [0x1000000] [] used)
    as (s' & B' & U' & R & _ & _ & _ & _ & Hi & _ & _ & _ & [GF _ _]).
  - split.
    + exact used_vmm_inv.
    + exact used_whole.
    + intros x d Hx Hd Hh. exfalso. revert Hh. assert (HF : map_Forall (fun _ d => is_from_heap d = false) (vs_descs used)) by (apply (bool_decide_unpack _); by vm_compute).
      rewrite (HF _ _ Hd). discriminate.
    + reflexivity.
    + reflexivity.
    + intros E. discriminate E.
    + reflexivity.
    + split; [exact IG|exact (mapped_taken _ mapped_allocator)| | |reflexivity|cbn; lia].
      * intros f ->%list_elem_of_singleton. split; [exact Hlv|discriminate].
      * intros v' f Hf. assert (Ez : page_index page_va v' = 0).
        { pose proof (page_index_range page_va v'). apply lookup_lt_Some in Hf as Hlt. cbn [length] in Hlt. change (r_start _ + r_lower _) with page_va in Hlt. lia. }
        change (r_start _ + r_lower _) with page_va in Hf. rewrite Ez in Hf. injection Hf as <-. exists 3. rewrite <-Ht. apply same_page_translate. by apply page_index_zero.
  - left. discriminate.
  - exists s'. split; [exact R|]. split; [exact Hi|exact GF].
Defined.
