(* ===== verification/LinkedList.v ===== *)
(** * Singly linked lists (util/linked_list.c)

    The nodes are blocks of the kernel heap, reached through pointers; a node
    that was freed is gone from the store, so reading it is a [Fault].  The list
    of the data refines the operations: [spec_op] says what each does to it. *)

From S2P Require Import Prelude Memory Interfaces.

Definition sizeof_LinkedListNode : Z := 16.

Record LinkedListNode : Type := MkNode { node_data : Z; node_next : Z }.
Record LinkedList : Type := MkLinkedList { ll_head : Z; ll_size : Z }.

Record ll_state (H : Type) : Type := LLState { ll_heap : H; ll_nodes : gmap Z LinkedListNode }.
Arguments LLState {H}.
Arguments ll_heap {H}.
Arguments ll_nodes {H}.

Section operations.
Context {H : Type} {HP : HeapProvider H}.
Abbreviation state := (ll_state H).

Definition ll_heap_lens : lens state H := Lens ll_heap (fun h s => LLState h (ll_nodes s)).
Definition set_nodes (m : gmap Z LinkedListNode) (s : state) : state := LLState (ll_heap s) m.

Definition read_node (p : Z) : M state LinkedListNode := fun s =>
  match ll_nodes s !! p with Some n => Ok (n, s) | None => Fault end.
Definition write_node (p : Z) (n : LinkedListNode) : M state unit :=
  modify (fun s => set_nodes (<[p := n]> (ll_nodes s)) s).

(** A new block with both fields set. *)
Definition new_node (data next : Z) : M state Z :=
  p <- zoom ll_heap_lens (hp_kmalloc sizeof_LinkedListNode);;
  write_node p (MkNode data next);;
  ret p.

Definition free_node (p : Z) : M state unit :=
  zoom ll_heap_lens (hp_kfree p);;
  modify (fun s => set_nodes (delete p (ll_nodes s)) s).

Definition create_linked_list : LinkedList := MkLinkedList NULL 0.

Fixpoint destroy_loop (fuel : nat) (node : Z) : M state unit :=
  match fuel with
  | O => out_of_fuel
  | S fuel' =>
      if node =? NULL then ret tt
      else
        n <- read_node node;;
        free_node node;;
        destroy_loop fuel' (node_next n)
  end.

Definition linked_list_destroy (ll : LinkedList) : M state LinkedList :=
  fuel <- gets (fun s => S (size (ll_nodes s)));;
  destroy_loop fuel (ll_head ll);;
  ret create_linked_list.

Definition linked_list_remove_after (ll : LinkedList) (node : Z) : M state LinkedList :=
  KASSERT (negb (ll_head ll =? NULL) && negb (ll_size ll =? 0) && negb (node =? NULL));;
  n <- read_node node;;
  KASSERT (negb (node_next n =? NULL));;
  x <- read_node (node_next n);;
  free_node (node_next n);;
  n <- read_node node;;
  write_node node (MkNode (node_data n) (node_next x));;
  ret (MkLinkedList (ll_head ll) (wrap64 (ll_size ll - 1))).

Definition linked_list_push_front (ll : LinkedList) (data : Z) : M state LinkedList :=
  p <- new_node data (ll_head ll);;
  ret (MkLinkedList p (wrap64 (ll_size ll + 1))).

Definition linked_list_pop_front (ll : LinkedList) : M state LinkedList :=
  KASSERT (negb (ll_head ll =? NULL) && negb (ll_size ll =? 0));;
  n <- read_node (ll_head ll);;
  free_node (ll_head ll);;
  ret (MkLinkedList (node_next n) (wrap64 (ll_size ll - 1))).

(** [for(i = 0; i < bound; i++){ KASSERT(node != NULL); node = node->next; }] *)
Fixpoint advance (fuel : nat) (i bound node : Z) : M state Z :=
  match fuel with
  | O => out_of_fuel
  | S fuel' =>
      if i <? bound then
        KASSERT (negb (node =? NULL));;
        n <- read_node node;;
        advance fuel' (i + 1) bound (node_next n)
      else ret node
  end.

(** The assertion stops the loop at the end of the list: two more rounds than
    there are nodes are enough. *)
Definition advance_to (bound node : Z) : M state Z :=
  fuel <- gets (fun s => S (S (size (ll_nodes s))));;
  advance fuel 0 bound node.

Definition linked_list_remove_at (ll : LinkedList) (index : Z) : M state LinkedList :=
  KASSERT (negb (ll_head ll =? NULL) && negb (ll_size ll =? 0));;
  if index =? 0 then linked_list_pop_front ll
  else
    prev <- advance_to (wrap64 (index - 1)) (ll_head ll);;
    linked_list_remove_after ll prev.

Definition linked_list_insert_after (ll : LinkedList) (node data : Z) : M state LinkedList :=
  KASSERT (negb (ll_head ll =? NULL) && negb (ll_size ll =? 0) && negb (node =? NULL));;
  p <- zoom ll_heap_lens (hp_kmalloc sizeof_LinkedListNode);;
  n <- read_node node;;
  write_node p (MkNode data (node_next n));;
  n <- read_node node;;
  write_node node (MkNode (node_data n) p);;
  ret (MkLinkedList (ll_head ll) (wrap64 (ll_size ll + 1))).

Definition linked_list_insert_at (ll : LinkedList) (index data : Z) : M state LinkedList :=
  if index =? 0 then linked_list_push_front ll data
  else
    prev <- advance_to (wrap64 (index - 1)) (ll_head ll);;
    linked_list_insert_after ll prev data.

Definition linked_list_get_at (ll : LinkedList) (index : Z) : M state Z :=
  advance_to (wrap64 (index - 1)) (ll_head ll).

End operations.

(** ** The list a structure holds *)

Abbreviation nodes := (gmap Z LinkedListNode).
Implicit Types (m : nodes) (L : list (Z * Z)).

Definition head_of L : Z := match L with [] => NULL | (p, _) :: _ => p end.

(** [L] lists the addresses of the nodes with their data. *)
Fixpoint lseg m L (nxt : Z) : Prop :=
  match L with
  | [] => True
  | (p, d) :: L' =>
      p <> NULL /\ m !! p = Some (MkNode d (match L' with [] => nxt | _ => head_of L' end)) /\ lseg m L' nxt
  end.

Lemma lseg_app m L1 p d L2 nxt :
  lseg m (L1 ++ (p, d) :: L2) nxt <-> lseg m L1 p /\ lseg m ((p, d) :: L2) nxt.
Proof.
  induction L1 as [|[q e] L1 IH]; [cbn; tauto|]. rewrite <-app_comm_cons. cbn [lseg].
  rewrite IH. destruct L1 as [|[q' e'] L1]; cbn [app head_of lseg]; tauto.
Qed.

Lemma lseg_frame m m' L nxt :
  (forall p, p ∈ L.*1 -> m' !! p = m !! p) -> lseg m L nxt -> lseg m' L nxt.
Proof.
  induction L as [|[p d] L IH]; intros HE; [done|]. cbn [lseg]. intros (Hn & Hp & HL). split_and!; [done| |].
  - rewrite HE; [done|]. apply list_elem_of_here.
  - apply IH; [|done]. intros q Hq. apply HE. by apply list_elem_of_further.
Qed.

Lemma lseg_insert m L nxt p n : p ∉ L.*1 -> lseg m L nxt -> lseg (<[p := n]> m) L nxt.
Proof. intros Hp. apply lseg_frame. intros q Hq. rewrite lookup_insert_ne; [done|]. intros ->. done. Qed.
Lemma lseg_delete m L nxt p : p ∉ L.*1 -> lseg m L nxt -> lseg (delete p m) L nxt.
Proof. intros Hp. apply lseg_frame. intros q Hq. rewrite lookup_delete_ne; [done|]. intros ->. done. Qed.

(** The last node of a segment points elsewhere. *)
Lemma lseg_relink m L p d nxt nxt' :
  p ∉ L.*1 -> lseg m (L ++ [(p, d)]) nxt -> lseg (<[p := MkNode d nxt']> m) (L ++ [(p, d)]) nxt'.
Proof.
  intros Hp [H1 H2]%lseg_app. apply lseg_app. split; [by apply lseg_insert|].
  cbn [lseg] in *. destruct H2 as (Hn & _ & _). split_and!; [done|apply lookup_insert_eq|done].
Qed.

Section invariant.
Context {H : Type} {HP : HeapProvider H} {HL : HeapLaws H}.
Implicit Types (s : ll_state H) (ll : LinkedList).

(** [B] are the live blocks of the heap: the nodes of the list are among them. *)
Record ll_inv (B : gmap Z Z) ll L s : Prop := {
  li_heap : hp_inv (ll_heap s) B;
  li_head : ll_head ll = head_of L;
  li_size : ll_size ll = Z.of_nat (length L) /\ Z.of_nat (length L) < 2 ^ 64;
  li_seg : lseg (ll_nodes s) L NULL;
  li_nodup : NoDup L.*1;
  li_live : forall p, p ∈ L.*1 -> is_Some (B !! p)
}.

Lemma lseg_length m L nxt : lseg m L nxt -> NoDup L.*1 -> (length L <= size m)%nat.
Proof.
  intros HS ND. rewrite <-(length_fmap fst), <-(size_list_to_set (C := gset Z)) by done.
  rewrite <-size_dom. apply subseteq_size. intros p Hp%elem_of_list_to_set.
  clear ND. induction L as [|[q d] L IH]; [by apply elem_of_nil in Hp|].
  destruct HS as (_ & Hq & HS). apply elem_of_cons in Hp as [->|Hp]; [|by apply IH].
  apply elem_of_dom. by eexists.
Qed.

Lemma head_null L s : lseg (ll_nodes s) L NULL -> (head_of L =? NULL) = true -> L = [].
Proof. destruct L as [|[p d] L]; [done|]. cbn. intros (Hn & _) E%Z.eqb_eq. contradiction. Qed.

(** ** Blocks *)

Lemma alloc_spec B s :
  hp_inv (ll_heap s) B -> hp_serves (ll_heap s) sizeof_LinkedListNode ->
  exists p k h, zoom ll_heap_lens (hp_kmalloc sizeof_LinkedListNode) s = Ok (p, LLState h (ll_nodes s)) /\
    B !! p = None /\ p <> NULL /\ hp_inv h (<[p := k]> B).
Proof.
  intros HI HS. destruct (hp_kmalloc_ok _ _ _ HI HS) as (p & k & h & R & _ & Hf & _ & Hp & HI' & _).
  exists p, k, h. unfold zoom. cbn [view ll_heap_lens]. rewrite R. split_and!; [done|done| |done].
  unfold NULL. lia.
Qed.

Lemma free_spec B s p :
  hp_inv (ll_heap s) B -> is_Some (B !! p) ->
  exists h, free_node p s = Ok (tt, LLState h (delete p (ll_nodes s))) /\ hp_inv h (delete p B).
Proof.
  intros HI [n Hn]. destruct (hp_kfree_ok _ _ _ _ HI Hn) as (h & R & HI' & _).
  exists h. split; [|done]. unfold free_node, bind, zoom. cbn [view ll_heap_lens]. by rewrite R.
Qed.

Lemma read_node_at p n s : ll_nodes s !! p = Some n -> read_node p s = Ok (n, s).
Proof. unfold read_node. by intros ->. Qed.

(** ** Walking *)

Lemma advance_spec L s node i bound fuel :
  lseg (ll_nodes s) L NULL -> node = head_of L -> 0 <= i -> (length L < fuel)%nat ->
  advance fuel i bound node s =
    if bound - i <=? Z.of_nat (length L) then
      Ok (head_of (drop (Z.to_nat (bound - i)) L), s)
    else Panic FAILED_ASSERT.
Proof.
  revert L node i. induction fuel as [|fuel IH]; intros L node i HS -> Hi Hf; [lia|]. cbn [advance].
  destruct (Z.ltb_spec i bound) as [Hlt|Hge].
  - destruct L as [|[p d] L].
    + cbn. rewrite (proj2 (Z.leb_gt _ _)) by (cbn; lia). done.
    + cbn [lseg] in HS. destruct HS as (Hn & Hp & HS). cbn [head_of].
      rewrite (proj2 (Z.eqb_neq _ _) Hn). cbn [negb].
      rewrite (bind_ok _ _ _ tt s) by done. rewrite (bind_ok _ _ _ _ _ (read_node_at _ _ _ Hp)). cbn [node_next].
      rewrite (IH L); [|done|by destruct L|lia|cbn in Hf; lia].
      replace (bound - (i + 1)) with (bound - i - 1) by lia. cbn [length].
      replace (Z.to_nat (bound - i)) with (S (Z.to_nat (bound - i - 1))) by lia. cbn [drop].
      destruct (Z.leb_spec (bound - i - 1) (Z.of_nat (length L)));
        destruct (Z.leb_spec (bound - i) (Z.of_nat (S (length L)))); try lia; done.
  - rewrite (proj2 (Z.leb_le _ _)) by lia. replace (Z.to_nat (bound - i)) with 0%nat by lia. done.
Qed.

Lemma advance_to_spec B ll L s bound :
  ll_inv B ll L s -> 0 <= bound ->
  advance_to bound (ll_head ll) s =
    if bound <=? Z.of_nat (length L) then Ok (head_of (drop (Z.to_nat bound) L), s)
    else Panic FAILED_ASSERT.
Proof.
  intros [HI Hh Hz HS ND HB] Hb. unfold advance_to.
  rewrite (bind_ok _ _ _ (S (S (size (ll_nodes s)))) s) by done.
  rewrite (advance_spec L) by (try done; pose proof (lseg_length _ _ _ HS ND); lia).
  by rewrite Z.sub_0_r.
Qed.

(** ** Operations on the list *)

Lemma lseg_cons m p d L : lseg m ((p, d) :: L) NULL <->
  p <> NULL /\ m !! p = Some (MkNode d (head_of L)) /\ lseg m L NULL.
Proof. cbn [lseg]. by destruct L as [|[q e] L]. Qed.

Lemma ll_inv_nodup B ll L1 p d L2 s :
  ll_inv B ll (L1 ++ (p, d) :: L2) s -> (p ∉ L1.*1) /\ (p ∉ L2.*1) /\ NoDup (L1.*1 ++ L2.*1).
Proof.
  intros [_ _ _ _ ND _]. rewrite fmap_app in ND. cbn [fmap list_fmap fst] in ND.
  apply NoDup_app in ND as (ND1 & Hd & [Hp ND2]%NoDup_cons). split_and!; [|done|].
  - intros Hin. apply (Hd p Hin). apply list_elem_of_here.
  - apply NoDup_app. split_and!; [done| |done]. intros x Hx Hx2. apply (Hd x Hx). by apply list_elem_of_further.
Qed.

Lemma ll_inv_node B ll L1 p d L2 s :
  ll_inv B ll (L1 ++ (p, d) :: L2) s ->
  p <> NULL /\ ll_nodes s !! p = Some (MkNode d (head_of L2)) /\
  lseg (ll_nodes s) L1 p /\ lseg (ll_nodes s) L2 NULL /\
  negb (ll_head ll =? NULL) && negb (ll_size ll =? 0) = true.
Proof.
  intros [_ Hh [Hz Hl] HS _ _]. apply lseg_app in HS as HS'. destruct HS' as [HS1 HS2]. apply lseg_cons in HS2 as (Hp & Hn & HS2).
  split_and!; [done|done|done|done|]. apply andb_true_iff. split; apply negb_true_iff, Z.eqb_neq.
  - rewrite Hh. destruct L1 as [|[q e] L1]; [done|]. by destruct HS1 as (? & _).
  - rewrite Hz, length_app. cbn. lia.
Qed.

Lemma push_front_spec B ll L s d :
  ll_inv B ll L s -> hp_serves (ll_heap s) sizeof_LinkedListNode -> Z.of_nat (length L) + 1 < 2 ^ 64 ->
  exists p k ll' s', linked_list_push_front ll d s = Ok (ll', s') /\ B !! p = None /\
    ll_inv (<[p := k]> B) ll' ((p, d) :: L) s'.
Proof.
  intros [HI Hh [Hz Hl] HS ND HB] HSv Hlt. destruct (alloc_spec _ _ HI HSv) as (p & k & h & R & Hf & Hp & HI').
  assert (HpL : p ∉ L.*1) by (intros Hin; destruct (HB p Hin); congruence).
  eexists p, k, _, _. split; [|split; [exact Hf|]].
  - unfold linked_list_push_front, new_node. rewrite bind_assoc, (bind_ok _ _ _ _ _ R). reflexivity.
  - split; cbn [ll_heap ll_nodes ll_head ll_size set_nodes].
    + done.
    + done.
    + cbn [length]. rewrite Hz, wrap64_small by lia. lia.
    + apply lseg_cons. split_and!; [done|rewrite Hh; apply lookup_insert_eq|by apply lseg_insert].
    + apply NoDup_cons. by split.
    + intros q [->|Hq]%elem_of_cons; [rewrite lookup_insert_eq; by eexists|].
      rewrite lookup_insert_ne; [by apply HB|]. intros ->. contradiction.
Qed.

Lemma pop_front_spec B ll p d L s :
  ll_inv B ll ((p, d) :: L) s ->
  exists ll' s', linked_list_pop_front ll s = Ok (ll', s') /\ ll_inv (delete p B) ll' L s'.
Proof.
  intros HI0. destruct (ll_inv_node B ll [] p d L s HI0) as (Hp & Hn & _ & HS2 & HA).
  destruct (ll_inv_nodup B ll [] p d L s HI0) as (_ & HpL & ND). destruct HI0 as [HI Hh [Hz Hl] HS _ HB].
  cbn [app head_of length] in *.
  destruct (free_spec _ _ _ HI (HB p (list_elem_of_here _ _))) as (h & R & HI').
  eexists _, _. split.
  - unfold linked_list_pop_front. rewrite HA, (bind_ok _ _ _ tt s) by done. rewrite Hh.
    rewrite (bind_ok _ _ _ _ _ (read_node_at _ _ _ Hn)), (bind_ok _ _ _ _ _ R). reflexivity.
  - split; cbn [ll_heap ll_nodes ll_head ll_size node_next].
    + done.
    + done.
    + rewrite Hz, wrap64_small by lia. lia.
    + by apply lseg_delete.
    + done.
    + intros q Hq. rewrite lookup_delete_ne; [by apply HB, list_elem_of_further|]. intros ->. contradiction.
Qed.

Lemma insert_after_spec B ll L1 p d L2 s e :
  ll_inv B ll (L1 ++ (p, d) :: L2) s -> hp_serves (ll_heap s) sizeof_LinkedListNode ->
  Z.of_nat (length (L1 ++ (p, d) :: L2)) + 1 < 2 ^ 64 ->
  exists q k ll' s', linked_list_insert_after ll p e s = Ok (ll', s') /\ B !! q = None /\
    ll_inv (<[q := k]> B) ll' (L1 ++ (p, d) :: (q, e) :: L2) s'.
Proof.
  intros HI0 HSv Hlt. destruct (ll_inv_node _ _ _ _ _ _ _ HI0) as (Hp & Hn & HS1 & HS2 & HA).
  destruct (ll_inv_nodup _ _ _ _ _ _ _ HI0) as (Hp1 & Hp2 & ND). destruct HI0 as [HI Hh [Hz Hl] HS ND0 HB].
  destruct (alloc_spec _ _ HI HSv) as (q & k & h & R & Hf & Hq & HI').
  assert (HqL : q ∉ (L1 ++ (p, d) :: L2).*1) by (intros Hin; destruct (HB q Hin); congruence).
  pose proof HqL as HqL'. rewrite fmap_app in HqL'. cbn [fmap list_fmap fst] in HqL'.
  apply not_elem_of_app in HqL' as [Hq1 [Hqp Hq2]%not_elem_of_cons].
  eexists q, k, _, _. split; [|split; [exact Hf|]].
  - unfold linked_list_insert_after. rewrite HA, (proj2 (Z.eqb_neq p NULL) Hp). cbn [andb negb].
    rewrite (bind_ok _ _ _ tt s) by done. rewrite (bind_ok _ _ _ _ _ R).
    rewrite (bind_ok _ _ _ (MkNode d (head_of L2)) (LLState h (ll_nodes s))) by (by apply read_node_at).
    cbn [node_next]. set (s2 := LLState h (<[q := MkNode e (head_of L2)]> (ll_nodes s))).
    rewrite (bind_ok _ _ _ tt s2) by done.
    rewrite (bind_ok _ _ _ (MkNode d (head_of L2)) s2).
    2: { apply read_node_at. cbn. by rewrite lookup_insert_ne. }
    reflexivity.
  - split; cbn [ll_heap ll_nodes ll_head ll_size set_nodes node_data].
    + done.
    + rewrite Hh. by destruct L1 as [|[? ?] ?].
    + rewrite Hz, !length_app in *. cbn [length] in *. rewrite wrap64_small by lia. lia.
    + apply lseg_app. split; [by apply lseg_insert, lseg_insert|].
      rewrite !lseg_cons. cbn [head_of]. split_and!; [done|apply lookup_insert_eq|done| |].
      * rewrite lookup_insert_ne by congruence. apply lookup_insert_eq.
      * by apply lseg_insert, lseg_insert.
    + rewrite fmap_app in *. cbn [fmap list_fmap fst] in *.
      rewrite (NoDup_Permutation_proper _ (q :: L1.*1 ++ p :: L2.*1)).
      * apply NoDup_cons. by split.
      * rewrite (Permutation_swap q p). by rewrite <-Permutation_middle.
    + intros x Hx. destruct (decide (x = q)) as [->|Hne]; [rewrite lookup_insert_eq; by eexists|].
      rewrite lookup_insert_ne by done. apply HB. rewrite fmap_app in *. cbn [fmap list_fmap fst] in *.
      apply elem_of_app in Hx as [Hx|[->|[->|Hx]%elem_of_cons]%elem_of_cons]; [|set_solver..|set_solver].
      apply elem_of_app. by left.
Qed.

Lemma remove_after_spec B ll L1 p d q e L2 s :
  ll_inv B ll (L1 ++ (p, d) :: (q, e) :: L2) s ->
  exists ll' s', linked_list_remove_after ll p s = Ok (ll', s') /\
    ll_inv (delete q B) ll' (L1 ++ (p, d) :: L2) s'.
Proof.
  intros HI0. destruct (ll_inv_node _ _ _ _ _ _ _ HI0) as (Hp & Hn & HS1 & HS2 & HA).
  apply lseg_cons in HS2 as (Hq & Hnq & HS2).
  assert (HIq : ll_inv B ll ((L1 ++ [(p, d)]) ++ (q, e) :: L2) s) by (by rewrite <-app_assoc).
  destruct (ll_inv_nodup _ _ _ _ _ _ _ HIq) as (Hq1 & Hq2 & NDq).
  destruct (ll_inv_nodup _ _ _ _ _ _ _ HI0) as (Hp1 & Hp2 & _). cbn [fmap list_fmap fst] in Hp2.
  apply not_elem_of_cons in Hp2 as [Hpq Hp2]. rewrite fmap_app in Hq1. apply not_elem_of_app in Hq1 as [Hq1 _].
  destruct HI0 as [HI Hh [Hz Hl] HS ND HB].
  destruct (free_spec _ _ q HI) as (h & R & HI').
  { apply HB. rewrite fmap_app. cbn [fmap list_fmap fst]. set_solver. }
  eexists _, _. split.
  - unfold linked_list_remove_after. rewrite HA, (proj2 (Z.eqb_neq p NULL) Hp). cbn [andb negb].
    rewrite (bind_ok _ _ _ tt s) by done. rewrite (bind_ok _ _ _ _ _ (read_node_at p _ _ Hn)). cbn [node_next head_of].
    rewrite (proj2 (Z.eqb_neq q NULL) Hq). cbn [negb]. rewrite (bind_ok _ _ _ tt s) by done.
    rewrite (bind_ok _ _ _ _ _ (read_node_at q _ _ Hnq)), (bind_ok _ _ _ _ _ R).
    rewrite (bind_ok _ _ _ (MkNode d q) (LLState h (delete q (ll_nodes s)))).
    2: { apply read_node_at. cbn. by rewrite lookup_delete_ne. }
    reflexivity.
  - split; cbn [ll_heap ll_nodes ll_head ll_size set_nodes node_data node_next].
    + done.
    + rewrite Hh. by destruct L1 as [|[? ?] ?].
    + rewrite Hz, !length_app in *. cbn [length] in *. rewrite wrap64_small by lia. lia.
    + apply lseg_app. split; [by apply lseg_insert, lseg_delete|].
      apply lseg_cons. split_and!; [done|apply lookup_insert_eq|]. by apply lseg_insert, lseg_delete.
    + rewrite !fmap_app in *. cbn [fmap list_fmap fst] in *. rewrite <-app_assoc in NDq. exact NDq.
    + intros x Hx. rewrite !fmap_app in *. cbn [fmap list_fmap fst] in *.
      rewrite lookup_delete_ne by set_solver. apply HB. set_solver.
Qed.

(** ** Refinement of the list

    What an operation does to the list of the nodes: a new one is put at a position,
    the one at a position is taken out, or an assertion fails. *)

Inductive ll_op : Type :=
| PushFront (d : Z)
| PopFront
| InsertAt (i d : Z)
| RemoveAt (i : Z)
| InsertAfter (node d : Z)
| RemoveAfter (node : Z).

Definition run_op (op : ll_op) (ll : LinkedList) : M (ll_state H) LinkedList :=
  match op with
  | PushFront d => linked_list_push_front ll d
  | PopFront => linked_list_pop_front ll
  | InsertAt i d => linked_list_insert_at ll i d
  | RemoveAt i => linked_list_remove_at ll i
  | InsertAfter node d => linked_list_insert_after ll node d
  | RemoveAfter node => linked_list_remove_after ll node
  end.

Inductive effect : Type :=
| Inserts (i : nat) (d : Z)
| Removes (i : nat)
| Fails.

Definition remove_effect (L : list (Z * Z)) (i : nat) : effect :=
  if bool_decide (i < length L)%nat then Removes i else Fails.
Definition insert_effect (L : list (Z * Z)) (i : nat) (d : Z) : effect :=
  if bool_decide (i <= length L)%nat then Inserts i d else Fails.

(** The place of a node, counted from the head. *)
Definition place (node : Z) (L : list (Z * Z)) : option nat := fst <$> list_find (fun x => x.1 = node) L.

Definition spec_op (op : ll_op) (L : list (Z * Z)) : effect :=
  match op with
  | PushFront d => insert_effect L 0 d
  | PopFront => remove_effect L 0
  | InsertAt i d => insert_effect L (Z.to_nat i) d
  | RemoveAt i => remove_effect L (Z.to_nat i)
  | InsertAfter node d => match place node L with Some i => insert_effect L (S i) d | None => Fails end
  | RemoveAfter node => match place node L with Some i => remove_effect L (S i) | None => Fails end
  end.

(** The index is a 64-bit number; the node is one of the list, or NULL. *)
Definition op_ok (op : ll_op) (L : list (Z * Z)) : Prop :=
  match op with
  | InsertAt i _ | RemoveAt i => 0 <= i < 2 ^ 64
  | InsertAfter node _ | RemoveAfter node => node ∈ L.*1 \/ node = NULL
  | _ => True
  end.
Definition op_allocates (op : ll_op) : bool :=
  match op with PushFront _ | InsertAt _ _ | InsertAfter _ _ => true | _ => false end.

Lemma place_in node L : NoDup L.*1 -> node ∈ L.*1 ->
  exists L1 d L2, L = L1 ++ (node, d) :: L2 /\ place node L = Some (length L1).
Proof.
  intros ND Hin. unfold place. destruct (list_find (fun x => x.1 = node) L) as [[i [p d]]|] eqn:E.
  - apply list_find_Some in E as (Hi & Hp & _). cbn in Hp. subst p.
    exists (take i L), d, (drop (S i) L). split; [symmetry; by apply take_drop_middle|]. cbn.
    apply lookup_lt_Some in Hi. rewrite length_take. f_equal. lia.
  - apply list_find_None in E. rewrite Forall_forall in E. apply list_elem_of_fmap in Hin as (x & -> & Hx). by destruct (E x Hx).
Qed.

Lemma place_null B ll L s : ll_inv B ll L s -> place NULL L = None.
Proof.
  intros HI. unfold place. destruct (list_find _ L) as [[i [p d]]|] eqn:E; [exfalso|done].
  apply list_find_Some in E as (Hi & Hp & _). cbn in Hp. subst p. apply list_elem_of_split_length in Hi as (L1 & L2 & -> & _).
  by destruct (ll_inv_node _ _ _ _ _ _ _ HI).
Qed.

Lemma split_at (i : Z) L :
  0 < i <= Z.of_nat (length L) ->
  exists p d, L = take (Z.to_nat (i - 1)) L ++ (p, d) :: drop (Z.to_nat i) L /\
    drop (Z.to_nat (i - 1)) L = (p, d) :: drop (Z.to_nat i) L.
Proof.
  intros Hi. destruct (L !! Z.to_nat (i - 1)) as [[p d]|] eqn:E.
  - exists p, d. replace (Z.to_nat i) with (S (Z.to_nat (i - 1))) by lia. split.
    + symmetry. by apply take_drop_middle.
    + by apply drop_S.
  - apply lookup_ge_None in E. lia.
Qed.

Lemma not_empty_assert B ll L s :
  ll_inv B ll L s -> L <> [] -> negb (ll_head ll =? NULL) && negb (ll_size ll =? 0) = true.
Proof. intros HI Hne. destruct L as [|[p d] L]; [done|]. by destruct (ll_inv_node B ll [] p d L s HI) as (_ & _ & _ & _ & ?). Qed.

Lemma empty_assert B ll s : ll_inv B ll [] s -> negb (ll_head ll =? NULL) = false.
Proof. intros [_ -> _ _ _ _]. done. Qed.

Lemma insert_at_spec B ll L s i e :
  ll_inv B ll L s -> 0 < i < 2 ^ 64 -> hp_serves (ll_heap s) sizeof_LinkedListNode ->
  Z.of_nat (length L) + 1 < 2 ^ 64 ->
  if i <=? Z.of_nat (length L) then
    exists q k ll' s', linked_list_insert_at ll i e s = Ok (ll', s') /\ B !! q = None /\
      ll_inv (<[q := k]> B) ll' (take (Z.to_nat i) L ++ (q, e) :: drop (Z.to_nat i) L) s'
  else linked_list_insert_at ll i e s = Panic FAILED_ASSERT.
Proof.
  intros HI Hi HSv Hlt. unfold linked_list_insert_at. rewrite (proj2 (Z.eqb_neq i 0)) by lia.
  rewrite (wrap64_small (i - 1)) by lia. pose proof (advance_to_spec B ll L s (i - 1) HI ltac:(lia)) as RA.
  destruct (Z.leb_spec i (Z.of_nat (length L))) as [Hle|Hgt].
  - rewrite (proj2 (Z.leb_le _ _)) in RA by lia.
    destruct (split_at i L) as (p & d & EL & ED); [lia|]. rewrite ED in RA. cbn [head_of] in RA.
    pose proof HI as HI'. rewrite EL in HI'.
    destruct (insert_after_spec _ _ _ _ _ _ _ e HI' HSv) as (q & k & ll' & s' & R & Hf & I'); [by rewrite <-EL|].
    exists q, k, ll', s'. rewrite (bind_ok _ _ _ _ _ RA). split; [done|]. split; [done|].
    replace (take (Z.to_nat i) L) with (take (Z.to_nat (i - 1)) L ++ [(p, d)]).
    { by rewrite <-app_assoc. }
    replace (Z.to_nat i) with (S (Z.to_nat (i - 1))) by lia. symmetry. apply take_S_r.
    rewrite EL at 1. rewrite lookup_app_r; rewrite length_take; [|lia].
    replace (_ - _)%nat with 0%nat by lia. done.
  - destruct (Z.leb_spec (i - 1) (Z.of_nat (length L))).
    + rewrite (bind_ok _ _ _ _ _ RA). rewrite drop_ge by lia. cbn [head_of].
      unfold linked_list_insert_after. cbn. by rewrite andb_false_r.
    + unfold bind. by rewrite RA.
Qed.

Lemma remove_at_spec B ll L s i :
  ll_inv B ll L s -> 0 < i < 2 ^ 64 ->
  if i <? Z.of_nat (length L) then
    exists q e ll' s', L !! Z.to_nat i = Some (q, e) /\ linked_list_remove_at ll i s = Ok (ll', s') /\
      ll_inv (delete q B) ll' (take (Z.to_nat i) L ++ drop (S (Z.to_nat i)) L) s'
  else linked_list_remove_at ll i s = Panic FAILED_ASSERT.
Proof.
  intros HI Hi. unfold linked_list_remove_at. destruct (decide (L = [])) as [->|Hne].
  { rewrite (proj2 (Z.ltb_ge _ _)) by (cbn; lia). by rewrite (empty_assert _ _ _ HI). }
  rewrite (not_empty_assert _ _ _ _ HI Hne).
  rewrite (proj2 (Z.eqb_neq i 0)), (wrap64_small (i - 1)) by lia.
  pose proof (advance_to_spec B ll L s (i - 1) HI ltac:(lia)) as RA.
  destruct (Z.ltb_spec i (Z.of_nat (length L))) as [Hle|Hgt].
  - rewrite (proj2 (Z.leb_le _ _)) in RA by lia.
    destruct (split_at i L) as (p & d & EL & ED); [lia|]. rewrite ED in RA. cbn [head_of] in RA.
    destruct (drop (Z.to_nat i) L) as [|[q e] L2] eqn:E2.
    { apply (f_equal length) in E2. rewrite length_drop in E2. cbn in E2. lia. }
    pose proof HI as HI'. rewrite EL in HI'.
    destruct (remove_after_spec _ _ _ _ _ _ _ _ _ HI') as (ll' & s' & R & I').
    exists q, e, ll', s'. split.
    { rewrite <-(Nat.add_0_r (Z.to_nat i)), <-lookup_drop, E2. done. }
    rewrite (bind_ok _ _ _ tt s) by done. rewrite (bind_ok _ _ _ _ _ RA). split; [done|].
    assert (ET : take (Z.to_nat i) L = take (Z.to_nat (i - 1)) L ++ [(p, d)]).
    { replace (Z.to_nat i) with (S (Z.to_nat (i - 1))) by lia. apply take_S_r. rewrite EL at 1.
      rewrite lookup_app_r; rewrite length_take; [|lia]. replace (_ - _)%nat with 0%nat by lia. done. }
    assert (drop (S (Z.to_nat i)) L = L2) as ->.
    { replace (S (Z.to_nat i)) with (Z.to_nat i + 1)%nat by lia. by rewrite <-drop_drop, E2. }
    by rewrite ET, <-app_assoc.
  - rewrite (bind_ok _ _ _ tt s) by done. destruct (Z.leb_spec (i - 1) (Z.of_nat (length L))).
    + rewrite (bind_ok _ _ _ _ _ RA). unfold linked_list_remove_after.
      rewrite (not_empty_assert _ _ _ _ HI Hne). cbn [andb].
      destruct (drop (Z.to_nat (i - 1)) L) as [|[p d] L2] eqn:ED; [done|]. cbn [head_of].
      assert (EL : L = take (Z.to_nat (i - 1)) L ++ (p, d) :: L2) by (rewrite <-ED; symmetry; apply take_drop).
      assert (L2 = []) as ->.
      { apply (f_equal length) in ED. rewrite length_drop in ED. cbn in ED. destruct L2; [done|cbn in ED; lia]. }
      pose proof HI as HI'. rewrite EL in HI'. destruct (ll_inv_node _ _ _ _ _ _ _ HI') as (Hp & Hn & _).
      rewrite (proj2 (Z.eqb_neq p NULL) Hp). cbn [negb]. rewrite (bind_ok _ _ _ tt s) by done.
      by rewrite (bind_ok _ _ _ _ _ (read_node_at p _ _ Hn)).
    + unfold bind. by rewrite RA.
Qed.

Lemma insert_after_place B ll L s node d :
  ll_inv B ll L s -> node ∈ L.*1 \/ node = NULL -> hp_serves (ll_heap s) sizeof_LinkedListNode -> Z.of_nat (length L) + 1 < 2 ^ 64 ->
  match place node L with
  | Some i => (i < length L)%nat /\ exists q k ll' s', linked_list_insert_after ll node d s = Ok (ll', s') /\ B !! q = None /\
      ll_inv (<[q := k]> B) ll' (take (S i) L ++ (q, d) :: drop (S i) L) s'
  | None => linked_list_insert_after ll node d s = Panic FAILED_ASSERT
  end.
Proof.
  intros HI Hin HSv Hlt. destruct (decide (node = NULL)) as [->|Hn].
  { rewrite (place_null _ _ _ _ HI). unfold linked_list_insert_after. cbn. by rewrite andb_false_r. }
  destruct Hin as [Hin|?]; [|done]. destruct (place_in node L (li_nodup _ _ _ _ HI) Hin) as (L1 & e & L2 & -> & ->).
  split; [rewrite length_app; cbn; lia|].
  destruct (insert_after_spec _ _ _ _ _ _ _ d HI HSv Hlt) as (q & k & ll' & s' & R & Hf & I').
  exists q, k, ll', s'. split_and!; [done|done|]. change (S (length L1)) with (1 + length L1)%nat.
  rewrite Nat.add_comm, take_app_add, drop_app_add. cbn. by rewrite <-app_assoc.
Qed.

Lemma remove_after_place B ll L s node :
  ll_inv B ll L s -> node ∈ L.*1 \/ node = NULL ->
  match place node L with
  | Some i =>
      if bool_decide (S i < length L)%nat then
        exists q e ll' s', L !! S i = Some (q, e) /\ linked_list_remove_after ll node s = Ok (ll', s') /\
          ll_inv (delete q B) ll' (take (S i) L ++ drop (S (S i)) L) s'
      else linked_list_remove_after ll node s = Panic FAILED_ASSERT
  | None => linked_list_remove_after ll node s = Panic FAILED_ASSERT
  end.
Proof.
  intros HI Hin. destruct (decide (node = NULL)) as [->|Hn].
  { rewrite (place_null _ _ _ _ HI). unfold linked_list_remove_after. cbn. by rewrite andb_false_r. }
  destruct Hin as [Hin|?]; [|done]. destruct (place_in node L (li_nodup _ _ _ _ HI) Hin) as (L1 & d & L2 & -> & ->).
  rewrite length_app. destruct L2 as [|[q e] L2]; cbn [length].
  - rewrite bool_decide_eq_false_2 by lia. destruct (ll_inv_node _ _ _ _ _ _ _ HI) as (Hp & Hnd & _ & _ & HA).
    unfold linked_list_remove_after. rewrite HA, (proj2 (Z.eqb_neq node NULL) Hp). cbn [andb negb].
    rewrite (bind_ok _ _ _ tt s) by done. by rewrite (bind_ok _ _ _ _ _ (read_node_at _ _ _ Hnd)).
  - rewrite bool_decide_eq_true_2 by lia. destruct (remove_after_spec _ _ _ _ _ _ _ _ _ HI) as (ll' & s' & R & I').
    exists q, e, ll', s'. split_and!; [|done|].
    + rewrite lookup_app_r by lia. by replace (S (length L1) - length L1)%nat with 1%nat by lia.
    + replace (S (length L1)) with (length L1 + 1)%nat by lia. replace (S (length L1 + 1)) with (length L1 + 2)%nat by lia.
      rewrite take_app_add, drop_app_add. cbn. by rewrite <-app_assoc.
Qed.

(** C19: push_front, pop_front, insert_at, remove_at, insert_after and remove_after
    on a chain of heap nodes do what they do on the list of (node, data): an insertion
    allocates one new block and puts it at the position, a removal takes out the node at
    the position and frees exactly its block, all other nodes and blocks stay, and the
    operations on an empty list or beyond the end fail an assertion.
    (linked_list_get_at, which counts from one, is not among them.) *)
Theorem linked_list_refines_list B ll L s op :
  ll_inv B ll L s -> op_ok op L ->
  (op_allocates op = true -> hp_serves (ll_heap s) sizeof_LinkedListNode /\ Z.of_nat (length L) + 1 < 2 ^ 64) ->
  match spec_op op L with
  | Inserts i d => exists q k ll' s', run_op op ll s = Ok (ll', s') /\ B !! q = None /\
      ll_inv (<[q := k]> B) ll' (take i L ++ (q, d) :: drop i L) s'
  | Removes i => exists q d ll' s', L !! i = Some (q, d) /\ run_op op ll s = Ok (ll', s') /\
      ll_inv (delete q B) ll' (take i L ++ drop (S i) L) s'
  | Fails => run_op op ll s = Panic FAILED_ASSERT
  end.
Proof.
  intros HI Hok HA. pose proof (li_size _ _ _ _ HI) as [_ Hl].
  destruct op as [d| |i d|i|p d|p]; cbn [run_op spec_op op_ok op_allocates] in *; unfold insert_effect, remove_effect.
  - destruct (HA eq_refl) as [HSv Hlt]. rewrite bool_decide_eq_true_2 by lia. by apply push_front_spec.
  - destruct L as [|[p d] L]; cbn [length].
    + unfold linked_list_pop_front. by rewrite (empty_assert _ _ _ HI).
    + destruct (pop_front_spec _ _ _ _ _ _ HI) as (ll' & s' & R & I'). by exists p, d, ll', s'.
  - destruct (HA eq_refl) as [HSv Hlt]. destruct (decide (i = 0)) as [->|Hi0].
    + rewrite bool_decide_eq_true_2 by (cbn; lia). by apply push_front_spec.
    + pose proof (insert_at_spec _ _ _ _ i d HI ltac:(lia) HSv Hlt) as HS.
      destruct (Z.leb_spec i (Z.of_nat (length L))); [rewrite bool_decide_eq_true_2 by lia|rewrite bool_decide_eq_false_2 by lia]; done.
  - destruct (decide (i = 0)) as [->|Hi0].
    + destruct L as [|[p d] L]; cbn [length].
      * unfold linked_list_remove_at. by rewrite (empty_assert _ _ _ HI).
      * destruct (pop_front_spec _ _ _ _ _ _ HI) as (ll' & s' & R & I').
        exists p, d, ll', s'. split_and!; [done| |done]. unfold linked_list_remove_at.
        rewrite (not_empty_assert _ _ _ _ HI) by done. by rewrite (bind_ok _ _ _ tt s).
    + pose proof (remove_at_spec _ _ _ _ i HI ltac:(lia)) as HS.
      destruct (Z.ltb_spec i (Z.of_nat (length L))); [rewrite bool_decide_eq_true_2 by lia|rewrite bool_decide_eq_false_2 by lia]; done.
  - destruct (HA eq_refl) as [HSv Hlt]. pose proof (insert_after_place _ _ _ _ p d HI Hok HSv Hlt) as HS.
    destruct (place p L) as [i|]; [|done]. destruct HS as [Hi HS]. by rewrite bool_decide_eq_true_2 by lia.
  - pose proof (remove_after_place _ _ _ _ p HI Hok) as HS. destruct (place p L) as [i|]; [|done]. by case_bool_decide.
Qed.

(** [linked_list_get_at] counts from one: index [i] gives the node before the
    one the other operations call [i], the index just after the last node gives
    the last one, and index 0 fails the assertion. *)
Theorem linked_list_get_at_counts_from_one B ll L s i :
  ll_inv B ll L s -> 0 <= i < 2 ^ 64 -> Z.of_nat (length L) < 2 ^ 64 - 1 ->
  linked_list_get_at ll i s =
    if decide (1 <= i <= Z.of_nat (length L) + 1) then Ok (head_of (drop (Z.to_nat (i - 1)) L), s)
    else Panic FAILED_ASSERT.
Proof.
  intros HI Hi Hl. unfold linked_list_get_at. rewrite (advance_to_spec B ll L s _ HI) by (apply wrap_range; lia).
  destruct (decide (i = 0)) as [->|Hi0].
  - change (wrap64 (0 - 1)) with (2 ^ 64 - 1). rewrite decide_False by lia.
    by rewrite (proj2 (Z.leb_gt _ _)) by lia.
  - rewrite wrap64_small by lia.
    destruct (Z.leb_spec (i - 1) (Z.of_nat (length L))); [rewrite decide_True|rewrite decide_False]; done || lia.
Qed.

(** The blocks that are left when those at [ps] are freed. *)
Definition without (ps : list Z) (B : gmap Z Z) : gmap Z Z := foldr (fun p B => delete p B) B ps.

Lemma without_delete p ps B : without ps (delete p B) = delete p (without ps B).
Proof. induction ps as [|q ps IH]; [done|]. unfold without in *. cbn [foldr]. by rewrite IH, delete_delete. Qed.

Lemma destroy_loop_spec B L s fuel :
  hp_inv (ll_heap s) B -> lseg (ll_nodes s) L NULL -> NoDup L.*1 -> (forall p, p ∈ L.*1 -> is_Some (B !! p)) ->
  (length L < fuel)%nat ->
  exists s', destroy_loop fuel (head_of L) s = Ok (tt, s') /\
    hp_inv (ll_heap s') (without L.*1 B).
Proof.
  revert B L s. induction fuel as [|fuel IH]; intros B L s HI HS ND HB Hf; [lia|].
  destruct L as [|[p d] L]; [by exists s|]. apply lseg_cons in HS as (Hp & Hn & HS).
  cbn [fmap list_fmap fst] in ND, HB. apply NoDup_cons in ND as [HpL ND].
  destruct (free_spec _ _ _ HI (HB p (list_elem_of_here _ _))) as (h & R & HI').
  destruct (IH (delete p B) L (LLState h (delete p (ll_nodes s)))) as (s' & R' & HI''); [done|by apply lseg_delete|done| | |].
  { intros q Hq. rewrite lookup_delete_ne; [by apply HB, list_elem_of_further|]. intros ->. contradiction. }
  { cbn in Hf. lia. }
  exists s'. split.
  - cbn [destroy_loop head_of]. rewrite (proj2 (Z.eqb_neq p NULL) Hp).
    rewrite (bind_ok _ _ _ _ _ (read_node_at _ _ _ Hn)), (bind_ok _ _ _ _ _ R). exact R'.
  - cbn [fmap list_fmap fst]. rewrite without_delete in HI''. exact HI''.
Qed.

(** Destroying a list gives every node back to the heap, and only those. *)
Theorem linked_list_destroy_frees_all B ll L s :
  ll_inv B ll L s ->
  exists s', linked_list_destroy ll s = Ok (create_linked_list, s') /\
    hp_inv (ll_heap s') (without L.*1 B).
Proof.
  intros [HI Hh _ HS ND HB]. destruct (destroy_loop_spec B L s (S (size (ll_nodes s))) HI HS ND HB) as (s' & R & HI').
  { pose proof (lseg_length _ _ _ HS ND). lia. }
  exists s'. split; [|done]. unfold linked_list_destroy.
  rewrite (bind_ok _ _ _ (S (size (ll_nodes s))) s) by done. by rewrite Hh, (bind_ok _ _ _ _ _ R).
Qed.

End invariant.
