(* ===== verification/CircularBuffer.v ===== *)
(** * Circular buffer (util/circular_buffer.c)

    A block of the kernel heap used as a ring of bytes.  [cb_inv] relates the
    indices to the queue of bytes that were written and not yet read. *)

From S2P Require Import Prelude Memory Interfaces.

Record CircularBuffer : Type := MkCircularBuffer {
  buffer : Z; buffer_size : Z; read_idx : Z; old_write_idx : Z; write_idx : Z; data_lost : bool
}.

(** The kernel heap and the bytes of its blocks. *)
Record cb_state (H : Type) : Type := CBState { cb_heap : H; cb_mem : mem }.
Arguments CBState {H}.
Arguments cb_heap {H}.
Arguments cb_mem {H}.

Section operations.
Context {H : Type} {HP : HeapProvider H}.
Abbreviation state := (cb_state H).

Definition cb_heap_lens : lens state H := Lens cb_heap (fun h s => CBState h (cb_mem s)).

(** [old_write_idx] is not initialised: [junk] is what the stack held. *)
Definition make_circular_buffer (junk size : Z) : M state CircularBuffer :=
  p <- zoom cb_heap_lens (hp_kmalloc size);;
  ret (MkCircularBuffer p size 0 junk 0 false).

Definition destory_circular_buffer (buff : CircularBuffer) : M state CircularBuffer :=
  zoom cb_heap_lens (hp_kfree (buffer buff));;
  ret (MkCircularBuffer NULL (buffer_size buff) (read_idx buff) (old_write_idx buff) (write_idx buff)
         (data_lost buff)).

Definition is_circular_buffer_empty (buff : CircularBuffer) : bool := read_idx buff =? write_idx buff.

(** [(idx+1) % buffer_size]; the processor traps on a division by zero. *)
Definition next_idx (idx size : Z) : M state Z :=
  if size =? 0 then fault else ret (wrap64 (idx + 1) mod size).

Definition write_circular_buffer (buff : CircularBuffer) (b : Z) : M state CircularBuffer :=
  let lost := data_lost buff ||
    ((wrap64 (old_write_idx buff - 1) =? read_idx buff) && (write_idx buff =? read_idx buff)) in
  modify (fun s => CBState (cb_heap s) (store8 (cb_mem s) (wrap64 (buffer buff + write_idx buff)) b));;
  w <- next_idx (write_idx buff) (buffer_size buff);;
  ret (MkCircularBuffer (buffer buff) (buffer_size buff) (read_idx buff) (write_idx buff) w lost).

Definition read_circular_buffer (buff : CircularBuffer) : M state (Z * CircularBuffer) :=
  KASSERT (negb (is_circular_buffer_empty buff));;
  b <- gets (fun s => load8 (cb_mem s) (wrap64 (buffer buff + read_idx buff)));;
  r <- next_idx (read_idx buff) (buffer_size buff);;
  ret (b, MkCircularBuffer (buffer buff) (buffer_size buff) r (old_write_idx buff) (write_idx buff)
            (data_lost buff)).

Definition has_circular_buffer_lost_data (buff : CircularBuffer) : bool * CircularBuffer :=
  (data_lost buff, MkCircularBuffer (buffer buff) (buffer_size buff) (read_idx buff) (old_write_idx buff)
     (write_idx buff) false).

Definition circular_buffer_written_bytes (buff : CircularBuffer) : Z :=
  if read_idx buff <? write_idx buff then write_idx buff - read_idx buff
  else wrap64 (buffer_size buff - read_idx buff + write_idx buff).

End operations.

(** ** The queue *)

Section queue.
Context {H : Type} {HP : HeapProvider H}.
Implicit Types (s : cb_state H) (q : list Z) (cb : CircularBuffer).

(** [q] is what a reader will get, oldest byte first. *)
Record cb_inv cb q s : Prop := {
  cb_size : 0 < buffer_size cb < 2 ^ 62;
  cb_buffer : 0 <= buffer cb /\ buffer cb + buffer_size cb <= 2 ^ 64;
  cb_read : 0 <= read_idx cb < buffer_size cb;
  cb_write : write_idx cb = (read_idx cb + Z.of_nat (length q)) mod buffer_size cb;
  cb_room : Z.of_nat (length q) < buffer_size cb;
  cb_bytes : forall i b, q !! i = Some b ->
    load8 (cb_mem s) (buffer cb + (read_idx cb + Z.of_nat i) mod buffer_size cb) = b
}.

Lemma ring_index (r n k : Z) :
  0 <= r < n -> 0 <= k < n -> (r + k) mod n = if r + k <? n then r + k else r + k - n.
Proof.
  intros Hr Hk. destruct (Z.ltb_spec (r + k) n).
  - apply Z.mod_small. lia.
  - symmetry. apply (Z.mod_unique _ _ 1); lia.
Qed.

Lemma ring_write_range cb q s : cb_inv cb q s -> 0 <= write_idx cb < buffer_size cb.
Proof. intros []. rewrite cb_write0. apply Z.mod_pos_bound. lia. Qed.

Lemma ring_empty cb q s : cb_inv cb q s -> is_circular_buffer_empty cb = bool_decide (q = []).
Proof.
  intros []. unfold is_circular_buffer_empty. rewrite cb_write0, ring_index by lia.
  destruct q as [|b q]; cbn [length].
  - rewrite (proj2 (Z.ltb_lt _ _)) by lia. rewrite bool_decide_eq_true_2 by done. apply Z.eqb_eq. lia.
  - rewrite bool_decide_eq_false_2 by done. apply Z.eqb_neq. cbn [length] in cb_room0.
    destruct (Z.ltb_spec (read_idx cb + Z.of_nat (S (length q))) (buffer_size cb)); lia.
Qed.

Lemma next_idx_run i n s : 0 <= i < n -> n < 2 ^ 62 -> next_idx i n s = Ok ((i + 1) mod n, s).
Proof.
  intros Hi Hn. unfold next_idx. rewrite (proj2 (Z.eqb_neq n 0)) by lia. by rewrite wrap64_small by lia.
Qed.

(** The byte at the write index joins the queue: the invariant up to the room. *)
Lemma write_bytes cb q s b i x :
  cb_inv cb q s -> 0 <= b < 256 -> (q ++ [b]) !! i = Some x ->
  load8 (store8 (cb_mem s) (buffer cb + write_idx cb) b)
    (buffer cb + (read_idx cb + Z.of_nat i) mod buffer_size cb) = x.
Proof.
  intros HI Hb Hx. pose proof HI as [Hs Hbf Hr Hw Hl HB].
  assert (Hi : (i <= length q)%nat).
  { apply lookup_lt_Some in Hx. rewrite length_app in Hx. cbn in Hx. lia. }
  destruct (decide (i = length q)) as [->|Hne].
  - rewrite <-Hw, load8_store8_eq. rewrite lookup_app_r, Nat.sub_diag in Hx by lia. injection Hx as <-.
    rewrite Z.mod_small by lia. done.
  - rewrite lookup_app_l in Hx by lia. rewrite load8_store8_ne; [by apply HB|].
    rewrite Hw, !ring_index by lia.
    destruct (Z.ltb_spec (read_idx cb + Z.of_nat i) (buffer_size cb));
      destruct (Z.ltb_spec (read_idx cb + Z.of_nat (length q)) (buffer_size cb)); lia.
Qed.

Lemma write_run cb q s b :
  cb_inv cb q s -> 0 <= b < 256 ->
  exists lost, write_circular_buffer cb b s =
    Ok (MkCircularBuffer (buffer cb) (buffer_size cb) (read_idx cb) (write_idx cb)
          ((read_idx cb + Z.of_nat (S (length q))) mod buffer_size cb) lost,
        CBState (cb_heap s) (store8 (cb_mem s) (buffer cb + write_idx cb) b)) /\
    lost = data_lost cb || ((wrap64 (old_write_idx cb - 1) =? read_idx cb) && (write_idx cb =? read_idx cb)).
Proof.
  intros HI Hb. pose proof (ring_write_range _ _ _ HI) as Hw. destruct HI as [Hs Hbf Hr Ew Hl HB].
  eexists. split; [|reflexivity]. unfold write_circular_buffer. rewrite (wrap64_small (_ + _)) by lia.
  set (s1 := CBState _ _). rewrite (bind_ok _ _ _ tt s1) by done.
  rewrite (bind_ok _ _ _ ((write_idx cb + 1) mod buffer_size cb) s1) by (apply next_idx_run; lia).
  unfold ret. do 3 f_equal. rewrite Ew, Zplus_mod_idemp_l. f_equal. lia.
Qed.

Lemma read_run cb b q s :
  cb_inv cb (b :: q) s ->
  read_circular_buffer cb s =
    Ok ((b, MkCircularBuffer (buffer cb) (buffer_size cb) ((read_idx cb + 1) mod buffer_size cb)
           (old_write_idx cb) (write_idx cb) (data_lost cb)), s).
Proof.
  intros HI. pose proof (ring_empty _ _ _ HI) as HE. destruct HI as [Hs Hbf Hr Ew Hl HB].
  unfold read_circular_buffer. rewrite HE, bool_decide_eq_false_2 by done. cbn [negb].
  rewrite (bind_ok _ _ _ tt s) by done. rewrite (wrap64_small (_ + _)) by lia.
  specialize (HB 0%nat b eq_refl). rewrite Z.add_0_r, Z.mod_small in HB by lia.
  rewrite (bind_ok _ _ _ b s) by (unfold gets; by rewrite HB).
  by rewrite (bind_ok _ _ _ ((read_idx cb + 1) mod buffer_size cb) s) by (apply next_idx_run; lia).
Qed.

(** ** A queue of at most [buffer_size - 1] bytes *)

Lemma cb_write_step cb q s b :
  cb_inv cb q s -> 0 <= b < 256 -> Z.of_nat (length q) + 1 < buffer_size cb ->
  exists cb', write_circular_buffer cb b s = Ok (cb', CBState (cb_heap s) (store8 (cb_mem s) (buffer cb + write_idx cb) b)) /\
    cb_inv cb' (q ++ [b]) (CBState (cb_heap s) (store8 (cb_mem s) (buffer cb + write_idx cb) b)) /\
    buffer cb' = buffer cb /\ buffer_size cb' = buffer_size cb.
Proof.
  intros HI Hb Hroom. destruct (write_run _ _ _ _ HI Hb) as (lost & R & _).
  eexists. split; [exact R|]. split; [|done]. pose proof HI as [Hs Hbf Hr Ew Hl HB].
  split; cbn [buffer buffer_size read_idx write_idx cb_mem]; try done.
  - by rewrite length_app, Nat.add_1_r.
  - rewrite length_app. cbn. lia.
  - intros i x Hx. by eapply write_bytes.
Qed.

Lemma cb_read_step cb b q s :
  cb_inv cb (b :: q) s ->
  exists cb', read_circular_buffer cb s = Ok ((b, cb'), s) /\ cb_inv cb' q s /\ buffer cb' = buffer cb /\ buffer_size cb' = buffer_size cb.
Proof.
  intros HI. eexists. split; [by eapply (read_run cb b q s)|]. destruct HI as [Hs Hbf Hr Ew Hl HB].
  assert (Hsh : forall k, (read_idx cb + 1 + k) mod buffer_size cb =
    ((read_idx cb + 1) mod buffer_size cb + k) mod buffer_size cb) by (intros k; by rewrite Zplus_mod_idemp_l).
  split; [|done]. split; cbn [buffer buffer_size read_idx write_idx]; try done.
  - apply Z.mod_pos_bound. lia.
  - rewrite Ew, <-Hsh. f_equal. cbn [length]. lia.
  - cbn [length] in Hl. lia.
  - intros i x Hx. rewrite <-Hsh. specialize (HB (S i) x Hx).
    replace (read_idx cb + 1 + Z.of_nat i) with (read_idx cb + Z.of_nat (S i)) by lia. exact HB.
Qed.

Lemma cb_written cb q s :
  cb_inv cb q s -> circular_buffer_written_bytes cb = (if decide (q = []) then buffer_size cb else Z.of_nat (length q)).
Proof.
  intros [Hs Hbf Hr Ew Hl HB]. unfold circular_buffer_written_bytes.
  rewrite Ew, ring_index by lia. case_decide as Hq.
  - subst q. cbn [length]. change (Z.of_nat 0) with 0. rewrite Z.add_0_r.
    rewrite (proj2 (Z.ltb_lt _ _) (proj2 Hr)), Z.ltb_irrefl. clear -Hs Hr. rewrite wrap64_small; lia.
  - assert (0 < Z.of_nat (length q)) by (destruct q; [done|cbn; lia]).
    destruct (Z.ltb_spec (read_idx cb + Z.of_nat (length q)) (buffer_size cb)).
    + rewrite (proj2 (Z.ltb_lt _ _)) by lia. lia.
    + rewrite (proj2 (Z.ltb_ge _ _)) by lia. rewrite wrap64_small; lia.
Qed.

(** The bytes of the ring are all that the queue depends on. *)
Lemma cb_inv_ext cb q s s' :
  cb_inv cb q s -> (forall b, buffer cb <= b < buffer cb + buffer_size cb -> load8 (cb_mem s') b = load8 (cb_mem s) b) -> cb_inv cb q s'.
Proof.
  intros [Hs Hbf Hr Ew Hl HB] E. split; try done. intros i b Hi. rewrite E; [by apply HB|].
  pose proof (Z.mod_pos_bound (read_idx cb + Z.of_nat i) (buffer_size cb)). lia.
Qed.

Theorem circular_buffer_is_bounded_queue cb q s :
  cb_inv cb q s ->
  (forall b, 0 <= b < 256 -> Z.of_nat (length q) + 1 < buffer_size cb ->
     exists cb' s', write_circular_buffer cb b s = Ok (cb', s') /\ cb_inv cb' (q ++ [b]) s' /\
       cb_heap s' = cb_heap s) /\
  match q with
  | [] => read_circular_buffer cb s = Panic FAILED_ASSERT
  | b :: q' => exists cb', read_circular_buffer cb s = Ok ((b, cb'), s) /\ cb_inv cb' q' s
  end /\
  circular_buffer_written_bytes cb = (if decide (q = []) then buffer_size cb else Z.of_nat (length q)).
Proof.
  intros HI. split_and!; [| |by eapply cb_written].
  - intros b Hb Hroom. destruct (cb_write_step _ _ _ _ HI Hb Hroom) as (cb' & R & HI' & _). by eexists _, _.
  - destruct q as [|b q].
    + unfold read_circular_buffer. by rewrite (ring_empty _ _ _ HI).
    + destruct (cb_read_step _ _ _ _ HI) as (cb' & R & HI' & _). by exists cb'.
Qed.

(** Writing to a full buffer makes it empty: every byte is lost, and for a buffer
    of three bytes or more the loss is not noticed, neither by this write nor by
    the next one. *)
Theorem circular_buffer_overflow_unnoticed cb q s b c :
  cb_inv cb q s -> Z.of_nat (length q) + 1 = buffer_size cb -> 3 <= buffer_size cb ->
  data_lost cb = false -> 0 <= b < 256 -> 0 <= c < 256 ->
  exists cb1 s1 cb2 s2,
    write_circular_buffer cb b s = Ok (cb1, s1) /\ is_circular_buffer_empty cb1 = true /\
    write_circular_buffer cb1 c s1 = Ok (cb2, s2) /\ has_circular_buffer_lost_data cb2 = (false, cb2).
Proof.
  intros HI Hfull H3 Hd Hb Hc. pose proof HI as [Hs Hbf Hr Ew Hl HB].
  destruct (write_run _ _ _ _ HI Hb) as (lost & R & El).
  assert (Hwr : (write_idx cb =? read_idx cb) = false).
  { apply Z.eqb_neq. rewrite Ew, ring_index by lia.
    destruct (Z.ltb_spec (read_idx cb + Z.of_nat (length q)) (buffer_size cb)); lia. }
  rewrite Hd, Hwr, andb_false_r in El. cbn in El. subst lost.
  assert (Em : (read_idx cb + Z.of_nat (S (length q))) mod buffer_size cb = read_idx cb).
  { replace (read_idx cb + Z.of_nat (S (length q))) with (read_idx cb + 1 * buffer_size cb) by lia.
    rewrite Z_mod_plus_full. apply Z.mod_small. lia. }
  rewrite Em in R.
  match type of R with _ = Ok (?x, ?y) => set (cb1 := x) in R; set (s1 := y) in R end.
  assert (HI1 : cb_inv cb1 [] s1).
  { split; cbn [buffer buffer_size read_idx write_idx cb1 length]; try done; [|lia].
    rewrite Z.add_0_r. symmetry. apply Z.mod_small. lia. }
  destruct (write_run _ _ _ _ HI1 Hc) as (lost & R1 & El1).
  assert (lost = false) as ->.
  { rewrite El1. cbn [data_lost cb1 old_write_idx write_idx read_idx orb]. rewrite Z.eqb_refl, andb_true_r.
    apply Z.eqb_neq. rewrite Ew, ring_index by lia. unfold wrap64, wrap.
    destruct (Z.ltb_spec (read_idx cb + Z.of_nat (length q)) (buffer_size cb)); lia. }
  eexists cb1, s1, _, _. split_and!; [exact R| |exact R1|reflexivity].
  unfold is_circular_buffer_empty, cb1. cbn. apply Z.eqb_refl.
Qed.

End queue.

(** ** A concrete buffer *)

(** A heap whose one block is never given out again. *)
#[local] Instance fixed_heap : HeapProvider unit := {|
  is_kheap_initialzed _ := true;
  hp_kmalloc _ := ret 0xffff800000001000;
  hp_kfree _ := ret tt
|}.

Definition small_buffer : CircularBuffer := MkCircularBuffer 0xffff800000001000 4 3 1 2 false.
Definition small_state : cb_state unit :=
  CBState tt {[ 0xffff800000001003 := 10; 0xffff800000001000 := 20; 0xffff800000001001 := 30 ]}.

Lemma small_inv : cb_inv small_buffer [10; 20; 30] small_state.
Proof.
  split; [by vm_compute|by vm_compute|by vm_compute|by vm_compute|by vm_compute|].
  intros i b Hi. do 3 (destruct i as [|i]; [injection Hi as <-; by vm_compute|]). discriminate Hi.
Qed.

Lemma circular_buffer_is_bounded_queue_witness :
  exists cb', read_circular_buffer small_buffer small_state = Ok ((10, cb'), small_state) /\
    cb_inv cb' [20; 30] small_state.
Proof. exact (proj1 (proj2 (circular_buffer_is_bounded_queue small_buffer [10; 20; 30] small_state small_inv))). Defined.

Lemma circular_buffer_overflow_unnoticed_witness :
  exists cb1 s1 cb2 s2,
    write_circular_buffer small_buffer 40 small_state = Ok (cb1, s1) /\ is_circular_buffer_empty cb1 = true /\
    write_circular_buffer cb1 50 s1 = Ok (cb2, s2) /\ has_circular_buffer_lost_data cb2 = (false, cb2).
Proof.
  apply (circular_buffer_overflow_unnoticed small_buffer [10; 20; 30] small_state 40 50);
    [exact small_inv|reflexivity|by vm_compute|reflexivity|lia|lia].
Defined.
