(* ===== verification/Shootdown.v ===== *)
(** * Shootdown of translation caches (mem/vaddr_cache_shootdown.c)

    Every logical core has a queue of pending shootdowns; a request is pushed to
    the queues of the other active cores, which are then interrupted and empty
    their queues.  The state holds all queues, the nodes (blocks of the kernel
    heap), the completion counters of the requests, and what the hardware saw:
    the interprocessor interrupts sent and the pages invalidated by each core.
    [cpu] is the core that runs the operation, the result of
    [get_cpu_id_from_apic_id(get_logical_core_lapic_id())]. *)

From S2P Require Import Prelude Memory Sync Interfaces.
Import Sequential.

Definition VMMCACHE_SHOOTDOWN_VECTOR : Z := 0x31.
Definition sizeof_CSQNode : Z := 32.
Definition sizeof_VMMCacheShootdownQueue : Z := 32.

Inductive APICDestinationShorthand : Type :=
| APIC_DESTSH_NO_SH
| APIC_DESTSH_SELF
| APIC_DESTSH_ALL_INCLUDING_SELF
| APIC_DESTSH_ALL_EXCLUDING_SELF.

Record VMMCacheShootdownState : Type := MkShootdownState {
  queues_to_wait_count : Z; emptied_queues_count : Z
}.

Record VMMCacheShootdownRange : Type := MkShootdownRange { addr_start : Z; size_in_pages : Z }.

(** A range with the pointer to the state of its request. *)
Record _VMMCacheShootdownRange : Type := MkPending { pending_range : VMMCacheShootdownRange; pending_state : Z }.

Record CSQNode : Type := MkCSQNode { csq_range : _VMMCacheShootdownRange; csq_next : Z }.

Record VMMCacheShootdownQueue : Type := MkQueue {
  q_head : Z; q_tail : Z; node_count : Z; active : bool; queue_lock : bool
}.

Definition null_range : VMMCacheShootdownRange := MkShootdownRange NULL 0.

(** What a core does to its translation caches. *)
Inductive tlb_event : Type :=
| FlushPage (cpu vaddr : Z)
| FlushAll (cpu : Z).

Record sd_state (H : Type) : Type := SDState {
  sd_heap : H;
  sd_if : bool;
  sd_nodes : gmap Z CSQNode;
  sd_queues : option (list VMMCacheShootdownQueue);   (** [None]: [queue_array] is NULL *)
  sd_states : gmap Z VMMCacheShootdownState;
  sd_ipis : list (APICDestinationShorthand * Z);
  sd_flushed : list tlb_event;
  sd_handler_installed : bool
}.
Arguments SDState {H}.
Arguments sd_heap {H}.
Arguments sd_if {H}.
Arguments sd_nodes {H}.
Arguments sd_queues {H}.
Arguments sd_states {H}.
Arguments sd_ipis {H}.
Arguments sd_flushed {H}.
Arguments sd_handler_installed {H}.

Section operations.
Context {H : Type} {HP : HeapProvider H}.
Abbreviation state := (sd_state H).
Implicit Types (s : state).

(** ** State access *)

Definition sd_heap_lens : lens state H :=
  Lens sd_heap (fun x s => SDState x (sd_if s) (sd_nodes s) (sd_queues s) (sd_states s) (sd_ipis s)
    (sd_flushed s) (sd_handler_installed s)).
Definition sd_if_lens : lens state bool :=
  Lens sd_if (fun x s => SDState (sd_heap s) x (sd_nodes s) (sd_queues s) (sd_states s) (sd_ipis s)
    (sd_flushed s) (sd_handler_installed s)).
Definition set_csq_nodes (m : gmap Z CSQNode) s : state :=
  SDState (sd_heap s) (sd_if s) m (sd_queues s) (sd_states s) (sd_ipis s) (sd_flushed s) (sd_handler_installed s).
Definition set_queues (qs : list VMMCacheShootdownQueue) s : state :=
  SDState (sd_heap s) (sd_if s) (sd_nodes s) (Some qs) (sd_states s) (sd_ipis s) (sd_flushed s)
    (sd_handler_installed s).
Definition set_states (m : gmap Z VMMCacheShootdownState) s : state :=
  SDState (sd_heap s) (sd_if s) (sd_nodes s) (sd_queues s) m (sd_ipis s) (sd_flushed s) (sd_handler_installed s).
Definition add_ipi (d : APICDestinationShorthand) (v : Z) s : state :=
  SDState (sd_heap s) (sd_if s) (sd_nodes s) (sd_queues s) (sd_states s) ((d, v) :: sd_ipis s) (sd_flushed s)
    (sd_handler_installed s).
Definition add_flush (e : tlb_event) s : state :=
  SDState (sd_heap s) (sd_if s) (sd_nodes s) (sd_queues s) (sd_states s) (sd_ipis s) (e :: sd_flushed s)
    (sd_handler_installed s).
Definition install_shootdown_handler s : state :=
  SDState (sd_heap s) (sd_if s) (sd_nodes s) (sd_queues s) (sd_states s) (sd_ipis s) (sd_flushed s) true.

Definition the_queues s : list VMMCacheShootdownQueue := default [] (sd_queues s).

(** [&queue_array[i]]: an index outside the array is a wild access. *)
Definition read_queue (i : Z) : M state VMMCacheShootdownQueue := fun s =>
  match the_queues s !! Z.to_nat i with Some q => Ok (q, s) | None => Fault end.
Definition write_queue (i : Z) (q : VMMCacheShootdownQueue) : M state unit :=
  modify (fun s => set_queues (<[Z.to_nat i := q]> (the_queues s)) s).

Definition set_q_lock (b : bool) (q : VMMCacheShootdownQueue) :=
  MkQueue (q_head q) (q_tail q) (node_count q) (active q) b.
Definition queue_lock_lens (i : Z) : lens state bool :=
  Lens (fun s => default false (queue_lock <$> the_queues s !! Z.to_nat i))
       (fun b s => set_queues (alter (set_q_lock b) (Z.to_nat i) (the_queues s)) s).

Definition read_csq (p : Z) : M state CSQNode := fun s =>
  match sd_nodes s !! p with Some n => Ok (n, s) | None => Fault end.
Definition write_csq (p : Z) (n : CSQNode) : M state unit :=
  modify (fun s => set_csq_nodes (<[p := n]> (sd_nodes s)) s).

Definition read_sd_state (p : Z) : M state VMMCacheShootdownState := fun s =>
  match sd_states s !! p with Some n => Ok (n, s) | None => Fault end.
Definition write_sd_state (p : Z) (n : VMMCacheShootdownState) : M state unit :=
  modify (fun s => set_states (<[p := n]> (sd_states s)) s).

Definition is_vmmcache_shootdown_range_null (r : VMMCacheShootdownRange) : bool :=
  (NULL =? addr_start r) && (0 =? size_in_pages r).

Definition is_vmmcache_shootdown_subsystem_initialized s : bool :=
  match sd_queues s with Some _ => true | None => false end.

Definition queues_count s : Z := Z.of_nat (length (the_queues s)).

Definition get_logical_core_vmmcache_shootdown_queue_index (cpu : Z) : M state Z :=
  b <- gets is_vmmcache_shootdown_subsystem_initialized;;
  KASSERT b;;
  n <- gets queues_count;;
  KASSERT (cpu <? n);;
  ret cpu.

(** ** Queues *)

Definition create_CSQNode (range : _VMMCacheShootdownRange) : M state Z :=
  p <- zoom sd_heap_lens (hp_kmalloc sizeof_CSQNode);;
  write_csq p (MkCSQNode range NULL);;
  ret p.

Definition destroy_CSQNode (node : Z) : M state unit :=
  zoom sd_heap_lens (hp_kfree node);;
  modify (fun s => set_csq_nodes (delete node (sd_nodes s)) s).

Definition unsync_is_shootdown_q_empty (q : VMMCacheShootdownQueue) : bool :=
  (q_head q =? NULL) && (q_tail q =? NULL).

Definition locked_queue {A} (i : Z) (body : M state A) : M state A :=
  with_spinlock_hard (queue_lock_lens i) sd_if_lens body.

Definition is_shootdown_q_empty (i : Z) : M state bool :=
  locked_queue i (q <- read_queue i;; ret (unsync_is_shootdown_q_empty q)).

Definition push_to_shootdown_q (i : Z) (range : _VMMCacheShootdownRange) : M state unit :=
  locked_queue i (
    q <- read_queue i;;
    (if unsync_is_shootdown_q_empty q then
       new_node <- create_CSQNode range;;
       write_queue i (MkQueue new_node new_node (node_count q) (active q) (queue_lock q))
     else
       let old_head := q_head q in
       new_node <- create_CSQNode range;;
       write_queue i (MkQueue new_node (q_tail q) (node_count q) (active q) (queue_lock q));;
       n <- read_csq new_node;;
       write_csq new_node (MkCSQNode (csq_range n) old_head));;
    q <- read_queue i;;
    write_queue i (MkQueue (q_head q) (q_tail q) (wrap64 (node_count q + 1)) (active q) (queue_lock q))).

Definition pop_from_shootdown_q (i : Z) : M state _VMMCacheShootdownRange :=
  locked_queue i (
    q <- read_queue i;;
    KASSERT (negb (unsync_is_shootdown_q_empty q));;
    n <- read_csq (q_head q);;
    (if q_head q =? q_tail q then
       destroy_CSQNode (q_head q);;
       write_queue i (MkQueue NULL NULL (node_count q) (active q) (queue_lock q))
     else
       let to_pop := q_head q in
       write_queue i (MkQueue (csq_next n) (q_tail q) (node_count q) (active q) (queue_lock q));;
       destroy_CSQNode to_pop);;
    q <- read_queue i;;
    write_queue i (MkQueue (q_head q) (q_tail q) (wrap64 (node_count q - 1)) (active q) (queue_lock q));;
    ret (csq_range n)).

Definition is_shootdown_q_active (i : Z) : M state bool :=
  locked_queue i (q <- read_queue i;; ret (active q)).

Definition get_shootdown_q_count (i : Z) : M state Z :=
  locked_queue i (q <- read_queue i;; ret (node_count q)).

Fixpoint flush_pages_loop (n : nat) (cpu vaddr : Z) : M state unit :=
  match n with
  | O => ret tt
  | S n' => modify (add_flush (FlushPage cpu vaddr));; flush_pages_loop n' cpu (wrap64 (vaddr + PAGE_SIZE))
  end.

Definition delete_vmmcache_range (cpu : Z) (range : VMMCacheShootdownRange) : M state unit :=
  let start := addr_start range in
  let start := start - start mod PAGE_SIZE in
  flush_pages_loop (Z.to_nat (size_in_pages range)) cpu start.

Definition initialize_cache_shootdown_queue : VMMCacheShootdownQueue := MkQueue NULL NULL 0 false false.

(** [cores] is the result of [get_number_of_usable_logical_cores]. *)
Definition initialize_vmmcache_shootdown_subsystem (cores : Z) : M state unit :=
  zoom sd_heap_lens (hp_kmalloc (sizeof_VMMCacheShootdownQueue * cores));;
  modify (set_queues (replicate (Z.to_nat cores) initialize_cache_shootdown_queue));;
  modify install_shootdown_handler.

Definition activate_this_cpu_vmmcache_shootdown (cpu : Z) : M state unit :=
  i <- get_logical_core_vmmcache_shootdown_queue_index cpu;;
  locked_queue i (
    q <- read_queue i;;
    write_queue i (MkQueue (q_head q) (q_tail q) (node_count q) true (queue_lock q)));;
  modify (add_flush (FlushAll cpu)).

(** ** Requests *)

(** The loop over the queues from [i] on. *)
Fixpoint enqueue_loop (n : nat) (i self_queue_index : Z) (r : _VMMCacheShootdownRange) : M state unit :=
  match n with
  | O => ret tt
  | S n' =>
      b <- is_shootdown_q_active i;;
      when (b && negb (i =? self_queue_index)) (push_to_shootdown_q i r);;
      enqueue_loop n' (i + 1) self_queue_index r
  end.

Definition _enqueue_vmmcache_shootdown_range (cpu : Z) (range : VMMCacheShootdownRange) (st : Z) : M state unit :=
  b <- gets is_vmmcache_shootdown_subsystem_initialized;;
  KASSERT b;;
  let range_to_push := MkPending range st in
  self_queue_index <- get_logical_core_vmmcache_shootdown_queue_index cpu;;
  n <- gets queues_count;;
  enqueue_loop (Z.to_nat n) 0 self_queue_index range_to_push.

Definition enqueue_vmmcache_shootdown_range (cpu : Z) (range : VMMCacheShootdownRange) : M state unit :=
  _enqueue_vmmcache_shootdown_range cpu range NULL.

Fixpoint count_active (i self_queue_index : Z) (qs : list VMMCacheShootdownQueue) : Z :=
  match qs with
  | [] => 0
  | q :: qs' =>
      (if i =? self_queue_index then 0 else if active q then 1 else 0) + count_active (i + 1) self_queue_index qs'
  end.

Definition init_vmmcache_shootdown_state (cpu st : Z) : M state unit :=
  b <- gets is_vmmcache_shootdown_subsystem_initialized;;
  KASSERT b;;
  x <- read_sd_state st;;
  write_sd_state st (MkShootdownState (queues_to_wait_count x) 0);;
  self_queue_index <- get_logical_core_vmmcache_shootdown_queue_index cpu;;
  qs <- gets the_queues;;
  write_sd_state st (MkShootdownState (wrap32 (count_active 0 self_queue_index qs)) 0).

Definition send_IPI_by_destination_shorthand (d : APICDestinationShorthand) (vector : Z) : M state unit :=
  KASSERT (match d with APIC_DESTSH_NO_SH => false | _ => true end);;
  modify (add_ipi d vector).

Definition empty_queues (d : APICDestinationShorthand) (cpu st : Z) : M state unit :=
  when (negb (st =? NULL))
    (init_vmmcache_shootdown_state cpu st;;
     _enqueue_vmmcache_shootdown_range cpu null_range st);;
  send_IPI_by_destination_shorthand d VMMCACHE_SHOOTDOWN_VECTOR.

Definition empty_all_vmmcache_shootdown_queues : Z -> Z -> M state unit :=
  empty_queues APIC_DESTSH_ALL_INCLUDING_SELF.
Definition empty_other_cpus_vmmcache_shootdown_queues : Z -> Z -> M state unit :=
  empty_queues APIC_DESTSH_ALL_EXCLUDING_SELF.

Definition vmmcache_shootdown (cpu : Z) (range : VMMCacheShootdownRange) (st : Z) : M state unit :=
  when (negb (st =? NULL)) (init_vmmcache_shootdown_state cpu st);;
  _enqueue_vmmcache_shootdown_range cpu range st;;
  empty_other_cpus_vmmcache_shootdown_queues cpu NULL.

(** ** The interrupt *)

Definition vmmcache_shootdown_state_signal_queue_empty (st : Z) : M state unit :=
  x <- read_sd_state st;;
  write_sd_state st (MkShootdownState (queues_to_wait_count x) (wrap32 (emptied_queues_count x + 1))).

Fixpoint handler_loop (fuel : nat) (cpu i : Z) : M state unit :=
  match fuel with
  | O => out_of_fuel
  | S fuel' =>
      b <- is_shootdown_q_empty i;;
      if b : bool then ret tt
      else
        range <- pop_from_shootdown_q i;;
        when (is_vmmcache_shootdown_range_null (pending_range range))
          (delete_vmmcache_range cpu (pending_range range));;
        when (negb (pending_state range =? NULL))
          (vmmcache_shootdown_state_signal_queue_empty (pending_state range));;
        handler_loop fuel' cpu i
  end.

(** One round per node and one to see the empty queue. *)
Definition cache_shootdown_interrupt_handler (cpu : Z) : M state unit :=
  i <- get_logical_core_vmmcache_shootdown_queue_index cpu;;
  fuel <- gets (fun s => S (size (sd_nodes s)));;
  handler_loop fuel cpu i.

(** The waiting core changes nothing: it returns once the count is reached, and
    waits for ever when nobody else runs. *)
Definition wait_for_vmmcache_shootdown_completition (st : Z) : M state unit :=
  x <- read_sd_state st;;
  if emptied_queues_count x <? queues_to_wait_count x then hang else ret tt.

End operations.
