(* ===== verification/ShootdownInv.v ===== *)
(** * Shootdown: the queues

    [sd_inv B Ls s]: [Ls] gives, for every core, the pending requests in the order
    in which its handler will take them.  Pushing puts a request in front, popping
    takes the front: the queues are stacks. *)

From S2P Require Import Prelude Memory Sync Interfaces Shootdown.
Import Sequential.

Abbreviation pending := _VMMCacheShootdownRange.
Abbreviation qlist := (list (Z * pending)).
Implicit Types (m : gmap Z CSQNode) (L : qlist).

Definition head_ptr L : Z := match L with [] => NULL | (p, _) :: _ => p end.
Definition tail_ptr L : Z := match last L with None => NULL | Some (p, _) => p end.

Fixpoint qseg m L : Prop :=
  match L with
  | [] => True
  | (p, r) :: L' => p <> NULL /\ m !! p = Some (MkCSQNode r (head_ptr L')) /\ qseg m L'
  end.

Record queue_ok m L (q : VMMCacheShootdownQueue) : Prop := {
  qo_head : q_head q = head_ptr L;
  qo_tail : q_tail q = tail_ptr L;
  qo_count : node_count q = Z.of_nat (length L) /\ Z.of_nat (length L) < 2 ^ 64;
  qo_lock : queue_lock q = false;
  qo_seg : qseg m L
}.

Lemma qseg_frame m m' L : (forall p, p ∈ L.*1 -> m' !! p = m !! p) -> qseg m L -> qseg m' L.
Proof.
  induction L as [|[p r] L IH]; intros HE; [done|]. cbn. intros (Hp & Hn & HS). split_and!; [done| |].
  - rewrite HE; [done|]. apply list_elem_of_here.
  - apply IH; [|done]. intros q Hq. apply HE. by apply list_elem_of_further.
Qed.

Lemma queue_ok_frame m m' L q : (forall p, p ∈ L.*1 -> m' !! p = m !! p) -> queue_ok m L q -> queue_ok m' L q.
Proof. intros HE []. split; try done. by eapply qseg_frame. Qed.

Lemma tail_ptr_cons p r L : tail_ptr ((p, r) :: L) = match L with [] => p | _ => tail_ptr L end.
Proof. unfold tail_ptr. destruct L as [|[q e] L]; [done|]. by rewrite last_cons_cons. Qed.

Lemma tail_ptr_in L : L <> [] -> tail_ptr L ∈ L.*1.
Proof.
  intros Hne. unfold tail_ptr. destruct (last L) as [[p r]|] eqn:E.
  - apply last_Some_elem_of in E. apply list_elem_of_fmap. by exists (p, r).
  - apply last_None in E. contradiction.
Qed.

Lemma queue_empty m L q : queue_ok m L q -> unsync_is_shootdown_q_empty q = bool_decide (L = []).
Proof.
  intros [Hh Ht _ _ HS]. unfold unsync_is_shootdown_q_empty. rewrite Hh, Ht.
  destruct L as [|[p r] L]; [done|]. destruct HS as (Hp & _). cbn [head_ptr].
  rewrite (proj2 (Z.eqb_neq p NULL) Hp). by rewrite bool_decide_eq_false_2.
Qed.

Lemma list_alter_at {A} (f : A -> A) (l : list A) i x : l !! i = Some x -> alter f i l = <[i := f x]> l.
Proof.
  intros Hx. apply list_eq. intros j. destruct (decide (i = j)) as [<-|Hne].
  - rewrite list_lookup_alter_eq, Hx, list_lookup_insert_eq; [done|]. by eapply lookup_lt_Some.
  - by rewrite list_lookup_alter_ne, list_lookup_insert_ne.
Qed.

Section inv.
Context {H : Type} {HP : HeapProvider H} {HL : HeapLaws H}.
Implicit Types (s : sd_state H) (Ls : list qlist).

(** The state with another heap, other nodes and another queue [i]. *)
Definition requeue (i : nat) q (h : H) m s : sd_state H :=
  SDState h (sd_if s) m (Some (<[i := q]> (the_queues s))) (sd_states s) (sd_ipis s) (sd_flushed s)
    (sd_handler_installed s).

Definition in_section (i : nat) q s : sd_state H :=
  SDState (sd_heap s) false (sd_nodes s) (Some (<[i := set_q_lock true q]> (the_queues s))) (sd_states s)
    (sd_ipis s) (sd_flushed s) (sd_handler_installed s).

Lemma requeue_queue i q h m s : (i < length (the_queues s))%nat -> the_queues (requeue i q h m s) !! i = Some q.
Proof. intros Hi. cbn. by apply list_lookup_insert_eq. Qed.

(** A critical section that ends with queue [i] rewritten. *)
Lemma locked_queue_run {A} (i : nat) q (body : M (sd_state H) A) s r q' h m :
  the_queues s !! i = Some q -> queue_lock q = false ->
  body (in_section i q s) = Ok (r, requeue i (set_q_lock true q') h m (in_section i q s)) ->
  locked_queue (Z.of_nat i) body s = Ok (r, requeue i (set_q_lock false q') h m s).
Proof.
  intros Hq HN R. unfold locked_queue.
  assert (E : put (queue_lock_lens (Z.of_nat i)) true (put sd_if_lens false s) = in_section i q s).
  { cbn. unfold set_queues, in_section. cbn. rewrite Nat2Z.id. unfold the_queues in *. cbn.
    by rewrite (list_alter_at _ _ _ q). }
  rewrite (with_spinlock_hard_run _ _ _ _ r (requeue i (set_q_lock true q') h m (in_section i q s))).
  - f_equal. f_equal. cbn. unfold the_queues, in_section, requeue, set_queues. cbn.
    fold (the_queues s). rewrite Nat2Z.id, !list_insert_insert_eq.
    assert (Hlt : (i < length (the_queues s))%nat) by (by eapply lookup_lt_Some).
    rewrite (list_alter_at _ _ _ (set_q_lock true q')) by (by apply list_lookup_insert_eq).
    rewrite list_insert_insert_eq. by destruct (sd_if s).
  - cbn. unfold the_queues in *. cbn. rewrite Nat2Z.id, Hq. cbn. exact HN.
  - by rewrite E.
Qed.

Lemma read_queue_at i q s : the_queues s !! i = Some q -> read_queue (Z.of_nat i) s = Ok (q, s).
Proof. intros Hq. unfold read_queue. by rewrite Nat2Z.id, Hq. Qed.

Lemma in_section_queue i q s :
  (i < length (the_queues s))%nat -> the_queues (in_section i q s) !! i = Some (set_q_lock true q).
Proof. intros Hi. cbn. by apply list_lookup_insert_eq. Qed.

(** ** The invariant *)

Record sd_inv (B : gmap Z Z) Ls s : Prop := {
  si_heap : hp_inv (sd_heap s) B;
  si_init : is_Some (sd_queues s);
  si_queues : Forall2 (queue_ok (sd_nodes s)) Ls (the_queues s);
  si_nodup : NoDup (concat Ls).*1;
  si_live : forall p, p ∈ (concat Ls).*1 -> is_Some (B !! p);
  si_states : forall r, r ∈ (concat Ls).*2 -> pending_state r <> NULL -> is_Some (sd_states s !! pending_state r)
}.

Lemma sd_inv_queue B Ls s i L :
  sd_inv B Ls s -> Ls !! i = Some L ->
  exists q, the_queues s !! i = Some q /\ queue_ok (sd_nodes s) L q /\ (i < length (the_queues s))%nat.
Proof.
  intros [_ _ HF _ _ _] HL0. destruct (Forall2_lookup_l _ _ _ _ _ HF HL0) as (q & Hq & Hok).
  exists q. split_and!; [done|done|]. by eapply lookup_lt_Some.
Qed.

Lemma concat_split Ls i L :
  Ls !! i = Some L -> concat Ls = concat (take i Ls) ++ L ++ concat (drop (S i) Ls).
Proof. intros HL0. rewrite <-(take_drop_middle Ls i L HL0) at 1. by rewrite concat_app. Qed.

Lemma concat_replace Ls i L L' :
  Ls !! i = Some L -> concat (<[i := L']> Ls) = concat (take i Ls) ++ L' ++ concat (drop (S i) Ls).
Proof.
  intros HL0. rewrite (concat_split (<[i := L']> Ls) i L').
  - by rewrite take_insert_ge, drop_insert_lt by lia.
  - apply list_lookup_insert_eq. by eapply lookup_lt_Some.
Qed.

Lemma concat_elem Ls i L (x : Z * pending) : Ls !! i = Some L -> x ∈ L -> x ∈ concat Ls.
Proof. intros HL0 Hx. rewrite (concat_split _ _ _ HL0). set_solver. Qed.

(** Other queues share no node with queue [i]. *)
Lemma queues_apart Ls i j L K p :
  NoDup (concat Ls).*1 -> Ls !! i = Some L -> Ls !! j = Some K -> i <> j -> p ∈ L.*1 -> p ∉ K.*1.
Proof.
  intros ND HL0 HK Hij Hp HpK. rewrite (concat_split _ _ _ HL0), !fmap_app in ND.
  apply NoDup_app in ND as (_ & Hd1 & (_ & Hd2 & _)%NoDup_app).
  assert (HKc : forall Ms, K ∈ Ms -> p ∈ (concat Ms).*1).
  { intros Ms HM. apply list_elem_of_fmap in HpK as (x & -> & Hx). apply list_elem_of_fmap. exists x.
    split; [done|]. apply list_elem_of_In, in_concat. exists K. split; by apply list_elem_of_In. }
  destruct (decide (j < i)%nat) as [Hlt|Hge].
  - apply (Hd1 p); [|apply elem_of_app; by left]. apply HKc.
    apply (list_elem_of_lookup_2 _ j). by rewrite lookup_take_lt.
  - apply (Hd2 p Hp). apply HKc. apply (list_elem_of_lookup_2 _ (j - S i)). rewrite lookup_drop.
    by replace (S i + (j - S i))%nat with j by lia.
Qed.

Lemma other_queues Ls s i L L' q' m' p :
  Forall2 (queue_ok (sd_nodes s)) Ls (the_queues s) -> Ls !! i = Some L -> queue_ok m' L' q' ->
  (forall x, x <> p -> m' !! x = sd_nodes s !! x) ->
  (forall j K, i <> j -> Ls !! j = Some K -> p ∉ K.*1) ->
  Forall2 (queue_ok m') (<[i := L']> Ls) (<[i := q']> (the_queues s)).
Proof.
  intros HF HL0 Hq' HE Hp. apply Forall2_same_length_lookup_2.
  - rewrite !length_insert. by eapply Forall2_length.
  - intros j K q HK Hq. destruct (decide (i = j)) as [<-|Hne].
    + apply list_lookup_insert_Some in HK as [(_ & <- & _)|[? _]]; [|done].
      apply list_lookup_insert_Some in Hq as [(_ & <- & _)|[? _]]; [|done]. done.
    + rewrite list_lookup_insert_ne in HK by done. rewrite list_lookup_insert_ne in Hq by done. eapply queue_ok_frame.
      * intros x Hx. apply HE. intros ->. by eapply (Hp j K).
      * by eapply (Forall2_lookup_lr _ _ _ j).
Qed.

(** ** Push and pop *)

(** What the operations on one queue leave alone. *)
Definition same_elsewhere s s' : Prop :=
  sd_if s' = sd_if s /\ sd_states s' = sd_states s /\ sd_ipis s' = sd_ipis s /\ sd_flushed s' = sd_flushed s /\
  sd_handler_installed s' = sd_handler_installed s.

Lemma same_elsewhere_refl s : same_elsewhere s s.
Proof. by split_and!. Qed.
Lemma same_elsewhere_trans s1 s2 s3 : same_elsewhere s1 s2 -> same_elsewhere s2 s3 -> same_elsewhere s1 s3.
Proof. unfold same_elsewhere. intuition congruence. Qed.

Lemma create_run B s range :
  hp_inv (sd_heap s) B -> hp_serves (sd_heap s) sizeof_CSQNode ->
  exists p k h, B !! p = None /\ p <> NULL /\ hp_inv h (<[p := k]> B) /\
    hp_kmalloc sizeof_CSQNode (sd_heap s) = Ok (p, h) /\
    forall f b, create_CSQNode range (SDState (sd_heap s) f (sd_nodes s) b (sd_states s) (sd_ipis s) (sd_flushed s)
        (sd_handler_installed s)) =
      Ok (p, SDState h f (<[p := MkCSQNode range NULL]> (sd_nodes s)) b (sd_states s) (sd_ipis s) (sd_flushed s)
        (sd_handler_installed s)).
Proof.
  intros HI HS. destruct (hp_kmalloc_ok _ _ _ HI HS) as (p & k & h & R & _ & Hf & _ & Hp & HI' & _).
  exists p, k, h. split_and!; [done|unfold NULL; lia|done|done|].
  intros f b. unfold create_CSQNode, bind, zoom. cbn [view sd_heap_lens]. cbn [sd_heap]. by rewrite R.
Qed.

Lemma push_body_run i q m L range p h s :
  the_queues s !! i = Some q -> queue_ok m L q ->
  (forall f b, create_CSQNode range (SDState (sd_heap s) f (sd_nodes s) b (sd_states s) (sd_ipis s) (sd_flushed s)
        (sd_handler_installed s)) =
      Ok (p, SDState h f (<[p := MkCSQNode range NULL]> (sd_nodes s)) b (sd_states s) (sd_ipis s) (sd_flushed s)
        (sd_handler_installed s))) ->
  push_to_shootdown_q (Z.of_nat i) range s =
    Ok (tt, requeue i (MkQueue p (match L with [] => p | _ => tail_ptr L end)
                        (wrap64 (node_count q + 1)) (active q) false) h
              (<[p := MkCSQNode range (head_ptr L)]> (sd_nodes s)) s).
Proof.
  intros Hq Hok HC. pose proof (lookup_lt_Some _ _ _ Hq) as Hlt. pose proof Hok as [Hh Ht _ HN _].
  eapply (locked_queue_run i q _ s tt (MkQueue p (match L with [] => p | _ => tail_ptr L end)
    (wrap64 (node_count q + 1)) (active q) false)); [done|done|].
  rewrite (bind_ok _ _ _ _ _ (read_queue_at i _ _ (in_section_queue i q s Hlt))).
  change (unsync_is_shootdown_q_empty (set_q_lock true q)) with (unsync_is_shootdown_q_empty q).
  rewrite (queue_empty _ _ _ Hok). cbn [node_count active queue_lock q_head q_tail set_q_lock].
  unfold in_section. destruct L as [|[x e] L].
  - rewrite bool_decide_eq_true_2 by done. rewrite bind_assoc, (bind_ok _ _ _ _ _ (HC _ _)).
    unfold write_queue at 1. set (q1 := MkQueue p p _ _ _).
    rewrite (bind_ok _ _ _ tt (requeue i q1 h (<[p := MkCSQNode range NULL]> (sd_nodes s)) (in_section i q s))).
    2: { unfold modify, set_queues, requeue, the_queues. cbn. by rewrite Nat2Z.id. }
    rewrite (bind_ok _ _ _ _ _ (read_queue_at i q1 _ (requeue_queue i q1 _ _ (in_section i q s) ltac:(cbn; by rewrite length_insert)))).
    unfold write_queue, modify, set_queues, requeue, the_queues. cbn. rewrite Nat2Z.id. by rewrite !list_insert_insert_eq.
  - rewrite bool_decide_eq_false_2 by done. rewrite !bind_assoc, (bind_ok _ _ _ _ _ (HC _ _)).
    rewrite bind_assoc. unfold write_queue at 1. set (q1 := MkQueue p _ _ _ _).
    set (s1 := requeue i q1 h (<[p := MkCSQNode range NULL]> (sd_nodes s)) (in_section i q s)).
    rewrite (bind_ok _ _ _ tt s1).
    2: { unfold modify, set_queues, s1, requeue, the_queues. cbn. by rewrite Nat2Z.id. }
    rewrite bind_assoc. rewrite (bind_ok _ _ _ (MkCSQNode range NULL) s1).
    2: { unfold read_csq. cbn. by rewrite lookup_insert_eq. }
    cbn [csq_range]. rewrite Hh. cbn [head_ptr].
    set (s2 := requeue i q1 h (<[p := MkCSQNode range x]> (sd_nodes s)) (in_section i q s)).
    rewrite (bind_ok _ _ _ tt s2).
    2: { unfold write_csq, modify, set_csq_nodes, s1, s2, requeue. cbn. by rewrite insert_insert_eq. }
    rewrite (bind_ok _ _ _ _ _ (read_queue_at i q1 s2 (requeue_queue i q1 _ _ (in_section i q s) ltac:(cbn; by rewrite length_insert)))).
    unfold write_queue, modify, set_queues, s2, requeue, the_queues. cbn. rewrite Nat2Z.id, !list_insert_insert_eq.
    by rewrite Ht.
Qed.

Lemma push_spec B Ls s i L range :
  sd_inv B Ls s -> Ls !! i = Some L -> hp_serves (sd_heap s) sizeof_CSQNode ->
  Z.of_nat (length L) + 1 < 2 ^ 64 ->
  (pending_state range <> NULL -> is_Some (sd_states s !! pending_state range)) ->
  exists p k h s', push_to_shootdown_q (Z.of_nat i) range s = Ok (tt, s') /\
    sd_inv (<[p := k]> B) (<[i := (p, range) :: L]> Ls) s' /\ same_elsewhere s s' /\
    hp_kmalloc sizeof_CSQNode (sd_heap s) = Ok (p, h) /\ sd_heap s' = h /\
    (active <$> the_queues s') = (active <$> the_queues s).
Proof.
  intros HI HL0 HS Hlen Hst. destruct (sd_inv_queue _ _ _ _ _ HI HL0) as (q & Hq & Hok & Hlt).
  destruct (create_run B s range (si_heap _ _ _ HI) HS) as (p & k & h & Hf & Hp & HI' & RK & HC).
  pose proof HI as [Hh Hin HF ND HB HST].
  assert (Hfresh : p ∉ (concat Ls).*1) by (intros Hx; destruct (HB p Hx); congruence).
  assert (HfK : forall j K, Ls !! j = Some K -> p ∉ K.*1).
  { intros j K HK Hx. apply Hfresh. apply list_elem_of_fmap in Hx as (y & -> & Hy). apply list_elem_of_fmap.
    exists y. split; [done|]. by eapply concat_elem. }
  eexists p, k, h, _. split; [by eapply push_body_run|].
  split_and!; [|by split_and!|done|done|].
  2: { cbn. rewrite list_fmap_insert. cbn. apply list_insert_id. by rewrite list_lookup_fmap, Hq. }
  split; cbn [sd_heap sd_nodes sd_states the_queues sd_queues requeue default].
  - done.
  - done.
  - eapply (other_queues Ls s i L _ _ _ p); [done|done| | |].
    + destruct Hok as [E1 E2 [E3 E4] E5 E6]. split; cbn [q_head q_tail node_count queue_lock].
      * done.
      * by rewrite tail_ptr_cons.
      * cbn [length]. rewrite E3, wrap64_small by lia. lia.
      * done.
      * cbn [qseg]. split_and!; [done|apply lookup_insert_eq|]. eapply qseg_frame; [|exact E6].
        intros x Hx. rewrite lookup_insert_ne; [done|]. intros ->. by eapply HfK.
    + intros x Hx. by rewrite lookup_insert_ne.
    + intros j K _ HK. by eapply HfK.
  - rewrite (concat_replace _ _ _ _ HL0). cbn [app]. rewrite (concat_split _ _ _ HL0) in ND, Hfresh.
    rewrite !fmap_app in *. cbn [fmap list_fmap fst app].
    rewrite (NoDup_Permutation_proper _ (p :: (concat (take i Ls)).*1 ++ L.*1 ++ (concat (drop (S i) Ls)).*1)).
    + apply NoDup_cons. by split.
    + symmetry. rewrite fmap_app. apply Permutation_middle.
  - intros x Hx. rewrite (concat_replace _ _ _ _ HL0) in Hx. destruct (decide (x = p)) as [->|Hne].
    { rewrite lookup_insert_eq. by eexists. }
    rewrite lookup_insert_ne by done. apply HB. rewrite (concat_split _ _ _ HL0).
    rewrite !fmap_app in *. cbn [fmap list_fmap fst app] in Hx. set_solver.
  - intros r Hr Hrs. rewrite (concat_replace _ _ _ _ HL0), !fmap_app in Hr. cbn [fmap list_fmap snd app] in Hr.
    assert (Hr' : r = range \/ r ∈ (concat Ls).*2).
    { rewrite (concat_split _ _ _ HL0), !fmap_app. set_solver. }
    destruct Hr' as [->|Hr']; [by apply Hst|by apply HST].
Qed.

Lemma destroy_run B s p :
  hp_inv (sd_heap s) B -> is_Some (B !! p) ->
  exists h, hp_inv h (delete p B) /\
    forall f b, destroy_CSQNode p (SDState (sd_heap s) f (sd_nodes s) b (sd_states s) (sd_ipis s) (sd_flushed s)
        (sd_handler_installed s)) =
      Ok (tt, SDState h f (delete p (sd_nodes s)) b (sd_states s) (sd_ipis s) (sd_flushed s)
        (sd_handler_installed s)).
Proof.
  intros HI [n Hn]. destruct (hp_kfree_ok _ _ _ _ HI Hn) as (h & R & HI' & _). exists h. split; [done|].
  intros f b. unfold destroy_CSQNode, bind, zoom. cbn [view sd_heap_lens]. cbn [sd_heap]. by rewrite R.
Qed.

Lemma pop_body_run i q m p r L h s :
  the_queues s !! i = Some q -> queue_ok m ((p, r) :: L) q -> (p ∉ L.*1) ->
  sd_nodes s !! p = Some (MkCSQNode r (head_ptr L)) ->
  (forall f b, destroy_CSQNode p (SDState (sd_heap s) f (sd_nodes s) b (sd_states s) (sd_ipis s) (sd_flushed s)
        (sd_handler_installed s)) =
      Ok (tt, SDState h f (delete p (sd_nodes s)) b (sd_states s) (sd_ipis s) (sd_flushed s)
        (sd_handler_installed s))) ->
  pop_from_shootdown_q (Z.of_nat i) s =
    Ok (r, requeue i (MkQueue (head_ptr L) (tail_ptr L) (wrap64 (node_count q - 1)) (active q) false) h
             (delete p (sd_nodes s)) s).
Proof.
  intros Hq Hok HpL Hn HD. pose proof (lookup_lt_Some _ _ _ Hq) as Hlt. pose proof Hok as [Hh Ht _ HN (Hp & _)].
  assert (Hlt' : (i < length (the_queues (in_section i q s)))%nat) by (cbn; by rewrite length_insert).
  eapply (locked_queue_run i q _ s r (MkQueue (head_ptr L) (tail_ptr L) (wrap64 (node_count q - 1)) (active q) false));
    [done|done|].
  rewrite (bind_ok _ _ _ _ _ (read_queue_at i _ _ (in_section_queue i q s Hlt))).
  change (unsync_is_shootdown_q_empty (set_q_lock true q)) with (unsync_is_shootdown_q_empty q).
  rewrite (queue_empty _ _ _ Hok), bool_decide_eq_false_2 by done. cbn [negb].
  rewrite (bind_ok _ _ _ tt (in_section i q s)) by done.
  cbn [node_count active queue_lock q_head q_tail set_q_lock]. rewrite Hh, Ht, tail_ptr_cons. cbn [head_ptr].
  rewrite (bind_ok _ _ _ (MkCSQNode r (head_ptr L)) (in_section i q s)) by (unfold read_csq; cbn; by rewrite Hn).
  cbn [csq_next csq_range].
  set (q1 := MkQueue (head_ptr L) (tail_ptr L) (node_count q) (active q) true).
  set (s1 := requeue i q1 h (delete p (sd_nodes s)) (in_section i q s)).
  match goal with |- bind ?c _ _ = _ => assert (Rc : c (in_section i q s) = Ok (tt, s1)) end.
  { destruct L as [|[x e] L].
    - rewrite Z.eqb_refl. unfold in_section at 1. rewrite (bind_ok _ _ _ _ _ (HD _ _)).
      unfold write_queue, modify, set_queues, s1, requeue, the_queues. cbn. by rewrite Nat2Z.id.
    - rewrite (proj2 (Z.eqb_neq _ _)).
      2: { intros E. apply HpL. rewrite E. by apply tail_ptr_in. }
      rewrite (bind_ok _ _ _ tt (SDState (sd_heap s) false (sd_nodes s)
        (Some (<[i := q1]> (the_queues (in_section i q s)))) (sd_states s) (sd_ipis s) (sd_flushed s) (sd_handler_installed s))).
      2: { unfold write_queue, modify, set_queues. cbn. by rewrite Nat2Z.id. }
      by rewrite HD. }
  rewrite (bind_ok _ _ _ _ _ Rc).
  rewrite (bind_ok _ _ _ _ _ (read_queue_at i q1 s1 (requeue_queue i q1 _ _ (in_section i q s) Hlt'))).
  unfold write_queue, bind, modify, ret, set_queues, s1, requeue, the_queues. cbn. rewrite Nat2Z.id.
  by rewrite !list_insert_insert_eq.
Qed.

Lemma pop_spec B Ls s i p r L :
  sd_inv B Ls s -> Ls !! i = Some ((p, r) :: L) ->
  exists s', pop_from_shootdown_q (Z.of_nat i) s = Ok (r, s') /\
    sd_inv (delete p B) (<[i := L]> Ls) s' /\ same_elsewhere s s' /\
    (active <$> the_queues s') = (active <$> the_queues s).
Proof.
  intros HI HL0. destruct (sd_inv_queue _ _ _ _ _ HI HL0) as (q & Hq & Hok & Hlt).
  pose proof HI as [Hh Hin HF ND HB HST].
  assert (Hpc : p ∈ (concat Ls).*1).
  { apply list_elem_of_fmap. exists (p, r). split; [done|]. eapply concat_elem; [done|]. apply list_elem_of_here. }
  destruct (destroy_run B s p Hh (HB p Hpc)) as (h & HI' & HD).
  pose proof ND as ND'. rewrite (concat_split _ _ _ HL0), !fmap_app in ND'. cbn [fmap list_fmap fst app] in ND'.
  rewrite <-Permutation_middle in ND'. apply NoDup_cons in ND' as [Hnin ND'].
  assert (HpL : p ∉ L.*1) by set_solver.
  eexists. split.
  { eapply pop_body_run; [done|done|done| |exact HD]. by destruct Hok as [_ _ _ _ (_ & ? & _)]. }
  split_and!; [|by split_and!|].
  2: { cbn. rewrite list_fmap_insert. cbn. apply list_insert_id. by rewrite list_lookup_fmap, Hq. }
  split; cbn [sd_heap sd_nodes sd_states the_queues sd_queues requeue default].
  - done.
  - done.
  - eapply (other_queues Ls s i _ _ _ _ p); [done|done| | |].
    + destruct Hok as [E1 E2 [E3 E4] E5 (_ & _ & E6)]. split; cbn [q_head q_tail node_count queue_lock].
      * done.
      * done.
      * cbn [length] in *. rewrite E3, wrap64_small by lia. lia.
      * done.
      * eapply qseg_frame; [|exact E6]. intros x Hx. rewrite lookup_delete_ne; [done|]. intros ->. done.
    + intros x Hx. by rewrite lookup_delete_ne.
    + intros j K Hij HK. eapply (queues_apart Ls i j); [done|done|done|done|]. apply list_elem_of_here.
  - rewrite (concat_replace _ _ _ _ HL0), !fmap_app. exact ND'.
  - intros x Hx. rewrite (concat_replace _ _ _ _ HL0), !fmap_app in Hx.
    rewrite lookup_delete_ne by (intros ->; done). apply HB.
    rewrite (concat_split _ _ _ HL0), !fmap_app. cbn [fmap list_fmap fst app]. set_solver.
  - intros y Hy Hys. apply HST; [|done]. rewrite (concat_replace _ _ _ _ HL0), !fmap_app in Hy.
    rewrite (concat_split _ _ _ HL0), !fmap_app. cbn [fmap list_fmap snd app]. set_solver.
Qed.

(** Reading a queue under its lock leaves the state alone. *)
Lemma locked_read {A} (f : VMMCacheShootdownQueue -> A) i q s :
  the_queues s !! i = Some q -> queue_lock q = false -> is_Some (sd_queues s) ->
  locked_queue (Z.of_nat i) (q <- read_queue (Z.of_nat i);; ret (f q)) s = Ok (f (set_q_lock true q), s).
Proof.
  intros Hq HN [qs Hqs]. pose proof (lookup_lt_Some _ _ _ Hq) as Hlt.
  rewrite (locked_queue_run i q _ s (f (set_q_lock true q)) q (sd_heap s) (sd_nodes s)); [|done|done|].
  - do 2 f_equal. unfold requeue. destruct s; cbn in *. subst. f_equal. f_equal. unfold the_queues in *. cbn in *.
    rewrite list_insert_id; [done|]. rewrite Hq. f_equal. destruct q; cbn in *. by subst.
  - rewrite (bind_ok _ _ _ _ _ (read_queue_at i _ _ (in_section_queue i q s Hlt))). unfold ret. do 2 f_equal.
    unfold requeue, in_section, the_queues. cbn. by rewrite list_insert_insert_eq.
Qed.

Lemma is_empty_run B Ls s i L :
  sd_inv B Ls s -> Ls !! i = Some L -> is_shootdown_q_empty (Z.of_nat i) s = Ok (bool_decide (L = []), s).
Proof.
  intros HI HL0. destruct (sd_inv_queue _ _ _ _ _ HI HL0) as (q & Hq & Hok & Hlt).
  unfold is_shootdown_q_empty. rewrite (locked_read unsync_is_shootdown_q_empty i q); [|done|apply Hok|apply HI].
  by rewrite <-(queue_empty _ _ _ Hok).
Qed.

End inv.
