(* ===== verification/ShootdownTop.v ===== *)
(** * Shootdown: requests and the interrupt handler

    The handler empties the queue of its core and signals every request in it, so
    a request completes once the other cores have run their handlers; but it
    invalidates no page, because it skips exactly the ranges it should flush. *)

From S2P Require Import Prelude Memory Sync Interfaces Shootdown ShootdownInv.
Import Sequential.

Section top.
Context {H : Type} {HP : HeapProvider H} {HL : HeapLaws H}.
Implicit Types (s : sd_state H) (Ls : list qlist).

(** ** Signals *)

Definition signalled (x : VMMCacheShootdownState) : VMMCacheShootdownState :=
  MkShootdownState (queues_to_wait_count x) (wrap32 (emptied_queues_count x + 1)).

Definition signal (m : gmap Z VMMCacheShootdownState) (r : pending) : gmap Z VMMCacheShootdownState :=
  if pending_state r =? NULL then m else alter signalled (pending_state r) m.

Definition occurrences (st : Z) (L : qlist) : Z :=
  Z.of_nat (length (filter (fun x => pending_state x.2 = st) L)).

Lemma signal_is_some m r k : is_Some (m !! k) -> is_Some (signal m r !! k).
Proof.
  intros HS. unfold signal. destruct (pending_state r =? NULL); [done|]. rewrite lookup_alter.
  case_decide as E; [|done]. subst. destruct HS as [y Hy]. rewrite Hy. by eexists.
Qed.

Lemma signal_all_lookup L m st x :
  st <> NULL -> m !! st = Some x -> 0 <= emptied_queues_count x < 2 ^ 32 ->
  foldl signal m L.*2 !! st =
    Some (MkShootdownState (queues_to_wait_count x) (wrap32 (emptied_queues_count x + occurrences st L))).
Proof.
  intros Hst. revert m x. induction L as [|[p r] L IH]; intros m x Hx Hr; cbn [fmap list_fmap snd foldl].
  - unfold occurrences. cbn. rewrite Z.add_0_r, wrap_small by done. rewrite Hx. by destruct x.
  - unfold occurrences. rewrite filter_cons. unfold signal at 2. cbn [snd].
    destruct (Z.eqb_spec (pending_state r) NULL) as [E|E].
    + rewrite decide_False by congruence. by apply IH.
    + case_decide as Ec.
      * rewrite (IH _ (signalled x)).
        -- f_equal. unfold signalled. cbn [queues_to_wait_count emptied_queues_count length].
           f_equal. fold (occurrences st L). unfold wrap32, wrap. rewrite Zplus_mod_idemp_l. f_equal.
           unfold occurrences. lia.
        -- rewrite Ec, lookup_alter_eq, Hx. done.
        -- apply wrap_range. lia.
      * apply IH; [|done]. by rewrite lookup_alter_ne.
Qed.

(** ** The handler *)

Lemma sd_inv_states B Ls s m :
  sd_inv B Ls s -> (forall k, is_Some (sd_states s !! k) -> is_Some (m !! k)) -> sd_inv B Ls (set_states m s).
Proof. intros [] Hm. split; try done. intros r Hr Hn. apply Hm. by apply si_states. Qed.

Lemma signal_run r s :
  (pending_state r <> NULL -> is_Some (sd_states s !! pending_state r)) ->
  when (negb (pending_state r =? NULL)) (vmmcache_shootdown_state_signal_queue_empty (pending_state r)) s =
    Ok (tt, set_states (signal (sd_states s) r) s).
Proof.
  intros HS. unfold signal. destruct (Z.eqb_spec (pending_state r) NULL) as [E|E]; cbn [negb when].
  - by destruct s.
  - destruct (HS E) as [x Hx]. unfold vmmcache_shootdown_state_signal_queue_empty.
    rewrite (bind_ok _ _ _ x s) by (unfold read_sd_state; by rewrite Hx).
    unfold write_sd_state, modify. do 3 f_equal.
    rewrite <-(insert_id (sd_states s) _ _ Hx) at 2. by rewrite alter_insert_eq.
Qed.

Lemma flush_null_run cpu r s :
  when (is_vmmcache_shootdown_range_null (pending_range r)) (delete_vmmcache_range cpu (pending_range r)) s = Ok (tt, s).
Proof.
  destruct (is_vmmcache_shootdown_range_null (pending_range r)) eqn:E; [|done].
  apply andb_true_iff in E as [_ E%Z.eqb_eq]. cbn [when]. unfold delete_vmmcache_range. by rewrite <-E.
Qed.

Lemma handler_loop_spec fuel B Ls s cpu (i : nat) L :
  sd_inv B Ls s -> Ls !! i = Some L -> (length L < fuel)%nat ->
  exists B' s', handler_loop fuel cpu (Z.of_nat i) s = Ok (tt, s') /\ sd_inv B' (<[i := []]> Ls) s' /\
    sd_states s' = foldl signal (sd_states s) L.*2 /\ sd_flushed s' = sd_flushed s /\
    sd_ipis s' = sd_ipis s /\ sd_if s' = sd_if s /\ (active <$> the_queues s') = (active <$> the_queues s).
Proof.
  revert B Ls s L. induction fuel as [|fuel IH]; intros B Ls s L HI HL0 Hf; [lia|]. cbn [handler_loop].
  rewrite (bind_ok _ _ _ _ _ (is_empty_run _ _ _ _ _ HI HL0)). destruct L as [|[p r] L].
  - exists B, s. rewrite list_insert_id by done. by split_and!.
  - rewrite bool_decide_eq_false_2 by done.
    destruct (pop_spec _ _ _ _ _ _ _ HI HL0) as (s1 & R1 & I1 & (E1 & E2 & E3 & E4 & _) & A1).
    assert (Hst : pending_state r <> NULL -> is_Some (sd_states s1 !! pending_state r)).
    { rewrite E2. apply (si_states _ _ _ HI). apply list_elem_of_fmap. exists (p, r). split; [done|].
      eapply concat_elem; [done|]. apply list_elem_of_here. }
    set (s2 := set_states (signal (sd_states s1) r) s1).
    assert (I2 : sd_inv (delete p B) (<[i := L]> Ls) s2).
    { apply sd_inv_states; [done|]. intros k. apply signal_is_some. }
    destruct (IH _ _ s2 L I2) as (B' & s' & R' & I' & F1 & F2 & F3 & F4 & A2).
    { apply list_lookup_insert_eq. by eapply lookup_lt_Some. } { cbn in Hf. lia. }
    exists B', s'. rewrite (bind_ok _ _ _ _ _ R1), (bind_ok _ _ _ _ _ (flush_null_run _ _ _)).
    rewrite (bind_ok _ _ _ _ _ (signal_run _ _ Hst)). rewrite list_insert_insert_eq in I'.
    split_and!; [done|done| | | | |].
    + rewrite F1. cbn [fmap list_fmap snd foldl s2 set_states sd_states]. by rewrite E2.
    + rewrite F2. exact E4.
    + rewrite F3. exact E3.
    + rewrite F4. exact E1.
    + rewrite A2. exact A1.
Qed.

Lemma qseg_length m L : qseg m L -> NoDup L.*1 -> (length L <= size m)%nat.
Proof.
  intros HS ND. rewrite <-(length_fmap fst), <-(size_list_to_set (C := gset Z)) by done.
  rewrite <-size_dom. apply subseteq_size. intros p Hp%elem_of_list_to_set.
  clear ND. induction L as [|[q d] L IH]; [by apply elem_of_nil in Hp|].
  destruct HS as (_ & Hq & HS). apply elem_of_cons in Hp as [->|Hp]; [|by apply IH].
  apply elem_of_dom. by eexists.
Qed.

Lemma index_run B Ls s (cpu : nat) L :
  sd_inv B Ls s -> Ls !! cpu = Some L ->
  get_logical_core_vmmcache_shootdown_queue_index (Z.of_nat cpu) s = Ok (Z.of_nat cpu, s).
Proof.
  intros HI HL0. destruct (sd_inv_queue _ _ _ _ _ HI HL0) as (q & _ & _ & Hlt). destruct (si_init _ _ _ HI) as [qs Hqs].
  unfold get_logical_core_vmmcache_shootdown_queue_index.
  rewrite (bind_ok _ _ _ true s) by (unfold gets, is_vmmcache_shootdown_subsystem_initialized; by rewrite Hqs).
  rewrite (bind_ok _ _ _ tt s) by done. rewrite (bind_ok _ _ _ (queues_count s) s) by done.
  unfold queues_count. rewrite (proj2 (Z.ltb_lt _ _)) by lia. done.
Qed.

Lemma handler_spec B Ls s (cpu : nat) L :
  sd_inv B Ls s -> Ls !! cpu = Some L ->
  exists B' s', cache_shootdown_interrupt_handler (Z.of_nat cpu) s = Ok (tt, s') /\
    sd_inv B' (<[cpu := []]> Ls) s' /\
    sd_states s' = foldl signal (sd_states s) L.*2 /\ sd_flushed s' = sd_flushed s /\
    sd_ipis s' = sd_ipis s /\ sd_if s' = sd_if s /\ (active <$> the_queues s') = (active <$> the_queues s).
Proof.
  intros HI HL0. unfold cache_shootdown_interrupt_handler. rewrite (bind_ok _ _ _ _ _ (index_run _ _ _ _ _ HI HL0)).
  rewrite (bind_ok _ _ _ (S (size (sd_nodes s))) s) by done. eapply handler_loop_spec; [done|done|].
  destruct (sd_inv_queue _ _ _ _ _ HI HL0) as (q & _ & [_ _ _ _ HS] & _).
  assert (NoDup L.*1).
  { pose proof (si_nodup _ _ _ HI) as ND. rewrite (concat_split _ _ _ HL0), !fmap_app in ND.
    by apply NoDup_app in ND as (_ & _ & (? & _)%NoDup_app). }
  pose proof (qseg_length _ _ HS). naive_solver lia.
Qed.

(** The interrupt empties the queue of the core and counts one completion for
    each request in it.  No page is invalidated on the way. *)
Theorem shootdown_handler_flushes_nothing B Ls s (cpu : nat) L :
  sd_inv B Ls s -> Ls !! cpu = Some L ->
  exists B' s', cache_shootdown_interrupt_handler (Z.of_nat cpu) s = Ok (tt, s') /\
    sd_inv B' (<[cpu := []]> Ls) s' /\
    (forall st x, st <> NULL -> sd_states s !! st = Some x -> 0 <= emptied_queues_count x < 2 ^ 32 ->
       sd_states s' !! st =
         Some (MkShootdownState (queues_to_wait_count x) (wrap32 (emptied_queues_count x + occurrences st L)))) /\
    sd_flushed s' = sd_flushed s.
Proof.
  intros HI HL0. destruct (handler_spec _ _ _ _ _ HI HL0) as (B' & s' & R & I' & Es & Ef & _).
  exists B', s'. split_and!; try done. intros st x Hst Hx Hr. rewrite Es. by apply signal_all_lookup.
Qed.

(** The request pushed last is the one taken first. *)
Theorem shootdown_queue_is_a_stack B Ls s (i : nat) L r :
  sd_inv B Ls s -> Ls !! i = Some L -> hp_serves (sd_heap s) sizeof_CSQNode ->
  Z.of_nat (length L) + 1 < 2 ^ 64 -> (pending_state r <> NULL -> is_Some (sd_states s !! pending_state r)) ->
  exists B1 B2 p s1 s2,
    push_to_shootdown_q (Z.of_nat i) r s = Ok (tt, s1) /\ sd_inv B1 (<[i := (p, r) :: L]> Ls) s1 /\
    pop_from_shootdown_q (Z.of_nat i) s1 = Ok (r, s2) /\ sd_inv B2 Ls s2 /\ same_elsewhere s s2.
Proof.
  intros HI HL0 HS Hlen Hst. destruct (push_spec _ _ _ _ _ _ HI HL0 HS Hlen Hst) as (p & k & h & s1 & R1 & I1 & S1 & _).
  destruct (pop_spec _ _ s1 i p r L I1) as (s2 & R2 & I2 & S2 & _).
  { apply list_lookup_insert_eq. by eapply lookup_lt_Some. }
  rewrite list_insert_insert_eq, list_insert_id in I2 by done.
  eexists _, _, p, s1, s2. split_and!; [done|exact I1|done|exact I2|]. by eapply same_elsewhere_trans.
Qed.

(** ** A whole request *)

Fixpoint run_handlers (cores : list nat) : M (sd_state H) unit :=
  match cores with
  | [] => ret tt
  | c :: cs => cache_shootdown_interrupt_handler (Z.of_nat c);; run_handlers cs
  end.

(** The other cores that take part: [acts] are the activity flags from core [i] on. *)
Fixpoint other_cores (cpu i : nat) (acts : list bool) : list nat :=
  match acts with
  | [] => []
  | a :: acts' => (if a && negb (Nat.eqb i cpu) then [i] else []) ++ other_cores cpu (S i) acts'
  end.

Lemma other_cores_elem cpu i acts c :
  c ∈ other_cores cpu i acts <-> (i <= c)%nat /\ c <> cpu /\ acts !! (c - i)%nat = Some true.
Proof.
  revert i. induction acts as [|a acts IH]; intros i; cbn [other_cores].
  - split; [by intros ?%elem_of_nil|]. by intros (_ & _ & ?).
  - rewrite elem_of_app, IH. destruct (decide (c = i)) as [->|Hne].
    + rewrite Nat.sub_diag. cbn. destruct a; cbn.
      * destruct (Nat.eqb_spec i cpu); cbn; [|set_solver by lia].
        split; [|naive_solver]. intros [?%elem_of_nil|(? & _)]; [done|lia].
      * split; [|naive_solver]. intros [?%elem_of_nil|(? & _)]; [done|lia].
    + assert (Hn : c ∉ if a && negb (i =? cpu)%nat then [i] else []).
      { destruct (a && negb (i =? cpu)%nat); [|apply not_elem_of_nil]. by intros ?%list_elem_of_singleton. }
      split.
      * intros [?|(? & ? & Hl)]; [done|]. split_and!; [lia|done|].
        replace (c - i)%nat with (S (c - S i)) by lia. done.
      * intros (? & ? & Hl). right. split_and!; [lia|done|].
        replace (c - i)%nat with (S (c - S i)) in Hl by lia. done.
Qed.

Lemma other_cores_nodup cpu i acts : NoDup (other_cores cpu i acts).
Proof.
  revert i. induction acts as [|a acts IH]; intros i; cbn [other_cores]; [apply NoDup_nil_2|].
  destruct (a && negb (Nat.eqb i cpu)); cbn; [|apply IH]. apply NoDup_cons. split; [|apply IH].
  intros (Hlt & _)%other_cores_elem. lia.
Qed.

Lemma other_cores_length cpu i acts : (length (other_cores cpu i acts) <= length acts)%nat.
Proof.
  revert i. induction acts as [|a acts IH]; intros i; cbn; [lia|]. rewrite length_app.
  specialize (IH (S i)). destruct (a && _); cbn; lia.
Qed.

Lemma count_active_cores (cpu i : nat) qs :
  count_active (Z.of_nat i) (Z.of_nat cpu) qs = Z.of_nat (length (other_cores cpu i (active <$> qs))).
Proof.
  revert i. induction qs as [|q qs IH]; intros i; [done|]. cbn [count_active fmap list_fmap other_cores].
  rewrite length_app. replace (Z.of_nat i + 1) with (Z.of_nat (S i)) by lia. rewrite IH.
  destruct (Z.eqb_spec (Z.of_nat i) (Z.of_nat cpu)), (Nat.eqb_spec i cpu), (active q); cbn; lia.
Qed.

(** [n] allocations of a node in a row succeed. *)
Fixpoint serves_nodes (n : nat) (h : H) : Prop :=
  match n with
  | O => True
  | S n' => hp_serves h sizeof_CSQNode /\
      forall p h', hp_kmalloc sizeof_CSQNode h = Ok (p, h') -> serves_nodes n' h'
  end.

Lemma active_run B Ls s i L :
  sd_inv B Ls s -> Ls !! i = Some L ->
  exists a, (active <$> the_queues s) !! i = Some a /\ is_shootdown_q_active (Z.of_nat i) s = Ok (a, s).
Proof.
  intros HI HL0. destruct (sd_inv_queue _ _ _ _ _ HI HL0) as (q & Hq & Hok & Hlt). exists (active q). split.
  - by rewrite list_lookup_fmap, Hq.
  - unfold is_shootdown_q_active. rewrite (locked_read active i q); [done|done|apply Hok|apply HI].
Qed.

(** The queues after a request: the others have it in front. *)
Definition enqueued (cores : list nat) r Ls Ls' : Prop :=
  length Ls' = length Ls /\
  forall j L, Ls !! j = Some L ->
    exists L', Ls' !! j = Some L' /\
      if decide (j ∈ cores) then exists p, L' = (p, r) :: L else L' = L.

Lemma serves_nodes_pred n h : serves_nodes (S n) h -> serves_nodes n h.
Proof.
  revert h. induction n as [|n IH]; intros h HS; [done|]. destruct HS as [HS1 HS2]. split; [done|].
  intros p h' R. apply IH. by eapply HS2.
Qed.

Lemma enqueued_step (i cpu : nat) acts r Ls Ls' L L1 :
  Ls !! i = Some L ->
  enqueued (other_cores cpu (S i) acts) r (<[i := L1]> Ls) Ls' ->
  forall (b : bool), (if b then exists p, L1 = (p, r) :: L else L1 = L) ->
  enqueued ((if b then [i] else []) ++ other_cores cpu (S i) acts) r Ls Ls'.
Proof.
  intros HL0 [EL EQ] b Hb. split; [by rewrite EL, length_insert|].
  intros j K HK. destruct (decide (j = i)) as [->|Hne].
  - destruct (EQ i L1) as (L' & HL' & HD); [apply list_lookup_insert_eq; by eapply lookup_lt_Some|].
    rewrite decide_False in HD by (intros (? & _)%other_cores_elem; lia). subst L'. exists L1.
    split; [done|]. assert (K = L) as -> by congruence. destruct b.
    + rewrite decide_True by set_solver. done.
    + rewrite decide_False; [done|]. cbn. intros (? & _)%other_cores_elem. lia.
  - destruct (EQ j K) as (L' & HL' & HD); [by rewrite list_lookup_insert_ne|]. exists L'. split; [done|].
    destruct (decide (j ∈ other_cores cpu (S i) acts)) as [Hin|Hin].
    + rewrite decide_True by set_solver. done.
    + rewrite decide_False; [done|]. destruct b; set_solver.
Qed.

Lemma enqueue_loop_spec n (i cpu : nat) B Ls s r :
  sd_inv B Ls s -> (i + n = length Ls)%nat -> serves_nodes n (sd_heap s) ->
  (forall j L, (i <= j)%nat -> Ls !! j = Some L -> Z.of_nat (length L) + 1 < 2 ^ 64) ->
  (pending_state r <> NULL -> is_Some (sd_states s !! pending_state r)) ->
  exists B' Ls' s', enqueue_loop n (Z.of_nat i) (Z.of_nat cpu) r s = Ok (tt, s') /\ sd_inv B' Ls' s' /\
    same_elsewhere s s' /\ (active <$> the_queues s') = (active <$> the_queues s) /\
    enqueued (other_cores cpu i (drop i (active <$> the_queues s))) r Ls Ls'.
Proof.
  revert i B Ls s. induction n as [|n IH]; intros i B Ls s HI Hn HS Hlen Hst; cbn [enqueue_loop].
  - exists B, Ls, s. split_and!; [done|done|apply same_elsewhere_refl|done|].
    rewrite drop_ge.
    2: { rewrite length_fmap, <-(Forall2_length _ _ _ (si_queues _ _ _ HI)). lia. }
    split; [done|]. intros j L HL0. exists L. split; [done|]. by rewrite decide_False by apply not_elem_of_nil.
  - destruct (lookup_lt_is_Some_2 Ls i) as [L HL0]; [lia|].
    destruct (active_run _ _ _ _ _ HI HL0) as (a & Ha & RA). rewrite (bind_ok _ _ _ _ _ RA).
    rewrite (drop_S _ a i Ha). cbn [other_cores].
    assert (Ecmp : negb (Z.of_nat i =? Z.of_nat cpu) = negb (Nat.eqb i cpu)).
    { destruct (Z.eqb_spec (Z.of_nat i) (Z.of_nat cpu)), (Nat.eqb_spec i cpu); (done || lia). }
    rewrite Ecmp. replace (Z.of_nat i + 1) with (Z.of_nat (S i)) by lia.
    set (b := a && negb (Nat.eqb i cpu)).
    assert (Hstep : exists L1 B1 s1, when b (push_to_shootdown_q (Z.of_nat i) r) s = Ok (tt, s1) /\
      sd_inv B1 (<[i := L1]> Ls) s1 /\ same_elsewhere s s1 /\
      (active <$> the_queues s1) = (active <$> the_queues s) /\ serves_nodes n (sd_heap s1) /\
      (if b then exists p, L1 = (p, r) :: L else L1 = L)).
    { destruct HS as [HS1 HS2]. destruct b; cbn [when].
      - destruct (push_spec _ _ _ _ _ _ HI HL0 HS1 (Hlen i L (le_n i) HL0) Hst) as (p & k & h & s1 & R1 & I1 & S1 & RK & Eh & A1).
        exists ((p, r) :: L), (<[p := k]> B), s1. split_and!; try done; try (by exists p). rewrite Eh. by eapply HS2.
      - exists L, B, s. rewrite list_insert_id by done. split_and!; try done. by apply serves_nodes_pred. }
    destruct Hstep as (L1 & B1 & s1 & R1 & I1 & S1 & A1 & HS' & Hb).
    assert (Es1 : sd_states s1 = sd_states s) by apply S1.
    destruct (IH (S i) _ _ s1 I1) as (B' & Ls' & s' & R' & I' & S' & A' & HE).
    { rewrite length_insert. lia. } { done. }
    { intros j K Hj HK. rewrite list_lookup_insert_ne in HK by lia. apply (Hlen j); [lia|done]. }
    { by rewrite Es1. }
    exists B', Ls', s'. rewrite (bind_ok _ _ _ _ _ R1). split_and!; [done|done| | |].
    + by eapply same_elsewhere_trans.
    + congruence.
    + rewrite A1 in HE. by eapply enqueued_step.
Qed.

Lemma run_handlers_spec cores B Ls s st x :
  NoDup cores -> sd_inv B Ls s -> st <> NULL ->
  (forall c, c ∈ cores -> exists L, Ls !! c = Some L /\ occurrences st L = 1) ->
  sd_states s !! st = Some x -> 0 <= emptied_queues_count x ->
  emptied_queues_count x + Z.of_nat (length cores) < 2 ^ 32 ->
  exists B' Ls' s', run_handlers cores s = Ok (tt, s') /\ sd_inv B' Ls' s' /\ sd_flushed s' = sd_flushed s /\
    sd_ipis s' = sd_ipis s /\ sd_if s' = sd_if s /\
    (forall c, c ∈ cores -> Ls' !! c = Some []) /\ (forall c, c ∉ cores -> Ls' !! c = Ls !! c) /\
    sd_states s' !! st =
      Some (MkShootdownState (queues_to_wait_count x) (emptied_queues_count x + Z.of_nat (length cores))).
Proof.
  revert B Ls s x. induction cores as [|c cores IH]; intros B Ls s x ND HI Hst HC Hx H0 Hlt.
  - exists B, Ls, s. cbn. split_and!; try done; [by intros c ?%elem_of_nil|].
    rewrite Z.add_0_r, Hx. by destruct x.
  - apply NoDup_cons in ND as [Hc ND]. destruct (HC c (list_elem_of_here _ _)) as (L & HL0 & Ho).
    destruct (handler_spec _ _ _ _ _ HI HL0) as (B1 & s1 & R1 & I1 & Es & Ef & Ei & Eif & _).
    cbn [length] in Hlt.
    assert (Hx1 : sd_states s1 !! st = Some (MkShootdownState (queues_to_wait_count x) (emptied_queues_count x + 1))).
    { rewrite Es, (signal_all_lookup L _ st x), Ho by (done || lia). do 2 f_equal. apply wrap_small. lia. }
    destruct (IH _ _ s1 (MkShootdownState (queues_to_wait_count x) (emptied_queues_count x + 1)) ND I1 Hst)
      as (B' & Ls' & s' & R' & I' & F1 & F2 & F3 & Hin & Hout & F4).
    { intros d Hd. destruct (HC d (list_elem_of_further _ _ _ Hd)) as (K & HK & HKo). exists K. split; [|done].
      rewrite list_lookup_insert_ne; [done|]. intros ->. contradiction. }
    { done. } { cbn. lia. } { cbn. lia. }
    assert (Hlen : (c < length Ls)%nat) by (by eapply lookup_lt_Some).
    exists B', Ls', s'. cbn [run_handlers]. rewrite (bind_ok _ _ _ _ _ R1). split_and!; try congruence.
    + intros d [->|Hd]%elem_of_cons; [|by apply Hin]. rewrite Hout by done. by apply list_lookup_insert_eq.
    + intros d [Hd1 Hd2]%not_elem_of_cons. rewrite Hout by done. by apply list_lookup_insert_ne.
    + rewrite F4. cbn [queues_to_wait_count emptied_queues_count length]. do 2 f_equal. lia.
Qed.

Lemma init_state_run B Ls s (cpu : nat) L st :
  sd_inv B Ls s -> Ls !! cpu = Some L -> is_Some (sd_states s !! st) ->
  init_vmmcache_shootdown_state (Z.of_nat cpu) st s =
    Ok (tt, set_states (<[st := MkShootdownState
      (wrap32 (Z.of_nat (length (other_cores cpu 0 (active <$> the_queues s))))) 0]> (sd_states s)) s).
Proof.
  intros HI HL0 [x Hx]. destruct (si_init _ _ _ HI) as [qs Hqs]. unfold init_vmmcache_shootdown_state.
  rewrite (bind_ok _ _ _ true s) by (unfold gets, is_vmmcache_shootdown_subsystem_initialized; by rewrite Hqs).
  rewrite (bind_ok _ _ _ tt s) by done.
  rewrite (bind_ok _ _ _ x s) by (unfold read_sd_state; by rewrite Hx).
  set (m1 := <[st := MkShootdownState (queues_to_wait_count x) 0]> (sd_states s)).
  rewrite (bind_ok _ _ _ tt (set_states m1 s)) by done.
  rewrite (bind_ok _ _ _ (Z.of_nat cpu) (set_states m1 s)).
  2: { eapply index_run; [|exact HL0]. apply sd_inv_states; [done|]. intros k [y Hy]. unfold m1.
       rewrite lookup_insert. case_decide; by eexists. }
  rewrite (bind_ok _ _ _ (the_queues s) (set_states m1 s)) by done.
  change 0 with (Z.of_nat 0) at 1. rewrite count_active_cores. unfold write_sd_state, modify, m1. cbn.
  by rewrite insert_insert_eq.
Qed.

Lemma enqueue_run B Ls s (cpu : nat) range st :
  sd_inv B Ls s -> (cpu < length Ls)%nat -> serves_nodes (length Ls) (sd_heap s) ->
  (forall L, L ∈ Ls -> Z.of_nat (length L) + 1 < 2 ^ 64) -> (st <> NULL -> is_Some (sd_states s !! st)) ->
  exists B' Ls' s', _enqueue_vmmcache_shootdown_range (Z.of_nat cpu) range st s = Ok (tt, s') /\ sd_inv B' Ls' s' /\
    same_elsewhere s s' /\ (active <$> the_queues s') = (active <$> the_queues s) /\
    enqueued (other_cores cpu 0 (active <$> the_queues s)) (MkPending range st) Ls Ls'.
Proof.
  intros HI Hcpu HS Hlen Hst. destruct (lookup_lt_is_Some_2 Ls cpu Hcpu) as [L HL0].
  destruct (si_init _ _ _ HI) as [qs Hqs].
  destruct (enqueue_loop_spec (length Ls) 0 cpu B Ls s (MkPending range st) HI eq_refl HS) as (B' & Ls' & s' & R & HE).
  { intros j K _ HK. apply Hlen. by eapply list_elem_of_lookup_2. } { done. }
  exists B', Ls', s'. split; [|exact HE]. unfold _enqueue_vmmcache_shootdown_range.
  rewrite (bind_ok _ _ _ true s) by (unfold gets, is_vmmcache_shootdown_subsystem_initialized; by rewrite Hqs).
  rewrite (bind_ok _ _ _ tt s) by done. rewrite (bind_ok _ _ _ _ _ (index_run _ _ _ _ _ HI HL0)).
  rewrite (bind_ok _ _ _ (queues_count s) s) by done. unfold queues_count.
  rewrite Nat2Z.id, <-(Forall2_length _ _ _ (si_queues _ _ _ HI)). exact R.
Qed.

Lemma occurrences_none st L : (forall x, x ∈ L -> pending_state x.2 <> st) -> occurrences st L = 0.
Proof.
  intros HN. unfold occurrences. induction L as [|x L IH]; [done|]. rewrite filter_cons, decide_False.
  - apply IH. intros y Hy. apply HN. by apply list_elem_of_further.
  - apply HN. apply list_elem_of_here.
Qed.

(** A request with a fresh state [st]: it is sent to the other active cores by an
    interprocessor interrupt, and once they have taken the interrupt the wait of
    the requesting core ends.  No page was invalidated. *)
Lemma request_spec B Ls s (cpu : nat) range st :
  let others := other_cores cpu 0 (active <$> the_queues s) in
  sd_inv B Ls s -> (cpu < length Ls)%nat -> Z.of_nat (length Ls) < 2 ^ 32 ->
  st <> NULL -> is_Some (sd_states s !! st) -> (forall r, r ∈ (concat Ls).*2 -> pending_state r <> st) ->
  serves_nodes (length Ls) (sd_heap s) -> (forall L, L ∈ Ls -> Z.of_nat (length L) + 1 < 2 ^ 64) ->
  exists B1 Ls1 s1 B2 Ls2 s2,
    vmmcache_shootdown (Z.of_nat cpu) range st s = Ok (tt, s1) /\
    sd_ipis s1 = (APIC_DESTSH_ALL_EXCLUDING_SELF, VMMCACHE_SHOOTDOWN_VECTOR) :: sd_ipis s /\
    sd_states s1 !! st = Some (MkShootdownState (Z.of_nat (length others)) 0) /\
    sd_inv B1 Ls1 s1 /\ enqueued others (MkPending range st) Ls Ls1 /\
    run_handlers others s1 = Ok (tt, s2) /\
    sd_inv B2 Ls2 s2 /\ (forall c, c ∈ others -> Ls2 !! c = Some []) /\ (forall c, c ∉ others -> Ls2 !! c = Ls1 !! c) /\
    sd_states s2 !! st = Some (MkShootdownState (Z.of_nat (length others)) (Z.of_nat (length others))) /\
    wait_for_vmmcache_shootdown_completition st s2 = Ok (tt, s2) /\
    sd_flushed s2 = sd_flushed s /\ sd_if s2 = sd_if s.
Proof.
  intros others HI Hcpu H32 Hst HSt HN HS Hlen. destruct (lookup_lt_is_Some_2 Ls cpu Hcpu) as [L HL0].
  set (x0 := MkShootdownState (Z.of_nat (length others)) 0).
  assert (Hcnt : Z.of_nat (length others) < 2 ^ 32).
  { assert (Hle : (length others <= length Ls)%nat); [|lia].
    pose proof (other_cores_length cpu 0 (active <$> the_queues s)) as Hg.
    rewrite length_fmap in Hg.
    rewrite (Forall2_length _ _ _ (si_queues _ _ _ HI)). exact Hg. }
  set (s0 := set_states (<[st := x0]> (sd_states s)) s).
  assert (R0 : init_vmmcache_shootdown_state (Z.of_nat cpu) st s = Ok (tt, s0)).
  { rewrite (init_state_run _ _ _ _ _ _ HI HL0 HSt). fold others. by rewrite wrap_small by lia. }
  assert (I0 : sd_inv B Ls s0).
  { apply sd_inv_states; [done|]. intros k [y Hy]. rewrite lookup_insert. case_decide; by eexists. }
  destruct (enqueue_run B Ls s0 cpu range st I0 Hcpu HS Hlen) as (B1 & Ls1 & s1 & R1 & I1 & (E1 & E2 & E3 & E4 & E5) & A1 & [EL EQ]).
  { intros _. cbn. rewrite lookup_insert_eq. by eexists. }
  change (other_cores cpu 0 (active <$> the_queues s0)) with others in EQ.
  set (s1' := add_ipi APIC_DESTSH_ALL_EXCLUDING_SELF VMMCACHE_SHOOTDOWN_VECTOR s1).
  assert (I1' : sd_inv B1 Ls1 s1') by (destruct I1; by split).
  assert (Hx1 : sd_states s1' !! st = Some x0) by (cbn; rewrite E2; apply lookup_insert_eq).
  destruct (run_handlers_spec others B1 Ls1 s1' st x0) as (B2 & Ls2 & s2 & R2 & I2 & F1 & _ & F3 & G1 & G2 & F4); try done.
  { apply other_cores_nodup. }
  { intros c Hc. pose proof Hc as (_ & _ & Ha)%other_cores_elem.
    assert (Hlt : (c < length Ls)%nat).
    { apply lookup_lt_Some in Ha. rewrite length_fmap, Nat.sub_0_r in Ha.
      by rewrite (Forall2_length _ _ _ (si_queues _ _ _ HI)). }
    destruct (lookup_lt_is_Some_2 Ls c Hlt) as [K HK]. destruct (EQ c K HK) as (K' & HK' & HD).
    rewrite decide_True in HD by done. destruct HD as [p ->]. exists ((p, MkPending range st) :: K). split; [done|].
    unfold occurrences. rewrite filter_cons, decide_True by done. cbn [length].
    assert (HO : occurrences st K = 0).
    { apply occurrences_none. intros y Hy. apply HN. apply list_elem_of_fmap. exists y. split; [done|].
      by eapply concat_elem. }
    unfold occurrences in HO. lia. }
  exists B1, Ls1, s1', B2, Ls2, s2. split_and!; try done.
  - unfold vmmcache_shootdown. rewrite (proj2 (Z.eqb_neq st NULL) Hst). cbn [negb when].
    rewrite (bind_ok _ _ _ _ _ R0), (bind_ok _ _ _ _ _ R1). done.
  - cbn. by rewrite E3.
  - unfold wait_for_vmmcache_shootdown_completition.
    unfold bind, read_sd_state. rewrite F4. cbn. by rewrite (proj2 (Z.ltb_ge _ _)) by lia.
  - rewrite F1. cbn. by rewrite E4.
  - rewrite F3. cbn. by rewrite E1.
Qed.

(** C18: vmmcache_shootdown puts the request in front of the queue of every other
    active core and of no other, sends one interrupt to the other processors and leaves
    the waiter at zero answers; once each of these cores has run its handler its queue
    is empty, the other queues are as before, every one has answered and
    wait_for_vmmcache_shootdown_completition returns. Nothing is said of the
    invalidation of the range: the handler's test for the null range is inverted
    (vaddr_cache_shootdown.c:254). *)
Theorem vmmcache_shootdown_completes B Ls s (cpu : nat) range st :
  let others := other_cores cpu 0 (active <$> the_queues s) in
  let waiting n := MkShootdownState (Z.of_nat (length others)) n in
  sd_inv B Ls s -> (cpu < length Ls)%nat -> Z.of_nat (length Ls) < 2 ^ 32 ->
  st <> NULL -> is_Some (sd_states s !! st) -> (forall r, r ∈ (concat Ls).*2 -> pending_state r <> st) ->
  serves_nodes (length Ls) (sd_heap s) -> (forall L, L ∈ Ls -> Z.of_nat (length L) + 1 < 2 ^ 64) ->
  exists B1 Ls1 s1 B2 Ls2 s2,
    vmmcache_shootdown (Z.of_nat cpu) range st s = Ok (tt, s1) /\ sd_inv B1 Ls1 s1 /\
    sd_ipis s1 = (APIC_DESTSH_ALL_EXCLUDING_SELF, VMMCACHE_SHOOTDOWN_VECTOR) :: sd_ipis s /\
    sd_states s1 !! st = Some (waiting 0) /\
    (forall c L, Ls !! c = Some L -> exists L1, Ls1 !! c = Some L1 /\
       L1.*2 = (if decide (c ∈ others) then [MkPending range st] else []) ++ L.*2) /\
    run_handlers others s1 = Ok (tt, s2) /\ sd_inv B2 Ls2 s2 /\
    (forall c L, Ls !! c = Some L -> Ls2 !! c = Some (if decide (c ∈ others) then [] else L)) /\
    sd_states s2 !! st = Some (waiting (Z.of_nat (length others))) /\
    wait_for_vmmcache_shootdown_completition st s2 = Ok (tt, s2) /\ sd_if s2 = sd_if s.
Proof.
  intros others waiting HI Hcpu H32 Hst HSt HN HS Hlen.
  destruct (request_spec B Ls s cpu range st HI Hcpu H32 Hst HSt HN HS Hlen) as
    (B1 & Ls1 & s1 & B2 & Ls2 & s2 & R1 & Ei & Es & I1 & [_ EQ] & R2 & I2 & G1 & G2 & Es2 & R3 & _ & Eif).
  fold others in EQ, R2, G1, G2, Es, Es2.
  exists B1, Ls1, s1, B2, Ls2, s2. split_and!; try done.
  - intros c L HL0. destruct (EQ c L HL0) as (L1 & HL1 & HD). exists L1. split; [done|].
    case_decide; [by destruct HD as [p ->]|by subst].
  - intros c L HL0. case_decide as Hc; [by apply G1|]. rewrite G2 by done.
    destruct (EQ c L HL0) as (L1 & HL1 & HD). rewrite decide_False in HD by done. by subst.
Qed.

(** ** The subsystem as the virtual memory manager calls it

    The state of a request is a local variable of the caller, at [frame]; while the
    caller waits, the other cores take the interrupt. *)
Context (cpu : nat) (frame : Z).

Definition shootdown_request (addr n : Z) : M (sd_state H) unit :=
  modify (fun s => set_states (<[frame := MkShootdownState 0 0]> (sd_states s)) s);;
  others <- gets (fun s => other_cores cpu 0 (active <$> the_queues s));;
  vmmcache_shootdown (Z.of_nat cpu) (MkShootdownRange addr n) frame;;
  run_handlers others;;
  wait_for_vmmcache_shootdown_completition frame.

#[local] Instance shootdown_provider : ShootdownProvider (sd_state H) := {|
  Interfaces.is_vmmcache_shootdown_subsystem_initialized := is_vmmcache_shootdown_subsystem_initialized;
  sp_shootdown := shootdown_request
|}.

Lemma shootdown_request_completes B Ls s addr n :
  sd_inv B Ls s -> (cpu < length Ls)%nat -> Z.of_nat (length Ls) < 2 ^ 32 ->
  frame <> NULL -> (forall r, r ∈ (concat Ls).*2 -> pending_state r <> frame) ->
  serves_nodes (length Ls) (sd_heap s) -> (forall L, L ∈ Ls -> Z.of_nat (length L) + 1 < 2 ^ 64) ->
  exists s', sp_shootdown addr n s = Ok (tt, s') /\ sd_flushed s' = sd_flushed s.
Proof.
  intros HI Hcpu H32 Hfr HN HS Hlen. set (s0 := set_states (<[frame := MkShootdownState 0 0]> (sd_states s)) s).
  assert (I0 : sd_inv B Ls s0).
  { apply sd_inv_states; [done|]. intros k [y Hy]. rewrite lookup_insert. case_decide; by eexists. }
  destruct (request_spec B Ls s0 cpu (MkShootdownRange addr n) frame) as
    (B1 & Ls1 & s1 & B2 & Ls2 & s2 & R1 & _ & _ & _ & _ & R2 & _ & _ & _ & _ & R3 & EF & _); try done.
  { cbn. rewrite lookup_insert_eq. by eexists. }
  exists s2. split; [|exact EF]. unfold sp_shootdown, shootdown_provider, shootdown_request.
  rewrite (bind_ok _ _ _ tt s0) by done.
  rewrite (bind_ok _ _ _ (other_cores cpu 0 (active <$> the_queues s0)) s0) by done.
  by rewrite (bind_ok _ _ _ _ _ R1), (bind_ok _ _ _ _ _ R2).
Qed.

End top.
