(* ===== verification/StructRuns.v ===== *)
(** * The list and the shootdown queues on the modelled heap

    Both components ask the heap for their nodes; here the heap is the one of
    [Heap], so that the laws they rely on are theorems. *)

From S2P Require Import Prelude Memory Sync Interfaces Heap HeapRegion HeapChunks HeapInv HeapSpec HeapRuns HeapProvider LinkedList Shootdown ShootdownInv ShootdownTop.

Definition one_node : ll_state (heap_state region) :=
  LLState heap1 {[ base + 8 := MkNode 7 NULL ]}.
Definition one_list : LinkedList := MkLinkedList (base + 8) 1.

Lemma one_list_inv : ll_inv {[ base + 8 := 48 ]} one_list [(base + 8, 7)] one_node.
Proof.
  split.
  - exists base, chunks1. split_and!; [exact heap1_inv| |by vm_compute].
    apply (bool_decide_unpack _). by vm_compute.
  - reflexivity.
  - split; reflexivity.
  - cbn. split_and!; [done|apply lookup_singleton_eq|done].
  - apply NoDup_singleton.
  - intros p ->%list_elem_of_singleton. rewrite lookup_singleton_eq. by eexists.
Qed.

Lemma linked_list_refines_list_witness :
  exists q k ll' s', run_op (InsertAfter (base + 8) 9) one_list one_node = Ok (ll', s') /\
    ll_inv (<[q := k]> {[ base + 8 := 48 ]}) ll' [(base + 8, 7); (q, 9)] s'.
Proof.
  destruct (linked_list_refines_list {[ base + 8 := 48 ]} one_list [(base + 8, 7)] one_node (InsertAfter (base + 8) 9))
    as (q & k & ll' & s' & R & _ & I').
  - exact one_list_inv.
  - left. by apply list_elem_of_singleton.
  - intros _. split; [split_and!; by vm_compute|by vm_compute].
  - exists q, k, ll', s'. split; [exact R|exact I'].
Defined.

Lemma linked_list_get_at_counts_from_one_witness :
  linked_list_get_at one_list 1 one_node = Ok (base + 8, one_node) /\
  linked_list_get_at one_list 0 one_node = Panic FAILED_ASSERT.
Proof.
  split.
  - refine (linked_list_get_at_counts_from_one {[ base + 8 := 48 ]} one_list [(base + 8, 7)] one_node 1 _ _ _);
      [exact one_list_inv|lia|cbn; lia].
  - refine (linked_list_get_at_counts_from_one {[ base + 8 := 48 ]} one_list [(base + 8, 7)] one_node 0 _ _ _);
      [exact one_list_inv|lia|cbn; lia].
Defined.

Lemma linked_list_destroy_frees_all_witness :
  exists s', linked_list_destroy one_list one_node = Ok (create_linked_list, s') /\ hp_inv (ll_heap s') ∅.
Proof.
  destruct (linked_list_destroy_frees_all {[ base + 8 := 48 ]} one_list [(base + 8, 7)] one_node) as (s' & R & HI).
  - exact one_list_inv.
  - exists s'. split; [exact R|]. assert (without [(base + 8, 7)].*1 {[base + 8 := 48]} = ∅) as E.
    { cbn. apply delete_singleton_eq. } rewrite E in HI. exact HI.
Defined.

(** ** Shootdown: a machine with two cores

    Both cores are active; the second has one request pending, whose node is the
    live block of the heap [heap1]. *)

Definition old_request : pending := MkPending (MkShootdownRange 0xffff800000400000 4) 0x5000.
Definition two_lists : list qlist := [[]; [(base + 8, old_request)]].

Definition two_cores : sd_state (heap_state region) :=
  SDState heap1 true {[ base + 8 := MkCSQNode old_request NULL ]}
    (Some [MkQueue NULL NULL 0 true false; MkQueue (base + 8) (base + 8) 1 true false])
    {[ 0x5000 := MkShootdownState 1 0; 0x6000 := MkShootdownState 0 0 ]} [] [] true.

Lemma two_cores_inv : sd_inv {[ base + 8 := 48 ]} two_lists two_cores.
Proof.
  split.
  - exists base, chunks1. split_and!; [exact heap1_inv| |by vm_compute].
    apply (bool_decide_unpack _). by vm_compute.
  - by eexists.
  - repeat constructor; cbn; try done.
  - apply NoDup_singleton.
  - intros p ->%list_elem_of_singleton. rewrite lookup_singleton_eq. by eexists.
  - intros r ->%list_elem_of_singleton _. by eexists.
Qed.

Lemma heap1_serves : serves_nodes 2 (sd_heap two_cores).
Proof.
  split; [split_and!; by vm_compute|]. intros p h R. split; [|done].
  cbn [hp_kmalloc heap_provider sd_heap two_cores] in R. unfold sizeof_CSQNode in *.
  assert (E : h = after (kmalloc 32) heap1) by (unfold after; by rewrite R).
  rewrite E. split_and!; by vm_compute.
Qed.

Lemma shootdown_handler_flushes_nothing_witness :
  exists s', cache_shootdown_interrupt_handler 1 two_cores = Ok (tt, s') /\ sd_flushed s' = [] /\
    sd_states s' !! 0x5000 = Some (MkShootdownState 1 1).
Proof.
  destruct (shootdown_handler_flushes_nothing {[ base + 8 := 48 ]} two_lists two_cores 1 [(base + 8, old_request)])
    as (B' & s' & R & _ & HS & HF).
  - exact two_cores_inv.
  - reflexivity.
  - exists s'. split_and!; [exact R|exact HF|].
    rewrite (HS 0x5000 (MkShootdownState 1 0)); [reflexivity|discriminate|by vm_compute|cbn; lia].
Defined.

Lemma shootdown_queue_is_a_stack_witness :
  exists s1 s2, push_to_shootdown_q 1 (MkPending null_range 0x6000) two_cores = Ok (tt, s1) /\
    pop_from_shootdown_q 1 s1 = Ok (MkPending null_range 0x6000, s2).
Proof.
  destruct (shootdown_queue_is_a_stack {[ base + 8 := 48 ]} two_lists two_cores 1 [(base + 8, old_request)]
    (MkPending null_range 0x6000)) as (B1 & B2 & p & s1 & s2 & R1 & _ & R2 & _).
  - exact two_cores_inv.
  - reflexivity.
  - exact (proj1 heap1_serves).
  - cbn. lia.
  - intros _. by eexists.
  - exists s1, s2. split; [exact R1|exact R2].
Defined.

Lemma vmmcache_shootdown_completes_witness :
  exists s1 s2, vmmcache_shootdown 0 (MkShootdownRange 0xffff800000001000 2) 0x6000 two_cores = Ok (tt, s1) /\
    run_handlers [1%nat] s1 = Ok (tt, s2) /\
    wait_for_vmmcache_shootdown_completition 0x6000 s2 = Ok (tt, s2).
Proof.
  destruct (vmmcache_shootdown_completes {[ base + 8 := 48 ]} two_lists two_cores 0
    (MkShootdownRange 0xffff800000001000 2) 0x6000) as
    (B1 & Ls1 & s1 & B2 & Ls2 & s2 & R1 & _ & _ & _ & _ & R2 & _ & _ & _ & R3 & _).
  - exact two_cores_inv.
  - cbn. lia.
  - cbn. lia.
  - discriminate.
  - by eexists.
  - intros r ->%list_elem_of_singleton. discriminate.
  - exact heap1_serves.
  - intros L [->|[->|[]%elem_of_nil]%elem_of_cons]%elem_of_cons; cbn; lia.
  - exists s1, s2. split_and!; [exact R1|exact R2|exact R3].
Defined.
