(* ===== verification/Elf.v ===== *)
(** * ELF headers (elf.c, elf.h)

    The kernel image is in memory; the functions walk its table of program
    headers.  The fields are read at the offsets of the packed structures. *)

From S2P Require Import Prelude Memory.

Definition PT_LOAD : Z := 1.
Definition PF_X : Z := 1.
Definition PF_W : Z := 2.
Definition PF_R : Z := 4.

(** The packed structures: offset and size in bytes of each field. *)
Record ElfHeader : Type := MkElfHeader {
  ei_magic : list Z; ei_class : Z; ei_data : Z; ei_version : Z; ei_osabi : Z; ei_abiversion : Z;
  ei_type : Z; ei_machine : Z; e_version : Z; e_entry : Z; e_phoff : Z; e_shoff : Z; e_flags : Z;
  e_ehsize : Z; e_phentsize : Z; e_phnum : Z; e_shentsize : Z; e_shnum : Z; e_shstrndx : Z
}.

Definition field (n : nat) (m : mem) (base offset : Z) : Z := load_le n m (wrap64 (base + offset)).

Definition read_ElfHeader (m : mem) (h : Z) : ElfHeader :=
  MkElfHeader [field 1 m h 0; field 1 m h 1; field 1 m h 2; field 1 m h 3]
    (field 1 m h 4) (field 1 m h 5) (field 1 m h 6) (field 1 m h 7) (field 1 m h 8)
    (field 2 m h 16) (field 2 m h 18) (field 4 m h 20) (field 8 m h 24) (field 8 m h 32) (field 8 m h 40)
    (field 4 m h 48) (field 2 m h 52) (field 2 m h 54) (field 2 m h 56) (field 2 m h 58) (field 2 m h 60)
    (field 2 m h 62).
Definition sizeof_ElfHeader : Z := 64.

Record ElfProgramHeader : Type := MkElfProgramHeader {
  p_type : Z; p_flags : Z; p_offset : Z; p_vaddr : Z; p_paddr : Z; p_filesz : Z; p_memsz : Z; p_align : Z
}.

Definition read_ElfProgramHeader (m : mem) (p : Z) : ElfProgramHeader :=
  MkElfProgramHeader (field 4 m p 0) (field 4 m p 4) (field 8 m p 8) (field 8 m p 16) (field 8 m p 24)
    (field 8 m p 32) (field 8 m p 40) (field 8 m p 48).
Definition sizeof_ElfProgramHeader : Z := 56.

Record ElfLoadedSegment : Type := MkSegment {
  executable : bool; writeable : bool; readable : bool; vaddr : Z; segment_size : Z
}.

Definition elf_check_structs_size : bool :=
  (sizeof_ElfHeader =? 0x40) && (sizeof_ElfProgramHeader =? 0x38).

(** [ENDIANESS] is [LITTLE_ENDIAN] in this build. *)
Definition elf_validate_header (m : mem) (header : Z) : bool :=
  let h := read_ElfHeader m header in
  bool_decide (ei_magic h = [0x7f; 0x45; 0x4c; 0x46]) && (ei_class h =? 2) && (ei_data h =? 1) &&
  (ei_version h =? 1) && (e_version h =? 1).

(** The loop of [elf_get_number_of_loaded_entries] from program header [pheader] on. *)
Fixpoint count_loop (n : nat) (m : mem) (entsize pheader counter : Z) : Z :=
  match n with
  | O => counter
  | S n' =>
      let counter := if p_type (read_ElfProgramHeader m pheader) =? PT_LOAD then wrap16 (counter + 1) else counter in
      count_loop n' m entsize (wrap64 (pheader + entsize)) counter
  end.

Definition elf_get_number_of_loaded_entries (m : mem) (header : Z) : Z :=
  let h := read_ElfHeader m header in
  count_loop (Z.to_nat (e_phnum h)) m (e_phentsize h) (wrap64 (header + e_phoff h)) 0.

Definition load_segment (ph : ElfProgramHeader) : ElfLoadedSegment :=
  MkSegment (negb (Z.land (p_flags ph) PF_X =? 0)) (negb (Z.land (p_flags ph) PF_W =? 0))
    (negb (Z.land (p_flags ph) PF_R =? 0)) (p_vaddr ph) (p_memsz ph).

(** The loop of [elf_get_loaded_entries]: [out] are the entries written so far. *)
Fixpoint entries_loop (n : nat) (m : mem) (entsize pheader buffer_size : Z) (out : list ElfLoadedSegment) :
    list ElfLoadedSegment :=
  match n with
  | O => out
  | S n' =>
      if Z.of_nat (length out) <? buffer_size then
        let ph := read_ElfProgramHeader m pheader in
        let out := if p_type ph =? PT_LOAD then out ++ [load_segment ph] else out in
        entries_loop n' m entsize (wrap64 (pheader + entsize)) buffer_size out
      else out
  end.

(** The entries the function writes to the start of [out_buffer]. *)
Definition elf_get_loaded_entries (m : mem) (header buffer_size : Z) : list ElfLoadedSegment :=
  let h := read_ElfHeader m header in
  entries_loop (Z.to_nat (e_phnum h)) m (e_phentsize h) (wrap64 (header + e_phoff h)) buffer_size [].

(** ** The table *)

(** The program headers of the image, in order. *)
Definition program_headers (m : mem) (header : Z) : list ElfProgramHeader :=
  let h := read_ElfHeader m header in
  (fun i => read_ElfProgramHeader m (wrap64 (header + e_phoff h + e_phentsize h * Z.of_nat i))) <$>
    seq 0 (Z.to_nat (e_phnum h)).

Definition is_load (ph : ElfProgramHeader) : bool := p_type ph =? PT_LOAD.

Definition load_segments (m : mem) (header : Z) : list ElfLoadedSegment :=
  load_segment <$> filter (fun ph => is_load ph = true) (program_headers m header).

(** The headers from index [i] on, as the loops read them. *)
Definition headers_from (m : mem) (entsize p : Z) (i n : nat) : list ElfProgramHeader :=
  (fun i => read_ElfProgramHeader m (wrap64 (p + entsize * Z.of_nat i))) <$> seq i n.

Lemma wrap64_step p e i : wrap64 (wrap64 (p + e * Z.of_nat i) + e) = wrap64 (p + e * Z.of_nat (S i)).
Proof. unfold wrap64, wrap. rewrite Zplus_mod_idemp_l. f_equal. lia. Qed.

Lemma count_loop_spec n m e p i c :
  0 <= c -> c + Z.of_nat n < 2 ^ 16 ->
  count_loop n m e (wrap64 (p + e * Z.of_nat i)) c =
    c + Z.of_nat (length (filter (fun ph => is_load ph = true) (headers_from m e p i n))).
Proof.
  revert i c. induction n as [|n IH]; intros i c H0 Hc; [cbn; lia|].
  unfold headers_from. cbn [count_loop seq fmap list_fmap]. rewrite filter_cons, wrap64_step.
  case_decide as E; unfold is_load in E; [rewrite E|rewrite (not_true_is_false _ E)].
  - rewrite (wrap_small 16), IH by lia. cbn [length]. unfold headers_from. lia.
  - rewrite IH by lia. unfold headers_from. lia.
Qed.

Lemma entries_loop_spec n m e p i bs out :
  entries_loop n m e (wrap64 (p + e * Z.of_nat i)) bs out =
    out ++ take (Z.to_nat bs - length out)
      (load_segment <$> filter (fun ph => is_load ph = true) (headers_from m e p i n)).
Proof.
  revert i out. induction n as [|n IH]; intros i out; [cbn; by rewrite take_nil, app_nil_r|].
  unfold headers_from. cbn [entries_loop seq fmap list_fmap]. rewrite filter_cons, wrap64_step.
  destruct (Z.ltb_spec (Z.of_nat (length out)) bs) as [Hlt|Hge].
  - rewrite IH. case_decide as E; unfold is_load in E; [rewrite E|by rewrite (not_true_is_false _ E)].
    rewrite length_app. cbn [length fmap list_fmap].
    replace (Z.to_nat bs - length out)%nat with (S (Z.to_nat bs - (length out + 1)))%nat by lia.
    cbn [take]. by rewrite <-app_assoc.
  - replace (Z.to_nat bs - length out)%nat with 0%nat by lia. by rewrite take_0, app_nil_r.
Qed.

Lemma headers_from_all m header :
  let h := read_ElfHeader m header in
  headers_from m (e_phentsize h) (header + e_phoff h) 0 (Z.to_nat (e_phnum h)) = program_headers m header.
Proof. done. Qed.

Lemma phnum_range m header : 0 <= e_phnum (read_ElfHeader m header) < 2 ^ 16.
Proof. cbn [read_ElfHeader e_phnum]. unfold field. pose proof (load_le_range 2 m (wrap64 (header + 56))). lia. Qed.

(** The loops compute the PT_LOAD headers of the table. *)
Lemma elf_count_spec m header : elf_get_number_of_loaded_entries m header = Z.of_nat (length (load_segments m header)).
Proof.
  pose proof (phnum_range m header) as Hn. unfold elf_get_number_of_loaded_entries. cbv zeta.
  replace (wrap64 (header + e_phoff (read_ElfHeader m header))) with (wrap64 (header + e_phoff (read_ElfHeader m header) + e_phentsize (read_ElfHeader m header) * Z.of_nat 0))
    by (f_equal; lia).
  rewrite count_loop_spec by lia. unfold load_segments. rewrite length_fmap, <-headers_from_all. lia.
Qed.

Lemma elf_entries_spec m header bs : elf_get_loaded_entries m header bs = take (Z.to_nat bs) (load_segments m header).
Proof.
  unfold elf_get_loaded_entries. cbv zeta.
  replace (wrap64 (header + e_phoff (read_ElfHeader m header))) with (wrap64 (header + e_phoff (read_ElfHeader m header) + e_phentsize (read_ElfHeader m header) * Z.of_nat 0))
    by (f_equal; lia).
  rewrite entries_loop_spec. cbn [length app]. by rewrite Nat.sub_0_r.
Qed.

(** The count and the entries are those of the PT_LOAD headers of the table, in
    order, as many as the buffer holds; a buffer of the size the first function
    returns holds them all. *)
Theorem elf_loaded_entries_correct m header bs :
  elf_get_number_of_loaded_entries m header = Z.of_nat (length (load_segments m header)) /\
  elf_get_loaded_entries m header bs = take (Z.to_nat bs) (load_segments m header) /\
  elf_get_loaded_entries m header (elf_get_number_of_loaded_entries m header) = load_segments m header.
Proof. split_and!; [apply elf_count_spec|apply elf_entries_spec|]. by rewrite elf_entries_spec, elf_count_spec, Nat2Z.id, take_ge by lia. Qed.

(** ** The image in memory *)

(** The table is inside the [len] bytes of the image. *)
Record image_inside (m : mem) (header len : Z) : Prop := {
  ii_range : 0 <= header /\ 64 <= len /\ header + len < 2 ^ 64;
  ii_table : forall i, 0 <= i < e_phnum (read_ElfHeader m header) ->
    e_phoff (read_ElfHeader m header) + e_phentsize (read_ElfHeader m header) * i + 56 <= len
}.

Lemma field_same n m m' header len base off :
  (forall a, header <= a < header + len -> load8 m' a = load8 m a) -> 0 <= header -> header + len < 2 ^ 64 ->
  header <= base + off -> base + off + Z.of_nat n <= header + len -> (1 <= n)%nat -> field n m' base off = field n m base off.
Proof. intros H H0 H1 H2 H3 Hn. unfold field. rewrite wrap64_small by lia. apply load_le_ext. intros b Hb. apply H. lia. Qed.

Lemma read_header_same m m' header len :
  (forall a, header <= a < header + len -> load8 m' a = load8 m a) -> 0 <= header -> 64 <= len -> header + len < 2 ^ 64 ->
  read_ElfHeader m' header = read_ElfHeader m header.
Proof.
  intros H H0 H1 H2. assert (Hf : forall n off, 0 <= off -> off + Z.of_nat n <= 64 -> (1 <= n)%nat -> field n m' header off = field n m header off)
    by (intros n off Ho Hn Hp; apply (field_same _ m m' header len); assumption || lia).
  unfold read_ElfHeader. by rewrite !Hf by lia.
Qed.

Lemma read_program_header_same m m' header len p :
  (forall a, header <= a < header + len -> load8 m' a = load8 m a) -> 0 <= header -> header + len < 2 ^ 64 ->
  header <= p -> p + 56 <= header + len -> read_ElfProgramHeader m' p = read_ElfProgramHeader m p.
Proof. intros H H0 H1 H2 H3. unfold read_ElfProgramHeader. f_equal; apply (field_same _ m m' header len); assumption || lia. Qed.

(** What is read of the image depends on its bytes only. *)
Lemma image_same m m' header len :
  image_inside m header len -> (forall a, header <= a < header + len -> load8 m' a = load8 m a) ->
  elf_validate_header m' header = elf_validate_header m header /\ load_segments m' header = load_segments m header.
Proof.
  intros [(H0 & H1 & H2) HT] H. pose proof (read_header_same m m' header len H H0 H1 H2) as E. split; [unfold elf_validate_header; by rewrite E|].
  unfold load_segments. f_equal. f_equal. unfold program_headers. rewrite E. apply list_fmap_ext. intros k i Hi. apply lookup_seq in Hi as [-> Hk].
  pose proof (phnum_range m header) as Hn. specialize (HT (Z.of_nat (0 + k)) ltac:(lia)).
  assert (0 <= e_phoff (read_ElfHeader m header) /\ 0 <= e_phentsize (read_ElfHeader m header)) as [Hp He].
  { cbn [read_ElfHeader e_phoff e_phentsize]. unfold field.
    pose proof (load_le_range 8 m (wrap64 (header + 32))). pose proof (load_le_range 2 m (wrap64 (header + 54))). lia. }
  rewrite wrap64_small by nia. apply (read_program_header_same m m' header len); [assumption|lia|lia|nia|nia].
Qed.
