(* ===== verification/Bus.v ===== *)
(** * Device registers, ports and mappings

    The interrupt controllers and the timer are programmed through I/O ports
    (outb, inb, outw of HAL/x86-64/cpu_instructions.c) and through volatile
    accesses to registers mapped in memory.  A device is a parameter: the value
    a read returns is a function of the history of accesses, so that every
    theorem holds for every device that satisfies its hypotheses.  The history is
    the observable effect of a driver; the lines a driver prints on the console,
    which is initialised before the drivers run, are part of it.

    [MappingProvider] lists the calls of the drivers into the virtual memory
    manager (mem/vmm.c). *)

From stdpp Require Import strings.
From S2P Require Import Prelude Memory Interfaces.

Inductive bus_event : Type :=
| PortOut (width port value : Z)
| PortIn (width port value : Z)
| RegWrite (address value : Z)
| RegRead (address value : Z)
| RegWrite8 (address value : Z)
| ConsoleText (text : string).

#[export] Instance bus_event_eq_dec : EqDecision bus_event.
Proof. solve_decision. Defined.

Abbreviation history := (list bus_event).

(** What the devices answer after a history of accesses. *)
Class Device : Type := {
  port_value : history -> Z -> Z;
  reg_value : history -> Z -> Z
}.

Section access.
Context {DV : Device}.

Definition log (e : bus_event) : M history unit := modify (fun t => t ++ [e]).

(** One access of [w] bits. *)
Definition port_out (w port value : Z) : M history unit := log (PortOut w (wrap16 port) (wrap w value)).
Definition port_in (w port : Z) : M history Z :=
  v <- gets (fun t => wrap w (port_value t (wrap16 port)));;
  log (PortIn w (wrap16 port) v);;
  ret v.

Definition outb : Z -> Z -> M history unit := port_out 8.
Definition outw : Z -> Z -> M history unit := port_out 16.
Definition outl : Z -> Z -> M history unit := port_out 32.
Definition inb : Z -> M history Z := port_in 8.
Definition inw : Z -> M history Z := port_in 16.
Definition inl : Z -> M history Z := port_in 32.

(** [io_wait] writes to an unused port. *)
Definition io_wait : M history unit := outb 0x80 0.

(** A volatile 32-bit access at a mapped address. *)
Definition reg_write32 (address value : Z) : M history unit := log (RegWrite (wrap64 address) (wrap32 value)).
(** A volatile 8-bit store at a mapped address. *)
Definition reg_write8 (address value : Z) : M history unit := log (RegWrite8 (wrap64 address) (wrap8 value)).
Definition reg_read32 (address : Z) : M history Z :=
  v <- gets (fun t => wrap32 (reg_value t (wrap64 address)));;
  log (RegRead (wrap64 address) v);;
  ret v.

Lemma outb_run p v t : outb p v t = Ok (tt, t ++ [PortOut 8 (wrap16 p) (wrap8 v)]).
Proof. done. Qed.
Lemma inb_run p t :
  inb p t = Ok (wrap8 (port_value t (wrap16 p)), t ++ [PortIn 8 (wrap16 p) (wrap8 (port_value t (wrap16 p)))]).
Proof. done. Qed.
End access.

(** What the drivers call of the virtual memory manager: a mapping of physical
    memory, its address, and the physical address behind a virtual one. *)
Class MappingProvider (V : Type) : Type := {
  mp_memory_map : Z -> Z -> Z -> M V VMemHandle;
  mp_deallocate : VMemHandle -> M V unit;
  mp_vmem_addr : VMemHandle -> V -> Z;
  mp_translate : V -> Z -> Z
}.

(** A valid handle stands for [size] bytes of virtual memory that translate to
    the physical memory at [paddr]. *)
Class MappingLaws (V : Type) {MP : MappingProvider V} : Type := {
  mp_ok : V -> Prop;
  mp_map_ok : forall v paddr size flags,
    mp_ok v -> paddr mod PAGE_SIZE = 0 -> size mod PAGE_SIZE = 0 -> 0 < size < 2 ^ 40 -> 0 <= paddr < 2 ^ 47 ->
    exists h v', mp_memory_map paddr size flags v = Ok (h, v') /\ mp_ok v' /\ is_vmemhandle_invalid h = false /\
      0 < mp_vmem_addr h v' /\ mp_vmem_addr h v' + size < 2 ^ 64 /\
      (forall i, 0 <= i < size -> mp_translate v' (mp_vmem_addr h v' + i) = paddr + i) /\
      exists v'', mp_deallocate h v' = Ok (tt, v'') /\ mp_ok v''
}.
