(* ===== verification/Acpi.v ===== *)
(** * ACPI tables (acpi/acpi.c, acpi/acpi.h, HAL/bios/acpi.c)

    The firmware leaves its tables in physical memory, which the kernel reads
    through the identity map; the first page is not mapped, so an access to it is
    a fault.  The state holds the memory, the cached pointers and the virtual
    memory manager, from which [acpi_RSDP] gets a view of the first page. *)

From S2P Require Import Prelude Memory Interfaces Bus.

Definition ACPI_REVISION2 : Z := 2.
Definition sizeof_RSDP : Z := 20.
Definition sizeof_ACPI_description_header : Z := 36.

(** The number a string literal reads as through an integer pointer. *)
Definition le_value (bytes : list Z) : Z := foldr (fun b r => b + 256 * r) 0 bytes.
Definition RSDP_signature : Z := le_value [0x52; 0x53; 0x44; 0x20; 0x50; 0x54; 0x52; 0x20].
Definition APIC_signature : Z := le_value [0x41; 0x50; 0x49; 0x43].

Record acpi_state (V : Type) : Type := AcpiState {
  acpi_vm : V;
  acpi_mem : mem;
  cached_rsdp : Z;
  cached_xsdp : Z;
  cached_madt : Z
}.
Arguments AcpiState {V}.
Arguments acpi_vm {V}.
Arguments acpi_mem {V}.
Arguments cached_rsdp {V}.
Arguments cached_xsdp {V}.
Arguments cached_madt {V}.

(** Fields of the packed structures. *)
Definition rsdp_revision (m : mem) (p : Z) : Z := load8 m (p + 15).
Definition rsdp_rsdt (m : mem) (p : Z) : Z := load32 m (p + 16).
Definition xsdp_xsdt (m : mem) (p : Z) : Z := load64 m (p + 24).
Definition table_signature (m : mem) (p : Z) : Z := load32 m p.
Definition table_lenght (m : mem) (p : Z) : Z := load32 m (p + 4).

(** [for(i = 0; i < n; i++) checksum += raw[i]] on a [uint8_t]. *)
Fixpoint checksum_loop (n : nat) (m : mem) (p checksum : Z) : Z :=
  match n with
  | O => checksum
  | S n' => checksum_loop n' m (p + 1) (wrap8 (checksum + load8 m p))
  end.

Definition check_rsdp (m : mem) (rsdp : Z) : bool :=
  if negb (load64 m rsdp =? RSDP_signature) then false
  else checksum_loop (Z.to_nat sizeof_RSDP) m rsdp 0 =? 0.

Definition check_xsdp : mem -> Z -> bool := check_rsdp.

Definition check_ACPI_table (m : mem) (header : Z) : bool :=
  checksum_loop (Z.to_nat (table_lenght m header)) m header 0 =? 0.

Definition get_rsdt (m : mem) (rsdp : Z) : Z := rsdp_rsdt m rsdp.
Definition get_xsdt (m : mem) (xsdp : Z) : Z := xsdp_xsdt m xsdp.

(** The subtraction is on 64 bits. *)
Definition get_acpi_table_headerless_lenght (m : mem) (table : Z) : Z :=
  wrap64 (table_lenght m table - sizeof_ACPI_description_header).

Section ops.
Context {V : Type} {MP : MappingProvider V}.
#[local] Abbreviation state := (acpi_state V).

Definition acpi_vm_lens : lens state V :=
  Lens acpi_vm (fun v s => AcpiState v (acpi_mem s) (cached_rsdp s) (cached_xsdp s) (cached_madt s)).
Definition set_cached (rsdp xsdp : Z) (s : state) : state :=
  AcpiState (acpi_vm s) (acpi_mem s) rsdp xsdp (cached_madt s).
Definition set_cached_madt (madt : Z) (s : state) : state :=
  AcpiState (acpi_vm s) (acpi_mem s) (cached_rsdp s) (cached_xsdp s) madt.

(** Reading through a pointer: the page at address zero is not present. *)
Definition deref {A} (p : Z) (f : mem -> Z -> A) : M state A :=
  if p <? PAGE_SIZE then fault else gets (fun s => f (acpi_mem s) p).

(** Entry [i] of the root table: four bytes in the first version, eight later. *)
Definition table_entry (m : mem) (entries width i : Z) : Z :=
  load_le (Z.to_nat width) m (wrap64 (entries + i * width)).

Fixpoint find_table (n : nat) (entries width i signature : Z) : M state Z :=
  match n with
  | O => ret NULL
  | S n' =>
      header <- gets (fun s => table_entry (acpi_mem s) entries width i);;
      sig <- deref header table_signature;;
      if sig =? signature then ret header else find_table n' entries width (i + 1) signature
  end.

Definition get_table_header (signature : Z) : M state Z :=
  rsdp <- gets cached_rsdp;;
  xsdp <- gets cached_xsdp;;
  KASSERT (negb (rsdp =? NULL) || negb (xsdp =? NULL));;
  let width := if negb (xsdp =? NULL) then 8 else 4 in
  root <- (if negb (xsdp =? NULL) then deref xsdp get_xsdt else deref rsdp get_rsdt);;
  bytes <- deref root get_acpi_table_headerless_lenght;;
  find_table (Z.to_nat (bytes / width)) (wrap64 (root + sizeof_ACPI_description_header)) width 0 signature.

(** One of the two search loops of [acpi_RSDP]: [n] addresses, 16 bytes apart. *)
Fixpoint search_rsdp (n : nat) (addr rsdp : Z) : M state Z :=
  match n with
  | O => ret rsdp
  | S n' =>
      if negb (rsdp =? NULL) then ret rsdp else
      v <- deref addr load64;;
      search_rsdp n' (addr + 16) (if v =? RSDP_signature then addr else rsdp)
  end.

Definition PAGE_PRESENT_flag : Z := 1.
Definition BIOS_RO_start : Z := 0x0E0000.
Definition BIOS_RO_size : Z := 0x0FFFFF + 1 - BIOS_RO_start.

Definition acpi_RSDP : M state Z :=
  first_page <- zoom acpi_vm_lens (mp_memory_map 0 PAGE_SIZE PAGE_PRESENT_flag);;
  EBDA_segment <- gets (fun s =>
    load16 (acpi_mem s) (mp_translate (acpi_vm s) (wrap64 (mp_vmem_addr first_page (acpi_vm s) + 0x40E))));;
  zoom acpi_vm_lens (mp_deallocate first_page);;
  let EBDA_addr := Z.land (EBDA_segment * 0x10) 0x000FFFFF in
  let EBDA_addr := if negb (EBDA_addr mod 16 =? 0) then EBDA_addr + (16 - EBDA_addr mod 16) else EBDA_addr in
  rsdp <- search_rsdp (Z.to_nat (1 * KB / 16)) EBDA_addr NULL;;
  search_rsdp (Z.to_nat (BIOS_RO_size / 16)) BIOS_RO_start rsdp.

Definition acpi_init : M state bool :=
  rsdp <- acpi_RSDP;;
  modify (fun s => set_cached rsdp (cached_xsdp s) s);;
  revision <- deref rsdp rsdp_revision;;
  let is_acpi2 := revision =? ACPI_REVISION2 in
  when is_acpi2 (modify (fun s => set_cached rsdp rsdp s));;
  ok <- gets (fun s => if is_acpi2 then check_xsdp (acpi_mem s) (cached_xsdp s) else check_rsdp (acpi_mem s) rsdp);;
  if negb ok then modify (set_cached NULL NULL);; ret false else ret true.

End ops.

(** ** Checksums *)

(** The sum of the [n] bytes at [p]. *)
Definition byte_sum (n : nat) (m : mem) (p : Z) : Z :=
  foldr (fun i r => load8 m (p + Z.of_nat i) + r) 0 (seq 0 n).

Lemma byte_sum_S n m p : byte_sum (S n) m p = load8 m p + byte_sum n m (p + 1).
Proof.
  unfold byte_sum. cbn [seq foldr]. rewrite Z.add_0_r. f_equal. rewrite <-fmap_S_seq, foldr_fmap.
  generalize (seq 0 n). intros l. induction l as [|i l IH]; [done|]. cbn [foldr]. rewrite IH. f_equal. f_equal. lia.
Qed.

Lemma checksum_loop_spec n m p c : checksum_loop n m p (wrap8 c) = wrap8 (c + byte_sum n m p).
Proof.
  revert p c. induction n as [|n IH]; intros p c; [cbn; by rewrite Z.add_0_r|].
  cbn [checksum_loop].
  assert (wrap8 (wrap8 c + load8 m p) = wrap8 (c + load8 m p)) as -> by (unfold wrap; by rewrite Zplus_mod_idemp_l).
  rewrite IH, byte_sum_S. f_equal. lia.
Qed.

Lemma check_ACPI_table_spec m header :
  check_ACPI_table m header = true <-> byte_sum (Z.to_nat (table_lenght m header)) m header mod 256 = 0.
Proof.
  unfold check_ACPI_table. change 0 with (wrap8 0) at 1. rewrite checksum_loop_spec, Z.eqb_eq, Z.add_0_l. done.
Qed.

Lemma check_rsdp_spec m rsdp :
  check_rsdp m rsdp = true <-> load64 m rsdp = RSDP_signature /\ byte_sum 20 m rsdp mod 256 = 0.
Proof.
  unfold check_rsdp. destruct (Z.eqb_spec (load64 m rsdp) RSDP_signature) as [E|E]; cbn [negb]; [|naive_solver].
  change 0 with (wrap8 0) at 1. rewrite checksum_loop_spec, Z.eqb_eq, Z.add_0_l.
  split; [intros H; split; [done|exact H]|intros [_ H]; exact H].
Qed.

(** ** The search for the root pointer *)

(** The first address of a list that satisfies a test, or NULL. *)
Definition first_such (P : Z -> bool) (l : list Z) : Z := match List.find P l with Some a => a | None => NULL end.
Definition every_16 (start n : Z) : list Z := (fun i => start + 16 * Z.of_nat i) <$> seq 0 (Z.to_nat n).
Definition is_rsdp (m : mem) (a : Z) : bool := load64 m a =? RSDP_signature.

(** The extended BIOS data area starts at the segment stored at 0x40E. *)
Definition EBDA_start (m : mem) : Z := Z.land (load16 m 0x40E * 0x10) 0xFFFFF.
Definition rsdp_candidates (m : mem) : list Z := every_16 (EBDA_start m) 64 ++ every_16 BIOS_RO_start 8192.

Section search.
Context {V : Type} {MP : MappingProvider V} {ML : MappingLaws V}.
Implicit Types s : acpi_state V.

Lemma deref_run {A} p (f : mem -> Z -> A) s : PAGE_SIZE <= p -> deref p f s = Ok (f (acpi_mem s) p, s).
Proof. intros H. unfold deref. by rewrite (proj2 (Z.ltb_ge _ _)) by lia. Qed.

Lemma search_found n a r s : r <> NULL -> search_rsdp n a r s = Ok (r, s).
Proof. intros H. destruct n; [done|]. cbn. by rewrite (proj2 (Z.eqb_neq _ _)) by done. Qed.

Lemma search_run n a s :
  PAGE_SIZE <= a -> search_rsdp n a NULL s = Ok (first_such (is_rsdp (acpi_mem s)) (every_16 a (Z.of_nat n)), s).
Proof.
  unfold every_16. rewrite Nat2Z.id. revert a. induction n as [|n IH]; intros a Ha; [done|].
  cbn [search_rsdp]. rewrite Z.eqb_refl. cbn [negb]. rewrite (bind_ok _ _ _ _ _ (deref_run a load64 s Ha)).
  unfold first_such. cbn [seq fmap list_fmap List.find]. rewrite Z.mul_0_r, Z.add_0_r.
  fold (is_rsdp (acpi_mem s) a). destruct (is_rsdp (acpi_mem s) a).
  { apply search_found. unfold NULL, PAGE_SIZE in *. lia. }
  rewrite IH by lia. do 2 f_equal. unfold first_such.
  match goal with |- match List.find _ ?a with _ => _ end = match List.find _ ?b with _ => _ end => assert (a = b) as ->; [|done] end.
  rewrite <-fmap_S_seq, <-list_fmap_compose.
  apply list_fmap_ext. intros i x _. cbn. lia.
Qed.

Lemma find_app_first (P : Z -> bool) l1 l2 :
  first_such P (l1 ++ l2) = match List.find P l1 with Some x => x | None => first_such P l2 end.
Proof. unfold first_such. induction l1 as [|x l1 IH]; [done|]. cbn. by destruct (P x). Qed.

Lemma EBDA_aligned m : EBDA_start m mod 16 = 0.
Proof.
  unfold EBDA_start. change 0xFFFFF with (Z.ones 20). rewrite Z.land_ones by lia.
  generalize (load16 m 0x40E). intros k. change (2 ^ 20) with 1048576. lia.
Qed.

Lemma acpi_RSDP_run s :
  mp_ok (acpi_vm s) -> PAGE_SIZE <= EBDA_start (acpi_mem s) ->
  exists v, acpi_RSDP s = Ok (first_such (is_rsdp (acpi_mem s)) (rsdp_candidates (acpi_mem s)), put acpi_vm_lens v s)
    /\ mp_ok v.
Proof.
  intros HV HE.
  destruct (mp_map_ok (acpi_vm s) 0 PAGE_SIZE PAGE_PRESENT_flag HV) as (h & v1 & R1 & O1 & _ & A0 & A1 & T & v2 & R2 & O2);
    [done|done|done|done|].
  exists v2. split; [|done]. unfold acpi_RSDP.
  rewrite (bind_ok _ _ s h (put acpi_vm_lens v1 s)) by (unfold zoom; cbn [view acpi_vm_lens]; by rewrite R1).
  unfold bind at 1, gets. cbn [acpi_mem acpi_vm put acpi_vm_lens].
  rewrite (wrap64_small (mp_vmem_addr h v1 + 0x40E)) by (unfold PAGE_SIZE in *; lia).
  rewrite T by done. rewrite Z.add_0_l. fold (EBDA_start (acpi_mem s)).
  rewrite (bind_ok _ _ _ tt (put acpi_vm_lens v2 s)) by (unfold zoom; cbn; by rewrite R2).
  cbv zeta. rewrite EBDA_aligned. cbn [Z.eqb negb].
  set (s2 := put acpi_vm_lens v2 s). change (Z.to_nat (1 * KB / 16)) with 64%nat.
  rewrite (bind_ok _ _ _ _ _ (search_run 64 _ s2 HE)). change (acpi_mem s2) with (acpi_mem s).
  change (Z.to_nat (BIOS_RO_size / 16)) with (Z.to_nat 8192).
  unfold rsdp_candidates. rewrite find_app_first. unfold first_such at 1. change (Z.of_nat 64) with 64.
  destruct (List.find (is_rsdp (acpi_mem s)) (every_16 (EBDA_start (acpi_mem s)) 64)) as [x|] eqn:F.
  - apply search_found. apply List.find_some in F as [F _]. apply list_elem_of_In in F.
    apply list_elem_of_fmap in F as (i & -> & _). unfold NULL, PAGE_SIZE in *. lia.
  - rewrite search_run by done. rewrite Z2Nat.id by lia. done.
Qed.

Lemma first_such_sat P l : first_such P l <> NULL -> first_such P l ∈ l /\ P (first_such P l) = true.
Proof.
  unfold first_such. destruct (List.find P l) eqn:F; [|done]. apply List.find_some in F as [F1 F2].
  intros _. split; [by apply list_elem_of_In|done].
Qed.

Lemma rsdp_candidate_mapped m a : PAGE_SIZE <= EBDA_start m -> a ∈ rsdp_candidates m -> PAGE_SIZE <= a.
Proof.
  intros HE. unfold rsdp_candidates. rewrite elem_of_app. unfold every_16.
  intros [H|H]; apply list_elem_of_fmap in H as (i & -> & _); unfold BIOS_RO_start, PAGE_SIZE in *; lia.
Qed.

Lemma acpi_init_run s :
  let m := acpi_mem s in
  let r := first_such (is_rsdp m) (rsdp_candidates m) in
  let xsdp := if rsdp_revision m r =? 2 then r else cached_xsdp s in
  mp_ok (acpi_vm s) -> PAGE_SIZE <= EBDA_start m ->
  exists v, mp_ok v /\ (r = NULL -> acpi_init s = Fault) /\
    (r <> NULL -> acpi_init s =
       Ok (if check_rsdp m r then (true, set_cached r xsdp (put acpi_vm_lens v s))
           else (false, set_cached NULL NULL (put acpi_vm_lens v s)))).
Proof.
  cbv zeta. intros HV HE. destruct (acpi_RSDP_run s HV HE) as (v & R & O). exists v. split; [done|].
  unfold acpi_init. set (r := first_such _ _) in *. rewrite (bind_ok _ _ _ _ _ R). split.
  { intros ->. done. }
  intros Hr. apply first_such_sat in Hr as [Hin _]. fold r in Hin. clearbody r.
  pose proof (rsdp_candidate_mapped _ _ HE Hin) as Hp.
  unfold bind at 1, modify at 1. rewrite (bind_ok _ _ _ _ _ (deref_run _ _ _ Hp)).
  cbn [acpi_mem set_cached put acpi_vm_lens]. unfold ACPI_REVISION2, check_xsdp.
  destruct (rsdp_revision (acpi_mem s) r =? 2).
  all: unfold bind, when, modify, gets, ret; cbn [acpi_mem set_cached put acpi_vm_lens cached_xsdp cached_rsdp].
  all: by destruct (check_rsdp (acpi_mem s) r).
Qed.

(** The root pointer found first decides: its checksum is right and it is
    cached, as an extended one when its revision says so, or it is wrong and
    nothing is cached.  With no root pointer the revision is read through NULL. *)
(** C20: acpi_init finds the first root pointer on a 16-byte boundary of the
    extended BIOS area or of the BIOS range, caches it (and as the extended pointer for
    revision 2) when the bytes of the first 20 sum to 0, and otherwise clears the cache
    and returns false; when there is no root pointer the code dereferences NULL. *)
Theorem acpi_init_correct s :
  let m := acpi_mem s in
  let r := first_such (is_rsdp m) (rsdp_candidates m) in
  let xsdp := if rsdp_revision m r =? 2 then r else cached_xsdp s in
  mp_ok (acpi_vm s) -> PAGE_SIZE <= EBDA_start m ->
  (r = NULL -> acpi_init s = Fault) /\
  (r <> NULL -> exists v, mp_ok v /\
     (byte_sum 20 m r mod 256 = 0 -> acpi_init s = Ok (true, set_cached r xsdp (put acpi_vm_lens v s))) /\
     (byte_sum 20 m r mod 256 <> 0 -> acpi_init s = Ok (false, set_cached NULL NULL (put acpi_vm_lens v s)))).
Proof.
  cbv zeta. intros HV HE. destruct (acpi_init_run s HV HE) as (v & O & HN & HS). split; [done|].
  intros Hr. exists v. split; [done|]. rewrite (HS Hr). destruct (first_such_sat _ _ Hr) as [_ Hsig].
  apply Z.eqb_eq in Hsig. pose proof (check_rsdp_spec (acpi_mem s) (first_such (is_rsdp (acpi_mem s)) (rsdp_candidates (acpi_mem s)))) as S.
  destruct (check_rsdp _ _); split; intros H; try done.
  - by destruct (H (proj2 (proj1 S eq_refl))).
  - discriminate (proj2 S (conj Hsig H)).
Qed.

(** ** Table lookup *)

(** The root table and the tables it lists. *)
Definition root_table s : Z :=
  if negb (cached_xsdp s =? NULL) then get_xsdt (acpi_mem s) (cached_xsdp s) else get_rsdt (acpi_mem s) (cached_rsdp s).
Definition entry_width s : Z := if negb (cached_xsdp s =? NULL) then 8 else 4.
Definition acpi_tables s : list Z :=
  (fun i => table_entry (acpi_mem s) (wrap64 (root_table s + 36)) (entry_width s) (Z.of_nat i)) <$>
    seq 0 (Z.to_nat (get_acpi_table_headerless_lenght (acpi_mem s) (root_table s) / entry_width s)).

Lemma find_table_run n e w i sig s :
  let l := (fun j => table_entry (acpi_mem s) e w (Z.of_nat j)) <$> seq i n in
  (forall a, a ∈ l -> PAGE_SIZE <= a) ->
  find_table n e w (Z.of_nat i) sig s = Ok (first_such (fun a => table_signature (acpi_mem s) a =? sig) l, s).
Proof.
  revert i. induction n as [|n IH]; intros i; cbn zeta; [done|]. cbn [seq fmap list_fmap find_table]. intros Hl.
  unfold bind at 1, gets. rewrite (bind_ok _ _ _ _ _ (deref_run _ _ s (Hl _ (list_elem_of_here _ _)))).
  unfold first_such. cbn [List.find]. destruct (table_signature _ _ =? sig); [done|].
  replace (Z.of_nat i + 1) with (Z.of_nat (S i)) by lia. apply IH. intros a Ha. apply Hl. by right.
Qed.

(** The caches point to mapped memory. *)
Definition acpi_cached_ok s : Prop :=
  (cached_xsdp s <> NULL -> PAGE_SIZE <= cached_xsdp s) /\
  (cached_xsdp s = NULL -> PAGE_SIZE <= cached_rsdp s) /\
  PAGE_SIZE <= root_table s /\ (forall a, a ∈ acpi_tables s -> PAGE_SIZE <= a).

Lemma get_table_header_spec sig s :
  acpi_cached_ok s ->
  get_table_header sig s = Ok (first_such (fun a => table_signature (acpi_mem s) a =? sig) (acpi_tables s), s).
Proof.
  intros (H1 & H2 & H3 & H4). unfold get_table_header. unfold bind at 1 2, gets.
  pose proof (find_table_run (Z.to_nat (get_acpi_table_headerless_lenght (acpi_mem s) (root_table s) / entry_width s))
    (wrap64 (root_table s + 36)) (entry_width s) 0 sig s H4) as F.
  unfold acpi_tables, root_table, entry_width in *. destruct (Z.eqb_spec (cached_xsdp s) NULL) as [E|E]; cbn [negb] in *.
  - rewrite (proj2 (Z.eqb_neq (cached_rsdp s) NULL)) by (specialize (H2 E); unfold NULL, PAGE_SIZE in *; lia).
    cbn [negb orb]. unfold bind at 1. cbn [KASSERT ret].
    rewrite (bind_ok _ _ _ _ _ (deref_run _ _ s (H2 E))), (bind_ok _ _ _ _ _ (deref_run _ _ s H3)). exact F.
  - rewrite orb_true_r. unfold bind at 1. cbn [KASSERT ret].
    rewrite (bind_ok _ _ _ _ _ (deref_run _ _ s (H1 E))), (bind_ok _ _ _ _ _ (deref_run _ _ s H3)). exact F.
Qed.

(** The lookup returns the first listed table with the signature, or NULL;
    before [acpi_init] has cached a root pointer it is a panic. *)
Theorem get_table_header_correct sig s :
  (acpi_cached_ok s ->
     get_table_header sig s = Ok (first_such (fun a => table_signature (acpi_mem s) a =? sig) (acpi_tables s), s)) /\
  (cached_rsdp s = NULL /\ cached_xsdp s = NULL -> get_table_header sig s = Panic FAILED_ASSERT).
Proof.
  split; [apply get_table_header_spec|]. intros [E1 E2]. unfold get_table_header, bind, gets. by rewrite E1, E2.
Qed.
End search.
