(* ===== verification/Madt.v ===== *)
(** * The multiple APIC description table (acpi/madt.c, acpi/madt.h)

    The table is a header followed by interrupt controller structures of
    variable length; every client walks them with the same [for] loop, here
    [ics_loop].  The bytes of the table do not change while they are read, so
    the operations take the memory as an argument and run in any state. *)

From S2P Require Import Prelude Memory Interfaces Bus Acpi.

Definition MADT_FLAG_PCAT_COMPATIBLE : Z := 1.
Definition ICS_TYPE_PROCESSOR_LOCAL_APIC : Z := 0.
Definition ICS_TYPE_PROCESSOR_IO_APIC : Z := 1.
Definition ICS_TYPE_INTERRUPT_SOURCE_OVERRIDE : Z := 2.
Definition ICS_TYPE_NMI_SOURCE : Z := 3.
Definition ICS_TYPE_LOCAL_APIC_NMI : Z := 4.
Definition ICS_TYPE_LOCAL_APIC_ADDRESS_OVERRIDE : Z := 5.
Definition LOCAL_APIC_FLAG_ENABLED : Z := 1.
Definition LOCAL_APIC_FLAG_ONLINE_CAPABLE : Z := Z.shiftl 1 1.
Definition sizeof_MADT : Z := 44.

(** Fields of the packed structures, by offset. *)
Definition madt_local_interrupt_controller_address (m : mem) (madt : Z) : Z := load32 m (madt + 36).
Definition madt_flags (m : mem) (madt : Z) : Z := load32 m (madt + 40).
Definition ics_type (m : mem) (p : Z) : Z := load8 m p.
Definition ics_lenght (m : mem) (p : Z) : Z := load8 m (p + 1).

Record ICS_local_APIC : Type := MkICSLocalAPIC { lapic_processor_UID : Z; lapic_APIC_ID : Z; lapic_flags : Z }.
Definition read_ICS_local_APIC (m : mem) (p : Z) : ICS_local_APIC :=
  MkICSLocalAPIC (load8 m (p + 2)) (load8 m (p + 3)) (load32 m (p + 4)).

Record ICS_IO_APIC : Type := MkICSIOAPIC { ics_IO_APIC_ID : Z; ics_IO_APIC_address : Z; ics_gsi_base : Z }.
Definition read_ICS_IO_APIC (m : mem) (p : Z) : ICS_IO_APIC :=
  MkICSIOAPIC (load8 m (p + 2)) (load32 m (p + 4)) (load32 m (p + 8)).

Record ICS_interrupt_source_override : Type := MkICSOverride {
  override_bus : Z; override_source : Z; override_gsi : Z; override_flags : Z
}.
Definition read_ICS_interrupt_source_override (m : mem) (p : Z) : ICS_interrupt_source_override :=
  MkICSOverride (load8 m (p + 2)) (load8 m (p + 3)) (load32 m (p + 4)) (load16 m (p + 8)).

Record ICS_local_APIC_NMI : Type := MkICSNMI { nmi_processor_UID : Z; nmi_flags : Z; nmi_LINT : Z }.
Definition read_ICS_local_APIC_NMI (m : mem) (p : Z) : ICS_local_APIC_NMI :=
  MkICSNMI (load8 m (p + 2)) (load16 m (p + 3)) (load8 m (p + 5)).

Definition read_local_APIC_address_override (m : mem) (p : Z) : Z := load64 m (p + 4).

Section ops.
Context {St : Type}.

Definition get_first_ICS_header (m : mem) (madt : Z) : M St Z :=
  KASSERT (negb (madt =? NULL));;
  let header := wrap64 (madt + sizeof_MADT) in
  let distance := wrap64 (header - madt) in
  ret (if table_lenght m madt <=? distance then NULL else header).

Definition get_next_ICS_header (m : mem) (madt header : Z) : M St Z :=
  KASSERT (negb (madt =? NULL));;
  let next := wrap64 (header + ics_lenght m header) in
  let distance := wrap64 (next - madt) in
  ret (if table_lenght m madt <=? distance then NULL else next).

(** [for(header = first; header != NULL; header = next(header)) body]; the body
    returns the new accumulator and whether it broke out of the loop. *)
Fixpoint ics_loop {A} (fuel : nat) (m : mem) (madt header : Z) (body : Z -> A -> M St (A * bool)) (acc : A) : M St A :=
  if header =? NULL then ret acc else
  match fuel with
  | O => out_of_fuel
  | S fuel' =>
      r <- body header acc;;
      if (r.2 : bool) then ret r.1 else
      next <- get_next_ICS_header m madt header;;
      ics_loop fuel' m madt next body r.1
  end.

(** One turn per byte of the table is enough when no structure is empty. *)
Definition for_each_ICS {A} (m : mem) (madt : Z) (body : Z -> A -> M St (A * bool)) (acc : A) : M St A :=
  first <- get_first_ICS_header m madt;;
  ics_loop (Z.to_nat (table_lenght m madt)) m madt first body acc.

(** A body that only updates the accumulator. *)
Definition pure_body {A} (f : Z -> A -> A) (header : Z) (acc : A) : M St (A * bool) := ret (f header acc, false).

Definition lapic_usable (m : mem) (p : Z) : bool :=
  negb (Z.land (lapic_flags (read_ICS_local_APIC m p)) (Z.lor LOCAL_APIC_FLAG_ENABLED LOCAL_APIC_FLAG_ONLINE_CAPABLE) =? 0).

Definition count_number_of_local_apic (m : mem) (madt : Z) : M St Z :=
  KASSERT (negb (madt =? NULL));;
  for_each_ICS m madt (pure_body (fun header count =>
    if ics_type m header =? ICS_TYPE_PROCESSOR_LOCAL_APIC
    then if negb (lapic_usable m header) then count else wrap64 (count + 1)
    else count)) 0.

Definition count_ICS_header_instances (m : mem) (madt ICS_header_type : Z) : M St Z :=
  KASSERT (negb (madt =? NULL));;
  for_each_ICS m madt (pure_body (fun header count =>
    if ics_type m header =? ICS_header_type then wrap64 (count + 1) else count)) 0.

Definition madt_has_pic (m : mem) (madt : Z) : M St bool :=
  KASSERT (negb (madt =? NULL));;
  ret (negb (Z.land (madt_flags m madt) MADT_FLAG_PCAT_COMPATIBLE =? 0)).
End ops.

Section cached.
Context {V : Type} {MP : MappingProvider V}.

Definition get_MADT : M (acpi_state V) Z :=
  cached <- gets cached_madt;;
  if negb (cached =? NULL) then ret cached else
  MADT_header <- get_table_header APIC_signature;;
  if MADT_header =? NULL then ret NULL else
  m <- gets acpi_mem;;
  if negb (check_ACPI_table m MADT_header) then ret NULL else
  modify (set_cached_madt MADT_header);;
  ret MADT_header.
End cached.

(** ** The structures of a table

    [ics_chain m end p L]: the structures from [p] up to the end of the table
    are at the addresses [L], and none is empty. *)
Fixpoint ics_chain (m : mem) (stop p : Z) (L : list Z) : Prop :=
  match L with
  | [] => stop <= p
  | q :: L' => q = p /\ p < stop /\ 0 < ics_lenght m p /\ ics_chain m stop (p + ics_lenght m p) L'
  end.

(** A table in memory: neither it nor the structure that crosses its end wraps
    around the address space. *)
Definition madt_table (m : mem) (madt : Z) (L : list Z) : Prop :=
  0 < madt /\ madt + table_lenght m madt + 300 < 2 ^ 64 /\
  ics_chain m (madt + table_lenght m madt) (madt + sizeof_MADT) L.

(** The addresses [ics_chain] speaks of, computed. *)
Fixpoint ics_addresses (fuel : nat) (m : mem) (stop p : Z) : list Z :=
  match fuel with
  | O => []
  | S fuel' => if p <? stop then p :: ics_addresses fuel' m stop (p + ics_lenght m p) else []
  end.

Lemma ics_lenght_range m p : 0 <= ics_lenght m p < 256.
Proof. apply load8_range. Qed.

Lemma ics_chain_length m stop p L : ics_chain m stop p L -> Z.of_nat (length L) <= Z.max 0 (stop - p).
Proof.
  revert p. induction L as [|q L IH]; intros p; cbn [ics_chain length]; [lia|].
  intros (_ & H1 & H2 & H3). specialize (IH _ H3). lia.
Qed.

Lemma ics_chain_elem m stop p L q : ics_chain m stop p L -> q ∈ L -> p <= q < stop.
Proof.
  revert p. induction L as [|x L IH]; intros p; cbn [ics_chain]; [by intros _ ?%elem_of_nil|].
  intros (-> & H1 & H2 & H3) [->|Hq]%elem_of_cons; [lia|]. specialize (IH _ H3 Hq). lia.
Qed.

Section walk.
Context {St : Type}.

(** The loop over a list of structures. *)
Fixpoint fold_break {A} (body : Z -> A -> M St (A * bool)) (L : list Z) (acc : A) : M St A :=
  match L with
  | [] => ret acc
  | p :: L' => r <- body p acc;; if (r.2 : bool) then ret r.1 else fold_break body L' r.1
  end.

Lemma next_header_run m madt p L (s : St) :
  0 < madt <= p -> madt + table_lenght m madt + 300 < 2 ^ 64 -> p < madt + table_lenght m madt ->
  ics_chain m (madt + table_lenght m madt) (p + ics_lenght m p) L ->
  get_next_ICS_header m madt p s = Ok (match L with [] => NULL | q :: _ => q end, s).
Proof.
  intros Hm Hw Hp HL. unfold get_next_ICS_header. pose proof (ics_lenght_range m p).
  rewrite (proj2 (Z.eqb_neq madt NULL)) by (unfold NULL; lia). cbn [negb KASSERT]. unfold bind, ret. cbv zeta.
  rewrite (wrap64_small (p + ics_lenght m p)), (wrap64_small (p + ics_lenght m p - madt)) by lia.
  destruct L as [|q L]; cbn [ics_chain] in HL.
  - by rewrite (proj2 (Z.leb_le _ _)) by lia.
  - destruct HL as (-> & H1 & _). by rewrite (proj2 (Z.leb_gt _ _)) by lia.
Qed.

Lemma first_header_run m madt L (s : St) :
  madt_table m madt L -> get_first_ICS_header m madt s = Ok (match L with [] => NULL | q :: _ => q end, s).
Proof.
  intros (H0 & H1 & HL). unfold get_first_ICS_header, sizeof_MADT in *.
  pose proof (load_le_range 4 m (madt + 4)) as Hr. fold load32 in Hr. fold (table_lenght m madt) in Hr.
  rewrite (proj2 (Z.eqb_neq madt NULL)) by (unfold NULL; lia). cbn [negb KASSERT]. unfold bind, ret. cbv zeta.
  rewrite (wrap64_small (madt + 44)), (wrap64_small (madt + 44 - madt)) by lia.
  destruct L as [|q L]; cbn [ics_chain] in HL.
  - by rewrite (proj2 (Z.leb_le _ _)) by lia.
  - destruct HL as (-> & H2 & _). by rewrite (proj2 (Z.leb_gt _ _)) by lia.
Qed.

Lemma ics_loop_spec {A} fuel m madt p L (body : Z -> A -> M St (A * bool)) acc s :
  0 < madt <= p -> madt + table_lenght m madt + 300 < 2 ^ 64 ->
  ics_chain m (madt + table_lenght m madt) p L -> (length L <= fuel)%nat ->
  ics_loop fuel m madt (match L with [] => NULL | q :: _ => q end) body acc s = fold_break body L acc s.
Proof.
  intros Hp Hw. revert p fuel acc s Hp. induction L as [|q L IH]; intros p fuel acc s Hp HL Hf; [by destruct fuel|].
  destruct fuel as [|fuel]; [cbn in Hf; lia|]. cbn [ics_chain] in HL. destruct HL as (-> & H1 & H2 & H3).
  cbn [ics_loop fold_break]. rewrite (proj2 (Z.eqb_neq p NULL)) by (unfold NULL; lia).
  unfold bind at 1. unfold bind at 2. destruct (body p acc s) as [[[acc' stop] s']| | | |]; try done.
  cbn [fst snd]. destruct stop; [done|].
  rewrite (bind_ok _ _ _ _ _ (next_header_run m madt p L s' Hp Hw H1 H3)).
  apply (IH (p + ics_lenght m p)); [lia|done|cbn in Hf; lia].
Qed.

Lemma for_each_ICS_spec {A} m madt L (body : Z -> A -> M St (A * bool)) acc s :
  madt_table m madt L -> for_each_ICS m madt body acc s = fold_break body L acc s.
Proof.
  intros HT. unfold for_each_ICS. rewrite (bind_ok _ _ _ _ _ (first_header_run _ _ _ s HT)).
  destruct HT as (H0 & H1 & HL). apply (ics_loop_spec _ _ _ (madt + sizeof_MADT)); unfold sizeof_MADT in *; [lia|done|done|].
  pose proof (ics_chain_length _ _ _ _ HL). lia.
Qed.

Lemma fold_pure {A} (f : Z -> A -> A) L acc (s : St) :
  fold_break (pure_body f) L acc s = Ok (fold_left (fun a p => f p a) L acc, s).
Proof.
  revert acc. induction L as [|p L IH]; intros acc; [done|]. cbn [fold_break fold_left]. unfold bind, pure_body, ret at 1.
  cbn. apply IH.
Qed.

Lemma fold_count (P : Z -> bool) L c :
  0 <= c -> c + Z.of_nat (length L) < 2 ^ 64 ->
  fold_left (fun n p => if P p then wrap64 (n + 1) else n) L c = c + Z.of_nat (length (List.filter P L)).
Proof.
  revert c. induction L as [|p L IH]; intros c Hc Hl; cbn [fold_left List.filter length] in *; [lia|].
  destruct (P p); [rewrite (wrap64_small (c + 1)), IH by lia; cbn [length]; lia|rewrite IH by lia; done].
Qed.
End walk.

Section results.
Context {St : Type}.

Definition is_lapic (m : mem) (p : Z) : bool := ics_type m p =? ICS_TYPE_PROCESSOR_LOCAL_APIC.

Lemma madt_not_null m madt L : madt_table m madt L -> (madt =? NULL) = false.
Proof. intros [H _]. apply Z.eqb_neq. unfold NULL. lia. Qed.

Lemma madt_table_length m madt L : madt_table m madt L -> Z.of_nat (length L) < 2 ^ 64.
Proof.
  intros (H0 & H1 & HL). apply ics_chain_length in HL. unfold sizeof_MADT in *.
  pose proof (load_le_range 4 m (madt + 4)) as Hr. fold load32 in Hr. fold (table_lenght m madt) in Hr. lia.
Qed.

Lemma count_local_apic_spec m madt L (s : St) :
  madt_table m madt L ->
  count_number_of_local_apic m madt s =
    Ok (Z.of_nat (length (List.filter (fun p => is_lapic m p && lapic_usable m p) L)), s).
Proof.
  intros HT. unfold count_number_of_local_apic. rewrite (madt_not_null _ _ _ HT). cbn [negb KASSERT].
  rewrite (bind_ok _ _ s tt s) by done. rewrite (for_each_ICS_spec _ _ _ _ _ _ HT), fold_pure.
  rewrite <-(Z.add_0_l (Z.of_nat _)), <-fold_count; [|lia|pose proof (madt_table_length _ _ _ HT); lia].
  do 2 f_equal. clear. generalize 0. induction L as [|p L IH]; intros c; [done|]. cbn [fold_left]. rewrite <-IH. f_equal.
  unfold is_lapic. destruct (_ =? _); [by destruct (lapic_usable m p)|done].
Qed.

Lemma count_instances_spec m madt L ty (s : St) :
  madt_table m madt L ->
  count_ICS_header_instances m madt ty s = Ok (Z.of_nat (length (List.filter (fun p => ics_type m p =? ty) L)), s).
Proof.
  intros HT. unfold count_ICS_header_instances. rewrite (madt_not_null _ _ _ HT). cbn [negb KASSERT].
  rewrite (bind_ok _ _ s tt s) by done. rewrite (for_each_ICS_spec _ _ _ _ _ _ HT), fold_pure.
  do 2 f_equal. apply (fold_count (fun p => ics_type m p =? ty)); [lia|]. pose proof (madt_table_length _ _ _ HT). lia.
Qed.

(** Both counting loops end and count the structures of the table. *)
Theorem madt_counts_correct m madt L ty (s : St) :
  madt_table m madt L ->
  count_number_of_local_apic m madt s =
    Ok (Z.of_nat (length (List.filter (fun p => is_lapic m p && lapic_usable m p) L)), s) /\
  count_ICS_header_instances m madt ty s = Ok (Z.of_nat (length (List.filter (fun p => ics_type m p =? ty) L)), s).
Proof. split; [by apply count_local_apic_spec|by apply count_instances_spec]. Qed.

(** A structure of length zero inside the table is its own successor: the loops
    never end, whatever the number of turns. *)
Theorem madt_empty_structure_loops {A} fuel m madt p (f : Z -> A -> A) acc (s : St) :
  0 < madt <= p -> p < madt + table_lenght m madt -> madt + table_lenght m madt < 2 ^ 64 -> ics_lenght m p = 0 ->
  ics_loop fuel m madt p (pure_body f) acc s = OutOfFuel.
Proof.
  intros Hm Hp Hw Hz. revert acc. induction fuel as [|fuel IH]; intros acc; cbn [ics_loop].
  all: rewrite (proj2 (Z.eqb_neq p NULL)) by (unfold NULL; lia).
  { done. }
  unfold bind at 1, pure_body, ret at 1. cbn [fst snd].
  rewrite (bind_ok _ _ s p s); [apply IH|].
  unfold get_next_ICS_header. rewrite (proj2 (Z.eqb_neq madt NULL)) by (unfold NULL; lia). cbn [negb KASSERT].
  unfold bind, ret. cbv zeta. rewrite Hz, Z.add_0_r, (wrap64_small p), (wrap64_small (p - madt)) by lia.
  by rewrite (proj2 (Z.leb_gt _ _)) by lia.
Qed.
End results.

Section madt.
Context {V : Type} {MP : MappingProvider V}.
Implicit Types s : acpi_state V.

Definition madt_address s : Z := first_such (fun a => table_signature (acpi_mem s) a =? APIC_signature) (acpi_tables s).

(** The first call looks the table up and checks its sum; later calls return
    the cached address. *)
Lemma get_MADT_spec s :
  cached_madt s = NULL -> acpi_cached_ok s ->
  get_MADT s = Ok (if negb (madt_address s =? NULL) && check_ACPI_table (acpi_mem s) (madt_address s)
                   then (madt_address s, set_cached_madt (madt_address s) s) else (NULL, s)).
Proof.
  intros Hc Hs. unfold get_MADT. unfold bind at 1, gets. rewrite Hc. cbn [NULL Z.eqb negb].
  rewrite (bind_ok _ _ _ _ _ (get_table_header_spec APIC_signature s Hs)). fold (madt_address s).
  destruct (madt_address s =? NULL); [done|]. cbn [negb andb]. unfold bind at 1. cbn.
  by destruct (check_ACPI_table (acpi_mem s) (madt_address s)).
Qed.

Lemma get_MADT_cached s : cached_madt s <> NULL -> get_MADT s = Ok (cached_madt s, s).
Proof. intros H. unfold get_MADT, bind, gets. by rewrite (proj2 (Z.eqb_neq _ _)) by done. Qed.
End madt.
