(* ===== verification/Apic.v ===== *)
(** * The local interrupt controllers (interrupt/apic.c, interrupt/apic.h)

    Every processor sees its own controller at the same register page.  The
    state holds the description of the controllers read from the MADT, the
    history of register accesses of the running processor and its interrupt
    flag.  The identification and model registers of the processor are
    parameters; so is the controller itself ([Device]). *)

From S2P Require Import Prelude Memory Sync Interfaces Bus Acpi Madt Shootdown.
Import Sequential.

(** ** Constants of interrupt/apic.h and interrupt/interrupts.h *)

Definition CPUID_FLAG_MSR : Z := Z.shiftl 1 5.
Definition CPUID_APIC_PRESENCE_EDX : Z := Z.shiftl 1 9.
Definition IA32_APIC_BASE_MSR : Z := 0x1B.
Definition APIC_GLOBAL_ENABLE_DISABLE_FLAG : Z := Z.shiftl 1 11.
Definition APIC_REG_OFFSET_LAPIC_ID : Z := 0x20.
Definition APIC_REG_OFFSET_LAPIC_VERSION : Z := 0x30.
Definition APIC_REG_OFFSET_TASK_PRIORITY : Z := 0x80.
Definition APIC_REG_OFFSET_EOI : Z := 0xB0.
Definition APIC_REG_OFFSET_SPURIOUS_INTERRUPT_VECTOR : Z := 0xF0.
Definition APIC_REG_OFFSET_IN_SERVICE_FIRST : Z := 0x100.
Definition APIC_REG_OFFSET_ERROR_STATUS : Z := 0x280.
Definition APIC_REG_OFFSET_INTERRUPT_COMMAND_LOW : Z := 0x300.
Definition APIC_REG_OFFSET_LVT_LINT0 : Z := 0x350.
Definition APIC_REG_OFFSET_LVT_LINT1 : Z := 0x360.
Definition APIC_REG_OFFSET_LVT_ERROR : Z := 0x370.
Definition APIC_REGISTER_SPACE_SIZE : Z := 4096.
Definition SUPPRESS_EOI_BROADCAST_VERSION_FLAG : Z := Z.shiftl 1 23.
Definition APIC_ERROR_VECTOR : Z := 0xf0.
Definition APIC_SPURIOUS_INTERRUPTS_VECTOR : Z := 0xff.
Definition MPS_INTI_POLARITY_MASK : Z := 3.
Definition MPS_INTI_POLARITY_BUS_CONFORM : Z := 0.
Definition MPS_INTI_POLARITY_ACTIVE_LOW : Z := 3.
Definition MPS_INTI_TRIGGER_MODE_MASK : Z := Z.shiftl 3 2.
Definition MPS_INTI_TRIGGER_MODE_BUS_CONFORM : Z := Z.shiftl 0 2.
Definition MPS_INTI_TRIGGER_MODE_LEVEL_TRIGGERED : Z := Z.shiftl 3 2.
Definition PAGE_WRITABLE_CACHE_DISABLE : Z := Z.lor 2 16.

Inductive APICDeliveryMode : Type :=
| APIC_DEL_MODE_FIXED
| APIC_DEL_MODE_LOWEST_PRIORITY
| APIC_DEL_MODE_SMI
| APIC_DEL_MODE_NMI
| APIC_DEL_MODE_INIT
| APIC_DEL_MODE_START_UP
| APIC_DEL_MODE_EXT_INT.

Definition delivery_mode_code (d : APICDeliveryMode) : Z :=
  match d with
  | APIC_DEL_MODE_FIXED => 0
  | APIC_DEL_MODE_LOWEST_PRIORITY => 1
  | APIC_DEL_MODE_SMI => 2
  | APIC_DEL_MODE_NMI => 4
  | APIC_DEL_MODE_INIT => 5
  | APIC_DEL_MODE_START_UP => 6
  | APIC_DEL_MODE_EXT_INT => 7
  end.

Definition shorthand_code (d : APICDestinationShorthand) : Z :=
  match d with
  | APIC_DESTSH_NO_SH => 0
  | APIC_DESTSH_SELF => 1
  | APIC_DESTSH_ALL_INCLUDING_SELF => 2
  | APIC_DESTSH_ALL_EXCLUDING_SELF => 3
  end.

(** ** State *)

Record LocalAPIC : Type := MkLocalAPIC { APIC_ID : Z; ics_lapic : Z; ics_lapic_nmi : Z; enabled : bool }.
Definition sizeof_LocalAPIC : Z := 32.
Definition zero_lapic : LocalAPIC := MkLocalAPIC 0 NULL NULL false.

(** [lapic_array] is the pointer, [lapics] what it points to. *)
Record LAPICSubsystemData : Type := MkLAPICData {
  lapic_array : Z; lapics : list LocalAPIC; lapic_array_size : Z; lapic_base_address : Z;
  register_space_mapping : VMemHandle
}.

Record apic_state (V H : Type) : Type := ApicState {
  ap_acpi : acpi_state V; ap_heap : H; ap_bus : history; ap_if : bool;
  lapic_gdata : LAPICSubsystemData; ap_handlers : list Z
}.
Arguments ApicState {V H}.
Arguments ap_acpi {V H}.
Arguments ap_heap {V H}.
Arguments ap_bus {V H}.
Arguments ap_if {V H}.
Arguments lapic_gdata {V H}.
Arguments ap_handlers {V H}.

(** What [cpuid] and [rdmsr] return on the running processor. *)
Class Processor : Type := { cpuid_1_edx : Z; rdmsr : Z -> Z * Z }.

(** ** Pure encodings *)

Definition make_lvt_entry (vector : Z) (del_mode : APICDeliveryMode)
    (interrupt_pin_polarity remote_irr_flag trigger_mode mask : bool) : Z :=
  let lvt := vector in
  let lvt := Z.lor lvt (Z.shiftl (Z.land (delivery_mode_code del_mode) 7) 8) in
  let lvt := Z.lor lvt (Z.shiftl (Z.b2z interrupt_pin_polarity) 13) in
  let lvt := Z.lor lvt (Z.shiftl (Z.b2z remote_irr_flag) 14) in
  let lvt := Z.lor lvt (Z.shiftl (Z.b2z trigger_mode) 15) in
  Z.lor lvt (Z.shiftl (Z.b2z mask) 16).

(** [destination_id], [trigger_mode] and the other small arguments are [uint8_t]. *)
Definition make_interrupt_command (destination_id : Z) (dest_sh : APICDestinationShorthand)
    (trigger_mode level destination_mode : Z) (del_mode : APICDeliveryMode) (vector : Z) : Z :=
  let ICR := Z.shiftl (wrap8 destination_id) 56 in
  let ICR := Z.lor ICR (Z.shiftl (Z.land (shorthand_code dest_sh) 3) 18) in
  let ICR := Z.lor ICR (Z.shiftl (Z.land trigger_mode 1) 15) in
  let ICR := Z.lor ICR (Z.shiftl (Z.land level 1) 14) in
  let ICR := Z.lor ICR (Z.shiftl (Z.land destination_mode 1) 11) in
  let ICR := Z.lor ICR (Z.shiftl (Z.land (delivery_mode_code del_mode) 7) 8) in
  Z.lor ICR vector.

Section ops.
Context {V H : Type} {MP : MappingProvider V} {HP : HeapProvider H} {DV : Device} {CPU : Processor}.
#[local] Abbreviation state := (apic_state V H).

Definition acpi_lens : lens state (acpi_state V) :=
  Lens ap_acpi (fun a s => ApicState a (ap_heap s) (ap_bus s) (ap_if s) (lapic_gdata s) (ap_handlers s)).
Definition ap_heap_lens : lens state H :=
  Lens ap_heap (fun h s => ApicState (ap_acpi s) h (ap_bus s) (ap_if s) (lapic_gdata s) (ap_handlers s)).
Definition bus_lens : lens state history :=
  Lens ap_bus (fun t s => ApicState (ap_acpi s) (ap_heap s) t (ap_if s) (lapic_gdata s) (ap_handlers s)).
Definition ap_if_lens : lens state bool :=
  Lens ap_if (fun b s => ApicState (ap_acpi s) (ap_heap s) (ap_bus s) b (lapic_gdata s) (ap_handlers s)).
Definition set_gdata (g : LAPICSubsystemData) (s : state) : state :=
  ApicState (ap_acpi s) (ap_heap s) (ap_bus s) (ap_if s) g (ap_handlers s).
Definition add_handler (v : Z) (s : state) : state :=
  ApicState (ap_acpi s) (ap_heap s) (ap_bus s) (ap_if s) (lapic_gdata s) (v :: ap_handlers s).
Definition the_mem (s : state) : mem := acpi_mem (ap_acpi s).

Definition set_lapics (l : list LocalAPIC) (g : LAPICSubsystemData) : LAPICSubsystemData :=
  MkLAPICData (lapic_array g) l (lapic_array_size g) (lapic_base_address g) (register_space_mapping g).

(** Writing to element [i] of the array; outside of it the memory of another
    block would change. *)
Definition write_lapic (i : nat) (f : LocalAPIC -> LocalAPIC) : M state unit := fun s =>
  match lapics (lapic_gdata s) !! i with
  | Some x => Ok (tt, set_gdata (set_lapics (<[i := f x]> (lapics (lapic_gdata s))) (lapic_gdata s)) s)
  | None => Fault
  end.

(** ** Lookups; the result is the index of the element, or none for NULL *)

Fixpoint find_index (P : LocalAPIC -> bool) (l : list LocalAPIC) : option nat :=
  match l with
  | [] => None
  | x :: l' => if P x then Some O else S <$> find_index P l'
  end.

Definition get_lapic_from_id (apic_id : Z) : M state (option nat) :=
  g <- gets lapic_gdata;;
  KASSERT (negb (lapic_array g =? NULL));;
  ret (find_index (fun x => APIC_ID x =? apic_id) (lapics g)).

(** The loop asserts that each description is present before it compares. *)
Fixpoint find_uid (m : mem) (uid : Z) (l : list LocalAPIC) : M state (option nat) :=
  match l with
  | [] => ret None
  | x :: l' =>
      KASSERT (negb (ics_lapic x =? NULL));;
      if lapic_processor_UID (read_ICS_local_APIC m (ics_lapic x)) =? uid then ret (Some O)
      else r <- find_uid m uid l';; ret (S <$> r)
  end.

Definition get_lapic_from_processor_uid (processor_uid : Z) : M state (option nat) :=
  g <- gets lapic_gdata;;
  KASSERT (negb (lapic_array g =? NULL));;
  m <- gets the_mem;;
  find_uid m processor_uid (lapics g).

(** ** Filling the array *)

Definition set_lapic_description (id p : Z) (x : LocalAPIC) : LocalAPIC :=
  MkLocalAPIC id p (ics_lapic_nmi x) (enabled x).
Definition set_lapic_nmi (p : Z) (x : LocalAPIC) : LocalAPIC := MkLocalAPIC (APIC_ID x) (ics_lapic x) p (enabled x).

(** First loop of [fill_apic_array]; the accumulator is [lapic_array_index]. *)
Definition fill_lapic (m : mem) (header : Z) (index : Z) : M state (Z * bool) :=
  if ics_type m header =? ICS_TYPE_PROCESSOR_LOCAL_APIC then
    g <- gets lapic_gdata;;
    KASSERT (index <? lapic_array_size g);;
    write_lapic (Z.to_nat index) (set_lapic_description (lapic_APIC_ID (read_ICS_local_APIC m header)) header);;
    ret (wrap64 (index + 1), false)
  else ret (index, false).

(** Second loop: the source of the non-maskable interrupt, which breaks out of
    the loop when it is for all the controllers. *)
Definition fill_nmi (m : mem) (header : Z) (_ : unit) : M state (unit * bool) :=
  if ics_type m header =? ICS_TYPE_LOCAL_APIC_NMI then
    let uid := nmi_processor_UID (read_ICS_local_APIC_NMI m header) in
    if uid =? 0xff then
      modify (fun s => set_gdata (set_lapics (set_lapic_nmi header <$> lapics (lapic_gdata s)) (lapic_gdata s)) s);;
      ret (tt, true)
    else
      r <- get_lapic_from_processor_uid uid;;
      match r with
      | None => kpanic FAILED_ASSERT
      | Some i => write_lapic i (set_lapic_nmi header);; ret (tt, false)
      end
  else ret (tt, false).

Definition fill_apic_array (madt : Z) : M state unit :=
  KASSERT (negb (madt =? NULL));;
  m <- gets the_mem;;
  index <- for_each_ICS m madt (fill_lapic m) 0;;
  g <- gets lapic_gdata;;
  KASSERT (index =? lapic_array_size g);;
  for_each_ICS m madt (fill_nmi m) tt.

Definition get_lapic_base_address_from_madt (madt : Z) : M state Z :=
  m <- gets the_mem;;
  for_each_ICS m madt (pure_body (fun header base =>
    if ics_type m header =? ICS_TYPE_LOCAL_APIC_ADDRESS_OVERRIDE then read_local_APIC_address_override m header
    else base)) (madt_local_interrupt_controller_address m madt).

(** ** Initialisation of the subsystem *)

Definition cpu_has_msr : bool := negb (Z.land cpuid_1_edx CPUID_FLAG_MSR =? 0).
Definition apic_present : bool := negb (Z.land cpuid_1_edx CPUID_APIC_PRESENCE_EDX =? 0).
Definition is_apic_enabled : bool :=
  if negb cpu_has_msr then false
  else negb (Z.land (rdmsr IA32_APIC_BASE_MSR).1 APIC_GLOBAL_ENABLE_DISABLE_FLAG =? 0).

Definition init_apic_subsystem : M state bool :=
  if negb apic_present then ret false else
  if negb is_apic_enabled then ret false else
  madt <- zoom acpi_lens get_MADT;;
  if madt =? NULL then ret false else
  m <- gets the_mem;;
  lapic_count <- count_number_of_local_apic m madt;;
  base <- get_lapic_base_address_from_madt madt;;
  array <- zoom ap_heap_lens (hp_kmalloc (wrap64 (sizeof_LocalAPIC * lapic_count)));;
  modify (fun s => set_gdata (MkLAPICData array (replicate (Z.to_nat lapic_count) zero_lapic) lapic_count base
                                (register_space_mapping (lapic_gdata s))) s);;
  fill_apic_array madt;;
  KASSERT (base mod PAGE_SIZE =? 0);;
  h <- zoom acpi_lens (zoom acpi_vm_lens (mp_memory_map base APIC_REGISTER_SPACE_SIZE PAGE_WRITABLE_CACHE_DISABLE));;
  modify (fun s => let g := lapic_gdata s in
    set_gdata (MkLAPICData (lapic_array g) (lapics g) (lapic_array_size g) (lapic_base_address g) h) s);;
  modify (add_handler APIC_ERROR_VECTOR);;
  ret true.

(** ** Registers *)

Definition mapping_valid : M state unit :=
  g <- gets lapic_gdata;;
  KASSERT (negb (is_vmemhandle_invalid (register_space_mapping g))).

Definition get_register_space_start_addr : M state Z :=
  mapping_valid;;
  gets (fun s => mp_vmem_addr (register_space_mapping (lapic_gdata s)) (acpi_vm (ap_acpi s))).

Definition write_32_lapic_register (register_offset value : Z) : M state unit :=
  base <- get_register_space_start_addr;;
  zoom bus_lens (reg_write32 (base + register_offset) value).

Definition read_32_lapic_register (register_offset : Z) : M state Z :=
  base <- get_register_space_start_addr;;
  zoom bus_lens (reg_read32 (base + register_offset)).

(** The low half is written first. *)
Definition write_64_lapic_register (reg_low value : Z) : M state unit :=
  let low_value := Z.land value 0xffffffff in
  let high_value := Z.land (Z.shiftr value 32) 0xffffffff in
  interrupt_state <- disable_and_save_interrupts ap_if_lens;;
  write_32_lapic_register reg_low low_value;;
  write_32_lapic_register (reg_low + 0x10) high_value;;
  restore_interrupt_state ap_if_lens interrupt_state.

Definition read_64_lapic_register (reg_low : Z) : M state Z :=
  interrupt_state <- disable_and_save_interrupts ap_if_lens;;
  low <- read_32_lapic_register reg_low;;
  high <- read_32_lapic_register (reg_low + 0x10);;
  restore_interrupt_state ap_if_lens interrupt_state;;
  ret (Z.lor low (Z.shiftl high 32)).

Definition get_logical_core_lapic_id : M state Z :=
  raw_lapic_id <- read_32_lapic_register APIC_REG_OFFSET_LAPIC_ID;;
  ret (Z.land (Z.shiftr raw_lapic_id 24) 0xff).

Definition can_suppress_EOI_broadcast : M state bool :=
  v <- read_32_lapic_register APIC_REG_OFFSET_LAPIC_VERSION;;
  ret (negb (Z.land v SUPPRESS_EOI_BROADCAST_VERSION_FLAG =? 0)).

Definition read_apic_error : M state Z :=
  write_32_lapic_register APIC_REG_OFFSET_ERROR_STATUS 0;;
  read_32_lapic_register APIC_REG_OFFSET_ERROR_STATUS.

Definition is_lapic_discrete_82489DX : M state bool :=
  v <- read_32_lapic_register APIC_REG_OFFSET_LAPIC_VERSION;;
  ret (Z.land v 0xff <? 0x10).

Definition is_local_apic_initialized : M state bool :=
  g <- gets lapic_gdata;;
  if is_vmemhandle_invalid (register_space_mapping g) then ret false else
  lapic_id <- get_logical_core_lapic_id;;
  r <- get_lapic_from_id lapic_id;;
  match r with
  | None => kpanic FAILED_ASSERT
  | Some i => g <- gets lapic_gdata;; ret (match lapics g !! i with Some x => enabled x | None => false end)
  end.

(** The test of the trigger mode looks at the polarity, as the source does. *)
Definition lint_lvt (flags : Z) : Z :=
  let polarity_flag := Z.land flags MPS_INTI_POLARITY_MASK in
  let trigger_mode_flag := Z.land flags MPS_INTI_TRIGGER_MODE_MASK in
  let polarity := if negb (polarity_flag =? MPS_INTI_POLARITY_BUS_CONFORM)
                  then polarity_flag =? MPS_INTI_POLARITY_ACTIVE_LOW else false in
  let trigger_mode := if negb (polarity_flag =? MPS_INTI_TRIGGER_MODE_BUS_CONFORM)
                      then trigger_mode_flag =? MPS_INTI_TRIGGER_MODE_LEVEL_TRIGGERED else false in
  make_lvt_entry 0xff APIC_DEL_MODE_NMI polarity false trigger_mode false.

Definition setup_lapic_nmi_lint : M state unit :=
  lapic_id <- get_logical_core_lapic_id;;
  r <- get_lapic_from_id lapic_id;;
  match r with
  | None => kpanic FAILED_ASSERT
  | Some i =>
      g <- gets lapic_gdata;;
      let nmi := match lapics g !! i with Some x => ics_lapic_nmi x | None => NULL end in
      if nmi =? NULL then ret tt else
      m <- gets the_mem;;
      let ics := read_ICS_local_APIC_NMI m nmi in
      lint_reg <- (if nmi_LINT ics =? 0 then ret APIC_REG_OFFSET_LVT_LINT0
                   else if nmi_LINT ics =? 1 then ret APIC_REG_OFFSET_LVT_LINT1 else kpanic APIC_ERROR);;
      KASSERT (negb (lint_reg =? 0));;
      write_32_lapic_register lint_reg (lint_lvt (nmi_flags ics))
  end.

Definition init_local_apic : M state bool :=
  let apic_enable_flag := 0x100 in
  write_32_lapic_register APIC_REG_OFFSET_SPURIOUS_INTERRUPT_VECTOR (Z.lor APIC_SPURIOUS_INTERRUPTS_VECTOR apic_enable_flag);;
  write_32_lapic_register APIC_REG_OFFSET_TASK_PRIORITY 0;;
  write_32_lapic_register APIC_REG_OFFSET_LVT_ERROR
    (make_lvt_entry APIC_ERROR_VECTOR APIC_DEL_MODE_FIXED false false false false);;
  e <- read_apic_error;;
  if negb (e =? 0) then ret false else
  setup_lapic_nmi_lint;;
  lapic_id <- get_logical_core_lapic_id;;
  r <- get_lapic_from_id lapic_id;;
  match r with
  | None => kpanic FAILED_ASSERT
  | Some i => write_lapic i (fun x => MkLocalAPIC (APIC_ID x) (ics_lapic x) (ics_lapic_nmi x) true);; ret true
  end.

(** ** Interrupts *)

Definition send_lapic_EOI : M state unit :=
  mapping_valid;;
  write_32_lapic_register APIC_REG_OFFSET_EOI 0.

Definition is_IPI_sending_complete : M state bool :=
  mapping_valid;;
  v <- read_64_lapic_register APIC_REG_OFFSET_INTERRUPT_COMMAND_LOW;;
  ret (Z.land v (Z.shiftl 1 12) =? 0).

(** The polling loop; the number of polls the device needs is not known to the
    driver. *)
Fixpoint wait_and_write_loop (fuel : nat) (ICR : Z) : M state unit :=
  match fuel with
  | O => out_of_fuel
  | S fuel' =>
      istate <- disable_and_save_interrupts ap_if_lens;;
      complete <- is_IPI_sending_complete;;
      when complete (write_64_lapic_register APIC_REG_OFFSET_INTERRUPT_COMMAND_LOW ICR);;
      restore_interrupt_state ap_if_lens istate;;
      if complete : bool then ret tt else wait_and_write_loop fuel' ICR
  end.

Definition wait_and_write_interrupt_command_register (fuel : nat) (ICR : Z) : M state unit :=
  mapping_valid;;
  wait_and_write_loop fuel ICR.

Definition send_IPI_by_destination_shorthand (fuel : nat) (dest_sh : APICDestinationShorthand) (interrupt_vector : Z) :
    M state unit :=
  KASSERT (negb (shorthand_code dest_sh =? shorthand_code APIC_DESTSH_NO_SH));;
  mapping_valid;;
  wait_and_write_interrupt_command_register fuel
    (make_interrupt_command 0xff dest_sh 0 1 0 APIC_DEL_MODE_FIXED interrupt_vector).

Definition send_IPI_by_lapic_id (fuel : nat) (lapic_id_target interrupt_vector : Z) : M state unit :=
  mapping_valid;;
  wait_and_write_interrupt_command_register fuel
    (make_interrupt_command lapic_id_target APIC_DESTSH_NO_SH 0 1 0 APIC_DEL_MODE_FIXED interrupt_vector).

Definition send_IPI_INIT_by_lapic_id (fuel : nat) (lapic_id_target : Z) : M state unit :=
  mapping_valid;;
  wait_and_write_interrupt_command_register fuel
    (make_interrupt_command lapic_id_target APIC_DESTSH_NO_SH 0 1 0 APIC_DEL_MODE_INIT 0).

Definition send_IPI_INIT_to_all_excluding_self (fuel : nat) : M state unit :=
  mapping_valid;;
  wait_and_write_interrupt_command_register fuel
    (make_interrupt_command 0 APIC_DESTSH_ALL_EXCLUDING_SELF 0 1 0 APIC_DEL_MODE_INIT 0).

Definition send_IPI_INIT_deassert (fuel : nat) : M state unit :=
  mapping_valid;;
  wait_and_write_interrupt_command_register fuel
    (make_interrupt_command 0 APIC_DESTSH_ALL_INCLUDING_SELF 1 0 0 APIC_DEL_MODE_INIT 0).

Definition send_IPI_INIT_deassert_by_lapic_id (fuel : nat) (apic_id : Z) : M state unit :=
  mapping_valid;;
  wait_and_write_interrupt_command_register fuel
    (make_interrupt_command apic_id APIC_DESTSH_NO_SH 1 0 0 APIC_DEL_MODE_INIT 0).

Definition send_startup_IPI (fuel : nat) (lapic_id_target interrupt_vector : Z) : M state unit :=
  mapping_valid;;
  wait_and_write_interrupt_command_register fuel
    (make_interrupt_command lapic_id_target APIC_DESTSH_NO_SH 0 1 0 APIC_DEL_MODE_START_UP interrupt_vector).

Definition send_startup_IPI_to_all_excluding_self (fuel : nat) (interrupt_vector : Z) : M state unit :=
  mapping_valid;;
  wait_and_write_interrupt_command_register fuel
    (make_interrupt_command 0 APIC_DESTSH_ALL_EXCLUDING_SELF 0 1 0 APIC_DEL_MODE_START_UP interrupt_vector).

Definition is_interrupt_lapic_generated (interrupt_vector : Z) : M state bool :=
  mapping_valid;;
  let register_number := interrupt_vector / 32 in
  let register_value_bit_number := interrupt_vector mod 32 in
  let register_offset := APIC_REG_OFFSET_IN_SERVICE_FIRST + register_number * 0x10 in
  ISR_dword <- read_32_lapic_register register_offset;;
  ret (negb (Z.land ISR_dword (Z.shiftl 1 register_value_bit_number) =? 0)).

(** The identifiers written to the buffer and the value returned. *)
Definition get_lapic_id_array (buffer_size : Z) : M state (list Z * Z) :=
  g <- gets lapic_gdata;;
  if buffer_size <? lapic_array_size g then ret ([], -1) else ret (APIC_ID <$> lapics g, lapic_array_size g).

Definition apic_error_interrupt_handler : M state unit :=
  read_apic_error;;
  kpanic APIC_ERROR.
End ops.
