(* ===== verification/ApicTop.v ===== *)
(** * Local interrupt controllers: encodings, array and inter-processor interrupts

    What the registers receive, what the array describes after the
    initialisation, and which accesses an inter-processor interrupt makes. *)

From S2P Require Import Prelude Memory Sync Interfaces Bus Acpi Madt Shootdown Apic.
Import Sequential.

(** ** Encodings *)

Lemma land_1_small x : 0 <= x <= 1 -> Z.land x 1 = x.
Proof. intros H. assert (x = 0 \/ x = 1) as [-> | ->] by lia; done. Qed.

Lemma delivery_mode_range d : 0 <= delivery_mode_code d < 8.
Proof. destruct d; cbn; lia. Qed.
Lemma shorthand_range d : 0 <= shorthand_code d < 4.
Proof. destruct d; cbn; lia. Qed.

Lemma delivery_mode_bits d : Z.land (delivery_mode_code d) 7 = delivery_mode_code d.
Proof. by destruct d. Qed.
Lemma shorthand_bits d : Z.land (shorthand_code d) 3 = shorthand_code d.
Proof. by destruct d. Qed.

(** The command is the sum of its fields, each at its place. *)
Lemma interrupt_command_fields dest sh trigger level mode del vector :
  0 <= trigger <= 1 -> 0 <= level <= 1 -> 0 <= mode <= 1 -> 0 <= vector < 256 ->
  make_interrupt_command dest sh trigger level mode del vector =
    wrap8 dest * 2 ^ 56 + shorthand_code sh * 2 ^ 18 + trigger * 2 ^ 15 + level * 2 ^ 14 + mode * 2 ^ 11 +
    delivery_mode_code del * 2 ^ 8 + vector.
Proof.
  intros Ht Hl Hm Hv. unfold make_interrupt_command. cbv zeta.
  pose proof (delivery_mode_range del). pose proof (shorthand_range sh).
  rewrite !land_1_small by done. rewrite delivery_mode_bits, shorthand_bits, <-!Z.lor_assoc.
  rewrite (lor_shiftl_low 8) by lia. rewrite (lor_shiftl_low 11) by lia. rewrite (lor_shiftl_low 14) by lia.
  rewrite (lor_shiftl_low 15) by lia. rewrite (lor_shiftl_low 18) by lia. rewrite (lor_shiftl_low 56) by lia. lia.
Qed.

Lemma lvt_entry_fields vector del polarity irr trigger mask :
  0 <= vector < 256 ->
  make_lvt_entry vector del polarity irr trigger mask =
    Z.b2z mask * 2 ^ 16 + Z.b2z trigger * 2 ^ 15 + Z.b2z irr * 2 ^ 14 + Z.b2z polarity * 2 ^ 13 +
    delivery_mode_code del * 2 ^ 8 + vector.
Proof.
  intros Hv. unfold make_lvt_entry. cbv zeta. pose proof (delivery_mode_range del).
  assert (forall b, 0 <= Z.b2z b <= 1) as Hb by (intros []; cbn; lia).
  pose proof (Hb polarity). pose proof (Hb irr). pose proof (Hb trigger). pose proof (Hb mask).
  rewrite delivery_mode_bits.
  rewrite (Z.lor_comm vector), (lor_shiftl_low 8) by lia.
  rewrite (Z.lor_comm _ (Z.shiftl (Z.b2z polarity) 13)), (lor_shiftl_low 13) by lia.
  rewrite (Z.lor_comm _ (Z.shiftl (Z.b2z irr) 14)), (lor_shiftl_low 14) by lia.
  rewrite (Z.lor_comm _ (Z.shiftl (Z.b2z trigger) 15)), (lor_shiftl_low 15) by lia.
  rewrite (Z.lor_comm _ (Z.shiftl (Z.b2z mask) 16)), (lor_shiftl_low 16) by lia. lia.
Qed.

(** What a controller reads back from the two registers. *)
Record command_fields : Type := MkCommandFields {
  cf_destination : Z; cf_shorthand : Z; cf_trigger : Z; cf_level : Z; cf_mode : Z; cf_delivery : Z; cf_vector : Z
}.
Definition decode_command (icr : Z) : command_fields :=
  MkCommandFields (icr / 2 ^ 56 mod 256) (icr / 2 ^ 18 mod 4) (icr / 2 ^ 15 mod 2) (icr / 2 ^ 14 mod 2)
    (icr / 2 ^ 11 mod 2) (icr / 2 ^ 8 mod 8) (icr mod 256).

Lemma interrupt_command_decode dest sh trigger level mode del vector :
  0 <= dest < 256 -> 0 <= trigger <= 1 -> 0 <= level <= 1 -> 0 <= mode <= 1 -> 0 <= vector < 256 ->
  decode_command (make_interrupt_command dest sh trigger level mode del vector) =
    MkCommandFields dest (shorthand_code sh) trigger level mode (delivery_mode_code del) vector.
Proof.
  intros Hd Ht Hl Hm Hv. rewrite interrupt_command_fields, (wrap_small 8 dest) by lia.
  pose proof (delivery_mode_range del). pose proof (shorthand_range sh). unfold decode_command.
  f_equal; lia.
Qed.

Section registers.
Context {V H : Type} {MP : MappingProvider V} {HP : HeapProvider H} {DV : Device} {CPU : Processor}.
#[local] Abbreviation state := (apic_state V H).
Implicit Types s : state.

Definition mapped s : Prop := is_vmemhandle_invalid (register_space_mapping (lapic_gdata s)) = false.

(** The address of a register. *)
Definition lapic_reg s (offset : Z) : Z :=
  wrap64 (mp_vmem_addr (register_space_mapping (lapic_gdata s)) (acpi_vm (ap_acpi s)) + offset).

Lemma write32_run s off v :
  mapped s -> write_32_lapic_register off v s = Ok (tt, put bus_lens (ap_bus s ++ [RegWrite (lapic_reg s off) (wrap32 v)]) s).
Proof.
  intros Hm. unfold write_32_lapic_register, get_register_space_start_addr, mapping_valid, bind, gets.
  rewrite Hm. done.
Qed.

Lemma read32_run s off :
  mapped s ->
  read_32_lapic_register off s =
    Ok (wrap32 (reg_value (ap_bus s) (lapic_reg s off)),
        put bus_lens (ap_bus s ++ [RegRead (lapic_reg s off) (wrap32 (reg_value (ap_bus s) (lapic_reg s off)))]) s).
Proof.
  intros Hm. unfold read_32_lapic_register, get_register_space_start_addr, mapping_valid, bind, gets.
  rewrite Hm. done.
Qed.

Lemma mapping_valid_run s : mapped s -> mapping_valid s = Ok (tt, s).
Proof. intros Hm. unfold mapping_valid, bind, gets. by rewrite Hm. Qed.

(** One poll of the command register. *)
Definition poll_low s (t : history) : Z := wrap32 (reg_value t (lapic_reg s 0x300)).
Definition after_low s (t : history) : history := t ++ [RegRead (lapic_reg s 0x300) (poll_low s t)].
Definition poll s (t : history) : history :=
  after_low s t ++ [RegRead (lapic_reg s 0x310) (wrap32 (reg_value (after_low s t) (lapic_reg s 0x310)))].
(** The controller is still sending: the delivery status is bit 12. *)
Definition sending s (t : history) : bool := Z.testbit (poll_low s t) 12.

Lemma status_bit l h : 0 <= l -> (Z.land (Z.lor l (Z.shiftl h 32)) (Z.shiftl 1 12) =? 0) = negb (Z.testbit l 12).
Proof.
  intros Hl. rewrite Z.shiftl_1_l.
  assert (E : Z.testbit (Z.lor l (Z.shiftl h 32)) 12 = Z.testbit l 12).
  { rewrite Z.lor_spec, (Z.shiftl_spec_low h 32 12) by lia. apply orb_false_r. }
  rewrite <-E. generalize (Z.lor l (Z.shiftl h 32)). intros x. destruct (Z.testbit x 12) eqn:B; cbn [negb].
  - apply Z.eqb_neq. intros Z0. assert (Z.testbit (Z.land x (2 ^ 12)) 12 = true) as C.
    { rewrite Z.land_spec, B. by rewrite Z.pow2_bits_true. }
    rewrite Z0 in C. done.
  - apply Z.eqb_eq, Z.bits_inj'. intros n Hn. rewrite Z.land_spec, Z.bits_0.
    destruct (decide (n = 12)) as [->|]; [by rewrite B|]. rewrite Z.pow2_bits_false by lia. apply andb_false_r.
Qed.

Lemma read64_run s :
  mapped s ->
  is_IPI_sending_complete s = Ok (negb (sending s (ap_bus s)), put bus_lens (poll s (ap_bus s)) s).
Proof.
  intros Hm. destruct s as [a h t f g hs]. unfold mapped in Hm. cbn in Hm.
  unfold is_IPI_sending_complete, read_64_lapic_register, disable_and_save_interrupts, restore_interrupt_state,
    read_32_lapic_register, get_register_space_start_addr, mapping_valid, bind, gets, modify, ret, when.
  cbn. rewrite Hm. cbn. rewrite Hm. cbn. rewrite Hm. cbn.
  destruct f; cbn; rewrite status_bit by (apply wrap_range; lia); done.
Qed.

Lemma write64_run s off v :
  mapped s ->
  write_64_lapic_register off v s =
    Ok (tt, put bus_lens (ap_bus s ++ [RegWrite (lapic_reg s off) (v mod 2 ^ 32);
                                       RegWrite (lapic_reg s (off + 0x10)) (v / 2 ^ 32 mod 2 ^ 32)]) s).
Proof.
  intros Hm. destruct s as [a h t f g hs]. unfold mapped in Hm. cbn in Hm.
  unfold write_64_lapic_register. cbv zeta. change 0xffffffff with (Z.ones 32).
  rewrite !Z.land_ones, Z.shiftr_div_pow2 by lia.
  assert (El : wrap32 (v mod 2 ^ 32) = v mod 2 ^ 32) by apply Zmod_mod.
  assert (Eh : wrap32 (v / 2 ^ 32 mod 2 ^ 32) = v / 2 ^ 32 mod 2 ^ 32) by apply Zmod_mod.
  revert El Eh. generalize (v mod 2 ^ 32) (v / 2 ^ 32 mod 2 ^ 32). intros lo hi El Eh.
  unfold disable_and_save_interrupts, restore_interrupt_state, write_32_lapic_register,
    get_register_space_start_addr, mapping_valid, bind, gets, modify, ret, when.
  cbn -[wrap]. rewrite Hm. cbn -[wrap]. rewrite Hm. cbn -[wrap].
  destruct f; cbn -[wrap]; unfold lapic_reg; cbn -[wrap]; rewrite El, Eh, <-app_assoc, Z.add_assoc; done.
Qed.

(** The bits of the interrupt flag and of the array are those of [s] throughout,
    so registers keep their addresses. *)
Lemma lapic_reg_bus s t off : lapic_reg (put bus_lens t s) off = lapic_reg s off.
Proof. done. Qed.

Lemma poll_bus s t u : poll (put bus_lens t s) u = poll s u.
Proof. done. Qed.

(** One turn of the loop. *)
Lemma wait_loop_step fuel icr s :
  mapped s ->
  wait_and_write_loop (S fuel) icr s =
    if sending s (ap_bus s) then wait_and_write_loop fuel icr (put bus_lens (poll s (ap_bus s)) s)
    else Ok (tt, put bus_lens (poll s (ap_bus s) ++ [RegWrite (lapic_reg s 0x300) (icr mod 2 ^ 32);
                                                    RegWrite (lapic_reg s 0x310) (icr / 2 ^ 32 mod 2 ^ 32)]) s).
Proof.
  intros Hm. cbn [wait_and_write_loop]. set (s1 := put ap_if_lens false s).
  rewrite (bind_ok _ _ s (ap_if s) s1) by done. assert (Hm1 : mapped s1) by exact Hm.
  rewrite (bind_ok _ _ _ _ _ (read64_run s1 Hm1)). set (s2 := put bus_lens _ s1).
  change (sending s1 (ap_bus s1)) with (sending s (ap_bus s)).
  destruct (sending s (ap_bus s)); cbn [negb when].
  - rewrite (bind_ok _ _ _ tt s2) by done. rewrite (bind_ok _ _ s2 tt (put bus_lens (poll s (ap_bus s)) s)); [done|].
    by destruct s as [a h t [] g hs].
  - rewrite (bind_ok _ _ _ _ _ (write64_run s2 0x300 icr Hm1)).
    set (s3 := put bus_lens _ s2). match goal with |- _ = Ok (tt, ?u) => rewrite (bind_ok _ _ s3 tt u); [done|] end.
    by destruct s as [a h t [] g hs].
Qed.

(** The command register is written at the first poll that finds it idle. *)
Lemma wait_and_write_run n fuel icr s :
  mapped s -> (n < fuel)%nat ->
  (forall k, (k < n)%nat -> sending s (Nat.iter k (poll s) (ap_bus s)) = true) ->
  sending s (Nat.iter n (poll s) (ap_bus s)) = false ->
  wait_and_write_interrupt_command_register fuel icr s =
    Ok (tt, put bus_lens (Nat.iter (S n) (poll s) (ap_bus s) ++
              [RegWrite (lapic_reg s 0x300) (icr mod 2 ^ 32);
               RegWrite (lapic_reg s 0x310) (icr / 2 ^ 32 mod 2 ^ 32)]) s).
Proof.
  intros Hm. unfold wait_and_write_interrupt_command_register. rewrite (bind_ok _ _ _ _ _ (mapping_valid_run s Hm)).
  revert fuel s Hm. induction n as [|n IH]; intros fuel s Hm Hf Hb Hi.
  all: destruct fuel as [|fuel]; [lia|]; rewrite (wait_loop_step _ _ _ Hm).
  - change (Nat.iter 0 (poll s) (ap_bus s)) with (ap_bus s) in Hi. by rewrite Hi.
  - rewrite (Hb 0%nat : _ -> sending s (ap_bus s) = true) by lia. set (s1 := put bus_lens _ s).
    assert (It : forall k, Nat.iter k (poll s1) (ap_bus s1) = Nat.iter (S k) (poll s) (ap_bus s)).
    { intros k. rewrite Nat.iter_succ_r. done. }
    rewrite (IH fuel s1); [|done|lia| |].
    + by rewrite It.
    + intros k Hk. rewrite It. apply Hb. lia.
    + by rewrite It.
Qed.

(** An inter-processor interrupt is a number of polls of the command register
    followed by the two halves of the command, the low one first, with the
    interrupt flag as before. *)
(** C22: Once the delivery status of the previous interrupt clears, sending an
    interrupt writes the command register, low half first, with a command whose fields
    are the destination, shorthand, level and vector asked for. *)
Theorem send_IPI_writes_command n fuel s dest sh vector :
  mapped s -> (n < fuel)%nat -> sh <> APIC_DESTSH_NO_SH -> 0 <= dest < 256 -> 0 <= vector < 256 ->
  (forall k, (k < n)%nat -> sending s (Nat.iter k (poll s) (ap_bus s)) = true) ->
  sending s (Nat.iter n (poll s) (ap_bus s)) = false ->
  exists low high low' high',
    send_IPI_by_destination_shorthand fuel sh vector s =
      Ok (tt, put bus_lens (Nat.iter (S n) (poll s) (ap_bus s) ++
                [RegWrite (lapic_reg s 0x300) low; RegWrite (lapic_reg s 0x310) high]) s) /\
    decode_command (low + 2 ^ 32 * high) = MkCommandFields 0xff (shorthand_code sh) 0 1 0 0 vector /\
    send_IPI_by_lapic_id fuel dest vector s =
      Ok (tt, put bus_lens (Nat.iter (S n) (poll s) (ap_bus s) ++
                [RegWrite (lapic_reg s 0x300) low'; RegWrite (lapic_reg s 0x310) high']) s) /\
    decode_command (low' + 2 ^ 32 * high') = MkCommandFields dest 0 0 1 0 0 vector.
Proof.
  intros Hm Hf Hsh Hd Hv Hb Hi.
  assert (Split : forall x, 0 <= x < 2 ^ 64 -> x mod 2 ^ 32 + 2 ^ 32 * (x / 2 ^ 32 mod 2 ^ 32) = x) by (intros; lia).
  assert (Range : forall d sh' v, 0 <= d < 256 -> 0 <= v < 256 ->
    0 <= make_interrupt_command d sh' 0 1 0 APIC_DEL_MODE_FIXED v < 2 ^ 64).
  { intros d sh' v H1 H2. rewrite interrupt_command_fields, (wrap_small 8 d) by lia.
    pose proof (shorthand_range sh'). cbn [delivery_mode_code]. lia. }
  eexists _, _, _, _. split_and!.
  - unfold send_IPI_by_destination_shorthand.
    rewrite (bind_ok _ _ s tt s) by (apply KASSERT_ok; by destruct sh).
    rewrite (bind_ok _ _ _ _ _ (mapping_valid_run s Hm)). by apply wait_and_write_run.
  - rewrite Split by (apply Range; lia). by apply interrupt_command_decode.
  - unfold send_IPI_by_lapic_id. rewrite (bind_ok _ _ _ _ _ (mapping_valid_run s Hm)). by apply wait_and_write_run.
  - rewrite Split by (apply Range; lia). by apply interrupt_command_decode.
Qed.
End registers.
