(* ===== verification/ApicInit.v ===== *)
(** * Local interrupt controllers: initialisation

    [init_apic_subsystem] describes every controller of the MADT in the array
    and maps the register page.  The count and the fill treat unusable
    controllers differently: with one in the table the initialisation panics. *)

From S2P Require Import Prelude Memory Sync Interfaces Bus Acpi Madt Shootdown Apic ApicTop.
Import Sequential.

Section init.
Context {V H : Type} {MP : MappingProvider V} {ML : MappingLaws V} {HP : HeapProvider H} {HL : HeapLaws H}.
Context {DV : Device} {CPU : Processor}.
#[local] Abbreviation state := (apic_state V H).
Implicit Types (s : state) (l : list LocalAPIC) (L : list Z).

Definition lapic_entries (m : mem) L : list Z := List.filter (is_lapic m) L.
Definition lapic_of (m : mem) (p : Z) : LocalAPIC := MkLocalAPIC (lapic_APIC_ID (read_ICS_local_APIC m p)) p NULL false.
Definition with_lapics l s : state := set_gdata (set_lapics l (lapic_gdata s)) s.

Lemma with_lapics_idem l l' s : with_lapics l (with_lapics l' s) = with_lapics l s.
Proof. done. Qed.

Lemma with_lapics_same s : with_lapics (lapics (lapic_gdata s)) s = s.
Proof. by destruct s as [? ? ? ? [] ?]. Qed.

Lemma write_lapic_run s i f x :
  lapics (lapic_gdata s) !! i = Some x -> write_lapic i f s = Ok (tt, with_lapics (<[i := f x]> (lapics (lapic_gdata s))) s).
Proof. intros E. unfold write_lapic. by rewrite E. Qed.

(** ** The first loop *)

Lemma fill_lapic_step m p dn k s :
  lapics (lapic_gdata s) = dn ++ replicate (S k) zero_lapic ->
  lapic_array_size (lapic_gdata s) = Z.of_nat (length dn + S k) -> Z.of_nat (length dn) + 1 < 2 ^ 64 ->
  is_lapic m p = true ->
  fill_lapic m p (Z.of_nat (length dn)) s =
    Ok ((Z.of_nat (length (dn ++ [lapic_of m p])), false),
        with_lapics ((dn ++ [lapic_of m p]) ++ replicate k zero_lapic) s).
Proof.
  intros El Es Hw Hp. unfold fill_lapic. unfold is_lapic in Hp. rewrite Hp.
  unfold bind at 1, gets. rewrite (bind_ok _ _ s tt s); [|apply KASSERT_ok; apply Z.ltb_lt; lia].
  assert (Ez : lapics (lapic_gdata s) !! length dn = Some zero_lapic)
    by (rewrite El, lookup_app_r, Nat.sub_diag by lia; done).
  rewrite Nat2Z.id, (bind_ok _ _ _ _ _ (write_lapic_run s _ _ _ Ez)).
  rewrite El, insert_app_r_alt, Nat.sub_diag, wrap64_small by lia. cbn [replicate]. unfold ret.
  rewrite length_app, <-app_assoc. cbn [length app]. do 3 f_equal. lia.
Qed.

Lemma fill_lapic_loop m L dn k s :
  lapics (lapic_gdata s) = dn ++ replicate k zero_lapic ->
  lapic_array_size (lapic_gdata s) = Z.of_nat (length dn + k) -> (length (lapic_entries m L) <= k)%nat ->
  Z.of_nat (length dn + k) < 2 ^ 64 ->
  fold_break (fill_lapic m) L (Z.of_nat (length dn)) s =
    Ok (Z.of_nat (length dn + length (lapic_entries m L)),
        with_lapics (dn ++ (lapic_of m <$> lapic_entries m L) ++ replicate (k - length (lapic_entries m L)) zero_lapic) s).
Proof.
  revert dn k s. induction L as [|p L IH]; intros dn k s El Es Hk Hw.
  { cbn [fold_break lapic_entries List.filter length fmap list_fmap app]. unfold ret.
    rewrite Nat.add_0_r, Nat.sub_0_r, <-El, with_lapics_same. done. }
  cbn [fold_break]. unfold lapic_entries in *. cbn [List.filter] in *. destruct (is_lapic m p) eqn:Hp.
  - cbn [length] in *. destruct k as [|k]; [lia|].
    rewrite (bind_ok _ _ _ _ _ (fill_lapic_step m p dn k s El Es ltac:(lia) Hp)). cbn [fst snd].
    rewrite (IH (dn ++ [lapic_of m p]) k); [|done|rewrite length_app; cbn; rewrite Es; lia|lia|rewrite length_app; cbn; lia].
    rewrite with_lapics_idem, length_app, <-!app_assoc. cbn [length app fmap list_fmap]. do 3 f_equal. lia.
  - rewrite (bind_ok _ _ s (Z.of_nat (length dn), false) s).
    2:{ unfold fill_lapic. unfold is_lapic in Hp. by rewrite Hp. }
    cbn [fst snd]. by apply IH.
Qed.

(** More controllers than were counted. *)
Lemma fill_lapic_overflow m L dn k s :
  lapics (lapic_gdata s) = dn ++ replicate k zero_lapic ->
  lapic_array_size (lapic_gdata s) = Z.of_nat (length dn + k) -> (k < length (lapic_entries m L))%nat ->
  Z.of_nat (length dn + k) < 2 ^ 64 ->
  fold_break (fill_lapic m) L (Z.of_nat (length dn)) s = Panic FAILED_ASSERT.
Proof.
  revert dn k s. induction L as [|p L IH]; intros dn k s El Es Hk Hw; [cbn in Hk; lia|].
  cbn [fold_break]. unfold lapic_entries in *. cbn [List.filter] in *. destruct (is_lapic m p) eqn:Hp.
  - cbn [length] in *. destruct k as [|k].
    + unfold bind at 1, fill_lapic. unfold is_lapic in Hp. rewrite Hp. unfold bind, gets.
      rewrite Es, (proj2 (Z.ltb_ge _ _)) by lia. done.
    + rewrite (bind_ok _ _ _ _ _ (fill_lapic_step m p dn k s El Es ltac:(lia) Hp)). cbn [fst snd].
      apply (IH (dn ++ [lapic_of m p]) k); [done|rewrite length_app; cbn; rewrite Es; lia|lia|rewrite length_app; cbn; lia].
  - rewrite (bind_ok _ _ s (Z.of_nat (length dn), false) s).
    2:{ unfold fill_lapic. unfold is_lapic in Hp. by rewrite Hp. }
    cbn [fst snd]. by apply (IH dn k).
Qed.

(** ** The second loop *)

Definition uid_of (m : mem) (x : LocalAPIC) : Z := lapic_processor_UID (read_ICS_local_APIC m (ics_lapic x)).
Definition is_nmi (m : mem) (p : Z) : bool := ics_type m p =? ICS_TYPE_LOCAL_APIC_NMI.
Definition nmi_uid (m : mem) (p : Z) : Z := nmi_processor_UID (read_ICS_local_APIC_NMI m p).

(** The structure that describes the non-maskable interrupt of the controller
    [uid]: the first one for all controllers, or else the last one for it. *)
Fixpoint nmi_source (m : mem) L (uid cur : Z) : Z :=
  match L with
  | [] => cur
  | p :: L' =>
      if is_nmi m p then
        if nmi_uid m p =? 0xff then p else nmi_source m L' uid (if nmi_uid m p =? uid then p else cur)
      else nmi_source m L' uid cur
  end.
Definition with_nmi (m : mem) L (x : LocalAPIC) : LocalAPIC :=
  set_lapic_nmi (nmi_source m L (uid_of m x) (ics_lapic_nmi x)) x.

Lemma find_uid_run m uid l s i x :
  (forall y, y ∈ l -> ics_lapic y <> NULL) -> NoDup (uid_of m <$> l) -> l !! i = Some x -> uid_of m x = uid ->
  find_uid m uid l s = Ok (Some i, s).
Proof.
  revert i. induction l as [|y l IH]; intros i Hn Hd Hi Hu; [done|]. cbn [find_uid].
  rewrite (bind_ok _ _ s tt s).
  2:{ apply KASSERT_ok. apply negb_true_iff, Z.eqb_neq, Hn. by left. }
  fold (uid_of m y). apply NoDup_cons in Hd as [Hd1 Hd2]. destruct i as [|i]; cbn in Hi.
  - injection Hi as ->. rewrite Hu, Z.eqb_refl. done.
  - rewrite (proj2 (Z.eqb_neq (uid_of m y) uid)).
    2:{ intros E. apply Hd1. rewrite E, <-Hu. apply list_elem_of_fmap. exists x. split; [done|]. by eapply list_elem_of_lookup_2. }
    rewrite (bind_ok _ _ _ _ _ (IH i ltac:(intros z Hz; apply Hn; by right) Hd2 Hi Hu)). done.
Qed.

(** Every structure for a single controller names one of the array. *)
Definition nmis_known (m : mem) L l : Prop :=
  forall p, p ∈ L -> is_nmi m p = true -> nmi_uid m p = 0xff \/ nmi_uid m p ∈ (uid_of m <$> l).

Lemma with_nmi_update m p L l i x :
  is_nmi m p = true -> nmi_uid m p <> 0xff -> l !! i = Some x -> uid_of m x = nmi_uid m p -> NoDup (uid_of m <$> l) ->
  with_nmi m L <$> <[i := set_lapic_nmi p x]> l = with_nmi m (p :: L) <$> l.
Proof.
  intros Hp Hb Hi Hu Hd. apply list_eq. intros j. rewrite !list_lookup_fmap.
  destruct (decide (i = j)) as [->|Hij].
  - rewrite list_lookup_insert_eq by (by eapply lookup_lt_Some). rewrite Hi. cbn [fmap option_fmap option_map].
    f_equal. unfold with_nmi. cbn [nmi_source]. rewrite Hp, (proj2 (Z.eqb_neq _ _)) by done.
    rewrite (proj2 (Z.eqb_eq _ _)) by done. done.
  - rewrite list_lookup_insert_ne by done. destruct (l !! j) as [y|] eqn:Hj; [|done]. cbn [fmap option_fmap option_map].
    f_equal. unfold with_nmi. cbn [nmi_source]. rewrite Hp, (proj2 (Z.eqb_neq (nmi_uid m p) 0xff)) by done.
    rewrite (proj2 (Z.eqb_neq (nmi_uid m p) _)); [done|]. rewrite <-Hu. intros E. apply Hij.
    eapply (NoDup_lookup _ _ _ (uid_of m x) Hd); rewrite list_lookup_fmap; [by rewrite Hi|by rewrite Hj, E].
Qed.

Lemma fill_nmi_loop m L l s :
  m = the_mem s -> lapics (lapic_gdata s) = l -> lapic_array (lapic_gdata s) <> NULL ->
  (forall y, y ∈ l -> ics_lapic y <> NULL) -> NoDup (uid_of m <$> l) -> nmis_known m L l ->
  fold_break (fill_nmi m) L tt s = Ok (tt, with_lapics (with_nmi m L <$> l) s).
Proof.
  intros ->. revert l s. induction L as [|p L IH]; intros l s El Ha Hn Hd Hk.
  { cbn [fold_break]. unfold ret. rewrite <-(with_lapics_same s) at 1. rewrite El. do 3 f_equal.
    rewrite <-(list_fmap_id l) at 1. apply list_fmap_ext. by intros i []. }
  assert (Hk' : nmis_known (the_mem s) L l) by (intros q Hq; apply Hk; by right).
  cbn [fold_break]. unfold fill_nmi at 1. fold (is_nmi (the_mem s) p). fold (nmi_uid (the_mem s) p).
  destruct (is_nmi (the_mem s) p) eqn:Hp.
  2:{ rewrite (bind_ok _ _ s (tt, false) s) by done. cbn [fst snd]. rewrite (IH l s El Ha Hn Hd Hk').
      do 3 f_equal. apply list_fmap_ext. intros i x _. unfold with_nmi. cbn [nmi_source]. by rewrite Hp. }
  destruct (Z.eqb_spec (nmi_uid (the_mem s) p) 0xff) as [Hb|Hb].
  { unfold bind, modify, ret. cbn [fst snd]. rewrite El. do 3 f_equal. unfold with_lapics. do 2 f_equal.
    apply list_fmap_ext. intros i x _. unfold with_nmi. cbn [nmi_source]. by rewrite Hp, Hb. }
  destruct (Hk p (list_elem_of_here _ _) Hp) as [?|Hu]; [done|].
  apply list_elem_of_lookup in Hu as [i Hi]. rewrite list_lookup_fmap in Hi.
  destruct (l !! i) as [x|] eqn:Hx; [|done]. cbn in Hi. injection Hi as Hu.
  rewrite bind_assoc. rewrite (bind_ok _ _ s (Some i) s).
  2:{ unfold get_lapic_from_processor_uid. unfold bind at 1, gets. rewrite (bind_ok _ _ s tt s).
      2:{ apply KASSERT_ok. by apply negb_true_iff, Z.eqb_neq. }
      unfold bind at 1. rewrite El. by apply (find_uid_run _ _ _ _ _ x). }
  rewrite bind_assoc. rewrite (bind_ok _ _ _ _ _ (write_lapic_run s i _ x ltac:(by rewrite El))).
  unfold bind, ret. cbn [fst snd]. rewrite El.
  rewrite (IH (<[i := set_lapic_nmi p x]> l) (with_lapics (<[i := set_lapic_nmi p x]> l) s)); try done.
  - rewrite with_lapics_idem. do 3 f_equal. by apply with_nmi_update.
  - intros y Hy. apply list_elem_of_lookup in Hy as [j Hj]. destruct (decide (i = j)) as [->|Hij].
    + rewrite list_lookup_insert_eq in Hj by (by eapply lookup_lt_Some). injection Hj as <-.
      apply (Hn x). by eapply list_elem_of_lookup_2.
    + rewrite list_lookup_insert_ne in Hj by done. apply Hn. by eapply list_elem_of_lookup_2.
  - change (NoDup (uid_of (the_mem s) <$> <[i := set_lapic_nmi p x]> l)).
    rewrite list_fmap_insert. change (uid_of (the_mem s) (set_lapic_nmi p x)) with (uid_of (the_mem s) x).
    rewrite list_insert_id; [done|]. by rewrite list_lookup_fmap, Hx.
  - intros q Hq Hq'. change (the_mem (with_lapics (<[i:=set_lapic_nmi p x]> l) s)) with (the_mem s).
    rewrite list_fmap_insert. change (uid_of (the_mem s) (set_lapic_nmi p x)) with (uid_of (the_mem s) x).
    rewrite list_insert_id; [by apply Hk'|]. by rewrite list_lookup_fmap, Hx.
Qed.

(** ** The whole initialisation *)

Definition is_address_override (m : mem) (p : Z) : bool := ics_type m p =? ICS_TYPE_LOCAL_APIC_ADDRESS_OVERRIDE.
(** The register page: the last override, or the address in the header. *)
Definition lapic_base (m : mem) (madt : Z) L : Z :=
  match last (List.filter (is_address_override m) L) with
  | Some p => read_local_APIC_address_override m p
  | None => madt_local_interrupt_controller_address m madt
  end.

Lemma lapic_base_run m madt L s :
  m = the_mem s -> madt_table m madt L -> get_lapic_base_address_from_madt madt s = Ok (lapic_base m madt L, s).
Proof.
  intros -> HT. unfold get_lapic_base_address_from_madt. unfold bind, gets.
  rewrite (for_each_ICS_spec _ _ _ _ _ _ HT), fold_pure. do 2 f_equal. unfold lapic_base.
  generalize (madt_local_interrupt_controller_address (the_mem s) madt). generalize (the_mem s). clear.
  intros m. induction L as [|p L IH]; intros c; [done|]. cbn [fold_left List.filter].
  rewrite IH. fold (is_address_override m p). destruct (is_address_override m p); [|done].
  rewrite last_cons. by destruct (last _).
Qed.

Definition lapic_usable_all (m : mem) L : Prop := forall p, p ∈ lapic_entries m L -> lapic_usable m p = true.

Lemma usable_count m L :
  lapic_usable_all m L -> List.filter (fun p => is_lapic m p && lapic_usable m p) L = lapic_entries m L.
Proof.
  unfold lapic_usable_all, lapic_entries. induction L as [|p L IH]; [done|]. cbn [List.filter]. intros Hu.
  destruct (is_lapic m p) eqn:E; cbn [andb]; [|by apply IH]. rewrite (Hu p) by (by left).
  f_equal. apply IH. intros q Hq. apply Hu. by right.
Qed.

Lemma unusable_count m L p :
  p ∈ lapic_entries m L -> lapic_usable m p = false ->
  (length (List.filter (fun q => is_lapic m q && lapic_usable m q) L) < length (lapic_entries m L))%nat.
Proof.
  unfold lapic_entries. intros Hp Hu.
  assert (Hle : forall L', (length (List.filter (fun q => is_lapic m q && lapic_usable m q) L') <=
                            length (List.filter (is_lapic m) L'))%nat).
  { induction L' as [|q L' IH]; [done|]. cbn [List.filter]. destruct (is_lapic m q), (lapic_usable m q); cbn; lia. }
  induction L as [|q L IH]; [by apply elem_of_nil in Hp|]. cbn [List.filter] in *.
  destruct (is_lapic m q) eqn:E; cbn [andb length] in *; [|by apply IH].
  apply elem_of_cons in Hp as [->|Hp].
  - rewrite Hu. specialize (Hle L). lia.
  - specialize (IH Hp). destruct (lapic_usable m q); cbn [length]; lia.
Qed.

(** The subsystem starts from a table, a heap that can serve the array, and a
    memory manager that can map the page. *)
Record init_ready s madt L (a1 : acpi_state V) : Prop := {
  ir_present : apic_present = true;
  ir_enabled : is_apic_enabled = true;
  ir_madt : get_MADT (ap_acpi s) = Ok (madt, a1);
  ir_table : madt_table (acpi_mem a1) madt L;
  ir_vm : mp_ok (acpi_vm a1);
  ir_heap : exists B, hp_inv (ap_heap s) B /\
    hp_serves (ap_heap s) (sizeof_LocalAPIC *
      Z.of_nat (length (List.filter (fun p => is_lapic (acpi_mem a1) p && lapic_usable (acpi_mem a1) p) L)))
}.

(** The state when the array has been allocated and cleared. *)
Lemma init_prefix s madt L a1 :
  init_ready s madt L a1 ->
  let m := acpi_mem a1 in
  let n := length (List.filter (fun p => is_lapic m p && lapic_usable m p) L) in
  exists array h1 g, array <> NULL /\
    g = MkLAPICData array (replicate n zero_lapic) (Z.of_nat n) (lapic_base m madt L) (register_space_mapping (lapic_gdata s)) /\
    init_apic_subsystem s =
      bind (fill_apic_array madt) (fun _ =>
        KASSERT (lapic_base m madt L mod PAGE_SIZE =? 0);;
        h <- zoom acpi_lens (zoom acpi_vm_lens (mp_memory_map (lapic_base m madt L) APIC_REGISTER_SPACE_SIZE PAGE_WRITABLE_CACHE_DISABLE));;
        modify (fun s => let g := lapic_gdata s in
          set_gdata (MkLAPICData (lapic_array g) (lapics g) (lapic_array_size g) (lapic_base_address g) h) s);;
        modify (add_handler APIC_ERROR_VECTOR);;
        ret true) (set_gdata g (put ap_heap_lens h1 (put acpi_lens a1 s))) /\
    exists B k, hp_inv h1 (<[array := k]> B) /\ sizeof_LocalAPIC * Z.of_nat n <= k.
Proof.
  intros [Hp He Hm HT Hv (B & HI & HS)] m n.
  destruct (hp_kmalloc_ok _ _ _ HI HS) as (array & k & h1 & RK & Hk & _ & _ & Ha & HI1 & _).
  exists array, h1, (MkLAPICData array (replicate n zero_lapic) (Z.of_nat n) (lapic_base m madt L) (register_space_mapping (lapic_gdata s))).
  split; [unfold NULL; lia|]. split; [done|]. split; [|by exists B, k].
  unfold init_apic_subsystem. rewrite Hp, He. cbn [negb].
  set (s1 := put acpi_lens a1 s).
  rewrite (bind_ok _ _ s madt s1) by (unfold zoom; cbn [view acpi_lens]; by rewrite Hm).
  rewrite (madt_not_null _ _ _ HT). rewrite (bind_ok _ _ s1 m s1) by done.
  rewrite (bind_ok _ _ _ _ _ (count_local_apic_spec m madt L s1 HT)).
  rewrite (bind_ok _ _ _ _ _ (lapic_base_run m madt L s1 eq_refl HT)). fold n.
  assert (Hn : sizeof_LocalAPIC * Z.of_nat n < 2 ^ 64).
  { unfold n, sizeof_LocalAPIC. destruct HT as (H0 & H1 & HL0). apply ics_chain_length in HL0.
    assert (length (List.filter (fun p => is_lapic m p && lapic_usable m p) L) <= length L)%nat by apply List.filter_length_le.
    pose proof (load_le_range 4 m (madt + 4)) as Hr. fold load32 in Hr. fold (table_lenght m madt) in Hr.
    unfold sizeof_MADT in HL0. change (256 ^ Z.of_nat 4) with 4294967296 in Hr. unfold m in *. lia. }
  rewrite wrap64_small by (unfold sizeof_LocalAPIC in *; lia).
  rewrite (bind_ok _ _ s1 array (put ap_heap_lens h1 s1)).
  2:{ unfold zoom. cbn [view ap_heap_lens]. change (ap_heap s1) with (ap_heap s). unfold n, m. by rewrite RK. }
  rewrite Nat2Z.id. reflexivity.
Qed.

(** With every controller usable, each one of the table is described in order,
    with the source of its non-maskable interrupt, and the page of the
    registers is mapped. *)
(** C21: On a machine whose table lists only usable local controllers
    init_apic_subsystem fills one entry per controller with the NMI line that applies to
    it, maps the register page of the controller (the override address when there is
    one), installs the error handler and returns true. *)
Theorem init_apic_subsystem_correct s madt L a1 :
  let m := acpi_mem a1 in
  init_ready s madt L a1 -> lapic_usable_all m L ->
  NoDup (uid_of m <$> (lapic_of m <$> lapic_entries m L)) -> nmis_known m L (lapic_of m <$> lapic_entries m L) ->
  lapic_base m madt L mod PAGE_SIZE = 0 -> 0 <= lapic_base m madt L < 2 ^ 47 ->
  exists s', init_apic_subsystem s = Ok (true, s') /\
    lapics (lapic_gdata s') = (fun p => with_nmi m L (lapic_of m p)) <$> lapic_entries m L /\
    lapic_array_size (lapic_gdata s') = Z.of_nat (length (lapics (lapic_gdata s'))) /\
    mapped s' /\ (forall i, 0 <= i < PAGE_SIZE -> mp_translate (acpi_vm (ap_acpi s')) (lapic_reg s' i) = lapic_base m madt L + i) /\
    ap_handlers s' = APIC_ERROR_VECTOR :: ap_handlers s /\ ap_bus s' = ap_bus s /\ ap_if s' = ap_if s.
Proof.
  intros m HR Hu Hd Hk Hb0 Hb1.
  destruct (init_prefix _ _ _ _ HR) as (array & h1 & g & Ha & Eg & -> & _). fold m in Eg |- *.
  destruct HR as [_ _ _ HT Hv _]. fold m in HT. rewrite (usable_count m L Hu) in Eg.
  set (s0 := set_gdata g _). pose proof (madt_not_null _ _ _ HT) as Hnn.
  set (ents := lapic_entries m L) in *.
  assert (Hlen : Z.of_nat (length ents) < 2 ^ 64).
  { pose proof (madt_table_length _ _ _ HT). assert (length ents <= length L)%nat by apply List.filter_length_le. lia. }
  assert (RF : fill_apic_array madt s0 = Ok (tt, with_lapics (with_nmi m L <$> (lapic_of m <$> ents)) s0)).
  { unfold fill_apic_array. rewrite Hnn. rewrite (bind_ok _ _ s0 tt s0) by done. rewrite (bind_ok _ _ s0 m s0) by done.
    pose proof (fill_lapic_loop m L [] (length ents) s0) as F1. cbn [length app Nat.add] in F1.
    change (Z.of_nat 0) with 0 in F1.
    rewrite (bind_ok _ _ s0 (Z.of_nat (length ents)) (with_lapics (lapic_of m <$> ents) s0)).
    2:{ rewrite (for_each_ICS_spec _ _ _ _ _ _ HT). fold ents in F1. rewrite F1; [|by subst g|by subst g|lia|lia].
        by rewrite Nat.sub_diag, app_nil_r. }
    unfold bind at 1, gets. rewrite (bind_ok _ _ _ tt (with_lapics (lapic_of m <$> ents) s0)).
    2:{ apply KASSERT_ok. subst g. cbn. apply Z.eqb_refl. }
    rewrite (for_each_ICS_spec _ _ _ _ _ _ HT), (fill_nmi_loop m L (lapic_of m <$> ents)); try done.
    - by subst g.
    - intros y Hy. apply list_elem_of_fmap in Hy as (p & -> & Hp). cbn [lapic_of ics_lapic].
      destruct HT as (H0 & _ & HL0). apply list_elem_of_In, List.filter_In in Hp as [Hp _].
      apply list_elem_of_In in Hp. apply (ics_chain_elem _ _ _ _ _ HL0) in Hp. unfold NULL, sizeof_MADT in *. lia. }
  rewrite (bind_ok _ _ _ _ _ RF). set (s1 := with_lapics _ s0).
  rewrite (bind_ok _ _ s1 tt s1) by (apply KASSERT_ok; by apply Z.eqb_eq).
  destruct (mp_map_ok (acpi_vm a1) (lapic_base m madt L) APIC_REGISTER_SPACE_SIZE PAGE_WRITABLE_CACHE_DISABLE Hv)
    as (h & v' & RM & Ok' & Hinv & A0 & A1 & T & _); [done|done|done|done|].
  rewrite (bind_ok _ _ s1 h (put acpi_lens (put acpi_vm_lens v' a1) s1)).
  2:{ unfold zoom. cbn [view acpi_lens acpi_vm_lens s1 with_lapics set_gdata ap_acpi s0 put ap_heap_lens]. by rewrite RM. }
  subst g. eexists. split; [reflexivity|]. cbn. split_and!; try done.
  - by rewrite <-list_fmap_compose.
  - by rewrite !length_fmap.
  - intros i Hi. unfold lapic_reg. cbn. unfold APIC_REGISTER_SPACE_SIZE, PAGE_SIZE in *. rewrite wrap64_small by lia. by apply T.
Qed.

(** The count skips a controller that is neither enabled nor can be; the fill
    does not, and runs past the array. *)
Theorem init_apic_subsystem_unusable_panics s madt L a1 p :
  init_ready s madt L a1 -> p ∈ lapic_entries (acpi_mem a1) L -> lapic_usable (acpi_mem a1) p = false ->
  init_apic_subsystem s = Panic FAILED_ASSERT.
Proof.
  intros HR Hp Hu. destruct (init_prefix _ _ _ _ HR) as (array & h1 & g & Ha & Eg & -> & _).
  destruct HR as [_ _ _ HT Hv _]. set (m := acpi_mem a1) in *. set (s0 := set_gdata g _).
  unfold bind at 1, fill_apic_array. rewrite (madt_not_null _ _ _ HT).
  rewrite (bind_ok _ _ s0 tt s0) by done. rewrite (bind_ok _ _ s0 m s0) by done.
  unfold bind at 1. rewrite (for_each_ICS_spec _ _ _ _ _ _ HT).
  pose proof (unusable_count m L p Hp Hu) as Hlt.
  assert (Hlen : Z.of_nat (length (lapic_entries m L)) < 2 ^ 64).
  { pose proof (madt_table_length _ _ _ HT).
    assert (length (lapic_entries m L) <= length L)%nat by apply List.filter_length_le. lia. }
  pose proof (fun k => fill_lapic_overflow m L [] k s0) as F. change (Z.of_nat (length [])) with 0 in F.
  erewrite F; [done|by subst g|by subst g|done|cbn [length Nat.add]; lia].
Qed.
End init.
