(* ===== verification/Ioapic.v ===== *)
(** * The I/O interrupt controllers (interrupt/ioapic.c, interrupt/ioapic.h)

    Each controller has a select register and a window at its page; the
    redirection table is behind them.  The state adds the two arrays built from
    the MADT and the lock to the state of the local controllers. *)

From stdpp Require Import strings.
From S2P Require Import Prelude Memory Sync Interfaces Shootdown Bus Acpi Madt Apic ApicTop.
Import Sequential.

Definition IOAPICID_OFFSET : Z := 0x0.
Definition IOAPICVER_OFFSET : Z := 0x1.
Definition IOREDTBL_OFFSET_START : Z := 0x10.
Definition sizeof_IOAPIC : Z := 40.
Definition MPS_INTI_POLARITY_RESERVED : Z := 2.
Definition MPS_INTI_TRIGGER_MODE_RESERVED : Z := Z.shiftl 2 2.

Record IOAPIC : Type := MkIOAPIC {
  ics_ioapic : Z; physical_base_address : Z; ioapic_mmap : VMemHandle;
  ioapic_id : Z; version : Z; maximum_redirection_entry : Z
}.
Definition zero_ioapic : IOAPIC := MkIOAPIC NULL NULL invalid_handle 0 0 0.

(** Pointers and the arrays they point to. *)
Record IOAPICSubsystemData : Type := MkIOAPICData {
  ioapic_array : Z; ioapics : list IOAPIC; ioapic_array_size : Z;
  source_override_array : Z; source_overrides : list Z; source_override_array_size : Z
}.

Record IOAPICInterruptRedirection : Type := MkRedirection {
  reidirect_to_lowest_priority : bool; apic_id_to_redirect : Z; trigger_mode : Z; polarity : Z; mask : bool; vector : Z
}.

Record ISA_irq_fix : Type := MkFix {
  irq_override : bool; polarity_override : bool; trigger_override : bool;
  fix_irq : Z; fix_polarity : Z; fix_trigger_mode : Z
}.

Record ioapic_state (V H : Type) : Type := IoapicState {
  io_apic : apic_state V H; ioapic_gdata : IOAPICSubsystemData; ioapic_lock : bool
}.
Arguments IoapicState {V H}.
Arguments io_apic {V H}.
Arguments ioapic_gdata {V H}.
Arguments ioapic_lock {V H}.

Definition lens_comp {A B C} (l1 : lens A B) (l2 : lens B C) : lens A C :=
  Lens (fun a => view l2 (view l1 a)) (fun c a => put l1 (put l2 c (view l1 a)) a).

Section ops.
Context {V H : Type} {MP : MappingProvider V} {HP : HeapProvider H} {DV : Device}.
#[local] Abbreviation state := (ioapic_state V H).

Definition apic_lens : lens state (apic_state V H) := Lens io_apic (fun a s => IoapicState a (ioapic_gdata s) (ioapic_lock s)).
Definition io_if_lens : lens state bool := lens_comp apic_lens ap_if_lens.
Definition io_bus_lens : lens state history := lens_comp apic_lens bus_lens.
Definition io_lock_lens : lens state bool := Lens ioapic_lock (fun b s => IoapicState (io_apic s) (ioapic_gdata s) b).
Definition set_io_gdata (g : IOAPICSubsystemData) (s : state) : state := IoapicState (io_apic s) g (ioapic_lock s).
Definition io_mem (s : state) : mem := the_mem (io_apic s).

Definition set_ioapics (l : list IOAPIC) (g : IOAPICSubsystemData) : IOAPICSubsystemData :=
  MkIOAPICData (ioapic_array g) l (ioapic_array_size g) (source_override_array g) (source_overrides g)
    (source_override_array_size g).
Definition set_overrides (l : list Z) (g : IOAPICSubsystemData) : IOAPICSubsystemData :=
  MkIOAPICData (ioapic_array g) (ioapics g) (ioapic_array_size g) (source_override_array g) l
    (source_override_array_size g).

Definition write_ioapic (i : nat) (x : IOAPIC) : M state unit := fun s =>
  match ioapics (ioapic_gdata s) !! i with
  | Some _ => Ok (tt, set_io_gdata (set_ioapics (<[i := x]> (ioapics (ioapic_gdata s))) (ioapic_gdata s)) s)
  | None => Fault
  end.
Definition write_override (i : nat) (p : Z) : M state unit := fun s =>
  match source_overrides (ioapic_gdata s) !! i with
  | Some _ => Ok (tt, set_io_gdata (set_overrides (<[i := p]> (source_overrides (ioapic_gdata s))) (ioapic_gdata s)) s)
  | None => Fault
  end.

(** ** Registers *)

Definition get_ioapic_virtual_base_address (ioapic : IOAPIC) : M state Z :=
  gets (fun s => mp_vmem_addr (ioapic_mmap ioapic) (acpi_vm (ap_acpi (io_apic s)))).

Definition write_32_ioapic_register (ioapic : IOAPIC) (offset value : Z) : M state unit :=
  base <- get_ioapic_virtual_base_address ioapic;;
  istate <- disable_and_save_interrupts io_if_lens;;
  zoom io_bus_lens (reg_write8 base offset);;
  zoom io_bus_lens (reg_write32 (base + 0x10) value);;
  restore_interrupt_state io_if_lens istate.

Definition read_32_ioapic_register (ioapic : IOAPIC) (offset : Z) : M state Z :=
  base <- get_ioapic_virtual_base_address ioapic;;
  istate <- disable_and_save_interrupts io_if_lens;;
  zoom io_bus_lens (reg_write8 base offset);;
  value <- zoom io_bus_lens (reg_read32 (base + 0x10));;
  restore_interrupt_state io_if_lens istate;;
  ret value.

Definition write_64_ioapic_register (ioapic : IOAPIC) (offset value : Z) : M state unit :=
  let low_value := Z.land value 0xffffffff in
  let high_value := Z.land (Z.shiftr value 32) 0xffffffff in
  let offset := wrap8 offset in
  istate <- disable_and_save_interrupts io_if_lens;;
  write_32_ioapic_register ioapic offset low_value;;
  write_32_ioapic_register ioapic (offset + 1) high_value;;
  restore_interrupt_state io_if_lens istate.

Definition read_64_ioapic_register (ioapic : IOAPIC) (offset : Z) : M state Z :=
  let offset := wrap8 offset in
  istate <- disable_and_save_interrupts io_if_lens;;
  low <- read_32_ioapic_register ioapic offset;;
  high <- read_32_ioapic_register ioapic (offset + 1);;
  restore_interrupt_state io_if_lens istate;;
  ret (Z.lor low (Z.shiftl high 32)).

(** ** Initialisation *)

Definition fill_ioapic (m : mem) (header index : Z) : M state (Z * bool) :=
  if ics_type m header =? ICS_TYPE_PROCESSOR_IO_APIC then
    g <- gets ioapic_gdata;;
    KASSERT (index <? ioapic_array_size g);;
    write_ioapic (Z.to_nat index)
      (MkIOAPIC header (ics_IO_APIC_address (read_ICS_IO_APIC m header)) invalid_handle 0 0 0);;
    ret (wrap64 (index + 1), false)
  else ret (index, false).

Definition fill_ioapic_array (madt : Z) : M state unit :=
  KASSERT (negb (madt =? NULL));;
  g <- gets ioapic_gdata;;
  KASSERT (negb (ioapic_array g =? NULL));;
  m <- gets io_mem;;
  index <- for_each_ICS m madt (fill_ioapic m) 0;;
  g <- gets ioapic_gdata;;
  KASSERT (index =? ioapic_array_size g).

Definition fill_override (m : mem) (header index : Z) : M state (Z * bool) :=
  if ics_type m header =? ICS_TYPE_INTERRUPT_SOURCE_OVERRIDE then
    g <- gets ioapic_gdata;;
    KASSERT (index <? source_override_array_size g);;
    KASSERT (override_bus (read_ICS_interrupt_source_override m header) =? 0);;
    write_override (Z.to_nat index) header;;
    ret (wrap64 (index + 1), false)
  else ret (index, false).

Definition fill_source_override_array (madt : Z) : M state unit :=
  KASSERT (negb (madt =? NULL));;
  g <- gets ioapic_gdata;;
  if source_override_array_size g =? 0 then ret tt else
  KASSERT (negb (source_override_array g =? NULL));;
  m <- gets io_mem;;
  index <- for_each_ICS m madt (fill_override m) 0;;
  g <- gets ioapic_gdata;;
  KASSERT (index =? source_override_array_size g).

(** [maximum_redirection_entry] is a [uint8_t]: 256 entries wrap to none. *)
Definition init_single_ioapic (i : nat) (x : IOAPIC) : M state bool :=
  h <- zoom apic_lens (zoom acpi_lens (zoom acpi_vm_lens
         (mp_memory_map (physical_base_address x) PAGE_SIZE PAGE_WRITABLE_CACHE_DISABLE)));;
  let x := MkIOAPIC (ics_ioapic x) (physical_base_address x) h (ioapic_id x) (version x) (maximum_redirection_entry x) in
  write_ioapic i x;;
  if is_vmemhandle_invalid h then ret false else
  id <- read_32_ioapic_register x IOAPICID_OFFSET;;
  version_reg_data <- read_32_ioapic_register x IOAPICVER_OFFSET;;
  write_ioapic i (MkIOAPIC (ics_ioapic x) (physical_base_address x) h (Z.land (Z.shiftr id 24) 0x0f)
    (Z.land version_reg_data 0xff) (wrap8 (Z.land (Z.shiftr version_reg_data 16) 0xff + 1)));;
  ret true.

Fixpoint init_each (n i : nat) : M state bool :=
  match n with
  | O => ret true
  | S n' =>
      g <- gets ioapic_gdata;;
      match ioapics g !! i with
      | None => fault
      | Some x => ok <- init_single_ioapic i x;; if negb ok then ret false else init_each n' (S i)
      end
  end.

Definition init_ioapics : M state bool :=
  madt <- zoom apic_lens (zoom acpi_lens get_MADT);;
  if madt =? NULL then ret false else
  m <- gets io_mem;;
  count_of_ioapic <- count_ICS_header_instances m madt ICS_TYPE_PROCESSOR_IO_APIC;;
  if count_of_ioapic =? 0 then ret false else
  init_spinlock io_lock_lens;;
  a <- zoom apic_lens (zoom ap_heap_lens (hp_kmalloc (wrap64 (count_of_ioapic * sizeof_IOAPIC))));;
  count_of_source_overrides <- count_ICS_header_instances m madt ICS_TYPE_INTERRUPT_SOURCE_OVERRIDE;;
  old <- gets (fun s => source_override_array (ioapic_gdata s));;
  o <- (if negb (count_of_source_overrides =? 0)
        then zoom apic_lens (zoom ap_heap_lens (hp_kmalloc (wrap64 (count_of_source_overrides * 8)))) else ret old);;
  modify (set_io_gdata (MkIOAPICData a (replicate (Z.to_nat count_of_ioapic) zero_ioapic) count_of_ioapic
                          o (replicate (Z.to_nat count_of_source_overrides) NULL) count_of_source_overrides));;
  fill_ioapic_array madt;;
  fill_source_override_array madt;;
  init_each (Z.to_nat count_of_ioapic) 0.

(** ** Redirection *)

(** The line printed when an override is found. *)
Definition isa_fix_text : string := ("ioapic isa fix!" ++ String (Ascii.ascii_of_nat 10) EmptyString)%string.

Definition no_fix : ISA_irq_fix := MkFix false false false 0 0 0.

(** The loop of [get_isa_fix]; the flags [polarity_override] and
    [trigger_override] are never set. *)
Fixpoint find_fix (m : mem) (irq : Z) (l : list Z) : M state ISA_irq_fix :=
  match l with
  | [] => ret no_fix
  | p :: l' =>
      let iso := read_ICS_interrupt_source_override m p in
      if override_source iso =? irq then
        zoom io_bus_lens (log (ConsoleText isa_fix_text));;
        let polarity_flag := Z.land (override_flags iso) MPS_INTI_POLARITY_MASK in
        let trigger_mode_flag := Z.land (override_flags iso) MPS_INTI_TRIGGER_MODE_MASK in
        pol <- (if negb (polarity_flag =? MPS_INTI_POLARITY_BUS_CONFORM)
                then KASSERT (negb (polarity_flag =? MPS_INTI_POLARITY_RESERVED));;
                     ret (Z.b2z (polarity_flag =? MPS_INTI_POLARITY_ACTIVE_LOW))
                else ret 0);;
        trig <- (if negb (trigger_mode_flag =? MPS_INTI_TRIGGER_MODE_BUS_CONFORM)
                 then KASSERT (negb (trigger_mode_flag =? MPS_INTI_TRIGGER_MODE_RESERVED));;
                      ret (Z.b2z (trigger_mode_flag =? MPS_INTI_TRIGGER_MODE_LEVEL_TRIGGERED))
                 else ret 0);;
        ret (MkFix true false false (override_gsi iso) pol trig)
      else find_fix m irq l'
  end.

Definition get_isa_fix (irq : Z) : M state ISA_irq_fix :=
  g <- gets ioapic_gdata;;
  KASSERT (negb (source_override_array g =? NULL));;
  m <- gets io_mem;;
  find_fix m irq (source_overrides g).

Definition ioredirection_entry (r : IOAPICInterruptRedirection) : M state Z :=
  let entry := vector r in
  entry <- (if reidirect_to_lowest_priority r
            then ret (Z.lor entry (Z.shiftl (delivery_mode_code APIC_DEL_MODE_LOWEST_PRIORITY) 8))
            else KASSERT (Z.land (apic_id_to_redirect r) 0x0f =? apic_id_to_redirect r);;
                 let entry := Z.lor entry (Z.shiftl (delivery_mode_code APIC_DEL_MODE_FIXED) 8) in
                 ret (Z.lor entry (Z.shiftl (apic_id_to_redirect r) 56)));;
  let entry := Z.lor entry (Z.shiftl (polarity r) 13) in
  let entry := Z.lor entry (Z.shiftl (trigger_mode r) 15) in
  ret (Z.lor entry (Z.shiftl (Z.b2z (mask r)) 16)).

Definition gsi_base (m : mem) (x : IOAPIC) : Z := ics_gsi_base (read_ICS_IO_APIC m (ics_ioapic x)).
(** The controller whose inputs include [irq]. *)
Definition serves_irq (m : mem) (irq : Z) (x : IOAPIC) : bool :=
  (gsi_base m x <=? irq) && (irq <? gsi_base m x + maximum_redirection_entry x).

Definition setIOAPICInterruptRedirection (redirection : IOAPICInterruptRedirection) (irq : Z) : M state unit :=
  with_spinlock_hard io_lock_lens io_if_lens
    (isa_fix <- get_isa_fix irq;;
     let irq := if irq_override isa_fix then fix_irq isa_fix else irq in
     let trig := if trigger_override isa_fix then fix_trigger_mode isa_fix else trigger_mode redirection in
     let pol := if polarity_override isa_fix then fix_polarity isa_fix else polarity redirection in
     entry <- ioredirection_entry (MkRedirection (reidirect_to_lowest_priority redirection)
                (apic_id_to_redirect redirection) trig pol (mask redirection) (vector redirection));;
     m <- gets io_mem;;
     g <- gets ioapic_gdata;;
     match List.find (serves_irq m irq) (ioapics g) with
     | None => kpanic FAILED_ASSERT
     | Some ioapic =>
         let interrupt_line := wrap64 (irq - gsi_base m ioapic) in
         let redtbl_offset := wrap64 (IOREDTBL_OFFSET_START + interrupt_line * 2) in
         write_64_ioapic_register ioapic redtbl_offset entry
     end).
End ops.

(** ** I/O interrupt controllers: the redirection of an interrupt line *)

Lemma lor_swap x a b : Z.lor (Z.lor x a) b = Z.lor (Z.lor x b) a.
Proof. by rewrite <-!Z.lor_assoc, (Z.lor_comm a b). Qed.

(** A redirection whose fields fit. *)
Record redirection_ok (r : IOAPICInterruptRedirection) : Prop := {
  ro_vector : 0 <= vector r < 256;
  ro_polarity : 0 <= polarity r <= 1;
  ro_trigger : 0 <= trigger_mode r <= 1;
  ro_dest : 0 <= apic_id_to_redirect r < 16
}.

(** The table entry: its fields at their places. *)
Definition entry_of (r : IOAPICInterruptRedirection) : Z :=
  (if reidirect_to_lowest_priority r then 0 else apic_id_to_redirect r) * 2 ^ 56 + Z.b2z (mask r) * 2 ^ 16 +
  trigger_mode r * 2 ^ 15 + polarity r * 2 ^ 13 + (if reidirect_to_lowest_priority r then 1 else 0) * 2 ^ 8 + vector r.

Section redirect.
Context {V H : Type} {MP : MappingProvider V} {HP : HeapProvider H} {DV : Device}.
#[local] Abbreviation state := (ioapic_state V H).
Implicit Types s : state.

Lemma low_nibble d : 0 <= d < 16 -> Z.land d 0x0f = d.
Proof. intros Hd. change 0x0f with (Z.ones 4). rewrite Z.land_ones by lia. by apply Z.mod_small. Qed.

Lemma entry_run r s : redirection_ok r -> ioredirection_entry r s = Ok (entry_of r, s).
Proof.
  intros [Hv Hp Ht Hd]. unfold ioredirection_entry, entry_of. cbv zeta.
  assert (0 <= Z.b2z (mask r) <= 1) as Hm by (destruct (mask r); cbn; lia).
  destruct (reidirect_to_lowest_priority r); cbn [delivery_mode_code]; unfold bind, ret.
  - do 2 f_equal. rewrite (Z.lor_comm (vector r)), (lor_shiftl_low 8) by lia.
    rewrite (Z.lor_comm _ (Z.shiftl (polarity r) 13)), (lor_shiftl_low 13) by lia.
    rewrite (Z.lor_comm _ (Z.shiftl (trigger_mode r) 15)), (lor_shiftl_low 15) by lia.
    rewrite (Z.lor_comm _ (Z.shiftl (Z.b2z (mask r)) 16)), (lor_shiftl_low 16) by lia. lia.
  - rewrite low_nibble, Z.eqb_refl by done. cbn [KASSERT]. unfold ret. do 2 f_equal.
    rewrite Z.shiftl_0_l, Z.lor_0_r, (lor_swap _ (Z.shiftl (apic_id_to_redirect r) 56)),
      (lor_swap _ (Z.shiftl (apic_id_to_redirect r) 56) (Z.shiftl (trigger_mode r) 15)),
      (lor_swap _ (Z.shiftl (apic_id_to_redirect r) 56) (Z.shiftl (Z.b2z (mask r)) 16)).
    rewrite (Z.lor_comm (vector r)), (lor_shiftl_low 13) by lia.
    rewrite (Z.lor_comm _ (Z.shiftl (trigger_mode r) 15)), (lor_shiftl_low 15) by lia.
    rewrite (Z.lor_comm _ (Z.shiftl (Z.b2z (mask r)) 16)), (lor_shiftl_low 16) by lia.
    rewrite (Z.lor_comm _ (Z.shiftl (apic_id_to_redirect r) 56)), (lor_shiftl_low 56) by lia. lia.
Qed.

(** ** Register accesses *)

Definition ioapic_base s (x : IOAPIC) : Z := mp_vmem_addr (ioapic_mmap x) (acpi_vm (ap_acpi (io_apic s))).

Lemma io_write64_run s x off v :
  0 <= off < 255 ->
  write_64_ioapic_register x off v s =
    Ok (tt, put io_bus_lens (ap_bus (io_apic s) ++
       [RegWrite8 (wrap64 (ioapic_base s x)) off; RegWrite (wrap64 (ioapic_base s x + 0x10)) (v mod 2 ^ 32);
        RegWrite8 (wrap64 (ioapic_base s x)) (off + 1); RegWrite (wrap64 (ioapic_base s x + 0x10)) (v / 2 ^ 32 mod 2 ^ 32)]) s).
Proof.
  intros Ho. unfold write_64_ioapic_register. cbv zeta. change 0xffffffff with (Z.ones 32).
  rewrite !Z.land_ones, Z.shiftr_div_pow2, (wrap_small 8 off) by lia.
  assert (El : wrap32 (v mod 2 ^ 32) = v mod 2 ^ 32) by apply Zmod_mod.
  assert (Eh : wrap32 (v / 2 ^ 32 mod 2 ^ 32) = v / 2 ^ 32 mod 2 ^ 32) by apply Zmod_mod.
  assert (E0 : wrap8 off = off) by (apply wrap_small; lia).
  assert (E1 : wrap8 (off + 1) = off + 1) by (apply wrap_small; lia).
  revert El Eh. generalize (v mod 2 ^ 32) (v / 2 ^ 32 mod 2 ^ 32). intros lo hi El Eh.
  destruct s as [[a h t f g hs] gd lk]. unfold ioapic_base.
  unfold write_32_ioapic_register, get_ioapic_virtual_base_address, disable_and_save_interrupts,
    restore_interrupt_state, reg_write32, reg_write8, log, bind, gets, modify, ret, when, zoom.
  destruct f; cbn -[wrap]; rewrite El, Eh, E0, E1, <-!app_assoc; done.
Qed.

(** ** Source overrides *)

Definition override_for (m : mem) (irq : Z) (l : list Z) : option Z :=
  List.find (fun p => override_source (read_ICS_interrupt_source_override m p) =? irq) l.

(** Neither field of the flags has the reserved value. *)
Definition flags_legal (m : mem) (p : Z) : Prop :=
  Z.land (override_flags (read_ICS_interrupt_source_override m p)) 3 <> 2 /\
  Z.land (override_flags (read_ICS_interrupt_source_override m p)) 12 <> 8.

Definition isa_target (m : mem) (irq : Z) (l : list Z) : Z :=
  match override_for m irq l with Some p => override_gsi (read_ICS_interrupt_source_override m p) | None => irq end.

(** What the search prints. *)
Definition fix_output (m : mem) (irq : Z) (l : list Z) : history :=
  match override_for m irq l with Some _ => [ConsoleText isa_fix_text] | None => [] end.

Lemma find_fix_run m irq l s :
  (forall p, override_for m irq l = Some p -> flags_legal m p) ->
  exists f, find_fix m irq l s = Ok (f, put io_bus_lens (ap_bus (io_apic s) ++ fix_output m irq l) s) /\ polarity_override f = false /\ trigger_override f = false /\
    (if irq_override f then fix_irq f else irq) = isa_target m irq l.
Proof.
  unfold isa_target, fix_output, override_for. induction l as [|p l IH]; intros Hl.
  { exists no_fix. rewrite app_nil_r. by destruct s as [[]]. }
  cbn [find_fix List.find] in *. destruct (_ =? irq); [|by apply IH].
  erewrite bind_ok by reflexivity.
  destruct (Hl p eq_refl) as [H1 H2]. unfold MPS_INTI_POLARITY_MASK, MPS_INTI_TRIGGER_MODE_MASK,
    MPS_INTI_POLARITY_RESERVED, MPS_INTI_TRIGGER_MODE_RESERVED. change (Z.shiftl 3 2) with 12. change (Z.shiftl 2 2) with 8.
  rewrite (proj2 (Z.eqb_neq _ _) H1), (proj2 (Z.eqb_neq _ _) H2). cbn [negb KASSERT].
  destruct (negb (Z.land _ 3 =? _)), (negb (Z.land _ 12 =? _)); eexists; by split_and!.
Qed.

(** The whole operation: four register writes put the entry of the redirection
    at the place of the line in the table of the controller that serves it.
    The line is the overridden one; the polarity and the trigger mode are those
    of the caller even when an override gives others. *)
(** C23: With a table of interrupt source overrides (without one the code fails its
    assertion, ioapic.c:109) whose flags for the line are legal,
    setIOAPICInterruptRedirection selects, in the controller that serves the line after
    the override, the two halves of the redirection entry with 8-bit stores and writes
    an entry with the vector, delivery mode, destination, polarity, trigger mode and
    mask of the request; when there is an override it prints a line first. Polarity and
    trigger mode are those of the request also when the override gives others, which the
    comments of ioapic.h and pit.c do not say (ioapic.c:116). *)
Theorem ioapic_redirection_correct s r irq x :
  let m := io_mem s in
  let irq' := isa_target m irq (source_overrides (ioapic_gdata s)) in
  let line := irq' - gsi_base m x in
  ioapic_lock s = false -> source_override_array (ioapic_gdata s) <> NULL ->
  (forall p, override_for m irq (source_overrides (ioapic_gdata s)) = Some p -> flags_legal m p) ->
  List.find (serves_irq m irq') (ioapics (ioapic_gdata s)) = Some x -> maximum_redirection_entry x <= 119 ->
  redirection_ok r ->
  exists low high,
    setIOAPICInterruptRedirection r irq s =
      Ok (tt, put io_bus_lens (ap_bus (io_apic s) ++ fix_output m irq (source_overrides (ioapic_gdata s)) ++
        [RegWrite8 (wrap64 (ioapic_base s x)) (0x10 + 2 * line); RegWrite (wrap64 (ioapic_base s x + 0x10)) low;
         RegWrite8 (wrap64 (ioapic_base s x)) (0x11 + 2 * line); RegWrite (wrap64 (ioapic_base s x + 0x10)) high]) s) /\
    low + 2 ^ 32 * high = entry_of r.
Proof.
  cbv zeta. intros Hl Ho Hf Hx Hmax Hr. set (irq' := isa_target _ _ _) in *. set (m := io_mem s) in *.
  set (line := irq' - gsi_base m x).
  assert (Hline : 0 <= line < maximum_redirection_entry x).
  { apply List.find_some in Hx as [_ Hx]. unfold serves_irq in Hx. apply andb_true_iff in Hx as [Hx1 Hx2].
    apply Z.leb_le in Hx1. apply Z.ltb_lt in Hx2. lia. }
  assert (He : 0 <= entry_of r < 2 ^ 64).
  { destruct Hr as [R1 R2 R3 R4]. unfold entry_of. destruct (reidirect_to_lowest_priority r), (mask r); cbn; lia. }
  exists (entry_of r mod 2 ^ 32), (entry_of r / 2 ^ 32 mod 2 ^ 32). split; [|lia].
  unfold setIOAPICInterruptRedirection.
  set (s1 := put io_lock_lens true (put io_if_lens false s)).
  destruct (find_fix_run m irq (source_overrides (ioapic_gdata s)) s1 Hf) as (f & Rf & Fp & Ft & Fi). fold irq' in Fi.
  set (s2 := put io_bus_lens (ap_bus (io_apic s1) ++ fix_output m irq (source_overrides (ioapic_gdata s))) s1) in Rf.
  erewrite with_spinlock_hard_run; [|by destruct s as [[]]|].
  2:{ fold s1. rewrite (bind_ok _ _ s1 f s2).
      2:{ unfold get_isa_fix. unfold bind at 1, gets. rewrite (bind_ok _ _ s1 tt s1).
          2:{ apply KASSERT_ok. apply negb_true_iff, Z.eqb_neq. exact Ho. }
          unfold bind. exact Rf. }
      cbv zeta. rewrite Fi, Fp, Ft.
      rewrite (bind_ok _ _ _ _ _ (entry_run _ s2 ltac:(by destruct r, Hr))).
      rewrite (bind_ok _ _ s2 m s2) by done. rewrite (bind_ok _ _ s2 (ioapic_gdata s) s2) by done. rewrite Hx.
      fold line. unfold IOREDTBL_OFFSET_START. rewrite (wrap64_small line), (wrap64_small (0x10 + line * 2)) by lia.
      apply io_write64_run. lia. }
  replace (0x10 + line * 2 + 1) with (0x11 + 2 * line) by lia. replace (0x10 + line * 2) with (0x10 + 2 * line) by lia.
  unfold s2, s1. destruct s as [[a h t fl g hs] gd lk]. cbn in Hl. subst lk. cbn -[wrap64 fix_output].
  rewrite <-app_assoc. destruct r, fl; reflexivity.
Qed.

(** A machine whose table has no override keeps the pointer to the overrides at
    NULL, and every redirection panics. *)
Theorem ioapic_no_override_panics s r irq :
  ioapic_lock s = false -> source_override_array (ioapic_gdata s) = NULL ->
  setIOAPICInterruptRedirection r irq s = Panic FAILED_ASSERT.
Proof.
  intros Hl Ho. destruct s as [[a h t fl g hs] gd lk]. cbn in Hl, Ho. subst lk.
  unfold setIOAPICInterruptRedirection, with_spinlock_hard, acquire_spinlock_hard,
    disable_and_save_interrupts, test_and_set, get_isa_fix, bind, gets, modify, ret.
  cbn -[ioredirection_entry]. unfold NULL in *. by rewrite Ho.
Qed.
End redirect.
