(* ===== verification/Pic.v ===== *)
(** * The legacy interrupt controllers (interrupt/pic.c, interrupt/pic.h)

    Two cascaded controllers behind four ports.  The kernel only initialises
    and masks them, and acknowledges what they still deliver. *)

From S2P Require Import Prelude Memory Sync Interfaces Bus.
Import Sequential.

Definition MASTER_COMMAND_PORT : Z := 0x0020.
Definition MASTER_DATA_PORT : Z := 0x0021.
Definition SLAVE_COMMAND_PORT : Z := 0x00A0.
Definition SLAVE_DATA_PORT : Z := 0x00A1.
Definition PIC_IDT_START : Z := 0x20.
Definition PIC_IDT_SIZE : Z := 16.
Definition MASTER_OFFSET : Z := PIC_IDT_START.
Definition SLAVE_OFFSET : Z := MASTER_OFFSET + 8.
Definition PIC_EOI : Z := 0x20.
Definition ICW1_ICW4 : Z := 0x01.
Definition ICW1_INIT : Z := 0x10.
Definition ICW4_8086 : Z := 0x01.
Definition PIC_READ_ISR : Z := 0x0B.

Record pic_state : Type := PicState { pic_bus : history; pic_if : bool; pic_lock : bool }.

Section ops.
Context {DV : Device}.

Definition pic_bus_lens : lens pic_state history := Lens pic_bus (fun t s => PicState t (pic_if s) (pic_lock s)).
Definition pic_if_lens : lens pic_state bool := Lens pic_if (fun b s => PicState (pic_bus s) b (pic_lock s)).
Definition pic_lock_lens : lens pic_state bool := Lens pic_lock (fun b s => PicState (pic_bus s) (pic_if s) b).

Definition pic_out (port value : Z) : M pic_state unit := zoom pic_bus_lens (outb port value).
Definition pic_in (port : Z) : M pic_state Z := zoom pic_bus_lens (inb port).
Definition pic_wait : M pic_state unit := zoom pic_bus_lens io_wait.
Definition locked {A} (body : M pic_state A) : M pic_state A := with_spinlock_hard pic_lock_lens pic_if_lens body.

Definition pic_ack_interrupt (interrupt_number : Z) (spurious : bool) : M pic_state unit :=
  locked
    (if spurious then
       when (wrap64 (interrupt_number - PIC_IDT_START) =? 15) (pic_out MASTER_COMMAND_PORT PIC_EOI)
     else
       when (8 <=? wrap64 (interrupt_number - PIC_IDT_START)) (pic_out SLAVE_COMMAND_PORT PIC_EOI);;
       pic_out MASTER_COMMAND_PORT PIC_EOI).

Definition init_pic : M pic_state unit :=
  init_spinlock pic_lock_lens;;
  pic_out MASTER_COMMAND_PORT (Z.lor ICW1_INIT ICW1_ICW4);; pic_wait;;
  pic_out SLAVE_COMMAND_PORT (Z.lor ICW1_INIT ICW1_ICW4);; pic_wait;;
  pic_out MASTER_DATA_PORT MASTER_OFFSET;; pic_wait;;
  pic_out SLAVE_DATA_PORT SLAVE_OFFSET;; pic_wait;;
  pic_wait;;
  pic_out MASTER_DATA_PORT 4;; pic_wait;;
  pic_out SLAVE_DATA_PORT 2;; pic_wait;;
  pic_out MASTER_DATA_PORT ICW4_8086;; pic_wait;;
  pic_out SLAVE_DATA_PORT ICW4_8086;; pic_wait;;
  pic_out SLAVE_DATA_PORT 0xFF;;
  pic_out MASTER_DATA_PORT 0xFF.

(** The port and the bit of a line; the line is a [uint8_t]. *)
Definition pic_line (irq_line : Z) : Z * Z :=
  let irq_line := wrap8 (irq_line - PIC_IDT_START) in
  if irq_line <? 8 then (MASTER_DATA_PORT, irq_line) else (SLAVE_DATA_PORT, irq_line - 8).

Definition set_pic_irq_mask (irq_line : Z) : M pic_state unit :=
  let '(port, irq_line) := pic_line irq_line in
  locked
    (old <- pic_in port;;
     let value := wrap8 (Z.lor old (Z.shiftl 1 irq_line)) in
     pic_out port value).

Definition clear_pic_irq_mask (irq_line : Z) : M pic_state unit :=
  let '(port, irq_line) := pic_line irq_line in
  locked
    (old <- pic_in port;;
     let value := wrap8 (Z.land old (Z.lnot (Z.shiftl 1 irq_line))) in
     pic_out port value).

(** Both halves are read from the slave. *)
Definition get_pic_isr : M pic_state Z :=
  locked
    (pic_out MASTER_COMMAND_PORT PIC_READ_ISR;;
     pic_out SLAVE_COMMAND_PORT PIC_READ_ISR;;
     high <- pic_in SLAVE_COMMAND_PORT;;
     low <- pic_in SLAVE_COMMAND_PORT;;
     ret (wrap16 (Z.lor (Z.shiftl high 8) low))).

Definition is_pic_interrupt_spurious (interrupt_number : Z) : M pic_state bool :=
  let irq := wrap8 (interrupt_number - PIC_IDT_START) in
  if irq =? 7 then isr <- get_pic_isr;; ret (Z.land isr (Z.shiftl 1 irq) =? 0)
  else ret false.

Definition disable_pic : M pic_state unit :=
  locked (pic_out SLAVE_DATA_PORT 0xFF;; pic_out MASTER_DATA_PORT 0xFF).

(** ** What the ports see *)

Lemma locked_run {A} (body : M pic_state A) s a t :
  pic_lock s = false ->
  body (PicState (pic_bus s) false true) = Ok (a, PicState t false true) ->
  locked body s = Ok (a, PicState t (pic_if s) false).
Proof.
  intros Hl Hb. unfold locked. destruct s as [t0 f lk]. cbn in Hl. subst lk.
  erewrite with_spinlock_hard_run; [|done|exact Hb]. by destruct f.
Qed.

(** After the initialisation and the disabling both controllers are remapped to
    the vectors 0x20 to 0x2f and every line is masked. *)
Definition data_writes (t : history) : list (Z * Z) :=
  omap (fun e => match e with
                 | PortOut _ p v => if (p =? MASTER_DATA_PORT) || (p =? SLAVE_DATA_PORT) then Some (p, v) else None
                 | _ => None end) t.

Lemma pic_out_bind {A} p v (k : unit -> M pic_state A) s :
  bind (pic_out p v) k s = k tt (PicState (pic_bus s ++ [PortOut 8 (wrap16 p) (wrap8 v)]) (pic_if s) (pic_lock s)).
Proof. done. Qed.
Lemma pic_out_run p v s :
  pic_out p v s = Ok (tt, PicState (pic_bus s ++ [PortOut 8 (wrap16 p) (wrap8 v)]) (pic_if s) (pic_lock s)).
Proof. done. Qed.
Lemma pic_wait_bind {A} (k : unit -> M pic_state A) s :
  bind pic_wait k s = k tt (PicState (pic_bus s ++ [PortOut 8 0x80 0]) (pic_if s) (pic_lock s)).
Proof. done. Qed.

Lemma init_pic_run s :
  init_pic s = Ok (tt, PicState (pic_bus s ++
    [PortOut 8 0x20 0x11; PortOut 8 0x80 0; PortOut 8 0xA0 0x11; PortOut 8 0x80 0;
     PortOut 8 0x21 0x20; PortOut 8 0x80 0; PortOut 8 0xA1 0x28; PortOut 8 0x80 0; PortOut 8 0x80 0;
     PortOut 8 0x21 4; PortOut 8 0x80 0; PortOut 8 0xA1 2; PortOut 8 0x80 0;
     PortOut 8 0x21 1; PortOut 8 0x80 0; PortOut 8 0xA1 1; PortOut 8 0x80 0;
     PortOut 8 0xA1 0xFF; PortOut 8 0x21 0xFF]) (pic_if s) false).
Proof.
  unfold init_pic. rewrite (bind_ok _ _ s tt (PicState (pic_bus s) (pic_if s) false)) by done.
  repeat (rewrite pic_out_bind || rewrite pic_wait_bind; cbn beta iota delta [pic_bus pic_if pic_lock]).
  rewrite pic_out_run. cbn beta iota delta [pic_bus pic_if pic_lock]. rewrite <-!app_assoc. reflexivity.
Qed.

Lemma disable_pic_run s :
  pic_lock s = false ->
  disable_pic s = Ok (tt, PicState (pic_bus s ++ [PortOut 8 0xA1 0xFF; PortOut 8 0x21 0xFF]) (pic_if s) false).
Proof.
  intros Hl. apply locked_run; [done|]. unfold pic_out, outb, port_out, log, bind, zoom, modify. cbn -[app].
  by rewrite <-app_assoc.
Qed.

(** A mask update changes one bit of the mask of one controller. *)
Lemma mask_bit old k i : 0 <= old < 256 -> 0 <= k < 8 -> 0 <= i < 8 ->
  Z.testbit (wrap8 (Z.lor old (Z.shiftl 1 k))) i = (Z.testbit old i || (i =? k)) /\
  Z.testbit (wrap8 (Z.land old (Z.lnot (Z.shiftl 1 k)))) i = (Z.testbit old i && negb (i =? k)).
Proof.
  intros Ho Hk Hi. unfold wrap. rewrite !Z.mod_pow2_bits_low, Z.lor_spec, Z.land_spec, Z.lnot_spec by lia.
  rewrite Z.shiftl_1_l, Z.pow2_bits_eqb by lia. by rewrite (Z.eqb_sym k i).
Qed.

Theorem pic_mask_updates_one_line s n :
  pic_lock s = false -> PIC_IDT_START <= n < PIC_IDT_START + PIC_IDT_SIZE ->
  let port := if n <? 0x28 then MASTER_DATA_PORT else SLAVE_DATA_PORT in
  let line := (n - PIC_IDT_START) mod 8 in
  exists old set clr,
    old = wrap8 (port_value (pic_bus s) port) /\
    set_pic_irq_mask n s = Ok (tt, PicState (pic_bus s ++ [PortIn 8 port old; PortOut 8 port set]) (pic_if s) false) /\
    clear_pic_irq_mask n s = Ok (tt, PicState (pic_bus s ++ [PortIn 8 port old; PortOut 8 port clr]) (pic_if s) false) /\
    forall i, 0 <= i < 8 -> Z.testbit set i = (Z.testbit old i || (i =? line)) /\
                            Z.testbit clr i = (Z.testbit old i && negb (i =? line)).
Proof.
  intros Hl Hn port line. unfold PIC_IDT_START, PIC_IDT_SIZE in *.
  set (old := wrap8 (port_value (pic_bus s) port)).
  assert (El : pic_line n = (port, line)).
  { unfold pic_line, PIC_IDT_START, port, line. rewrite (wrap_small 8) by lia.
    destruct (Z.ltb_spec (n - 32) 8), (Z.ltb_spec n 40); try lia; f_equal; lia. }
  assert (Hp : wrap16 port = port) by (unfold port; by destruct (n <? 40)).
  exists old, (wrap8 (Z.lor old (Z.shiftl 1 line))), (wrap8 (Z.land old (Z.lnot (Z.shiftl 1 line)))).
  split_and!; [done| | |].
  1,2: unfold set_pic_irq_mask, clear_pic_irq_mask; rewrite El; apply locked_run; [done|].
  1,2: unfold pic_in, pic_out, inb, outb, port_in, port_out, log, bind, zoom, modify, gets, ret; cbn -[app wrap].
  1,2: rewrite Hp, <-app_assoc; fold old; rewrite (wrap_small 8 (wrap8 _)) by (apply (wrap_range 8); lia); reflexivity.
  intros i Hi. apply mask_bit; [apply (wrap_range 8); lia|unfold line; lia|done].
Qed.

(** The spurious test of line 7 asks the slave twice and never the master, whose
    line 7 it is about. *)
Lemma get_pic_isr_run s :
  pic_lock s = false ->
  exists high low, get_pic_isr s =
    Ok (wrap16 (Z.lor (Z.shiftl high 8) low),
        PicState (pic_bus s ++ [PortOut 8 MASTER_COMMAND_PORT PIC_READ_ISR; PortOut 8 SLAVE_COMMAND_PORT PIC_READ_ISR;
                               PortIn 8 SLAVE_COMMAND_PORT high; PortIn 8 SLAVE_COMMAND_PORT low]) (pic_if s) false).
Proof.
  intros Hl. eexists _, _. apply locked_run; [done|].
  unfold pic_in, pic_out, inb, outb, port_in, port_out, log, bind, zoom, modify, gets, ret. cbn -[app wrap].
  by rewrite <-!app_assoc.
Qed.

(** The acknowledgement of a line of the slave goes to both controllers. *)
Lemma pic_ack_run s n :
  pic_lock s = false -> PIC_IDT_START <= n < PIC_IDT_START + PIC_IDT_SIZE ->
  pic_ack_interrupt n false s =
    Ok (tt, PicState (pic_bus s ++ (if n <? 0x28 then [PortOut 8 MASTER_COMMAND_PORT PIC_EOI]
       else [PortOut 8 SLAVE_COMMAND_PORT PIC_EOI; PortOut 8 MASTER_COMMAND_PORT PIC_EOI])) (pic_if s) false).
Proof.
  intros Hl Hn. unfold PIC_IDT_START, PIC_IDT_SIZE in *. apply locked_run; [done|]. unfold PIC_IDT_START.
  rewrite wrap64_small by lia. destruct (Z.leb_spec 8 (n - 32)), (Z.ltb_spec n 40); try lia.
  all: unfold when, pic_out, outb, port_out, log, bind, zoom, modify, ret; cbn -[app]; by rewrite <-?app_assoc.
Qed.
End ops.
