(* ===== verification/Interrupts.v ===== *)
(** * Interrupt dispatch (interrupt/interrupts.c, interrupt/interrupts.h)

    The table of handlers and the routine every interrupt stub calls.  A handler
    is a pointer; what a call of it does is a parameter. *)

From S2P Require Import Prelude Memory Sync Interfaces Bus Acpi Madt Shootdown Apic ApicTop Ioapic Pic.
Import Sequential.

Definition MAX_INTERRUPTS : Z := 256.

Record InterruptInfo : Type := MkInterruptInfo {
  info_error : Z; interrupt_number : Z; extra_data : Z; saved_context : Z
}.

Record int_state (V H : Type) : Type := IntState {
  in_io : ioapic_state V H; in_pic_lock : bool; pic_present : bool;
  handlers : list Z; extra_data_array : list Z; default_handler : Z; handlers_lock : bool
}.
Arguments IntState {V H}.
Arguments in_io {V H}.
Arguments in_pic_lock {V H}.
Arguments pic_present {V H}.
Arguments handlers {V H}.
Arguments extra_data_array {V H}.
Arguments default_handler {V H}.
Arguments handlers_lock {V H}.

Section ops.
Context {V H : Type} {MP : MappingProvider V} {HP : HeapProvider H} {DV : Device} {CPU : Processor}.
#[local] Abbreviation state := (int_state V H).
(** Calling the handler at an address. *)
Context (call_handler : Z -> InterruptInfo -> M state unit).
Implicit Types s : state.

Definition io_lens : lens state (ioapic_state V H) :=
  Lens in_io (fun x s => IntState x (in_pic_lock s) (pic_present s) (handlers s) (extra_data_array s)
                           (default_handler s) (handlers_lock s)).
Definition lapic_lens : lens state (apic_state V H) := lens_comp io_lens apic_lens.
Definition int_if_lens : lens state bool := lens_comp lapic_lens ap_if_lens.
Definition handlers_lock_lens : lens state bool :=
  Lens handlers_lock (fun b s => IntState (in_io s) (in_pic_lock s) (pic_present s) (handlers s) (extra_data_array s)
                                   (default_handler s) b).
(** The legacy controllers share the bus and the interrupt flag. *)
Definition pic_lens : lens state pic_state :=
  Lens (fun s => PicState (view (lens_comp lapic_lens bus_lens) s) (view int_if_lens s) (in_pic_lock s))
    (fun p s => put int_if_lens (pic_if p) (put (lens_comp lapic_lens bus_lens) (pic_bus p)
       (IntState (in_io s) (pic_lock p) (pic_present s) (handlers s) (extra_data_array s) (default_handler s)
          (handlers_lock s)))).
Definition set_tables (hs ex : list Z) (d : Z) s : state :=
  IntState (in_io s) (in_pic_lock s) (pic_present s) hs ex d (handlers_lock s).
Definition set_pic_present s : state :=
  IntState (in_io s) (in_pic_lock s) true (handlers s) (extra_data_array s) (default_handler s) (handlers_lock s).

Definition int_locked {A} (body : M state A) : M state A := with_spinlock_hard handlers_lock_lens int_if_lens body.

Definition init_interrupt_controller_subsystems : M state unit :=
  zoom lapic_lens init_apic_subsystem;; ret tt.

Definition init_local_interrupt_controllers : M state unit :=
  ok <- zoom lapic_lens init_local_apic;;
  KASSERT ok.

Definition init_global_interrupt_controllers : M state unit :=
  madt <- zoom (lens_comp lapic_lens acpi_lens) get_MADT;;
  when (madt =? NULL) (kpanic GENERIC_ERROR);;
  m <- gets (fun s => the_mem (view lapic_lens s));;
  has_pic <- madt_has_pic m madt;;
  when has_pic (modify set_pic_present;; zoom pic_lens init_pic;; zoom pic_lens disable_pic);;
  ok <- zoom io_lens init_ioapics;;
  KASSERT ok.

Definition init_interrupts : M state unit :=
  init_spinlock handlers_lock_lens;;
  modify (set_tables (replicate (Z.to_nat MAX_INTERRUPTS) NULL) (replicate (Z.to_nat MAX_INTERRUPTS) NULL) NULL).

Definition install_interrupt_handler (interrupt_number handler : Z) : M state unit :=
  KASSERT (interrupt_number <? MAX_INTERRUPTS);;
  int_locked (modify (fun s =>
    set_tables (<[Z.to_nat interrupt_number := handler]> (handlers s)) (extra_data_array s) (default_handler s) s)).

Definition install_default_interrupt_handler (handler : Z) : M state unit :=
  int_locked (modify (fun s => set_tables (handlers s) (extra_data_array s) handler s)).

Definition set_interrupt_handler_extra_data (interrupt_number extra : Z) : M state unit :=
  int_locked
    (KASSERT (interrupt_number <? MAX_INTERRUPTS);;
     modify (fun s =>
       set_tables (handlers s) (<[Z.to_nat interrupt_number := extra]> (extra_data_array s)) (default_handler s) s)).

Definition handler_at s (n : Z) : Z := default NULL (handlers s !! Z.to_nat n).
Definition extra_at s (n : Z) : Z := default NULL (extra_data_array s !! Z.to_nat n).

(** The end of interrupt, for the interrupts of the local controller. *)
Definition finish_interrupt (n : Z) : M state unit :=
  initialized <- zoom lapic_lens is_local_apic_initialized;;
  if initialized : bool then
    generated <- zoom lapic_lens (is_interrupt_lapic_generated (wrap8 n));;
    when generated (zoom lapic_lens send_lapic_EOI)
  else ret tt.

Definition interrupt_routine (n error interrupt_savedcontext : Z) : M state unit :=
  KASSERT (n <? MAX_INTERRUPTS);;
  present <- gets pic_present;;
  if present && (wrap64 (n - PIC_IDT_START) <? PIC_IDT_SIZE) then
    is_spurious <- zoom pic_lens (is_pic_interrupt_spurious (wrap8 n));;
    zoom pic_lens (pic_ack_interrupt n is_spurious)
  else if n =? APIC_SPURIOUS_INTERRUPTS_VECTOR then ret tt else
  r <- int_locked (gets (fun s =>
         (MkInterruptInfo error n (extra_at s n) interrupt_savedcontext,
          if negb (handler_at s n =? NULL) then (handler_at s n, NULL) else (NULL, default_handler s))));;
  let info := r.1 in let vec_handler := r.2.1 in let default_handler_copy := r.2.2 in
  when (negb (vec_handler =? NULL)) (call_handler vec_handler info);;
  when (negb (default_handler_copy =? NULL)) (call_handler default_handler_copy info);;
  finish_interrupt n.

(** ** Dispatch *)

(** The handler an interrupt goes to. *)
Definition target s (n : Z) : Z := if negb (handler_at s n =? NULL) then handler_at s n else default_handler s.

(** Neither a line of a present legacy controller nor the spurious vector. *)
Definition dispatched s (n : Z) : Prop :=
  0 <= n < MAX_INTERRUPTS /\ n <> APIC_SPURIOUS_INTERRUPTS_VECTOR /\
  (pic_present s = true -> ~ (PIC_IDT_START <= n < PIC_IDT_START + PIC_IDT_SIZE)).

Lemma int_locked_run {A} (f : state -> A * state) s :
  handlers_lock s = false ->
  (forall b, f (put handlers_lock_lens true (put int_if_lens b s)) =
     ((f s).1, put handlers_lock_lens true (put int_if_lens b (f s).2))) ->
  view int_if_lens (f s).2 = view int_if_lens s -> handlers_lock (f s).2 = false ->
  int_locked (fun s => Ok (f s)) s = Ok (f s).
Proof.
  intros Hl Hf Hi Hl2. unfold int_locked.
  erewrite with_spinlock_hard_run; [|by destruct s as [[[]]]|rewrite Hf; reflexivity].
  destruct (f s) as [a s']. cbn [fst snd] in *. rewrite <-Hi.
  destruct s' as [[[ac h t fl g hs] gd lk] pl pp hd ex d hl]. cbn in Hl2. subst hl. by destruct fl.
Qed.

(** Exactly one handler is called, after the lock of the table was released and with
    the interrupt flag of the interrupted code. *)
Lemma dispatch_run s n error ctx :
  handlers_lock s = false -> dispatched s n ->
  interrupt_routine n error ctx s =
    bind (if target s n =? NULL then ret tt else call_handler (target s n) (MkInterruptInfo error n (extra_at s n) ctx))
      (fun _ => finish_interrupt n) s.
Proof.
  intros Hl (Hn & Hs & Hp). unfold interrupt_routine.
  rewrite (bind_ok _ _ s tt s) by (apply KASSERT_ok, Z.ltb_lt; lia). unfold bind at 1, gets at 1.
  assert (pic_present s && (wrap64 (n - PIC_IDT_START) <? PIC_IDT_SIZE) = false) as ->.
  { unfold PIC_IDT_START, PIC_IDT_SIZE, MAX_INTERRUPTS, wrap in *. destruct (pic_present s); [|done]. cbn [andb].
    apply Z.ltb_ge. specialize (Hp eq_refl). lia. }
  rewrite (proj2 (Z.eqb_neq _ _)) by done.
  rewrite (bind_ok _ _ s (MkInterruptInfo error n (extra_at s n) ctx,
    if negb (handler_at s n =? NULL) then (handler_at s n, NULL) else (NULL, default_handler s)) s).
  2:{ by apply (int_locked_run (fun s => ((MkInterruptInfo error n (extra_at s n) ctx,
        if negb (handler_at s n =? NULL) then (handler_at s n, NULL) else (NULL, default_handler s)), s))). }
  cbv zeta. cbn [fst snd]. unfold target. destruct (handler_at s n =? NULL) eqn:E; cbn [negb fst snd].
  + rewrite Z.eqb_refl. cbn [negb when]. rewrite (bind_ok _ _ s tt s) by done.
    by destruct (default_handler s =? NULL).
  + rewrite E. cbn [negb when]. unfold bind. destruct (call_handler _ _ s) as [[[] s']| | | |]; done.
Qed.

(** *** The end of an interrupt *)

Definition all_bus : lens state history := lens_comp lapic_lens bus_lens.

(** The entry of the running processor among the local controllers, by the value of
    its identifier register. *)
Definition core_entry (a : apic_state V H) (id_register : Z) : option LocalAPIC :=
  List.find (fun x => APIC_ID x =? Z.land (Z.shiftr id_register 24) 0xff) (lapics (lapic_gdata a)).

(** What the end of the interrupt [n] does on the bus: the identifier is read, the
    in-service bit of [n] if the controller is enabled, and the EOI register is
    written exactly if that bit is set. *)
Definition eoi_events (a : apic_state V H) (n : Z) : history :=
  let id_reg := lapic_reg a APIC_REG_OFFSET_LAPIC_ID in
  let id := wrap32 (reg_value (ap_bus a) id_reg) in
  RegRead id_reg id ::
  match core_entry a id with
  | Some x =>
      if enabled x then
        let isr_reg := lapic_reg a (APIC_REG_OFFSET_IN_SERVICE_FIRST + n / 32 * 0x10) in
        let isr := wrap32 (reg_value (ap_bus a ++ [RegRead id_reg id]) isr_reg) in
        RegRead isr_reg isr :: (if Z.testbit isr (n mod 32) then [RegWrite (lapic_reg a APIC_REG_OFFSET_EOI) 0] else [])
      else []
  | None => []
  end.

Lemma find_index_find P (l : list LocalAPIC) :
  match List.find P l with
  | Some x => exists i, find_index P l = Some i /\ l !! i = Some x
  | None => find_index P l = None
  end.
Proof.
  induction l as [|y l IH]; [done|]. cbn. destruct (P y); [by exists 0%nat|].
  destruct (List.find P l); [|by rewrite IH]. destruct IH as (i & -> & Hi). by exists (S i).
Qed.

Lemma land_bit v k : 0 <= k -> negb (Z.land v (Z.shiftl 1 k) =? 0) = Z.testbit v k.
Proof.
  intros Hk. rewrite Z.shiftl_1_l. apply eq_true_iff_eq. rewrite negb_true_iff, Z.eqb_neq. split.
  - intros Hn. destruct (Z.testbit v k) eqn:E; [done|]. exfalso. apply Hn. apply Z.bits_inj'. intros i Hi.
    rewrite Z.land_spec, Z.pow2_bits_eqb, Z.bits_0 by lia. destruct (Z.eqb_spec k i) as [<-|]; [by rewrite E|by rewrite andb_false_r].
  - intros E Hz. assert (F : Z.testbit (Z.land v (2 ^ k)) k = true) by (rewrite Z.land_spec, E, Z.pow2_bits_true by done; done).
    by rewrite Hz, Z.bits_0 in F.
Qed.

Lemma zoom_lapic_bus {A} (m : M (apic_state V H) A) x t s :
  m (view lapic_lens s) = Ok (x, put bus_lens t (view lapic_lens s)) -> zoom lapic_lens m s = Ok (x, put all_bus t s).
Proof. intros R. unfold zoom. rewrite R. by destruct s as [[]]. Qed.

Lemma view_all_bus t s : view lapic_lens (put all_bus t s) = put bus_lens t (view lapic_lens s).
Proof. done. Qed.

Lemma is_initialized_run a :
  mapped a -> lapic_array (lapic_gdata a) <> NULL ->
  let id_reg := lapic_reg a APIC_REG_OFFSET_LAPIC_ID in
  let id := wrap32 (reg_value (ap_bus a) id_reg) in
  forall x, core_entry a id = Some x ->
  is_local_apic_initialized a = Ok (enabled x, put bus_lens (ap_bus a ++ [RegRead id_reg id]) a).
Proof.
  intros Hm Hn id_reg id x Hx. unfold is_local_apic_initialized. rewrite (bind_ok _ _ a (lapic_gdata a) a) by done.
  rewrite Hm. unfold get_logical_core_lapic_id. rewrite bind_assoc, (bind_ok _ _ _ _ _ (read32_run a _ Hm)). fold id_reg. fold id.
  set (a1 := put bus_lens _ a). rewrite (bind_ok _ _ a1 _ a1 eq_refl).
  pose proof (find_index_find (fun y => APIC_ID y =? Z.land (Z.shiftr id 24) 0xff) (lapics (lapic_gdata a))) as HF.
  unfold core_entry in Hx. rewrite Hx in HF. destruct HF as (i & Hi & Hl).
  rewrite (bind_ok _ _ a1 (Some i) a1).
  2: { unfold get_lapic_from_id. rewrite (bind_ok _ _ a1 (lapic_gdata a) a1) by done.
       rewrite (bind_ok _ _ a1 tt a1) by (by apply KASSERT_ok, negb_true_iff, Z.eqb_neq). by rewrite Hi. }
  rewrite (bind_ok _ _ a1 (lapic_gdata a) a1) by done. by rewrite Hl.
Qed.

Lemma finish_interrupt_run s n :
  0 <= n < MAX_INTERRUPTS ->
  let a := view lapic_lens s in
  mapped a -> lapic_array (lapic_gdata a) <> NULL ->
  is_Some (core_entry a (wrap32 (reg_value (ap_bus a) (lapic_reg a APIC_REG_OFFSET_LAPIC_ID)))) ->
  finish_interrupt n s = Ok (tt, put all_bus (ap_bus a ++ eoi_events a n) s).
Proof.
  intros Hn a Hm Ha [x Hx]. unfold finish_interrupt, eoi_events. rewrite Hx.
  rewrite (bind_ok _ _ _ _ _ (zoom_lapic_bus _ _ _ _ (is_initialized_run a Hm Ha x Hx))).
  set (id := wrap32 _) in *. set (id_reg := lapic_reg a _) in *.
  destruct (enabled x); [|done]. set (s1 := put all_bus _ s). set (a1 := put bus_lens (ap_bus a ++ [RegRead id_reg id]) a).
  assert (Hm1 : mapped a1) by done. unfold MAX_INTERRUPTS in Hn. rewrite (wrap_small 8 n) by lia.
  assert (R : is_interrupt_lapic_generated n a1 =
    Ok (Z.testbit (wrap32 (reg_value (ap_bus a1) (lapic_reg a (APIC_REG_OFFSET_IN_SERVICE_FIRST + n / 32 * 0x10)))) (n mod 32),
        put bus_lens (ap_bus a1 ++ [RegRead (lapic_reg a (APIC_REG_OFFSET_IN_SERVICE_FIRST + n / 32 * 0x10))
          (wrap32 (reg_value (ap_bus a1) (lapic_reg a (APIC_REG_OFFSET_IN_SERVICE_FIRST + n / 32 * 0x10))))]) a1)).
  { unfold is_interrupt_lapic_generated. rewrite (bind_ok _ _ _ _ _ (mapping_valid_run a1 Hm1)). cbv zeta.
    rewrite (bind_ok _ _ _ _ _ (read32_run a1 _ Hm1)). unfold ret. rewrite land_bit by (apply Z.mod_pos_bound; lia). done. }
  rewrite (bind_ok _ _ _ _ _ (zoom_lapic_bus _ _ _ s1 R)). set (isr := wrap32 _).
  change (ap_bus a1) with (ap_bus a ++ [RegRead id_reg id]) in *. destruct (Z.testbit isr (n mod 32)); cbn [when].
  - set (t2 := (ap_bus a ++ [_]) ++ [_]). rewrite (zoom_lapic_bus _ tt (t2 ++ [RegWrite (lapic_reg a APIC_REG_OFFSET_EOI) 0])).
    + unfold t2. by rewrite <-!app_assoc.
    + unfold send_lapic_EOI. set (a2 := view lapic_lens _). assert (Hm2 : mapped a2) by done.
      rewrite (bind_ok _ _ _ _ _ (mapping_valid_run a2 Hm2)). by rewrite (write32_run a2 _ _ Hm2).
  - unfold ret, s1. rewrite <-app_assoc. done.
Qed.

(** *** A line of the legacy controllers *)

Definition pic_eoi_events (n : Z) : history :=
  if n <? 0x28 then [PortOut 8 MASTER_COMMAND_PORT PIC_EOI]
  else [PortOut 8 SLAVE_COMMAND_PORT PIC_EOI; PortOut 8 MASTER_COMMAND_PORT PIC_EOI].

Lemma zoom_pic_bus {A} (m : M pic_state A) x t s :
  in_pic_lock s = false ->
  m (view pic_lens s) = Ok (x, PicState t (view int_if_lens s) false) -> zoom pic_lens m s = Ok (x, put all_bus t s).
Proof. intros Hl R. unfold zoom. rewrite R. destruct s as [[[]]]. cbn in *. by subst. Qed.

Lemma pic_interrupt_run s n error ctx :
  pic_present s = true -> in_pic_lock s = false -> PIC_IDT_START <= n < PIC_IDT_START + PIC_IDT_SIZE ->
  exists t, interrupt_routine n error ctx s = Ok (tt, put all_bus (view all_bus s ++ t) s) /\
    (n <> 0x27 -> t = pic_eoi_events n) /\
    (n = 0x27 -> exists high low, t =
       [PortOut 8 MASTER_COMMAND_PORT PIC_READ_ISR; PortOut 8 SLAVE_COMMAND_PORT PIC_READ_ISR;
        PortIn 8 SLAVE_COMMAND_PORT high; PortIn 8 SLAVE_COMMAND_PORT low] ++
       (if Z.land (wrap16 (Z.lor (Z.shiftl high 8) low)) 128 =? 0 then [] else pic_eoi_events n)).
Proof.
  intros Hp Hl Hn. pose proof Hn as Hn'. unfold PIC_IDT_START, PIC_IDT_SIZE in Hn'.
  assert (RH : interrupt_routine n error ctx s =
    (is_spurious <- zoom pic_lens (is_pic_interrupt_spurious (wrap8 n));; zoom pic_lens (pic_ack_interrupt n is_spurious)) s).
  { unfold interrupt_routine. rewrite (bind_ok _ _ s tt s) by (apply KASSERT_ok, Z.ltb_lt; unfold MAX_INTERRUPTS; lia).
    unfold bind at 1, gets at 1. rewrite Hp. cbn [andb]. rewrite (proj2 (Z.ltb_lt _ _)); [done|].
    unfold PIC_IDT_START, PIC_IDT_SIZE. rewrite wrap64_small; lia. }
  rewrite RH. set (p := view pic_lens s). assert (Hpl : pic_lock p = false) by exact Hl. rewrite (wrap_small 8 n) by lia.
  destruct (decide (n = 0x27)) as [->|Hne].
  - destruct (get_pic_isr_run p Hpl) as (high & low & RI). set (t1 := pic_bus p ++ _) in RI.
    rewrite (bind_ok _ _ _ (Z.land (wrap16 (Z.lor (Z.shiftl high 8) low)) 128 =? 0) (put all_bus t1 s)).
    2: { apply zoom_pic_bus; [done|]. unfold is_pic_interrupt_spurious. change (wrap8 (0x27 - PIC_IDT_START) =? 7) with true. cbv iota zeta.
         by rewrite (bind_ok _ _ _ _ _ RI). }
    destruct (_ =? 0) eqn:E.
    + eexists. split; [rewrite (zoom_pic_bus _ tt t1); [reflexivity|done|by apply locked_run]|split; [done|]].
      intros _. exists high, low. by rewrite E.
    + exists ([PortOut 8 MASTER_COMMAND_PORT PIC_READ_ISR; PortOut 8 SLAVE_COMMAND_PORT PIC_READ_ISR;
        PortIn 8 SLAVE_COMMAND_PORT high; PortIn 8 SLAVE_COMMAND_PORT low] ++ pic_eoi_events 0x27). split; [|split; [done|]].
      * rewrite (zoom_pic_bus _ tt (t1 ++ pic_eoi_events 0x27)); [unfold t1; rewrite <-app_assoc; reflexivity|done|].
        by rewrite pic_ack_run.
      * intros _. exists high, low. by rewrite E.
  - exists (pic_eoi_events n). split; [|split; [done|intros E; by destruct Hne]].
    rewrite (bind_ok _ _ _ false s).
    2: { unfold is_pic_interrupt_spurious, zoom. rewrite (wrap_small 8) by (unfold PIC_IDT_START; lia).
         rewrite (proj2 (Z.eqb_neq _ _)) by (unfold PIC_IDT_START; lia). by destruct s as [[[]]]. }
    apply zoom_pic_bus; [done|]. fold p. by rewrite pic_ack_run.
Qed.

(** C24: An interrupt that is neither a line of a present legacy controller nor the
    spurious vector runs the handler of its vector, or the default handler when it has
    none, with the data installed for the vector, and goes no further when that does not
    return; then, with the controller mapped, it reads the identifier and the in-service
    bit of the vector and writes the end-of-interrupt register exactly if the bit is set
    (without a mapped controller it does nothing more). A line of a present legacy
    controller runs no handler: it is acknowledged at the controller or controllers
    concerned, except a line 7 the in-service register read says is spurious. The
    spurious vector 0xff changes nothing and a number of 256 or more fails an assertion.
    *)
Theorem interrupt_routine_dispatches s n error ctx :
  handlers_lock s = false ->
  (dispatched s n ->
   let run := if target s n =? NULL then ret tt else call_handler (target s n) (MkInterruptInfo error n (extra_at s n) ctx) in
   ((forall s1, run s <> Ok (tt, s1)) -> interrupt_routine n error ctx s = run s) /\
   (forall s1, run s = Ok (tt, s1) ->
      let a := view lapic_lens s1 in
      (~ mapped a -> interrupt_routine n error ctx s = Ok (tt, s1)) /\
      (mapped a -> lapic_array (lapic_gdata a) <> NULL ->
       is_Some (core_entry a (wrap32 (reg_value (ap_bus a) (lapic_reg a APIC_REG_OFFSET_LAPIC_ID)))) ->
       interrupt_routine n error ctx s = Ok (tt, put all_bus (ap_bus a ++ eoi_events a n) s1)))) /\
  (pic_present s = true -> in_pic_lock s = false -> PIC_IDT_START <= n < PIC_IDT_START + PIC_IDT_SIZE ->
   exists t, interrupt_routine n error ctx s = Ok (tt, put all_bus (view all_bus s ++ t) s) /\
     (n <> 0x27 -> t = pic_eoi_events n) /\
     (n = 0x27 -> exists high low, t =
        [PortOut 8 MASTER_COMMAND_PORT PIC_READ_ISR; PortOut 8 SLAVE_COMMAND_PORT PIC_READ_ISR;
         PortIn 8 SLAVE_COMMAND_PORT high; PortIn 8 SLAVE_COMMAND_PORT low] ++
        (if Z.land (wrap16 (Z.lor (Z.shiftl high 8) low)) 128 =? 0 then [] else pic_eoi_events n))) /\
  interrupt_routine APIC_SPURIOUS_INTERRUPTS_VECTOR error ctx s = Ok (tt, s) /\
  (MAX_INTERRUPTS <= n -> interrupt_routine n error ctx s = Panic FAILED_ASSERT).
Proof.
  intros Hl. split_and!.
  - intros HD run. pose proof (dispatch_run s n error ctx Hl HD) as E. fold run in E. split.
    + intros Hno. rewrite E. unfold bind. destruct (run s) as [[[] s1]| | | |]; try done. by destruct (Hno s1).
    + intros s1 R a. rewrite E, (bind_ok _ _ _ _ _ R). split.
      * intros Hm. unfold finish_interrupt. rewrite (bind_ok _ _ s1 false s1); [done|].
        apply not_false_is_true in Hm. fold (mapped a) in Hm. unfold zoom, is_local_apic_initialized, bind at 1, gets at 1.
        fold a. rewrite Hm. unfold ret, a. by destruct s1 as [[]].
      * intros Hm Ha Hx. apply finish_interrupt_run; [|done..]. by destruct HD.
  - apply pic_interrupt_run.
  - unfold interrupt_routine. rewrite (bind_ok _ _ s tt s) by done. unfold bind at 1, gets at 1. by rewrite andb_false_r.
  - intros Hn. unfold interrupt_routine, bind. by rewrite (proj2 (Z.ltb_ge _ _)) by done.
Qed.

(** An installed handler is the target of its vector and of no other. *)
Lemma install_handler_spec s n h :
  handlers_lock s = false -> 0 <= n < MAX_INTERRUPTS -> length (handlers s) = 256%nat -> h <> NULL ->
  exists s', install_interrupt_handler n h s = Ok (tt, s') /\ target s' n = h /\
    (forall k, 0 <= k -> k <> n -> target s' k = target s k) /\ handlers_lock s' = false /\
    view int_if_lens s' = view int_if_lens s /\ length (handlers s') = 256%nat.
Proof.
  intros Hl Hn Hlen Hh. unfold install_interrupt_handler.
  rewrite (bind_ok _ _ s tt s) by (apply KASSERT_ok, Z.ltb_lt; lia).
  set (f := fun s => (tt, set_tables (<[Z.to_nat n:=h]> (handlers s)) (extra_data_array s) (default_handler s) s)).
  exists (f s).2. split; [|split; [|split; [|split; [|split]]]].
  - by apply (int_locked_run f).
  - unfold target, handler_at. cbn. unfold MAX_INTERRUPTS in Hn. rewrite list_lookup_insert_eq by lia. cbn.
    by rewrite (proj2 (Z.eqb_neq _ _)) by done.
  - intros k Hk Hne. unfold target, handler_at. cbn. by rewrite list_lookup_insert_ne by lia.
  - done.
  - done.
  - cbn. by rewrite length_insert.
Qed.
End ops.
