(* ===== verification/Pit.v ===== *)
(** * The interval timer (timer/pit.c, timer/pit.h)

    Channel 0 of the timer interrupts one processor, which counts the ticks and
    forwards the interrupt to the others. *)

From S2P Require Import Prelude Memory Sync Interfaces Bus Acpi Madt Shootdown Apic ApicTop Ioapic Pic Interrupts.
Import Sequential.

Definition PIT_IRQ : Z := 0.
Definition PIT_FREQ_HZ : Z := 1193182.
Definition PIT_CHANNEL_0_DATA_PORT : Z := 0x40.
Definition PIT_MODE_COMMAND_PORT : Z := 0x42.
Definition PIT_VECTOR : Z := 0x41.

Record PIT : Type := MkPIT {
  hardware_lock : bool; tick_counter : Z; interrupt_frequency : Z; interrupt_vector : Z;
  interrupt_receiver_apic_id : Z; channel_0_initialized : bool; channel_2_initialized : bool
}.

Inductive ReadWriteMode : Type :=
| READ_WRITE_COUNTER_LATCH
| READ_WRITE_LSB_ONLY
| READ_WRITE_MSB_ONLY
| READ_WRITE_LSB_FIRST_MSB_THEN.
Definition read_write_code (r : ReadWriteMode) : Z :=
  match r with
  | READ_WRITE_COUNTER_LATCH => 0
  | READ_WRITE_LSB_ONLY => 1
  | READ_WRITE_MSB_ONLY => 2
  | READ_WRITE_LSB_FIRST_MSB_THEN => 3
  end.

Record pit_state (V H : Type) : Type := PitState { pt_int : int_state V H; the_pit : PIT }.
Arguments PitState {V H}.
Arguments pt_int {V H}.
Arguments the_pit {V H}.

(** ** Frequencies *)

Section frequencies.
Context {St : Type}.

(** A division by zero is a processor exception. *)
Definition get_counter_value_from_frequency (target_frequency_hz : Z) : M St Z :=
  if target_frequency_hz =? 0 then fault else
  let counter_value := PIT_FREQ_HZ / target_frequency_hz in
  let remainder := PIT_FREQ_HZ mod target_frequency_hz in
  let counter_value := if PIT_FREQ_HZ / 2 <? remainder then counter_value + 1 else counter_value in
  ret (if 0xffff <? counter_value then 0xffff else counter_value).

Definition get_frequency_hz_from_counter_value (counter_value : Z) : M St Z :=
  if counter_value =? 0 then fault else
  let freq := PIT_FREQ_HZ / counter_value in
  let remainder := PIT_FREQ_HZ mod counter_value in
  ret (if PIT_FREQ_HZ / 2 <? remainder then freq + 1 else freq).
End frequencies.

Definition get_PIT_real_frequency (pit : PIT) : Z := interrupt_frequency pit.
Definition get_PIT_tick_count (pit : PIT) : Z := tick_counter pit.
Definition get_ms_from_tick_count {St} (pit : PIT) (tick : Z) : M St Z :=
  if interrupt_frequency pit =? 0 then fault else ret (wrap64 (tick * 1000) / interrupt_frequency pit).
Definition get_us_from_tick_count {St} (pit : PIT) (tick : Z) : M St Z :=
  if interrupt_frequency pit =? 0 then fault else ret (wrap64 (tick * 1000000) / interrupt_frequency pit).

Section ops.
Context {V H : Type} {MP : MappingProvider V} {HP : HeapProvider H} {DV : Device} {CPU : Processor}.
#[local] Abbreviation state := (pit_state V H).
Implicit Types s : state.
(** The addresses of the timer structure and of its handler. *)
Context (pit_address PIT_interrupt_handler_address : Z).

Definition int_lens : lens state (int_state V H) := Lens pt_int (fun i s => PitState i (the_pit s)).
Definition pit_lapic : lens state (apic_state V H) := lens_comp int_lens lapic_lens.
Definition pit_bus : lens state history := lens_comp pit_lapic bus_lens.
Definition pit_if : lens state bool := lens_comp pit_lapic ap_if_lens.
Definition modify_pit (f : PIT -> PIT) : M state unit := modify (fun s => PitState (pt_int s) (f (the_pit s))).
Definition set_hardware_lock (b : bool) (p : PIT) : PIT :=
  MkPIT b (tick_counter p) (interrupt_frequency p) (interrupt_vector p) (interrupt_receiver_apic_id p)
    (channel_0_initialized p) (channel_2_initialized p).
Definition set_frequency (f : Z) (p : PIT) : PIT :=
  MkPIT (hardware_lock p) (tick_counter p) f (interrupt_vector p) (interrupt_receiver_apic_id p)
    (channel_0_initialized p) (channel_2_initialized p).
Definition set_receiver (a : Z) (p : PIT) : PIT :=
  MkPIT (hardware_lock p) (tick_counter p) (interrupt_frequency p) (interrupt_vector p) a
    (channel_0_initialized p) (channel_2_initialized p).
Definition set_ticks (n : Z) (p : PIT) : PIT :=
  MkPIT (hardware_lock p) n (interrupt_frequency p) (interrupt_vector p) (interrupt_receiver_apic_id p)
    (channel_0_initialized p) (channel_2_initialized p).
Definition hw_lock_lens : lens state bool :=
  Lens (fun s => hardware_lock (the_pit s)) (fun b s => PitState (pt_int s) (set_hardware_lock b (the_pit s))).

Definition enable_PIT_irq : M state unit :=
  v <- gets (fun s => interrupt_vector (the_pit s));;
  id <- zoom pit_lapic get_logical_core_lapic_id;;
  zoom (lens_comp int_lens io_lens)
    (setIOAPICInterruptRedirection (MkRedirection false (wrap8 id) 0 0 false v) PIT_IRQ).

(** Each assignment replaces the previous one. *)
Definition make_control_word (select_counter : Z) (read_write : ReadWriteMode) (mode : Z) : M state Z :=
  KASSERT (mode <=? 5);;
  KASSERT (select_counter <=? 4);;
  let control_word := wrap8 (Z.shiftl (Z.land mode 7) 1) in
  let control_word := wrap8 (Z.shiftl (Z.land (read_write_code read_write) 3) 4) in
  let control_word := wrap8 (Z.shiftl (Z.land select_counter 3) 6) in
  ret control_word.

Definition hw_locked {A} (body : M state A) : M state A := with_spinlock_hard hw_lock_lens pit_if body.

Definition set_mode0_on_channel0 (counter_value : Z) : M state unit :=
  control_word <- make_control_word 0 READ_WRITE_LSB_FIRST_MSB_THEN 0;;
  hw_locked
    (zoom pit_bus (outb PIT_MODE_COMMAND_PORT control_word);;
     zoom pit_bus (outw PIT_CHANNEL_0_DATA_PORT counter_value)).

Definition set_mode2_on_channel0 (counter_value : Z) : M state unit :=
  control_word <- make_control_word 0 READ_WRITE_LSB_FIRST_MSB_THEN 2;;
  let counter_value_low := wrap8 counter_value in
  let counter_value_high := wrap8 (Z.shiftr counter_value 8) in
  hw_locked
    (zoom pit_bus (outb PIT_MODE_COMMAND_PORT control_word);;
     zoom pit_bus (outb PIT_CHANNEL_0_DATA_PORT counter_value_low);;
     zoom pit_bus (outb PIT_CHANNEL_0_DATA_PORT counter_value_high)).

Definition initialize_PIT_timer (target_frequency_hz vector : Z) : M state Z :=
  modify_pit (fun p => MkPIT false 0 (interrupt_frequency p) vector 0 false false);;
  zoom int_lens (install_interrupt_handler vector PIT_interrupt_handler_address);;
  zoom int_lens (set_interrupt_handler_extra_data vector pit_address);;
  counter_value <- get_counter_value_from_frequency target_frequency_hz;;
  f <- get_frequency_hz_from_counter_value counter_value;;
  modify_pit (set_frequency f);;
  set_mode2_on_channel0 counter_value;;
  id <- zoom pit_lapic get_logical_core_lapic_id;;
  modify_pit (set_receiver id);;
  enable_PIT_irq;;
  gets (fun s => interrupt_frequency (the_pit s)).

Definition PIT_interrupt_handler (fuel : nat) : M state unit :=
  id <- zoom pit_lapic get_logical_core_lapic_id;;
  receiver <- gets (fun s => interrupt_receiver_apic_id (the_pit s));;
  if negb (id =? receiver) then ret tt else
  modify_pit (fun p => set_ticks (wrap64 (tick_counter p + 1)) p);;
  v <- gets (fun s => interrupt_vector (the_pit s));;
  zoom pit_lapic (send_IPI_by_destination_shorthand fuel APIC_DESTSH_ALL_EXCLUDING_SELF v).

(** ** Waiting

    Between two tests of the condition the processor sleeps; [ticks k] timer
    interrupts are counted during the [k]-th sleep, and [traffic k] is what the
    handlers of the interrupts that arrive then do on the bus: the identifier
    register is read, the other processors are interrupted and the end of the
    interrupt is signalled. *)
Context (ticks : nat -> Z) (traffic : nat -> history).

Definition halt (k : nat) : M state unit :=
  zoom pit_bus (modify (fun t => t ++ traffic k));;
  modify_pit (fun p => set_ticks (wrap64 (tick_counter p + ticks k)) p).

Fixpoint wait_loop (fuel k : nat) (elapsed : PIT -> Z -> M state Z) (start bound : Z) : M state unit :=
  match fuel with
  | O => out_of_fuel
  | S fuel' =>
      p <- gets the_pit;;
      e <- elapsed p (wrap64 (get_PIT_tick_count p - start));;
      if e <? bound then
        halt k;;
        wait_loop fuel' (S k) elapsed start bound
      else ret tt
  end.

Definition PIT_wait (fuel : nat) (elapsed : PIT -> Z -> M state Z) (bound : Z) : M state unit :=
  enabled <- gets (view pit_if);;
  KASSERT enabled;;
  start <- gets (fun s => get_PIT_tick_count (the_pit s));;
  wait_loop fuel 0 elapsed start bound.

Definition PIT_wait_ms (fuel : nat) (ms : Z) : M state unit := PIT_wait fuel get_ms_from_tick_count ms.
Definition PIT_wait_us (fuel : nat) (us : Z) : M state unit := PIT_wait fuel get_us_from_tick_count us.
End ops.

(** ** Results *)

(** The counter is the quotient, never rounded up, up to the largest 16-bit
    value; the frequency obtained is at least the one asked for. *)
(** C25: For a target from 19 Hz to 500 kHz the counter value is the truncated
    quotient of the base frequency, so that the real frequency is never below the target
    and never rounds to the nearest. *)
Theorem pit_frequency_at_least_target {St : Type} target (s : St) :
  19 <= target <= 500000 ->
  get_counter_value_from_frequency target s = Ok (PIT_FREQ_HZ / target, s) /\
  exists f, get_frequency_hz_from_counter_value (PIT_FREQ_HZ / target) s = Ok (f, s) /\ target <= f /\
    f * (PIT_FREQ_HZ / target) <= PIT_FREQ_HZ.
Proof.
  intros Ht. unfold get_counter_value_from_frequency, get_frequency_hz_from_counter_value, PIT_FREQ_HZ.
  change (1193182 / 2) with 596591. set (c := 1193182 / target).
  assert (Hc : 2 <= c <= 62799 /\ c * target <= 1193182).
  { unfold c. split.
    - split; [apply Z.div_le_lower_bound; lia|]. etransitivity; [apply (Z.div_le_compat_l 1193182 19 target); lia|]. done.
    - rewrite Z.mul_comm. apply Z.mul_div_le. lia. }
  pose proof (Z.mod_pos_bound 1193182 target ltac:(lia)) as Hr.
  rewrite (proj2 (Z.eqb_neq target 0)), (proj2 (Z.ltb_ge 596591 (1193182 mod target))) by lia. cbv zeta.
  fold c. rewrite (proj2 (Z.ltb_ge 0xffff c)) by lia. split; [done|].
  pose proof (Z.mod_pos_bound 1193182 c ltac:(lia)) as Hr2.
  rewrite (proj2 (Z.eqb_neq c 0)), (proj2 (Z.ltb_ge 596591 (1193182 mod c))) by lia.
  exists (1193182 / c). split_and!; [done| |].
  - apply Z.div_le_lower_bound; lia.
  - rewrite Z.mul_comm. apply Z.mul_div_le. lia.
Qed.

Section waiting.
Context {V H : Type} {MP : MappingProvider V} {HP : HeapProvider H} {DV : Device} {CPU : Processor}.
Implicit Types s : pit_state V H.

Lemma ms_elapsed {St} p T ms (s : St) :
  0 < interrupt_frequency p -> 0 <= T -> 1000 * T < 2 ^ 64 ->
  exists e, get_ms_from_tick_count p T s = Ok (e, s) /\ (e <? ms) = (1000 * T <? ms * interrupt_frequency p).
Proof.
  intros Hf HT Hw. unfold get_ms_from_tick_count. rewrite (proj2 (Z.eqb_neq _ _)) by lia.
  eexists. split; [reflexivity|]. rewrite wrap64_small by lia.
  rewrite (Z.mul_comm T). apply eq_true_iff_eq. rewrite !Z.ltb_lt. split; intros Hlt.
  - apply Z.nle_gt. intros Hge. apply Zlt_not_le in Hlt. apply Hlt. apply Z.div_le_lower_bound; lia.
  - apply Z.div_lt_upper_bound; lia.
Qed.

(** Every sleep counts at least one tick, so the loop ends; it ends with the
    time asked for counted. *)
Lemma wait_loop_run ticks traffic fuel k start ms s :
  let p := the_pit s in
  0 < interrupt_frequency p -> 0 <= start <= tick_counter p -> 0 <= ms -> ms * interrupt_frequency p < 2 ^ 60 ->
  (forall j, 1 <= ticks j <= 1000) ->
  1000 * (tick_counter p - start) <= ms * interrupt_frequency p + 1000000 -> start < 2 ^ 60 ->
  (Z.to_nat (ms * interrupt_frequency p - 1000 * (tick_counter p - start)) < fuel)%nat ->
  exists n m s', wait_loop (V := V) (H := H) ticks traffic fuel k get_ms_from_tick_count start ms s = Ok (tt, s') /\
    pt_int s' = put all_bus (view pit_bus s ++ concat (traffic <$> seq k m)) (pt_int s) /\
    the_pit s' = set_ticks n p /\ ms * interrupt_frequency p <= 1000 * (n - start) <= ms * interrupt_frequency p + 1000000.
Proof.
  cbv zeta. revert k s. induction fuel as [|fuel IH]; intros k s Hf Hs Hms Hb Ht Hu Hst Hfu; [lia|].
  cbn [wait_loop]. unfold bind at 1, gets. unfold get_PIT_tick_count. rewrite wrap64_small by lia.
  destruct (ms_elapsed (the_pit s) (tick_counter (the_pit s) - start) ms s) as (e & Re & Ee); [lia..|].
  rewrite (bind_ok _ _ _ _ _ Re), Ee. destruct (Z.ltb_spec (1000 * (tick_counter (the_pit s) - start)) (ms * interrupt_frequency (the_pit s))).
  - pose proof (Ht k) as Hk. set (s1 := PitState (put all_bus (view pit_bus s ++ traffic k) (pt_int s)) (set_ticks (tick_counter (the_pit s) + ticks k) (the_pit s))).
    rewrite (bind_ok _ _ s tt s1).
    2: { unfold halt, modify_pit, s1, bind, zoom, modify. cbn -[wrap]. rewrite wrap64_small by lia. done. }
    destruct (IH (S k) s1) as (n & m & s' & R & E1 & E2 & E3); cbn [s1 the_pit set_ticks tick_counter interrupt_frequency] in *; try done; try lia.
    exists n, (S m), s'. split_and!; [done| |by rewrite E2|lia..]. rewrite E1. cbn [seq fmap list_fmap concat]. rewrite app_assoc. done.
  - exists (tick_counter (the_pit s)), 0%nat, s. split_and!; [done| |by destruct s as [? []]|lia..]. cbn [seq fmap list_fmap concat]. rewrite app_nil_r.
    by destruct s as [[[[]]]].
Qed.

(** With interrupts enabled; at most the ticks of the last sleep are too many. *)
Lemma PIT_wait_ms_run ticks traffic s ms fuel :
  let p := the_pit s in
  0 < interrupt_frequency p -> 0 <= tick_counter p < 2 ^ 60 -> 0 <= ms -> ms * interrupt_frequency p < 2 ^ 60 ->
  (forall j, 1 <= ticks j <= 1000) -> (Z.to_nat (ms * interrupt_frequency p) < fuel)%nat -> view pit_if s = true ->
  exists n m s', PIT_wait_ms (V := V) (H := H) ticks traffic fuel ms s = Ok (tt, s') /\
    pt_int s' = put all_bus (view pit_bus s ++ concat (traffic <$> seq 0 m)) (pt_int s) /\
    the_pit s' = set_ticks n p /\ ms * interrupt_frequency p <= 1000 * (n - tick_counter p) <= ms * interrupt_frequency p + 1000000.
Proof.
  cbv zeta. intros Hf Htc Hms Hb Ht Hfu Hi. unfold PIT_wait_ms, PIT_wait. unfold bind at 1, gets. rewrite Hi.
  rewrite (bind_ok _ _ s tt s) by done. unfold bind at 1. unfold get_PIT_tick_count.
  apply wait_loop_run; try done; lia.
Qed.

(** [PIT_wait_ms] returns once [ms] milliseconds of ticks were counted, and
    panics at once with interrupts disabled, when no tick could arrive. *)
(** C26: With interrupts enabled and between 1 and 1000 ticks per halt PIT_wait_ms
    returns, after at least the requested number of milliseconds of ticks, having
    changed nothing but the tick counter and the bus, to which the handlers of the
    interrupts during its halts added their accesses; with interrupts disabled it fails
    an assertion. *)
Theorem PIT_wait_ms_returns ticks traffic s ms fuel :
  let p := the_pit s in
  0 < interrupt_frequency p -> 0 <= tick_counter p < 2 ^ 60 -> 0 <= ms -> ms * interrupt_frequency p < 2 ^ 60 ->
  (forall j, 1 <= ticks j <= 1000) -> (Z.to_nat (ms * interrupt_frequency p) < fuel)%nat ->
  (view pit_if s = true ->
   exists n m s', PIT_wait_ms (V := V) (H := H) ticks traffic fuel ms s = Ok (tt, s') /\
     pt_int s' = put all_bus (view pit_bus s ++ concat (traffic <$> seq 0 m)) (pt_int s) /\
     the_pit s' = set_ticks n p /\ ms * interrupt_frequency p <= 1000 * (n - tick_counter p)) /\
  (view pit_if s = false -> PIT_wait_ms (V := V) (H := H) ticks traffic fuel ms s = Panic FAILED_ASSERT).
Proof.
  cbv zeta. intros Hf Htc Hms Hb Ht Hfu. split; intros Hi.
  - destruct (PIT_wait_ms_run ticks traffic s ms fuel Hf Htc Hms Hb Ht Hfu Hi) as (n & m & s' & R & E1 & E2 & E3 & _). by exists n, m, s'.
  - unfold PIT_wait_ms, PIT_wait. unfold bind at 1, gets. by rewrite Hi.
Qed.

(** The control word loses the mode and the access mode, and the command port
    is that of channel 2: the bytes the driver sends for mode 2. *)
Lemma set_mode2_run s c :
  hardware_lock (the_pit s) = false -> 0 <= c < 2 ^ 16 ->
  set_mode2_on_channel0 c s =
    Ok (tt, put pit_bus (view pit_bus s ++ [PortOut 8 PIT_MODE_COMMAND_PORT 0; PortOut 8 PIT_CHANNEL_0_DATA_PORT (c mod 256);
              PortOut 8 PIT_CHANNEL_0_DATA_PORT (c / 256)]) s).
Proof.
  intros Hl Hc. unfold set_mode2_on_channel0. rewrite (bind_ok _ _ s 0 s) by done. cbv zeta.
  rewrite Z.shiftr_div_pow2 by lia. change (2 ^ 8) with 256. rewrite (wrap_small 8 (c / 256)) by lia.
  change (wrap8 c) with (c mod 256).
  assert (E1 : wrap8 (c mod 256) = c mod 256) by (apply (wrap_small 8); lia).
  assert (E2 : wrap8 (c / 256) = c / 256) by (apply (wrap_small 8); lia).
  destruct s as [[[[ac h t fl g hs] gd lk] pl pp hd ex d hl] [hw tc fr iv rc c0 c2]]. cbn in Hl. subst hw.
  unfold hw_locked. erewrite with_spinlock_hard_run; [|done|].
  2:{ unfold outb, port_out, log, bind, zoom, modify. cbn -[app wrap Z.div Z.modulo]. rewrite E1, E2. reflexivity. }
  destruct fl; cbn -[app Z.div Z.modulo wrap]; rewrite <-!app_assoc; reflexivity.
Qed.
End waiting.
