(* ===== verification/KernelData.v ===== *)
(** * Per-processor data (kernel_data.c, kernel_data.h)

    A list with one node per processor, in the order of their registration.  The
    nodes come from the heap and their [local_data] holds what the block held
    before until it is set ([junk]). *)

From S2P Require Import Prelude Memory Sync Interfaces.
Import Sequential.

(** From kdefs.h. *)
Definition KERNEL_STACK_SIZE : Z := 1 * MB.

Record LocalKernelData : Type := MkLocalData { kernel_stack : VMemHandle; apic_id : Z }.
Record LocalKernelDataList : Type := MkDataNode { cpu_id : Z; local_data : LocalKernelData; data_next : Z }.
Definition sizeof_LocalKernelDataList : Z := 40.

Record kernel_data (H : Type) : Type := KernelData {
  kd_heap : H; kd_if : bool;
  local_data_list : Z; kd_lock : bool; cpuid_to_allocate : Z;
  kd_nodes : gmap Z LocalKernelDataList;   (** the nodes behind the pointers *)
  is_pit_initialized : Z
}.
Arguments KernelData {H}.
Arguments kd_heap {H}.
Arguments kd_if {H}.
Arguments local_data_list {H}.
Arguments kd_lock {H}.
Arguments cpuid_to_allocate {H}.
Arguments kd_nodes {H}.
Arguments is_pit_initialized {H}.

Section ops.
Context {H : Type} {HP : HeapProvider H}.
#[local] Abbreviation state := (kernel_data H).
(** What a block holds when it is allocated. *)
Context (junk : Z -> LocalKernelData).
Implicit Types s : state.

Definition kd_heap_lens : lens state H :=
  Lens kd_heap (fun h s => KernelData h (kd_if s) (local_data_list s) (kd_lock s) (cpuid_to_allocate s) (kd_nodes s)
                             (is_pit_initialized s)).
Definition kd_if_lens : lens state bool :=
  Lens kd_if (fun b s => KernelData (kd_heap s) b (local_data_list s) (kd_lock s) (cpuid_to_allocate s) (kd_nodes s)
                           (is_pit_initialized s)).
Definition kd_lock_lens : lens state bool :=
  Lens kd_lock (fun b s => KernelData (kd_heap s) (kd_if s) (local_data_list s) b (cpuid_to_allocate s) (kd_nodes s)
                             (is_pit_initialized s)).
Definition set_list (p : Z) s : state :=
  KernelData (kd_heap s) (kd_if s) p (kd_lock s) (cpuid_to_allocate s) (kd_nodes s) (is_pit_initialized s).
Definition set_next_cpuid (n : Z) s : state :=
  KernelData (kd_heap s) (kd_if s) (local_data_list s) (kd_lock s) n (kd_nodes s) (is_pit_initialized s).
Definition set_kd_nodes (m : gmap Z LocalKernelDataList) s : state :=
  KernelData (kd_heap s) (kd_if s) (local_data_list s) (kd_lock s) (cpuid_to_allocate s) m (is_pit_initialized s).
Definition set_pit_flag (n : Z) s : state :=
  KernelData (kd_heap s) (kd_if s) (local_data_list s) (kd_lock s) (cpuid_to_allocate s) (kd_nodes s) n.

Definition read_data (p : Z) : M state LocalKernelDataList := fun s =>
  match kd_nodes s !! p with Some n => Ok (n, s) | None => Fault end.
Definition write_data (p : Z) (n : LocalKernelDataList) : M state unit :=
  read_data p;; modify (fun s => set_kd_nodes (<[p := n]> (kd_nodes s)) s).
(** [kmalloc(sizeof(LocalKernelDataList))], then [cpu_id] and [next] are set. *)
Definition new_data (cpuid : Z) : M state Z :=
  p <- zoom kd_heap_lens (hp_kmalloc sizeof_LocalKernelDataList);;
  modify (fun s => set_kd_nodes (<[p := MkDataNode cpuid (junk p) NULL]> (kd_nodes s)) s);;
  ret p.

Definition kd_locked {A} (body : M state A) : M state A := with_spinlock_hard kd_lock_lens kd_if_lens body.

Definition init_kernel_data : M state unit :=
  init_spinlock kd_lock_lens;;
  modify (fun s => set_next_cpuid 0 (set_list NULL s)).

(** [while(itr->next != NULL) itr = itr->next;] *)
Fixpoint last_data (fuel : nat) (itr : Z) : M state Z :=
  match fuel with
  | O => out_of_fuel
  | S fuel' => n <- read_data itr;; if data_next n =? NULL then ret itr else last_data fuel' (data_next n)
  end.

(** [while(itr != NULL){ if(found) break; itr = itr->next; }] *)
Fixpoint find_data (fuel : nat) (found : LocalKernelDataList -> bool) (itr : Z) : M state Z :=
  match fuel with
  | O => out_of_fuel
  | S fuel' =>
      if itr =? NULL then ret NULL else
      n <- read_data itr;; if found n then ret itr else find_data fuel' found (data_next n)
  end.

Definition walk_data (found : LocalKernelDataList -> bool) : M state Z :=
  n <- gets (fun s => size (kd_nodes s));;
  itr <- gets local_data_list;;
  find_data (S n) found itr.

Definition register_local_kernel_data_cpu : M state Z :=
  kd_locked
    (cpuid <- gets cpuid_to_allocate;;
     modify (set_next_cpuid (wrap32 (cpuid + 1)));;
     head <- gets local_data_list;;
     (if head =? NULL then
        p <- new_data cpuid;;
        modify (set_list p);;
        KASSERT (negb (p =? NULL))
      else
        n <- gets (fun s => size (kd_nodes s));;
        itr <- last_data (S n) head;;
        KASSERT (negb (itr =? NULL));;
        if cpuid =? 0 then kpanic FAILED_ASSERT else
        p <- new_data cpuid;;
        last <- read_data itr;;
        write_data itr (MkDataNode (cpu_id last) (local_data last) p);;
        KASSERT (negb (p =? NULL)));;
     ret cpuid).

Definition set_local_kernel_data (cpu : Z) (data : LocalKernelData) : M state unit :=
  kd_locked
    (itr <- walk_data (fun n => cpu_id n =? cpu);;
     KASSERT (negb (itr =? NULL));;
     n <- read_data itr;;
     write_data itr (MkDataNode (cpu_id n) data (data_next n))).

Definition get_local_kernel_data (cpu : Z) : M state LocalKernelData :=
  kd_locked
    (itr <- walk_data (fun n => cpu_id n =? cpu);;
     KASSERT (negb (itr =? NULL));;
     n <- read_data itr;;
     ret (local_data n)).

Definition get_cpu_id_from_apic_id (id : Z) : M state Z :=
  kd_locked
    (itr <- walk_data (fun n => apic_id (local_data n) =? id);;
     KASSERT (negb (itr =? NULL));;
     n <- read_data itr;;
     ret (cpu_id n)).

(** The timer is initialised once; [init] is the driver's initialisation. *)
Definition init_kernel_data_PIT {A} (init : M state A) : M state unit :=
  f <- gets is_pit_initialized;;
  when (negb (f =? 0)) (kpanic GENERIC_ERROR);;
  modify (set_pit_flag (wrap32 (f + 1)));;
  init;; ret tt.
End ops.

(** ** The registry

    [L] lists the nodes with their data; the identifier of a processor is its
    position. *)
Definition data_head (L : list (Z * LocalKernelData)) : Z := match L with [] => NULL | (p, _) :: _ => p end.

Fixpoint rseg (m : gmap Z LocalKernelDataList) (i : Z) (L : list (Z * LocalKernelData)) : Prop :=
  match L with
  | [] => True
  | (p, d) :: L' => p <> NULL /\ m !! p = Some (MkDataNode i d (data_head L')) /\ rseg m (i + 1) L'
  end.

(** The first position whose identifier and data satisfy a test. *)
Fixpoint first_at (P : Z -> LocalKernelData -> bool) (i : Z) (L : list (Z * LocalKernelData)) : option nat :=
  match L with
  | [] => None
  | (_, d) :: L' => if P i d then Some O else S <$> first_at P (i + 1) L'
  end.

Lemma rseg_frame m m' i L : (forall p, p ∈ L.*1 -> m' !! p = m !! p) -> rseg m i L -> rseg m' i L.
Proof.
  revert i. induction L as [|[p d] L IH]; intros i HE; [done|]. cbn [rseg]. intros (Hn & Hp & HL). split_and!; [done| |].
  - rewrite HE; [done|]. apply list_elem_of_here.
  - apply IH; [|done]. intros q Hq. apply HE. by apply list_elem_of_further.
Qed.

Lemma rseg_lookup m i L j p d :
  rseg m i L -> L !! j = Some (p, d) -> p <> NULL /\ m !! p = Some (MkDataNode (i + Z.of_nat j) d (data_head (drop (S j) L))).
Proof.
  revert i j. induction L as [|[q e] L IH]; intros i j HD HL; [done|]. cbn [rseg] in HD. destruct HD as (Hn & Hq & HD).
  destruct j as [|j]; cbn in HL.
  - injection HL as -> ->. rewrite Z.add_0_r. split; [done|exact Hq].
  - destruct (IH _ _ HD HL) as [H1 H2]. split; [done|]. rewrite H2. do 2 f_equal. lia.
Qed.

Lemma rseg_inner_next m i L j : rseg m i L -> (S j < length L)%nat -> data_head (drop (S j) L) <> NULL.
Proof.
  intros HD Hj. destruct (L !! S j) as [[p d]|] eqn:E; [|apply lookup_ge_None in E; lia].
  rewrite (drop_S _ _ _ E). by apply (rseg_lookup _ _ _ _ _ _ HD E).
Qed.

Lemma rseg_update m i L j p d d' :
  rseg m i L -> NoDup L.*1 -> L !! j = Some (p, d) ->
  rseg (<[p := MkDataNode (i + Z.of_nat j) d' (data_head (drop (S j) L))]> m) i (<[j := (p, d')]> L).
Proof.
  revert i j. induction L as [|[q e] L IH]; intros i j HD ND HL; [done|].
  cbn [fmap list_fmap fst] in ND. apply NoDup_cons in ND as [N1 N2]. cbn [rseg] in HD. destruct HD as (Hn & Hq & HD).
  destruct j as [|j]; cbn in HL.
  - injection HL as -> ->. cbn [insert list_insert rseg drop]. rewrite Z.add_0_r. split_and!; [done|apply lookup_insert_eq|].
    apply (rseg_frame m); [|done]. intros x Hx. rewrite lookup_insert_ne; [done|]. intros ->. done.
  - cbn [insert list_insert rseg drop]. split_and!; [done| |].
    + assert (p <> q). { intros ->. apply N1. apply list_elem_of_fmap. exists (q, d). split; [done|]. by eapply list_elem_of_lookup_2. }
      rewrite lookup_insert_ne, Hq by done. do 2 f_equal. destruct L as [|[q' e'] L]; [done|]. destruct j; cbn in *; [|done]. by injection HL as -> _.
    + replace (i + Z.of_nat (S j)) with (i + 1 + Z.of_nat j) by lia. by apply IH.
Qed.

Lemma rseg_snoc m i L p d :
  rseg m i L -> NoDup L.*1 -> p ∉ L.*1 -> p <> NULL ->
  forall m', m' !! p = Some (MkDataNode (i + Z.of_nat (length L)) d NULL) ->
  (forall q, q ∈ L.*1 -> m' !! q =
     (fun n => if data_next n =? NULL then MkDataNode (cpu_id n) (local_data n) p else n) <$> m !! q) ->
  rseg m' i (L ++ [(p, d)]).
Proof.
  revert i. induction L as [|[q e] L IH]; intros i HD ND Hp Hn m' Hm' Hm.
  { cbn in *. rewrite Z.add_0_r in Hm'. done. }
  cbn [fmap list_fmap fst] in *. apply NoDup_cons in ND as [N1 N2]. apply not_elem_of_cons in Hp as [Hp1 Hp2].
  cbn [rseg app] in *. destruct HD as (Hq & Hmq & HD). split_and!; [done| |].
  - rewrite Hm by (by left). rewrite Hmq. cbn. destruct L as [|[q' e'] L]; [done|]. cbn [data_head app].
    cbn [rseg] in HD. by rewrite (proj2 (Z.eqb_neq _ _)) by apply HD.
  - apply IH; try done.
    + rewrite Hm'. do 2 f_equal. cbn [length]. lia.
    + intros x Hx. apply Hm. by right.
Qed.

Section registry.
Context {H : Type} {HP : HeapProvider H} {HL : HeapLaws H}.
Context (junk : Z -> LocalKernelData).
Implicit Types (s : kernel_data H) (L : list (Z * LocalKernelData)).

Record kd_inv (B : gmap Z Z) L s : Prop := {
  ki_heap : hp_inv (kd_heap s) B;
  ki_head : local_data_list s = data_head L;
  ki_next : cpuid_to_allocate s = Z.of_nat (length L);
  ki_bound : Z.of_nat (length L) < 2 ^ 32;
  ki_seg : rseg (kd_nodes s) 0 L;
  ki_nodup : NoDup L.*1;
  ki_live : forall p, p ∈ L.*1 -> is_Some (B !! p);
  ki_lock : kd_lock s = false
}.

Lemma rseg_length m i L : rseg m i L -> NoDup L.*1 -> (length L <= size m)%nat.
Proof.
  intros HS ND. rewrite <-(length_fmap fst), <-(size_list_to_set (C := gset Z)) by done.
  rewrite <-size_dom. apply subseteq_size. intros p Hp%elem_of_list_to_set. apply list_elem_of_fmap in Hp as ([q d] & -> & Hq).
  apply list_elem_of_lookup in Hq as [j Hj]. apply elem_of_dom. destruct (rseg_lookup _ _ _ _ _ _ HS Hj) as [_ E]. by eexists.
Qed.

Lemma read_data_at p n s : kd_nodes s !! p = Some n -> read_data p s = Ok (n, s).
Proof. unfold read_data. by intros ->. Qed.

Lemma find_data_run P fuel i L s :
  rseg (kd_nodes s) i L -> (length L < fuel)%nat ->
  find_data fuel (fun n => P (cpu_id n) (local_data n)) (data_head L) s =
    Ok (match first_at P i L with Some j => data_head (drop j L) | None => NULL end, s).
Proof.
  revert fuel i. induction L as [|[p d] L IH]; intros fuel i HD Hf; (destruct fuel as [|fuel]; [lia|]); [done|].
  cbn [rseg] in HD. destruct HD as (Hn & Hp & HD). cbn [find_data data_head first_at].
  rewrite (proj2 (Z.eqb_neq _ _)) by done. rewrite (bind_ok _ _ _ _ _ (read_data_at _ _ _ Hp)). cbn [cpu_id local_data data_next].
  destruct (P i d); [done|]. rewrite (IH fuel (i + 1)); [|done|cbn in Hf; lia]. by destruct (first_at P (i + 1) L).
Qed.

Lemma last_data_run fuel i L p d s :
  rseg (kd_nodes s) i (L ++ [(p, d)]) -> (length L < fuel)%nat -> last_data fuel (data_head (L ++ [(p, d)])) s = Ok (p, s).
Proof.
  revert fuel i. induction L as [|[q e] L IH]; intros fuel i HD Hf; (destruct fuel as [|fuel]; [lia|]).
  - cbn in *. destruct HD as (Hn & Hp & _). rewrite (bind_ok _ _ _ _ _ (read_data_at _ _ _ Hp)). done.
  - cbn [app rseg] in HD. destruct HD as (Hn & Hp & HD). cbn [last_data app data_head].
    rewrite (bind_ok _ _ _ _ _ (read_data_at _ _ _ Hp)). cbn [data_next].
    assert (data_head (L ++ [(p, d)]) <> NULL) as Hd by (destruct L as [|[]]; cbn in HD |- *; apply HD).
    rewrite (proj2 (Z.eqb_neq _ _)) by done. apply (IH _ (i + 1)); [done|cbn in Hf; lia].
Qed.

(** The critical section leaves the flag and the lock as they were. *)
Lemma kd_locked_run {A} (body : M (kernel_data H) A) s a s1 :
  kd_lock s = false ->
  body (put kd_lock_lens true (put kd_if_lens false s)) = Ok (a, put kd_lock_lens true (put kd_if_lens false s1)) ->
  kd_if s1 = kd_if s -> kd_lock s1 = false ->
  kd_locked body s = Ok (a, s1).
Proof.
  intros Hl Hb Hi Hl1. unfold kd_locked. erewrite with_spinlock_hard_run; [|by destruct s|exact Hb].
  cbn [view kd_if_lens]. rewrite <-Hi. destruct s1 as [h f l lk c m p]. cbn in Hl1. subst lk. by destruct f.
Qed.

Lemma kd_acquire s :
  kd_lock s = false ->
  acquire_spinlock_hard kd_lock_lens kd_if_lens s = Ok (kd_if s, put kd_lock_lens true (put kd_if_lens false s)).
Proof. destruct s as [h f l lk c m pf]. cbn. by intros ->. Qed.

Lemma walk_run P L s B :
  kd_inv B L s ->
  walk_data (fun n => P (cpu_id n) (local_data n)) (put kd_lock_lens true (put kd_if_lens false s)) =
    Ok (match first_at P 0 L with Some j => data_head (drop j L) | None => NULL end,
        put kd_lock_lens true (put kd_if_lens false s)).
Proof.
  intros HI. unfold walk_data. unfold bind, gets. cbn [kd_nodes local_data_list put kd_lock_lens kd_if_lens].
  rewrite (ki_head _ _ _ HI). apply (find_data_run P); [apply HI|].
  pose proof (rseg_length _ _ _ (ki_seg _ _ _ HI) (ki_nodup _ _ _ HI)). cbn. lia.
Qed.

Lemma first_at_lookup P i L j : first_at P i L = Some j -> exists p d, L !! j = Some (p, d) /\ P (i + Z.of_nat j) d = true.
Proof.
  revert i j. induction L as [|[p d] L IH]; intros i j HF; [done|]. cbn in HF. destruct (P i d) eqn:E.
  - injection HF as <-. exists p, d. by rewrite Z.add_0_r.
  - destruct (first_at P (i + 1) L) as [k|] eqn:F; [|done]. injection HF as <-. destruct (IH _ _ F) as (q & e & H1 & H2).
    exists q, e. split; [done|]. rewrite <-H2. f_equal. lia.
Qed.

Lemma first_at_cpu i L c : first_at (fun k _ => k =? c) i L =
  if (i <=? c) && (c <? i + Z.of_nat (length L)) then Some (Z.to_nat (c - i)) else None.
Proof.
  revert i. induction L as [|[p d] L IH]; intros i; cbn [first_at length].
  - destruct (Z.leb_spec i c), (Z.ltb_spec c (i + Z.of_nat 0)); try done; lia.
  - rewrite IH. destruct (Z.eqb_spec i c) as [->|].
    + rewrite Z.leb_refl, (proj2 (Z.ltb_lt _ _)) by lia. cbn. f_equal. lia.
    + destruct (Z.leb_spec (i + 1) c), (Z.leb_spec i c); cbn [andb]; try lia; [|done].
      destruct (Z.ltb_spec c (i + 1 + Z.of_nat (length L))), (Z.ltb_spec c (i + Z.of_nat (S (length L)))); try lia; cbn; [|done].
      f_equal. lia.
Qed.

Lemma head_drop L j p d : L !! j = Some (p, d) -> data_head (drop j L) = p.
Proof. intros E. by rewrite (drop_S _ _ _ E). Qed.

Definition has_apic (id : Z) (_ : Z) (d : LocalKernelData) : bool := apic_id d =? id.

Lemma get_data_run B L s c :
  kd_inv B L s ->
  get_local_kernel_data c s =
    if (0 <=? c) && (c <? Z.of_nat (length L)) then
      match L !! Z.to_nat c with Some (_, d) => Ok (d, s) | None => Fault end
    else Panic FAILED_ASSERT.
Proof.
  intros HI. pose proof (walk_run (fun k _ => k =? c) L s B HI) as W. cbn beta in W. rewrite first_at_cpu, Z.sub_0_r, Z.add_0_l in W.
  destruct ((0 <=? c) && (c <? Z.of_nat (length L))) eqn:E.
  - apply andb_true_iff in E as [E1%Z.leb_le E2%Z.ltb_lt].
    destruct (L !! Z.to_nat c) as [[p d]|] eqn:Hc; [|apply lookup_ge_None in Hc; lia].
    rewrite (head_drop _ _ _ _ Hc) in W. destruct (rseg_lookup _ _ _ _ _ _ (ki_seg _ _ _ HI) Hc) as [Hn Hp].
    apply kd_locked_run; [apply HI| |done|apply HI].
    rewrite (bind_ok _ _ _ _ _ W). set (s1 := put kd_lock_lens true _).
    rewrite (proj2 (Z.eqb_neq _ _)) by done. rewrite (bind_ok _ _ s1 tt s1) by done.
    rewrite (bind_ok _ _ s1 (MkDataNode (0 + Z.of_nat (Z.to_nat c)) d (data_head (drop (S (Z.to_nat c)) L))) s1); [done|].
    by apply read_data_at.
  - unfold get_local_kernel_data, kd_locked, with_spinlock_hard. unfold bind at 1.
    rewrite (kd_acquire _ (ki_lock _ _ _ HI)).
    unfold bind at 1. by rewrite (bind_ok _ _ _ _ _ W).
Qed.

Lemma set_data_run B L s c p d d' :
  kd_inv B L s -> L !! c = Some (p, d) ->
  exists s', set_local_kernel_data (Z.of_nat c) d' s = Ok (tt, s') /\ kd_inv B (<[c := (p, d')]> L) s' /\ kd_if s' = kd_if s.
Proof.
  intros HI Hc. pose proof (walk_run (fun k _ => k =? Z.of_nat c) L s B HI) as W. cbn beta in W.
  pose proof (lookup_lt_Some _ _ _ Hc) as Hlt.
  rewrite first_at_cpu, Z.sub_0_r, Z.add_0_l, (proj2 (Z.leb_le _ _)), (proj2 (Z.ltb_lt _ _)) in W by lia.
  cbn [andb] in W. rewrite Nat2Z.id, (head_drop _ _ _ _ Hc) in W.
  destruct (rseg_lookup _ _ _ _ _ _ (ki_seg _ _ _ HI) Hc) as [Hn Hp]. rewrite Z.add_0_l in Hp.
  set (m' := <[p := MkDataNode (Z.of_nat c) d' (data_head (drop (S c) L))]> (kd_nodes s)).
  exists (set_kd_nodes m' s). split; [|split; [|done]].
  - apply kd_locked_run; [apply HI| |done|apply HI].
    rewrite (bind_ok _ _ _ _ _ W). set (s1 := put kd_lock_lens true _).
    rewrite (proj2 (Z.eqb_neq _ _)) by done. rewrite (bind_ok _ _ s1 tt s1) by done.
    assert (R : read_data p s1 = Ok (MkDataNode (Z.of_nat c) d (data_head (drop (S c) L)), s1)) by (by apply read_data_at).
    rewrite (bind_ok _ _ _ _ _ R). unfold write_data. rewrite (bind_ok _ _ _ _ _ R). done.
  - destruct HI as [I1 I2 I3 I4 I5 I6 I7 I8].
    assert (E1 : (<[c := (p, d')]> L).*1 = L.*1).
    { rewrite list_fmap_insert. cbn. apply list_insert_id. by rewrite list_lookup_fmap, Hc. }
    split; cbn; try done.
    + rewrite I2. destruct L as [|[q e] L]; [done|]. destruct c; cbn in *; [|done]. by injection Hc as -> ->.
    + by rewrite length_insert.
    + by rewrite length_insert.
    + pose proof (rseg_update _ _ _ _ _ _ d' I5 I6 Hc) as U. by rewrite Z.add_0_l in U.
    + by rewrite E1.
    + by rewrite E1.
Qed.

Lemma get_cpu_id_run B L s id :
  kd_inv B L s ->
  get_cpu_id_from_apic_id id s =
    match first_at (has_apic id) 0 L with Some j => Ok (Z.of_nat j, s) | None => Panic FAILED_ASSERT end.
Proof.
  intros HI. pose proof (walk_run (has_apic id) L s B HI) as W. unfold has_apic at 1 in W.
  destruct (first_at (has_apic id) 0 L) as [j|] eqn:F.
  - destruct (first_at_lookup _ _ _ _ F) as (p & d & Hj & _). rewrite (head_drop _ _ _ _ Hj) in W.
    destruct (rseg_lookup _ _ _ _ _ _ (ki_seg _ _ _ HI) Hj) as [Hn Hp].
    apply kd_locked_run; [apply HI| |done|apply HI].
    rewrite (bind_ok _ _ _ _ _ W). set (s1 := put kd_lock_lens true _).
    rewrite (proj2 (Z.eqb_neq _ _)) by done. rewrite (bind_ok _ _ s1 tt s1) by done.
    rewrite (bind_ok _ _ s1 (MkDataNode (0 + Z.of_nat j) d (data_head (drop (S j) L))) s1); [done|]. by apply read_data_at.
  - unfold get_cpu_id_from_apic_id, kd_locked, with_spinlock_hard. unfold bind at 1.
    rewrite (kd_acquire _ (ki_lock _ _ _ HI)).
    unfold bind at 1. by rewrite (bind_ok _ _ _ _ _ W).
Qed.

Lemma new_data_run B s c :
  hp_inv (kd_heap s) B -> hp_serves (kd_heap s) sizeof_LocalKernelDataList ->
  exists p k h, new_data junk c s =
      Ok (p, set_kd_nodes (<[p := MkDataNode c (junk p) NULL]> (kd_nodes s)) (put kd_heap_lens h s)) /\
    B !! p = None /\ p <> NULL /\ hp_inv h (<[p := k]> B).
Proof.
  intros HI HS. destruct (hp_kmalloc_ok _ _ _ HI HS) as (p & k & h & R & _ & Hf & _ & Hp & HI' & _).
  exists p, k, h. unfold new_data, bind, zoom. cbn [view kd_heap_lens]. rewrite R. split_and!; [done|done| |done]. unfold NULL. lia.
Qed.

Lemma register_run B L s :
  kd_inv B L s -> hp_serves (kd_heap s) sizeof_LocalKernelDataList -> Z.of_nat (length L) + 1 < 2 ^ 32 ->
  exists p s' B', register_local_kernel_data_cpu junk s = Ok (Z.of_nat (length L), s') /\
    kd_inv B' (L ++ [(p, junk p)]) s' /\ kd_if s' = kd_if s.
Proof.
  intros [I1 I2 I3 I4 I5 I6 I7 I8] HS Hw.
  set (s1 := set_next_cpuid (Z.of_nat (length L) + 1) (put kd_lock_lens true (put kd_if_lens false s))).
  destruct (new_data_run B s1 (Z.of_nat (length L)) I1 HS) as (p & k & h & R & Hf & Hp & HI').
  assert (Hpl : p ∉ L.*1) by (intros Hin; destruct (I7 p Hin) as [? E]; by rewrite Hf in E).
  set (m1 := <[p := MkDataNode (Z.of_nat (length L)) (junk p) NULL]> (kd_nodes s)) in *.
  assert (Body : forall s2,
    (if data_head L =? NULL then
       p <- new_data junk (Z.of_nat (length L));; modify (set_list p);; KASSERT (negb (p =? NULL))
     else
       n <- gets (fun s => size (kd_nodes s));;
       itr <- last_data (S n) (data_head L);;
       KASSERT (negb (itr =? NULL));;
       if Z.of_nat (length L) =? 0 then kpanic FAILED_ASSERT else
       p <- new_data junk (Z.of_nat (length L));;
       last <- read_data itr;;
       write_data itr (MkDataNode (cpu_id last) (local_data last) p);;
       KASSERT (negb (p =? NULL))) s1 = Ok (tt, put kd_lock_lens true (put kd_if_lens false s2)) ->
    kd_if s2 = kd_if s -> kd_lock s2 = false ->
    register_local_kernel_data_cpu junk s = Ok (Z.of_nat (length L), s2)).
  { intros s2 R2 E1 E2. apply kd_locked_run; [done| |done|done]. set (s0 := put kd_lock_lens true (put kd_if_lens false s)) in *.
    rewrite (bind_ok _ _ s0 (Z.of_nat (length L)) s0) by (unfold gets; cbn; by rewrite I3).
    rewrite (bind_ok _ _ s0 tt s1) by (unfold modify; by rewrite (wrap_small 32) by lia).
    rewrite (bind_ok _ _ s1 (data_head L) s1) by (unfold gets; cbn; by rewrite I2).
    by rewrite (bind_ok _ _ _ _ _ R2). }
  destruct (decide (L = [])) as [->|HL0].
  - exists p, (set_list p (set_kd_nodes m1 (set_next_cpuid 1 (put kd_heap_lens h s)))), (<[p := k]> B).
    split; [|split; [|done]].
    + apply Body; [|done|done]. cbn [data_head]. rewrite Z.eqb_refl, (bind_ok _ _ _ _ _ R).
      unfold bind, modify. by rewrite (proj2 (Z.eqb_neq _ _)) by done.
    + split; cbn; try done; [|by apply NoDup_singleton|].
      * split_and!; [done|apply lookup_insert_eq|done].
      * intros q ->%list_elem_of_singleton. rewrite lookup_insert_eq. by eexists.
  - destruct (exists_last HL0) as (L0 & [q e] & ->).
    assert (Hj : (L0 ++ [(q, e)]) !! length L0 = Some (q, e)) by (rewrite lookup_app_r, Nat.sub_diag by lia; done).
    destruct (rseg_lookup _ _ _ _ _ _ I5 Hj) as [Hq Eq].
    rewrite drop_ge in Eq by (rewrite length_app; cbn; lia). cbn [data_head] in Eq. rewrite Z.add_0_l in Eq.
    assert (Hpq : p <> q) by (intros ->; apply Hpl; rewrite fmap_app; apply elem_of_app; right; by left).
    set (m2 := <[q := MkDataNode (Z.of_nat (length L0)) e p]> m1).
    exists p, (set_kd_nodes m2 (set_next_cpuid (Z.of_nat (length (L0 ++ [(q, e)])) + 1) (put kd_heap_lens h s))), (<[p := k]> B).
    assert (Hd : data_head (L0 ++ [(q, e)]) <> NULL) by (destruct L0 as [|[]]; cbn in *; apply I5).
    split; [|split; [|done]].
    + apply Body; [|done|done]. rewrite (proj2 (Z.eqb_neq _ _) Hd). unfold bind at 1, gets.
      rewrite (bind_ok _ _ _ _ _ (last_data_run (S (size (kd_nodes s1))) 0 L0 q e s1 I5
        ltac:(pose proof (rseg_length _ _ _ I5 I6) as X; rewrite length_app in X; cbn in X |- *; lia))).
      rewrite (proj2 (Z.eqb_neq _ _) Hq). rewrite (bind_ok _ _ s1 tt s1) by done.
      rewrite (proj2 (Z.eqb_neq _ _)) by (rewrite length_app; cbn; lia). rewrite (bind_ok _ _ _ _ _ R).
      set (s2 := set_kd_nodes _ _).
      assert (R2 : read_data q s2 = Ok (MkDataNode (Z.of_nat (length L0)) e NULL, s2)).
      { apply read_data_at. cbn. rewrite lookup_insert_ne by done. exact Eq. }
      rewrite (bind_ok _ _ _ _ _ R2). unfold write_data. rewrite bind_assoc, (bind_ok _ _ _ _ _ R2).
      unfold bind, modify. by rewrite (proj2 (Z.eqb_neq _ _)) by done.
    + split; cbn -[Z.of_nat length]; try done.
      * rewrite I2. by destruct L0 as [|[]].
      * rewrite !length_app. cbn. lia.
      * rewrite !length_app in *. cbn in *. lia.
      * apply (rseg_snoc (kd_nodes s)); try done.
        { unfold m2. rewrite lookup_insert_ne by done. unfold m1. by rewrite lookup_insert_eq, Z.add_0_l. }
        intros x Hx. unfold m2, m1. destruct (decide (x = q)) as [->|Hxq].
        { by rewrite lookup_insert_eq, Eq. }
        rewrite !lookup_insert_ne by (try done; intros ->; done).
        apply list_elem_of_fmap in Hx as ([y d] & -> & Hx). apply list_elem_of_lookup in Hx as [j Hj']. cbn [fst] in *.
        destruct (rseg_lookup _ _ _ _ _ _ I5 Hj') as [_ ->]. cbn.
        rewrite (proj2 (Z.eqb_neq _ _)); [done|]. apply (rseg_inner_next (kd_nodes s) 0); [done|].
        rewrite length_app. cbn. pose proof (lookup_lt_Some _ _ _ Hj') as Hlt. rewrite length_app in Hlt. cbn in Hlt.
        assert (j <> length L0); [|lia]. intros ->. rewrite Hj in Hj'. by injection Hj' as <- _.
      * rewrite fmap_app. apply NoDup_app. split_and!; [done| |by apply NoDup_singleton].
        intros x Hx Hx'. apply list_elem_of_singleton in Hx'. subst x. done.
      * intros x Hx. rewrite fmap_app in Hx. apply elem_of_app in Hx as [Hx| ->%list_elem_of_singleton].
        { rewrite lookup_insert_ne by (intros ->; done). by apply I7. }
        { rewrite lookup_insert_eq. by eexists. }
Qed.

(** The registry: identifiers are given in order from zero; data that is set is
    the data that is read; the identifier of a controller is the first processor
    whose data names it, and an unknown one is a panic. *)
(** C27: The linked registry of processors behaves as a list: registering appends an
    entry and returns its position, setting and reading an entry by number agree, an
    unknown number fails an assertion and the search by controller id finds the first
    entry. *)
Theorem kernel_data_registry_correct B L s :
  kd_inv B L s ->
  (hp_serves (kd_heap s) sizeof_LocalKernelDataList -> Z.of_nat (length L) + 1 < 2 ^ 32 ->
   exists p s' B', register_local_kernel_data_cpu junk s = Ok (Z.of_nat (length L), s') /\
     kd_inv B' (L ++ [(p, junk p)]) s' /\ kd_if s' = kd_if s) /\
  (forall c p d d', L !! c = Some (p, d) ->
   exists s', set_local_kernel_data (Z.of_nat c) d' s = Ok (tt, s') /\ kd_inv B (<[c := (p, d')]> L) s' /\
     get_local_kernel_data (Z.of_nat c) s' = Ok (d', s')) /\
  (forall c, ~ (0 <= c < Z.of_nat (length L)) -> get_local_kernel_data c s = Panic FAILED_ASSERT) /\
  (forall id, get_cpu_id_from_apic_id id s =
     match first_at (has_apic id) 0 L with Some j => Ok (Z.of_nat j, s) | None => Panic FAILED_ASSERT end).
Proof.
  intros HI. split_and!.
  - intros HS Hw. by eapply register_run.
  - intros c p d d' Hc. destruct (set_data_run _ _ _ _ _ _ d' HI Hc) as (s' & R & I' & _). exists s'. split_and!; [done|done|].
    pose proof (lookup_lt_Some _ _ _ Hc). rewrite (get_data_run _ _ _ _ I'), length_insert.
    rewrite (proj2 (Z.leb_le _ _)), (proj2 (Z.ltb_lt _ _)) by lia. cbn [andb]. rewrite Nat2Z.id.
    by rewrite list_lookup_insert_eq by done.
  - intros c Hc. rewrite (get_data_run _ _ _ _ HI).
    destruct (Z.leb_spec 0 c), (Z.ltb_spec c (Z.of_nat (length L))); try done; lia.
  - intros id. by eapply get_cpu_id_run.
Qed.
End registry.
