(* ===== verification/DriverRuns.v ===== *)
(** * Drivers: a small machine

    One processor, the tables of a firmware in memory, and devices that answer
    zero.  Every theorem about the drivers is applied to it. *)

From S2P Require Import Prelude Memory Sync Interfaces Heap HeapRegion HeapChunks HeapInv HeapSpec HeapRuns HeapProvider Bus Acpi Madt Shootdown Apic ApicTop ApicInit Ioapic Pic Interrupts Pit KernelData.

(** ** A memory manager with one window

    The state is the physical address the window shows. *)
Definition window : Z := 0xffff900000000000.

#[local] Instance window_mapping : MappingProvider Z := {|
  mp_memory_map paddr size flags := fun v => Ok (MkVMemHandle 1 1, paddr);
  mp_deallocate h := fun v => Ok (tt, v);
  mp_vmem_addr h v := window;
  mp_translate v a := v + (a - window)
|}.

#[local] Instance window_laws : MappingLaws Z.
Proof.
  refine {| mp_ok := fun _ => True |}. intros v paddr size flags _ Hp Hs Hr Hq. exists (MkVMemHandle 1 1), paddr. cbn. unfold window. split_and!; try done; try lia.
  by exists paddr.
Defined.

#[local] Instance quiet_device : Device := {| port_value t p := 0; reg_value t a := 0 |}.
#[local] Instance plain_processor : Processor :=
  {| cpuid_1_edx := Z.lor (Z.shiftl 1 5) (Z.shiftl 1 9); rdmsr r := (Z.shiftl 1 11, 0) |}.

(** ** Tables *)

Definition rsdp_bytes : list Z :=
    [82; 83; 68; 32; 80; 84; 82; 32; 224; 0; 0; 0; 0; 0; 0; 0; 0; 0; 1; 0].
Definition rsdt_bytes : list Z :=
    [82; 83; 68; 84; 40; 0; 0; 0; 1; 137; 0; 0; 0; 0; 0; 0; 0; 0; 0; 0; 0; 0; 0; 0; 0; 0; 0; 0; 0;
   0; 0; 0; 0; 0; 0; 0; 0; 16; 1; 0].
Definition madt_bytes : list Z :=
    [65; 80; 73; 67; 80; 0; 0; 0; 1; 199; 0; 0; 0; 0; 0; 0; 0; 0; 0; 0; 0; 0; 0; 0; 0; 0; 0; 0; 0;
   0; 0; 0; 0; 0; 0; 0; 0; 0; 224; 254; 1; 0; 0; 0; 0; 8; 0; 0; 1; 0; 0; 0; 1; 12; 0; 0; 0; 0; 192;
   254; 0; 0; 0; 0; 2; 10; 0; 0; 2; 0; 0; 0; 0; 0; 4; 6; 255; 0; 0; 1].
(** A second table, whose second local controller is not usable. *)
Definition madt2_bytes : list Z :=
    [65; 80; 73; 67; 60; 0; 0; 0; 1; 180; 0; 0; 0; 0; 0; 0; 0; 0; 0; 0; 0; 0; 0; 0; 0; 0; 0; 0; 0;
   0; 0; 0; 0; 0; 0; 0; 0; 0; 224; 254; 1; 0; 0; 0; 0; 8; 0; 0; 1; 0; 0; 0; 0; 8; 1; 1; 0; 0; 0; 0].

Definition place (a : Z) (bytes : list Z) : list (Z * Z) := imap (fun i b => (a + Z.of_nat i, b)) bytes.

(** The root pointer is in the BIOS area; the EBDA starts at 0x9fc00. *)
Definition firmware (madt : list Z) : mem :=
  list_to_map (place 0x40e [0xc0; 0x9f] ++ place 0xe0010 rsdp_bytes ++ place 0x10000 rsdt_bytes ++ place 0x11000 madt).

Definition boot_acpi (madt : list Z) : acpi_state Z := AcpiState 0 (firmware madt) NULL NULL NULL.
Definition ready_acpi (madt : list Z) : acpi_state Z := AcpiState 0 (firmware madt) 0xe0010 NULL NULL.

Lemma acpi_init_correct_witness :
  exists v, acpi_init (boot_acpi madt_bytes) = Ok (true, set_cached 0xe0010 NULL (put acpi_vm_lens v (boot_acpi madt_bytes))).
Proof.
  destruct (acpi_init_correct (boot_acpi madt_bytes)) as [_ Hr]; [done|by vm_compute|].
  assert (E : first_such (is_rsdp (acpi_mem (boot_acpi madt_bytes))) (rsdp_candidates (acpi_mem (boot_acpi madt_bytes))) = 0xe0010)
    by (by vm_compute).
  rewrite E in Hr. destruct Hr as (v & _ & H1 & _); [done|]. exists v. rewrite H1; [|by vm_compute]. by vm_compute.
Defined.

Lemma ready_cached madt :
  madt = madt_bytes \/ madt = madt2_bytes -> acpi_cached_ok (ready_acpi madt) /\ acpi_tables (ready_acpi madt) = [0x11000].
Proof.
  intros HM. assert (E : acpi_tables (ready_acpi madt) = [0x11000]) by (destruct HM as [-> | ->]; by vm_compute).
  split; [|done]. unfold acpi_cached_ok. rewrite E. split_and!; [done|done|destruct HM as [-> | ->]; by vm_compute|].
  by intros a ->%list_elem_of_singleton.
Qed.

Lemma get_table_header_correct_witness :
  get_table_header APIC_signature (ready_acpi madt_bytes) = Ok (0x11000, ready_acpi madt_bytes).
Proof.
  rewrite (proj1 (get_table_header_correct APIC_signature (ready_acpi madt_bytes)) (proj1 (ready_cached _ (or_introl eq_refl)))).
  by vm_compute.
Defined.

Definition madt_list (madt : list Z) : list Z :=
  ics_addresses 100 (firmware madt) (0x11000 + Z.of_nat (length madt)) (0x11000 + sizeof_MADT).

Lemma madt_ready madt : madt = madt_bytes \/ madt = madt2_bytes -> madt_table (firmware madt) 0x11000 (madt_list madt).
Proof.
  intros [-> | ->]; unfold madt_table; (split_and!; [lia|by vm_compute|]).
  all: match goal with |- ics_chain _ _ _ ?l => let l' := eval vm_compute in l in change l with l' end.
  all: repeat (split; [vm_compute; reflexivity|]); vm_compute; discriminate.
Qed.

Lemma madt_counts_correct_witness :
  count_number_of_local_apic (firmware madt_bytes) 0x11000 tt = Ok (1, tt) /\
  count_ICS_header_instances (firmware madt_bytes) 0x11000 ICS_TYPE_PROCESSOR_IO_APIC tt = Ok (1, tt).
Proof.
  destruct (madt_counts_correct (firmware madt_bytes) 0x11000 (madt_list madt_bytes) ICS_TYPE_PROCESSOR_IO_APIC tt
    (madt_ready _ (or_introl eq_refl))) as [-> ->]. by vm_compute.
Defined.

(** ** Local controllers *)

Lemma heap1_blocks : hp_inv heap1 {[ base + 8 := 48 ]}.
Proof.
  exists base, chunks1. split_and!; [exact heap1_inv| |by vm_compute]. apply (bool_decide_unpack _). by vm_compute.
Qed.

Definition boot_apic (madt : list Z) : apic_state Z (heap_state region) :=
  ApicState (ready_acpi madt) heap1 [] true (MkLAPICData NULL [] 0 0 invalid_handle) [].

Lemma boot_ready madt :
  madt = madt_bytes \/ madt = madt2_bytes ->
  init_ready (boot_apic madt) 0x11000 (madt_list madt) (set_cached_madt 0x11000 (ready_acpi madt)).
Proof.
  intros HM. split; [done|done| |by apply madt_ready|done|].
  - destruct HM as [-> | ->]; by vm_compute.
  - exists {[ base + 8 := 48 ]}. split; [apply heap1_blocks|].
    destruct HM as [-> | ->]; split_and!; by vm_compute.
Qed.

Lemma init_apic_subsystem_correct_witness :
  exists s', init_apic_subsystem (boot_apic madt_bytes) = Ok (true, s') /\
    lapics (lapic_gdata s') = [MkLocalAPIC 0 0x1102c 0x1104a false] /\ ap_handlers s' = [APIC_ERROR_VECTOR].
Proof.
  destruct (init_apic_subsystem_correct (boot_apic madt_bytes) 0x11000 (madt_list madt_bytes) (set_cached_madt 0x11000 (ready_acpi madt_bytes)))
    as (s' & R & El & _ & _ & _ & Eh & _).
  - by apply boot_ready; left.
  - intros p. assert (E : lapic_entries (firmware madt_bytes) (madt_list madt_bytes) = [0x1102c]) by (by vm_compute).
    change (acpi_mem _) with (firmware madt_bytes). rewrite E. intros ->%list_elem_of_singleton. by vm_compute.
  - apply (bool_decide_unpack _). by vm_compute.
  - intros p Hp Hn. left. change (acpi_mem _) with (firmware madt_bytes) in *.
    assert (F : forallb (fun p => negb (is_nmi (firmware madt_bytes) p) || (nmi_uid (firmware madt_bytes) p =? 0xff))
      (madt_list madt_bytes) = true) by (by vm_compute).
    apply list_elem_of_In in Hp. specialize (proj1 (forallb_forall _ _) F p Hp) as Fp. cbv beta in Fp. rewrite Hn in Fp. by apply Z.eqb_eq.
  - by vm_compute.
  - split; by vm_compute.
  - exists s'. split_and!; [exact R|rewrite El; by vm_compute|exact Eh].
Defined.

Lemma init_apic_subsystem_unusable_panics_witness : init_apic_subsystem (boot_apic madt2_bytes) = Panic FAILED_ASSERT.
Proof.
  apply (init_apic_subsystem_unusable_panics (boot_apic madt2_bytes) 0x11000 (madt_list madt2_bytes)
    (set_cached_madt 0x11000 (ready_acpi madt2_bytes)) 0x11034).
  - by apply boot_ready; right.
  - assert (E : lapic_entries (firmware madt2_bytes) (madt_list madt2_bytes) = [0x1102c; 0x11034]) by (by vm_compute).
    change (acpi_mem _) with (firmware madt2_bytes). rewrite E. right. by left.
  - by vm_compute.
Defined.

(** The controller after its initialisation: idle, so the first poll succeeds. *)
Definition mapped_apic : apic_state Z (heap_state region) :=
  ApicState (ready_acpi madt_bytes) heap1 [] true (MkLAPICData (base + 8) [MkLocalAPIC 0 0x1102c 0x1104a true] 1 0xfee00000 (MkVMemHandle 1 1)) [].

Lemma send_IPI_writes_command_witness :
  exists t, send_IPI_by_lapic_id 1 3 0x31 mapped_apic = Ok (tt, put bus_lens t mapped_apic) /\ length t = 4%nat.
Proof.
  destruct (send_IPI_writes_command 0 1 mapped_apic 3 APIC_DESTSH_ALL_EXCLUDING_SELF 0x31)
    as (low & high & low' & high' & _ & _ & R & _); try done; try lia.
  eexists. split; [exact R|]. by vm_compute.
Defined.

(** ** I/O controllers *)

Definition small_ioapic (overrides : list Z) (array : Z) : ioapic_state Z (heap_state region) :=
  IoapicState mapped_apic
    (MkIOAPICData (base + 8) [MkIOAPIC 0x11034 0xfec00000 (MkVMemHandle 1 1) 0 0x11 24] 1 array overrides (Z.of_nat (length overrides)))
    false.
Definition timer_redirection : IOAPICInterruptRedirection := MkRedirection false 0 0 0 false 0x41.

Lemma ioapic_redirection_correct_witness :
  exists low high, setIOAPICInterruptRedirection timer_redirection 0 (small_ioapic [0x11040] (base + 64)) =
    Ok (tt, put io_bus_lens [ConsoleText isa_fix_text; RegWrite8 window 0x14; RegWrite (window + 0x10) low;
                             RegWrite8 window 0x15; RegWrite (window + 0x10) high]
              (small_ioapic [0x11040] (base + 64))) /\ low + 2 ^ 32 * high = 0x41.
Proof.
  destruct (ioapic_redirection_correct (small_ioapic [0x11040] (base + 64)) timer_redirection 0
    (MkIOAPIC 0x11034 0xfec00000 (MkVMemHandle 1 1) 0 0x11 24)) as (low & high & R & E).
  - done.
  - by vm_compute.
  - intros p Hp. assert (p = 0x11040) as -> by (vm_compute in Hp; congruence). split; by vm_compute.
  - by vm_compute.
  - cbn. lia.
  - split; cbn; lia.
  - exists low, high. split; [|exact E]. rewrite R. by vm_compute.
Defined.

Lemma ioapic_no_override_panics_witness :
  setIOAPICInterruptRedirection timer_redirection 0 (small_ioapic [] NULL) = Panic FAILED_ASSERT.
Proof. apply (ioapic_no_override_panics (small_ioapic [] NULL) timer_redirection 0); reflexivity. Defined.

(** ** Legacy controllers, dispatch and timer *)

Lemma pic_mask_updates_one_line_witness :
  exists old, set_pic_irq_mask 0x21 (PicState [] true false) =
    Ok (tt, PicState [PortIn 8 MASTER_DATA_PORT old; PortOut 8 MASTER_DATA_PORT 2] true false).
Proof.
  destruct (pic_mask_updates_one_line (PicState [] true false) 0x21) as (old & set & clr & E & R & _ & B);
    [done|by vm_compute|]. exists old. rewrite R. subst old. by vm_compute.
Defined.

Definition idle_interrupts : int_state Z (heap_state region) :=
  IntState (small_ioapic [0x11040] (base + 64)) false true (replicate 256 0) (replicate 256 0) 0x1234 false.
Definition no_handler (h : Z) (i : InterruptInfo) : M (int_state Z (heap_state region)) unit := ret tt.

(** A controller with the vector 0x41 in service. *)
Definition serving_device : Device := {| port_value t p := 0; reg_value t a := if a =? window + 0x120 then 2 else 0 |}.

Lemma interrupt_routine_dispatches_witness :
  interrupt_routine (DV := serving_device) no_handler 0x41 0 0 idle_interrupts =
    Ok (tt, put all_bus [RegRead (window + 0x20) 0; RegRead (window + 0x120) 2; RegWrite (window + 0xB0) 0] idle_interrupts).
Proof.
  destruct (interrupt_routine_dispatches (DV := serving_device) no_handler idle_interrupts 0x41 0 0 eq_refl) as [D _].
  assert (Hd : dispatched idle_interrupts 0x41).
  { split_and!; [done|done|done|]. intros _. vm_compute. intros [_ C]. done. }
  destruct (D Hd) as [_ D2]. destruct (D2 idle_interrupts eq_refl) as [_ R]. rewrite R; [reflexivity|done|done|by eexists].
Defined.

Lemma pit_frequency_at_least_target_witness :
  get_counter_value_from_frequency 1000 tt = Ok (1193, tt) /\ get_frequency_hz_from_counter_value 1193 tt = Ok (1000, tt).
Proof.
  destruct (pit_frequency_at_least_target 1000 tt ltac:(lia)) as [R1 (f & R2 & _)]. split; [exact R1|].
  change (PIT_FREQ_HZ / 1000) with 1193 in R2. rewrite R2. vm_compute in R2. by injection R2 as <-.
Defined.

Definition running_timer : pit_state Z (heap_state region) :=
  PitState idle_interrupts (MkPIT false 7 100 0x41 0 false false).

Lemma PIT_wait_ms_returns_witness :
  exists n s', PIT_wait_ms (fun _ => 1) (fun _ => []) 201 2 running_timer = Ok (tt, s') /\ the_pit s' = set_ticks n (the_pit running_timer) /\ 8 <= n.
Proof.
  destruct (PIT_wait_ms_returns (fun _ => 1) (fun _ => []) running_timer 2 201) as [R _]; cbn; try lia.
  destruct R as (n & m & s' & R & _ & E & B); [done|]. exists n, s'. split_and!; [exact R|exact E|cbn in B; lia].
Defined.

(** ** Processor data *)

Definition boot_data : kernel_data (heap_state region) := KernelData heap1 true NULL false 0 ∅ 0.
Definition no_data (p : Z) : LocalKernelData := MkLocalData invalid_handle 0.

Lemma kernel_data_registry_correct_witness :
  exists p s' B', register_local_kernel_data_cpu no_data boot_data = Ok (0, s') /\ kd_inv B' [(p, no_data p)] s'.
Proof.
  destruct (kernel_data_registry_correct no_data {[ base + 8 := 48 ]} [] boot_data) as [R _].
  - split; try done; [apply heap1_blocks|by apply NoDup_nil|]. by intros p ?%elem_of_nil.
  - destruct R as (p & s' & B' & R & I' & _); [split_and!; by vm_compute|done|]. exists p, s', B'. split; [exact R|exact I'].
Defined.
