(* ===== verification/Cpu.v ===== *)
(** * Processor tables (HAL/x86-64/cpu.c, gdt.c, idt.c, tss.c, init.c)

    The descriptor tables are shared by the processors; each processor has a
    task state segment with the stacks of the exceptions that need their own. *)

From S2P Require Import Prelude Memory Interfaces.

(** ** Segment descriptors *)

Record GDT : Type := MkGDT {
  gdt_limit : Z; base1 : Z; base2 : Z; access : Z; limit_flags : Z; base3 : Z; base4 : Z; gdt_reserved : Z
}.
Definition sizeof_GDT : Z := 16.

Definition GDT_GRANULARITY_FLAG : Z := Z.shiftl 1 3.
Definition GDT_LONG_MODE_FLAG : Z := Z.shiftl 1 1.
Definition GDT_PRESENT : Z := Z.shiftl 1 7.
Definition GDT_DPL (x : Z) : Z := Z.shiftl x 5.
Definition GDT_NOT_SYSTEM : Z := Z.shiftl 1 4.
Definition GDT_EXECUTABLE : Z := Z.shiftl 1 3.
Definition GDT_CONFORMING : Z := Z.shiftl 1 2.
Definition GDT_READ_WRITE : Z := Z.shiftl 1 1.
Definition GDT_TYPE_TSS_AVAIBLE : Z := 0x9.
Definition bits (l : list Z) : Z := foldr Z.lor 0 l.

(** [reserved] is not assigned: it keeps what the stack held ([junk]). *)
Definition make_gdt (junk base limit flags access : Z) : GDT :=
  MkGDT (Z.land limit 0xffff) (Z.land base 0xffff) (Z.land (Z.shiftr base 16) 0xff) access
    (Z.lor (Z.land (Z.shiftr limit 16) 0xf) (Z.land (Z.shiftl flags 4) 0xf0))
    (Z.land (Z.shiftr base 24) 0xff) (Z.land (Z.shiftr base 32) 0xffffffff) junk.

(** ** Interrupt descriptors *)

Record IDTEntry : Type := MkIDTEntry {
  offset1 : Z; segment_selector : Z; ist : Z; attributes_type : Z; offset2 : Z; offset3 : Z
}.
Definition sizeof_IDTEntry : Z := 16.
Definition IDT_INTERRUPT_TYPE : Z := 0xE.
Definition IDT_TRAP_TYPE : Z := 0xF.
Definition IDT_PRESENT (x : Z) : Z := Z.shiftl x 7.
Definition IDT_DPL (x : Z) : Z := Z.shiftl x 5.

Definition make_idt_entry {St} (offset selector ist_ attributes : Z) : M St IDTEntry :=
  KASSERT (ist_ <=? 7);;
  KASSERT (Z.land attributes (Z.shiftl 1 4) =? 0);;
  ret (MkIDTEntry (wrap16 offset) selector ist_ attributes (wrap16 (Z.shiftr offset 16)) (wrap32 (Z.shiftr offset 32))).

(** ** Task state *)

Record TSS : Type := MkTSS { rsp0 : Z; rsp1 : Z; rsp2 : Z; ist1 : Z; ist2 : Z }.
Definition sizeof_TSS : Z := 104.
(** [memset] to zero; the fields that stay zero are left out. *)
Definition init_tss : TSS := MkTSS NULL NULL NULL NULL NULL.

Record LocalCPUState : Type := MkLocalCPU { tss : TSS; exception_stack : VMemHandle; page_fault_stack : VMemHandle }.
Definition sizeof_LocalCPUState : Z := 136.

Record GlobalCPUState : Type := MkGlobalCPU {
  gdt_address : Z; gdt : list GDT; idt_address : Z; idt : list IDTEntry;
  local_cpu_address : Z; local_cpu_states : list LocalCPUState;
  number_of_logical_cores : Z; gdt_entry_count : Z; cpu_structures_vmem : VMemHandle
}.

(** What the processor is told: the table registers and the task register. *)
Inductive cpu_event : Type :=
| LoadGDT (address size : Z)
| LoadIDT (address size : Z)
| LoadTR (selector : Z).

Definition KERNEL_CODE_SELECTOR : Z := 0x10.
Definition TSS_SELECTORS : Z := 0x50.
Definition DATA_CODE_SELCTOR_NUMBER : Z := 4.
Definition INTERRUPT_NUMBER : Z := 256.
Definition DOUBLE_FAULT_INT_NUMBER : Z := 0x8.
Definition NMI_INT_NUMBER : Z := 0x2.
Definition PAGE_FAULT_INT_NUMBER : Z := 0xe.

Record cpu_state (V : Type) : Type := CpuState {
  cpu_vm : V; global_cpu_state : GlobalCPUState; cpu_events : list cpu_event; arch_initialized : bool;
  (** the control register CR0 of the running processor *)
  cr0 : Z
}.
Arguments CpuState {V}.
Arguments cpu_vm {V}.
Arguments global_cpu_state {V}.
Arguments cpu_events {V}.
Arguments arch_initialized {V}.
Arguments cr0 {V}.

Section ops.
Context {V : Type} {VP : VMemProvider V}.
#[local] Abbreviation state := (cpu_state V).
Implicit Types s : state.
(** The addresses of the interrupt stubs, the release of a region, and what the
    stack holds at [make_gdt]. *)
Context (isr_stub_table : Z -> Z) (deallocate_kernel_virtual_memory : VMemHandle -> M V unit) (junk : Z).

Definition cpu_vm_lens : lens state V :=
  Lens cpu_vm (fun v s => CpuState v (global_cpu_state s) (cpu_events s) (arch_initialized s) (cr0 s)).
Definition set_global (g : GlobalCPUState) s : state := CpuState (cpu_vm s) g (cpu_events s) (arch_initialized s) (cr0 s).
Definition modify_global (f : GlobalCPUState -> GlobalCPUState) : M state unit :=
  modify (fun s => set_global (f (global_cpu_state s)) s).
Definition emit_cpu (e : cpu_event) : M state unit :=
  modify (fun s => CpuState (cpu_vm s) (global_cpu_state s) (cpu_events s ++ [e]) (arch_initialized s) (cr0 s)).

Definition set_gdt (l : list GDT) (g : GlobalCPUState) : GlobalCPUState :=
  MkGlobalCPU (gdt_address g) l (idt_address g) (idt g) (local_cpu_address g) (local_cpu_states g)
    (number_of_logical_cores g) (gdt_entry_count g) (cpu_structures_vmem g).
Definition set_idt (l : list IDTEntry) (g : GlobalCPUState) : GlobalCPUState :=
  MkGlobalCPU (gdt_address g) (gdt g) (idt_address g) l (local_cpu_address g) (local_cpu_states g)
    (number_of_logical_cores g) (gdt_entry_count g) (cpu_structures_vmem g).
Definition set_locals (l : list LocalCPUState) (g : GlobalCPUState) : GlobalCPUState :=
  MkGlobalCPU (gdt_address g) (gdt g) (idt_address g) (idt g) (local_cpu_address g) l
    (number_of_logical_cores g) (gdt_entry_count g) (cpu_structures_vmem g).
Definition set_cores (n : Z) (g : GlobalCPUState) : GlobalCPUState :=
  MkGlobalCPU (gdt_address g) (gdt g) (idt_address g) (idt g) (local_cpu_address g) (local_cpu_states g)
    n (gdt_entry_count g) (cpu_structures_vmem g).

Definition empty_gdt : GDT := MkGDT 0 0 0 0 0 0 0 0.
Definition empty_idt : IDTEntry := MkIDTEntry 0 0 0 0 0 0.
Definition empty_local : LocalCPUState := MkLocalCPU init_tss invalid_handle invalid_handle.

(** Bytes of the tables and of the local states. *)
Definition cpu_structures_real_size (n : Z) : Z :=
  sizeof_GDT * (DATA_CODE_SELCTOR_NUMBER + 1 + n) + sizeof_IDTEntry * INTERRUPT_NUMBER + sizeof_LocalCPUState * n.
Definition cpu_structures_vmm_size (n : Z) : Z :=
  cpu_structures_real_size n + PAGE_SIZE - cpu_structures_real_size n mod PAGE_SIZE.

Definition allocate_global_cpu_state_memory (n : Z) : M state unit :=
  let count := DATA_CODE_SELCTOR_NUMBER + 1 + n in
  h <- zoom cpu_vm_lens (allocate_kernel_virtual_memory (cpu_structures_vmm_size n) VM_TYPE_GENERAL_USE PAGE_SIZE PAGE_SIZE);;
  a <- gets (fun s => get_vmem_addr h (cpu_vm s));;
  let i := wrap64 (a + sizeof_GDT * count) in
  let l := wrap64 (i + sizeof_IDTEntry * INTERRUPT_NUMBER) in
  modify_global (fun g => MkGlobalCPU a (replicate (Z.to_nat count) empty_gdt) i (replicate (Z.to_nat INTERRUPT_NUMBER) empty_idt)
    l (replicate (Z.to_nat n) empty_local) (number_of_logical_cores g) (wrap32 count) h).

(** Writing outside of a table is an access to the guard page. *)
Definition write_gdt (i : nat) (e : GDT) : M state unit := fun s =>
  if decide (i < length (gdt (global_cpu_state s)))%nat
  then modify_global (fun g => set_gdt (<[i := e]> (gdt g)) g) s else Fault.

Definition code_flags : Z := bits [GDT_GRANULARITY_FLAG; GDT_LONG_MODE_FLAG].
Definition setup_gdt : M state unit :=
  write_gdt 0 (make_gdt junk 0 0 0 0);;
  write_gdt 1 (make_gdt junk 0 0xffffff code_flags
    (bits [GDT_PRESENT; GDT_DPL 0; GDT_NOT_SYSTEM; GDT_EXECUTABLE; GDT_CONFORMING; GDT_READ_WRITE]));;
  write_gdt 2 (make_gdt junk 0 0xffffff code_flags (bits [GDT_PRESENT; GDT_DPL 0; GDT_NOT_SYSTEM; GDT_READ_WRITE]));;
  write_gdt 3 (make_gdt junk 0 0xffffff code_flags
    (bits [GDT_PRESENT; GDT_DPL 3; GDT_NOT_SYSTEM; GDT_EXECUTABLE; GDT_READ_WRITE]));;
  write_gdt 4 (make_gdt junk 0 0xffffff code_flags (bits [GDT_PRESENT; GDT_DPL 3; GDT_NOT_SYSTEM; GDT_READ_WRITE])).

Definition idt_ist (i : Z) : Z :=
  if (i =? DOUBLE_FAULT_INT_NUMBER) || (i =? NMI_INT_NUMBER) then 1 else if i =? PAGE_FAULT_INT_NUMBER then 2 else 0.
Definition idt_attributes (i : Z) : Z :=
  Z.lor (Z.lor (IDT_DPL 0) (IDT_PRESENT 1)) (if i <? 32 then IDT_TRAP_TYPE else IDT_INTERRUPT_TYPE).

Fixpoint setup_idt_loop (n : nat) (i : Z) : M state unit :=
  match n with
  | O => ret tt
  | S n' =>
      e <- make_idt_entry (isr_stub_table i) KERNEL_CODE_SELECTOR (idt_ist i) (idt_attributes i);;
      modify_global (fun g => set_idt (<[Z.to_nat i := e]> (idt g)) g);;
      setup_idt_loop n' (i + 1)
  end.
Definition setup_idt : M state unit := setup_idt_loop (Z.to_nat INTERRUPT_NUMBER) 0.

(** The body of the loop of [make_CPU_states] for processor [i]. *)
Definition make_local (i : nat) : M state unit :=
  e <- zoom cpu_vm_lens (allocate_kernel_virtual_memory (16 * KB) VM_TYPE_STACK PAGE_SIZE PAGE_SIZE);;
  p <- zoom cpu_vm_lens (allocate_kernel_virtual_memory (128 * KB) VM_TYPE_STACK PAGE_SIZE PAGE_SIZE);;
  s <- get;;
  let t := MkTSS NULL NULL NULL
             (wrap64 (get_vmem_addr e (cpu_vm s) + get_vmem_size e (cpu_vm s)))
             (wrap64 (get_vmem_addr p (cpu_vm s) + get_vmem_size p (cpu_vm s))) in
  modify_global (fun g => set_locals (<[i := MkLocalCPU t e p]> (local_cpu_states g)) g);;
  g <- gets global_cpu_state;;
  KASSERT ((5 + Z.of_nat i) * sizeof_GDT <=? gdt_entry_count g * sizeof_GDT);;
  write_gdt (5 + i) (make_gdt junk (wrap64 (local_cpu_address g + sizeof_LocalCPUState * Z.of_nat i)) (sizeof_TSS - 1)
    GDT_LONG_MODE_FLAG (bits [GDT_PRESENT; GDT_DPL 0; GDT_TYPE_TSS_AVAIBLE])).

Fixpoint make_locals (n i : nat) : M state unit :=
  match n with
  | O => ret tt
  | S n' => make_local i;; make_locals n' (S i)
  end.

Definition make_CPU_states (n : Z) : M state unit :=
  modify_global (set_cores (wrap32 n));;
  allocate_global_cpu_state_memory n;;
  setup_gdt;;
  setup_idt;;
  make_locals (Z.to_nat n) 0.

Fixpoint delete_stacks (l : list LocalCPUState) : M state unit :=
  match l with
  | [] => ret tt
  | x :: l' =>
      zoom cpu_vm_lens (deallocate_kernel_virtual_memory (exception_stack x));;
      zoom cpu_vm_lens (deallocate_kernel_virtual_memory (page_fault_stack x));;
      delete_stacks l'
  end.

Definition delete_CPU_states : M state unit :=
  g <- gets global_cpu_state;;
  delete_stacks (take (Z.to_nat (number_of_logical_cores g)) (local_cpu_states g));;
  zoom cpu_vm_lens (deallocate_kernel_virtual_memory (cpu_structures_vmem g)).

Definition get_tss_selector (cpu_id : Z) : Z := wrap16 (TSS_SELECTORS + wrap16 (cpu_id * 0x10)).

Definition load_gdt (address size : Z) : M state unit := emit_cpu (LoadGDT address (wrap16 (wrap16 size * sizeof_GDT - 1))).

Definition load_CPU_state (cpuid : Z) : M state unit :=
  g <- gets global_cpu_state;;
  KASSERT (cpuid <? number_of_logical_cores g);;
  let tss_selector := get_tss_selector cpuid in
  KASSERT (tss_selector <? gdt_entry_count g * 0x10);;
  load_gdt (gdt_address g) (gdt_entry_count g);;
  emit_cpu (LoadIDT (idt_address g) (sizeof_IDTEntry * INTERRUPT_NUMBER - 1));;
  emit_cpu (LoadTR tss_selector).

Definition get_number_of_usable_logical_cores s : Z := number_of_logical_cores (global_cpu_state s).

(** ** init.c *)

(** Clear the cache-disable and the not-write-through bit. *)
Definition set_up_caching : M state unit :=
  modify (fun s => CpuState (cpu_vm s) (global_cpu_state s) (cpu_events s) (arch_initialized s)
    (Z.land (Z.land (cr0 s) (Z.lnot (Z.shiftl 1 29))) (Z.lnot (Z.shiftl 1 30)))).

Definition early_init_cpu : M state unit := set_up_caching;; make_CPU_states 1;; load_CPU_state 0.
Definition set_up_arch_layer : M state unit :=
  early_init_cpu;;
  modify (fun s => CpuState (cpu_vm s) (global_cpu_state s) (cpu_events s) true (cr0 s)).
Definition is_hal_arch_initialized s : bool := arch_initialized s.
Definition init_cpu_data (n : Z) : M state unit :=
  b <- gets is_hal_arch_initialized;;
  KASSERT b;;
  delete_CPU_states;;
  make_CPU_states n.
Definition init_cpu (cpuid : Z) : M state unit := set_up_caching;; load_CPU_state cpuid.
End ops.
