(* ===== verification/CpuTop.v ===== *)
(** * Processor tables: encodings, layout and the state of each processor *)

From S2P Require Import Prelude Memory Interfaces Cpu.

(** ** Descriptors read back *)

Definition gdt_base (g : GDT) : Z := base1 g + base2 g * 2 ^ 16 + base3 g * 2 ^ 24 + base4 g * 2 ^ 32.
Definition gdt_size_limit (g : GDT) : Z := gdt_limit g + (limit_flags g mod 16) * 2 ^ 16.
Definition gdt_flags (g : GDT) : Z := limit_flags g / 16.
Definition idt_offset (e : IDTEntry) : Z := offset1 e + offset2 e * 2 ^ 16 + offset3 e * 2 ^ 32.

Lemma gdt_decode junk base limit flags acc :
  0 <= base < 2 ^ 64 -> 0 <= limit < 2 ^ 20 -> 0 <= flags < 16 ->
  let g := make_gdt junk base limit flags acc in
  gdt_base g = base /\ gdt_size_limit g = limit /\ gdt_flags g = flags /\ access g = acc.
Proof.
  intros Hb Hl Hf. cbv zeta. unfold gdt_base, gdt_size_limit, gdt_flags, make_gdt.
  cbn [base1 base2 base3 base4 gdt_limit limit_flags access].
  change 0xffffffff with (Z.ones 32). change 0xffff with (Z.ones 16). change 0xff with (Z.ones 8). change 0xf with (Z.ones 4).
  change 0xf0 with (Z.shiftl (Z.ones 4) 4). rewrite <-Z.shiftl_land, !Z.land_ones, !Z.shiftr_div_pow2 by lia.
  rewrite (Z.mod_small flags) by lia. rewrite Z.lor_comm, lor_shiftl_low by lia.
  change (2 ^ 4) with 16. split_and!; try done; lia.
Qed.

(** ** What the code asks of the memory manager

    [vmem_room] is the memory still to be had: a request that fits with its two
    guard pages is served, and the regions already handed out stay where they
    are, apart from the new one. *)
Class VMemRoom (V : Type) {VP : VMemProvider V} {VL : VMemLaws V} : Type := {
  vmem_room : V -> Z;
  room_alloc : forall v size type, vmem_wf v -> 0 < size < 2 ^ 40 -> size mod PAGE_SIZE = 0 -> owns_frames type = true ->
    size + 2 * PAGE_SIZE <= vmem_room v ->
    exists h v', allocate_kernel_virtual_memory size type PAGE_SIZE PAGE_SIZE v = Ok (h, v') /\ vmem_wf v' /\
      is_vmemhandle_invalid h = false /\ vmem_room v - (size + 2 * PAGE_SIZE) <= vmem_room v' /\
      (forall k, vmem_live k v -> vmem_live k v' /\ get_vmem_addr k v' = get_vmem_addr k v /\ get_vmem_size k v' = get_vmem_size k v) /\
      (forall k, vmem_live k v -> get_vmem_addr k v' + get_vmem_size k v' <= get_vmem_addr h v' \/
         get_vmem_addr h v' + get_vmem_size h v' <= get_vmem_addr k v')
}.

Section states.
Context {V : Type} {VP : VMemProvider V} {VL : VMemLaws V} {VR : VMemRoom V}.
Context (isr_stub_table : Z -> Z) (junk : Z).
#[local] Abbreviation state := (cpu_state V).
Implicit Types s : state.

(** A region at the end of a run: live, with its top. *)
Definition stack_top (h : VMemHandle) (v : V) : Z := get_vmem_addr h v + get_vmem_size h v.
Definition stays (v v' : V) : Prop :=
  forall k, vmem_live k v -> vmem_live k v' /\ get_vmem_addr k v' = get_vmem_addr k v /\ get_vmem_size k v' = get_vmem_size k v.

Lemma stays_refl v : stays v v.
Proof. by intros k Hk. Qed.
Lemma stays_trans v1 v2 v3 : stays v1 v2 -> stays v2 v3 -> stays v1 v3.
Proof.
  intros H1 H2 k Hk. destruct (H1 k Hk) as (L1 & A1 & S1). destruct (H2 k L1) as (L2 & A2 & S2).
  split_and!; [done|congruence|congruence].
Qed.

(** The regions are live and no two of them overlap. *)
Definition apart (v : V) (h k : VMemHandle) : Prop :=
  stack_top h v <= get_vmem_addr k v \/ stack_top k v <= get_vmem_addr h v.
Fixpoint all_apart (v : V) (hs : list VMemHandle) : Prop :=
  match hs with
  | [] => True
  | h :: hs' => vmem_live h v /\ (forall k, k ∈ hs' -> apart v h k) /\ all_apart v hs'
  end.

Lemma all_apart_live v hs k : all_apart v hs -> k ∈ hs -> vmem_live k v.
Proof. induction hs as [|h hs IH]; [by intros _ ?%elem_of_nil|]. intros (HL & _ & HA) [->|Hk]%elem_of_cons; [done|by apply IH]. Qed.

Lemma all_apart_stays v v' hs : all_apart v hs -> stays v v' -> all_apart v' hs.
Proof.
  intros HA F. induction hs as [|h hs IH]; [done|]. destruct HA as (HL & HK & HA). destruct (F h HL) as (HL' & A & S).
  split_and!; [done| |by apply IH]. intros k Hk. destruct (F k (all_apart_live _ _ _ HA Hk)) as (_ & Ak & Sk).
  specialize (HK k Hk). unfold apart, stack_top in *. by rewrite A, S, Ak, Sk.
Qed.

Lemma all_apart_snoc v hs h : all_apart v hs -> vmem_live h v -> (forall k, k ∈ hs -> apart v k h) -> all_apart v (hs ++ [h]).
Proof.
  intros HA HL HK. induction hs as [|k hs IH]; cbn [app all_apart].
  - split_and!; [done|by intros ? ?%elem_of_nil|done].
  - destruct HA as (H1 & H2 & H3). split_and!; [done| |].
    + intros k' [Hk|Hk]%elem_of_app; [by apply H2|]. apply list_elem_of_singleton in Hk as ->. apply HK, list_elem_of_here.
    + apply IH; [done|]. intros k' Hk. by apply HK, list_elem_of_further.
Qed.

(** A new region joins them. *)
Lemma all_apart_new v v' hs h :
  all_apart v hs -> stays v v' -> vmem_live h v' -> (forall k, vmem_live k v -> apart v' k h) -> all_apart v' (hs ++ [h]).
Proof.
  intros HA F HL HK. apply all_apart_snoc; [by eapply all_apart_stays|done|].
  intros k Hk. apply HK. by eapply all_apart_live.
Qed.

Lemma alloc_run s size type :
  vmem_wf (cpu_vm s) -> 0 < size < 2 ^ 40 -> size mod PAGE_SIZE = 0 -> owns_frames type = true ->
  size + 2 * PAGE_SIZE <= vmem_room (cpu_vm s) ->
  exists h v', zoom cpu_vm_lens (allocate_kernel_virtual_memory size type PAGE_SIZE PAGE_SIZE) s = Ok (h, put cpu_vm_lens v' s) /\
    vmem_wf v' /\ vmem_live h v' /\ get_vmem_size h v' = size /\ stays (cpu_vm s) v' /\
    vmem_room (cpu_vm s) - (size + 2 * PAGE_SIZE) <= vmem_room v' /\ (forall k, vmem_live k (cpu_vm s) -> apart v' k h).
Proof.
  intros Hw Hs Ha Ho Hr. destruct (room_alloc _ _ _ Hw Hs Ha Ho Hr) as (h & v' & R & W & I & Rm & F & Ap).
  exists h, v'. unfold zoom. cbn [view cpu_vm_lens]. rewrite R.
  destruct (vmem_alloc size type PAGE_SIZE PAGE_SIZE (cpu_vm s) h v') as [HL HS]; try done; unfold PAGE_SIZE in *; try lia.
Qed.

(** ** The interrupt table *)

Definition idt_entry_for (i : Z) : IDTEntry :=
  MkIDTEntry (wrap16 (isr_stub_table i)) KERNEL_CODE_SELECTOR (idt_ist i) (idt_attributes i)
    (wrap16 (Z.shiftr (isr_stub_table i) 16)) (wrap32 (Z.shiftr (isr_stub_table i) 32)).

Lemma idt_entry_run i (s : state) :
  make_idt_entry (isr_stub_table i) KERNEL_CODE_SELECTOR (idt_ist i) (idt_attributes i) s = Ok (idt_entry_for i, s).
Proof.
  unfold make_idt_entry. rewrite (bind_ok _ _ s tt s).
  2:{ apply KASSERT_ok. unfold idt_ist. by repeat case_match. }
  rewrite (bind_ok _ _ s tt s); [done|]. apply KASSERT_ok. unfold idt_attributes. by destruct (i <? 32).
Qed.

Lemma setup_idt_loop_run n i s :
  0 <= i ->
  exists l, setup_idt_loop isr_stub_table n i s = Ok (tt, set_global (set_idt l (global_cpu_state s)) s) /\
    length l = length (idt (global_cpu_state s)) /\
    (forall j, (Z.of_nat j < i \/ i + Z.of_nat n <= Z.of_nat j) -> l !! j = idt (global_cpu_state s) !! j) /\
    (forall j, i <= Z.of_nat j < i + Z.of_nat n -> (j < length l)%nat -> l !! j = Some (idt_entry_for (Z.of_nat j))).
Proof.
  revert i s. induction n as [|n IH]; intros i s Hi.
  { exists (idt (global_cpu_state s)). split_and!; [by destruct s as [? [] ? ? ?]|done|done|lia]. }
  cbn [setup_idt_loop]. rewrite (bind_ok _ _ _ _ _ (idt_entry_run i s)). unfold bind at 1, modify_global, modify.
  set (s1 := set_global _ s). destruct (IH (i + 1) s1) as (l & R & El & Hout & Hin); [lia|].
  exists l. rewrite R. cbn [s1 set_global global_cpu_state set_idt idt] in *. rewrite length_insert in El. split_and!.
  - done.
  - done.
  - intros j Hj. rewrite Hout by lia. rewrite list_lookup_insert_ne; [done|lia].
  - intros j Hj Hjl. destruct (decide (Z.of_nat j = i)) as [Hji|].
    + rewrite Hout by lia. replace (Z.to_nat i) with j by lia. rewrite list_lookup_insert_eq by lia. by rewrite Hji.
    + apply Hin; lia.
Qed.

(** ** The local states *)

Definition tss_descriptor (g : GlobalCPUState) (i : nat) : GDT :=
  make_gdt junk (wrap64 (local_cpu_address g + sizeof_LocalCPUState * Z.of_nat i)) (sizeof_TSS - 1)
    GDT_LONG_MODE_FLAG (bits [GDT_PRESENT; GDT_DPL 0; GDT_TYPE_TSS_AVAIBLE]).

(** Processor [i] is set up: its stacks are live, its task state points to
    their tops and its descriptor to the task state. *)
Definition local_ready s (i : nat) : Prop :=
  exists x, local_cpu_states (global_cpu_state s) !! i = Some x /\
    vmem_live (exception_stack x) (cpu_vm s) /\ vmem_live (page_fault_stack x) (cpu_vm s) /\
    ist1 (tss x) = stack_top (exception_stack x) (cpu_vm s) /\
    ist2 (tss x) = stack_top (page_fault_stack x) (cpu_vm s) /\
    get_vmem_size (exception_stack x) (cpu_vm s) = 16 * KB /\ get_vmem_size (page_fault_stack x) (cpu_vm s) = 128 * KB /\
    gdt (global_cpu_state s) !! (5 + i)%nat = Some (tss_descriptor (global_cpu_state s) i).

(** The region of the tables and the stacks of the first [i] processors. *)
Definition stacks_of (x : LocalCPUState) : list VMemHandle := [exception_stack x; page_fault_stack x].
Definition regions s (i : nat) : list VMemHandle :=
  cpu_structures_vmem (global_cpu_state s) :: concat (stacks_of <$> take i (local_cpu_states (global_cpu_state s))).

(** The parts of the state that the loop over the processors leaves alone. *)
Record same_tables s s' : Prop := {
  st_gdt_address : gdt_address (global_cpu_state s') = gdt_address (global_cpu_state s);
  st_idt : idt (global_cpu_state s') = idt (global_cpu_state s) /\ idt_address (global_cpu_state s') = idt_address (global_cpu_state s);
  st_local : local_cpu_address (global_cpu_state s') = local_cpu_address (global_cpu_state s);
  st_cores : number_of_logical_cores (global_cpu_state s') = number_of_logical_cores (global_cpu_state s);
  st_count : gdt_entry_count (global_cpu_state s') = gdt_entry_count (global_cpu_state s);
  st_vmem : cpu_structures_vmem (global_cpu_state s') = cpu_structures_vmem (global_cpu_state s);
  st_lengths : length (gdt (global_cpu_state s')) = length (gdt (global_cpu_state s)) /\
    length (local_cpu_states (global_cpu_state s')) = length (local_cpu_states (global_cpu_state s));
  st_events : cpu_events s' = cpu_events s;
  st_cr0 : cr0 s' = cr0 s
}.

Lemma same_tables_refl s : same_tables s s.
Proof. by split. Qed.
Lemma same_tables_trans s1 s2 s3 : same_tables s1 s2 -> same_tables s2 s3 -> same_tables s1 s3.
Proof. intros [? [] ? ? ? ? [] ? ?] [? [] ? ? ? ? [] ? ?]. split; try congruence; split; congruence. Qed.

Lemma stack_top_range h v : vmem_live h v -> wrap64 (stack_top h v) = stack_top h v.
Proof. intros HL. pose proof (vmem_live_range _ _ HL) as (H1 & _ & H3 & _ & H5). apply wrap64_small. unfold stack_top, PAGE_SIZE in *. lia. Qed.

(** What one processor needs: two stacks and their guard pages. *)
Definition local_room : Z := 16 * KB + 128 * KB + 4 * PAGE_SIZE.

Lemma make_local_run s i :
  vmem_wf (cpu_vm s) -> local_room <= vmem_room (cpu_vm s) -> (i < length (local_cpu_states (global_cpu_state s)))%nat -> (5 + i < length (gdt (global_cpu_state s)))%nat ->
  gdt_entry_count (global_cpu_state s) = Z.of_nat (length (gdt (global_cpu_state s))) -> all_apart (cpu_vm s) (regions s i) ->
  exists s', make_local junk i s = Ok (tt, s') /\ vmem_wf (cpu_vm s') /\ vmem_room (cpu_vm s) - local_room <= vmem_room (cpu_vm s') /\ stays (cpu_vm s) (cpu_vm s') /\ same_tables s s' /\
    local_ready s' i /\ all_apart (cpu_vm s') (regions s' (S i)) /\
    (forall j, j <> i -> local_cpu_states (global_cpu_state s') !! j = local_cpu_states (global_cpu_state s) !! j) /\
    (forall j, j <> (5 + i)%nat -> gdt (global_cpu_state s') !! j = gdt (global_cpu_state s) !! j).
Proof.
  intros Hw Hm Hi Hg Hc HAp. unfold make_local, local_room, KB, PAGE_SIZE in *.
  destruct (alloc_run s (16 * KB) VM_TYPE_STACK Hw) as (e & v1 & R1 & W1 & L1 & S1 & F1 & M1 & P1); [done|done|done|unfold PAGE_SIZE, KB; lia|].
  rewrite (bind_ok _ _ _ _ _ R1). set (s1 := put cpu_vm_lens v1 s).
  destruct (alloc_run s1 (128 * KB) VM_TYPE_STACK W1) as (p & v2 & R2 & W2 & L2 & S2 & F2 & M2 & P2); [done|done|done|change (cpu_vm s1) with v1; unfold PAGE_SIZE, KB in *; lia|].
  rewrite (bind_ok _ _ _ _ _ R2). set (s2 := put cpu_vm_lens v2 s1). rewrite (bind_ok _ _ s2 s2 s2) by done. cbv zeta.
  change (cpu_vm s2) with v2. destruct (F2 e L1) as (L1' & A1' & S1').
  fold (stack_top e v2). fold (stack_top p v2). rewrite !stack_top_range by done.
  set (x := MkLocalCPU _ e p). unfold bind at 1, modify_global at 1, modify. set (s3 := set_global _ s2).
  rewrite (bind_ok _ _ s3 (global_cpu_state s3) s3) by done.
  rewrite (bind_ok _ _ s3 tt s3).
  2:{ apply KASSERT_ok, Z.leb_le. cbn. rewrite Hc. unfold sizeof_GDT. lia. }
  unfold write_gdt. rewrite decide_True by exact Hg. eexists. split; [reflexivity|]. cbn [cpu_vm set_global].
  change (cpu_vm s3) with v2. split_and!.
  - done.
  - change (cpu_vm s1) with v1 in M2. unfold PAGE_SIZE, KB in *. lia.
  - by eapply stays_trans.
  - split; try done. cbn. split; by rewrite length_insert.
  - exists x. cbn. rewrite list_lookup_insert_eq by done. rewrite list_lookup_insert_eq by done. split_and!; try done. by rewrite S1'.
  - replace (regions _ (S i)) with ((regions s i ++ [e]) ++ [p]).
    2:{ unfold regions. cbn [global_cpu_state set_global set_gdt set_locals cpu_structures_vmem local_cpu_states s3].
        rewrite (take_S_r _ i x) by (by rewrite list_lookup_insert_eq). rewrite take_insert_ge by lia.
        rewrite fmap_app, concat_app, <-app_assoc. done. }
    eapply all_apart_new; [|exact F2|exact L2|exact P2]. by eapply all_apart_new.
  - intros j Hj. cbn. by rewrite list_lookup_insert_ne.
  - intros j Hj. cbn -[Nat.add]. by rewrite list_lookup_insert_ne.
Qed.
Lemma local_ready_stays s s' i :
  local_ready s i -> stays (cpu_vm s) (cpu_vm s') -> same_tables s s' ->
  local_cpu_states (global_cpu_state s') !! i = local_cpu_states (global_cpu_state s) !! i ->
  gdt (global_cpu_state s') !! (5 + i)%nat = gdt (global_cpu_state s) !! (5 + i)%nat -> local_ready s' i.
Proof.
  intros (x & Ex & L1 & L2 & I1 & I2 & S1 & S2 & G) F T El Eg. destruct (F _ L1) as (L1' & A1 & B1). destruct (F _ L2) as (L2' & A2 & B2).
  exists x. unfold stack_top, tss_descriptor in *. rewrite El, Eg, A1, B1, A2, B2, (st_local _ _ T). split_and!; done.
Qed.

Lemma make_locals_run n i s :
  vmem_wf (cpu_vm s) -> Z.of_nat n * local_room <= vmem_room (cpu_vm s) -> (i + n = length (local_cpu_states (global_cpu_state s)))%nat ->
  (5 + i + n = length (gdt (global_cpu_state s)))%nat ->
  gdt_entry_count (global_cpu_state s) = Z.of_nat (length (gdt (global_cpu_state s))) ->
  (forall j, (j < i)%nat -> local_ready s j) -> all_apart (cpu_vm s) (regions s i) ->
  exists s', make_locals junk n i s = Ok (tt, s') /\ vmem_wf (cpu_vm s') /\ stays (cpu_vm s) (cpu_vm s') /\ same_tables s s' /\
    (forall j, (j < i + n)%nat -> local_ready s' j) /\ all_apart (cpu_vm s') (regions s' (i + n)) /\
    (forall j, (j < 5)%nat -> gdt (global_cpu_state s') !! j = gdt (global_cpu_state s) !! j).
Proof.
  revert i s. induction n as [|n IH]; intros i s Hw Hm Hi Hg Hc Hr HAp.
  { exists s. split; [done|]. rewrite Nat.add_0_r. split_and!; [done|apply stays_refl|apply same_tables_refl|intros j Hj; apply Hr; lia|done|done]. }
  destruct (make_local_run s i) as (s1 & R1 & W1 & M1 & F1 & T1 & Rd & Ap1 & Lo & Go); [done|unfold local_room, KB, PAGE_SIZE in *; lia|lia|lia|done|done|].
  destruct (st_lengths _ _ T1) as [Eg El].
  destruct (IH (S i) s1) as (s2 & R2 & W2 & F2 & T2 & Rd2 & Ap2 & Go2); [done|lia|lia|lia|rewrite (st_count _ _ T1); lia| |done|].
  { intros j Hj. destruct (decide (j = i)) as [->|]; [done|].
    apply (local_ready_stays s); [apply Hr; lia|done|done|by apply Lo|apply Go; lia]. }
  exists s2. cbn [make_locals]. rewrite (bind_ok _ _ _ _ _ R1). split; [exact R2|]. split_and!.
  - done.
  - by eapply stays_trans.
  - by eapply same_tables_trans.
  - intros j Hj. apply Rd2. lia.
  - by replace (i + S n)%nat with (S i + n)%nat by lia.
  - intros j Hj. rewrite Go2 by done. apply Go. lia.
Qed.

(** ** The fixed descriptors *)

Definition segment_descriptors : list GDT :=
  [make_gdt junk 0 0 0 0;
   make_gdt junk 0 0xffffff code_flags (bits [GDT_PRESENT; GDT_DPL 0; GDT_NOT_SYSTEM; GDT_EXECUTABLE; GDT_CONFORMING; GDT_READ_WRITE]);
   make_gdt junk 0 0xffffff code_flags (bits [GDT_PRESENT; GDT_DPL 0; GDT_NOT_SYSTEM; GDT_READ_WRITE]);
   make_gdt junk 0 0xffffff code_flags (bits [GDT_PRESENT; GDT_DPL 3; GDT_NOT_SYSTEM; GDT_EXECUTABLE; GDT_READ_WRITE]);
   make_gdt junk 0 0xffffff code_flags (bits [GDT_PRESENT; GDT_DPL 3; GDT_NOT_SYSTEM; GDT_READ_WRITE])].

Lemma write_gdt_run i e s :
  (i < length (gdt (global_cpu_state s)))%nat ->
  write_gdt i e s = Ok (tt, set_global (set_gdt (<[i := e]> (gdt (global_cpu_state s))) (global_cpu_state s)) s).
Proof. intros Hi. unfold write_gdt. by rewrite decide_True. Qed.

Lemma setup_gdt_run s n :
  gdt (global_cpu_state s) = replicate (5 + n) empty_gdt ->
  setup_gdt junk s = Ok (tt, set_global (set_gdt (segment_descriptors ++ replicate n empty_gdt) (global_cpu_state s)) s).
Proof.
  intros E. unfold setup_gdt. destruct s as [v [ga g ia idt_ la ls nc ec vm] ev ai cr]. cbn in E. subst g.
  do 4 (erewrite bind_ok; [|apply write_gdt_run; cbn; lia]; cbn [set_global set_gdt global_cpu_state gdt cpu_vm cpu_events arch_initialized]).
  by rewrite write_gdt_run by (cbn; lia).
Qed.
(** ** The whole setup *)

Record tables_ready s (n : nat) : Prop := {
  tr_vm : vmem_wf (cpu_vm s);
  tr_vmem : vmem_live (cpu_structures_vmem (global_cpu_state s)) (cpu_vm s);
  (** the tables follow each other inside of the region *)
  tr_gdt_address : gdt_address (global_cpu_state s) = get_vmem_addr (cpu_structures_vmem (global_cpu_state s)) (cpu_vm s);
  tr_idt_address : idt_address (global_cpu_state s) = gdt_address (global_cpu_state s) + sizeof_GDT * Z.of_nat (length (gdt (global_cpu_state s)));
  tr_local_address : local_cpu_address (global_cpu_state s) =
    idt_address (global_cpu_state s) + sizeof_IDTEntry * Z.of_nat (length (idt (global_cpu_state s)));
  tr_fits : local_cpu_address (global_cpu_state s) + sizeof_LocalCPUState * Z.of_nat (length (local_cpu_states (global_cpu_state s))) <=
    stack_top (cpu_structures_vmem (global_cpu_state s)) (cpu_vm s);
  tr_gdt : length (gdt (global_cpu_state s)) = (5 + n)%nat /\ take 5 (gdt (global_cpu_state s)) = segment_descriptors;
  tr_idt : idt (global_cpu_state s) = map (fun i => idt_entry_for (Z.of_nat i)) (seq 0 256);
  tr_counts : number_of_logical_cores (global_cpu_state s) = Z.of_nat n /\ gdt_entry_count (global_cpu_state s) = Z.of_nat (5 + n) /\
    length (local_cpu_states (global_cpu_state s)) = n;
  tr_locals : forall i, (i < n)%nat -> local_ready s i;
  (** the tables and the two stacks of every processor do not overlap *)
  tr_apart : all_apart (cpu_vm s) (regions s n)
}.

Lemma vmm_size_props n : 0 <= n < 4096 ->
  cpu_structures_real_size n <= cpu_structures_vmm_size n < 2 ^ 40 /\ cpu_structures_vmm_size n mod PAGE_SIZE = 0.
Proof.
  intros Hn. unfold cpu_structures_vmm_size, cpu_structures_real_size, sizeof_GDT, sizeof_IDTEntry, sizeof_LocalCPUState,
    DATA_CODE_SELCTOR_NUMBER, INTERRUPT_NUMBER, PAGE_SIZE in *. lia.
Qed.

Lemma idt_all l :
  length l = 256%nat -> (forall j, 0 <= Z.of_nat j < 256 -> (j < length l)%nat -> l !! j = Some (idt_entry_for (Z.of_nat j))) ->
  l = map (fun i => idt_entry_for (Z.of_nat i)) (seq 0 256).
Proof.
  intros El H. apply list_eq. intros j. rewrite list_lookup_fmap. destruct (decide (j < 256)%nat) as [Hj|Hj].
  - rewrite lookup_seq_lt by done. cbn [fmap option_fmap option_map Nat.add]. apply H; lia.
  - rewrite lookup_ge_None_2, lookup_seq_ge by lia. done.
Qed.

Lemma allocate_tables_run s (n : nat) :
  vmem_wf (cpu_vm s) -> (0 < n < 4096)%nat -> cpu_structures_vmm_size (Z.of_nat n) + 2 * PAGE_SIZE <= vmem_room (cpu_vm s) ->
  exists h v', vmem_wf v' /\ vmem_room (cpu_vm s) - (cpu_structures_vmm_size (Z.of_nat n) + 2 * PAGE_SIZE) <= vmem_room v' /\ vmem_live h v' /\ stays (cpu_vm s) v' /\
    cpu_structures_real_size (Z.of_nat n) <= get_vmem_size h v' /\
    allocate_global_cpu_state_memory (Z.of_nat n) s =
      Ok (tt, CpuState v' (MkGlobalCPU (get_vmem_addr h v') (replicate (5 + n) empty_gdt)
        (get_vmem_addr h v' + 16 * Z.of_nat (5 + n)) (replicate 256 empty_idt)
        (get_vmem_addr h v' + 16 * Z.of_nat (5 + n) + 4096) (replicate n empty_local)
        (number_of_logical_cores (global_cpu_state s)) (Z.of_nat (5 + n)) h) (cpu_events s) (arch_initialized s) (cr0 s)).
Proof.
  intros Hw Hn Hm. destruct (vmm_size_props (Z.of_nat n)) as (Hsz & Hal); [lia|]. unfold allocate_global_cpu_state_memory. cbv zeta.
  assert (Hr : cpu_structures_real_size (Z.of_nat n) = 16 * Z.of_nat (5 + n) + 4096 + 136 * Z.of_nat n).
  { unfold cpu_structures_real_size, sizeof_GDT, sizeof_IDTEntry, sizeof_LocalCPUState, DATA_CODE_SELCTOR_NUMBER, INTERRUPT_NUMBER. lia. }
  destruct (alloc_run s (cpu_structures_vmm_size (Z.of_nat n)) VM_TYPE_GENERAL_USE Hw) as (h & v1 & R1 & W1 & L1 & S1 & F1 & M1 & _); [lia|done|done|done|].
  pose proof (vmem_live_range _ _ L1) as (A1 & _ & _ & _ & A2). unfold PAGE_SIZE in A1. rewrite S1 in A2.
  exists h, v1. split_and!; try done; [lia|]. rewrite (bind_ok _ _ _ _ _ R1). set (s1 := put cpu_vm_lens v1 s).
  rewrite (bind_ok _ _ s1 (get_vmem_addr h v1) s1) by done. cbv zeta. unfold modify_global, modify.
  unfold DATA_CODE_SELCTOR_NUMBER, sizeof_GDT, sizeof_IDTEntry, INTERRUPT_NUMBER.
  replace (4 + 1 + Z.of_nat n) with (Z.of_nat (5 + n)) by lia. change (16 * 256) with 4096.
  rewrite (wrap64_small (get_vmem_addr h v1 + _)) by lia. rewrite wrap64_small by lia. rewrite !Nat2Z.id.
  rewrite (wrap_small 32 (Z.of_nat (5 + n))) by lia. done.
Qed.

(** What [n] processors need. *)
Definition cpu_room (n : nat) : Z := cpu_structures_vmm_size (Z.of_nat n) + 2 * PAGE_SIZE + Z.of_nat n * local_room.

Lemma make_CPU_states_run s (n : nat) :
  vmem_wf (cpu_vm s) -> (0 < n < 4096)%nat -> cpu_room n <= vmem_room (cpu_vm s) ->
  exists s', make_CPU_states isr_stub_table junk (Z.of_nat n) s = Ok (tt, s') /\ tables_ready s' n /\
    stays (cpu_vm s) (cpu_vm s') /\ cpu_events s' = cpu_events s /\ cr0 s' = cr0 s.
Proof.
  intros Hw Hn Hm. unfold cpu_room, local_room, KB, PAGE_SIZE in Hm. unfold make_CPU_states. unfold bind at 1, modify_global at 1, modify. set (s0 := set_global _ s).
  destruct (allocate_tables_run s0 n) as (h & v1 & W1 & M1 & L1 & F1 & Z1 & R1); [done|done|change (cpu_vm s0) with (cpu_vm s); unfold PAGE_SIZE; lia|].
  rewrite (bind_ok _ _ _ _ _ R1). set (s1 := CpuState v1 _ _ _ _).
  rewrite (bind_ok _ _ _ _ _ (setup_gdt_run s1 n eq_refl)). set (s2 := set_global _ s1). unfold setup_idt.
  destruct (setup_idt_loop_run (Z.to_nat INTERRUPT_NUMBER) 0 s2) as (l & R2 & El & _ & Hl); [done|].
  rewrite (bind_ok _ _ _ _ _ R2). set (s3 := set_global _ s2). rewrite Nat2Z.id.
  apply idt_all in Hl; [|by rewrite El].
  destruct (make_locals_run n 0 s3) as (s' & R3 & W3 & F3 & T3 & Hr & HAp & Hg).
  { done. }
  { change (cpu_vm s3) with v1. change (cpu_vm s0) with (cpu_vm s) in M1. unfold local_room, KB, PAGE_SIZE in *. lia. }
  { cbn. by rewrite length_replicate. }
  { cbn. by rewrite length_replicate. }
  { cbn -[Z.of_nat]. by rewrite length_replicate. }
  { lia. }
  { cbn. split_and!; [exact L1|by intros k ?%elem_of_nil|done]. }
  exists s'. split; [exact R3|]. destruct (F3 h L1) as (L3 & A3 & S3).
  destruct T3 as [T1 [T2 T2'] T4 T5 T6 T7 [T8 T8'] T9 T10].
  assert (Eg : length (gdt (global_cpu_state s3)) = (5 + n)%nat) by (cbn; by rewrite length_replicate).
  assert (Elo : length (local_cpu_states (global_cpu_state s3)) = n) by (cbn; by rewrite length_replicate).
  assert (Ei : idt (global_cpu_state s3) = l) by done.
  split_and!; [|by eapply stays_trans|done|done]. split.
  - done.
  - by rewrite T7.
  - rewrite T1, T7. symmetry. exact A3.
  - rewrite T2', T1, T8, Eg. done.
  - rewrite T4, T2', T2, Ei, El. done.
  - rewrite T4, T7, T8', Elo. unfold stack_top. change (cpu_structures_vmem _) with h. rewrite A3, S3.
    change (local_cpu_address (global_cpu_state s3)) with (get_vmem_addr h v1 + 16 * Z.of_nat (5 + n) + 4096).
    change (cpu_vm s3) with v1.
    unfold cpu_structures_real_size, sizeof_GDT, sizeof_IDTEntry, sizeof_LocalCPUState, DATA_CODE_SELCTOR_NUMBER, INTERRUPT_NUMBER in *. lia.
  - split; [by rewrite T8|]. apply list_eq. intros j. destruct (decide (j < 5)%nat) as [Hj|Hj].
    + rewrite lookup_take_lt, Hg by done. change (gdt (global_cpu_state s3)) with (segment_descriptors ++ replicate n empty_gdt).
      by rewrite lookup_app_l.
    + by rewrite lookup_take_ge, lookup_ge_None_2 by (cbn; lia).
  - by rewrite T2, Ei.
  - split_and!; [rewrite T5|by rewrite T6|by rewrite T8']. cbn -[Z.of_nat wrap32]. apply wrap_small. lia.
  - done.
  - done.
Qed.

Lemma load_CPU_state_run s n (i : nat) :
  tables_ready s n -> (i < n < 4000)%nat ->
  exists s', load_CPU_state (Z.of_nat i) s = Ok (tt, s') /\ cpu_vm s' = cpu_vm s /\ global_cpu_state s' = global_cpu_state s /\ cr0 s' = cr0 s /\
    cpu_events s' = cpu_events s ++
      [LoadGDT (gdt_address (global_cpu_state s)) (sizeof_GDT * Z.of_nat (5 + n) - 1);
       LoadIDT (idt_address (global_cpu_state s)) (sizeof_IDTEntry * 256 - 1); LoadTR (sizeof_GDT * Z.of_nat (5 + i))].
Proof.
  intros T Hi. destruct (tr_counts _ _ T) as (C1 & C2 & C3). unfold load_CPU_state.
  set (g := global_cpu_state s) in *. rewrite (bind_ok _ _ s g s) by done.
  assert (Ht : get_tss_selector (Z.of_nat i) = 16 * Z.of_nat (5 + i)).
  { unfold get_tss_selector, TSS_SELECTORS. rewrite (wrap_small 16 (_ * _)), wrap_small; lia. }
  rewrite (bind_ok _ _ s tt s) by (apply KASSERT_ok, Z.ltb_lt; lia). cbv zeta.
  rewrite (bind_ok _ _ s tt s) by (apply KASSERT_ok, Z.ltb_lt; lia). rewrite Ht, C2.
  unfold load_gdt. rewrite (wrap_small 16 (Z.of_nat _)), wrap_small by (unfold sizeof_GDT; lia).
  eexists. split; [reflexivity|]. split_and!; [done|done|done|]. cbn -[Z.of_nat Z.mul]. rewrite <-!app_assoc. cbn -[Z.of_nat Z.mul].
  by rewrite (Z.mul_comm _ sizeof_GDT).
Qed.

Lemma set_up_caching_run s :
  exists s', set_up_caching s = Ok (tt, s') /\ cpu_vm s' = cpu_vm s /\ global_cpu_state s' = global_cpu_state s /\
    cpu_events s' = cpu_events s /\
    forall k, 0 <= k -> Z.testbit (cr0 s') k = Z.testbit (cr0 s) k && negb (k =? 29) && negb (k =? 30).
Proof.
  eexists. split; [reflexivity|]. split_and!; [done..|]. intros k Hk. cbn [cr0].
  rewrite !Z.land_spec, !Z.lnot_spec, !Z.shiftl_1_l, !Z.pow2_bits_eqb, (Z.eqb_sym k 29), (Z.eqb_sym k 30) by lia. done.
Qed.

Lemma tables_ready_same s s' n :
  tables_ready s n -> cpu_vm s' = cpu_vm s -> global_cpu_state s' = global_cpu_state s -> tables_ready s' n.
Proof.
  intros T EV EG. destruct s as [v1 g1 e1 b1 c1], s' as [v2 g2 e2 b2 c2]. cbn in EV, EG. subst v2 g2. destruct T. by split.
Qed.

(** C28: With room for its regions make_CPU_states builds the descriptor tables and
    one task state per processor inside one region in order; the region of the tables
    and the two stacks of every processor are pairwise disjoint, and each task state
    points to the tops of its own two stacks; init_cpu turns caching on (clears the bits
    CD and NW of CR0 and no other) and loads the tables and the task register of the
    processor. *)
Theorem make_CPU_states_correct s (n i : nat) :
  vmem_wf (cpu_vm s) -> (i < n < 4000)%nat -> cpu_room n <= vmem_room (cpu_vm s) ->
  exists s1 s2, make_CPU_states isr_stub_table junk (Z.of_nat n) s = Ok (tt, s1) /\ tables_ready s1 n /\
    init_cpu (Z.of_nat i) s1 = Ok (tt, s2) /\ tables_ready s2 n /\ cpu_events s2 = cpu_events s ++
      [LoadGDT (gdt_address (global_cpu_state s1)) (sizeof_GDT * Z.of_nat (5 + n) - 1);
       LoadIDT (idt_address (global_cpu_state s1)) (sizeof_IDTEntry * 256 - 1); LoadTR (sizeof_GDT * Z.of_nat (5 + i))] /\
    (forall k, 0 <= k -> Z.testbit (cr0 s2) k = Z.testbit (cr0 s) k && negb (k =? 29) && negb (k =? 30)) /\
    all_apart (cpu_vm s2) (regions s2 n) /\
    exists d x, gdt (global_cpu_state s2) !! (5 + i)%nat = Some d /\ local_cpu_states (global_cpu_state s2) !! i = Some x /\
      gdt_base d = local_cpu_address (global_cpu_state s2) + sizeof_LocalCPUState * Z.of_nat i /\
      gdt_size_limit d = sizeof_TSS - 1 /\
      ist1 (tss x) = stack_top (exception_stack x) (cpu_vm s2) /\ ist2 (tss x) = stack_top (page_fault_stack x) (cpu_vm s2).
Proof.
  intros Hw Hi Hm. destruct (make_CPU_states_run s n) as (s1 & R1 & T1 & _ & E1 & C1); [done|lia|done|].
  destruct (set_up_caching_run s1) as (sc & Rc & Vc & Gc & Ec & Cc). pose proof (tables_ready_same _ _ _ T1 Vc Gc) as Tc.
  destruct (load_CPU_state_run sc n i Tc Hi) as (s2 & R2 & V2 & G2 & C2 & E2). rewrite Ec, E1, Gc in E2.
  pose proof (tables_ready_same _ _ _ Tc V2 G2) as T2.
  exists s1, s2. split_and!; [done|done|unfold init_cpu; by rewrite (bind_ok _ _ _ _ _ Rc)|done|done|by rewrite C2, <-C1|exact (tr_apart _ _ T2)|].
  destruct (tr_locals _ _ T2 i) as (x & Ex & _ & _ & I1 & I2 & _ & _ & Ed); [lia|].
  exists (tss_descriptor (global_cpu_state s2) i), x. split; [exact Ed|]. split; [exact Ex|].
  destruct (tr_counts _ _ T2) as (_ & _ & C3). pose proof (vmem_live_range _ _ (tr_vmem _ _ T2)) as (A1 & _ & _ & _ & A2).
  pose proof (tr_fits _ _ T2) as Hf. pose proof (tr_gdt_address _ _ T2). pose proof (tr_idt_address _ _ T2). pose proof (tr_local_address _ _ T2).
  unfold stack_top, sizeof_GDT, sizeof_IDTEntry, sizeof_LocalCPUState, PAGE_SIZE in *.
  destruct (gdt_decode junk (wrap64 (local_cpu_address (global_cpu_state s2) + 136 * Z.of_nat i)) (sizeof_TSS - 1)
    GDT_LONG_MODE_FLAG (bits [GDT_PRESENT; GDT_DPL 0; GDT_TYPE_TSS_AVAIBLE])) as (D1 & D2 & _); [by apply wrap_range|done|done|].
  split_and!; [|exact D2|done|done]. etrans; [exact D1|]. rewrite wrap64_small; [done|lia].
Qed.
End states.

(** ** The processor tables on a concrete machine

    A memory manager that hands out regions upwards from the start of the
    kernel half: it keeps the laws, so the setup of two processors can be run. *)

Record bump : Type := Bump { bp_next : Z; bp_if : bool }.
Definition bump_start : Z := 0xffff800000000000.
Definition bump_limit : Z := bump_start + 2 ^ 40.

Definition bump_allocate (size : Z) (type : VirtualMemoryType) (up low : Z) : M bump VMemHandle := fun v =>
  if (0 <? size) && (bp_next v + size + up + low <=? bump_limit)
  then Ok (MkVMemHandle (bp_next v + low) size, Bump (bp_next v + size + up + low) (bp_if v))
  else Ok (invalid_handle, v).

#[export] Instance bump_provider : VMemProvider bump := {
  vp_if := Lens bp_if (fun b v => Bump (bp_next v) b);
  get_vmem_addr h _ := vm_desc h;
  get_vmem_size h _ := vmm h;
  try_expand_vmem_top _ _ := ret false;
  allocate_kernel_virtual_memory := bump_allocate
}.

Definition bump_wf (v : bump) : Prop := bump_start <= bp_next v <= bump_limit /\ bp_next v mod PAGE_SIZE = 0.
Definition bump_live (h : VMemHandle) (v : bump) : Prop :=
  bump_start <= vm_desc h /\ vm_desc h mod PAGE_SIZE = 0 /\ 0 < vmm h < 2 ^ 47 /\ vmm h mod PAGE_SIZE = 0 /\
  vm_desc h + vmm h <= bp_next v <= bump_limit.

#[export] Instance bump_laws : VMemLaws bump.
Proof.
  refine {| vmem_wf := bump_wf; vmem_live := bump_live |}.
  - split; try done. by intros [].
  - done.
  - done.
  - done.
  - intros h v (H1 & H2 & H3 & H4 & H5). unfold bump_limit, bump_start, PAGE_SIZE in *. cbn in *. split_and!; try done; lia.
  - intros h size v b v' H _ _ [= <- <-]. split_and!; try done. cbn. lia.
  - intros size type up low v h v' [Hr Ha] Hs Hu Hl Hsz As Au Al _ R Hi. cbn in R. unfold bump_allocate in R.
    destruct ((0 <? size) && _) eqn:E; [|by injection R as <- <-]. injection R as <- <-.
    apply andb_prop in E as [_ E]. apply Z.leb_le in E.
    split; [|done]. unfold bump_live. cbn. unfold PAGE_SIZE in *. split_and!; try lia.
Defined.

#[export] Instance bump_has_room : VMemRoom bump.
Proof.
  refine {| vmem_room v := bump_limit - bp_next v |}. intros v size type [Hr Ha] Hs As Ho Hf. cbn. unfold bump_allocate.
  destruct (Z.ltb_spec 0 size); [|lia]. destruct (Z.leb_spec (bp_next v + size + PAGE_SIZE + PAGE_SIZE) bump_limit); [|lia].
  eexists _, _. split; [reflexivity|]. unfold bump_wf, bump_live, PAGE_SIZE in *. cbn. split_and!; try lia.
  - unfold is_vmemhandle_invalid. cbn. apply andb_false_intro1, Z.eqb_neq. unfold NULL. lia.
Defined.

Definition no_global : GlobalCPUState := MkGlobalCPU 0 [] 0 [] 0 [] 0 0 invalid_handle.
Definition cpu_boot : cpu_state bump := CpuState (Bump bump_start true) no_global [] false 0xe0000011.
(** Stub [i] of the stub table, sixteen bytes apart. *)
Definition stubs (i : Z) : Z := 0xffffffff80001000 + 16 * i.

Lemma make_CPU_states_correct_witness :
  exists s1 s2, make_CPU_states stubs 0 2 cpu_boot = Ok (tt, s1) /\ init_cpu 1 s1 = Ok (tt, s2) /\ tables_ready stubs 0 s2 2 /\
    cpu_events s2 = [LoadGDT (gdt_address (global_cpu_state s1)) 111; LoadIDT (idt_address (global_cpu_state s1)) 4095; LoadTR 0x60].
Proof.
  destruct (make_CPU_states_correct stubs 0 cpu_boot 2 1) as (s1 & s2 & R1 & _ & R2 & T & E & _).
  - split; [done|reflexivity].
  - lia.
  - vm_compute. discriminate.
  - exists s1, s2. split; [exact R1|]. split; [exact R2|]. split; [exact T|exact E].
Defined.
