(* ===== verification/Display.v ===== *)
(** * Pixels and displays (display_interface.c, display_interface.h)

    A pixel is four bytes in memory, in the order blue, green, red, alpha; a
    display is a record of operations, as in the source. *)

From S2P Require Import Prelude Memory.

Record Pixel : Type := MkPixel { pixel_b : Z; pixel_g : Z; pixel_r : Z; pixel_a : Z }.
Record Color : Type := MkColor { color_r : Z; color_g : Z; color_b : Z; color_a : Z }.

#[export] Instance Pixel_eq_dec : EqDecision Pixel.
Proof. solve_decision. Defined.

Definition color_to_pixel (c : Color) : Pixel := MkPixel (color_b c) (color_g c) (color_r c) (color_a c).
Definition pixel_to_color (p : Pixel) : Color := MkColor (pixel_r p) (pixel_g p) (pixel_b p) (pixel_a p).

Definition sizeof_Pixel : Z := 4.
Definition load_pixel (m : mem) (a : Z) : Pixel := MkPixel (load8 m a) (load8 m (a + 1)) (load8 m (a + 2)) (load8 m (a + 3)).
Definition store_pixel (m : mem) (a : Z) (p : Pixel) : mem :=
  store8 (store8 (store8 (store8 m a (pixel_b p)) (a + 1) (pixel_g p)) (a + 2) (pixel_r p)) (a + 3) (pixel_a p).

Record DisplayInfo : Type := MkDisplayInfo { display_width : Z; display_height : Z; display_depth : Z }.

(** The state a display works on: its own and the memory. *)
Record screen (D : Type) : Type := Screen { sc_dev : D; sc_mem : mem }.
Arguments Screen {D}.
Arguments sc_dev {D}.
Arguments sc_mem {D}.

Record DisplayInterface (D : Type) : Type := MkDisplayInterface {
  info : DisplayInfo;
  display_init : M (screen D) unit;
  display_finalize : M (screen D) unit;
  write_pixels : Z -> Z -> M (screen D) unit
}.
Arguments MkDisplayInterface {D}.
Arguments info {D}.
Arguments display_init {D}.
Arguments display_finalize {D}.
Arguments write_pixels {D}.

(** ** Pixels in memory *)

Definition pixel_ok (p : Pixel) : Prop :=
  0 <= pixel_b p < 256 /\ 0 <= pixel_g p < 256 /\ 0 <= pixel_r p < 256 /\ 0 <= pixel_a p < 256.
Definition color_ok (c : Color) : Prop := pixel_ok (color_to_pixel c).

Lemma color_roundtrip c : pixel_to_color (color_to_pixel c) = c.
Proof. by destruct c. Qed.
Lemma pixel_roundtrip p : color_to_pixel (pixel_to_color p) = p.
Proof. by destruct p. Qed.

Lemma load8_store_pixel_out m a p b : b < a \/ a + 4 <= b -> load8 (store_pixel m a p) b = load8 m b.
Proof. intros H. unfold store_pixel. by rewrite !load8_store8_ne by lia. Qed.

Lemma load_store_pixel_same m a p : pixel_ok p -> load_pixel (store_pixel m a p) a = p.
Proof.
  intros (H1 & H2 & H3 & H4). destruct p as [b g r al]. unfold load_pixel, store_pixel. cbn in *.
  repeat first [rewrite load8_store8_eq | rewrite load8_store8_ne by lia]. by rewrite !Z.mod_small by lia.
Qed.

(** Pixels only depend on their bytes. *)
Lemma load_pixel_ext m m' a : (forall b, a <= b < a + 4 -> load8 m' b = load8 m b) -> load_pixel m' a = load_pixel m a.
Proof. intros H. unfold load_pixel. by rewrite !H by lia. Qed.

Lemma load_pixel_range m a : pixel_ok (load_pixel m a).
Proof. split_and!; apply load8_range. Qed.
