(* ===== verification/Psf.v ===== *)
(** * Screen font (psf.c)

    The font is an image in memory: a header, the bitmaps of the glyphs and a
    table of their codes.  The bitmaps are expanded once into a byte per pixel,
    in blocks of the kernel heap. *)

From S2P Require Import Prelude Memory Interfaces CircularBuffer Display.

Definition PSF2_MAGIC_NUMBER : Z := 0x864ab572.
Definition ASCII_TABLE_SIZE : Z := 128.

(** The fields of the header at [h]. *)
Definition psf_magic (m : mem) (h : Z) : Z := load32 m h.
Definition psf_headersize (m : mem) (h : Z) : Z := load32 m (h + 8).
Definition psf_flags (m : mem) (h : Z) : Z := load32 m (h + 12).
Definition psf_numglyph (m : mem) (h : Z) : Z := load32 m (h + 16).
Definition psf_bytesperglyph (m : mem) (h : Z) : Z := load32 m (h + 20).
Definition psf_height (m : mem) (h : Z) : Z := load32 m (h + 24).
Definition psf_width (m : mem) (h : Z) : Z := load32 m (h + 28).

Record PSFFont : Type := MkPSFFont {
  header : Z; ascii_table : list Z; is_valid : bool; has_table : bool; glyphs : Z
}.

Definition sizeof_CachedGlyph : Z := 8.

Record Vector2i : Type := MkVector2i { vec_x : Z; vec_y : Z }.

Section ops.
Context {H : Type} {HP : HeapProvider H}.
#[local] Abbreviation state := (cb_state H).

Definition write8 (a v : Z) : M state unit := modify (fun s => CBState (cb_heap s) (store8 (cb_mem s) a v)).
Definition write_ptr (a v : Z) : M state unit := modify (fun s => CBState (cb_heap s) (store64 (cb_mem s) a v)).

(** [(glyph[x/8] << (x%8)) & 0x80] *)
Definition glyph_bit (m : mem) (glyph x : Z) : bool :=
  negb (Z.land (Z.shiftl (load8 m (wrap64 (glyph + x / 8))) (x mod 8)) 0x80 =? 0).

(** The pixels of line [y] from column [x] on. *)
Fixpoint cache_row (n : nat) (pixels glyph width height x y : Z) : M state unit :=
  match n with
  | O => ret tt
  | S n' =>
      KASSERT (wrap64 (x + wrap64 (y * width)) <? wrap64 (width * height));;
      b <- gets (fun s => glyph_bit (cb_mem s) glyph x);;
      write8 (wrap64 (pixels + wrap64 (x + wrap64 (y * width)))) (Z.b2z b);;
      cache_row n' pixels glyph width height (x + 1) y
  end.

Fixpoint cache_rows (n : nat) (pixels glyph width height line_in_bytes y : Z) : M state unit :=
  match n with
  | O => ret tt
  | S n' =>
      cache_row (Z.to_nat width) pixels glyph width height 0 y;;
      cache_rows n' pixels (wrap64 (glyph + line_in_bytes)) width height line_in_bytes (y + 1)
  end.

Fixpoint cache_glyphs (n : nat) (header_ table width height line_in_bytes i : Z) : M state unit :=
  match n with
  | O => ret tt
  | S n' =>
      p <- zoom cb_heap_lens (hp_kmalloc (wrap64 (width * height)));;
      write_ptr (wrap64 (table + sizeof_CachedGlyph * i)) p;;
      glyph <- gets (fun s => wrap64 (header_ + psf_headersize (cb_mem s) header_ + i * psf_bytesperglyph (cb_mem s) header_));;
      cache_rows (Z.to_nat height) p glyph width height line_in_bytes 0;;
      cache_glyphs n' header_ table width height line_in_bytes (i + 1)
  end.

(** The number of glyphs is read before the loop: the loop writes only to the
    blocks it allocates. *)
Definition calc_glyphs_caches (font : PSFFont) : M state PSFFont :=
  m <- gets cb_mem;;
  let line_in_bytes := wrap32 (psf_width m (header font) + 7) / 8 in
  table <- zoom cb_heap_lens (hp_kmalloc (sizeof_CachedGlyph * psf_numglyph m (header font)));;
  cache_glyphs (Z.to_nat (psf_numglyph m (header font))) (header font) table (psf_width m (header font))
    (psf_height m (header font)) line_in_bytes 0;;
  ret (MkPSFFont (header font) (ascii_table font) (is_valid font) (has_table font) table).

(** One byte of the code table at [s]: the new position, glyph and table. *)
Definition table_step (uc s glyph : Z) (t : list Z) : Z * Z * list Z :=
  if uc =? 0xFF then (s + 1, wrap16 (glyph + 1), t)
  else if negb (Z.land uc 128 =? 0) then
    let s' := if Z.land uc 32 =? 0 then s + 1 else if Z.land uc 16 =? 0 then s + 2 else if Z.land uc 8 =? 0 then s + 3 else s in
    (s' + 1, glyph, t)
  else (s + 1, glyph, <[Z.to_nat uc := glyph]> t).

Fixpoint read_table (fuel : nat) (end_ s glyph : Z) (t : list Z) : M state (list Z) :=
  match fuel with
  | O => out_of_fuel
  | S fuel' =>
      if s <? end_ then
        uc <- gets (fun st => load8 (cb_mem st) s);;
        KASSERT ((uc =? 0xFF) || negb (Z.land uc 128 =? 0) || (uc <? ASCII_TABLE_SIZE));;
        let '(s', glyph', t') := table_step uc s glyph t in
        read_table fuel' end_ s' glyph' t'
      else ret t
  end.

Definition zero_table : list Z := replicate (Z.to_nat ASCII_TABLE_SIZE) 0.
Definition identity_table : list Z := map Z.of_nat (seq 0 (Z.to_nat ASCII_TABLE_SIZE)).
Definition invalid_font : PSFFont := MkPSFFont NULL zero_table false false NULL.

(** The image lies in [start, end_). *)
Definition get_default_PSF_font (start end_ : Z) : M state PSFFont :=
  m <- gets cb_mem;;
  if negb (psf_magic m start =? PSF2_MAGIC_NUMBER) then ret invalid_font else
  let bitmaps_size := wrap32 (psf_bytesperglyph m start * psf_numglyph m start) in
  let s := start + bitmaps_size + psf_headersize m start in
  if negb (psf_flags m start =? 0) then calc_glyphs_caches (MkPSFFont start identity_table true false NULL)
  else
    t <- read_table (S (Z.to_nat (end_ - s))) end_ s 0 zero_table;;
    calc_glyphs_caches (MkPSFFont start t true true NULL).

Definition write_pixel (a : Z) (p : Pixel) : M state unit :=
  modify (fun s => CBState (cb_heap s) (store_pixel (cb_mem s) a p)).

(** Line [y] of a glyph, from column [x] on. *)
Fixpoint draw_row (n : nat) (pixels buf width offset x y : Z) (background font_ : Pixel) : M state unit :=
  match n with
  | O => ret tt
  | S n' =>
      KASSERT (negb (pixels =? NULL));;
      b <- gets (fun s => load8 (cb_mem s) (wrap64 (pixels + wrap64 (y * width + x))));;
      write_pixel (wrap64 (buf + sizeof_Pixel * wrap64 (offset + x))) (if b =? 0 then background else font_);;
      draw_row n' pixels buf width offset (x + 1) y background font_
  end.

Fixpoint draw_rows (n : nat) (pixels buf width stride offset y : Z) (background font_ : Pixel) : M state unit :=
  match n with
  | O => ret tt
  | S n' =>
      draw_row (Z.to_nat width) pixels buf width offset 0 y background font_;;
      draw_rows n' pixels buf width stride (wrap64 (offset + stride)) (y + 1) background font_
  end.

(** The code of the glyph of [c]. *)
Definition glyph_code (font : PSFFont) (c : Z) : Z :=
  if has_table font then nth (Z.to_nat c) (ascii_table font) 0 else c.

Definition write_PSF_char (font : PSFFont) (c : Z) (position : Vector2i) (buf : Z) (buffer_size_ : Vector2i)
    (background_color font_color : Color) : M state bool :=
  if negb (Z.land c 128 =? 0) then ret false else
  KASSERT (negb (has_table font) || (c <? ASCII_TABLE_SIZE));;
  KASSERT (negb (glyphs font =? NULL));;
  m <- gets cb_mem;;
  let pixels := load64 m (wrap64 (glyphs font + sizeof_CachedGlyph * glyph_code font c)) in
  let offset := wrap64 (vec_y position * vec_x buffer_size_ + vec_x position) in
  let w := psf_width m (header font) in
  draw_rows (Z.to_nat (psf_height m (header font))) pixels buf w (vec_x buffer_size_) offset 0
    (color_to_pixel background_color) (color_to_pixel font_color);;
  ret true.
End ops.
