(* ===== verification/PsfTop.v ===== *)
(** * Screen font: drawing a character and the expansion of the bitmaps *)

From S2P Require Import Prelude Memory Interfaces CircularBuffer Display Psf.

Section draw.
Context {H : Type} {HP : HeapProvider H}.
#[local] Abbreviation state := (cb_state H).
Implicit Types (s : state) (m : mem).

Definition choose (bg fg : Pixel) (b : Z) : Pixel := if b =? 0 then bg else fg.
Definition sep (a n b k : Z) : Prop := a + n <= b \/ b + k <= a.

Lemma draw_row_run n pixels buf w off x y bg fg s :
  let m := cb_mem s in
  0 < pixels -> 0 <= y * w + x -> pixels + y * w + x + Z.of_nat n <= 2 ^ 64 ->
  0 <= buf -> 0 <= off + x -> buf + 4 * (off + x + Z.of_nat n) <= 2 ^ 64 ->
  sep (pixels + y * w + x) (Z.of_nat n) (buf + 4 * (off + x)) (4 * Z.of_nat n) ->
  pixel_ok bg -> pixel_ok fg ->
  exists m', draw_row n pixels buf w off x y bg fg s = Ok (tt, CBState (cb_heap s) m') /\
    (forall j, x <= j < x + Z.of_nat n -> load_pixel m' (buf + 4 * (off + j)) = choose bg fg (load8 m (pixels + y * w + j))) /\
    (forall b, b < buf + 4 * (off + x) \/ buf + 4 * (off + x + Z.of_nat n) <= b -> load8 m' b = load8 m b).
Proof.
  intros m Hp Hy Hpe Hb Ho Hbe Hs Hbg Hfg. subst m. revert x s Hy Hpe Ho Hbe Hs. induction n as [|n IH]; intros x s Hy Hpe Ho Hbe Hs.
  { exists (cb_mem s). split_and!; [by destruct s|lia|done]. }
  cbn [draw_row]. rewrite (bind_ok _ _ s tt s) by (apply KASSERT_ok; apply negb_true_iff, Z.eqb_neq; unfold NULL; lia).
  rewrite (wrap64_small (y * w + x)), (wrap64_small (pixels + _)) by lia.
  rewrite (wrap64_small (off + x)) by lia. unfold sizeof_Pixel. rewrite (wrap64_small (buf + _)) by lia.
  unfold bind at 1, gets at 1. unfold bind at 1, write_pixel, modify.
  replace (pixels + (y * w + x)) with (pixels + y * w + x) by lia. fold (choose bg fg (load8 (cb_mem s) (pixels + y * w + x))).
  set (px := choose bg fg _). set (m1 := store_pixel _ _ _). set (s1 := CBState _ m1).
  assert (Hpx : pixel_ok px) by (unfold px, choose; by case_match).
  destruct (IH (x + 1) s1) as (m' & R & Hin & Hout); [lia..|unfold sep in *; lia|].
  exists m'. split; [exact R|]. cbn [cb_mem s1] in *. unfold sep in Hs. split.
  - intros j Hj. destruct (decide (j = x)) as [->|].
    + rewrite (load_pixel_ext m1) by (intros b Hbb; apply Hout; lia). by apply load_store_pixel_same.
    + rewrite Hin by lia. f_equal. unfold m1. rewrite load8_store_pixel_out by lia. done.
  - intros b Hbb. rewrite Hout by lia. unfold m1. apply load8_store_pixel_out. lia.
Qed.

(** The rows of a rectangle of a picture whose lines are [stride] pixels long. *)
Definition outside_rect (buf off stride w n b : Z) : Prop :=
  forall k, 0 <= k < n -> b < buf + 4 * (off + k * stride) \/ buf + 4 * (off + k * stride + w) <= b.

Lemma rows_bound (N k stride w E : Z) : 0 <= w <= stride -> 0 <= k < N -> (N - 1) * stride + w <= E -> k * stride + w <= E.
Proof. intros. assert (k * stride <= (N - 1) * stride) by (apply Z.mul_le_mono_nonneg_r; lia). lia. Qed.

Lemma draw_rows_run n pixels buf w stride off y E bg fg s :
  let m := cb_mem s in let N := Z.of_nat n in
  0 < pixels -> 0 <= y -> 0 <= w <= stride -> pixels + (y + N) * w <= 2 ^ 64 ->
  0 <= buf -> 0 <= off -> buf + 4 * (off + E + stride) <= 2 ^ 64 -> 0 <= E -> (0 < N -> (N - 1) * stride + w <= E) ->
  sep (pixels + y * w) (N * w) (buf + 4 * off) (4 * E) ->
  pixel_ok bg -> pixel_ok fg ->
  exists m', draw_rows n pixels buf w stride off y bg fg s = Ok (tt, CBState (cb_heap s) m') /\
    (forall j k, 0 <= j < w -> 0 <= k < N ->
       load_pixel m' (buf + 4 * (off + k * stride + j)) = choose bg fg (load8 m (pixels + (y + k) * w + j))) /\
    (forall b, outside_rect buf off stride w N b -> load8 m' b = load8 m b).
Proof.
  intros m N Hp Hy Hw Hpe Hb Ho Hbe HE HN Hs Hbg Hfg. subst m N. revert y off E s Hy Hpe Ho Hbe HE HN Hs.
  induction n as [|n IH]; intros y off E s Hy Hpe Ho Hbe HE HN Hs.
  { exists (cb_mem s). split_and!; [by destruct s|lia|done]. }
  cbn [draw_rows]. rewrite Nat2Z.inj_succ in *. set (N := Z.of_nat n) in *.
  assert (0 <= N) by lia. assert (0 <= N * w) by (apply Z.mul_nonneg_nonneg; lia). assert (0 <= y * w) by (apply Z.mul_nonneg_nonneg; lia).
  assert (0 <= N * stride) by (apply Z.mul_nonneg_nonneg; lia).
  replace ((y + Z.succ N) * w) with (y * w + N * w + w) in * by lia. replace ((Z.succ N - 1) * stride) with (N * stride) in HN by lia.
  replace (Z.succ N * w) with (N * w + w) in * by lia. unfold sep in Hs. specialize (HN ltac:(lia)).
  destruct (draw_row_run (Z.to_nat w) pixels buf w off 0 y bg fg s) as (m1 & R1 & Hin1 & Hout1); try lia; try done; [unfold sep; lia|].
  rewrite (bind_ok _ _ _ _ _ R1). set (s1 := CBState _ m1). rewrite Z2Nat.id in * by lia.
  assert (Hrow : forall j, 0 <= j < w -> load_pixel m1 (buf + 4 * (off + 0 * stride + j)) = choose bg fg (load8 (cb_mem s) (pixels + (y + 0) * w + j))).
  { intros j Hj. rewrite Z.mul_0_l, !Z.add_0_r. by apply Hin1. }
  destruct (decide (n = 0%nat)) as [->|Hn].
  { exists m1. split; [done|]. split.
    - intros j k Hj Hk. assert (k = 0) as -> by lia. by apply Hrow.
    - intros b Hbb. apply Hout1. specialize (Hbb 0). lia. }
  rewrite wrap64_small by lia.
  assert (stride <= N * stride) by (rewrite <-(Z.mul_1_l stride) at 1; apply Z.mul_le_mono_nonneg_r; lia).
  replace (N * stride) with ((N - 1) * stride + stride) in * by lia.
  destruct (IH (y + 1) (off + stride) (E - stride) s1) as (m2 & R2 & Hin2 & Hout2); try done; try lia; [unfold sep; lia|].
  exists m2. split; [exact R2|]. cbn [cb_mem s1] in *. split.
  - intros j k Hj Hk. destruct (decide (k = 0)) as [->|].
    + rewrite (load_pixel_ext m1); [by apply Hrow|]. intros b Hbb. apply Hout2. intros k Hk'. left.
      assert (0 <= k * stride) by (apply Z.mul_nonneg_nonneg; lia). lia.
    + replace (off + k * stride + j) with (off + stride + (k - 1) * stride + j) by lia. rewrite Hin2 by lia.
      replace (y + 1 + (k - 1)) with (y + k) by lia. f_equal. apply Hout1.
      assert (0 <= (k - 1) * w) by (apply Z.mul_nonneg_nonneg; lia). assert (k * w <= N * w) by (apply Z.mul_le_mono_nonneg_r; lia).
      replace ((y + k) * w) with (y * w + (k - 1) * w + w) by lia. lia.
  - intros b Hbb. rewrite Hout2.
    + apply Hout1. specialize (Hbb 0). lia.
    + intros k Hk. specialize (Hbb (k + 1)). replace (off + (k + 1) * stride) with (off + stride + k * stride) in Hbb by lia. apply Hbb. lia.
Qed.

(** The address of pixel ([x], [y]) of a picture [W] pixels wide. *)
Definition pixel_at (buf W x y : Z) : Z := buf + 4 * (y * W + x).
Definition in_rect (px py w h x y : Z) : Prop := px <= x < px + w /\ py <= y < py + h.

Lemma rect_outside buf W px py w h x y b :
  0 <= px -> px + w <= W -> 0 <= x < W -> ~ in_rect px py w h x y -> pixel_at buf W x y <= b < pixel_at buf W x y + 4 ->
  outside_rect buf (py * W + px) W w h b.
Proof.
  unfold in_rect, pixel_at. intros Hpx Hw Hx Hnot Hb k Hk.
  destruct (Z.lt_trichotomy y (py + k)) as [Hl|[->|Hg]].
  - left. assert ((y + 1) * W <= (py + k) * W) by (apply Z.mul_le_mono_nonneg_r; lia). lia.
  - destruct (decide (x < px)); [left|right]; lia.
  - right. assert ((py + k + 1) * W <= y * W) by (apply Z.mul_le_mono_nonneg_r; lia). lia.
Qed.

(** A font whose glyph of [c] is at [p], clear of the picture. *)
Record drawable (font : PSFFont) (c p : Z) (buf size : Z) m : Prop := {
  dr_code : 0 <= c < 128;
  dr_glyphs : 0 < glyphs font /\ 0 <= glyph_code font c /\ glyphs font + 8 * glyph_code font c < 2 ^ 64;
  dr_pixels : load64 m (glyphs font + 8 * glyph_code font c) = p;
  dr_range : 0 < p /\ p + psf_height m (header font) * psf_width m (header font) <= 2 ^ 64;
  dr_sep : sep p (psf_height m (header font) * psf_width m (header font)) buf size
}.

Lemma psf_sizes m h : 0 <= psf_width m h /\ 0 <= psf_height m h.
Proof. unfold psf_width, psf_height, load32. split; apply load_le_range. Qed.

Lemma write_PSF_char_run font c p buf px py W Hh bg fg s :
  let m := cb_mem s in
  let w := psf_width m (header font) in
  let h := psf_height m (header font) in
  drawable font c p buf (4 * (W * Hh)) m -> 0 <= px -> px + w <= W -> 0 <= py -> py + h <= Hh ->
  0 <= buf -> buf + 4 * (W * Hh + W) <= 2 ^ 64 -> color_ok bg -> color_ok fg ->
  exists m', write_PSF_char font c (MkVector2i px py) buf (MkVector2i W Hh) bg fg s = Ok (true, CBState (cb_heap s) m') /\
    (forall x y, 0 <= x < W -> 0 <= y < Hh -> in_rect px py w h x y ->
       load_pixel m' (pixel_at buf W x y) = choose (color_to_pixel bg) (color_to_pixel fg) (load8 m (p + (y - py) * w + (x - px)))) /\
    (forall x y, 0 <= x < W -> 0 <= y < Hh -> ~ in_rect px py w h x y -> load_pixel m' (pixel_at buf W x y) = load_pixel m (pixel_at buf W x y)) /\
    (forall b, b < buf \/ buf + 4 * (W * Hh) <= b -> load8 m' b = load8 m b).
Proof.
  intros m w h [Hc (Hg & Hgc & Hge) Hpx (Hp & Hpe) Hs] Hx Hxw Hy Hyh Hb Hbe Hbg Hfg. unfold write_PSF_char.
  destruct (psf_sizes m (header font)) as [Hw0 Hh0]. fold w in Hw0, Hpe, Hs. fold h in Hh0, Hpe, Hs.
  assert (Hc128 : Z.land c 128 = 0).
  { apply Z.bits_inj'. intros k Hk. change 128 with (2 ^ 7). rewrite Z.land_spec, Z.bits_0, Z.pow2_bits_eqb by lia.
    destruct (Z.eqb_spec 7 k) as [<-|]; [|by rewrite andb_false_r]. by rewrite Z.testbit_eqb, (Z.div_small c (2 ^ 7)) by lia. }
  rewrite Hc128. cbn [Z.eqb negb].
  rewrite (bind_ok _ _ s tt s).
  2:{ apply KASSERT_ok, orb_true_intro. right. apply Z.ltb_lt. unfold ASCII_TABLE_SIZE. lia. }
  rewrite (bind_ok _ _ s tt s) by (apply KASSERT_ok, negb_true_iff, Z.eqb_neq; unfold NULL; lia).
  rewrite (bind_ok _ _ s m s) by done. cbv zeta. cbn [vec_x vec_y]. fold w h. unfold sizeof_CachedGlyph.
  rewrite (wrap64_small (glyphs font + _)) by lia. rewrite Hpx.
  assert (0 <= py * W) by (apply Z.mul_nonneg_nonneg; lia).
  assert (Hrows : (py + h) * W <= Hh * W) by (apply Z.mul_le_mono_nonneg_r; lia).
  assert (0 <= h * W) by (apply Z.mul_nonneg_nonneg; lia).
  destruct (decide (h = 0)) as [Hz|Hnz].
  { rewrite Hz. cbn [draw_rows Z.to_nat]. exists m. split; [destruct s; done|]. unfold in_rect. split_and!; [lia|done|done]. }
  rewrite wrap64_small by lia.
  destruct (draw_rows_run (Z.to_nat h) p buf w W (py * W + px) 0 ((h - 1) * W + w) (color_to_pixel bg) (color_to_pixel fg) s)
    as (m' & R & Hin & Hout); rewrite ?Z2Nat.id by lia; try done; try lia.
  { assert (0 <= (h - 1) * W) by (apply Z.mul_nonneg_nonneg; lia). lia. }
  { unfold sep in *. assert (0 <= (h - 1) * W) by (apply Z.mul_nonneg_nonneg; lia). lia. }
  rewrite Z2Nat.id in * by lia. exists m'. rewrite (bind_ok _ _ _ _ _ R). split; [done|]. split_and!.
  - intros x y Hx' Hy' [[Hi1 Hi2] [Hi3 Hi4]].
    replace (pixel_at buf W x y) with (buf + 4 * (py * W + px + (y - py) * W + (x - px))) by (unfold pixel_at; lia).
    rewrite Hin by lia. done.
  - intros x y Hx' Hy' Hnot. apply load_pixel_ext. intros b Hbb. apply Hout. by eapply rect_outside.
  - intros b Hbb. apply Hout. intros k Hk. assert (0 <= k * W) by (apply Z.mul_nonneg_nonneg; lia).
    assert (k * W <= (h - 1) * W) by (apply Z.mul_le_mono_nonneg_r; lia). lia.
Qed.
End draw.

(** ** Expansion of the bitmaps *)

(** Pixel ([x], [y]) of a bitmap at [glyph] with lines of [lb] bytes. *)
Definition bitmap_bit (m : mem) (glyph lb x y : Z) : bool := Z.testbit (load8 m (glyph + y * lb + x / 8)) (7 - x mod 8).

Lemma glyph_bit_testbit m glyph x :
  0 <= x -> 0 <= glyph -> glyph + x / 8 < 2 ^ 64 -> glyph_bit m glyph x = Z.testbit (load8 m (glyph + x / 8)) (7 - x mod 8).
Proof.
  intros Hx Hg He. unfold glyph_bit. rewrite wrap64_small by lia. set (v := load8 m _). set (j := x mod 8).
  assert (Hj : 0 <= j < 8) by (unfold j; lia).
  assert (Hl : Z.land (Z.shiftl v j) 0x80 = if Z.testbit v (7 - j) then 0x80 else 0).
  { apply Z.bits_inj'. intros k Hk. change 0x80 with (2 ^ 7). rewrite Z.land_spec, Z.pow2_bits_eqb by lia.
    destruct (Z.eqb_spec 7 k) as [<-|Hne].
    - rewrite Z.shiftl_spec, andb_true_r by lia. destruct (Z.testbit v (7 - j)) eqn:E; [by rewrite Z.pow2_bits_true|by rewrite Z.bits_0].
    - rewrite andb_false_r. destruct (Z.testbit v (7 - j)); [by rewrite Z.pow2_bits_false|by rewrite Z.bits_0]. }
  rewrite Hl. by destruct (Z.testbit v (7 - j)).
Qed.

Section cache.
Context {H : Type} {HP : HeapProvider H}.
#[local] Abbreviation state := (cb_state H).
Implicit Types (s : state) (m : mem).

Lemma cache_row_run n p glyph w h x y s :
  let m := cb_mem s in
  0 < p -> 0 <= glyph -> 0 <= x -> x + Z.of_nat n <= w -> 0 <= y < h -> p + h * w <= 2 ^ 64 -> h * w < 2 ^ 64 ->
  glyph + (w + 7) / 8 <= 2 ^ 64 -> sep p (h * w) glyph ((w + 7) / 8) ->
  exists m', cache_row n p glyph w h x y s = Ok (tt, CBState (cb_heap s) m') /\
    (forall j, x <= j < x + Z.of_nat n -> load8 m' (p + y * w + j) = Z.b2z (bitmap_bit m glyph 0 j 0)) /\
    (forall b, b < p + y * w + x \/ p + y * w + x + Z.of_nat n <= b -> load8 m' b = load8 m b).
Proof.
  intros m Hp Hg Hx Hn Hy Hpe Hwh Hge Hs. subst m. revert x s Hx Hn. induction n as [|n IH]; intros x s Hx Hn.
  { exists (cb_mem s). split_and!; [by destruct s|lia|done]. }
  assert (0 <= y * w) by (apply Z.mul_nonneg_nonneg; lia).
  assert ((y + 1) * w <= h * w) by (apply Z.mul_le_mono_nonneg_r; lia).
  cbn [cache_row]. rewrite (Z.mul_comm w h), (wrap64_small (y * w)), (wrap64_small (h * w)), (wrap64_small (x + y * w)) by lia.
  rewrite (bind_ok _ _ s tt s) by (apply KASSERT_ok, Z.ltb_lt; lia).
  rewrite (bind_ok _ _ s (glyph_bit (cb_mem s) glyph x) s) by done. rewrite glyph_bit_testbit by lia.
  rewrite wrap64_small by lia. replace (p + (x + y * w)) with (p + y * w + x) by lia.
  unfold bind at 1, write8, modify. set (v := Z.b2z _). set (m1 := store8 _ _ v). set (s1 := CBState _ m1).
  destruct (IH (x + 1) s1) as (m' & R & Hin & Hout); [lia..|].
  exists m'. split; [exact R|]. cbn [cb_mem s1] in *. unfold sep in Hs. split.
  - intros j Hj. destruct (decide (j = x)) as [->|].
    + rewrite Hout by lia. unfold m1. rewrite load8_store8_eq. unfold v, bitmap_bit. rewrite Z.mul_0_l, Z.add_0_r.
      apply Z.mod_small. by destruct (Z.testbit _ _).
    + rewrite Hin by lia. unfold bitmap_bit. rewrite Z.mul_0_l, Z.add_0_r. unfold m1. rewrite load8_store8_ne by lia. done.
  - intros b Hbb. rewrite Hout by lia. unfold m1. apply load8_store8_ne. lia.
Qed.

Lemma bitmap_bit_row m glyph lb x y : bitmap_bit m (glyph + y * lb) 0 x 0 = bitmap_bit m glyph lb x y.
Proof. unfold bitmap_bit. by rewrite Z.mul_0_l, Z.add_0_r. Qed.

Lemma bitmap_bit_ext m m' glyph lb x y :
  load8 m' (glyph + y * lb + x / 8) = load8 m (glyph + y * lb + x / 8) -> bitmap_bit m' glyph lb x y = bitmap_bit m glyph lb x y.
Proof. intros E. unfold bitmap_bit. by rewrite E. Qed.

Lemma cache_rows_run n p glyph w h y s :
  let m := cb_mem s in let lb := (w + 7) / 8 in
  0 < p -> 0 <= glyph -> 0 <= w -> 0 <= y -> y + Z.of_nat n = h -> p + h * w <= 2 ^ 64 -> h * w < 2 ^ 64 ->
  glyph + (Z.of_nat n + 1) * lb < 2 ^ 64 -> sep p (h * w) glyph (Z.of_nat n * lb) ->
  exists m', cache_rows n p glyph w h lb y s = Ok (tt, CBState (cb_heap s) m') /\
    (forall j k, 0 <= j < w -> 0 <= k < Z.of_nat n -> load8 m' (p + (y + k) * w + j) = Z.b2z (bitmap_bit m glyph lb j k)) /\
    (forall b, b < p + y * w \/ p + h * w <= b -> load8 m' b = load8 m b).
Proof.
  intros m lb Hp Hg Hw Hy Hn Hpe Hwh Hge Hs. subst m. assert (Hlb : 0 <= lb /\ w <= 8 * lb) by (unfold lb; lia).
  assert (Elb : (w + 7) / 8 = lb) by done. clearbody lb.
  revert glyph y s Hg Hy Hn Hge Hs. induction n as [|n IH]; intros glyph y s Hg Hy Hn Hge Hs.
  { exists (cb_mem s). split_and!; [by destruct s|lia|done]. }
  rewrite Nat2Z.inj_succ in *. set (N := Z.of_nat n) in *. unfold sep in Hs.
  assert (0 <= N * lb) by (apply Z.mul_nonneg_nonneg; lia).
  assert (0 <= y * w) by (apply Z.mul_nonneg_nonneg; lia).
  assert (Hyw : (y + 1) * w <= h * w) by (apply Z.mul_le_mono_nonneg_r; lia).
  replace ((Z.succ N + 1) * lb) with (N * lb + lb + lb) in Hge by lia. replace (Z.succ N * lb) with (N * lb + lb) in Hs by lia.
  cbn [cache_rows]. destruct (cache_row_run (Z.to_nat w) p glyph w h 0 y s) as (m1 & R1 & Hin1 & Hout1);
    rewrite ?Elb; try lia; [unfold sep; lia|].
  rewrite (bind_ok _ _ _ _ _ R1). set (s1 := CBState _ m1). rewrite Z2Nat.id in * by lia. rewrite wrap64_small by lia.
  destruct (IH (glyph + lb) (y + 1) s1) as (m2 & R2 & Hin2 & Hout2); try lia; [unfold sep; lia|].
  exists m2. split; [exact R2|]. cbn [cb_mem s1] in *. replace ((y + 1) * w) with (y * w + w) in * by lia. split.
  - intros j k Hj Hk. destruct (decide (k = 0)) as [->|].
    + rewrite Z.add_0_r, Hout2 by lia. rewrite Hin1 by lia. done.
    + replace (y + k) with (y + 1 + (k - 1)) by lia. rewrite Hin2 by lia. f_equal.
      assert (0 <= (k - 1) * lb) by (apply Z.mul_nonneg_nonneg; lia).
      assert ((k - 1) * lb + lb <= N * lb) by (replace ((k - 1) * lb + lb) with (k * lb) by lia; apply Z.mul_le_mono_nonneg_r; lia).
      unfold bitmap_bit. replace (glyph + lb + (k - 1) * lb) with (glyph + k * lb) by lia. f_equal. apply Hout1. lia.
  - intros b Hbb. rewrite Hout2 by lia. apply Hout1. lia.
Qed.
End cache.

(** What a series of allocations needs: [hp_room] is the memory still to be had. *)
Class HeapRoom (H : Type) {HP : HeapProvider H} {HL : HeapLaws H} : Type := {
  hp_room : H -> Z;
  hp_room_serves : forall s B n, hp_inv s B -> 0 <= n -> n + 64 <= hp_room s -> hp_serves s n;
  hp_room_alloc : forall s B n p s', hp_inv s B -> hp_kmalloc n s = Ok (p, s') -> hp_room s - (n + 64) <= hp_room s'
}.

Section glyphs.
Context {H : Type} {HP : HeapProvider H} {HL : HeapLaws H} {HR : HeapRoom H}.
#[local] Abbreviation state := (cb_state H).
Implicit Types (s : state) (m : mem) (B : gmap Z Z).

(** The image of the font at [h] with [size] bytes. *)
Context (h size : Z).
Hypothesis heap_clear : forall t B p n, hp_inv t B -> B !! p = Some n -> p + n < 2 ^ 64 /\ sep p n h size.

Definition line_bytes m : Z := (psf_width m h + 7) / 8.

Record font_image m : Prop := {
  fi_start : 0 < h;
  fi_fits : h + size < 2 ^ 64 - 2 ^ 32;
  fi_header : 32 <= psf_headersize m h;
  fi_glyphs : psf_headersize m h + psf_numglyph m h * psf_bytesperglyph m h <= size;
  fi_lines : (psf_height m h + 1) * line_bytes m <= psf_bytesperglyph m h + line_bytes m;
  fi_width : psf_width m h + 7 < 2 ^ 32;
  fi_pixels : psf_height m h * psf_width m h < 2 ^ 63
}.

(** The pixels of glyph [i] in the image. *)
Definition glyph_pixel m (i x y : Z) : bool :=
  bitmap_bit m (h + psf_headersize m h + i * psf_bytesperglyph m h) (line_bytes m) x y.

(** Glyph [i] is cached in [m'] as it is in the image of [m], in a block of [B']
    that is not of [B]. *)
Definition cached m m' B B' (table i : Z) : Prop :=
  exists p k, load64 m' (table + 8 * i) = p /\ B !! p = None /\ B' !! p = Some k /\ psf_height m h * psf_width m h <= k /\ 0 < p /\
    forall x y, 0 <= x < psf_width m h -> 0 <= y < psf_height m h ->
      load8 m' (p + y * psf_width m h + x) = Z.b2z (glyph_pixel m i x y).

Lemma cached_insert m m' B B' q n table i : cached m m' (<[q := n]> B) B' table i -> cached m m' B B' table i.
Proof.
  intros (p & k & E1 & E2 & E3). exists p, k. split; [done|]. split; [|done].
  destruct (decide (p = q)) as [->|]; [by rewrite lookup_insert_eq in E2|by rewrite lookup_insert_ne in E2].
Qed.

Definition image_same m m' : Prop := forall b, h <= b < h + size -> load8 m' b = load8 m b.

Lemma image_load32 m m' a : image_same m m' -> h <= a -> a + 4 <= h + size -> load32 m' a = load32 m a.
Proof. intros E H1 H2. apply load_le_ext. intros c Hc. apply E. lia. Qed.

(** Blocks of [B'] that are not in [B]: apart from those of [B]. *)
Definition grows B B' : Prop :=
  B ⊆ B' /\ forall q k, B' !! q = Some k -> B !! q = None -> forall q0 k0, B !! q0 = Some k0 -> sep q k q0 k0.
Definition frame B B' (lo hi : Z) m m' : Prop :=
  forall b, (forall q k, B' !! q = Some k -> B !! q = None -> b < q \/ q + k <= b) -> b < lo \/ hi <= b -> load8 m' b = load8 m b.

Lemma grows_insert B B' p k :
  B !! p = None -> (forall q n, B !! q = Some n -> sep p k q n) -> grows (<[p := k]> B) B' -> grows B B'.
Proof.
  intros Hp Hs [Hsub Hg]. split; [by etrans; [apply insert_subseteq|]|].
  intros q n Hq Hn q0 k0 Hq0. destruct (decide (q = p)) as [->|Hne].
  - rewrite (lookup_weaken (<[p := k]> B) B' p k) in Hq; [|by rewrite lookup_insert_eq|done]. injection Hq as <-. by apply Hs.
  - apply Hg; [done|by rewrite lookup_insert_ne|rewrite lookup_insert_ne; [done|]]. intros ->. congruence.
Qed.

Lemma load64_ext m m' a : (forall b, a <= b < a + 8 -> load8 m' b = load8 m b) -> load64 m' a = load64 m a.
Proof. intros E. apply (load_le_ext 8). intros c Hc. apply E. lia. Qed.
Lemma load8_store64_out m a v b : b < a \/ a + 8 <= b -> load8 (store64 m a v) b = load8 m b.
Proof. intros. apply (load8_store_le_out 8). lia. Qed.

Lemma image_fields m m' : image_same m m' -> 32 <= size ->
  psf_headersize m' h = psf_headersize m h /\ psf_bytesperglyph m' h = psf_bytesperglyph m h.
Proof. intros E Hs. unfold psf_headersize, psf_bytesperglyph. by rewrite !(image_load32 m m') by (done || lia). Qed.

Lemma psf_ranges m : 0 <= psf_numglyph m h < 2 ^ 32 /\ 0 <= psf_bytesperglyph m h < 2 ^ 32 /\ 0 <= psf_headersize m h < 2 ^ 32.
Proof. unfold psf_numglyph, psf_bytesperglyph, psf_headersize, load32. split_and!; apply load_le_range. Qed.

(** Where the lines of glyph [i] are. *)
Lemma glyph_range m i : font_image m -> 0 <= i < psf_numglyph m h ->
  let g := h + psf_headersize m h + i * psf_bytesperglyph m h in
  h + 32 <= g /\ g + psf_bytesperglyph m h <= h + size /\ 0 <= psf_height m h * line_bytes m <= psf_bytesperglyph m h /\ 0 <= line_bytes m.
Proof.
  intros [F1 F2 F3 F4 F5 F6 F7] Hi. cbv zeta. destruct (psf_ranges m) as (R1 & R2 & R3). destruct (psf_sizes m h) as [Hw Hh].
  assert (0 <= i * psf_bytesperglyph m h) by (apply Z.mul_nonneg_nonneg; lia).
  assert ((i + 1) * psf_bytesperglyph m h <= psf_numglyph m h * psf_bytesperglyph m h) by (apply Z.mul_le_mono_nonneg_r; lia).
  assert (0 <= line_bytes m) by (unfold line_bytes; lia).
  assert (0 <= psf_height m h * line_bytes m) by (apply Z.mul_nonneg_nonneg; lia). lia.
Qed.

(** One glyph: the block is filled with its pixels. *)
Lemma cache_glyph_run m0 i p k s t B :
  font_image m0 -> image_same m0 (cb_mem s) -> 0 <= i < psf_numglyph m0 h -> hp_inv t B -> B !! p = Some k -> 0 < p ->
  psf_height m0 h * psf_width m0 h <= k ->
  let g := h + psf_headersize m0 h + i * psf_bytesperglyph m0 h in
  exists m', cache_rows (Z.to_nat (psf_height m0 h)) p g (psf_width m0 h) (psf_height m0 h) (line_bytes m0) 0 s = Ok (tt, CBState (cb_heap s) m') /\
    (forall x y, 0 <= x < psf_width m0 h -> 0 <= y < psf_height m0 h -> load8 m' (p + y * psf_width m0 h + x) = Z.b2z (glyph_pixel m0 i x y)) /\
    (forall b, b < p \/ p + k <= b -> load8 m' b = load8 (cb_mem s) b).
Proof.
  intros F Im Hi Inv Hp Hp0 Hk g. destruct (glyph_range m0 i F Hi) as (G1 & G2 & G3 & G4). fold g in G1, G2.
  destruct (heap_clear t B p k Inv Hp) as [C1 C2]. destruct (psf_sizes m0 h) as [Hw Hh]. pose proof (fi_pixels _ F). pose proof (fi_fits _ F). pose proof (fi_start _ F).
  pose proof (fi_lines _ F) as HL'. unfold sep in C2.
  destruct (cache_rows_run (Z.to_nat (psf_height m0 h)) p g (psf_width m0 h) (psf_height m0 h) 0 s) as (m' & R & Hin & Hout);
    rewrite ?Z2Nat.id by lia; try lia.
  { fold (line_bytes m0). pose proof (fi_width _ F). assert (line_bytes m0 < 2 ^ 32) by (unfold line_bytes; lia). lia. }
  { fold (line_bytes m0). unfold sep. lia. }
  fold (line_bytes m0) in R. rewrite Z2Nat.id in Hin by lia. exists m'. split; [exact R|]. split.
  - intros x y Hx Hy. specialize (Hin x y Hx Hy). rewrite Z.add_0_l in Hin. rewrite Hin. f_equal. fold (line_bytes m0).
    apply bitmap_bit_ext. apply Im.
    assert (0 <= y * line_bytes m0) by (apply Z.mul_nonneg_nonneg; lia).
    assert ((y + 1) * line_bytes m0 <= psf_height m0 h * line_bytes m0) by (apply Z.mul_le_mono_nonneg_r; lia).
    assert (0 <= x / 8 < line_bytes m0) by (unfold line_bytes; lia). lia.
  - intros b Hb. apply Hout. lia.
Qed.

(** Bytes of a block of [B] survive what is written outside of [B]. *)
Lemma frame_block B B' lo hi m m' q k b :
  frame B B' lo hi m m' -> grows B B' -> B !! q = Some k -> q <= b < q + k -> b < lo \/ hi <= b -> load8 m' b = load8 m b.
Proof.
  intros F [_ G] Hq Hb Ho. apply F; [|done]. intros q1 k1 H1 H2. specialize (G q1 k1 H1 H2 q k Hq). unfold sep in G. lia.
Qed.

Lemma frame_image B B' lo hi t m m' table tk :
  frame B B' lo hi m m' -> hp_inv t B' -> B' !! table = Some tk -> table <= lo -> hi <= table + tk -> image_same m m'.
Proof.
  intros F I Ht Hlo Hhi b Hb. apply F.
  - intros q k Hq _. destruct (heap_clear t B' q k I Hq) as [_ C]. unfold sep in C. lia.
  - destruct (heap_clear t B' table tk I Ht) as [_ C]. unfold sep in C. lia.
Qed.

Lemma cache_glyphs_run m0 table tk n i s B :
  font_image m0 -> image_same m0 (cb_mem s) -> 0 <= i -> i + Z.of_nat n <= psf_numglyph m0 h ->
  hp_inv (cb_heap s) B -> 0 < table -> B !! table = Some tk -> 8 * (i + Z.of_nat n) <= tk ->
  Z.of_nat n * (psf_height m0 h * psf_width m0 h + 64) <= hp_room (cb_heap s) ->
  exists t m' B', cache_glyphs n h table (psf_width m0 h) (psf_height m0 h) (line_bytes m0) i s = Ok (tt, CBState t m') /\
    hp_inv t B' /\ grows B B' /\ frame B B' (table + 8 * i) (table + 8 * (i + Z.of_nat n)) (cb_mem s) m' /\
    forall j, i <= j < i + Z.of_nat n -> cached m0 m' B B' table j.
Proof.
  intros F Im Hi Hn I Ht0 Ht Htk Hr. revert i s B Im Hi Hn I Ht Htk Hr. induction n as [|n IH]; intros i s B Im Hi Hn I Ht Htk Hr.
  { exists (cb_heap s), (cb_mem s), B. split_and!; [by destruct s|done|by split; [|congruence]|done|lia]. }
  rewrite Nat2Z.inj_succ in *. destruct (psf_sizes m0 h) as [Hw Hh]. pose proof (fi_pixels _ F) as Hpx.
  set (wh := psf_height m0 h * psf_width m0 h) in *. assert (0 <= wh) by (apply Z.mul_nonneg_nonneg; lia).
  assert (0 <= Z.of_nat n * (wh + 64)) by (apply Z.mul_nonneg_nonneg; lia).
  assert (Hsrv : hp_serves (cb_heap s) wh) by (apply (hp_room_serves _ B); [done|lia|lia]).
  destruct (hp_kmalloc_ok _ _ _ I Hsrv) as (p & k & t1 & R1 & Hk & Hp & _ & Hp0 & I1 & Hsep & _).
  pose proof (hp_room_alloc _ _ _ _ _ I R1) as Hroom.
  assert (Hs' : forall q n0, B !! q = Some n0 -> sep p k q n0) by exact Hsep.
  cbn [cache_glyphs]. rewrite (Z.mul_comm (psf_width m0 h)). fold wh. rewrite (wrap64_small wh) by lia.
  assert (Ra : zoom cb_heap_lens (hp_kmalloc wh) s = Ok (p, CBState t1 (cb_mem s))) by (unfold zoom; cbn; by rewrite R1).
  rewrite (bind_ok _ _ _ _ _ Ra). destruct (heap_clear _ _ _ _ I Ht) as [C1 C2].
  unfold sizeof_CachedGlyph. rewrite (wrap64_small (table + _)) by lia. unfold bind at 1, write_ptr at 1, modify.
  set (m1 := store64 _ _ p). cbn [cb_heap cb_mem]. set (s1 := CBState t1 m1).
  assert (Hout1 : forall b, b < table + 8 * i \/ table + 8 * i + 8 <= b -> load8 m1 b = load8 (cb_mem s) b) by (intros; by apply load8_store64_out).
  assert (Im1 : image_same m0 m1) by (intros b Hb; rewrite Hout1 by (unfold sep in C2; lia); by apply Im).
  pose proof (fi_header _ F). pose proof (fi_glyphs _ F). destruct (psf_ranges m0) as (R2 & R3 & R4).
  assert (0 <= psf_numglyph m0 h * psf_bytesperglyph m0 h) by (apply Z.mul_nonneg_nonneg; lia).
  destruct (image_fields m0 m1 Im1) as [E1 E2]; [lia|].
  unfold bind at 1, gets at 1. cbn [cb_mem s1]. rewrite E1, E2.
  destruct (glyph_range m0 i F) as (G1 & G2 & G3 & G4); [lia|]. pose proof (fi_fits _ F). pose proof (fi_start _ F).
  rewrite (wrap64_small (h + _ + _)) by lia.
  assert (Hpl : <[p := k]> B !! p = Some k) by apply lookup_insert_eq.
  destruct (cache_glyph_run m0 i p k s1 t1 (<[p := k]> B)) as (m2 & Rc & Hin & Hout2); [done|done|lia|done|done|lia|done|].
  rewrite (bind_ok _ _ _ _ _ Rc). set (s2 := CBState _ m2). cbn [cb_mem s1] in Hout2.
  assert (Htne : p <> table) by congruence. pose proof (Hs' _ _ Ht) as Hst. unfold sep in Hst.
  destruct (heap_clear _ _ _ _ I1 Hpl) as [C3 C4].
  destruct (IH (i + 1) s2 (<[p := k]> B)) as (t & m3 & B' & R & I3 & G & Fr & Hc).
  { intros b Hb. cbn [cb_mem s2]. rewrite Hout2 by (unfold sep in C4; lia). by apply Im1. }
  { lia. } { lia. } { done. } { by rewrite lookup_insert_ne. } { lia. } { cbn [cb_heap s2 s1]. lia. }
  exists t, m3, B'. split; [exact R|]. split; [exact I3|]. split; [by eapply grows_insert|].
  replace (i + 1 + Z.of_nat n) with (i + Z.succ (Z.of_nat n)) in * by lia. cbn [cb_mem s2] in Fr. split.
  - intros b Hnew Hb. rewrite Fr; [|intros q kq Hq Hq'; apply Hnew; [done|]|lia].
    + destruct G as [Gs _]. assert (B' !! p = Some k) by (by eapply lookup_weaken). rewrite Hout2 by (by apply Hnew). apply Hout1. lia.
    + destruct (decide (q = p)) as [->|]; [done|]. by rewrite lookup_insert_ne in Hq'.
  - intros j Hj. destruct (decide (j = i)) as [->|]; [|eapply cached_insert, Hc; lia].
    exists p, k. split_and!; [|done|by eapply lookup_weaken; [|apply G]|done|lia|].
    + assert (Ht' : <[p := k]> B !! table = Some tk) by (by rewrite lookup_insert_ne).
      rewrite (load64_ext m1); [apply load64_store64_eq; lia|]. intros b Hb. rewrite (frame_block _ _ _ _ _ _ _ _ b Fr G Ht') by lia. apply Hout2. lia.
    + intros x y Hx Hy. rewrite <-(Hin x y Hx Hy). apply (frame_block _ _ _ _ _ _ p k _ Fr G Hpl).
      * assert (0 <= y * psf_width m0 h) by (apply Z.mul_nonneg_nonneg; lia).
        assert ((y + 1) * psf_width m0 h <= psf_height m0 h * psf_width m0 h) by (apply Z.mul_le_mono_nonneg_r; lia). lia.
      * assert (0 <= y * psf_width m0 h) by (apply Z.mul_nonneg_nonneg; lia).
        assert ((y + 1) * psf_width m0 h <= psf_height m0 h * psf_width m0 h) by (apply Z.mul_le_mono_nonneg_r; lia). lia.
Qed.

Lemma calc_glyphs_caches_run font s B :
  let m := cb_mem s in
  header font = h -> font_image m -> hp_inv (cb_heap s) B ->
  8 * psf_numglyph m h + 64 + psf_numglyph m h * (psf_height m h * psf_width m h + 64) <= hp_room (cb_heap s) ->
  exists table t m' B', calc_glyphs_caches font s =
      Ok (MkPSFFont (header font) (ascii_table font) (is_valid font) (has_table font) table, CBState t m') /\
    hp_inv t B' /\ grows B B' /\ image_same m m' /\
    (forall q k b, B !! q = Some k -> q <= b < q + k -> load8 m' b = load8 m b) /\
    0 < table /\ table + 8 * psf_numglyph m h < 2 ^ 64 /\
    forall i, 0 <= i < psf_numglyph m h -> cached m m' B B' table i.
Proof.
  intros m Hh F I Hr. unfold calc_glyphs_caches. rewrite (bind_ok _ _ s m s) by done. cbv zeta. rewrite Hh.
  destruct (psf_sizes m h) as [Hw0 Hh0]. destruct (psf_ranges m) as (R1 & R2 & R3). pose proof (fi_width _ F).
  assert (0 <= psf_numglyph m h * (psf_height m h * psf_width m h + 64)).
  { apply Z.mul_nonneg_nonneg; [lia|]. assert (0 <= psf_height m h * psf_width m h) by (apply Z.mul_nonneg_nonneg; lia). lia. }
  rewrite (wrap_small 32) by lia. fold (line_bytes m). unfold sizeof_CachedGlyph at 1.
  destruct (hp_kmalloc_ok _ _ (8 * psf_numglyph m h) I) as (table & tk & t1 & Ra & Hk & Ht & _ & Ht0 & I1 & Hsep & _).
  { apply (hp_room_serves _ B); [done|lia|lia]. }
  pose proof (hp_room_alloc _ _ _ _ _ I Ra) as Hroom.
  assert (Rz : zoom cb_heap_lens (hp_kmalloc (8 * psf_numglyph m h)) s = Ok (table, CBState t1 m)) by (unfold zoom; cbn [view put cb_heap_lens]; by rewrite Ra).
  rewrite (bind_ok _ _ _ _ _ Rz). set (s1 := CBState t1 m).
  assert (Hl : <[table := tk]> B !! table = Some tk) by apply lookup_insert_eq.
  destruct (cache_glyphs_run m table tk (Z.to_nat (psf_numglyph m h)) 0 s1 (<[table := tk]> B)) as (t & m' & B' & R & I' & G & Fr & Hc);
    rewrite ?Z2Nat.id by lia; try done; try lia.
  { cbn [cb_heap s1]. lia. }
  rewrite Z2Nat.id in * by lia. rewrite (bind_ok _ _ _ _ _ R). exists table, t, m', B'. split; [done|]. split; [done|].
  split; [by eapply grows_insert|]. assert (Hl' : B' !! table = Some tk) by (by eapply lookup_weaken; [|apply G]). split_and!.
  - by eapply (frame_image _ _ _ _ t m m' table tk); [exact Fr|done|done|lia|lia].
  - intros q k b Hq Hb. pose proof (Hsep _ _ Hq) as Hs. eapply (frame_block _ _ _ _ _ _ q k); [exact Fr|done| |done|lia].
    rewrite lookup_insert_ne; [done|]. intros ->. congruence.
  - lia.
  - destruct (heap_clear _ _ _ _ I' Hl'). lia.
  - intros i Hi. eapply cached_insert, Hc. lia.
Qed.

(** ** The font of the kernel *)

(** Without the bytes of a code table there is nothing to read. *)
Lemma read_table_empty (end_ a g : Z) t s : end_ <= a -> read_table (S (Z.to_nat (end_ - a))) end_ a g t s = Ok (t, s).
Proof. intros He. cbn [read_table]. by destruct (Z.ltb_spec a end_); [lia|]. Qed.

(** The glyph drawn for [c]: a font with a code table uses the identity, one
    without uses the first glyph. *)
Definition drawn_glyph m (c : Z) : Z := if psf_flags m h =? 0 then 0 else c.

Lemma get_default_PSF_font_run end_ s B :
  let m := cb_mem s in
  psf_magic m h = PSF2_MAGIC_NUMBER -> font_image m -> hp_inv (cb_heap s) B ->
  8 * psf_numglyph m h + 64 + psf_numglyph m h * (psf_height m h * psf_width m h + 64) <= hp_room (cb_heap s) ->
  (psf_flags m h = 0 -> end_ <= h + wrap32 (psf_bytesperglyph m h * psf_numglyph m h) + psf_headersize m h) ->
  exists font t m' B', get_default_PSF_font h end_ s = Ok (font, CBState t m') /\
    header font = h /\ is_valid font = true /\ (forall c, 0 <= c < 128 -> glyph_code font c = drawn_glyph m c) /\
    hp_inv t B' /\ grows B B' /\ image_same m m' /\
    (forall q k b, B !! q = Some k -> q <= b < q + k -> load8 m' b = load8 m b) /\
    0 < glyphs font /\ glyphs font + 8 * psf_numglyph m h < 2 ^ 64 /\
    forall i, 0 <= i < psf_numglyph m h -> cached m m' B B' (glyphs font) i.
Proof.
  intros m Hm F I Hr He. unfold get_default_PSF_font. rewrite (bind_ok _ _ s m s) by done. cbv zeta. rewrite Hm. cbn [Z.eqb negb Pos.eqb PSF2_MAGIC_NUMBER].
  unfold drawn_glyph. destruct (Z.eqb_spec (psf_flags m h) 0) as [Ef|Ef]; cbn [negb].
  - rewrite (bind_ok _ _ s zero_table s) by (by apply read_table_empty, He).
    destruct (calc_glyphs_caches_run (MkPSFFont h zero_table true true NULL) s B) as (table & t & m' & B' & R & I' & G & Im & Hb & T0 & T1 & Hc); [done..|].
    rewrite R. eexists _, t, m', B'. split; [reflexivity|]. cbn [header is_valid glyphs]. split_and!; try done.
    intros c Hc'. unfold glyph_code. cbn [has_table ascii_table]. unfold zero_table. rewrite nth_lookup, lookup_replicate_2; [done|]. unfold ASCII_TABLE_SIZE. lia.
  - destruct (calc_glyphs_caches_run (MkPSFFont h identity_table true false NULL) s B) as (table & t & m' & B' & R & I' & G & Im & Hb & T0 & T1 & Hc); [done..|].
    rewrite R. eexists _, t, m', B'. split; [reflexivity|]. cbn [header is_valid glyphs]. split_and!; done.
Qed.

(** A picture of [W] by [Hh] pixels in a live block of the heap. *)
(** C30: With a well-formed font image get_default_PSF_font caches the bitmaps in
    heap blocks and write_PSF_char draws, inside the rectangle of the character, the
    bits of the glyph in the two colours and leaves every other pixel alone; with flags
    of zero every character gets glyph 0. *)
Theorem psf_font_draws_bitmaps end_ s B buf k W Hh c px py bg fg :
  let m := cb_mem s in
  let w := psf_width m h in
  let ht := psf_height m h in
  psf_magic m h = PSF2_MAGIC_NUMBER -> font_image m -> hp_inv (cb_heap s) B -> 128 <= psf_numglyph m h ->
  8 * psf_numglyph m h + 64 + psf_numglyph m h * (ht * w + 64) <= hp_room (cb_heap s) ->
  (psf_flags m h = 0 -> end_ <= h + wrap32 (psf_bytesperglyph m h * psf_numglyph m h) + psf_headersize m h) ->
  B !! buf = Some k -> 0 <= buf -> 4 * (W * Hh) <= k -> buf + 4 * (W * Hh + W) <= 2 ^ 64 ->
  0 <= c < 128 -> 0 <= px -> px + w <= W -> 0 <= py -> py + ht <= Hh -> color_ok bg -> color_ok fg ->
  exists font s1 s2, get_default_PSF_font h end_ s = Ok (font, s1) /\
    write_PSF_char font c (MkVector2i px py) buf (MkVector2i W Hh) bg fg s1 = Ok (true, s2) /\
    forall x y, 0 <= x < W -> 0 <= y < Hh ->
      (in_rect px py w ht x y -> load_pixel (cb_mem s2) (pixel_at buf W x y) =
         color_to_pixel (if glyph_pixel m (drawn_glyph m c) (x - px) (y - py) then fg else bg)) /\
      (~ in_rect px py w ht x y -> load_pixel (cb_mem s2) (pixel_at buf W x y) = load_pixel m (pixel_at buf W x y)).
Proof.
  intros m w ht Hm F I Hn Hr He Hbuf Hb0 Hk Hbe Hc Hpx Hpw Hpy Hph Hbg Hfg.
  destruct (get_default_PSF_font_run end_ s B Hm F I Hr He) as (font & t & m1 & B' & R1 & E1 & _ & Eg & I1 & G & Im & Hold & T0 & T1 & Hcach).
  fold m in Eg, Im, Hold, T1, Hcach.
  set (g := drawn_glyph m c) in *. assert (Hg : 0 <= g < psf_numglyph m h) by (unfold g, drawn_glyph; case_match; lia).
  destruct (Hcach g Hg) as (p & kp & Ep & Hnew & Hp & Hkp & Hp0 & Hpix). fold ht w in Hkp, Hpix.
  assert (Ew : psf_width m1 h = w /\ psf_height m1 h = ht).
  { pose proof (fi_header _ F). pose proof (fi_glyphs _ F). destruct (psf_ranges m) as (Q1 & Q2 & Q3).
    assert (0 <= psf_numglyph m h * psf_bytesperglyph m h) by (apply Z.mul_nonneg_nonneg; lia).
    split; apply image_load32; (done || lia). }
  destruct Ew as [Ew Eh]. destruct (psf_sizes m h) as [Hw0 Hh0]. fold w in Hw0. fold ht in Hh0.
  assert (0 <= ht * w) by (apply Z.mul_nonneg_nonneg; lia).
  destruct (heap_clear _ _ _ _ I1 Hp) as [C1 _]. pose proof (proj2 G p kp Hp Hnew _ _ Hbuf) as Hsp. unfold sep in Hsp.
  set (s1 := CBState t m1).
  destruct (write_PSF_char_run font c p buf px py W Hh bg fg s1) as (m2 & R2 & Hin & Hout & _);
    cbn [cb_mem s1]; rewrite ?E1, ?Ew, ?Eh; try done.
  { split; rewrite ?E1, ?Ew, ?Eh, ?Eg by lia; fold g; [lia|lia|done|lia|unfold sep; lia]. }
  cbn [cb_mem s1] in Hin, Hout. rewrite E1, Ew, Eh in Hin, Hout.
  exists font, s1, (CBState t m2). split; [exact R1|]. split; [exact R2|]. intros x y Hx Hy. cbn [cb_mem]. split.
  - intros [X Y]. rewrite Hin by done. rewrite Hpix by lia. unfold choose. by destruct (glyph_pixel m g (x - px) (y - py)).
  - intros Hnot. rewrite Hout by done. apply load_pixel_ext. intros b Hb.
    apply (Hold buf k b Hbuf). unfold pixel_at in Hb.
    assert (0 <= y * W) by (apply Z.mul_nonneg_nonneg; lia). assert ((y + 1) * W <= Hh * W) by (apply Z.mul_le_mono_nonneg_r; lia). lia.
Qed.
End glyphs.
