(* ===== verification/Vbe.v ===== *)
(** * Frame buffer of the firmware (HAL/bios/vbe.c)

    The frame buffer is physical memory mapped by the virtual memory manager;
    the picture is copied to it in the depth of the mode. *)

From S2P Require Import Prelude Memory Interfaces Bus Display.

(** The value of an [int] computation, sign extended to 64 bits. *)
Definition int_to_u64 (x : Z) : Z := wrap64 (if wrap32 x <? 2 ^ 31 then wrap32 x else wrap32 x - 2 ^ 32).

(** Fields of the mode information at [i]. *)
Definition mode_width (m : mem) (i : Z) : Z := load16 m (i + 18).
Definition mode_height (m : mem) (i : Z) : Z := load16 m (i + 20).
Definition mode_bpp (m : mem) (i : Z) : Z := load8 m (i + 25).
Definition mode_framebuffer (m : mem) (i : Z) : Z := load32 m (i + 40).

Record VbeFrameBuffer : Type := MkVbeFrameBuffer {
  vaddr : Z; paddr : Z; vbe_mode_info : Z; framebuffer_mapping : VMemHandle
}.
Definition invalid_buffer : VbeFrameBuffer := MkVbeFrameBuffer NULL NULL NULL invalid_handle.

Record vbe_state (V : Type) : Type := VbeState { vb_vm : V; global_frame_buffer : VbeFrameBuffer }.
Arguments VbeState {V}.
Arguments vb_vm {V}.
Arguments global_frame_buffer {V}.

Definition FRAMEBUFFER_FLAGS : Z := Z.lor (Z.lor 2 1) (Z.shiftl 1 7).

Section ops.
Context {V : Type} {MP : MappingProvider V}.
#[local] Abbreviation state := (screen (vbe_state V)).
(** The address the boot loader leaves its data at. *)
Context (bootloader_data : Z).

Definition vb_vm_lens : lens state V :=
  Lens (fun s => vb_vm (sc_dev s)) (fun v s => Screen (VbeState v (global_frame_buffer (sc_dev s))) (sc_mem s)).
Definition set_frame_buffer (f : VbeFrameBuffer) : M state unit :=
  modify (fun s => Screen (VbeState (vb_vm (sc_dev s)) f) (sc_mem s)).
Definition boot_mode_info (m : mem) : Z := load64 m (bootloader_data + 8).

Definition init_frame_buffer : M state VbeFrameBuffer :=
  m <- gets sc_mem;;
  let mi := boot_mode_info m in
  let pa := mode_framebuffer m mi in
  let bytes_count := int_to_u64 (mode_bpp m mi / 8 * mode_height m mi * mode_width m mi) in
  let bytes_count := if bytes_count mod PAGE_SIZE =? 0 then bytes_count
                     else wrap64 (bytes_count + (PAGE_SIZE - bytes_count mod PAGE_SIZE)) in
  h <- zoom vb_vm_lens (mp_memory_map pa bytes_count FRAMEBUFFER_FLAGS);;
  va <- gets (fun s => mp_vmem_addr h (vb_vm (sc_dev s)));;
  if va =? NULL then ret invalid_buffer else ret (MkVbeFrameBuffer va pa mi h).

Definition is_frame_buffer_valid (f : VbeFrameBuffer) : bool :=
  negb ((paddr f =? NULL) || (vaddr f =? NULL) || (vbe_mode_info f =? NULL)).

Definition init_vbe_display : M state unit := f <- init_frame_buffer;; set_frame_buffer f.

Definition destroy_frame_buffer (f : VbeFrameBuffer) : M state unit := zoom vb_vm_lens (mp_deallocate (framebuffer_mapping f)).

Definition finalize_vbe_display : M state unit :=
  f <- gets (fun s => global_frame_buffer (sc_dev s));; destroy_frame_buffer f.

Fixpoint write_24 (n : nat) (m : mem) (dest pixels i : Z) : mem :=
  match n with
  | O => m
  | S n' =>
      let m1 := store8 m dest (pixel_b (load_pixel m (pixels + 4 * i))) in
      let m2 := store8 m1 (dest + 1) (pixel_g (load_pixel m1 (pixels + 4 * i))) in
      let m3 := store8 m2 (dest + 2) (pixel_r (load_pixel m2 (pixels + 4 * i))) in
      write_24 n' m3 (dest + 3) pixels (i + 1)
  end.

Definition write_pixels_vbe_display (pixels size : Z) : M state unit :=
  f <- gets (fun s => global_frame_buffer (sc_dev s));;
  when (negb (is_frame_buffer_valid f)) (kpanic VBE_ERROR);;
  m <- gets sc_mem;;
  let pixel_count := int_to_u64 (mode_height m (vbe_mode_info f) * mode_width m (vbe_mode_info f)) in
  when (pixel_count <? size) (kpanic VBE_ERROR);;
  if mode_bpp m (vbe_mode_info f) =? 24
  then modify (fun s => Screen (sc_dev s) (write_24 (Z.to_nat size) (sc_mem s) (vaddr f) pixels 0))
  else if mode_bpp m (vbe_mode_info f) =? 32
  then modify (fun s => Screen (sc_dev s) (memcpy (sc_mem s) (vaddr f) pixels (wrap64 (pixel_count * sizeof_Pixel))))
  else kpanic VBE_ERROR.

Definition get_firmware_display (m : mem) : DisplayInterface (vbe_state V) :=
  let mi := boot_mode_info m in
  MkDisplayInterface (MkDisplayInfo (mode_width m mi) (mode_height m mi) (mode_bpp m mi))
    init_vbe_display finalize_vbe_display write_pixels_vbe_display.
End ops.

(** ** What reaches the frame buffer *)

Section proofs.
Context {V : Type} {MP : MappingProvider V} {ML : MappingLaws V}.
#[local] Abbreviation state := (screen (vbe_state V)).
Implicit Types s : state.

(** The bytes of pixel [i] at the depth of 24 bits. *)
Definition pixel_24 (m : mem) (dest i : Z) : Z * Z * Z :=
  (load8 m (dest + 3 * i), load8 m (dest + 3 * i + 1), load8 m (dest + 3 * i + 2)).

Lemma write_24_run n m dest pixels i :
  let N := Z.of_nat n in
  dest + 3 * N <= pixels + 4 * i \/ pixels + 4 * (i + N) <= dest ->
  (forall b, b < dest \/ dest + 3 * N <= b -> load8 (write_24 n m dest pixels i) b = load8 m b) /\
  (forall j, 0 <= j < N -> pixel_24 (write_24 n m dest pixels i) dest j =
     (load8 m (pixels + 4 * (i + j)), load8 m (pixels + 4 * (i + j) + 1), load8 m (pixels + 4 * (i + j) + 2))).
Proof.
  revert m dest i. induction n as [|n IH]; intros m dest i N Hs; [split; [done|lia]|]. subst N. cbn [write_24].
  set (m1 := store8 m dest _). set (m2 := store8 m1 _ _). set (m3 := store8 m2 _ _).
  assert (Hout : forall b, b < dest \/ dest + 3 <= b -> load8 m3 b = load8 m b).
  { intros b Hb. unfold m3, m2, m1. by rewrite !load8_store8_ne by lia. }
  assert (H0 : pixel_24 m3 dest 0 = (load8 m (pixels + 4 * i), load8 m (pixels + 4 * i + 1), load8 m (pixels + 4 * i + 2))).
  { unfold pixel_24, m3, m2, m1, load_pixel. cbn [pixel_b pixel_g pixel_r]. rewrite Z.mul_0_r, Z.add_0_r.
    repeat first [rewrite load8_store8_eq | rewrite load8_store8_ne by lia].
    rewrite !Z.mod_small by apply load8_range. done. }
  destruct (IH m3 (dest + 3) (i + 1)) as [Ho Hi]; [lia|]. split.
  - intros b Hb. rewrite Ho by lia. apply Hout. lia.
  - intros j Hj. destruct (decide (j = 0)) as [->|].
    + rewrite Z.add_0_r, <-H0. unfold pixel_24. by rewrite !Ho by lia.
    + specialize (Hi (j - 1)). replace (i + 1 + (j - 1)) with (i + j) in Hi by lia.
      rewrite !Hout in Hi by lia. rewrite <-Hi by lia. unfold pixel_24. by replace (dest + 3 + 3 * (j - 1)) with (dest + 3 * j) by lia.
Qed.

(** The mode is of a size an [int] holds, and the picture is clear of the
    frame buffer. *)
Record vbe_ready s (pixels : Z) : Prop := {
  vr_valid : is_frame_buffer_valid (global_frame_buffer (sc_dev s)) = true;
  vr_size : mode_height (sc_mem s) (vbe_mode_info (global_frame_buffer (sc_dev s))) *
            mode_width (sc_mem s) (vbe_mode_info (global_frame_buffer (sc_dev s))) < 2 ^ 31;
  vr_clear : let n := 4 * (mode_height (sc_mem s) (vbe_mode_info (global_frame_buffer (sc_dev s))) *
                           mode_width (sc_mem s) (vbe_mode_info (global_frame_buffer (sc_dev s)))) in
             vaddr (global_frame_buffer (sc_dev s)) + n <= pixels \/ pixels + n <= vaddr (global_frame_buffer (sc_dev s))
}.

Lemma mode_sizes m i : 0 <= mode_height m i * mode_width m i /\ 0 <= mode_height m i < 2 ^ 16 /\ 0 <= mode_width m i < 2 ^ 16 /\ 0 <= mode_bpp m i < 2 ^ 8.
Proof.
  unfold mode_height, mode_width, mode_bpp, load16. pose proof (load_le_range 2 m (i + 20)). pose proof (load_le_range 2 m (i + 18)).
  pose proof (load8_range m (i + 25)). split_and!; lia.
Qed.

Lemma int_to_u64_small x : 0 <= x < 2 ^ 31 -> int_to_u64 x = x.
Proof.
  intros Hx. unfold int_to_u64. rewrite (wrap_small 32) by lia. rewrite (proj2 (Z.ltb_lt _ _)) by lia. apply wrap64_small. lia.
Qed.

(** The checks before the copy. *)
Lemma write_pixels_checks s pixels size :
  let m := sc_mem s in
  let f := global_frame_buffer (sc_dev s) in
  let count := mode_height m (vbe_mode_info f) * mode_width m (vbe_mode_info f) in
  vbe_ready s pixels ->
  write_pixels_vbe_display pixels size s =
    (if count <? size then kpanic VBE_ERROR
     else if mode_bpp m (vbe_mode_info f) =? 24
     then modify (fun s => Screen (sc_dev s) (write_24 (Z.to_nat size) (sc_mem s) (vaddr f) pixels 0))
     else if mode_bpp m (vbe_mode_info f) =? 32
     then modify (fun s => Screen (sc_dev s) (memcpy (sc_mem s) (vaddr f) pixels (count * 4)))
     else kpanic VBE_ERROR) s.
Proof.
  intros m f count [Hv Hc Hs]. fold m f in Hv, Hc, Hs. fold count in Hc, Hs.
  destruct (mode_sizes m (vbe_mode_info f)) as (Hc0 & _). fold count in Hc0.
  unfold write_pixels_vbe_display. rewrite (bind_ok _ _ s f s) by done. rewrite Hv. cbn [negb when]. rewrite (bind_ok _ _ s tt s) by done.
  rewrite (bind_ok _ _ s m s) by done. cbv zeta. fold count. rewrite int_to_u64_small by lia. unfold sizeof_Pixel. rewrite wrap64_small by lia.
  by destruct (count <? size).
Qed.

Lemma write_pixels_32 s pixels size :
  let m := sc_mem s in
  let f := global_frame_buffer (sc_dev s) in
  let count := mode_height m (vbe_mode_info f) * mode_width m (vbe_mode_info f) in
  vbe_ready s pixels -> size <= count -> mode_bpp m (vbe_mode_info f) = 32 ->
  exists m', write_pixels_vbe_display pixels size s = Ok (tt, Screen (sc_dev s) m') /\
     (forall i, 0 <= i < count -> load_pixel m' (vaddr f + 4 * i) = load_pixel m (pixels + 4 * i)) /\
     (forall b, b < vaddr f \/ vaddr f + 4 * count <= b -> load8 m' b = load8 m b).
Proof.
  intros m f count Hr Hle Hb. rewrite (write_pixels_checks s pixels size Hr). fold m f. fold count. destruct Hr as [Hv Hc Hs]. fold m f in Hc, Hs.
  fold count in Hc, Hs. cbv zeta in Hs. destruct (mode_sizes m (vbe_mode_info f)) as (Hc0 & _). fold count in Hc0.
  rewrite (proj2 (Z.ltb_ge _ _)) by lia. rewrite Hb. cbn [Z.eqb Pos.eqb]. eexists. split; [reflexivity|].
  assert (Hm : forall b, load8 (memcpy m (vaddr f) pixels (count * 4)) b =
    if decide (vaddr f <= b < vaddr f + count * 4) then load8 m (pixels + (b - vaddr f)) else load8 m b) by (apply memcpy_spec; lia).
  split.
  - intros i Hi. unfold load_pixel. rewrite !Hm, !decide_True by lia. f_equal; f_equal; lia.
  - intros b Hbb. rewrite Hm, decide_False by lia. done.
Qed.

Theorem vbe_write_pixels_correct s pixels size :
  let m := sc_mem s in
  let f := global_frame_buffer (sc_dev s) in
  let count := mode_height m (vbe_mode_info f) * mode_width m (vbe_mode_info f) in
  vbe_ready s pixels -> 0 <= size ->
  (count < size -> write_pixels_vbe_display pixels size s = Panic VBE_ERROR) /\
  (size <= count -> mode_bpp m (vbe_mode_info f) = 24 -> exists m', write_pixels_vbe_display pixels size s = Ok (tt, Screen (sc_dev s) m') /\
     (forall i, 0 <= i < size -> pixel_24 m' (vaddr f) i =
        let p := load_pixel m (pixels + 4 * i) in (pixel_b p, pixel_g p, pixel_r p)) /\
     (forall b, b < vaddr f \/ vaddr f + 3 * size <= b -> load8 m' b = load8 m b)) /\
  (size <= count -> mode_bpp m (vbe_mode_info f) = 32 -> exists m', write_pixels_vbe_display pixels size s = Ok (tt, Screen (sc_dev s) m') /\
     (forall i, 0 <= i < count -> load_pixel m' (vaddr f + 4 * i) = load_pixel m (pixels + 4 * i)) /\
     (forall b, b < vaddr f \/ vaddr f + 4 * count <= b -> load8 m' b = load8 m b)) /\
  (mode_bpp m (vbe_mode_info f) <> 24 -> mode_bpp m (vbe_mode_info f) <> 32 -> write_pixels_vbe_display pixels size s = Panic VBE_ERROR).
Proof.
  intros m f count Hr Hz. split_and!; [| |by apply write_pixels_32|]; rewrite (write_pixels_checks s pixels size Hr); fold m f; fold count.
  - intros Hlt. by rewrite (proj2 (Z.ltb_lt _ _)).
  - intros Hle Hb. rewrite (proj2 (Z.ltb_ge _ _)) by lia. rewrite Hb. cbn [Z.eqb Pos.eqb]. pose proof (vr_clear _ _ Hr) as Hs. cbv zeta in Hs.
    fold m f in Hs. fold count in Hs.
    destruct (write_24_run (Z.to_nat size) m (vaddr f) pixels 0) as [Ho Hi]; rewrite ?Z2Nat.id in * by lia; [lia|].
    eexists. split; [reflexivity|]. split; [|exact Ho]. intros i Hi'. rewrite Hi by lia. done.
  - intros H1 H2. rewrite (proj2 (Z.eqb_neq _ 24)), (proj2 (Z.eqb_neq _ 32)) by done. by destruct (count <? size).
Qed.

(** ** The mapping of the frame buffer *)

Lemma init_vbe_display_run bootloader_data s :
  let m := sc_mem s in
  let mi := boot_mode_info bootloader_data m in
  let bytes := mode_bpp m mi / 8 * mode_height m mi * mode_width m mi in
  mp_ok (vb_vm (sc_dev s)) -> 0 < bytes < 2 ^ 31 - PAGE_SIZE -> mode_framebuffer m mi mod PAGE_SIZE = 0 ->
  exists s', init_vbe_display bootloader_data s = Ok (tt, s') /\ sc_mem s' = m /\ mp_ok (vb_vm (sc_dev s')) /\
    let f := global_frame_buffer (sc_dev s') in
    vbe_mode_info f = mi /\ paddr f = mode_framebuffer m mi /\ 0 < vaddr f /\
    forall i, 0 <= i < bytes -> mp_translate (vb_vm (sc_dev s')) (vaddr f + i) = paddr f + i.
Proof.
  intros m mi bytes Hok Hb Ha. unfold init_vbe_display, init_frame_buffer. rewrite bind_assoc, (bind_ok _ _ s m s) by done. cbv zeta. fold mi. fold bytes.
  unfold PAGE_SIZE in Hb. rewrite int_to_u64_small by lia.
  set (n := if bytes mod PAGE_SIZE =? 0 then bytes else wrap64 (bytes + (PAGE_SIZE - bytes mod PAGE_SIZE))).
  assert (Hn : n mod PAGE_SIZE = 0 /\ bytes <= n < 2 ^ 32).
  { unfold n, PAGE_SIZE in *. destruct (Z.eqb_spec (bytes mod 4096) 0); [lia|]. rewrite wrap64_small by lia. lia. }
  assert (Hfb : 0 <= mode_framebuffer m mi < 2 ^ 47).
  { unfold mode_framebuffer, load32. pose proof (load_le_range 4 m (mi + 40)). lia. }
  destruct (mp_map_ok (vb_vm (sc_dev s)) (mode_framebuffer m mi) n FRAMEBUFFER_FLAGS Hok Ha) as (h & v & R & O & _ & A0 & A1 & T & _); [lia..|].
  rewrite bind_assoc. set (s1 := put vb_vm_lens v s). rewrite (bind_ok _ _ s h s1) by (unfold zoom; cbn [view vb_vm_lens]; by rewrite R).
  rewrite bind_assoc, (bind_ok _ _ s1 (mp_vmem_addr h v) s1) by done. rewrite (proj2 (Z.eqb_neq _ _)) by (unfold NULL; lia).
  eexists. split; [reflexivity|]. split; [done|]. split; [exact O|]. cbn. split_and!; try done. intros i Hi. apply T. lia.
Qed.
End proofs.
