(* ===== verification/Kio.v ===== *)
(** * Console output (kio.c)

    Characters are queued in a circular buffer, drawn into a picture in memory
    when it is flushed, and the picture is handed to the display. *)

From S2P Require Import Prelude Memory Sync Interfaces CircularBuffer Display Psf.
Import Sequential.

Definition KIO_CIRCULAR_BUFFER_SIZE : Z := 4096.
Definition newline : Z := 10.
Definition percent : Z := 37.

Record KioState (D : Type) : Type := MkKioState {
  char_buffer : CircularBuffer; display : DisplayInterface D; next_x : Z; next_y : Z; screen_size : Z;
  background_color : Color; font_color : Color; font : PSFFont; kio_buffer : Z
}.
Arguments MkKioState {D}.
Arguments char_buffer {D}.
Arguments display {D}.
Arguments next_x {D}.
Arguments next_y {D}.
Arguments screen_size {D}.
Arguments background_color {D}.
Arguments font_color {D}.
Arguments font {D}.
Arguments kio_buffer {D}.

(** The heap, the memory and the display under the console, its state, its lock
    and the interrupt flag. *)
Record kio_st (H D : Type) : Type := KioSt {
  k_heap : H; k_mem : mem; k_dev : D; kio_state : KioState D; kio_lock : bool; k_if : bool; is_initialized : bool
}.
Arguments KioSt {H D}.
Arguments k_heap {H D}.
Arguments k_mem {H D}.
Arguments k_dev {H D}.
Arguments kio_state {H D}.
Arguments kio_lock {H D}.
Arguments k_if {H D}.
Arguments is_initialized {H D}.

(** The variable arguments of [printf]. *)
Inductive va_value : Type :=
| VaInt (v : Z)
| VaString (str : list Z).

Section ops.
Context {H D : Type} {HP : HeapProvider H}.
#[local] Abbreviation state := (kio_st H D).
Implicit Types (s : state) (k : KioState D).

Definition k_cb_lens : lens state (cb_state H) :=
  Lens (fun s => CBState (k_heap s) (k_mem s))
       (fun c s => KioSt (cb_heap c) (cb_mem c) (k_dev s) (kio_state s) (kio_lock s) (k_if s) (is_initialized s)).
Definition k_screen_lens : lens state (screen D) :=
  Lens (fun s => Screen (k_dev s) (k_mem s))
       (fun c s => KioSt (k_heap s) (sc_mem c) (sc_dev c) (kio_state s) (kio_lock s) (k_if s) (is_initialized s)).
Definition kio_lock_lens : lens state bool :=
  Lens kio_lock (fun b s => KioSt (k_heap s) (k_mem s) (k_dev s) (kio_state s) b (k_if s) (is_initialized s)).
Definition k_if_lens : lens state bool :=
  Lens k_if (fun b s => KioSt (k_heap s) (k_mem s) (k_dev s) (kio_state s) (kio_lock s) b (is_initialized s)).
Definition set_kio k s : state := KioSt (k_heap s) (k_mem s) (k_dev s) k (kio_lock s) (k_if s) (is_initialized s).
Definition set_mem (m : mem) s : state := KioSt (k_heap s) m (k_dev s) (kio_state s) (kio_lock s) (k_if s) (is_initialized s).
Definition modify_kio (f : KioState D -> KioState D) : M state unit := modify (fun s => set_kio (f (kio_state s)) s).

Definition set_char_buffer (c : CircularBuffer) k : KioState D :=
  MkKioState c (display k) (next_x k) (next_y k) (screen_size k) (background_color k) (font_color k) (font k) (kio_buffer k).
Definition set_cursor (x y : Z) k : KioState D :=
  MkKioState (char_buffer k) (display k) x y (screen_size k) (background_color k) (font_color k) (font k) (kio_buffer k).

Definition kio_locked {A} (body : M state A) : M state A := with_spinlock_hard kio_lock_lens k_if_lens body.

(** [for(i = i; i < i + n; i++) buffer[i] = p] *)
Fixpoint fill_pixels (n : nat) (m : mem) (buf i : Z) (p : Pixel) : mem :=
  match n with
  | O => m
  | S n' => fill_pixels n' (store_pixel m (wrap64 (buf + sizeof_Pixel * i)) p) buf (i + 1) p
  end.

(** [for(...; i < i + n; i++) buffer[i-offset] = buffer[i]] *)
Fixpoint move_pixels (n : nat) (m : mem) (buf offset i : Z) : mem :=
  match n with
  | O => m
  | S n' =>
      move_pixels n' (store_pixel m (wrap64 (buf + sizeof_Pixel * wrap64 (i - offset))) (load_pixel m (wrap64 (buf + sizeof_Pixel * i))))
        buf offset (i + 1)
  end.

(** [junk] is what the stack held at [make_circular_buffer]. *)
Definition init_kio (junk : Z) (display_ : DisplayInterface D) (font_ : PSFFont) (background_color_ font_color_ : Color) : M state unit :=
  init_spinlock kio_lock_lens;;
  modify (fun s => KioSt (k_heap s) (k_mem s) (k_dev s) (kio_state s) (kio_lock s) (k_if s) true);;
  let size := wrap32 (display_height (info display_) * display_width (info display_)) in
  b <- zoom k_cb_lens (zoom cb_heap_lens (hp_kmalloc (size * sizeof_Pixel)));;
  c <- zoom k_cb_lens (make_circular_buffer junk KIO_CIRCULAR_BUFFER_SIZE);;
  modify (set_kio (MkKioState c display_ 0 0 size background_color_ font_color_ font_ b));;
  modify (fun s => set_mem (fill_pixels (Z.to_nat size) (k_mem s) b 0 (color_to_pixel background_color_)) s).

Definition is_kio_initialized s : bool := is_initialized s.

(** The picture one line of text up, the last line empty. *)
Definition scroll : M state unit :=
  modify (fun s =>
    let k := kio_state s in
    let offset := wrap32 (display_width (info (display k)) * psf_height (k_mem s) (header (font k))) in
    let m1 := move_pixels (Z.to_nat (screen_size k - offset)) (k_mem s) (kio_buffer k) offset offset in
    let first := wrap32 (wrap64 (screen_size k - offset)) in
    set_mem (fill_pixels (Z.to_nat (screen_size k - first)) m1 (kio_buffer k) first (color_to_pixel (background_color k))) s).

Definition font_width s : Z := psf_width (k_mem s) (header (font (kio_state s))).
Definition font_height s : Z := psf_height (k_mem s) (header (font (kio_state s))).
Definition move_cursor (f : state -> Z * Z) : M state unit :=
  modify (fun s => set_kio (set_cursor (f s).1 (f s).2 (kio_state s)) s).

Definition next_line : M state unit :=
  s <- get;;
  when (display_height (info (display (kio_state s))) <=? wrap64 (next_y (kio_state s) + wrap32 (font_height s * 2)))
    (move_cursor (fun s => (next_x (kio_state s), wrap64 (next_y (kio_state s) - font_height s)));; scroll);;
  move_cursor (fun s => (0, wrap64 (next_y (kio_state s) + font_height s))).

Definition unsync_write_char (c : Z) : M state unit :=
  s <- get;;
  when ((display_width (info (display (kio_state s))) <=? wrap64 (next_x (kio_state s) + font_width s)) || (c =? newline)) next_line;;
  when (negb (c =? newline))
    (k <- gets kio_state;;
     zoom k_cb_lens (write_PSF_char (font k) c (MkVector2i (next_x k) (next_y k)) (kio_buffer k)
       (MkVector2i (display_width (info (display k))) (display_height (info (display k)))) (background_color k) (font_color k));;
     move_cursor (fun s => (wrap64 (next_x (kio_state s) + font_width s), next_y (kio_state s)))).

Fixpoint flush_loop (fuel : nat) : M state unit :=
  match fuel with
  | O => out_of_fuel
  | S fuel' =>
      cb <- gets (fun s => char_buffer (kio_state s));;
      if is_circular_buffer_empty cb then ret tt else
      r <- zoom k_cb_lens (read_circular_buffer cb);; let '(c, cb') := r in
      modify_kio (set_char_buffer cb');;
      unsync_write_char c;;
      flush_loop fuel'
  end.

Definition unsync_flush : M state unit :=
  k <- gets kio_state;;
  if is_circular_buffer_empty (char_buffer k) then ret tt else
  flush_loop (S (Z.to_nat (buffer_size (char_buffer k))));;
  k <- gets kio_state;;
  zoom k_screen_lens (write_pixels (display k) (kio_buffer k) (screen_size k)).

Definition unsync_opt_flush : M state unit :=
  k <- gets kio_state;;
  when (32 <=? circular_buffer_written_bytes (char_buffer k)) unsync_flush.

Definition kio_flush : M state unit := kio_locked unsync_flush.

Definition unsync_putchar (c : Z) (flush : bool) : M state unit :=
  cb <- gets (fun s => char_buffer (kio_state s));;
  cb' <- zoom k_cb_lens (write_circular_buffer cb c);;
  modify_kio (set_char_buffer cb');;
  when flush unsync_flush.

Definition putchar (c : Z) (flush : bool) : M state unit := kio_locked (unsync_putchar c flush).

(** A string is the list of its characters. *)
Fixpoint unsync_print (str : list Z) : M state unit :=
  match str with
  | [] => ret tt
  | c :: str' => unsync_putchar c false;; unsync_print str'
  end.

Definition print (str : list Z) : M state unit := kio_locked (unsync_print str;; unsync_opt_flush).

Definition finalize_kio : M state unit :=
  i <- gets is_initialized;;
  when (negb i) (kpanic KIO_ERROR);;
  kio_flush;;
  k <- gets kio_state;;
  zoom k_screen_lens (display_finalize (display k));;
  zoom k_cb_lens (zoom cb_heap_lens (hp_kfree (kio_buffer k)));;
  cb <- zoom k_cb_lens (destory_circular_buffer (char_buffer k));;
  modify_kio (set_char_buffer cb).

(** ** Numbers *)

Fixpoint digit_loop (fuel : nat) (n base counter buffer_size_ : Z) (buf : list Z) : M state (list Z * Z) :=
  match fuel with
  | O => out_of_fuel
  | S fuel' =>
      if n =? 0 then ret (buf, counter) else
      KASSERT (counter <? buffer_size_);;
      digit_loop fuel' (n / base) base (wrap8 (counter + 1)) buffer_size_ (<[Z.to_nat counter := wrap8 (n mod base)]> buf)
  end.

(** A number below [2^64] has at most 64 digits in any base. *)
Definition fill_digit_buffer (n base buffer_size_ : Z) : M state (list Z * Z) :=
  digit_loop 65 n base 0 buffer_size_ (replicate (Z.to_nat buffer_size_) 0).

Definition digit_char (d : Z) : Z := if 10 <=? d then 65 + d - 10 else 48 + d.

(** [for(int i = first-1; i >= last; i--)] over the digit buffer *)
Definition digits_down (buf : list Z) (last first : Z) : list Z :=
  reverse (take (Z.to_nat (first - last)) (drop (Z.to_nat last) buf)).

Definition print_uint64_hex (number : Z) : M state unit :=
  r <- fill_digit_buffer number 16 16;; let '(buf, _) := r in
  kio_locked (unsync_putchar 48 false;; unsync_putchar 120 false;; unsync_print (map digit_char (digits_down buf 0 16));; unsync_opt_flush).

Definition print_uint64_dec (n : Z) : M state unit :=
  r <- fill_digit_buffer n 10 128;; let '(buf, count) := r in
  kio_locked (when (n =? 0) (unsync_putchar 48 false);;
              unsync_print (map (fun d => 48 + d) (digits_down buf 0 count));; unsync_opt_flush).

Definition unsync_print_uintmax_hex (number size_bytes : Z) : M state unit :=
  KASSERT (size_bytes <=? 8);;
  r <- fill_digit_buffer number 16 16;; let '(buf, _) := r in
  unsync_putchar 48 false;; unsync_putchar 120 false;;
  KASSERT (size_bytes * 2 <=? 16);;
  unsync_print (map digit_char (digits_down buf (16 - size_bytes * 2) 16)).

Definition unsync_print_uintmax_hex_not_padded (number size_bytes : Z) : M state unit :=
  KASSERT (size_bytes <=? 8);;
  r <- fill_digit_buffer number 16 16;; let '(buf, count) := r in
  unsync_putchar 48 false;; unsync_putchar 120 false;;
  unsync_print (map digit_char (digits_down buf 0 count)).

Definition unsync_print_uintmax_dec (n : Z) : M state unit :=
  r <- fill_digit_buffer n 10 128;; let '(buf, count) := r in
  when (n =? 0) (unsync_putchar 48 false);;
  unsync_print (map (fun d => 48 + d) (digits_down buf 0 count)).

(** ** Formatted output *)

Fixpoint substr_cmp (string substr : list Z) {struct substr} : bool :=
  match substr, string with
  | [], _ => true
  | _ :: _, [] => false
  | b :: substr', a :: string' => (a =? b) && substr_cmp string' substr'
  end.

Definition tok_u64 : list Z := [117; 54; 52].
Definition tok_h64 : list Z := [104; 54; 52].
Definition tok_x64 : list Z := [120; 54; 52].
Definition tok_u32 : list Z := [117; 51; 50].
Definition tok_h32 : list Z := [104; 51; 50].
Definition tok_x32 : list Z := [120; 51; 50].
Definition tok_s : list Z := [115].

(** The next argument as an unsigned integer of [w] bits, or as a string. *)
Definition va_arg_int (w : Z) (args : list va_value) : M state (Z * list va_value) :=
  match args with VaInt v :: args' => ret (wrap w v, args') | _ => fault end.
Definition va_arg_string (args : list va_value) : M state (list Z * list va_value) :=
  match args with VaString str :: args' => ret (str, args') | _ => fault end.

Definition print_int (w : Z) (pr : Z -> M state unit) (format : list Z) (args : list va_value) : M state (list Z * list va_value) :=
  r <- va_arg_int w args;; let '(v, args') := r in
  pr v;;
  ret (drop 2 format, args').

(** The chain of tests for the 64-bit formats, and the one for the others that
    follows it. *)
Definition token_64 (format : list Z) (args : list va_value) : M state (list Z * list va_value) :=
  if substr_cmp format tok_u64 then print_int 64 unsync_print_uintmax_dec format args
  else if substr_cmp format tok_h64 then print_int 64 (fun v => unsync_print_uintmax_hex v 8) format args
  else if substr_cmp format tok_x64 then print_int 64 (fun v => unsync_print_uintmax_hex_not_padded v 8) format args
  else ret (format, args).
Definition token_rest (format : list Z) (args : list va_value) : M state (list Z * list va_value) :=
  if substr_cmp format tok_u32 then print_int 32 unsync_print_uintmax_dec format args
  else if substr_cmp format tok_h32 then print_int 32 (fun v => unsync_print_uintmax_hex v 4) format args
  else if substr_cmp format tok_x32 then print_int 32 (fun v => unsync_print_uintmax_hex_not_padded v 4) format args
  else if substr_cmp format tok_s then r <- va_arg_string args;; let '(str, args') := r in unsync_print str;; ret (format, args')
  else ret (format, args).

Fixpoint printf_loop (fuel : nat) (format : list Z) (token_found : bool) (args : list va_value) : M state unit :=
  match fuel, format with
  | O, _ => out_of_fuel
  | S _, [] => ret tt
  | S fuel', c :: rest =>
      if token_found then
        if c =? percent then unsync_putchar percent false;; printf_loop fuel' rest false args
        else
          r <- token_64 format args;; let '(f1, a1) := r in
          r <- token_rest f1 a1;; let '(f2, a2) := r in
          printf_loop fuel' (drop 1 f2) false a2
      else if c =? percent then printf_loop fuel' rest true args
      else unsync_putchar c false;; printf_loop fuel' rest false args
  end.

Definition printf (format : list Z) (args : list va_value) : M state unit :=
  kio_locked (printf_loop (S (length format)) format false args;; unsync_opt_flush).
End ops.
