(* ===== verification/KioScreen.v ===== *)
(** * Console output: the picture *)

From S2P Require Import Prelude Memory Sync Interfaces CircularBuffer Display Psf PsfTop Kio.

(** ** Loops over pixels *)

Lemma fill_pixels_run n m buf i p :
  0 <= buf -> 0 <= i -> buf + 4 * (i + Z.of_nat n) <= 2 ^ 64 -> pixel_ok p ->
  (forall j, i <= j < i + Z.of_nat n -> load_pixel (fill_pixels n m buf i p) (buf + 4 * j) = p) /\
  (forall b, b < buf + 4 * i \/ buf + 4 * (i + Z.of_nat n) <= b -> load8 (fill_pixels n m buf i p) b = load8 m b).
Proof.
  intros Hb Hi He Hp. revert m i Hi He. induction n as [|n IH]; intros m i Hi He; [split; [lia|done]|].
  cbn [fill_pixels]. unfold sizeof_Pixel. rewrite wrap64_small by lia. set (m1 := store_pixel _ _ _).
  destruct (IH m1 (i + 1)) as [Hin Hout]; [lia..|]. split.
  - intros j Hj. destruct (decide (j = i)) as [->|]; [|apply Hin; lia].
    rewrite (load_pixel_ext m1) by (intros b Hbb; apply Hout; lia). by apply load_store_pixel_same.
  - intros b Hbb. rewrite Hout by lia. apply load8_store_pixel_out. lia.
Qed.

Lemma move_pixels_run n m buf off i :
  0 <= buf -> 0 < off <= i -> buf + 4 * (i + Z.of_nat n) <= 2 ^ 64 ->
  (forall j, i <= j < i + Z.of_nat n -> load_pixel (move_pixels n m buf off i) (buf + 4 * (j - off)) = load_pixel m (buf + 4 * j)) /\
  (forall b, b < buf + 4 * (i - off) \/ buf + 4 * (i - off + Z.of_nat n) <= b -> load8 (move_pixels n m buf off i) b = load8 m b).
Proof.
  intros Hb. revert m i. induction n as [|n IH]; intros m i Hi He; [split; [lia|done]|].
  cbn [move_pixels]. unfold sizeof_Pixel. rewrite (wrap64_small (i - off)), !wrap64_small by lia. set (m1 := store_pixel _ _ _).
  destruct (IH m1 (i + 1)) as [Hin Hout]; [lia..|]. split.
  - intros j Hj. destruct (decide (j = i)) as [->|].
    + rewrite (load_pixel_ext m1) by (intros b Hbb; apply Hout; lia). apply load_store_pixel_same, load_pixel_range.
    + rewrite Hin by lia. apply load_pixel_ext. intros b Hbb. apply load8_store_pixel_out. lia.
  - intros b Hbb. rewrite Hout by lia. apply load8_store_pixel_out. lia.
Qed.

Section screen.
Context {H D : Type} {HP : HeapProvider H}.
#[local] Abbreviation state := (kio_st H D).
Implicit Types s : state.

Definition width s : Z := display_width (info (display (kio_state s))).
Definition height s : Z := display_height (info (display (kio_state s))).
Definition pic s (x y : Z) : Pixel := load_pixel (k_mem s) (pixel_at (kio_buffer (kio_state s)) (width s) x y).

(** [n] bytes at [a] that neither the picture nor the character buffer uses. *)
Definition away s (a n : Z) : Prop :=
  sep a n (kio_buffer (kio_state s)) (4 * (width s * height s)) /\
  sep a n (buffer (char_buffer (kio_state s))) (buffer_size (char_buffer (kio_state s))).
Definition glyph_address s (c : Z) : Z := load64 (k_mem s) (glyphs (font (kio_state s)) + 8 * glyph_code (font (kio_state s)) c).

(** The console with [q] queued: the cursor leaves room for a character, and the
    font, the picture and the queue are apart. *)
Record kio_inv (q : list Z) s : Prop := {
  ki_cb : cb_inv (char_buffer (kio_state s)) q (CBState (k_heap s) (k_mem s));
  ki_size : screen_size (kio_state s) = width s * height s /\ width s * height s < 2 ^ 31;
  ki_font : 0 < font_width s < width s /\ 0 < font_height s < height s;
  ki_cursor : 0 <= next_x (kio_state s) < width s /\ 0 <= next_y (kio_state s) /\
    next_y (kio_state s) + font_height s < height s;
  ki_buf : 0 <= kio_buffer (kio_state s) /\ kio_buffer (kio_state s) + 4 * (width s * height s + width s) <= 2 ^ 64;
  ki_colors : color_ok (background_color (kio_state s)) /\ color_ok (font_color (kio_state s));
  ki_sep : sep (buffer (char_buffer (kio_state s))) (buffer_size (char_buffer (kio_state s)))
    (kio_buffer (kio_state s)) (4 * (width s * height s));
  ki_header : away s (header (font (kio_state s))) 32;
  ki_glyphs : 0 < glyphs (font (kio_state s));
  ki_glyph : forall c, 0 <= c < 128 ->
    0 <= glyph_code (font (kio_state s)) c /\ glyphs (font (kio_state s)) + 8 * glyph_code (font (kio_state s)) c < 2 ^ 64 /\
    away s (glyphs (font (kio_state s)) + 8 * glyph_code (font (kio_state s)) c) 8 /\
    0 < glyph_address s c /\ glyph_address s c + font_height s * font_width s <= 2 ^ 64 /\
    away s (glyph_address s c) (font_height s * font_width s)
}.

(** [s'] differs from [s] only in the cursor, the picture and the queue. *)
Record console_step s s' : Prop := {
  cs_mem : forall a n, away s a n -> forall b, a <= b < a + n -> load8 (k_mem s') b = load8 (k_mem s) b;
  cs_static : display (kio_state s') = display (kio_state s) /\ screen_size (kio_state s') = screen_size (kio_state s) /\
    background_color (kio_state s') = background_color (kio_state s) /\ font_color (kio_state s') = font_color (kio_state s) /\
    font (kio_state s') = font (kio_state s) /\ kio_buffer (kio_state s') = kio_buffer (kio_state s);
  cs_ring : buffer (char_buffer (kio_state s')) = buffer (char_buffer (kio_state s)) /\
    buffer_size (char_buffer (kio_state s')) = buffer_size (char_buffer (kio_state s));
  cs_rest : k_heap s' = k_heap s /\ k_dev s' = k_dev s /\ kio_lock s' = kio_lock s /\ k_if s' = k_if s /\ is_initialized s' = is_initialized s
}.

Lemma console_step_refl s : console_step s s.
Proof. by split. Qed.

Lemma away_step s s' a n : console_step s s' -> away s' a n <-> away s a n.
Proof.
  intros [_ (E1 & _ & _ & _ & _ & E2) (E3 & E4) _]. unfold away, width, height. by rewrite E1, E2, E3, E4.
Qed.

Lemma console_step_trans s1 s2 s3 : console_step s1 s2 -> console_step s2 s3 -> console_step s1 s3.
Proof.
  intros S1 S2. split.
  - intros a n Ha b Hb. rewrite (cs_mem _ _ S2 a n) by (done || by apply (away_step s1)). by apply (cs_mem _ _ S1 a n).
  - destruct (cs_static _ _ S1) as (? & ? & ? & ? & ? & ?), (cs_static _ _ S2) as (? & ? & ? & ? & ? & ?). split_and!; congruence.
  - destruct (cs_ring _ _ S1), (cs_ring _ _ S2). split; congruence.
  - destruct (cs_rest _ _ S1) as (? & ? & ? & ? & ?), (cs_rest _ _ S2) as (? & ? & ? & ? & ?). split_and!; congruence.
Qed.

Lemma step_sizes q s s' : kio_inv q s -> console_step s s' ->
  width s' = width s /\ height s' = height s /\ font_width s' = font_width s /\ font_height s' = font_height s.
Proof.
  intros I St. destruct (cs_static _ _ St) as (E1 & _ & _ & _ & E5 & _). unfold width, height, font_width, font_height, psf_width, psf_height, load32.
  rewrite E1, E5. split_and!; try done; apply load_le_ext; intros c Hc; apply (cs_mem _ _ St _ _ (ki_header _ _ I)); lia.
Qed.

(** A step keeps the invariant as far as the queue and the cursor do. *)
Lemma kio_inv_step q q' s s' :
  kio_inv q s -> console_step s s' -> cb_inv (char_buffer (kio_state s')) q' (CBState (k_heap s') (k_mem s')) ->
  0 <= next_x (kio_state s') < width s -> 0 <= next_y (kio_state s') -> next_y (kio_state s') + font_height s < height s ->
  kio_inv q' s'.
Proof.
  intros I St C Hx Hy Hy'. destruct (step_sizes q s s' I St) as (Ew & Eh & Efw & Efh).
  destruct (cs_static _ _ St) as (E1 & E2 & E3 & E4 & E5 & E6). destruct (cs_ring _ _ St) as [E7 E8].
  destruct I as [I1 I2 I3 I4 I5 I6 I7 I8 I9 I10].
  split; rewrite ?Ew, ?Eh, ?Efw, ?Efh, ?E2, ?E3, ?E4, ?E5, ?E6, ?E7, ?E8; try done.
  - by apply (away_step s).
  - intros c Hc. destruct (I10 c Hc) as (J1 & J2 & J3 & J4 & J5 & J6).
    assert (Eg : glyph_address s' c = glyph_address s c).
    { unfold glyph_address. rewrite E5. apply load64_ext. intros b Hb. apply (cs_mem _ _ St _ _ J3). lia. }
    rewrite !(away_step s s') by done. rewrite Eg. done.
Qed.

(** A state reached by changing the picture and moving the cursor. *)
Definition redrawn s (m : mem) (x y : Z) : state := set_kio (set_cursor x y (kio_state s)) (set_mem m s).
Definition picture_only s (m : mem) : Prop :=
  forall b, b < kio_buffer (kio_state s) \/ kio_buffer (kio_state s) + 4 * (width s * height s) <= b -> load8 m b = load8 (k_mem s) b.

Lemma redrawn_step s m x y : picture_only s m -> console_step s (redrawn s m x y).
Proof. intros P. split; try done. intros a n [A _] b Hb. apply P. unfold sep in A. lia. Qed.

Lemma redrawn_inv q s m x y :
  kio_inv q s -> picture_only s m -> 0 <= x < width s -> 0 <= y -> y + font_height s < height s -> kio_inv q (redrawn s m x y).
Proof.
  intros I P Hx Hy Hy'. eapply kio_inv_step; [exact I|by apply redrawn_step| |done..].
  apply (cb_inv_ext _ _ _ _ (ki_cb _ _ I)). intros b Hb. apply P. pose proof (ki_sep _ _ I) as Sp. unfold sep in Sp. lia.
Qed.

(** ** The next line *)

Definition scrolled s (x y : Z) : Pixel :=
  if y <? height s - font_height s then pic s x (y + font_height s) else color_to_pixel (background_color (kio_state s)).

Lemma scroll_run q s :
  kio_inv q s -> exists m, scroll s = Ok (tt, set_mem m s) /\ picture_only s m /\
    forall x y, 0 <= x < width s -> 0 <= y < height s -> load_pixel m (pixel_at (kio_buffer (kio_state s)) (width s) x y) = scrolled s x y.
Proof.
  intros [_ [I1 I2] [I3 I4] _ [I5 I6] [I7 _] _ _ _ _]. unfold scroll, modify. cbv zeta. fold (width s). fold (font_height s). rewrite I1.
  set (k := kio_state s) in *. set (W := width s) in *. set (Ht := height s) in *. set (fh := font_height s) in *.
  assert (Hoff : 0 < W * fh) by (apply Z.mul_pos_pos; lia).
  assert (Hlt : W * fh < W * Ht) by (apply Z.mul_lt_mono_pos_l; lia).
  rewrite (wrap_small 32 (W * fh)) by lia. rewrite (wrap64_small (_ - _)) by lia. rewrite (wrap_small 32 (W * Ht - W * fh)) by lia.
  replace (W * Ht - (W * Ht - W * fh)) with (W * fh) by lia.
  set (m1 := move_pixels _ _ _ _ _). set (m2 := fill_pixels _ _ _ _ _). exists m2. split; [done|].
  destruct (move_pixels_run (Z.to_nat (W * Ht - W * fh)) (k_mem s) (kio_buffer k) (W * fh) (W * fh)) as [Hin1 Hout1]; [lia..|].
  destruct (fill_pixels_run (Z.to_nat (W * fh)) m1 (kio_buffer k) (W * Ht - W * fh) (color_to_pixel (background_color k))) as [Hin2 Hout2]; [lia|lia|lia|done|].
  fold m1 in Hin1, Hout1. fold m2 in Hin2, Hout2. rewrite Z2Nat.id in * by lia. split.
  - intros b Hb. fold k W Ht in Hb. rewrite Hout2 by lia. apply Hout1. lia.
  - intros x y Hx Hy. unfold pixel_at, scrolled, pic, pixel_at. fold Ht fh k W.
    assert (0 <= y * W) by (apply Z.mul_nonneg_nonneg; lia).
    destruct (Z.ltb_spec y (Ht - fh)) as [Hl|Hg].
    + assert ((y + 1) * W <= (Ht - fh) * W) by (apply Z.mul_le_mono_nonneg_r; lia).
      rewrite (load_pixel_ext m1) by (intros b Hb; apply Hout2; lia).
      replace (y * W + x) with (y * W + x + W * fh - W * fh) by lia. rewrite Hin1 by lia. do 2 f_equal. lia.
    + assert ((Ht - fh) * W <= y * W) by (apply Z.mul_le_mono_nonneg_r; lia).
      assert ((y + 1) * W <= Ht * W) by (apply Z.mul_le_mono_nonneg_r; lia). apply Hin2. lia.
Qed.

(** Whether the line is full, and whether the screen is. *)
Definition wraps s (c : Z) : bool := (width s <=? next_x (kio_state s) + font_width s) || (c =? newline).
Definition scrolls s : bool := height s <=? next_y (kio_state s) + 2 * font_height s.
Definition line_y s : Z := if scrolls s then next_y (kio_state s) else next_y (kio_state s) + font_height s.

Lemma next_line_run q s :
  kio_inv q s -> exists m, next_line s = Ok (tt, redrawn s m 0 (line_y s)) /\ picture_only s m /\
    forall x y, 0 <= x < width s -> 0 <= y < height s ->
      load_pixel m (pixel_at (kio_buffer (kio_state s)) (width s) x y) = if scrolls s then scrolled s x y else pic s x y.
Proof.
  intros I. pose proof (ki_font _ _ I) as [Fw Fh]. pose proof (ki_cursor _ _ I) as (Cx & Cy & Cy'). pose proof (ki_size _ _ I) as [S1 S2].
  assert (Hht : height s < 2 ^ 31) by (assert (1 * height s <= width s * height s) by (apply Z.mul_le_mono_nonneg_r; lia); lia).
  unfold next_line. rewrite (bind_ok _ _ s s s) by done. fold (height s). rewrite (wrap_small 32) by lia. rewrite (wrap64_small (_ + _)) by lia.
  rewrite (Z.mul_comm (font_height s)). fold (scrolls s). unfold line_y. destruct (scrolls s) eqn:Es; cbn [when].
  - set (s1 := set_kio (set_cursor (next_x (kio_state s)) (wrap64 (next_y (kio_state s) - font_height s)) (kio_state s)) s).
    destruct (scroll_run q s I) as (m & R & P & Hp).
    assert (R1 : scroll s1 = Ok (tt, set_mem m s1)).
    { unfold scroll, modify in R. cbv zeta in R. injection R as <-. done. }
    exists m. split; [|done]. rewrite (bind_ok _ _ _ tt (set_mem m s1)) by (rewrite (bind_ok _ _ _ tt s1) by done; exact R1).
    unfold move_cursor, modify. cbn [fst snd]. unfold redrawn. do 2 f_equal.
    assert (Ef : font_height (set_mem m s1) = font_height s).
    { assert (St : console_step s (set_mem m s1)) by (split; try done; intros a n [A _] b Hb; apply P; unfold sep in A; lia).
      by apply (step_sizes q s). }
    change (next_y (kio_state (set_mem m s1))) with (wrap64 (next_y (kio_state s) - font_height s)). rewrite Ef.
    assert (Ey : wrap64 (wrap64 (next_y (kio_state s) - font_height s) + font_height s) = next_y (kio_state s)).
    { unfold wrap. rewrite Zplus_mod_idemp_l, Z.sub_add. apply Z.mod_small. lia. }
    by rewrite Ey.
  - rewrite (bind_ok _ _ s tt s) by done. exists (k_mem s). split; [|done]. unfold move_cursor, modify. cbn [fst snd].
    rewrite wrap64_small by (unfold scrolls in Es; lia). unfold redrawn. by destruct s.
Qed.

(** ** A character *)

Definition cur_x s (c : Z) : Z := if wraps s c then 0 else next_x (kio_state s).
Definition cur_y s (c : Z) : Z := if wraps s c then line_y s else next_y (kio_state s).
Definition base_pic s (c x y : Z) : Pixel := if wraps s c && scrolls s then scrolled s x y else pic s x y.
Definition glyph_on s (c x y : Z) : bool := negb (load8 (k_mem s) (glyph_address s c + y * font_width s + x) =? 0).

(** The picture after [c]: the glyph at the cursor over the picture before it. *)
Definition char_pic s (c x y : Z) : Pixel :=
  if negb (c =? newline) && (c <? 128) &&
     bool_decide (in_rect (cur_x s c) (cur_y s c) (font_width s) (font_height s) x y)
  then color_to_pixel (if glyph_on s c (x - cur_x s c) (y - cur_y s c) then font_color (kio_state s) else background_color (kio_state s))
  else base_pic s c x y.

Lemma cursor_room q s c : kio_inv q s ->
  0 <= cur_x s c /\ cur_x s c + font_width s < width s /\ 0 <= cur_y s c /\ cur_y s c + font_height s < height s.
Proof.
  intros I. pose proof (ki_font _ _ I). pose proof (ki_cursor _ _ I). unfold cur_x, cur_y, wraps, line_y, scrolls.
  destruct (Z.leb_spec (width s) (next_x (kio_state s) + font_width s)); destruct (c =? newline); cbn [orb];
    destruct (Z.leb_spec (height s) (next_y (kio_state s) + 2 * font_height s)); lia.
Qed.

(** The line break, if there is one. *)
Lemma break_run q s c :
  kio_inv q s -> exists m, when (wraps s c) next_line s = Ok (tt, redrawn s m (cur_x s c) (cur_y s c)) /\ picture_only s m /\
    forall x y, 0 <= x < width s -> 0 <= y < height s ->
      load_pixel m (pixel_at (kio_buffer (kio_state s)) (width s) x y) = base_pic s c x y.
Proof.
  intros I. unfold cur_x, cur_y, base_pic. destruct (wraps s c); cbn [when andb].
  - by eapply next_line_run.
  - exists (k_mem s). split; [by destruct s as [? ? ? [] ? ? ?]|done].
Qed.

Lemma glyph_drawable q s c : kio_inv q s -> 0 <= c < 128 ->
  drawable (font (kio_state s)) c (glyph_address s c) (kio_buffer (kio_state s)) (4 * (width s * height s)) (k_mem s).
Proof.
  intros I Hc. destruct (ki_glyph _ _ I c Hc) as (J1 & J2 & J3 & J4 & J5 & J6 & _). split; [done| | |done|done].
  - split; [apply (ki_glyphs _ _ I)|done].
  - done.
Qed.

Lemma glyph_step q s s' c : kio_inv q s -> console_step s s' -> 0 <= c < 128 ->
  glyph_address s' c = glyph_address s c /\
  forall x y, 0 <= x < font_width s -> 0 <= y < font_height s -> glyph_on s' c x y = glyph_on s c x y.
Proof.
  intros I St Hc. destruct (ki_glyph _ _ I c Hc) as (J1 & J2 & J3 & J4 & J5 & J6).
  assert (Eg : glyph_address s' c = glyph_address s c).
  { unfold glyph_address. destruct (cs_static _ _ St) as (_ & _ & _ & _ & -> & _). apply load64_ext. intros b Hb. apply (cs_mem _ _ St _ _ J3). lia. }
  split; [done|]. intros x y Hx Hy. unfold glyph_on. rewrite Eg. destruct (step_sizes q s s' I St) as (_ & _ & -> & _).
  rewrite (cs_mem _ _ St _ _ J6); [done|].
  assert (0 <= y * font_width s) by (apply Z.mul_nonneg_nonneg; lia).
  assert ((y + 1) * font_width s <= font_height s * font_width s) by (apply Z.mul_le_mono_nonneg_r; lia). lia.
Qed.

(** Drawing at the cursor of [s1]; a code above 127 draws nothing. *)
Lemma draw_char_run q s1 c :
  kio_inv q s1 -> 0 <= c < 256 -> next_x (kio_state s1) + font_width s1 < width s1 ->
  let k := kio_state s1 in
  exists r m, write_PSF_char (font k) c (MkVector2i (next_x k) (next_y k)) (kio_buffer k) (MkVector2i (width s1) (height s1))
      (background_color k) (font_color k) (CBState (k_heap s1) (k_mem s1)) = Ok (r, CBState (k_heap s1) m) /\ picture_only s1 m /\
    forall x y, 0 <= x < width s1 -> 0 <= y < height s1 ->
      load_pixel m (pixel_at (kio_buffer k) (width s1) x y) =
        if (c <? 128) && bool_decide (in_rect (next_x k) (next_y k) (font_width s1) (font_height s1) x y)
        then color_to_pixel (if glyph_on s1 c (x - next_x k) (y - next_y k) then font_color k else background_color k)
        else pic s1 x y.
Proof.
  intros I Hc Hx k. pose proof (ki_cursor _ _ I) as (Cx & Cy & Cy'). pose proof (ki_buf _ _ I) as [B1 B2]. pose proof (ki_colors _ _ I) as [K1 K2].
  fold k in Cx, Cy, Cy', B1, B2, K1, K2, Hx. destruct (Z.ltb_spec c 128) as [Hlt|Hge].
  - destruct (write_PSF_char_run (font k) c (glyph_address s1 c) (kio_buffer k) (next_x k) (next_y k) (width s1) (height s1)
      (background_color k) (font_color k) (CBState (k_heap s1) (k_mem s1))) as (m & R & Hin & Hout & Ho); try done; cbn [cb_mem cb_heap].
    { apply (glyph_drawable q s1 c I). lia. }
    { lia. }
    { unfold font_width in Hx. fold k in Hx. lia. }
    { unfold font_height in Cy'. fold k in Cy'. lia. }
    exists true, m. split; [exact R|]. split; [exact Ho|]. intros x y Hx' Hy'. cbn [andb cb_mem] in *.
    case_bool_decide as Hr; [|by apply Hout]. rewrite Hin by done. unfold choose, glyph_on. fold (font_width s1). by destruct (load8 _ _ =? 0).
  - exists false, (k_mem s1). split; [|done]. unfold write_PSF_char.
    assert (E : (Z.land c 128 =? 0) = false).
    { apply Z.eqb_neq. intros E. apply (f_equal (fun z => Z.testbit z 7)) in E. rewrite Z.land_spec, Z.bits_0 in E.
      change (Z.testbit 128 7) with true in E. rewrite andb_true_r, Z.testbit_eqb in E by lia.
      replace (c / 2 ^ 7) with 1 in E by (change (2 ^ 7) with 128; lia). done. }
    by rewrite E.
Qed.

Lemma write_char_run q s c :
  kio_inv q s -> 0 <= c < 256 ->
  exists m, unsync_write_char c s = Ok (tt, redrawn s m (if c =? newline then 0 else cur_x s c + font_width s) (cur_y s c)) /\
    picture_only s m /\
    forall x y, 0 <= x < width s -> 0 <= y < height s -> load_pixel m (pixel_at (kio_buffer (kio_state s)) (width s) x y) = char_pic s c x y.
Proof.
  intros I Hc. destruct (cursor_room q s c I) as (R1 & R2 & R3 & R4). pose proof (ki_font _ _ I) as [Fw Fh].
  pose proof (ki_cursor _ _ I) as (Cx & _). pose proof (ki_size _ _ I) as [_ Sz].
  assert (Hwd : width s < 2 ^ 31) by (assert (width s * 1 <= width s * height s) by (apply Z.mul_le_mono_nonneg_l; lia); lia).
  unfold unsync_write_char. rewrite (bind_ok _ _ s s s) by done. fold (width s). rewrite wrap64_small by lia. fold (wraps s c).
  destruct (break_run q s c I) as (m1 & B & P1 & Hp1). rewrite (bind_ok _ _ _ _ _ B).
  set (s1 := redrawn s m1 (cur_x s c) (cur_y s c)) in *.
  assert (I1 : kio_inv q s1) by (apply redrawn_inv; (done || lia)).
  assert (St : console_step s s1) by (by apply redrawn_step). destruct (step_sizes q s s1 I St) as (Ew & Eh & Efw & Efh).
  destruct (Z.eqb_spec c newline) as [->|Hn]; cbn [negb when].
  { exists m1. split; [|split; [done|]].
    - assert (E0 : cur_x s newline = 0) by (unfold cur_x, wraps; rewrite Z.eqb_refl, orb_true_r; done). rewrite <-E0. done.
    - intros x y Hx Hy. rewrite Hp1 by done. done. }
  rewrite (bind_ok _ _ s1 (kio_state s1) s1) by done. fold (width s1). fold (height s1).
  destruct (draw_char_run q s1 c I1 Hc) as (r & m2 & R & P2 & Hp2); [change (next_x (kio_state s1)) with (cur_x s c); lia|].
  assert (Rz : zoom k_cb_lens (write_PSF_char (font (kio_state s1)) c (MkVector2i (next_x (kio_state s1)) (next_y (kio_state s1)))
     (kio_buffer (kio_state s1)) (MkVector2i (width s1) (height s1)) (background_color (kio_state s1)) (font_color (kio_state s1))) s1 = Ok (r, set_mem m2 s1)).
  { unfold zoom. cbn [view k_cb_lens]. by rewrite R. }
  rewrite (bind_ok _ _ _ _ _ Rz). exists m2.
  assert (St2 : console_step s1 (set_mem m2 s1)) by (split; try done; intros a n [A _] b Hb; apply P2; unfold sep in A; lia).
  destruct (step_sizes q s1 _ I1 St2) as (_ & _ & Efw2 & _). split; [|split].
  - unfold move_cursor, modify. cbn [fst snd]. rewrite Efw2, Efw. change (next_x (kio_state (set_mem m2 s1))) with (cur_x s c).
    rewrite wrap64_small by lia. done.
  - intros b Hb. rewrite P2; [by apply P1|]. by rewrite Ew, Eh.
  - intros x y Hx Hy. specialize (Hp2 x y). rewrite Ew, Eh, Efw, Efh in Hp2. specialize (Hp2 Hx Hy).
    change (kio_buffer (kio_state s1)) with (kio_buffer (kio_state s)) in Hp2. rewrite Hp2. unfold char_pic.
    rewrite (proj2 (Z.eqb_neq _ _) Hn). cbn [negb andb].
    change (next_x (kio_state s1)) with (cur_x s c). change (next_y (kio_state s1)) with (cur_y s c).
    destruct (Z.ltb_spec c 128) as [Hlt|]; cbn [andb].
    + destruct (decide (in_rect (cur_x s c) (cur_y s c) (font_width s) (font_height s) x y)) as [Hr|Hr].
      * rewrite !bool_decide_eq_true_2 by done. destruct (glyph_step q s s1 c I St) as [_ Eg]; [lia|].
        destruct Hr as [Hr1 Hr2]. by rewrite Eg by lia.
      * rewrite !bool_decide_eq_false_2 by done. unfold pic. rewrite Ew. apply Hp1; done.
    + unfold pic. rewrite Ew. apply Hp1; done.
Qed.
End screen.
