(* ===== verification/KioText.v ===== *)
(** * Console output: numbers and formats

    The digit loops against positional notation, and [printf] against the text
    of a sequence of format items. *)

From S2P Require Import Prelude Memory Sync Interfaces CircularBuffer Display Psf Kio.
Import Sequential.

(** ** Positional notation, least digit first *)

Fixpoint value (base : Z) (ds : list Z) : Z :=
  match ds with [] => 0 | d :: ds' => d + base * value base ds' end.

Fixpoint digits (fuel : nat) (base n : Z) : list Z :=
  match fuel with
  | O => []
  | S fuel' => if n =? 0 then [] else n mod base :: digits fuel' base (n / base)
  end.

Lemma digits_value fuel base n : 2 <= base -> 0 <= n < base ^ Z.of_nat fuel -> value base (digits fuel base n) = n.
Proof.
  intros Hb. revert n. induction fuel as [|fuel IH]; intros n Hn; [cbn in *; lia|]. cbn [digits].
  destruct (Z.eqb_spec n 0) as [->|Hz]; [done|]. cbn [value]. rewrite Nat2Z.inj_succ, Z.pow_succ_r in Hn by lia.
  rewrite IH; [pose proof (Z.div_mod n base); lia|]. split; [apply Z.div_pos; lia|]. apply Z.div_lt_upper_bound; lia.
Qed.

Lemma digits_range fuel base n : 2 <= base -> Forall (fun d => 0 <= d < base) (digits fuel base n).
Proof.
  intros Hb. revert n. induction fuel as [|fuel IH]; intros n; cbn [digits]; [done|]. destruct (n =? 0); [done|].
  constructor; [apply Z.mod_pos_bound; lia|done].
Qed.

Lemma digits_length fuel base n : (length (digits fuel base n) <= fuel)%nat.
Proof. revert n. induction fuel as [|fuel IH]; intros n; cbn [digits]; [done|]. destruct (n =? 0); cbn; [lia|]. specialize (IH (n / base)). lia. Qed.

(** More fuel than digits changes nothing. *)
Lemma digits_fuel fuel fuel' base n :
  2 <= base -> 0 <= n < base ^ Z.of_nat fuel -> (fuel <= fuel')%nat -> digits fuel' base n = digits fuel base n.
Proof.
  intros Hb. revert fuel' n. induction fuel as [|fuel IH]; intros fuel' n Hn Hf.
  - assert (n = 0) as -> by (cbn in Hn; lia). by destruct fuel'.
  - destruct fuel' as [|fuel']; [lia|]. cbn [digits]. destruct (n =? 0); [done|]. f_equal. apply IH; [|lia].
    rewrite Nat2Z.inj_succ, Z.pow_succ_r in Hn by lia. split; [apply Z.div_pos; lia|]. apply Z.div_lt_upper_bound; lia.
Qed.

(** The most significant digit is not zero. *)
Lemma digits_last fuel base n d : 2 <= base -> 0 <= n < base ^ Z.of_nat fuel -> last (digits fuel base n) = Some d -> d <> 0.
Proof.
  intros Hb. revert n. induction fuel as [|fuel IH]; intros n Hn; cbn [digits]; [done|].
  rewrite Nat2Z.inj_succ, Z.pow_succ_r in Hn by lia.
  assert (Hq : 0 <= n / base < base ^ Z.of_nat fuel) by (split; [apply Z.div_pos; lia|apply Z.div_lt_upper_bound; lia]).
  destruct (Z.eqb_spec n 0) as [|Hz]; [done|]. destruct (digits fuel base (n / base)) as [|e ds] eqn:E.
  - intros [= <-]. pose proof (digits_value fuel base (n / base) Hb Hq) as V. rewrite E in V. cbn in V.
    pose proof (Z.div_mod n base). lia.
  - rewrite last_cons_cons, <-E. by apply IH.
Qed.

Section text.
Context {H D : Type} {HP : HeapProvider H}.
#[local] Abbreviation state := (kio_st H D).
Implicit Types s : state.

Lemma insert_prefix (l : list Z) n x pad :
  n = length l -> <[n := x]> (l ++ replicate (S pad) 0) = (l ++ [x]) ++ replicate pad 0.
Proof. intros ->. rewrite insert_app_r_alt, Nat.sub_diag by lia. cbn. by rewrite <-app_assoc. Qed.

Lemma digit_loop_S fuel n base counter bs buf s :
  digit_loop (S fuel) n base counter bs buf s =
    (if n =? 0 then ret (buf, counter) else
     KASSERT (counter <? bs);;
     digit_loop fuel (n / base) base (wrap8 (counter + 1)) bs (<[Z.to_nat counter := wrap8 (n mod base)]> buf)) s.
Proof. done. Qed.

Lemma digit_loop_run fuel n base bs l pad s :
  2 <= base <= 256 -> 0 <= n < base ^ Z.of_nat fuel -> (length l + fuel <= 255)%nat ->
  bs = Z.of_nat (length l) + Z.of_nat pad -> (length (digits fuel base n) <= pad)%nat ->
  digit_loop (S fuel) n base (Z.of_nat (length l)) bs (l ++ replicate pad 0) s =
    Ok ((l ++ digits fuel base n ++ replicate (pad - length (digits fuel base n)) 0,
         Z.of_nat (length l + length (digits fuel base n))), s).
Proof.
  intros Hb. revert n l pad. induction fuel as [|fuel IH]; intros n l pad Hn Hl Hbs Hp.
  { assert (n = 0) as -> by (cbn in Hn; lia). cbn. by rewrite Nat.sub_0_r, Nat.add_0_r. }
  rewrite digit_loop_S. cbn [digits] in *. destruct (Z.eqb_spec n 0) as [->|Hz].
  { cbn [length app]. by rewrite Nat.sub_0_r, Nat.add_0_r. }
  cbn [length] in Hp. destruct pad as [|pad]; [lia|].
  rewrite (bind_ok _ _ s tt s) by (apply KASSERT_ok, Z.ltb_lt; lia).
  pose proof (Z.mod_pos_bound n base ltac:(lia)). rewrite (wrap_small 8 (_ + 1)), (wrap_small 8 (n mod base)) by lia.
  rewrite Nat2Z.id, insert_prefix by done. rewrite Nat2Z.inj_succ, Z.pow_succ_r in Hn by lia.
  replace (Z.of_nat (length l) + 1) with (Z.of_nat (length (l ++ [n mod base]))) by (rewrite length_app; cbn; lia).
  rewrite IH.
  - rewrite length_app, <-app_assoc. cbn [app length]. by replace (length l + 1 + length (digits fuel base (n / base)))%nat
      with (length l + S (length (digits fuel base (n / base))))%nat by lia.
  - split; [apply Z.div_pos; lia|]. apply Z.div_lt_upper_bound; lia.
  - rewrite length_app. cbn. lia.
  - rewrite length_app. cbn. lia.
  - lia.
Qed.

(** ** Texts of numbers *)

Definition dec_digits (n : Z) : list Z := digits 20 10 n.
Definition hex_digits (n : Z) : list Z := digits 16 16 n.
Definition dec_text (n : Z) : list Z := (if n =? 0 then [48] else []) ++ map (fun d => 48 + d) (reverse (dec_digits n)).
Definition hex_text (n : Z) : list Z := [48; 120] ++ map digit_char (reverse (hex_digits n)).
(** The sixteen digits of a 64-bit number, most significant first. *)
Definition hex_all (n : Z) : list Z := replicate (16 - length (hex_digits n)) 0 ++ reverse (hex_digits n).
Definition hex_padded_text (n size_bytes : Z) : list Z := [48; 120] ++ map digit_char (take (Z.to_nat (size_bytes * 2)) (hex_all n)).

Lemma fill_digit_buffer_run n base bs k s :
  2 <= base <= 256 -> 0 <= n < base ^ Z.of_nat k -> (k <= 64)%nat -> Z.of_nat k <= bs -> bs <= 255 ->
  fill_digit_buffer n base bs s =
    Ok ((digits k base n ++ replicate (Z.to_nat bs - length (digits k base n)) 0, Z.of_nat (length (digits k base n))), s).
Proof.
  intros Hb Hn Hk Hbs Hb8. unfold fill_digit_buffer. change 65%nat with (S 64).
  assert (Ed : digits 64 base n = digits k base n) by (apply digits_fuel; [lia|done|lia]). pose proof (digits_length k base n) as Hl.
  assert (Hn' : 0 <= n < base ^ Z.of_nat 64).
  { split; [lia|]. eapply Z.lt_le_trans; [apply Hn|]. apply Z.pow_le_mono_r; lia. }
  pose proof (digit_loop_run 64 n base bs [] (Z.to_nat bs) s Hb Hn') as R. cbn [length app Nat.add] in R. rewrite Ed in R.
  apply R; lia.
Qed.

Lemma fill_hex n s : 0 <= n < 2 ^ 64 ->
  fill_digit_buffer n 16 16 s =
    Ok ((hex_digits n ++ replicate (16 - length (hex_digits n)) 0, Z.of_nat (length (hex_digits n))), s).
Proof. intros Hn. apply (fill_digit_buffer_run n 16 16 16); (lia || done). Qed.

Lemma fill_dec n s : 0 <= n < 2 ^ 64 ->
  fill_digit_buffer n 10 128 s =
    Ok ((dec_digits n ++ replicate (128 - length (dec_digits n)) 0, Z.of_nat (length (dec_digits n))), s).
Proof. intros Hn. apply (fill_digit_buffer_run n 10 128 20); lia. Qed.

Lemma digits_down_prefix ds k : digits_down (ds ++ replicate k 0) 0 (Z.of_nat (length ds)) = reverse ds.
Proof. unfold digits_down. rewrite Z.sub_0_r, Nat2Z.id. change (Z.to_nat 0) with 0%nat. rewrite drop_0. by rewrite take_app_length. Qed.

Lemma digits_down_hex n z : 0 <= n < 2 ^ 64 -> 0 <= z <= 8 ->
  digits_down (hex_digits n ++ replicate (16 - length (hex_digits n)) 0) (16 - z * 2) 16 = take (Z.to_nat (z * 2)) (hex_all n).
Proof.
  intros Hn Hz. unfold digits_down, hex_all. set (l := hex_digits n ++ _).
  assert (El : length l = 16%nat).
  { unfold l. rewrite length_app, length_replicate. pose proof (digits_length 16 16 n). unfold hex_digits in *. lia. }
  assert (Er : replicate (16 - length (hex_digits n)) 0 ++ reverse (hex_digits n) = reverse l).
  { unfold l. by rewrite reverse_app, reverse_replicate. }
  rewrite Er. rewrite (take_ge (drop _ l)) by (rewrite length_drop; lia). rewrite <-(take_drop (Z.to_nat (16 - z * 2)) l) at 2.
  rewrite reverse_app, take_app_le; rewrite ?length_reverse, ?length_drop; [|lia]. rewrite take_ge; [done|]. rewrite length_reverse, length_drop. lia.
Qed.

(** ** Sequences of output *)

Lemma bind_ext {S A B} (m : M S A) (k k' : A -> M S B) (t : S) : (forall a u, k a u = k' a u) -> bind m k t = bind m k' t.
Proof. intros E. unfold bind. destruct (m t) as [[a u]| | | |]; try done. Qed.

Lemma print_app l1 l2 s : unsync_print (l1 ++ l2) s = bind (unsync_print l1) (fun _ => unsync_print l2) s.
Proof.
  revert s. induction l1 as [|c l1 IH]; intros s; [done|]. cbn [app unsync_print]. rewrite bind_assoc. apply bind_ext. intros _ u. apply IH.
Qed.

(** Putting one character before the rest is printing them together. *)
Lemma print_cons c l s : bind (unsync_putchar c false) (fun _ => unsync_print l) s = unsync_print (c :: l) s.
Proof. done. Qed.

Lemma print_dec_text n s : 0 <= n < 2 ^ 64 -> unsync_print_uintmax_dec n s = unsync_print (dec_text n) s.
Proof.
  intros Hn. unfold unsync_print_uintmax_dec. rewrite (bind_ok _ _ _ _ _ (fill_dec n s Hn)). cbv iota beta. rewrite digits_down_prefix.
  unfold dec_text. by destruct (n =? 0).
Qed.

Lemma print_hex_text n z s : 0 <= n < 2 ^ 64 -> 0 <= z <= 8 -> unsync_print_uintmax_hex_not_padded n z s = unsync_print (hex_text n) s.
Proof.
  intros Hn Hz. unfold unsync_print_uintmax_hex_not_padded. rewrite (bind_ok _ _ s tt s) by (apply KASSERT_ok, Z.leb_le; lia).
  rewrite (bind_ok _ _ _ _ _ (fill_hex n s Hn)). cbv iota beta. by rewrite digits_down_prefix.
Qed.

Lemma print_hex_padded n z s : 0 <= n < 2 ^ 64 -> 0 <= z <= 8 -> unsync_print_uintmax_hex n z s = unsync_print (hex_padded_text n z) s.
Proof.
  intros Hn Hz. unfold unsync_print_uintmax_hex. rewrite (bind_ok _ _ s tt s) by (apply KASSERT_ok, Z.leb_le; lia).
  rewrite (bind_ok _ _ _ _ _ (fill_hex n s Hn)). cbv iota beta. rewrite digits_down_hex by done.
  unfold hex_padded_text. cbn [app unsync_print]. apply bind_ext. intros _ u. apply bind_ext. intros _ v.
  rewrite (bind_ok _ _ v tt v); [done|]. apply KASSERT_ok, Z.leb_le. lia.
Qed.
End text.

(** ** Format items *)

Inductive item : Type :=
| Lit (c : Z)
| Percent
| U64 (v : Z)
| H64 (v : Z)
| X64 (v : Z)
| U32 (v : Z)
| H32 (v : Z)
| X32 (v : Z)
| Str (str : list Z).

Definition item_range (i : item) : Prop :=
  match i with
  | Lit c => c <> percent
  | U64 v | H64 v | X64 v => 0 <= v < 2 ^ 64
  | U32 v | H32 v | X32 v => 0 <= v < 2 ^ 32
  | Percent | Str _ => True
  end.

Definition item_format (i : item) : list Z :=
  match i with
  | Lit c => [c]
  | Percent => [percent; percent]
  | U64 _ => percent :: tok_u64
  | H64 _ => percent :: tok_h64
  | X64 _ => percent :: tok_x64
  | U32 _ => percent :: tok_u32
  | H32 _ => percent :: tok_h32
  | X32 _ => percent :: tok_x32
  | Str _ => percent :: tok_s
  end.

Definition item_args (i : item) : list va_value :=
  match i with
  | Lit _ | Percent => []
  | U64 v | H64 v | X64 v | U32 v | H32 v | X32 v => [VaInt v]
  | Str str => [VaString str]
  end.

(** The text the code prints for an item: [%h32] shows the upper eight of the
    sixteen digits, which are zeros. *)
Definition printed_text (i : item) : list Z :=
  match i with
  | Lit c => [c]
  | Percent => [percent]
  | U64 v | U32 v => dec_text v
  | H64 v => hex_padded_text v 8
  | H32 v => hex_padded_text v 4
  | X64 v | X32 v => hex_text v
  | Str str => str
  end.

(** The text of an item as kio.h documents it: [%h32] is the number in eight
    hexadecimal digits.  It is what the code prints only for 0. *)
Definition item_text (i : item) : list Z :=
  match i with
  | H32 v => [48; 120] ++ map digit_char (drop 8 (hex_all v))
  | _ => printed_text i
  end.

Definition item_ok (i : item) : Prop :=
  match i with
  | H32 v => v = 0
  | _ => item_range i
  end.

Lemma item_ok_printed i : item_ok i -> item_range i /\ printed_text i = item_text i.
Proof. destruct i as [c| |v|v|v|v|v|v|str]; try done. by intros ->. Qed.

Section printf.
Context {H D : Type} {HP : HeapProvider H}.
#[local] Abbreviation state := (kio_st H D).
Implicit Types s : state.

Lemma print_int_run w pr text format v args s :
  0 <= v < 2 ^ w -> (forall u : state, pr v u = unsync_print text u) ->
  print_int w pr format (VaInt v :: args) s = bind (unsync_print text) (fun _ => ret (drop 2 format, args)) s.
Proof.
  intros Hv E. unfold print_int, va_arg_int. rewrite (bind_ok _ _ s (wrap w v, args) s) by done. cbv iota beta.
  rewrite (wrap_small w v Hv). unfold bind. by rewrite E.
Qed.

Definition both_tokens (format : list Z) (args : list va_value) : M state (list Z * list va_value) :=
  bind (token_64 format args) (fun r => let '(f1, a1) := r in token_rest f1 a1).

(** The last character of the format of an item stays for the next round. *)
Definition is_token (i : item) : bool := match i with Lit _ | Percent => false | _ => true end.

Lemma after_int pr text fmt v args rest s :
  0 <= v < 2 ^ 64 -> (forall u : state, pr v u = unsync_print text u) -> drop 2 fmt = 52 :: rest ->
  bind (print_int 64 pr fmt (VaInt v :: args)) (fun r => let '(f1, a1) := r in token_rest f1 a1) s =
    bind (unsync_print text) (fun _ => ret (52 :: rest, args)) s.
Proof.
  intros Hv E Hd. etrans; [unfold bind at 1; rewrite (print_int_run 64 pr text) by done; reflexivity|].
  rewrite Hd. unfold bind. by destruct (unsync_print text s) as [[a u]| | | |].
Qed.

Lemma both_tokens_run i rest args s :
  item_range i -> is_token i = true ->
  exists c, both_tokens (tail (item_format i) ++ rest) (item_args i ++ args) s =
    bind (unsync_print (printed_text i)) (fun _ => ret (c :: rest, args)) s.
Proof.
  intros Hi Ht. destruct i as [c| |v|v|v|v|v|v|str]; try done; cbn [item_range] in Hi; unfold both_tokens.
  - exists 52. refine (after_int unsync_print_uintmax_dec (dec_text v) (tok_u64 ++ rest) v args rest s Hi _ eq_refl). intros u. by apply print_dec_text.
  - exists 52. refine (after_int (fun v => unsync_print_uintmax_hex v 8) (hex_padded_text v 8) (tok_h64 ++ rest) v args rest s Hi _ eq_refl).
    intros u. by apply print_hex_padded.
  - exists 52. refine (after_int (fun v => unsync_print_uintmax_hex_not_padded v 8) (hex_text v) (tok_x64 ++ rest) v args rest s Hi _ eq_refl).
    intros u. by apply print_hex_text.
  - exists 50. refine (print_int_run 32 unsync_print_uintmax_dec (dec_text v) (tok_u32 ++ rest) v args s Hi _). intros u. apply print_dec_text. lia.
  - exists 50. refine (print_int_run 32 (fun v => unsync_print_uintmax_hex v 4) (hex_padded_text v 4) (tok_h32 ++ rest) v args s Hi _).
    intros u. apply print_hex_padded; lia.
  - exists 50. refine (print_int_run 32 (fun v => unsync_print_uintmax_hex_not_padded v 4) (hex_text v) (tok_x32 ++ rest) v args s Hi _).
    intros u. apply (print_hex_text v 4); lia.
  - exists 115. done.
Qed.

(** An item takes at most as many rounds of the loop as it has characters. *)
Lemma printf_item i rest args fuel s :
  item_range i -> (length (item_format i ++ rest) < fuel)%nat ->
  exists fuel', (length rest < fuel')%nat /\
    printf_loop fuel (item_format i ++ rest) false (item_args i ++ args) s =
      bind (unsync_print (printed_text i)) (fun _ => printf_loop fuel' rest false args) s.
Proof.
  intros Hi Hf. rewrite length_app in Hf. destruct (is_token i) eqn:Ht.
  - destruct (both_tokens_run i rest args s Hi Ht) as [c E].
    destruct fuel as [|[|fuel]]; [lia|destruct i; cbn in Hf; (done || lia)|].
    exists fuel. split; [destruct i; cbn in Hf; (done || lia)|].
    assert (Hp : printf_loop (S (S fuel)) (item_format i ++ rest) false (item_args i ++ args) s =
      bind (both_tokens (tail (item_format i) ++ rest) (item_args i ++ args))
        (fun r => let '(f2, a2) := r in printf_loop fuel (drop 1 f2) false a2) s).
    { unfold both_tokens. rewrite bind_assoc. unfold bind.
      destruct i; try done; cbn [item_format app printf_loop tail tok_u64 tok_h64 tok_x64 tok_u32 tok_h32 tok_x32 tok_s]; unfold bind;
        cbn [Z.eqb Pos.eqb percent]; by destruct (token_64 _ _ s) as [[[f1 a1] u]| | | |]. }
    rewrite Hp. unfold bind at 1. rewrite E. unfold bind. by destruct (unsync_print (printed_text i) s) as [[a u]| | | |].
  - destruct i as [c| |v|v|v|v|v|v|str]; try done; cbn [item_format length app item_args printed_text] in *.
    + destruct fuel as [|fuel]; [lia|]. exists fuel. split; [lia|]. cbn [printf_loop]. rewrite (proj2 (Z.eqb_neq _ _) Hi).
      cbn [unsync_print]. rewrite bind_assoc. done.
    + destruct fuel as [|[|fuel]]; [lia..|]. exists fuel. split; [lia|]. cbn [printf_loop]. rewrite Z.eqb_refl. cbn [unsync_print]. by rewrite bind_assoc.
Qed.

Definition formats (l : list item) : list Z := concat (map item_format l).
Definition arguments (l : list item) : list va_value := concat (map item_args l).
Definition printed (l : list item) : list Z := concat (map printed_text l).
Definition text (l : list item) : list Z := concat (map item_text l).

Lemma printf_loop_run l fuel s :
  Forall item_range l -> (length (formats l) < fuel)%nat -> printf_loop fuel (formats l) false (arguments l) s = unsync_print (printed l) s.
Proof.
  intros Hl. revert fuel s. induction Hl as [|i l Hi Hl IH]; intros fuel s Hf.
  - destruct fuel; [lia|done].
  - change (formats (i :: l)) with (item_format i ++ formats l) in *. change (arguments (i :: l)) with (item_args i ++ arguments l).
    change (printed (i :: l)) with (printed_text i ++ printed l).
    destruct (printf_item i (formats l) (arguments l) fuel s Hi Hf) as (fuel' & Hf' & E). rewrite E, print_app.
    apply bind_ext. intros _ u. by apply IH.
Qed.

Lemma with_lock_ext {S A} (L I : lens S bool) (b b' : M S A) (t : S) :
  (forall u, b u = b' u) -> with_spinlock_hard L I b t = with_spinlock_hard L I b' t.
Proof. intros E. unfold with_spinlock_hard. apply bind_ext. intros i u. unfold bind. by rewrite E. Qed.

Lemma printf_run l s : Forall item_ok l -> printf (formats l) (arguments l) s = print (text l) s.
Proof.
  intros Hl. assert (HB : Forall item_range l /\ printed l = text l).
  { induction Hl as [|i l Hi Hl [IH1 IH2]]; [done|]. destruct (item_ok_printed i Hi) as [H1 H2]. split; [by constructor|].
    unfold printed, text in *. cbn [map concat]. by rewrite H2, IH2. }
  destruct HB as [HR ET]. unfold printf, print, kio_locked. apply with_lock_ext. intros u. unfold bind.
  rewrite printf_loop_run, ET by (done || lia). done.
Qed.

Theorem printf_prints_items l s :
  Forall item_ok l -> printf (formats l) (arguments l) s = print (text l) s.
Proof. apply printf_run. Qed.

(** ** Reading numbers back *)

Definition read_digits (base : Z) (val : Z -> Z) (l : list Z) : Z := fold_left (fun acc c => base * acc + val c) l 0.
Definition hex_digit_value (c : Z) : Z := if 65 <=? c then c - 65 + 10 else c - 48.
Definition read_dec (l : list Z) : Z := read_digits 10 (fun c => c - 48) l.
Definition read_hex (l : list Z) : Z := read_digits 16 hex_digit_value l.

Lemma read_digits_value base val ch ds :
  (forall d, 0 <= d < base -> val (ch d) = d) -> Forall (fun d => 0 <= d < base) ds ->
  read_digits base val (map ch (reverse ds)) = value base ds.
Proof.
  intros Hv Hd. unfold read_digits. induction Hd as [|d ds Hd Hds IH]; [done|].
  rewrite reverse_cons, map_app, fold_left_app, IH. cbn. rewrite Hv by done. lia.
Qed.

(** Zeros in front change nothing. *)
Lemma read_digits_zeros base val ch k l :
  val (ch 0) = 0 -> read_digits base val (map ch (replicate k 0 ++ l)) = read_digits base val (map ch l).
Proof.
  intros Hz. unfold read_digits. rewrite map_app, fold_left_app. f_equal. induction k as [|k IH]; [done|]. cbn. rewrite Hz, Z.mul_0_r. exact IH.
Qed.

Lemma hex_value_char d : 0 <= d < 16 -> hex_digit_value (digit_char d) = d.
Proof. intros Hd. unfold hex_digit_value, digit_char. destruct (Z.leb_spec 10 d); case_match eqn:E; lia. Qed.

Lemma hex_digits_value n : 0 <= n < 2 ^ 64 -> read_hex (map digit_char (reverse (hex_digits n))) = n.
Proof.
  intros Hn. unfold read_hex. rewrite read_digits_value; [apply digits_value; (lia || done)|apply hex_value_char|by apply digits_range].
Qed.

Lemma hex_all_length n : length (hex_all n) = 16%nat.
Proof. unfold hex_all. rewrite length_app, length_replicate, length_reverse. pose proof (digits_length 16 16 n). unfold hex_digits. lia. Qed.

Lemma print_uint64_dec_run n s : 0 <= n < 2 ^ 64 -> print_uint64_dec n s = print (dec_text n) s.
Proof.
  intros Hn. unfold print_uint64_dec. rewrite (bind_ok _ _ _ _ _ (fill_dec n s Hn)). cbv iota beta. rewrite digits_down_prefix.
  apply with_lock_ext. intros u. unfold dec_text. destruct (n =? 0); cbn [when app unsync_print]; by rewrite ?bind_assoc.
Qed.

Lemma print_uint64_hex_run n s : 0 <= n < 2 ^ 64 -> print_uint64_hex n s = print (hex_padded_text n 8) s.
Proof.
  intros Hn. unfold print_uint64_hex. rewrite (bind_ok _ _ _ _ _ (fill_hex n s Hn)). cbv iota beta.
  change (digits_down _ 0 16) with (digits_down (hex_digits n ++ replicate (16 - length (hex_digits n)) 0) (16 - 8 * 2) 16).
  rewrite digits_down_hex by (done || lia). apply with_lock_ext. intros u. unfold hex_padded_text. cbn [app unsync_print].
  rewrite !bind_assoc. apply bind_ext. intros _ v. by rewrite bind_assoc.
Qed.

Theorem number_printing_roundtrip n s :
  0 <= n < 2 ^ 64 ->
  print_uint64_dec n s = print (dec_text n) s /\ read_dec (dec_text n) = n /\
  (forall d l, dec_text n = d :: l -> l <> [] -> d <> 48) /\
  print_uint64_hex n s = print (hex_padded_text n 8) s /\ length (hex_padded_text n 8) = 18%nat /\
  read_hex (drop 2 (hex_padded_text n 8)) = n.
Proof.
  intros Hn. assert (Hn10 : 0 <= n < 10 ^ Z.of_nat 20) by lia. split_and!.
  - by apply print_uint64_dec_run.
  - unfold dec_text. destruct (Z.eqb_spec n 0) as [->|]; [done|]. cbn [app]. unfold read_dec.
    rewrite read_digits_value; [by apply digits_value|intros; lia|by apply digits_range].
  - intros d l E Hl. unfold dec_text in E. destruct (Z.eqb_spec n 0) as [->|Hz]; [cbn in E; congruence|]. cbn [app] in E.
    destruct (reverse (dec_digits n)) as [|e ds] eqn:Er; [done|]. cbn in E. injection E as <- <-.
    assert (Hla : last (dec_digits n) = Some e).
    { rewrite <-(reverse_involutive (dec_digits n)), Er, reverse_cons. by rewrite last_snoc. }
    apply digits_last in Hla; [lia|lia|done].
  - by apply print_uint64_hex_run.
  - unfold hex_padded_text. rewrite length_app, length_map, length_take, hex_all_length. done.
  - unfold hex_padded_text. cbn [app drop]. rewrite take_ge by (rewrite hex_all_length; done). unfold read_hex, hex_all.
    rewrite drop_0, read_digits_zeros by done. by apply hex_digits_value.
Qed.

(** The upper half of a 32-bit number has no digits. *)
Lemma hex_upper_zero v : 0 <= v < 2 ^ 32 -> take 8 (hex_all v) = replicate 8 0.
Proof.
  intros Hv. unfold hex_all. assert (E : hex_digits v = digits 8 16 v) by (apply digits_fuel; (done || lia)).
  pose proof (digits_length 8 16 v). rewrite E. rewrite take_app_le by (rewrite length_replicate; lia). rewrite take_replicate. f_equal. lia.
Qed.

Theorem printf_h32_prints_zeros v s :
  0 <= v < 2 ^ 32 -> printf (percent :: tok_h32) [VaInt v] s = print ([48; 120] ++ replicate 8 48) s.
Proof.
  intros Hv. assert (Hl : Forall item_range [H32 v]) by (by constructor).
  unfold printf, print, kio_locked. apply with_lock_ext. intros u.
  rewrite <-(app_nil_r (percent :: tok_h32)). change ((percent :: tok_h32) ++ []) with (formats [H32 v]).
  change [VaInt v] with (arguments [H32 v]). unfold bind. rewrite printf_loop_run by (done || cbn; lia).
  assert (Et : printed [H32 v] = [48; 120] ++ replicate 8 48).
  { unfold printed. cbn [map concat printed_text]. rewrite app_nil_r. unfold hex_padded_text. change (Z.to_nat (4 * 2)) with 8%nat. by rewrite hex_upper_zero. }
  by rewrite Et.
Qed.
End printf.
