(* ===== verification/KioTop.v ===== *)
(** * Console output: a terminal

    The console refines a terminal: a cursor and a picture, to which the
    characters are applied in the order in which they were printed. *)

From S2P Require Import Prelude Memory Sync Interfaces CircularBuffer Display Psf PsfTop Kio KioScreen.
Import Sequential.

Record terminal : Type := Terminal { t_x : Z; t_y : Z; t_pic : Z -> Z -> Pixel }.

(** Sizes of the screen and of a character, the colors and the glyphs. *)
Record geometry : Type := Geometry {
  g_w : Z; g_h : Z; g_fw : Z; g_fh : Z; g_bg : Color; g_fg : Color; g_glyph : Z -> Z -> Z -> bool
}.

Section terminal.
Context (g : geometry).

Definition term_wraps (c : Z) (t : terminal) : bool := (g_w g <=? t_x t + g_fw g) || (c =? newline).
Definition term_scrolls (t : terminal) : bool := g_h g <=? t_y t + 2 * g_fh g.
Definition term_x (c : Z) (t : terminal) : Z := if term_wraps c t then 0 else t_x t.
Definition term_y (c : Z) (t : terminal) : Z :=
  if term_wraps c t then (if term_scrolls t then t_y t else t_y t + g_fh g) else t_y t.
Definition term_base (c : Z) (t : terminal) (x y : Z) : Pixel :=
  if term_wraps c t && term_scrolls t
  then (if y <? g_h g - g_fh g then t_pic t x (y + g_fh g) else color_to_pixel (g_bg g))
  else t_pic t x y.

Definition term_put (t : terminal) (c : Z) : terminal :=
  if c =? newline then Terminal 0 (term_y c t) (term_base c t)
  else Terminal (term_x c t + g_fw g) (term_y c t) (fun x y =>
    if (c <? 128) && bool_decide (in_rect (term_x c t) (term_y c t) (g_fw g) (g_fh g) x y)
    then color_to_pixel (if g_glyph g c (x - term_x c t) (y - term_y c t) then g_fg g else g_bg g)
    else term_base c t x y).

(** Equal on the screen. *)
Definition term_eq (t t' : terminal) : Prop :=
  t_x t = t_x t' /\ t_y t = t_y t' /\ forall x y, 0 <= x < g_w g -> 0 <= y < g_h g -> t_pic t x y = t_pic t' x y.

#[export] Instance term_eq_equivalence : Equivalence term_eq.
Proof.
  split.
  - by intros t.
  - intros t t' (E1 & E2 & E3). split_and!; try done. intros x y Hx Hy. symmetry. by apply E3.
  - intros t1 t2 t3 (E1 & E2 & E3) (F1 & F2 & F3). split_and!; [congruence|congruence|]. intros x y Hx Hy. rewrite E3 by done. by apply F3.
Qed.

Hypothesis g_size : 0 < g_fh g.

#[export] Instance term_put_proper : Proper (term_eq ==> eq ==> term_eq) term_put.
Proof.
  intros t t' (Ex & Ey & Ep) c ? <-.
  assert (Eb : forall x y, 0 <= x < g_w g -> 0 <= y < g_h g -> term_base c t x y = term_base c t' x y).
  { intros x y Hx Hy. unfold term_base, term_wraps, term_scrolls. rewrite Ex, Ey. case_match; [|by apply Ep].
    destruct (Z.ltb_spec y (g_h g - g_fh g)); [|done]. apply Ep; lia. }
  assert (E1 : term_x c t = term_x c t') by (unfold term_x, term_wraps; by rewrite Ex).
  assert (E2 : term_y c t = term_y c t') by (unfold term_y, term_wraps, term_scrolls; by rewrite Ex, Ey).
  unfold term_put. destruct (c =? newline).
  - by split_and!.
  - rewrite E1, E2. split_and!; [done|done|]. intros x y Hx Hy. cbn [t_pic]. case_match; [done|]. by apply Eb.
Qed.

Definition term_write (t : terminal) (l : list Z) : terminal := fold_left term_put l t.

#[export] Instance term_write_proper : Proper (term_eq ==> eq ==> term_eq) term_write.
Proof. intros t t' E l ? <-. revert t t' E. induction l as [|c l IH]; intros t t' E; [done|]. cbn. apply IH. by rewrite E. Qed.
End terminal.

Section console.
Context {H D : Type} {HP : HeapProvider H}.
#[local] Abbreviation state := (kio_st H D).
Implicit Types (s : state) (q l : list Z).

Definition abs s : terminal := Terminal (next_x (kio_state s)) (next_y (kio_state s)) (pic s).

(** [g] describes the screen and the font of [s]. *)
Record geometry_of s (g : geometry) : Prop := {
  go_w : g_w g = width s;
  go_h : g_h g = height s;
  go_fw : g_fw g = font_width s;
  go_fh : g_fh g = font_height s;
  go_bg : g_bg g = background_color (kio_state s);
  go_fg : g_fg g = font_color (kio_state s);
  go_glyph : forall c x y, 0 <= c < 128 -> 0 <= x < font_width s -> 0 <= y < font_height s -> g_glyph g c x y = glyph_on s c x y
}.

Lemma geometry_step q s s' g : kio_inv q s -> console_step s s' -> geometry_of s g -> geometry_of s' g.
Proof.
  intros I St [G1 G2 G3 G4 G5 G6 G7]. destruct (step_sizes q s s' I St) as (E1 & E2 & E3 & E4).
  destruct (cs_static _ _ St) as (_ & _ & E5 & E6 & _). split; try congruence. intros c x y Hc Hx Hy. rewrite E3 in Hx. rewrite E4 in Hy.
  rewrite G7 by done. symmetry. by eapply glyph_step.
Qed.

(** One character. *)
Lemma write_char_refines q s g c :
  kio_inv q s -> geometry_of s g -> 0 <= c < 256 ->
  exists s', unsync_write_char c s = Ok (tt, s') /\ kio_inv q s' /\ console_step s s' /\
    char_buffer (kio_state s') = char_buffer (kio_state s) /\ term_eq g (abs s') (term_put g (abs s) c).
Proof.
  intros I G Hc. destruct (write_char_run q s c I Hc) as (m & R & P & Hp). destruct (cursor_room q s c I) as (C1 & C2 & C3 & C4).
  pose proof (ki_font _ _ I). eexists. split; [exact R|]. set (s' := redrawn _ _ _ _).
  assert (Ex : 0 <= (if c =? newline then 0 else cur_x s c + font_width s) < width s) by (case_match; lia).
  split; [apply redrawn_inv; (done || lia)|]. split; [by apply redrawn_step|]. split; [done|].
  destruct G as [G1 G2 G3 G4 G5 G6 G7].
  assert (T1 : term_x g c (abs s) = cur_x s c) by (unfold term_x, cur_x, term_wraps, wraps; cbn; by rewrite G1, G3).
  assert (T2 : term_y g c (abs s) = cur_y s c).
  { unfold term_y, cur_y, term_wraps, wraps, term_scrolls, line_y, scrolls. cbn [abs t_x t_y]. by rewrite G1, G2, G3, G4. }
  assert (T3 : forall x y, term_base g c (abs s) x y = base_pic s c x y).
  { intros x y. unfold term_base, base_pic, term_wraps, wraps, term_scrolls, scrolls, scrolled. cbn [abs t_x t_y t_pic]. by rewrite G1, G2, G3, G4, G5. }
  unfold term_put. split_and!; cbn [abs t_x t_y t_pic s' redrawn].
  - change (next_x (kio_state s')) with (if c =? newline then 0 else cur_x s c + font_width s). rewrite T1, G3. by destruct (c =? newline).
  - change (next_y (kio_state s')) with (cur_y s c). rewrite T2. by destruct (c =? newline).
  - intros x y Hx Hy. rewrite G1 in Hx. rewrite G2 in Hy. change (pic s' x y) with (load_pixel m (pixel_at (kio_buffer (kio_state s)) (width s) x y)).
    rewrite Hp by done. unfold char_pic. destruct (c =? newline); cbn [negb andb t_pic]; [by rewrite T3|]. rewrite T1, T2, T3, G3, G4, G5, G6.
    destruct (Z.ltb_spec c 128) as [Hlt|]; cbn [andb]; [|done].
    destruct (decide (in_rect (cur_x s c) (cur_y s c) (font_width s) (font_height s) x y)) as [Hr|Hr].
    + rewrite !bool_decide_eq_true_2 by done. destruct Hr as [Hr1 Hr2]. by rewrite G7 by lia.
    + by rewrite !bool_decide_eq_false_2.
Qed.

Lemma queue_byte q s b i : kio_inv q s -> q !! i = Some b -> 0 <= b < 256.
Proof. intros I Hi. rewrite <-(cb_bytes _ _ _ (ki_cb _ _ I) i b Hi). apply load8_range. Qed.

(** Changing the ring without its bytes. *)
Lemma set_ring_step s cb :
  buffer cb = buffer (char_buffer (kio_state s)) -> buffer_size cb = buffer_size (char_buffer (kio_state s)) ->
  console_step s (set_kio (set_char_buffer cb (kio_state s)) s).
Proof. intros E1 E2. by split. Qed.

Lemma set_ring_inv q q' s cb :
  kio_inv q s -> cb_inv cb q' (CBState (k_heap s) (k_mem s)) ->
  buffer cb = buffer (char_buffer (kio_state s)) -> buffer_size cb = buffer_size (char_buffer (kio_state s)) ->
  kio_inv q' (set_kio (set_char_buffer cb (kio_state s)) s).
Proof.
  intros I C E1 E2. destruct (ki_cursor _ _ I) as (Cx & Cy & Cy'). eapply kio_inv_step; [exact I|by apply set_ring_step|done|done|done|done].
Qed.

Lemma flush_loop_run fuel q s g :
  kio_inv q s -> geometry_of s g -> (length q < fuel)%nat ->
  exists s', flush_loop fuel s = Ok (tt, s') /\ kio_inv [] s' /\ console_step s s' /\ term_eq g (abs s') (term_write g (abs s) q).
Proof.
  revert q s. induction fuel as [|fuel IH]; intros q s I G Hf; [lia|]. cbn [flush_loop].
  rewrite (bind_ok _ _ s (char_buffer (kio_state s)) s) by done. rewrite (ring_empty _ _ _ (ki_cb _ _ I)).
  destruct q as [|c q].
  { rewrite bool_decide_eq_true_2 by done. exists s. split; [done|]. split; [done|]. split; [apply console_step_refl|done]. }
  rewrite bool_decide_eq_false_2 by done. destruct (cb_read_step _ _ _ _ (ki_cb _ _ I)) as (cb & R & C & E1 & E2).
  assert (Rz : zoom k_cb_lens (read_circular_buffer (char_buffer (kio_state s))) s = Ok ((c, cb), s)).
  { unfold zoom. cbn [view k_cb_lens]. rewrite R. by destruct s. }
  rewrite (bind_ok _ _ _ _ _ Rz). cbv iota beta. set (s1 := set_kio (set_char_buffer cb (kio_state s)) s). rewrite (bind_ok _ _ s tt s1) by done.
  assert (I1 : kio_inv q s1) by (by eapply set_ring_inv). assert (S1 : console_step s s1) by (by apply set_ring_step).
  assert (G1 : geometry_of s1 g) by (exact (geometry_step _ s s1 g I S1 G)).
  destruct (write_char_refines q s1 g c I1 G1) as (s2 & R2 & I2 & S2 & _ & T2); [by apply (queue_byte _ _ _ 0%nat I)|].
  rewrite (bind_ok _ _ _ _ _ R2). assert (G2 : geometry_of s2 g) by (exact (geometry_step _ s1 s2 g I1 S2 G1)).
  destruct (IH q s2 I2 G2) as (s3 & R3 & I3 & S3 & T3); [cbn in Hf; lia|].
  exists s3. split; [exact R3|]. split; [exact I3|]. split; [by eapply console_step_trans; [|eapply console_step_trans]|].
  assert (Hg : 0 < g_fh g) by (rewrite (go_fh _ _ G); apply (ki_font _ _ I)).
  etrans; [exact T3|]. change (term_write g (abs s) (c :: q)) with (term_write g (term_put g (abs s) c) q). by apply (term_write_proper g Hg).
Qed.

(** ** What the console needs of its display

    [dev_inv] is the invariant of the display beside the console; [shown] says
    that the display shows the picture. *)
Class ConsoleDisplay : Type := {
  dev_inv : D -> mem -> KioState D -> Prop;
  shown : D -> mem -> KioState D -> Prop;
  dev_step : forall q s s', kio_inv q s -> console_step s s' ->
    dev_inv (k_dev s) (k_mem s) (kio_state s) -> dev_inv (k_dev s') (k_mem s') (kio_state s');
  dev_write : forall q s g, kio_inv q s -> geometry_of s g -> dev_inv (k_dev s) (k_mem s) (kio_state s) ->
    exists d m, write_pixels (display (kio_state s)) (kio_buffer (kio_state s)) (screen_size (kio_state s)) (Screen (k_dev s) (k_mem s)) =
        Ok (tt, Screen d m) /\
      let s' := put k_screen_lens (Screen d m) s in
      kio_inv q s' /\ geometry_of s' g /\ dev_inv d m (kio_state s) /\ shown d m (kio_state s) /\ term_eq g (abs s') (abs s)
}.

Context {CD : ConsoleDisplay}.

Definition console_inv q s : Prop := kio_inv q s /\ dev_inv (k_dev s) (k_mem s) (kio_state s).
Definition flags_same s s' : Prop := kio_lock s' = kio_lock s /\ k_if s' = k_if s.

Lemma flush_run q s g :
  console_inv q s -> geometry_of s g ->
  exists s', unsync_flush s = Ok (tt, s') /\ console_inv [] s' /\ geometry_of s' g /\ flags_same s s' /\
    term_eq g (abs s') (term_write g (abs s) q) /\ (q <> [] -> shown (k_dev s') (k_mem s') (kio_state s')).
Proof.
  intros [I Dv] G. unfold unsync_flush. rewrite (bind_ok _ _ s (kio_state s) s) by done. rewrite (ring_empty _ _ _ (ki_cb _ _ I)).
  destruct (decide (q = [])) as [->|Hq].
  { rewrite bool_decide_eq_true_2 by done. exists s. split; [done|]. split; [done|]. split; [done|]. split; [done|]. split; [reflexivity|done]. }
  rewrite bool_decide_eq_false_2 by done. pose proof (cb_room _ _ _ (ki_cb _ _ I)) as Hroom.
  destruct (flush_loop_run (S (Z.to_nat (buffer_size (char_buffer (kio_state s))))) q s g I G) as (s1 & R1 & I1 & S1 & T1); [lia|].
  rewrite (bind_ok _ _ _ _ _ R1). rewrite (bind_ok _ _ s1 (kio_state s1) s1) by done.
  pose proof (geometry_step _ _ _ _ I S1 G) as G1. pose proof (dev_step _ _ _ I S1 Dv) as D1.
  destruct (dev_write _ _ _ I1 G1 D1) as (d & m & R2 & I2 & G2 & D2 & Sh & T2).
  eexists. split; [unfold zoom; cbn [view k_screen_lens]; by rewrite R2|]. destruct (cs_rest _ _ S1) as (_ & _ & F1 & F2 & _).
  split; [by split|]. split; [exact G2|]. split; [by split|]. split; [by etrans|done].
Qed.

Lemma putchar_run q s c :
  console_inv q s -> 0 <= c < 256 -> Z.of_nat (length q) + 1 < buffer_size (char_buffer (kio_state s)) ->
  exists s', unsync_putchar c false s = Ok (tt, s') /\ console_inv (q ++ [c]) s' /\ console_step s s' /\ 
    next_x (kio_state s') = next_x (kio_state s) /\ next_y (kio_state s') = next_y (kio_state s) /\
    (forall x y, 0 <= x < width s -> 0 <= y < height s -> pic s' x y = pic s x y).
Proof.
  intros [I Dv] Hc Hroom. destruct (cb_write_step _ _ _ _ (ki_cb _ _ I) Hc Hroom) as (cb & R & C & E1 & E2). cbn [cb_heap cb_mem] in *.
  pose proof (ring_write_range _ _ _ (ki_cb _ _ I)) as Hw. set (m := store8 _ _ _) in *.
  unfold unsync_putchar. rewrite (bind_ok _ _ s (char_buffer (kio_state s)) s) by done.
  rewrite (bind_ok _ _ s cb (set_mem m s)) by (unfold zoom; cbn [view k_cb_lens]; by rewrite R).
  set (s' := set_kio (set_char_buffer cb (kio_state s)) (set_mem m s)). rewrite (bind_ok _ _ (set_mem m s) tt s') by done.
  assert (Hm : forall b, b < buffer (char_buffer (kio_state s)) \/
    buffer (char_buffer (kio_state s)) + buffer_size (char_buffer (kio_state s)) <= b -> load8 m b = load8 (k_mem s) b).
  { intros b Hb. apply load8_store8_ne. lia. }
  assert (St : console_step s s') by (split; try done; intros a n [_ A] b Hb; apply Hm; unfold sep in A; lia).
  destruct (ki_cursor _ _ I) as (Cx & Cy & Cy'). exists s'. split; [done|]. split; [split; [|by eapply dev_step]|].
  { eapply kio_inv_step; [exact I|exact St|exact C|done..]. }
  split; [done|]. split_and!; [done|done|]. intros x y Hx Hy. apply load_pixel_ext. intros b Hb. apply Hm.
  pose proof (ki_sep _ _ I) as Sp. unfold sep in Sp. change (kio_buffer (kio_state s')) with (kio_buffer (kio_state s)) in Hb.
  change (width s') with (width s) in Hb. unfold pixel_at in Hb.
  assert (0 <= y * width s) by (apply Z.mul_nonneg_nonneg; lia). assert ((y + 1) * width s <= height s * width s) by (apply Z.mul_le_mono_nonneg_r; lia). lia.
Qed.

Lemma print_run l q s g :
  console_inv q s -> geometry_of s g -> Forall (fun c => 0 <= c < 256) l ->
  Z.of_nat (length (q ++ l)) < buffer_size (char_buffer (kio_state s)) ->
  exists s', unsync_print l s = Ok (tt, s') /\ console_inv (q ++ l) s' /\ geometry_of s' g /\ flags_same s s' /\ term_eq g (abs s') (abs s).
Proof.
  intros C G Hl. revert q s C G. induction Hl as [|c l Hc Hl IH]; intros q s C G Hr.
  { exists s. rewrite app_nil_r. split; [done|]. split; [done|]. split; [done|]. split; [done|reflexivity]. }
  rewrite length_app in Hr. cbn [length] in Hr.
  destruct (putchar_run q s c C Hc) as (s1 & R1 & C1 & S1 & Ex & Ey & Ep); [lia|]. cbn [unsync_print]. rewrite (bind_ok _ _ _ _ _ R1).
  destruct C as [I Dv]. pose proof (geometry_step _ _ _ _ I S1 G) as G1. destruct (cs_ring _ _ S1) as [_ Eb].
  destruct (IH (q ++ [c]) s1 C1 G1) as (s2 & R2 & C2 & G2 & F2 & T2); [rewrite Eb, !length_app; cbn; lia|].
  exists s2. rewrite <-app_assoc in C2. split; [exact R2|]. split; [exact C2|]. split; [exact G2|].
  destruct (cs_rest _ _ S1) as (_ & _ & F3 & F4 & _), F2 as [F5 F6]. split; [split; congruence|]. etrans; [exact T2|].
  split_and!; [done|done|]. rewrite (go_w _ _ G), (go_h _ _ G). exact Ep.
Qed.

(** Taking and releasing the lock does not concern the console. *)
Lemma console_inv_flags q s s' :
  console_inv q s -> k_dev s' = k_dev s -> k_mem s' = k_mem s -> kio_state s' = kio_state s -> console_inv q s'.
Proof.
  intros [I Dv] E1 E2 E3. split; [|by rewrite E1, E2, E3]. destruct I as [I1 I2 I3 I4 I5 I6 I7 I8 I9 I10].
  assert (Hw : width s' = width s /\ height s' = height s /\ font_width s' = font_width s /\ font_height s' = font_height s)
    by (unfold width, height, font_width, font_height; rewrite E2, E3; done).
  destruct Hw as (W1 & W2 & W3 & W4). split; unfold away, glyph_address; rewrite ?E3, ?W1, ?W2, ?W3, ?W4, ?E2; try done.
  destruct I1. by split.
Qed.

Lemma geometry_flags s s' g :
  geometry_of s g -> k_mem s' = k_mem s -> kio_state s' = kio_state s -> geometry_of s' g.
Proof.
  intros [G1 G2 G3 G4 G5 G6 G7] E2 E3. unfold glyph_on, glyph_address, width, height, font_width, font_height in *.
  split; unfold glyph_on, glyph_address, width, height, font_width, font_height; rewrite ?E2, ?E3; done.
Qed.

(** What a printing operation leaves: the text shown, or queued. *)
Definition printed q g s s' : Prop :=
  kio_lock s' = false /\ k_if s' = k_if s /\ geometry_of s' g /\
  if decide (32 <= length q)%nat
  then console_inv [] s' /\ term_eq g (abs s') (term_write g (abs s) q) /\ shown (k_dev s') (k_mem s') (kio_state s')
  else console_inv q s' /\ term_eq g (abs s') (abs s).

Lemma kio_locked_run {A} (body : M state A) s (P : state -> Prop) r :
  kio_lock s = false ->
  (exists s1, body (put kio_lock_lens true (put k_if_lens false s)) = Ok (r, s1) /\ kio_lock s1 = true /\ k_if s1 = false /\
     forall s', k_dev s' = k_dev s1 -> k_mem s' = k_mem s1 -> kio_state s' = kio_state s1 -> P s') ->
  exists s', kio_locked body s = Ok (r, s') /\ kio_lock s' = false /\ k_if s' = k_if s /\ P s'.
Proof.
  intros Hl (s1 & R & L1 & F1 & HP1). unfold kio_locked. rewrite (with_spinlock_hard_run kio_lock_lens k_if_lens body s r s1 Hl R).
  eexists. split; [reflexivity|]. cbn [view k_if_lens]. destruct (k_if s) eqn:Ei; cbn; rewrite ?F1; split_and!; try done; by apply HP1.
Qed.

Lemma print_spec l q s g :
  console_inv q s -> geometry_of s g -> kio_lock s = false -> Forall (fun c => 0 <= c < 256) l ->
  Z.of_nat (length (q ++ l)) < buffer_size (char_buffer (kio_state s)) -> 32 <= buffer_size (char_buffer (kio_state s)) ->
  exists s', print l s = Ok (tt, s') /\ printed (q ++ l) g s s'.
Proof.
  intros C G Hl Hb Hr Hs. unfold print. set (s0 := put kio_lock_lens true (put k_if_lens false s)).
  assert (C0 : console_inv q s0) by (by apply (console_inv_flags q s)). assert (G0 : geometry_of s0 g) by (by apply (geometry_flags s)).
  destruct (print_run l q s0 g C0 G0 Hb Hr) as (s1 & R1 & C1 & G1 & [F1 F2] & T1).
  change (kio_lock s0) with true in F1. change (k_if s0) with false in F2.
  assert (Hpost : exists s2, (unsync_print l;; unsync_opt_flush) s0 = Ok (tt, s2) /\ kio_lock s2 = true /\ k_if s2 = false /\
    forall s', k_dev s' = k_dev s2 -> k_mem s' = k_mem s2 -> kio_state s' = kio_state s2 ->
      geometry_of s' g /\ if decide (32 <= length (q ++ l))%nat
        then console_inv [] s' /\ term_eq g (abs s') (term_write g (abs s) (q ++ l)) /\ shown (k_dev s') (k_mem s') (kio_state s')
        else console_inv (q ++ l) s' /\ term_eq g (abs s') (abs s)).
  { rewrite (bind_ok _ _ _ _ _ R1). unfold unsync_opt_flush. rewrite (bind_ok _ _ s1 (kio_state s1) s1) by done.
    destruct C1 as [I1 D1]. rewrite (cb_written _ _ _ (ki_cb _ _ I1)).
    assert (Hg : 0 < g_fh g) by (rewrite (go_fh _ _ G1); apply (ki_font _ _ I1)).
    destruct (decide (32 <= length (q ++ l))%nat) as [Hge|Hlt].
    - rewrite decide_False by (intros E; rewrite E in Hge; cbn in Hge; lia). rewrite (proj2 (Z.leb_le _ _)) by lia. cbn [when].
      destruct (flush_run (q ++ l) s1 g (conj I1 D1) G1) as (s2 & R2 & C2 & G2 & [F3 F4] & T2 & Sh).
      exists s2. split; [exact R2|]. split; [congruence|]. split; [congruence|]. intros s' E1 E2 E3. split; [by apply (geometry_flags s2)|].
      split; [by apply (console_inv_flags [] s2)|]. split; [|rewrite E1, E2, E3; apply Sh; intros E; rewrite E in Hge; cbn in Hge; lia].
      etrans; [unfold abs, pic, width; rewrite E2, E3; exact T2|]. by apply (term_write_proper g Hg).
    - assert (Hret : when (32 <=? (if decide (q ++ l = []) then buffer_size (char_buffer (kio_state s1)) else Z.of_nat (length (q ++ l)))) unsync_flush s1 = Ok (tt, s1)).
      { destruct (decide (q ++ l = [])) as [E|E].
        - destruct (32 <=? _); [|done]. cbn [when]. unfold unsync_flush. rewrite (bind_ok _ _ s1 (kio_state s1) s1) by done.
          rewrite (ring_empty _ _ _ (ki_cb _ _ I1)), bool_decide_eq_true_2 by exact E. done.
        - rewrite (proj2 (Z.leb_gt _ _)) by lia. done. }
      rewrite Hret. exists s1. split; [done|]. split; [done|]. split; [done|]. intros s' E1 E2 E3. split; [by apply (geometry_flags s1)|].
      split; [by apply (console_inv_flags _ s1)|]. etrans; [unfold abs, pic, width; rewrite E2, E3; exact T1|]. done. }
  destruct (kio_locked_run _ s _ tt Hl Hpost) as (s' & R & L' & F' & G' & P'). exists s'. split; [exact R|]. split; [done|]. split; [done|]. by split.
Qed.
End console.
