(* ===== verification/KioVbe.v ===== *)
(** * The console on the frame buffer

    The frame buffer keeps what the console asks of a display, so that printed
    text reaches it. *)

From S2P Require Import Prelude Memory Sync Interfaces CircularBuffer Bus Display Psf PsfTop Vbe Kio KioScreen KioText KioTop.

Section vbe.
Context {H V : Type} {HP : HeapProvider H} {MP : MappingProvider V}.
#[local] Abbreviation state := (kio_st H (vbe_state V)).
Implicit Types (s : state) (k : KioState (vbe_state V)) (m : mem).

(** The memory the console reads: picture, queue, header and glyphs. *)
Definition used m k (b : Z) : Prop :=
  let w := display_width (info (display k)) in
  let h := display_height (info (display k)) in
  kio_buffer k <= b < kio_buffer k + 4 * (w * h) \/
  buffer (char_buffer k) <= b < buffer (char_buffer k) + buffer_size (char_buffer k) \/
  header (font k) <= b < header (font k) + 32 \/
  exists c, 0 <= c < 128 /\
    let e := glyphs (font k) + 8 * glyph_code (font k) c in
    (e <= b < e + 8 \/ load64 m e <= b < load64 m e + psf_height m (header (font k)) * psf_width m (header (font k))).

(** Memory changed where the console does not look. *)
Lemma used_same q s d m :
  kio_inv q s -> (forall b, used (k_mem s) (kio_state s) b -> load8 m b = load8 (k_mem s) b) ->
  let s' := put k_screen_lens (Screen d m) s in
  kio_inv q s' /\ font_width s' = font_width s /\ font_height s' = font_height s /\
  (forall c, 0 <= c < 128 -> glyph_address s' c = glyph_address s c) /\
  (forall x y, 0 <= x < width s -> 0 <= y < height s -> pic s' x y = pic s x y) /\
  (forall c x y, 0 <= c < 128 -> 0 <= x < font_width s -> 0 <= y < font_height s -> glyph_on s' c x y = glyph_on s c x y).
Proof.
  intros I U s'.
  assert (Efw : font_width s' = font_width s).
  { unfold font_width, psf_width, load32. apply load_le_ext. intros b Hb. apply U. right; right; left. change (kio_state s') with (kio_state s) in Hb. lia. }
  assert (Efh : font_height s' = font_height s).
  { unfold font_height, psf_height, load32. apply load_le_ext. intros b Hb. apply U. right; right; left. change (kio_state s') with (kio_state s) in Hb. lia. }
  assert (Eg : forall c, 0 <= c < 128 -> glyph_address s' c = glyph_address s c).
  { intros c Hc. unfold glyph_address. apply load64_ext. intros b Hb. apply U. right; right; right. exists c. split; [done|]. left. exact Hb. }
  split_and!; try done.
  - destruct I as [I1 I2 I3 I4 I5 I6 I7 I8 I9 I10]. split; try done; rewrite ?Efw, ?Efh; try done.
    + apply (cb_inv_ext _ _ _ _ I1). intros b Hb. apply U. right; left. exact Hb.
    + intros c Hc. rewrite Eg by done. by apply I10.
  - intros x y Hx Hy. apply load_pixel_ext. intros b Hb. apply U. left. change (kio_state s') with (kio_state s) in Hb.
    change (width s') with (width s) in Hb. fold (width s) (height s). unfold pixel_at in Hb.
    assert (0 <= y * width s) by (apply Z.mul_nonneg_nonneg; lia). assert ((y + 1) * width s <= height s * width s) by (apply Z.mul_le_mono_nonneg_r; lia). lia.
  - intros c x y Hc Hx Hy. unfold glyph_on. rewrite Eg, Efw by done. f_equal. f_equal. apply U. right; right; right. exists c. split; [done|]. right.
    fold (glyph_address s c). fold (font_height s) (font_width s).
    assert (0 <= y * font_width s) by (apply Z.mul_nonneg_nonneg; lia).
    assert ((y + 1) * font_width s <= font_height s * font_width s) by (apply Z.mul_le_mono_nonneg_r; lia). lia.
Qed.

(** The mode of the display is 32 bits deep and of the size of the console, and
    the frame buffer, the mode information and the console are apart. *)
Record vbe_console (d : vbe_state V) m k : Prop := {
  vc_display : write_pixels (display k) = write_pixels_vbe_display;
  vc_valid : is_frame_buffer_valid (global_frame_buffer d) = true;
  vc_bpp : mode_bpp m (vbe_mode_info (global_frame_buffer d)) = 32;
  vc_width : mode_width m (vbe_mode_info (global_frame_buffer d)) = display_width (info (display k));
  vc_height : mode_height m (vbe_mode_info (global_frame_buffer d)) = display_height (info (display k));
  vc_mode : let n := 4 * (display_width (info (display k)) * display_height (info (display k))) in
    sep (vbe_mode_info (global_frame_buffer d)) 48 (kio_buffer k) n /\
    sep (vbe_mode_info (global_frame_buffer d)) 48 (vaddr (global_frame_buffer d)) n /\
    sep (vbe_mode_info (global_frame_buffer d)) 48 (buffer (char_buffer k)) (buffer_size (char_buffer k)) /\
    sep (vaddr (global_frame_buffer d)) n (kio_buffer k) n;
  vc_unused : forall b, used m k b -> b < vaddr (global_frame_buffer d) \/
    vaddr (global_frame_buffer d) + 4 * (display_width (info (display k)) * display_height (info (display k))) <= b
}.

(** The frame buffer holds the picture. *)
Definition frame_shows (d : vbe_state V) m k : Prop :=
  let w := display_width (info (display k)) in
  forall x y, 0 <= x < w -> 0 <= y < display_height (info (display k)) ->
    load_pixel m (vaddr (global_frame_buffer d) + 4 * (y * w + x)) = load_pixel m (pixel_at (kio_buffer k) w x y).

Lemma mode_same m m' i :
  (forall b, i <= b < i + 48 -> load8 m' b = load8 m b) ->
  mode_bpp m' i = mode_bpp m i /\ mode_width m' i = mode_width m i /\ mode_height m' i = mode_height m i.
Proof.
  intros E. unfold mode_bpp, mode_width, mode_height, load16. split_and!; [apply E; lia|apply load_le_ext; intros b Hb; apply E; lia..].
Qed.

Lemma vbe_step q s s' :
  kio_inv q s -> console_step s s' -> vbe_console (k_dev s) (k_mem s) (kio_state s) -> vbe_console (k_dev s') (k_mem s') (kio_state s').
Proof.
  intros I St [V1 V2 V3 V4 V5 V6 V7]. cbv zeta in V6. destruct V6 as (M1 & M2 & M3 & M4).
  destruct (cs_static _ _ St) as (E1 & E2 & _ & _ & E5 & E6). destruct (cs_ring _ _ St) as [E7 E8]. destruct (cs_rest _ _ St) as (_ & Ed & _).
  destruct (mode_same (k_mem s) (k_mem s') (vbe_mode_info (global_frame_buffer (k_dev s)))) as (B1 & B2 & B3).
  { intros b Hb. apply (cs_mem _ _ St (vbe_mode_info (global_frame_buffer (k_dev s))) 48); [by split|done]. }
  destruct (step_sizes q s s' I St) as (_ & _ & Fw & Fh). unfold font_width, font_height in Fw, Fh. rewrite E5 in Fw, Fh.
  split; rewrite ?Ed, ?B1, ?B2, ?B3, ?E1; try done.
  - cbv zeta. by rewrite E6, E7, E8.
  - intros b Hu. apply V7. revert Hu. unfold used. cbv zeta. rewrite E1, E5, E6, E7, E8, Fw, Fh.
    intros [?|[?|[?|(c & Hc & Hb)]]]; [tauto..|]. right; right; right. exists c. split; [done|].
    destruct (glyph_step q s s' c I St Hc) as [Eg _]. unfold glyph_address in Eg. rewrite E5 in Eg. by rewrite Eg in Hb.
Qed.

Lemma vbe_write q s g :
  kio_inv q s -> geometry_of s g -> vbe_console (k_dev s) (k_mem s) (kio_state s) ->
  exists d m, write_pixels (display (kio_state s)) (kio_buffer (kio_state s)) (screen_size (kio_state s)) (Screen (k_dev s) (k_mem s)) =
      Ok (tt, Screen d m) /\
    let s' := put k_screen_lens (Screen d m) s in
    kio_inv q s' /\ geometry_of s' g /\ vbe_console d m (kio_state s) /\ frame_shows d m (kio_state s) /\ term_eq g (abs s') (abs s).
Proof.
  intros I G Vc. pose proof Vc as [V1 V2 V3 V4 V5 V6 V7]. cbv zeta in V6. destruct V6 as (M1 & M2 & M3 & M4).
  fold (width s) in V4, M1, M2, M4, V7. fold (height s) in V5, M1, M2, M4, V7. destruct (ki_size _ _ I) as [S1 S2].
  set (f := global_frame_buffer (k_dev s)) in *. rewrite V1.
  assert (Hr : vbe_ready (Screen (k_dev s) (k_mem s)) (kio_buffer (kio_state s))).
  { split; cbn [sc_dev sc_mem]; fold f; rewrite ?V4, ?V5; [done|lia|]. unfold sep in M4. cbv zeta. lia. }
  pose proof (write_pixels_32 _ _ (screen_size (kio_state s)) Hr) as W. cbn [sc_dev sc_mem] in W. fold f in W. rewrite V4, V5, V3 in W.
  destruct W as (m & R & Hin & Hout); [lia|done|].
  rewrite (Z.mul_comm (height s)) in Hin, Hout. exists (k_dev s), m. split; [exact R|].
  assert (U : forall b, used (k_mem s) (kio_state s) b -> load8 m b = load8 (k_mem s) b) by (intros b Hb; apply Hout; by apply V7).
  destruct (used_same q s (k_dev s) m I U) as (I' & Fw & Fh & Eg & Ep & Egl). cbv zeta. split; [exact I'|].
  split; [|split; [|split]].
  - destruct G as [G1 G2 G3 G4 G5 G6 G7]. split; try done; [by rewrite Fw|by rewrite Fh|]. intros c x y Hc Hx Hy. rewrite Fw in Hx. rewrite Fh in Hy.
    rewrite G7 by done. symmetry. by apply Egl.
  - destruct (mode_same (k_mem s) m (vbe_mode_info f)) as (B1 & B2 & B3).
    { intros b Hb. apply Hout. unfold sep in M2. lia. }
    split; fold f; rewrite ?B1, ?B2, ?B3; try done. intros b Hu. apply V7. revert Hu. unfold used. cbv zeta.
    change (psf_height m (header (font (kio_state s)))) with (font_height (put k_screen_lens (Screen (k_dev s) m) s)).
    change (psf_width m (header (font (kio_state s)))) with (font_width (put k_screen_lens (Screen (k_dev s) m) s)). rewrite Fw, Fh.
    intros [?|[?|[?|(c & Hc & Hb)]]]; [tauto..|]. right; right; right. exists c. split; [done|].
    specialize (Eg c Hc). unfold glyph_address in Eg. cbn [k_mem put k_screen_lens sc_mem kio_state] in Eg. by rewrite Eg in Hb.
  - intros x y Hx Hy. fold f. fold (width s) in Hx |- *. fold (height s) in Hy.
    assert (0 <= y * width s) by (apply Z.mul_nonneg_nonneg; lia). assert ((y + 1) * width s <= height s * width s) by (apply Z.mul_le_mono_nonneg_r; lia).
    rewrite Hin by lia. symmetry. exact (Ep x y Hx Hy).
  - split_and!; [done|done|]. rewrite (go_w _ _ G), (go_h _ _ G). exact Ep.
Qed.

#[export] Instance vbe_console_display : ConsoleDisplay := {|
  dev_inv := vbe_console; shown := frame_shows; dev_step := vbe_step; dev_write := vbe_write
|}.

End vbe.
