(* ===== verification/KioRuns.v ===== *)
(** * The console on a concrete machine

    A screen of 8 by 6 pixels with characters of 2 by 2, a frame buffer of 32
    bits per pixel, and a heap that hands out blocks upwards. *)

From S2P Require Import Prelude Memory Sync Interfaces CircularBuffer Bus Display Psf PsfTop Vbe Kio KioScreen KioText KioTop KioVbe.

(** ** A heap *)

Record bump_heap : Type := BumpHeap { bh_next : Z; bh_live : gmap Z Z }.
Definition heap_start : Z := 0x100000.
Definition heap_limit : Z := 0x10000000.

#[export] Instance bump_heap_provider : HeapProvider bump_heap := {|
  is_kheap_initialzed _ := true;
  hp_kmalloc n h := if (0 <=? n) && (bh_next h + n + 16 <=? heap_limit)
    then Ok (bh_next h, BumpHeap (bh_next h + n + 16) (<[bh_next h := n]> (bh_live h))) else Panic HEAP_OUT_OF_MEM;
  hp_kfree p h := match bh_live h !! p with Some _ => Ok (tt, BumpHeap (bh_next h) (delete p (bh_live h))) | None => Panic HEAP_CORRUPTED end
|}.

Record bump_inv (h : bump_heap) (B : gmap Z Z) : Prop := {
  bi_live : bh_live h = B;
  bi_next : heap_start <= bh_next h <= heap_limit;
  bi_blocks : forall q m, B !! q = Some m -> heap_start <= q /\ 0 <= m /\ q + m < bh_next h
}.

#[export] Instance bump_heap_laws : HeapLaws bump_heap.
Proof.
  refine {| hp_inv := bump_inv; hp_serves h n := 0 <= n /\ bh_next h + n + 16 <= heap_limit; hp_static p := p < heap_start |}.
  - intros h B n [I1 I2 I3] [Hn Hl]. cbn. rewrite (proj2 (Z.leb_le 0 n)), (proj2 (Z.leb_le _ heap_limit)) by lia. cbn [andb].
    unfold heap_start, heap_limit in *. exists (bh_next h), n. eexists. split; [reflexivity|].
    assert (Hnone : B !! bh_next h = None) by (destruct (B !! bh_next h) as [m|] eqn:E; [|done]; apply I3 in E; lia).
    split; [lia|]. split; [exact Hnone|]. split; [lia|]. split; [lia|]. split; [|split; [|done]].
    + split; cbn; [by rewrite I1|unfold heap_start, heap_limit; lia|]. unfold heap_start. intros q m Hq. destruct (decide (q = bh_next h)) as [->|].
      * rewrite lookup_insert_eq in Hq. injection Hq as <-. lia.
      * rewrite lookup_insert_ne in Hq by done. apply I3 in Hq. lia.
    + intros q m Hq. apply I3 in Hq. lia.
  - intros h B p n [I1 I2 I3] Hp. cbn. rewrite I1, Hp. eexists. split; [reflexivity|]. split; [|done]. split; cbn; [by try rewrite I1; subst B; done|done|].
    intros q m Hq. apply lookup_delete_Some in Hq as [_ Hq]. by apply I3.
Defined.

#[export] Instance bump_heap_room : HeapRoom bump_heap.
Proof.
  refine {| hp_room h := heap_limit - bh_next h |}.
  - intros h B n [I1 I2 I3] Hn Hr. cbn. lia.
  - intros h B n p h' _ R. cbn in R. destruct ((0 <=? n) && _); [|done]. injection R as <- <-. cbn. lia.
Defined.

(** ** The screen *)

Definition store_fields (l : list (Z * Z)) (m : mem) : mem := foldr (fun av m => store8 m av.1 av.2) m l.
Definition store_table (n : nat) (a p : Z) (m : mem) : mem := foldr (fun i m => store64 m (a + 8 * Z.of_nat i) p) m (seq 0 n).

(** Font header at 0x1000, glyph table at 0x2000 (every glyph the same), pixels at
    0x3000; queue at 0x5000, picture at 0x6000, frame buffer at 0x8000, mode
    information at 0x9000. *)
Definition machine : mem := Eval vm_compute in
  store_fields [(0x1000 + 24, 2); (0x1000 + 28, 2); (0x3000, 1); (0x3003, 1); (0x9000 + 18, 8); (0x9000 + 20, 6); (0x9000 + 25, 32)]
    (store_table 128 0x2000 0x3000 ∅).

#[export] Instance one_mapping : MappingProvider unit := {|
  mp_memory_map _ _ _ _ := Ok (MkVMemHandle 1 1, tt);
  mp_deallocate _ _ := Ok (tt, tt);
  mp_vmem_addr _ _ := 0x8000;
  mp_translate _ a := a
|}.

Definition demo_font : PSFFont := MkPSFFont 0x1000 identity_table true false 0x2000.
Definition demo_display : DisplayInterface (vbe_state unit) :=
  MkDisplayInterface (MkDisplayInfo 8 6 32) (init_vbe_display 0) finalize_vbe_display write_pixels_vbe_display.
Definition demo_kio : KioState (vbe_state unit) :=
  MkKioState (MkCircularBuffer 0x5000 256 0 0 0 false) demo_display 0 0 48 (MkColor 0 0 0 255) (MkColor 0 255 0 255) demo_font 0x6000.
Definition demo : kio_st unit (vbe_state unit) :=
  KioSt tt machine (VbeState tt (MkVbeFrameBuffer 0x8000 0xe0000000 0x9000 (MkVMemHandle 1 1))) demo_kio false true true.

Lemma all_codes (P : Z -> bool) : forallb (fun n => P (Z.of_nat n)) (seq 0 128) = true -> forall c, 0 <= c < 128 -> P c = true.
Proof.
  intros H c Hc. rewrite forallb_forall in H. specialize (H (Z.to_nat c)). rewrite Z2Nat.id in H by lia. apply H. apply in_seq. lia.
Qed.

(** Where the glyph of a code is. *)
Lemma demo_glyph c : 0 <= c < 128 -> glyph_code demo_font c = c /\ load64 machine (0x2000 + 8 * c) = 0x3000.
Proof.
  intros Hc. split; [done|]. apply Z.eqb_eq. revert c Hc. apply all_codes. vm_compute. reflexivity.
Qed.

Lemma demo_sizes : width demo = 8 /\ height demo = 6 /\ font_width demo = 2 /\ font_height demo = 2.
Proof. split_and!; vm_compute; reflexivity. Qed.

Lemma demo_console_inv : kio_inv [] demo.
Proof.
  destruct demo_sizes as (Ew & Eh & Efw & Efh). split; rewrite ?Ew, ?Eh, ?Efw, ?Efh; unfold away; rewrite ?Ew, ?Eh; unfold sep;
    cbn [demo kio_state demo_kio screen_size next_x next_y kio_buffer background_color font_color char_buffer buffer buffer_size font header glyphs demo_font];
    try (unfold color_ok; cbn; lia).
  - split; cbn; try lia; done.
  - split; vm_compute; intuition congruence.
  - intros c Hc. destruct (demo_glyph c Hc) as [E1 E2]. unfold glyph_address. cbn [demo kio_state demo_kio font k_mem glyphs demo_font].
    rewrite E1, E2. lia.
Qed.

Lemma demo_vbe : vbe_console (k_dev demo) (k_mem demo) (kio_state demo).
Proof.
  split; try reflexivity.
  - unfold sep. cbn. lia.
  - intros b Hb. left. change (b < 0x8000). unfold used in Hb. cbv zeta in Hb.
    change (kio_buffer (kio_state demo)) with 0x6000 in Hb. change (display_width (info (display (kio_state demo)))) with 8 in Hb.
    change (display_height (info (display (kio_state demo)))) with 6 in Hb. change (buffer (char_buffer (kio_state demo))) with 0x5000 in Hb.
    change (buffer_size (char_buffer (kio_state demo))) with 256 in Hb. change (header (font (kio_state demo))) with 0x1000 in Hb.
    destruct Hb as [Hb|[Hb|[Hb|(c & Hc & Hb)]]]; [lia..|]. destruct (demo_glyph c Hc) as [E1 E2].
    change (font (kio_state demo)) with demo_font in Hb. rewrite E1 in Hb. change (glyphs demo_font) with 0x2000 in Hb. change (k_mem demo) with machine in Hb.
    rewrite E2 in Hb. change (psf_height machine 0x1000 * psf_width machine 0x1000) with 4 in Hb. lia.
Qed.

Definition demo_geometry : geometry := Geometry 8 6 2 2 (MkColor 0 0 0 255) (MkColor 0 255 0 255) (glyph_on demo).

Lemma demo_geometry_of : geometry_of demo demo_geometry.
Proof. by split. Qed.

(** ** Instances of the theorems *)

Definition demo_items : list item := [Str [82; 65; 77]; Lit 58; U64 4096; Lit 32; X32 255; Percent; H64 3735928559].

Lemma chars_ok l : forallb (fun c => (0 <=? c) && (c <? 256)) l = true -> Forall (fun c => 0 <= c < 256) l.
Proof. intros E. rewrite Forall_forall. intros c Hc. rewrite forallb_forall in E. specialize (E c). rewrite <-list_elem_of_In in E. specialize (E Hc). lia. Qed.

Lemma printf_prints_items_witness :
  printf (formats demo_items) (arguments demo_items) demo = print (text demo_items) demo /\ length (text demo_items) = 32%nat.
Proof. split; [|reflexivity]. apply printf_prints_items. repeat constructor; done. Defined.

Lemma number_printing_roundtrip_witness : read_dec (dec_text 18446744073709551615) = 18446744073709551615.
Proof. apply (number_printing_roundtrip 18446744073709551615 demo). lia. Defined.

Lemma printf_h32_prints_zeros_witness :
  printf (percent :: tok_h32) [VaInt 0xdeadbeef] demo = print ([48; 120] ++ replicate 8 48) demo.
Proof. apply printf_h32_prints_zeros. lia. Defined.



(** A frame buffer of 32 bits per pixel and one of 24. *)
Definition demo_screen (bpp : Z) : screen (vbe_state unit) :=
  Screen (k_dev demo) (store8 machine (0x9000 + 25) bpp).

Lemma vbe_write_pixels_correct_witness :
  (exists m', write_pixels_vbe_display 0x6000 48 (demo_screen 24) = Ok (tt, Screen (k_dev demo) m') /\
    forall b, b < 0x8000 \/ 0x8000 + 3 * 48 <= b -> load8 m' b = load8 (sc_mem (demo_screen 24)) b) /\
  write_pixels_vbe_display 0x6000 49 (demo_screen 24) = Panic VBE_ERROR.
Proof.
  assert (R : vbe_ready (demo_screen 24) 0x6000) by (split; vm_compute; intuition congruence).
  destruct (vbe_write_pixels_correct (demo_screen 24) 0x6000 48 R) as (_ & W & _); [lia|].
  destruct (vbe_write_pixels_correct (demo_screen 24) 0x6000 49 R) as (E & _); [lia|]. split.
  - destruct W as (m' & Rm & _ & Hout); [vm_compute; congruence|reflexivity|]. exists m'. split; [exact Rm|exact Hout].
  - apply E. reflexivity.
Defined.

(** A font of 128 glyphs of 8 by 2 pixels at 0x1000, and a picture of 16 by 4 in a
    block of the heap. *)
Definition font_memory : mem := Eval vm_compute in
  store32 (store32 (store32 (store32 (store32 (store32 (store32 ∅ 0x1000 PSF2_MAGIC_NUMBER) 0x1008 32) 0x100c 1) 0x1010 128) 0x1014 2) 0x1018 2) 0x101c 8.
Definition font_state : cb_state bump_heap := CBState (BumpHeap 0x110000 {[ 0x100000 := 4096 ]}) font_memory.

Lemma heap_above_font (t : bump_heap) B p n : hp_inv t B -> B !! p = Some n -> p + n < 2 ^ 64 /\ sep p n 0x1000 512.
Proof. intros [_ I2 I3] Hp. apply I3 in Hp. unfold heap_start, heap_limit, sep in *. lia. Qed.

Lemma psf_font_draws_bitmaps_witness :
  exists font s1 s2, get_default_PSF_font 0x1000 0x1200 font_state = Ok (font, s1) /\
    write_PSF_char font 65 (MkVector2i 3 1) 0x100000 (MkVector2i 16 4) (MkColor 0 0 0 255) (MkColor 0 255 0 255) s1 = Ok (true, s2).
Proof.
  assert (Sz : psf_magic font_memory 0x1000 = PSF2_MAGIC_NUMBER /\ psf_headersize font_memory 0x1000 = 32 /\ psf_flags font_memory 0x1000 = 1 /\
    psf_numglyph font_memory 0x1000 = 128 /\ psf_bytesperglyph font_memory 0x1000 = 2 /\ psf_height font_memory 0x1000 = 2 /\ psf_width font_memory 0x1000 = 8)
    by (split_and!; vm_compute; reflexivity).
  destruct Sz as (E1 & E2 & E3 & E4 & E5 & E6 & E7).
  destruct (psf_font_draws_bitmaps 0x1000 512 heap_above_font 0x1200 font_state {[ 0x100000 := 4096 ]} 0x100000 4096 16 4 65 3 1
    (MkColor 0 0 0 255) (MkColor 0 255 0 255)) as (font & s1 & s2 & R1 & R2 & _);
    change (cb_mem font_state) with font_memory; rewrite ?E3, ?E4, ?E6, ?E7; try lia.
  - split; unfold line_bytes; rewrite ?E2, ?E4, ?E5, ?E6, ?E7; cbn; lia.
  - split; [done|unfold heap_start, heap_limit; cbn; lia|]. intros q m Hq. apply lookup_singleton_Some in Hq as [<- <-]. unfold heap_start. cbn. lia.
  - cbn. unfold heap_limit. lia.
  - apply lookup_singleton_eq.
  - vm_compute; intuition congruence.
  - vm_compute; intuition congruence.
  - exists font, s1, s2. split; [exact R1|exact R2].
Defined.
