(* ===== verification/Fat32.v ===== *)
(** * The FAT32 image maker (tools/fat32_maker.cpp)

    The tool formats a volume inside of a disk image: it writes the boot record,
    the information sector, their backup, the allocation table, an empty root
    directory and the code of the second boot stage.

    Buffers of the tool are lists of bytes, and an access outside of one is a
    [Fault].  The image is a file behind a stream: a size, its bytes, and the
    failure bit, after which the stream does nothing.  [exit(-1)] and a failed
    [assert] are the outcomes [Panic EXIT] and [Panic ABORT].  What the tool prints
    is left out. *)

From Stdlib Require Import String Ascii.
From stdpp Require Import list.
From S2P Require Import Prelude Memory.

Definition EXIT : Z := -1.
Definition ABORT : Z := -6.
Definition assert_ {S} (b : bool) : M S unit := if b then ret tt else kpanic ABORT.

(** An [int] result that must be in range: the overflow is undefined. *)
Definition int_range (x : Z) : bool := (- 2 ^ 31 <=? x) && (x <? 2 ^ 31).
Definition int_value {S} (x : Z) : M S Z := if int_range x then ret x else fault.
(** Conversion of a 32-bit pattern to [int]. *)
Definition to_i32 (x : Z) : Z := if wrap32 x <? 2 ^ 31 then wrap32 x else wrap32 x - 2 ^ 32.

(** ** Constants *)

Definition MIN_FAT32_CLUSTERS : Z := 65526.
Definition ACTIVE_FAT_FLAG (fat_number : Z) : Z := Z.shiftl 1 (fat_number - 1).
Definition FAT_ENTRY_END_OF_CHAIN : Z := 0x0FFFFFFF.
Definition DIRECTORY_ENTRY_FREE_AND_AFTER_FREE : Z := 0.
Definition VBR_OFFSET_JMP_BOOT : Z := 0.
Definition VBR_OFFSET_OEM_NAME : Z := 3.
Definition VBR_OFFSET_BYTS_PER_SEC : Z := 11.
Definition VBR_SIZE_BYTS_PER_SEC : Z := 2.
Definition VBR_OFFSET_SEC_PER_CLUS : Z := 13.
Definition VBR_SIZE_SEC_PER_CLUS : Z := 1.
Definition VBR_OFFSET_RSVD_SEC_CNT : Z := 14.
Definition VBR_SIZE_RSVD_SEC_CNT : Z := 2.
Definition VBR_OFFSET_NUM_FATS : Z := 16.
Definition VBR_SIZE_NUM_FATS : Z := 1.
Definition VBR_OFFSET_ROOT_ENT_CNT : Z := 17.
Definition VBR_SIZE_ROOT_ENT_CNT : Z := 2.
Definition VBR_OFFSET_TOT_SEC_16 : Z := 19.
Definition VBR_SIZE_TOT_SEC_16 : Z := 2.
Definition VBR_OFFSET_MEDIA : Z := 21.
Definition VBR_SIZE_MEDIA : Z := 1.
Definition VBR_OFFSET_FAT_SZ_16 : Z := 22.
Definition VBR_SIZE_FAT_SZ_16 : Z := 2.
Definition VBR_OFFSET_HIDD_SEC : Z := 28.
Definition VBR_SIZE_HIDD_SEC : Z := 4.
Definition VBR_OFFSET_TOT_SEC_32 : Z := 32.
Definition VBR_SIZE_TOT_SEC_32 : Z := 4.
Definition VBR_OFFSET_FAT_SZ_32 : Z := 36.
Definition VBR_SIZE_FAT_SZ_32 : Z := 4.
Definition VBR_OFFSET_EXT_FLAGS : Z := 40.
Definition VBR_SIZE_EXT_FLAGS : Z := 2.
Definition VBR_OFFSET_FS_VER : Z := 42.
Definition VBR_SIZE_FS_VER : Z := 2.
Definition VBR_OFFSET_ROOT_CLUS : Z := 44.
Definition VBR_SIZE_ROOT_CLUS : Z := 4.
Definition VBR_OFFSET_FS_INFO : Z := 48.
Definition VBR_SIZE_FS_INFO : Z := 2.
Definition VBR_OFFSET_BK_BOOT_SEC : Z := 50.
Definition VBR_SIZE_BK_BOOT_SEC : Z := 2.
Definition VBR_OFFSET_DRV_NUM : Z := 64.
Definition VBR_SIZE_DRV_NUM : Z := 1.
Definition VBR_OFFSET_BS_RESERVED : Z := 65.
Definition VBR_SIZE_BS_RESERVED : Z := 1.
Definition VBR_OFFSET_BOOT_SIG : Z := 66.
Definition VBR_SIZE_BOOT_SIG : Z := 1.
Definition VBR_OFFSET_VOL_ID : Z := 67.
Definition VBR_SIZE_VOL_ID : Z := 4.
Definition VBR_OFFSET_VOL_LAB : Z := 71.
Definition VBR_SIZE_VOL_LAB : Z := 11.
Definition VBR_OFFSET_FIL_SYS_TYPE : Z := 82.
Definition VBR_SIZE_FIL_SYS_TYPE : Z := 8.
Definition VBR_OFFSET_BOOT_CODE_32 : Z := 90.
Definition VBR_SIZE_BOOT_CODE_32 : Z := 420.
Definition VBR_OFFSET_BOOT_SIGN : Z := 510.
Definition VBR_SIZE_BOOT_SIGN : Z := 2.
Definition FSINFO_OFFSET_LEAD_SIG : Z := 0.
Definition FSINFO_SIZE_LEAD_SIG : Z := 4.
Definition FSINFO_OFFSET_STRUCT_SIG : Z := 484.
Definition FSINFO_SIZE_STRUCT_SIG : Z := 4.
Definition FSINFO_OFFSET_FREE_COUNT : Z := 488.
Definition FSINFO_SIZE_FREE_COUNT : Z := 4.
Definition FSINFO_OFFSET_NXT_FREE : Z := 492.
Definition FSINFO_SIZE_NXT_FREE : Z := 4.
Definition FSINFO_OFFSET_TRAIL_SIG : Z := 508.
Definition FSINFO_SIZE_TRAIL_SIG : Z := 4.

(** ** Buffers *)

Abbreviation buffer := (list Z).

Fixpoint le_bytes (n : nat) (v : Z) : list Z :=
  match n with O => [] | S n' => v mod 256 :: le_bytes n' (v / 256) end.
Fixpoint le_value (l : list Z) : Z :=
  match l with [] => 0 | b :: l' => b + 256 * le_value l' end.

Definition slice (off n : Z) (b : buffer) : list Z := take (Z.to_nat n) (drop (Z.to_nat off) b).
Definition patch (off : Z) (l : list Z) (b : buffer) : buffer :=
  take (Z.to_nat off) b ++ l ++ drop (Z.to_nat off + length l) b.

(** Bytes [l] copied to [off]; [Fault] outside of the buffer. *)
Definition copy_to (off : Z) (l : list Z) : M buffer unit := fun b =>
  if off + Z.of_nat (length l) <=? Z.of_nat (length b) then Ok (tt, patch off l b) else Fault.
Definition memset_ (off v n : Z) : M buffer unit := copy_to off (replicate (Z.to_nat n) (v mod 256)).

(** [write_at<T>] and [read_at<T>] with [sizeof(T) = n]. *)
Definition write_at (n : nat) (off v size : Z) : M buffer unit :=
  assert_ ((size =? 0) || (size =? Z.of_nat n));;
  copy_to off (le_bytes n v).
Definition read_at {S} (n : nat) (b : buffer) (off size : Z) : M S Z :=
  assert_ ((size =? 0) || (size =? Z.of_nat n));;
  if off + Z.of_nat n <=? Z.of_nat (length b) then ret (le_value (slice off (Z.of_nat n) b)) else fault.

(** A computation on a local buffer. *)
Definition on {S} (b : buffer) (m : M buffer unit) : M S buffer := fun s =>
  match m b with
  | Ok (_, b') => Ok (b', s)
  | Panic c => Panic c
  | Fault => Fault
  | Hang => Hang
  | OutOfFuel => OutOfFuel
  end.

(** ** Geometry of a volume *)

Section geometry.
Context {S : Type}.

Definition getFSInfoSectorOffset (vbr : buffer) : M S Z := read_at 2 vbr VBR_OFFSET_FS_INFO VBR_SIZE_FS_INFO.
Definition getFatAreaStart (vbr : buffer) : M S Z := read_at 2 vbr VBR_OFFSET_RSVD_SEC_CNT VBR_SIZE_RSVD_SEC_CNT.
Definition getFatAreaSize (vbr : buffer) : M S Z :=
  n <- read_at 1 vbr VBR_OFFSET_NUM_FATS VBR_SIZE_NUM_FATS;;
  sz <- read_at 4 vbr VBR_OFFSET_FAT_SZ_32 VBR_SIZE_FAT_SZ_32;;
  ret (wrap32 (n * sz)).
Definition getDataAreaFirstSector (vbr : buffer) : M S Z :=
  r <- read_at 2 vbr VBR_OFFSET_RSVD_SEC_CNT VBR_SIZE_RSVD_SEC_CNT;;
  n <- read_at 1 vbr VBR_OFFSET_NUM_FATS VBR_SIZE_NUM_FATS;;
  sz <- read_at 4 vbr VBR_OFFSET_FAT_SZ_32 VBR_SIZE_FAT_SZ_32;;
  ret (wrap32 (r + wrap32 (n * sz))).
Definition getDataAreaSize (vbr : buffer) : M S Z :=
  tot <- read_at 4 vbr VBR_OFFSET_TOT_SEC_32 VBR_SIZE_TOT_SEC_32;;
  first <- getDataAreaFirstSector vbr;;
  ret (wrap32 (tot - first)).
(** A division by zero is a processor exception. *)
Definition getClusterCount (vbr : buffer) : M S Z :=
  d <- getDataAreaSize vbr;;
  c <- read_at 1 vbr VBR_OFFSET_SEC_PER_CLUS VBR_SIZE_SEC_PER_CLUS;;
  if c =? 0 then fault else ret (d / c).
Definition getSectorSizeInBytes (vbr : buffer) : M S Z := read_at 2 vbr VBR_OFFSET_BYTS_PER_SEC VBR_SIZE_BYTS_PER_SEC.
Definition getFirstSectorOfCluster (vbr : buffer) (cluster : Z) : M S Z :=
  d <- getDataAreaFirstSector vbr;;
  b <- getSectorSizeInBytes vbr;;
  ret (wrap32 (d + wrap32 (wrap32 (cluster - 2) * b))).
Definition getClusterSizeInSectors (vbr : buffer) : M S Z := read_at 1 vbr VBR_OFFSET_SEC_PER_CLUS VBR_SIZE_SEC_PER_CLUS.
End geometry.

Definition chars (s : string) : list Z := map (fun c => Z.of_N (N_of_ascii c)) (list_ascii_of_string s).

(** ** The boot record *)

(** [now] is the result of [time(NULL)]. *)
Definition makeFat32VBR (now : Z) (volume_name : string) (size_of_fat_in_sectors size_of_volume_in_sectors cluster_size_in_sectors sector_size : Z) :
    M buffer unit :=
  let number_of_fats := 2 in
  let reserved_sectors_count := 32 in
  when (reserved_sectors_count <? 1) (kpanic EXIT);;
  when (VBR_SIZE_VOL_LAB <? Z.of_nat (String.length volume_name)) (kpanic EXIT);;
  memset_ 0 0 sector_size;;
  copy_to VBR_OFFSET_OEM_NAME (chars "MSWIN4.1");;
  write_at 1 VBR_OFFSET_JMP_BOOT 0xEB 0;;
  write_at 1 (1 + VBR_OFFSET_JMP_BOOT) (-2 + VBR_OFFSET_BOOT_CODE_32) 0;;
  write_at 1 (2 + VBR_OFFSET_JMP_BOOT) 0x90 0;;
  write_at 2 VBR_OFFSET_BYTS_PER_SEC sector_size VBR_SIZE_BYTS_PER_SEC;;
  write_at 1 VBR_OFFSET_SEC_PER_CLUS cluster_size_in_sectors VBR_SIZE_SEC_PER_CLUS;;
  write_at 2 VBR_OFFSET_RSVD_SEC_CNT reserved_sectors_count VBR_SIZE_RSVD_SEC_CNT;;
  write_at 1 VBR_OFFSET_NUM_FATS number_of_fats VBR_SIZE_NUM_FATS;;
  write_at 2 VBR_OFFSET_ROOT_ENT_CNT 0 VBR_SIZE_ROOT_ENT_CNT;;
  write_at 2 VBR_OFFSET_TOT_SEC_16 0 VBR_SIZE_TOT_SEC_16;;
  write_at 1 VBR_OFFSET_MEDIA 0xF0 VBR_SIZE_MEDIA;;
  write_at 2 VBR_OFFSET_FAT_SZ_16 0 VBR_SIZE_FAT_SZ_16;;
  write_at 4 VBR_OFFSET_HIDD_SEC 0 VBR_SIZE_HIDD_SEC;;
  write_at 4 VBR_OFFSET_TOT_SEC_32 size_of_volume_in_sectors VBR_SIZE_TOT_SEC_32;;
  write_at 4 VBR_OFFSET_FAT_SZ_32 size_of_fat_in_sectors VBR_SIZE_FAT_SZ_32;;
  vbr <- get;;
  sz <- read_at 4 vbr VBR_OFFSET_FAT_SZ_32 VBR_SIZE_FAT_SZ_32;;
  assert_ (sz =? size_of_fat_in_sectors);;
  write_at 2 VBR_OFFSET_EXT_FLAGS (ACTIVE_FAT_FLAG 1) VBR_SIZE_EXT_FLAGS;;
  write_at 2 VBR_OFFSET_FS_VER 0 VBR_SIZE_FS_VER;;
  write_at 4 VBR_OFFSET_ROOT_CLUS 2 VBR_SIZE_ROOT_CLUS;;
  write_at 2 VBR_OFFSET_FS_INFO 1 VBR_SIZE_FS_INFO;;
  write_at 2 VBR_OFFSET_BK_BOOT_SEC 6 VBR_SIZE_BK_BOOT_SEC;;
  write_at 1 VBR_OFFSET_DRV_NUM 0x80 VBR_SIZE_DRV_NUM;;
  write_at 1 VBR_OFFSET_BS_RESERVED 0 VBR_SIZE_BS_RESERVED;;
  write_at 1 VBR_OFFSET_BOOT_SIG 0x29 VBR_SIZE_BOOT_SIG;;
  write_at 4 VBR_OFFSET_VOL_ID now VBR_SIZE_VOL_ID;;
  memset_ VBR_OFFSET_VOL_LAB 32 VBR_SIZE_VOL_LAB;;
  copy_to VBR_OFFSET_VOL_LAB (chars volume_name);;
  copy_to VBR_OFFSET_FIL_SYS_TYPE (chars "FAT32   ");;
  write_at 2 VBR_OFFSET_BOOT_SIGN 0x55AA VBR_SIZE_BOOT_SIGN;;
  vbr <- get;;
  rsvd <- read_at 2 vbr VBR_OFFSET_RSVD_SEC_CNT VBR_SIZE_RSVD_SEC_CNT;;
  let total_size := wrap32 (rsvd + wrap32 (number_of_fats * size_of_fat_in_sectors) - 1) in
  data <- getDataAreaSize vbr;;
  fat <- getFatAreaSize vbr;;
  assert_ (wrap32 (data + fat + rsvd) =? size_of_volume_in_sectors);;
  when (size_of_volume_in_sectors <? total_size) (kpanic EXIT);;
  clusters <- getClusterCount vbr;;
  when (clusters <? MIN_FAT32_CLUSTERS) (kpanic EXIT).

Definition makeFSInfoSector (vbr : buffer) : M buffer unit :=
  sector_size <- getSectorSizeInBytes vbr;;
  memset_ 0 0 sector_size;;
  root_cluster <- read_at 4 vbr VBR_OFFSET_ROOT_CLUS VBR_SIZE_ROOT_CLUS;;
  write_at 4 FSINFO_OFFSET_LEAD_SIG 0x41615252 FSINFO_SIZE_LEAD_SIG;;
  write_at 4 FSINFO_OFFSET_STRUCT_SIG 0x61417272 FSINFO_SIZE_STRUCT_SIG;;
  clusters <- getClusterCount vbr;;
  write_at 4 FSINFO_OFFSET_FREE_COUNT clusters FSINFO_SIZE_FREE_COUNT;;
  write_at 4 FSINFO_OFFSET_NXT_FREE (wrap32 (root_cluster + 1)) FSINFO_SIZE_NXT_FREE;;
  write_at 4 FSINFO_OFFSET_TRAIL_SIG 0xAA550000 FSINFO_SIZE_TRAIL_SIG.

(** ** The image *)

Record FileImage : Type := MkFileImage {
  img_sector_size : Z; img_file_offset : Z;
  img_bytes : mem; img_size : Z; img_fail : bool
}.

Definition set_fail (s : FileImage) : FileImage := MkFileImage (img_sector_size s) (img_file_offset s) (img_bytes s) (img_size s) true.

Fixpoint store_bytes (m : mem) (a : Z) (l : list Z) : mem :=
  match l with [] => m | b :: l' => store_bytes (store8 m a b) (a + 1) l' end.
Fixpoint load_bytes (n : nat) (m : mem) (a : Z) : list Z :=
  match n with O => [] | S n' => load8 m a :: load_bytes n' m (a + 1) end.

(** [sector_number*sector_size + file_offset*sector_size] *)
Definition sector_position (sector_number : Z) : M FileImage Z :=
  s <- get;;
  a <- int_value (sector_number * img_sector_size s);;
  b <- int_value (img_file_offset s * img_sector_size s);;
  int_value (a + b).

Definition writeSector (sector_number : Z) (sector_data : buffer) : M FileImage unit :=
  pos <- sector_position sector_number;;
  modify (fun s =>
    if img_fail s then s else if pos <? 0 then set_fail s
    else MkFileImage (img_sector_size s) (img_file_offset s)
           (store_bytes (img_bytes s) pos (take (Z.to_nat (img_sector_size s)) sector_data))
           (Z.max (img_size s) (pos + img_sector_size s)) false).

(** At the end of the file the stream fails after the bytes there are. *)
Definition readSector (sector_number : Z) (sector_data : buffer) : M FileImage buffer :=
  pos <- sector_position sector_number;;
  s <- get;;
  if img_fail s then ret sector_data
  else if pos <? 0 then modify set_fail;; ret sector_data
  else
    let n := Z.min (img_sector_size s) (Z.max 0 (img_size s - pos)) in
    when (n <? img_sector_size s) (modify set_fail);;
    ret (patch 0 (load_bytes (Z.to_nat n) (img_bytes s) pos) sector_data).

(** [std::make_unique<char[]>(image.getSectorSize())]: bytes of zero. *)
Definition new_sector : M FileImage buffer := gets (fun s => replicate (Z.to_nat (img_sector_size s)) 0).

(** The sector of the table that holds an entry, and the offset in it. *)
Definition fat_position (entry : Z) : M FileImage (Z * Z * buffer) :=
  b <- new_sector;;
  vbr <- readSector 0 b;;
  start <- getFatAreaStart vbr;;
  ss <- gets img_sector_size;;
  if ss =? 0 then fault else
  ret (to_i32 (start + wrap32 (entry * 4) / wrap32 ss), wrap32 (entry * 4) mod wrap32 ss, vbr).

Definition readFatEntry (entry : Z) : M FileImage Z :=
  r <- fat_position entry;; let '(sector, off, b) := r in
  b' <- readSector sector b;;
  read_at 4 b' off 0.

Definition writeFatEntry (entry value : Z) : M FileImage unit :=
  r <- fat_position entry;; let '(sector, off, b) := r in
  b' <- readSector sector b;;
  b'' <- on b' (write_at 4 off value 0);;
  writeSector sector b''.

(** [for(int i = 0; i < size; i++) image.writeSector(start+i, zeros)] *)
Fixpoint zero_sectors (n : nat) (start i : Z) (zeros : buffer) : M FileImage unit :=
  match n with
  | O => ret tt
  | S n' => sector <- int_value (start + i);; writeSector sector zeros;; zero_sectors n' start (i + 1) zeros
  end.

Definition initializeFileAllocationTable : M FileImage unit :=
  b <- new_sector;;
  vbr <- readSector 0 b;;
  area <- getFatAreaSize vbr;;
  let size := to_i32 area in
  start <- getFatAreaStart vbr;;
  ss <- gets img_sector_size;;
  zeros <- on vbr (memset_ 0 0 ss);;
  zero_sectors (Z.to_nat size) start 0 zeros;;
  vbr <- readSector 0 zeros;;
  media <- read_at 1 vbr VBR_OFFSET_MEDIA VBR_SIZE_MEDIA;;
  writeFatEntry 0 (Z.lor 0xFFFFFF00 media);;
  writeFatEntry 1 0xFFFFFFFF.

Fixpoint backup_sectors (n : nat) (i backup : Z) (b : buffer) : M FileImage unit :=
  match n with
  | O => ret tt
  | S n' =>
      b' <- readSector i b;;
      writeSector (to_i32 (i + backup)) b';;
      backup_sectors n' (i + 1) backup b'
  end.

Definition updateFat32Backup : M FileImage unit :=
  b <- new_sector;;
  vbr <- readSector 0 b;;
  backup <- read_at 2 vbr VBR_OFFSET_BK_BOOT_SEC VBR_SIZE_BK_BOOT_SEC;;
  backup_sectors 3 0 backup vbr.

(** [for(int b_off = 0; b_off < sector_size; b_off+=32)]: the entries of one sector *)
Fixpoint free_entries (fuel : nat) (b_off sector_size : Z) : M buffer unit :=
  match fuel with
  | O => out_of_fuel
  | S fuel' =>
      if b_off <? sector_size
      then write_at 1 b_off DIRECTORY_ENTRY_FREE_AND_AFTER_FREE 0;; free_entries fuel' (b_off + 32) sector_size
      else ret tt
  end.

Fixpoint free_cluster (n : nat) (first s_off : Z) (b : buffer) : M FileImage unit :=
  match n with
  | O => ret tt
  | S n' =>
      b' <- readSector (to_i32 (first + s_off)) b;;
      ss <- gets img_sector_size;;
      b'' <- on b' (free_entries (S (Z.to_nat ss)) 0 ss);;
      writeSector (to_i32 (first + s_off)) b'';;
      free_cluster n' first (s_off + 1) b''
  end.

Definition makeRootDirectory : M FileImage unit :=
  sec <- new_sector;;
  b <- new_sector;;
  vbr <- readSector 0 b;;
  first <- getFirstSectorOfCluster vbr 2;;
  cluster_size <- getClusterSizeInSectors vbr;;
  free_cluster (Z.to_nat cluster_size) first 0 sec;;
  root <- read_at 4 vbr VBR_OFFSET_ROOT_CLUS VBR_SIZE_ROOT_CLUS;;
  writeFatEntry root FAT_ENTRY_END_OF_CHAIN.

(** The rest of the boot code, a sector at a time. *)
Fixpoint write_code (fuel : nat) (code : list Z) (code_offset sector_to_write : Z) (vbr b : buffer) : M FileImage unit :=
  match fuel with
  | O => out_of_fuel
  | S fuel' =>
      if code_offset <? Z.of_nat (length code) then
        start <- getFatAreaStart vbr;;
        assert_ (sector_to_write <? start);;
        b' <- readSector sector_to_write b;;
        ss <- gets img_sector_size;;
        let left := Z.of_nat (length code) - code_offset in
        assert_ (0 <? left);;
        let size_of_data_to_write := if ss <? left then ss else left in
        b'' <- on b' (copy_to 0 (slice code_offset size_of_data_to_write code));;
        writeSector sector_to_write b'';;
        write_code fuel' code (code_offset + size_of_data_to_write) (sector_to_write + 1) vbr b''
      else ret tt
  end.

(** [boot_code] is the content of the file, [None] when it cannot be opened. *)
Definition writeBootCode (boot_code : option (list Z)) : M FileImage unit :=
  sector_buffer <- new_sector;;
  b <- new_sector;;
  match boot_code with
  | None | Some [] => kpanic EXIT
  | Some code =>
      vbr <- readSector 0 b;;
      if Z.of_nat (length code) <? VBR_SIZE_BOOT_CODE_32 then fault else
      vbr <- on vbr (copy_to VBR_OFFSET_BOOT_CODE_32 (slice 0 VBR_SIZE_BOOT_CODE_32 code));;
      writeSector 0 vbr;;
      backup <- read_at 2 vbr VBR_OFFSET_BK_BOOT_SEC VBR_SIZE_BK_BOOT_SEC;;
      write_code (S (length code)) code VBR_SIZE_BOOT_CODE_32 (backup + 3) vbr sector_buffer
  end.

(** The body of [main] after the options: [vbr] and [fs_info] are what [malloc] returns. *)
Definition make_volume (now fat_size volume_size cluster_size : Z) (boot_code : option (list Z)) (vbr fs_info : buffer) : M FileImage unit :=
  ss <- gets img_sector_size;;
  vbr <- on vbr (makeFat32VBR now "test" (wrap32 fat_size) (wrap32 volume_size) (wrap8 cluster_size) (wrap16 ss));;
  writeSector 0 vbr;;
  fs_info <- on fs_info (makeFSInfoSector vbr);;
  fs <- getFSInfoSectorOffset vbr;;
  writeSector fs fs_info;;
  updateFat32Backup;;
  initializeFileAllocationTable;;
  makeRootDirectory;;
  writeBootCode boot_code.

(** ** The command line *)

Record options : Type := MkOptions {
  fat_size : Z; volume_size : Z; cluster_size : Z; sector_size : Z; file_offset : Z; file_path : string; boot_code_path : string
}.

Definition isdigit (c : ascii) : bool := (48 <=? Z.of_N (N_of_ascii c)) && (Z.of_N (N_of_ascii c) <=? 57).
Definition digits_value (s : string) : Z :=
  fold_left (fun v c => v * 10 + (Z.of_N (N_of_ascii c) - 48)) (list_ascii_of_string s) 0.

(** The stream gives the largest [int] for a number beyond it, and leaves [out]
    as it is, [junk], for the empty string. *)
Definition tryParseIntOption (junk : Z) (opt : string) : Z * bool :=
  if negb (forallb isdigit (list_ascii_of_string opt)) then (0, false)
  else if (opt =? "")%string then (junk, true)
  else (Z.min (digits_value opt) (2 ^ 31 - 1), true).

Definition containsPrefix (prefix str : string) : bool := (prefix =? substring 0 (String.length prefix) str)%string.
Definition after_prefix (prefix arg : string) : string :=
  substring (String.length prefix) (String.length arg - String.length prefix) arg.

Definition readIntParamIfPresent (junk param : Z) (arg prefix : string) : Z :=
  if containsPrefix prefix arg then (tryParseIntOption junk (after_prefix prefix arg)).1 else param.
Definition readStringParamIfPresent (param arg prefix : string) : string :=
  if containsPrefix prefix arg then after_prefix prefix arg else param.

Definition read_option (junk : Z) (o : options) (arg : string) : options :=
  MkOptions (readIntParamIfPresent junk (fat_size o) arg "fat_size=") (readIntParamIfPresent junk (volume_size o) arg "volume_size=")
    (readIntParamIfPresent junk (cluster_size o) arg "cluster_size=") (readIntParamIfPresent junk (sector_size o) arg "sector_size=")
    (readIntParamIfPresent junk (file_offset o) arg "file_offset=")
    (readStringParamIfPresent (file_path o) arg "file=") (readStringParamIfPresent (boot_code_path o) arg "boot_code=").

Definition default_options : options := MkOptions 128 (-1) 1 512 0 "" "".

(** The files of the host, what [malloc] and the clock return, and the value of
    an uninitialised [int] are parameters. *)
Section main.
Context (open_image : string -> option (mem * Z)) (read_file : string -> option (list Z)).
Context (malloc : Z -> buffer) (now junk : Z).

Definition main (args : list string) : outcome FileImage :=
  let o := fold_left (read_option junk) args default_options in
  if (file_path o =? "")%string then Panic EXIT
  else if volume_size o <? 0 then Panic EXIT
  else match open_image (file_path o) with
  | None => Panic EXIT
  | Some (bytes, size) =>
      match make_volume now (fat_size o) (volume_size o) (cluster_size o) (read_file (boot_code_path o))
              (malloc (sector_size o)) (malloc (sector_size o))
              (MkFileImage (sector_size o) (file_offset o) bytes size false) with
      | Ok (_, image) => Ok image
      | Panic c => Panic c
      | Fault => Fault
      | Hang => Hang
      | OutOfFuel => OutOfFuel
      end
  end.
End main.
