(* ===== verification/Fat32Top.v ===== *)
(** * What the FAT32 image maker writes

    A volume is abstracted to the map from its sectors to their bytes.  Reading
    and writing a sector of the file refine reading and updating that map
    ([readSector_run], [writeSector_run]), and every routine of the tool is
    described as an update of it. *)

From Stdlib Require Import String Ascii.
From stdpp Require Import list.
From S2P Require Import Prelude Memory Fat32.

(** ** Buffers *)

Lemma length_le_bytes n v : length (le_bytes n v) = n.
Proof. revert v. induction n as [|n IH]; intros v; cbn; [done|]. by rewrite IH. Qed.

Lemma le_value_bytes n v : le_value (le_bytes n v) = v mod 2 ^ (8 * Z.of_nat n).
Proof.
  revert v. induction n as [|n IH]; intros v; cbn [le_bytes le_value]; [by rewrite Z.mod_1_r|].
  rewrite IH. replace (8 * Z.of_nat (S n)) with (8 + 8 * Z.of_nat n) by lia. rewrite Z.pow_add_r by lia. change (2 ^ 8) with 256.
  symmetry. apply Z.rem_mul_r; lia.
Qed.

Lemma length_patch off l b : 0 <= off -> off + Z.of_nat (length l) <= Z.of_nat (length b) -> length (patch off l b) = length b.
Proof. intros H0 H. unfold patch. rewrite !length_app, length_take, length_drop. lia. Qed.

Lemma slice_patch_same off l b :
  0 <= off -> off + Z.of_nat (length l) <= Z.of_nat (length b) -> slice off (Z.of_nat (length l)) (patch off l b) = l.
Proof.
  intros H0 H. unfold slice, patch. rewrite drop_app_length' by (rewrite length_take; lia).
  rewrite Nat2Z.id. apply take_app_length.
Qed.

Lemma slice_patch_ne o n off l b :
  0 <= off -> off + Z.of_nat (length l) <= Z.of_nat (length b) -> 0 <= o -> 0 <= n ->
  o + n <= off \/ off + Z.of_nat (length l) <= o -> slice o n (patch off l b) = slice o n b.
Proof.
  intros H0 H Ho Hn Hd. unfold slice, patch. apply list_eq. intros i. destruct (decide (i < Z.to_nat n)%nat) as [Hi|Hi].
  2:{ rewrite !lookup_take_ge by lia. done. }
  rewrite !lookup_take_lt, !lookup_drop by lia. destruct Hd as [Hd|Hd].
  - rewrite lookup_app_l by (rewrite length_take; lia). rewrite lookup_take_lt by lia. done.
  - rewrite lookup_app_r by (rewrite length_take; lia). rewrite length_take.
    rewrite lookup_app_r by lia. rewrite lookup_drop. f_equal. lia.
Qed.

Lemma slice_split o n k b : 0 <= o -> 0 <= n -> 0 <= k -> slice o (n + k) b = slice o n b ++ slice (o + n) k b.
Proof.
  intros Ho Hn Hk. unfold slice. rewrite !Z2Nat.inj_add by lia. rewrite <-drop_drop. by rewrite take_take_drop.
Qed.

Lemma lookup_patch off l b i :
  0 <= off -> off + Z.of_nat (length l) <= Z.of_nat (length b) ->
  patch off l b !! i = if decide (off <= Z.of_nat i < off + Z.of_nat (length l)) then l !! (i - Z.to_nat off)%nat else b !! i.
Proof.
  intros H0 H. unfold patch. case_decide as D.
  - rewrite lookup_app_r by (rewrite length_take; lia). rewrite length_take, Nat.min_l by lia. by rewrite lookup_app_l by lia.
  - destruct (decide (i < Z.to_nat off)%nat).
    + rewrite lookup_app_l by (rewrite length_take; lia). by rewrite lookup_take_lt by lia.
    + rewrite lookup_app_r by (rewrite length_take; lia). rewrite length_take, Nat.min_l by lia. rewrite lookup_app_r by lia.
      rewrite lookup_drop. f_equal. lia.
Qed.

(** Two writes next to each other. *)
Lemma patch_patch off l1 l2 b :
  0 <= off -> off + Z.of_nat (length (l1 ++ l2)) <= Z.of_nat (length b) ->
  patch (off + Z.of_nat (length l1)) l2 (patch off l1 b) = patch off (l1 ++ l2) b.
Proof.
  intros H0 H. pose proof H as H'. rewrite length_app in H'. apply list_eq. intros i.
  rewrite !lookup_patch by (rewrite ?length_patch; lia). rewrite length_app.
  destruct (decide (off <= Z.of_nat i < off + Z.of_nat (length l1))).
  - rewrite !decide_False, decide_True by lia. by rewrite lookup_app_l by lia.
  - destruct (decide (off + Z.of_nat (length l1) <= Z.of_nat i < off + Z.of_nat (length l1) + Z.of_nat (length l2))).
    + rewrite !decide_True by lia. rewrite lookup_app_r by lia. f_equal. lia.
    + by rewrite !decide_False by lia.
Qed.

Lemma slice_all b : slice 0 (Z.of_nat (length b)) b = b.
Proof. unfold slice. rewrite Nat2Z.id, drop_0. apply firstn_all. Qed.

Lemma patch_all off l b : off = 0 -> length l = length b -> patch off l b = l.
Proof. intros -> H. unfold patch. rewrite H. rewrite drop_ge by lia. by rewrite app_nil_r. Qed.

Lemma copy_to_run off l b : off + Z.of_nat (length l) <= Z.of_nat (length b) -> copy_to off l b = Ok (tt, patch off l b).
Proof. intros H. unfold copy_to. by rewrite (proj2 (Z.leb_le _ _)). Qed.

Lemma write_at_run n off v size b :
  size = 0 \/ size = Z.of_nat n -> off + Z.of_nat n <= Z.of_nat (length b) ->
  write_at n off v size b = Ok (tt, patch off (le_bytes n v) b).
Proof.
  intros Hs H. unfold write_at, assert_. rewrite (bind_ok _ _ b tt b).
  - apply copy_to_run. by rewrite length_le_bytes.
  - destruct Hs as [-> | ->]; [done|]. by rewrite Z.eqb_refl, orb_true_r.
Qed.

Lemma read_at_run {S} n b off size (s : S) :
  size = 0 \/ size = Z.of_nat n -> off + Z.of_nat n <= Z.of_nat (length b) ->
  read_at n b off size s = Ok (le_value (slice off (Z.of_nat n) b), s).
Proof.
  intros Hs H. unfold read_at, assert_. rewrite (bind_ok _ _ s tt s).
  - by rewrite (proj2 (Z.leb_le _ _)).
  - destruct Hs as [-> | ->]; [done|]. by rewrite Z.eqb_refl, orb_true_r.
Qed.

Lemma on_run {S} b (m : M buffer unit) b' (s : S) : m b = Ok (tt, b') -> on b m s = Ok (b', s).
Proof. unfold on. by intros ->. Qed.

(** ** Bytes of the file *)

Lemma length_load_bytes n m a : length (load_bytes n m a) = n.
Proof. revert a. induction n as [|n IH]; intros a; cbn; [done|]. by rewrite IH. Qed.

Lemma load_bytes_ext n m m' a : (forall b, a <= b < a + Z.of_nat n -> load8 m' b = load8 m b) -> load_bytes n m' a = load_bytes n m a.
Proof.
  revert a. induction n as [|n IH]; intros a H; [done|]. cbn [load_bytes]. rewrite H by lia. f_equal. apply IH. intros b Hb. apply H. lia.
Qed.

Lemma load8_store_bytes_out l m a b : b < a \/ a + Z.of_nat (length l) <= b -> load8 (store_bytes m a l) b = load8 m b.
Proof.
  revert m a. induction l as [|x l IH]; intros m a H; [done|]. cbn [store_bytes length] in *. rewrite IH by lia. apply load8_store8_ne. lia.
Qed.

Definition byte_list (l : list Z) : Prop := Forall (fun b => 0 <= b < 256) l.

Lemma load_store_bytes l m a : byte_list l -> load_bytes (length l) (store_bytes m a l) a = l.
Proof.
  intros H. revert m a. induction H as [|x l Hx H IH]; intros m a; [done|]. cbn [length load_bytes store_bytes].
  rewrite load8_store_bytes_out by lia. rewrite load8_store8_eq, Z.mod_small by lia. by rewrite IH.
Qed.

Lemma load_bytes_range n m a : byte_list (load_bytes n m a).
Proof. revert a. induction n as [|n IH]; intros a; constructor; [apply load8_range|apply IH]. Qed.

Lemma byte_list_patch off l b : byte_list l -> byte_list b -> byte_list (patch off l b).
Proof. intros Hl Hb. unfold byte_list, patch. rewrite !Forall_app. split_and!; [by apply Forall_take|done|by apply Forall_drop]. Qed.

Lemma byte_list_slice off n b : byte_list b -> byte_list (slice off n b).
Proof. intros H. by apply Forall_take, Forall_drop. Qed.

Lemma byte_list_le n v : byte_list (le_bytes n v).
Proof. revert v. induction n as [|n IH]; intros v; constructor; [lia|apply IH]. Qed.

Lemma byte_list_replicate n v : 0 <= v < 256 -> byte_list (replicate n v).
Proof. intros. by apply Forall_replicate. Qed.

Lemma byte_list_chars s : byte_list (chars s).
Proof.
  unfold byte_list, chars. apply Forall_map, Forall_true. intros c. cbn. pose proof (N_ascii_bounded c). lia.
Qed.

Create HintDb bytes.
#[export] Hint Resolve byte_list_patch byte_list_slice byte_list_le byte_list_chars load_bytes_range : bytes.

(** ** Volumes *)

Abbreviation SECTOR := 512.

Definition sector_at (img : FileImage) (i : Z) : buffer := load_bytes (Z.to_nat SECTOR) (img_bytes img) ((i + img_file_offset img) * SECTOR).

(** The file holds [N] sectors from the offset on, at positions an [int] holds;
    [f] is what is in them, and around them the bytes are those of [m0]. *)
Record volume (m0 : mem) (off size N : Z) (f : Z -> buffer) (img : FileImage) : Prop := {
  vol_sector : img_sector_size img = SECTOR;
  vol_offset : img_file_offset img = off;
  vol_good : img_fail img = false;
  vol_size : img_size img = size;
  vol_inside : 0 <= off /\ (off + N) * SECTOR <= size /\ (off + N) * SECTOR < 2 ^ 31;
  vol_at : forall i, 0 <= i < N -> sector_at img i = f i;
  vol_out : forall a, a < off * SECTOR \/ (off + N) * SECTOR <= a -> load8 (img_bytes img) a = load8 m0 a
}.

Definition upd (f : Z -> buffer) (i : Z) (d : buffer) : Z -> buffer := fun j => if decide (j = i) then d else f j.

Section volume.
Context (m0 : mem) (off size N : Z).
#[local] Abbreviation vol := (volume m0 off size N).

Lemma vol_ext f g img : vol f img -> (forall i, 0 <= i < N -> f i = g i) -> vol g img.
Proof. intros [V1 V2 V3 V4 V5 V6 V7] E. split; try done. intros i Hi. rewrite V6 by done. by apply E. Qed.

Lemma vol_length f img i : vol f img -> 0 <= i < N -> length (f i) = Z.to_nat SECTOR /\ byte_list (f i).
Proof. intros V Hi. rewrite <-(vol_at _ _ _ _ _ _ V i Hi). split; [apply length_load_bytes|apply load_bytes_range]. Qed.

Lemma sector_position_run f img i : vol f img -> 0 <= i < N -> sector_position i img = Ok ((i + off) * SECTOR, img).
Proof.
  intros V Hi. destruct (vol_inside _ _ _ _ _ _ V) as (H1 & H2 & H3). unfold sector_position, int_value, int_range.
  rewrite (bind_ok _ _ img img img) by done. rewrite (vol_sector _ _ _ _ _ _ V), (vol_offset _ _ _ _ _ _ V).
  rewrite !(proj2 (Z.leb_le (- 2 ^ 31) _)), !(proj2 (Z.ltb_lt _ (2 ^ 31))) by lia. cbn [andb].
  rewrite (bind_ok _ _ img (i * SECTOR) img), (bind_ok _ _ img (off * SECTOR) img) by done.
  rewrite (proj2 (Z.leb_le (- 2 ^ 31) _)), (proj2 (Z.ltb_lt _ (2 ^ 31))) by lia. cbn [andb].
  unfold ret. do 2 f_equal. lia.
Qed.

Lemma readSector_run f img i b : vol f img -> 0 <= i < N -> length b = Z.to_nat SECTOR -> readSector i b img = Ok (f i, img).
Proof.
  intros V Hi Hb. unfold readSector. rewrite (bind_ok _ _ img ((i + off) * SECTOR) img) by (by apply (sector_position_run f)).
  rewrite (bind_ok _ _ img img img) by done. destruct (vol_inside _ _ _ _ _ _ V) as (H1 & H2 & H3).
  rewrite (vol_good _ _ _ _ _ _ V), (vol_sector _ _ _ _ _ _ V), (vol_size _ _ _ _ _ _ V).
  rewrite (proj2 (Z.ltb_ge _ 0)) by lia. cbv zeta. rewrite (Z.min_l SECTOR) by lia. rewrite Z.ltb_irrefl.
  rewrite (bind_ok _ _ img tt img) by done. unfold ret. do 2 f_equal.
  rewrite patch_all; [|done|by rewrite length_load_bytes]. rewrite <-(vol_at _ _ _ _ _ _ V i Hi). unfold sector_at. by rewrite (vol_offset _ _ _ _ _ _ V).
Qed.

Lemma writeSector_run f img i d :
  vol f img -> 0 <= i < N -> length d = Z.to_nat SECTOR -> byte_list d ->
  exists img', writeSector i d img = Ok (tt, img') /\ vol (upd f i d) img'.
Proof.
  intros V Hi Hd Hbd. unfold writeSector. rewrite (bind_ok _ _ img ((i + off) * SECTOR) img) by (by apply (sector_position_run f)).
  destruct (vol_inside _ _ _ _ _ _ V) as (H1 & H2 & H3). eexists. split; [reflexivity|].
  rewrite (vol_good _ _ _ _ _ _ V), (vol_sector _ _ _ _ _ _ V), (vol_size _ _ _ _ _ _ V), (vol_offset _ _ _ _ _ _ V).
  rewrite (proj2 (Z.ltb_ge _ 0)) by lia. rewrite <-Hd, firstn_all. rewrite Z.max_l by lia.
  split; cbn [img_sector_size img_file_offset img_fail img_size img_bytes]; try done.
  - intros j Hj. unfold sector_at, upd. cbn [img_bytes img_file_offset]. case_decide as E.
    + subst j. rewrite <-Hd. by apply load_store_bytes.
    + rewrite <-(vol_at _ _ _ _ _ _ V j Hj). unfold sector_at. rewrite (vol_offset _ _ _ _ _ _ V).
      apply load_bytes_ext. intros b Hb. apply load8_store_bytes_out. lia.
  - intros a Ha. rewrite load8_store_bytes_out by lia. by apply (vol_out _ _ _ _ _ _ V).
Qed.
End volume.

(** ** The boot record *)

Definition patches (l : list (Z * list Z)) (b : buffer) : buffer := fold_left (fun b p => patch p.1 p.2 b) l b.

(** What a run of writes does to a buffer that is long enough. *)
Definition fits (n : Z) (p : Z * list Z) : Prop := 0 <= p.1 /\ p.1 + Z.of_nat (length p.2) <= n.

Lemma length_patches l b : Forall (fits (Z.of_nat (length b))) l -> length (patches l b) = length b.
Proof.
  revert b. induction l as [|p l IH]; intros b H; [done|]. apply Forall_cons in H as [[H1 H2] H]. cbn [patches fold_left].
  fold (patches l (patch p.1 p.2 b)). rewrite IH; rewrite length_patch by done; done.
Qed.

Lemma byte_list_patches l b : Forall (fun p => byte_list p.2) l -> byte_list b -> byte_list (patches l b).
Proof.
  revert b. induction l as [|p l IH]; intros b H Hb; [done|]. apply Forall_cons in H as [Hp H]. cbn [patches fold_left].
  apply IH; auto with bytes.
Qed.

(** The bytes of a field: those of the last write to it, if every write is to
    that field or apart from it. *)
Lemma slice_patches_ne o n l b :
  0 <= o -> 0 <= n -> Forall (fits (Z.of_nat (length b))) l -> Forall (fun p => o + n <= p.1 \/ p.1 + Z.of_nat (length p.2) <= o) l ->
  slice o n (patches l b) = slice o n b.
Proof.
  intros Ho Hn. revert b. induction l as [|p l IH]; intros b H Hd; [done|]. apply Forall_cons in H as [[H1 H2] H].
  apply Forall_cons in Hd as [Hp Hd]. cbn [patches fold_left]. fold (patches l (patch p.1 p.2 b)).
  rewrite IH; [by apply slice_patch_ne|rewrite length_patch by done; done|done].
Qed.

Lemma patches_app l1 l2 b : patches (l1 ++ l2) b = patches l2 (patches l1 b).
Proof. unfold patches. apply fold_left_app. Qed.

Lemma slice_patches o n v l1 l2 b :
  0 <= o -> n = Z.of_nat (length v) -> Forall (fits (Z.of_nat (length b))) (l1 ++ (o, v) :: l2) ->
  Forall (fun p => o + n <= p.1 \/ p.1 + Z.of_nat (length p.2) <= o) l2 ->
  slice o n (patches (l1 ++ (o, v) :: l2) b) = v.
Proof.
  intros Ho -> H Hd. apply Forall_app in H as [H1 H]. apply Forall_cons in H as [[_ H2] H3]. cbn in H2.
  rewrite patches_app. cbn [patches fold_left]. cbn [fst snd]. fold (patches l1 b). fold (patches l2 (patch o v (patches l1 b))).
  pose proof (length_patches l1 b H1) as E. assert (E' : length (patch o v (patches l1 b)) = length b) by (rewrite length_patch by lia; done).
  rewrite slice_patches_ne; [apply slice_patch_same; lia|done|lia|by rewrite E'|done].
Qed.

Definition vbr_writes (now fat vol cluster : Z) : list (Z * list Z) :=
  [(3, chars "MSWIN4.1"); (0, [0xEB]); (1, [88]); (2, [0x90]); (11, le_bytes 2 SECTOR); (13, le_bytes 1 cluster); (14, le_bytes 2 32);
   (16, le_bytes 1 2); (17, le_bytes 2 0); (19, le_bytes 2 0); (21, le_bytes 1 0xF0); (22, le_bytes 2 0); (28, le_bytes 4 0);
   (32, le_bytes 4 vol); (36, le_bytes 4 fat); (40, le_bytes 2 1); (42, le_bytes 2 0); (44, le_bytes 4 2); (48, le_bytes 2 1);
   (50, le_bytes 2 6); (64, le_bytes 1 0x80); (65, le_bytes 1 0); (66, le_bytes 1 0x29); (67, le_bytes 4 now); (71, replicate 11 32);
   (71, chars "test"); (82, chars "FAT32   "); (510, le_bytes 2 0x55AA)].

Definition zero_sector : buffer := replicate (Z.to_nat SECTOR) 0.
Definition boot_record (now fat vol cluster : Z) : buffer := patches (vbr_writes now fat vol cluster) zero_sector.

Lemma vbr_fits now fat vol cluster : Forall (fits (Z.of_nat (length zero_sector))) (vbr_writes now fat vol cluster).
Proof. unfold zero_sector. rewrite length_replicate. repeat (constructor; [split; cbn; lia|]). constructor. Qed.

Lemma length_boot_record now fat vol cluster : length (boot_record now fat vol cluster) = Z.to_nat SECTOR.
Proof. unfold boot_record. rewrite length_patches by apply vbr_fits. apply length_replicate. Qed.

Lemma byte_list_boot_record now fat vol cluster : byte_list (boot_record now fat vol cluster).
Proof.
  apply byte_list_patches; [|by apply byte_list_replicate].
  repeat (constructor; [cbn [snd]; first [apply byte_list_le|apply byte_list_chars|apply byte_list_replicate; lia|repeat constructor; lia]|]). constructor.
Qed.

(** A field of the record: the [k]-th write. *)
Lemma boot_record_field k now fat vol cluster o v :
  vbr_writes now fat vol cluster !! k = Some (o, v) ->
  Forall (fun p => o + Z.of_nat (length v) <= p.1 \/ p.1 + Z.of_nat (length p.2) <= o) (drop (S k) (vbr_writes now fat vol cluster)) ->
  slice o (Z.of_nat (length v)) (boot_record now fat vol cluster) = v.
Proof.
  intros Hk Hd. unfold boot_record. pose proof (vbr_fits now fat vol cluster) as F.
  assert (0 <= o) by (apply (Forall_lookup_1 _ _ _ _ F) in Hk as [H _]; exact H).
  rewrite <-(take_drop_middle _ _ _ Hk) in F |- *. apply slice_patches; done.
Qed.

Lemma boot_record_read {S} k n now fat vol cluster o v sz (s : S) :
  vbr_writes now fat vol cluster !! k = Some (o, le_bytes n v) ->
  forallb (fun p => (o + Z.of_nat n <=? p.1) || (p.1 + Z.of_nat (length p.2) <=? o)) (drop (Datatypes.S k) (vbr_writes now fat vol cluster)) = true ->
  sz = Z.of_nat n -> o + Z.of_nat n <= SECTOR ->
  read_at n (boot_record now fat vol cluster) o sz s = Ok (v mod 2 ^ (8 * Z.of_nat n), s).
Proof.
  intros Hk Hd -> Ho. rewrite read_at_run by (auto || rewrite length_boot_record; lia). do 2 f_equal.
  pose proof (boot_record_field k now fat vol cluster o (le_bytes n v) Hk) as E. rewrite length_le_bytes in E.
  rewrite E; [apply le_value_bytes|]. rewrite Forall_forall. intros p Hp. rewrite forallb_forall in Hd. specialize (Hd p).
  rewrite <-list_elem_of_In in Hd. specialize (Hd Hp). lia.
Qed.

Section record_.
Context (now fat vol cluster : Z).
Hypothesis fat_ok : 0 < fat < 2 ^ 31.
Hypothesis vol_ok : 32 + 2 * fat <= vol < 2 ^ 32.
Hypothesis cluster_ok : 0 < cluster < 256.
#[local] Abbreviation vbr := (boot_record now fat vol cluster).
Context {S : Type}.
Implicit Types s : S.

Lemma vbr_sector_size s : getSectorSizeInBytes vbr s = Ok (SECTOR, s).
Proof. exact (boot_record_read 4 2 now fat vol cluster 11 SECTOR 2 s eq_refl eq_refl eq_refl ltac:(lia)). Qed.
Lemma vbr_fat_start s : getFatAreaStart vbr s = Ok (32, s).
Proof. exact (boot_record_read 6 2 now fat vol cluster 14 32 2 s eq_refl eq_refl eq_refl ltac:(lia)). Qed.
Lemma vbr_info_sector s : getFSInfoSectorOffset vbr s = Ok (1, s).
Proof. exact (boot_record_read 18 2 now fat vol cluster 48 1 2 s eq_refl eq_refl eq_refl ltac:(lia)). Qed.
Lemma vbr_backup s : read_at 2 vbr VBR_OFFSET_BK_BOOT_SEC VBR_SIZE_BK_BOOT_SEC s = Ok (6, s).
Proof. exact (boot_record_read 19 2 now fat vol cluster 50 6 2 s eq_refl eq_refl eq_refl ltac:(lia)). Qed.
Lemma vbr_media s : read_at 1 vbr VBR_OFFSET_MEDIA VBR_SIZE_MEDIA s = Ok (0xF0, s).
Proof. exact (boot_record_read 10 1 now fat vol cluster 21 0xF0 1 s eq_refl eq_refl eq_refl ltac:(lia)). Qed.
Lemma vbr_root s : read_at 4 vbr VBR_OFFSET_ROOT_CLUS VBR_SIZE_ROOT_CLUS s = Ok (2, s).
Proof. exact (boot_record_read 17 4 now fat vol cluster 44 2 4 s eq_refl eq_refl eq_refl ltac:(lia)). Qed.
Lemma vbr_fats s : read_at 1 vbr VBR_OFFSET_NUM_FATS VBR_SIZE_NUM_FATS s = Ok (2, s).
Proof. exact (boot_record_read 7 1 now fat vol cluster 16 2 1 s eq_refl eq_refl eq_refl ltac:(lia)). Qed.
Lemma vbr_fat_size s : read_at 4 vbr VBR_OFFSET_FAT_SZ_32 VBR_SIZE_FAT_SZ_32 s = Ok (fat, s).
Proof.
  pose proof (boot_record_read 14 4 now fat vol cluster 36 fat 4 s eq_refl eq_refl eq_refl ltac:(lia)) as E.
  rewrite Z.mod_small in E by lia. exact E.
Qed.
Lemma vbr_total s : read_at 4 vbr VBR_OFFSET_TOT_SEC_32 VBR_SIZE_TOT_SEC_32 s = Ok (vol, s).
Proof.
  pose proof (boot_record_read 13 4 now fat vol cluster 32 vol 4 s eq_refl eq_refl eq_refl ltac:(lia)) as E.
  rewrite Z.mod_small in E by lia. exact E.
Qed.
Lemma vbr_cluster s : getClusterSizeInSectors vbr s = Ok (cluster, s).
Proof.
  pose proof (boot_record_read 5 1 now fat vol cluster 13 cluster 1 s eq_refl eq_refl eq_refl ltac:(lia)) as E.
  rewrite Z.mod_small in E by lia. exact E.
Qed.

Lemma vbr_fat_area s : getFatAreaSize vbr s = Ok (2 * fat, s).
Proof.
  unfold getFatAreaSize. rewrite (bind_ok _ _ s 2 s (vbr_fats s)), (bind_ok _ _ s fat s (vbr_fat_size s)).
  rewrite wrap_small by lia. done.
Qed.
Lemma vbr_data_first s : getDataAreaFirstSector vbr s = Ok (32 + 2 * fat, s).
Proof.
  unfold getDataAreaFirstSector. rewrite (bind_ok _ _ s 32 s (vbr_fat_start s)), (bind_ok _ _ s 2 s (vbr_fats s)), (bind_ok _ _ s fat s (vbr_fat_size s)).
  rewrite (wrap_small 32 (2 * fat)), wrap_small by lia. done.
Qed.
Lemma vbr_data_size s : getDataAreaSize vbr s = Ok (vol - (32 + 2 * fat), s).
Proof.
  unfold getDataAreaSize. rewrite (bind_ok _ _ s vol s (vbr_total s)), (bind_ok _ _ s (32 + 2 * fat) s (vbr_data_first s)).
  rewrite wrap_small by lia. done.
Qed.
Lemma vbr_clusters s : getClusterCount vbr s = Ok ((vol - (32 + 2 * fat)) / cluster, s).
Proof.
  unfold getClusterCount. rewrite (bind_ok _ _ s (vol - (32 + 2 * fat)) s (vbr_data_size s)), (bind_ok _ _ s cluster s (vbr_cluster s)).
  by rewrite (proj2 (Z.eqb_neq _ _)) by lia.
Qed.
(** Only the first cluster is found where the data area has it. *)
Lemma vbr_first_sector s : getFirstSectorOfCluster vbr 2 s = Ok (32 + 2 * fat, s).
Proof.
  unfold getFirstSectorOfCluster. rewrite (bind_ok _ _ s (32 + 2 * fat) s (vbr_data_first s)), (bind_ok _ _ s SECTOR s (vbr_sector_size s)).
  change (wrap32 (wrap32 (2 - 2) * SECTOR)) with 0. rewrite wrap_small by lia. unfold ret. do 2 f_equal. lia.
Qed.
End record_.

(** One write to a buffer of a sector. *)
Lemma write_step n off v size (k : unit -> M buffer unit) b :
  length b = Z.to_nat SECTOR -> 0 <= off -> off + Z.of_nat n <= SECTOR -> size = 0 \/ size = Z.of_nat n ->
  let b' := patch off (le_bytes n v) b in
  length b' = Z.to_nat SECTOR /\ bind (write_at n off v size) k b = k tt b'.
Proof.
  intros E H0 H Hs b'. split.
  - unfold b'. rewrite length_patch; [done|done|]. rewrite length_le_bytes. lia.
  - rewrite (bind_ok _ k b tt b'); [done|]. apply write_at_run; [done|lia].
Qed.

Lemma copy_step off l (k : unit -> M buffer unit) b :
  length b = Z.to_nat SECTOR -> 0 <= off -> off + Z.of_nat (length l) <= SECTOR ->
  let b' := patch off l b in
  length b' = Z.to_nat SECTOR /\ bind (copy_to off l) k b = k tt b'.
Proof.
  intros E H0 H b'. split.
  - unfold b'. rewrite length_patch; [done|done|lia].
  - rewrite (bind_ok _ k b tt b'); [done|]. apply copy_to_run. lia.
Qed.

(** The next write of a sequence from a buffer whose length is known. *)
Ltac next_write :=
  match goal with
  | E : length ?b = Z.to_nat SECTOR |- bind (write_at ?n ?o ?v ?sz) ?k ?b = _ =>
      let E' := fresh "E" in let R := fresh "R" in
      destruct (write_step n o v sz k b E) as [E' R]; [by vm_compute|by vm_compute|first [left; reflexivity | right; reflexivity]|]; rewrite R; clear R; cbv beta
  | E : length ?b = Z.to_nat SECTOR |- bind (copy_to ?o ?l) ?k ?b = _ =>
      let E' := fresh "E" in let R := fresh "R" in
      destruct (copy_step o l k b E) as [E' R]; [by vm_compute|by vm_compute|]; rewrite R; clear R; cbv beta
  end.

(** What was written last reads back. *)
Lemma read_back {S} off v b (s : S) :
  length b = Z.to_nat SECTOR -> 0 <= off -> off + 4 <= SECTOR -> 0 <= v < 2 ^ 32 ->
  read_at 4 (patch off (le_bytes 4 v) b) off 4 s = Ok (v, s).
Proof.
  intros E H0 H Hv. rewrite read_at_run; [|by right|rewrite length_patch; rewrite ?length_le_bytes; lia].
  change (Z.of_nat 4) with (Z.of_nat (length (le_bytes 4 v))). rewrite slice_patch_same by (rewrite ?length_le_bytes; lia).
  rewrite le_value_bytes, Z.mod_small by lia. done.
Qed.

Lemma makeFat32VBR_run now fat vol cluster junk :
  0 < fat < 2 ^ 31 -> vol < 2 ^ 32 -> 0 < cluster < 256 -> MIN_FAT32_CLUSTERS * cluster <= vol - (32 + 2 * fat) ->
  length junk = Z.to_nat SECTOR ->
  makeFat32VBR now "test" fat vol cluster SECTOR junk = Ok (tt, boot_record now fat vol cluster).
Proof.
  intros Hf Hv Hc Hm E. unfold MIN_FAT32_CLUSTERS in Hm. assert (Hvol : 32 + 2 * fat <= vol < 2 ^ 32) by lia.
  unfold makeFat32VBR. cbv zeta. rewrite (bind_ok _ _ junk tt junk), (bind_ok _ _ junk tt junk) by done.
  unfold memset_. rewrite (bind_ok _ _ junk tt zero_sector).
  2:{ rewrite copy_to_run by (rewrite length_replicate; lia). rewrite patch_all; [done|done|by rewrite length_replicate]. }
  clear E. assert (E : length zero_sector = Z.to_nat SECTOR) by apply length_replicate.
  do 15 next_write.
  match goal with |- bind get ?k ?b = _ => rewrite (bind_ok get k b b b) by done; cbv beta end.
  match goal with |- bind (read_at 4 ?b _ _) ?k ?b = _ => rewrite (bind_ok _ k b fat b) by (apply read_back; [assumption|by vm_compute|by vm_compute|lia]) end.
  unfold assert_ at 1. rewrite Z.eqb_refl. match goal with |- bind (ret tt) ?k ?b = _ => rewrite (bind_ok (ret tt) k b tt b) by done end.
  do 13 next_write.
  match goal with |- bind get ?k ?b = _ => rewrite (bind_ok get k b b b) by done; cbv beta; replace b with (boot_record now fat vol cluster) by (unfold boot_record, patches, vbr_writes; cbn [fold_left fst snd]; repeat (apply (f_equal3 patch); [reflexivity|reflexivity|]); reflexivity) end.
  repeat match goal with E : length (patch _ _ _) = _ |- _ => clear E end.
  set (vbr := boot_record now fat vol cluster).
  rewrite (bind_ok (read_at 2 vbr VBR_OFFSET_RSVD_SEC_CNT VBR_SIZE_RSVD_SEC_CNT) _ vbr 32 vbr (vbr_fat_start now fat vol cluster vbr)), (bind_ok _ _ _ _ _ (vbr_data_size now fat vol cluster Hf Hvol _)),
    (bind_ok _ _ _ _ _ (vbr_fat_area now fat vol cluster Hf Hvol _)).
  unfold assert_. rewrite (wrap_small 32 (_ + _ + _)) by lia. rewrite (proj2 (Z.eqb_eq _ vol)) by lia.
  rewrite (bind_ok (ret tt) _ (boot_record now fat vol cluster) tt (boot_record now fat vol cluster)) by done.
  rewrite (wrap_small 32 (2 * fat)), (wrap_small 32 (32 + 2 * fat - 1)) by lia. rewrite (proj2 (Z.ltb_ge vol _)) by lia.
  rewrite (bind_ok (when false _) _ (boot_record now fat vol cluster) tt (boot_record now fat vol cluster)) by done.
  rewrite (bind_ok _ _ _ _ _ (vbr_clusters now fat vol cluster Hf Hvol Hc _)).
  rewrite (proj2 (Z.ltb_ge _ MIN_FAT32_CLUSTERS)); [done|]. unfold MIN_FAT32_CLUSTERS. apply Z.div_le_lower_bound; lia.
Qed.

(** ** The information sector *)

Definition info_writes (clusters : Z) : list (Z * list Z) :=
  [(0, le_bytes 4 0x41615252); (484, le_bytes 4 0x61417272); (488, le_bytes 4 clusters); (492, le_bytes 4 3); (508, le_bytes 4 0xAA550000)].
Definition info_sector (clusters : Z) : buffer := patches (info_writes clusters) zero_sector.

Lemma info_fits clusters : Forall (fits (Z.of_nat (length zero_sector))) (info_writes clusters).
Proof. unfold zero_sector. rewrite length_replicate. repeat (constructor; [split; cbn; lia|]). constructor. Qed.

Lemma info_sector_ok clusters : length (info_sector clusters) = Z.to_nat SECTOR /\ byte_list (info_sector clusters).
Proof.
  unfold info_sector. split; [rewrite length_patches by apply info_fits; apply length_replicate|].
  apply byte_list_patches; [|by apply byte_list_replicate]. repeat (constructor; [apply byte_list_le|]). constructor.
Qed.

Lemma makeFSInfoSector_run now fat vol cluster junk :
  0 < fat < 2 ^ 31 -> 32 + 2 * fat <= vol < 2 ^ 32 -> 0 < cluster < 256 -> length junk = Z.to_nat SECTOR ->
  makeFSInfoSector (boot_record now fat vol cluster) junk = Ok (tt, info_sector ((vol - (32 + 2 * fat)) / cluster)).
Proof.
  intros Hf Hv Hc E. unfold makeFSInfoSector. rewrite (bind_ok _ _ _ _ _ (vbr_sector_size now fat vol cluster _)).
  unfold memset_. rewrite (bind_ok _ _ junk tt zero_sector).
  2:{ rewrite copy_to_run by (rewrite length_replicate; lia). rewrite patch_all; [done|done|by rewrite length_replicate]. }
  clear E. assert (E : length zero_sector = Z.to_nat SECTOR) by apply length_replicate.
  rewrite (bind_ok _ _ _ _ _ (vbr_root now fat vol cluster _)). do 2 next_write.
  rewrite (bind_ok _ _ _ _ _ (vbr_clusters now fat vol cluster Hf Hv Hc _)). do 2 next_write.
  rewrite write_at_run; [done|by right|]. match goal with E : length ?b = _ |- _ <= Z.of_nat (length ?b) => rewrite E; by vm_compute end.
Qed.

(** ** Entries of the allocation table *)

Definition fat_start (f : Z -> buffer) : Z := le_value (slice 14 2 (f 0)).
Definition fat_sector (f : Z -> buffer) (e : Z) : Z := fat_start f + e / 128.
Definition fat_entry (f : Z -> buffer) (e : Z) : Z := le_value (slice (e mod 128 * 4) 4 (f (fat_sector f e))).
Definition set_fat_entry (f : Z -> buffer) (e v : Z) : Z -> buffer :=
  upd f (fat_sector f e) (patch (e mod 128 * 4) (le_bytes 4 v) (f (fat_sector f e))).

Section table.
Context (m0 : mem) (off size N : Z).
#[local] Abbreviation vol := (volume m0 off size N).
Implicit Types (f : Z -> buffer) (img : FileImage).

Lemma N_int f img : vol f img -> N < 2 ^ 31.
Proof. intros V. destruct (vol_inside _ _ _ _ _ _ V). lia. Qed.

Lemma to_i32_small x : 0 <= x < 2 ^ 31 -> to_i32 x = x.
Proof. intros H. unfold to_i32. rewrite wrap_small by lia. by rewrite (proj2 (Z.ltb_lt _ _)) by lia. Qed.

Lemma new_sector_run f img : vol f img -> new_sector img = Ok (zero_sector, img).
Proof. intros V. unfold new_sector, gets. by rewrite (vol_sector _ _ _ _ _ _ V). Qed.

Lemma length_zero_sector : length zero_sector = Z.to_nat SECTOR.
Proof. apply length_replicate. Qed.

Lemma read_vbr f img b : vol f img -> 0 < N -> length b = Z.to_nat SECTOR -> readSector 0 b img = Ok (f 0, img).
Proof. intros V HN Hb. by apply (readSector_run m0 off size N); [| lia|]. Qed.

Lemma fat_start_read {S} f img (s : S) : vol f img -> 0 < N -> getFatAreaStart (f 0) s = Ok (fat_start f, s).
Proof. intros V HN. apply read_at_run; [by right|]. destruct (vol_length _ _ _ _ f img 0 V) as [E _]; [lia|]. rewrite E. by vm_compute. Qed.

Lemma fat_position_run f img e :
  vol f img -> 0 <= e < 2 ^ 30 -> 0 <= fat_start f -> fat_sector f e < N ->
  fat_position e img = Ok ((fat_sector f e, e mod 128 * 4, f 0), img).
Proof.
  intros V He Hst Hs. pose proof (N_int f img V). unfold fat_sector in *. assert (0 <= e / 128) by (apply Z.div_pos; lia).
  unfold fat_position. rewrite (bind_ok _ _ _ _ _ (new_sector_run f img V)).
  rewrite (bind_ok _ _ _ _ _ (read_vbr f img _ V ltac:(lia) length_zero_sector)), (bind_ok _ _ _ _ _ (fat_start_read f img img V ltac:(lia))).
  rewrite (bind_ok _ _ img SECTOR img) by (unfold gets; by rewrite (vol_sector _ _ _ _ _ _ V)).
  cbn [Z.eqb]. rewrite (wrap_small 32 (e * 4)), (wrap_small 32 SECTOR) by lia.
  replace (e * 4 / SECTOR) with (e / 128) by lia. replace ((e * 4) mod SECTOR) with (e mod 128 * 4) by lia. rewrite to_i32_small by lia. done.
Qed.

Lemma readFatEntry_run f img e :
  vol f img -> 0 <= e < 2 ^ 30 -> 0 <= fat_start f -> fat_sector f e < N -> readFatEntry e img = Ok (fat_entry f e, img).
Proof.
  intros V He Hst Hs. unfold readFatEntry. rewrite (bind_ok _ _ _ _ _ (fat_position_run f img e V He Hst Hs)).
  assert (Hi : 0 <= fat_sector f e < N) by (unfold fat_sector in *; lia).
  assert (0 < N) by lia. destruct (vol_length _ _ _ _ f img 0 V) as [E0 _]; [lia|]. destruct (vol_length _ _ _ _ f img _ V Hi) as [E1 _].
  rewrite (bind_ok _ _ _ _ _ (readSector_run m0 off size N f img _ (f 0) V Hi E0)). apply read_at_run; [by left|]. rewrite E1. lia.
Qed.

Lemma writeFatEntry_run f img e v :
  vol f img -> 0 <= e < 2 ^ 30 -> 0 <= fat_start f -> fat_sector f e < N ->
  exists img', writeFatEntry e v img = Ok (tt, img') /\ vol (set_fat_entry f e v) img'.
Proof.
  intros V He Hst Hs. unfold writeFatEntry. rewrite (bind_ok _ _ _ _ _ (fat_position_run f img e V He Hst Hs)).
  assert (Hi : 0 <= fat_sector f e < N) by (unfold fat_sector in *; lia).
  assert (0 < N) by lia. destruct (vol_length _ _ _ _ f img 0 V) as [E0 _]; [lia|]. destruct (vol_length _ _ _ _ f img _ V Hi) as [E1 B1].
  rewrite (bind_ok _ _ _ _ _ (readSector_run m0 off size N f img _ (f 0) V Hi E0)).
  rewrite (bind_ok _ _ img (patch (e mod 128 * 4) (le_bytes 4 v) (f (fat_sector f e))) img).
  2:{ apply on_run, write_at_run; [by left|]. rewrite E1. lia. }
  apply writeSector_run; [done|done| |auto with bytes]. rewrite length_patch; [done|lia|]. rewrite length_le_bytes, E1. lia.
Qed.

Lemma set_fat_entry_start f e v : 0 < fat_start f -> 0 <= e -> fat_start (set_fat_entry f e v) = fat_start f.
Proof. intros H He. unfold fat_start at 1, set_fat_entry, upd. rewrite decide_False; [done|]. unfold fat_sector. lia. Qed.

(** An entry that was written reads back, the others are as before. *)
Lemma fat_entry_set f e v e' :
  length (f (fat_sector f e)) = Z.to_nat SECTOR -> 0 < fat_start f -> 0 <= e -> 0 <= e' ->
  fat_entry (set_fat_entry f e v) e' = if decide (e' = e) then v mod 2 ^ 32 else fat_entry f e'.
Proof.
  intros E1 Hst He He'. unfold fat_entry at 1, fat_sector at 1. rewrite set_fat_entry_start by done. fold (fat_sector f e').
  unfold set_fat_entry, upd. destruct (decide (fat_sector f e' = fat_sector f e)) as [D|D].
  - destruct (decide (e' = e)) as [D'|D'].
    + subst e'. change 4 with (Z.of_nat (length (le_bytes 4 v))) at 2. rewrite slice_patch_same; [apply le_value_bytes|lia|]. rewrite length_le_bytes, E1. lia.
    + rewrite slice_patch_ne; [by unfold fat_entry; rewrite D|lia|rewrite length_le_bytes, E1; lia|lia|lia|].
      rewrite length_le_bytes. unfold fat_sector in D. lia.
  - destruct (decide (e' = e)) as [D'|D']; [by subst|done].
Qed.
End table.
