(* ===== verification/Fat32Volume.v ===== *)
(** * The formatted volume

    Every routine of the tool as an update of the sectors, and the volume they
    leave together. *)

From Stdlib Require Import String Ascii.
From stdpp Require Import list.
From S2P Require Import Prelude Memory Fat32 Fat32Top.

Definition zeroed (f : Z -> buffer) (start n : Z) : Z -> buffer := fun i => if decide (start <= i < start + n) then zero_sector else f i.

(** The entries of a directory sector marked free. *)
Definition freed (b : buffer) : buffer := imap (fun i x => if decide (i mod 32 = 0)%nat then 0 else x) b.
Definition freed_sectors (f : Z -> buffer) (start n : Z) : Z -> buffer := fun i => if decide (start <= i < start + n) then freed (f i) else f i.

(** The boot code after the first 420 bytes, in sectors from 9 on. *)
Definition code_chunk (code : list Z) (k : Z) : list Z := slice (VBR_SIZE_BOOT_CODE_32 + SECTOR * k) SECTOR code.
Definition code_sectors (f : Z -> buffer) (code : list Z) (k0 : Z) : Z -> buffer := fun i =>
  if decide (9 + k0 <= i /\ VBR_SIZE_BOOT_CODE_32 + SECTOR * (i - 9) < Z.of_nat (length code)) then patch 0 (code_chunk code (i - 9)) (f i) else f i.

Section ops.
Context (m0 : mem) (off size N : Z).
#[local] Abbreviation vol := (volume m0 off size N).
Implicit Types (f : Z -> buffer) (img : FileImage).

Lemma zero_sector_bytes : byte_list zero_sector.
Proof. by apply byte_list_replicate. Qed.

Lemma zero_sectors_run n f img start i :
  vol f img -> 0 <= start -> 0 <= i -> start + i + Z.of_nat n <= N ->
  exists img', zero_sectors n start i zero_sector img = Ok (tt, img') /\ vol (zeroed f (start + i) (Z.of_nat n)) img'.
Proof.
  intros V Hs. revert f img i V. induction n as [|n IH]; intros f img i V Hi Hn.
  - exists img. split; [done|]. eapply vol_ext; [exact V|]. intros j Hj. unfold zeroed. by rewrite decide_False by lia.
  - cbn [zero_sectors]. pose proof (N_int _ _ _ _ _ _ V). unfold int_value, int_range.
    rewrite (proj2 (Z.leb_le _ (start + i))), (proj2 (Z.ltb_lt (start + i) _)) by lia. cbn [andb].
    rewrite (bind_ok _ _ img (start + i) img) by done.
    destruct (writeSector_run m0 off size N f img (start + i) zero_sector V) as (img1 & R1 & V1); [lia|apply length_zero_sector|apply zero_sector_bytes|].
    rewrite (bind_ok _ _ _ _ _ R1). destruct (IH _ img1 (i + 1) V1) as (img2 & R2 & V2); [lia|lia|].
    exists img2. split; [exact R2|]. eapply vol_ext; [exact V2|]. intros j Hj. unfold zeroed, upd. repeat case_decide; try done; lia.
Qed.

Lemma backup_step n f img i b :
  vol f img -> 0 <= i -> i + 6 < N -> length b = Z.to_nat SECTOR ->
  exists img', vol (upd f (i + 6) (f i)) img' /\ length (f i) = Z.to_nat SECTOR /\
    backup_sectors (S n) i 6 b img = backup_sectors n (i + 1) 6 (f i) img'.
Proof.
  intros V Hi Hn Hb. pose proof (N_int _ _ _ _ _ _ V). destruct (vol_length _ _ _ _ f img i V ltac:(lia)) as [E B]. cbn [backup_sectors].
  rewrite (bind_ok _ _ _ _ _ (readSector_run m0 off size N f img i b V ltac:(lia) Hb)). rewrite to_i32_small by lia.
  destruct (writeSector_run m0 off size N f img (i + 6) (f i) V) as (img1 & R1 & V1); [lia|done|done|].
  exists img1. split; [done|]. split; [done|]. by rewrite (bind_ok _ _ _ _ _ R1).
Qed.

(** *** Directory entries *)

Definition freed_to (n : Z) (b : buffer) : buffer := imap (fun i x => if decide ((i mod 32 = 0)%nat /\ Z.of_nat i < n) then 0 else x) b.

Lemma length_freed_to n b : length (freed_to n b) = length b.
Proof. apply length_imap. Qed.

Lemma freed_to_step k b :
  length b = Z.to_nat SECTOR -> 0 <= k < 16 -> patch (32 * k) (le_bytes 1 0) (freed_to (32 * k) b) = freed_to (32 * (k + 1)) b.
Proof.
  intros Hb Hk. apply list_eq. intros i. unfold patch. cbn [le_bytes]. change (0 mod 256) with 0.
  destruct (decide (i < length b)%nat) as [Hi|Hi].
  2:{ rewrite !lookup_ge_None_2; [done|rewrite length_freed_to; lia|].
      rewrite !length_app, length_take, length_drop, length_freed_to. cbn [length]. lia. }
  destruct (lookup_lt_is_Some_2 b i Hi) as [x Hx].
  destruct (decide (i < Z.to_nat (32 * k))%nat).
  { rewrite lookup_app_l by (rewrite length_take, length_freed_to; lia). rewrite lookup_take_lt by lia.
    unfold freed_to. rewrite !list_lookup_imap, Hx. cbn [fmap option_fmap option_map]. repeat case_decide; try done; lia. }
  rewrite lookup_app_r by (rewrite length_take, length_freed_to; lia). rewrite length_take, length_freed_to.
  rewrite Nat.min_l by lia. destruct (decide (i = Z.to_nat (32 * k))) as [->|].
  - rewrite Nat.sub_diag. cbn [lookup list_lookup app]. unfold freed_to. rewrite list_lookup_imap, Hx. cbn [fmap option_fmap option_map]. rewrite decide_True; [done|].
    split; [|lia]. replace (Z.to_nat (32 * k)) with (Z.to_nat k * 32)%nat by lia. apply Nat.Div0.mod_mul.
  - rewrite lookup_app_r by (cbn; lia). rewrite lookup_drop. cbn [length]. replace (Z.to_nat (32 * k) + 1 + (i - Z.to_nat (32 * k) - 1))%nat with i by lia.
    unfold freed_to. rewrite !list_lookup_imap, Hx. cbn [fmap option_fmap option_map]. repeat case_decide; try done; try lia.
    exfalso. destruct H0 as [M L]. apply Nat.Div0.mod_divides in M as [c ->]. lia.
Qed.

Lemma free_entries_loop n fuel k b :
  length b = Z.to_nat SECTOR -> 0 <= k -> k + Z.of_nat n = 16 -> (n < fuel)%nat ->
  free_entries fuel (32 * k) SECTOR (freed_to (32 * k) b) = Ok (tt, freed_to SECTOR b).
Proof.
  intros Hb. revert fuel k. induction n as [|n IH]; intros fuel k Hk Hn Hf; destruct fuel as [|fuel]; try lia; cbn [free_entries].
  - rewrite (proj2 (Z.ltb_ge _ _)) by lia. replace k with 16 by lia. done.
  - rewrite (proj2 (Z.ltb_lt _ _)) by lia. rewrite (bind_ok _ _ _ tt (freed_to (32 * (k + 1)) b)).
    + replace (32 * k + 32) with (32 * (k + 1)) by lia. apply IH; lia.
    + rewrite write_at_run; [|by left|rewrite length_freed_to; lia]. unfold DIRECTORY_ENTRY_FREE_AND_AFTER_FREE. by rewrite freed_to_step by lia.
Qed.

Lemma free_entries_run b : length b = Z.to_nat SECTOR -> free_entries (S (Z.to_nat SECTOR)) 0 SECTOR b = Ok (tt, freed b).
Proof.
  intros Hb. pose proof (free_entries_loop 16 (S (Z.to_nat SECTOR)) 0 b Hb) as R. change (32 * 0) with 0 in R.
  replace (freed_to 0 b) with b in R.
  2:{ apply list_eq. intros i. unfold freed_to. rewrite list_lookup_imap. destruct (b !! i); [|done].
      cbn [fmap option_fmap option_map]. rewrite decide_False by lia. done. }
  rewrite R by lia. do 2 f_equal. apply list_eq. intros i. unfold freed_to, freed. rewrite !list_lookup_imap.
  destruct (b !! i) as [x|] eqn:Hx; [|done]. apply lookup_lt_Some in Hx. cbn [fmap option_fmap option_map].
  repeat case_decide; try done; exfalso; naive_solver lia.
Qed.

Lemma freed_ok b : length b = Z.to_nat SECTOR -> byte_list b -> length (freed b) = Z.to_nat SECTOR /\ byte_list (freed b).
Proof.
  intros Hb B. split; [unfold freed; by rewrite length_imap|]. apply Forall_lookup_2. intros i x. unfold freed. rewrite list_lookup_imap.
  destruct (b !! i) as [y|] eqn:Hy; [|done]. intros [= <-]. case_decide; [lia|]. by apply (Forall_lookup_1 _ _ _ _ B Hy).
Qed.

Lemma free_cluster_run n f img first s_off b :
  vol f img -> 0 <= first -> 0 <= s_off -> first + s_off + Z.of_nat n <= N -> length b = Z.to_nat SECTOR ->
  exists img', free_cluster n first s_off b img = Ok (tt, img') /\ vol (freed_sectors f (first + s_off) (Z.of_nat n)) img'.
Proof.
  intros V Hf. revert f img s_off b V. induction n as [|n IH]; intros f img s_off b V Hs Hn Hb.
  - exists img. split; [done|]. eapply vol_ext; [exact V|]. intros j Hj. unfold freed_sectors. by rewrite decide_False by lia.
  - cbn [free_cluster]. pose proof (N_int _ _ _ _ _ _ V). rewrite to_i32_small by lia.
    destruct (vol_length _ _ _ _ f img (first + s_off) V ltac:(lia)) as [E B]. destruct (freed_ok _ E B) as [E1 B1].
    rewrite (bind_ok _ _ _ _ _ (readSector_run m0 off size N f img (first + s_off) b V ltac:(lia) Hb)).
    rewrite (bind_ok _ _ img SECTOR img) by (unfold gets; by rewrite (vol_sector _ _ _ _ _ _ V)).
    rewrite (bind_ok _ _ _ _ _ (on_run _ _ _ img (free_entries_run _ E))).
    destruct (writeSector_run m0 off size N f img (first + s_off) (freed (f (first + s_off))) V) as (img1 & R1 & V1); [lia|done|done|].
    rewrite (bind_ok _ _ _ _ _ R1). destruct (IH _ img1 (s_off + 1) _ V1 ltac:(lia) ltac:(lia) E1) as (img2 & R2 & V2).
    exists img2. split; [exact R2|]. eapply vol_ext; [exact V2|]. intros j Hj. unfold freed_sectors, upd. repeat case_decide; try lia; by subst.
Qed.

(** *** Boot code *)

Lemma code_chunk_length code k : 0 <= k -> Z.of_nat (length (code_chunk code k)) = Z.max 0 (Z.min SECTOR (Z.of_nat (length code) - (VBR_SIZE_BOOT_CODE_32 + SECTOR * k))).
Proof. intros Hk. unfold code_chunk, slice. rewrite length_take, length_drop. unfold VBR_SIZE_BOOT_CODE_32. lia. Qed.

Lemma code_chunk_slice code k :
  0 <= k -> slice (VBR_SIZE_BOOT_CODE_32 + SECTOR * k)
    (let left := Z.of_nat (length code) - (VBR_SIZE_BOOT_CODE_32 + SECTOR * k) in if SECTOR <? left then SECTOR else left) code = code_chunk code k.
Proof.
  intros Hk. cbv zeta. destruct (Z.ltb_spec SECTOR (Z.of_nat (length code) - (VBR_SIZE_BOOT_CODE_32 + SECTOR * k))); [done|].
  unfold code_chunk, slice, VBR_SIZE_BOOT_CODE_32 in *. rewrite !take_ge; [done|rewrite length_drop; lia..].
Qed.

Lemma write_code_run n fuel code f img k vbr b :
  vol f img -> 0 <= k -> (forall s : FileImage, getFatAreaStart vbr s = Ok (32, s)) -> byte_list code ->
  Z.of_nat (length code) <= VBR_SIZE_BOOT_CODE_32 + SECTOR * 23 -> 32 <= N -> length b = Z.to_nat SECTOR ->
  Z.of_nat n = Z.max 0 (Z.of_nat (length code) - (VBR_SIZE_BOOT_CODE_32 + SECTOR * k)) -> (n < fuel)%nat ->
  exists img', write_code fuel code (Z.min (Z.of_nat (length code)) (VBR_SIZE_BOOT_CODE_32 + SECTOR * k)) (9 + k) vbr b img = Ok (tt, img') /\
    vol (code_sectors f code k) img'.
Proof.
  intros V Hk Hv Hc Hl HN Hb Hn Hf. revert n fuel f img k b V Hk Hb Hn Hf.
  induction n as [n IH] using lt_wf_ind; intros fuel f img k b V Hk Hb Hn Hf.
  destruct fuel as [|fuel]; [lia|]. cbn [write_code]. unfold VBR_SIZE_BOOT_CODE_32 in *. destruct (decide (n = 0%nat)) as [->|Hn0].
  - rewrite (proj2 (Z.ltb_ge _ _)) by lia. exists img. split; [done|]. eapply vol_ext; [exact V|]. intros j Hj. unfold code_sectors, VBR_SIZE_BOOT_CODE_32.
    by rewrite decide_False by lia.
  - rewrite (proj2 (Z.ltb_lt _ _)) by lia. rewrite (Z.min_r (Z.of_nat (length code))) by lia.
    rewrite (bind_ok _ _ _ _ _ (Hv img)). unfold assert_. rewrite (proj2 (Z.ltb_lt (9 + k) 32)) by lia. rewrite (bind_ok (ret tt) _ img tt img) by done.
    destruct (vol_length _ _ _ _ f img (9 + k) V ltac:(lia)) as [E B].
    rewrite (bind_ok _ _ _ _ _ (readSector_run m0 off size N f img (9 + k) b V ltac:(lia) Hb)).
    rewrite (bind_ok _ _ img SECTOR img) by (unfold gets; by rewrite (vol_sector _ _ _ _ _ _ V)).
    cbv zeta. rewrite (proj2 (Z.ltb_lt 0 _)) by lia. rewrite (bind_ok (ret tt) _ img tt img) by done.
    pose proof (code_chunk_slice code k Hk) as Ec. pose proof (code_chunk_length code k Hk) as El. cbv zeta in Ec. unfold VBR_SIZE_BOOT_CODE_32 in Ec, El. rewrite Ec.
    rewrite (bind_ok _ _ img (patch 0 (code_chunk code k) (f (9 + k))) img) by (apply on_run, copy_to_run; lia).
    destruct (writeSector_run m0 off size N f img (9 + k) (patch 0 (code_chunk code k) (f (9 + k))) V) as (img1 & R1 & V1);
      [lia|rewrite length_patch; lia|apply byte_list_patch; [by apply byte_list_slice|done]|].
    rewrite (bind_ok _ _ _ _ _ R1).
    destruct (IH (Z.to_nat (Z.max 0 (Z.of_nat (length code) - (420 + SECTOR * (k + 1))))) ltac:(lia) fuel _ img1 (k + 1)
      (patch 0 (code_chunk code k) (f (9 + k))) V1) as (img2 & R2 & V2); [lia|rewrite length_patch; lia|lia|lia|].
    exists img2. split.
    + rewrite <-R2. replace (9 + k + 1) with (9 + (k + 1)) by lia. f_equal.
      destruct (Z.ltb_spec SECTOR (Z.of_nat (length code) - (420 + SECTOR * k))); lia.
    + eapply vol_ext; [exact V2|]. intros j Hj. unfold code_sectors, upd, VBR_SIZE_BOOT_CODE_32.
      destruct (decide (j = 9 + k)) as [->|]; [|repeat case_decide; try done; lia].
      rewrite (decide_False (P := 9 + (k + 1) <= _ /\ _)) by lia. rewrite decide_True by lia. by replace (9 + k - 9) with k by lia.
Qed.
End ops.

(** ** The volume as a whole *)

Section format.
Context (m0 : mem) (off size now fat N cluster : Z).
Hypothesis fat_ok : 0 < fat.
Hypothesis cluster_ok : 0 < cluster < 256.
Hypothesis clusters_ok : MIN_FAT32_CLUSTERS * cluster <= N - (32 + 2 * fat).
#[local] Abbreviation vol := (volume m0 off size N).
#[local] Abbreviation vbr := (boot_record now fat N cluster).
#[local] Abbreviation clusters := ((N - (32 + 2 * fat)) / cluster).
Implicit Types (f : Z -> buffer) (img : FileImage).

Lemma sizes f img : vol f img -> 0 < fat < 2 ^ 31 /\ 32 + 2 * fat + cluster <= N < 2 ^ 31 /\ 32 + 2 * fat <= N < 2 ^ 32.
Proof. intros V. pose proof (N_int _ _ _ _ _ _ V). unfold MIN_FAT32_CLUSTERS in clusters_ok. lia. Qed.

Lemma boot_fat_start f : f 0 = vbr -> fat_start f = 32.
Proof.
  intros E. unfold fat_start. rewrite E. pose proof (vbr_fat_start now fat N cluster tt) as R. unfold getFatAreaStart in R.
  rewrite read_at_run in R; [|by right|rewrite length_boot_record; by vm_compute]. exact (f_equal (fun o => match o with Ok (v, _) => v | _ => 0 end) R).
Qed.

Definition backed_up f : Z -> buffer := upd (upd (upd f 6 (f 0)) 7 (f 1)) 8 (f 2).

Lemma updateFat32Backup_run f img : vol f img -> f 0 = vbr -> exists img', updateFat32Backup img = Ok (tt, img') /\ vol (backed_up f) img'.
Proof.
  intros V E. destruct (sizes f img V) as (_ & Hn & _). unfold updateFat32Backup. rewrite (bind_ok _ _ _ _ _ (new_sector_run _ _ _ _ _ _ V)).
  rewrite (bind_ok _ _ _ _ _ (read_vbr _ _ _ _ f img _ V ltac:(lia) length_zero_sector)). rewrite E.
  rewrite (bind_ok _ _ _ _ _ (vbr_backup now fat N cluster img)).
  destruct (backup_step m0 off size N 2 f img 0 vbr V ltac:(lia) ltac:(lia) (length_boot_record now fat N cluster)) as (img1 & V1 & L1 & R1).
  destruct (backup_step m0 off size N 1 _ img1 1 _ V1 ltac:(lia) ltac:(lia) L1) as (img2 & V2 & L2 & R2).
  destruct (backup_step m0 off size N 0 _ img2 2 _ V2 ltac:(lia) ltac:(lia) L2) as (img3 & V3 & L3 & R3).
  change (0 + 1) with 1 in R1. change (1 + 1) with 2 in R2. exists img3. split; [rewrite R1, R2; exact R3|]. eapply vol_ext; [exact V3|]. intros j Hj. unfold backed_up, upd. repeat case_decide; try done; lia.
Qed.

Definition table_initialised f : Z -> buffer := set_fat_entry (set_fat_entry (zeroed f 32 (2 * fat)) 0 0xFFFFFFF0) 1 0xFFFFFFFF.

Lemma initializeFileAllocationTable_run f img :
  vol f img -> f 0 = vbr -> exists img', initializeFileAllocationTable img = Ok (tt, img') /\ vol (table_initialised f) img'.
Proof.
  intros V E. destruct (sizes f img V) as (Hf & Hn & Hv). unfold initializeFileAllocationTable.
  rewrite (bind_ok _ _ _ _ _ (new_sector_run _ _ _ _ _ _ V)), (bind_ok _ _ _ _ _ (read_vbr _ _ _ _ f img _ V ltac:(lia) length_zero_sector)).
  rewrite E. rewrite (bind_ok _ _ _ _ _ (vbr_fat_area now fat N cluster Hf Hv img)), (bind_ok _ _ _ _ _ (vbr_fat_start now fat N cluster img)).
  rewrite (bind_ok _ _ img SECTOR img) by (unfold gets; by rewrite (vol_sector _ _ _ _ _ _ V)). rewrite to_i32_small by lia. cbv zeta.
  rewrite (bind_ok _ _ img zero_sector img).
  2:{ apply on_run. unfold memset_. rewrite copy_to_run by (rewrite length_replicate, length_boot_record; lia).
      rewrite patch_all; [done|done|rewrite length_replicate, length_boot_record; done]. }
  destruct (zero_sectors_run m0 off size N (Z.to_nat (2 * fat)) f img 32 0 V) as (img1 & R1 & V1); [lia..|].
  rewrite (bind_ok _ _ _ _ _ R1). rewrite Z.add_0_r, Z2Nat.id in V1 by lia. set (f1 := zeroed f 32 (2 * fat)) in *.
  assert (E1 : f1 0 = vbr) by (unfold f1, zeroed; by rewrite decide_False by lia).
  rewrite (bind_ok _ _ _ _ _ (read_vbr _ _ _ _ f1 img1 _ V1 ltac:(lia) length_zero_sector)). rewrite E1.
  rewrite (bind_ok _ _ _ _ _ (vbr_media now fat N cluster img1)). change (Z.lor 0xFFFFFF00 0xF0) with 0xFFFFFFF0.
  pose proof (boot_fat_start f1 E1) as S1.
  destruct (writeFatEntry_run m0 off size N f1 img1 0 0xFFFFFFF0 V1) as (img2 & R2 & V2); [lia|lia|unfold fat_sector; rewrite S1; lia|].
  rewrite (bind_ok _ _ _ _ _ R2). pose proof (set_fat_entry_start f1 0 0xFFFFFFF0 ltac:(lia) ltac:(lia)) as S2.
  apply (writeFatEntry_run m0 off size N _ img2 1 0xFFFFFFFF V2); [lia|lia|unfold fat_sector; rewrite S2, S1; lia].
Qed.

Definition root_made f : Z -> buffer := set_fat_entry (freed_sectors f (32 + 2 * fat) cluster) 2 FAT_ENTRY_END_OF_CHAIN.

Lemma makeRootDirectory_run f img : vol f img -> f 0 = vbr -> exists img', makeRootDirectory img = Ok (tt, img') /\ vol (root_made f) img'.
Proof.
  intros V E. destruct (sizes f img V) as (Hf & Hn & Hv). unfold makeRootDirectory.
  rewrite (bind_ok _ _ _ _ _ (new_sector_run _ _ _ _ _ _ V)), (bind_ok _ _ _ _ _ (new_sector_run _ _ _ _ _ _ V)),
    (bind_ok _ _ _ _ _ (read_vbr _ _ _ _ f img _ V ltac:(lia) length_zero_sector)).
  rewrite E. rewrite (bind_ok _ _ _ _ _ (vbr_first_sector now fat N cluster Hf Hv img)), (bind_ok _ _ _ _ _ (vbr_cluster now fat N cluster cluster_ok img)).
  destruct (free_cluster_run m0 off size N (Z.to_nat cluster) f img (32 + 2 * fat) 0 zero_sector V) as (img1 & R1 & V1);
    [lia|lia|lia|apply length_zero_sector|].
  rewrite (bind_ok _ _ _ _ _ R1). rewrite Z.add_0_r, Z2Nat.id in V1 by lia. set (f1 := freed_sectors f (32 + 2 * fat) cluster) in *.
  rewrite (bind_ok _ _ _ _ _ (vbr_root now fat N cluster img1)).
  assert (E1 : f1 0 = vbr) by (unfold f1, freed_sectors; by rewrite decide_False by lia). pose proof (boot_fat_start f1 E1) as S1.
  apply (writeFatEntry_run m0 off size N f1 img1 2); [done|lia|lia|unfold fat_sector; rewrite S1; lia].
Qed.

Definition coded f (code : list Z) : Z -> buffer := code_sectors (upd f 0 (patch 90 (take 420 code) (f 0))) code 0.

(** The fields of the record are before the code. *)
Lemma coded_read {S} n code o sz :
  0 <= o -> o + Z.of_nat n <= 90 -> 420 <= Z.of_nat (length code) -> @read_at S n (patch 90 (take 420 code) vbr) o sz = read_at n vbr o sz.
Proof.
  intros Ho Hn Hl. assert (L : length (take 420 code) = 420%nat) by (rewrite length_take; lia). pose proof (length_boot_record now fat N cluster) as Lb.
  unfold read_at. rewrite slice_patch_ne, length_patch by (rewrite ?L, ?Lb; lia). done.
Qed.

Lemma writeBootCode_run f img code :
  vol f img -> f 0 = vbr -> byte_list code -> 420 <= Z.of_nat (length code) <= 420 + SECTOR * 23 ->
  exists img', writeBootCode (Some code) img = Ok (tt, img') /\ vol (coded f code) img'.
Proof.
  intros V E Hc Hl. destruct (sizes f img V) as (Hf & Hn & Hv). unfold writeBootCode.
  rewrite (bind_ok _ _ _ _ _ (new_sector_run _ _ _ _ _ _ V)), (bind_ok _ _ _ _ _ (new_sector_run _ _ _ _ _ _ V)).
  destruct code as [|c0 code0]; [cbn in Hl; lia|]. set (code := c0 :: code0) in *. destruct (vol_length _ _ _ _ f img 0 V ltac:(lia)) as [L0 B0].
  rewrite (bind_ok _ _ _ _ _ (read_vbr _ _ _ _ f img _ V ltac:(lia) length_zero_sector)). unfold VBR_SIZE_BOOT_CODE_32 at 1.
  rewrite (proj2 (Z.ltb_ge _ 420)) by lia. change (slice 0 VBR_SIZE_BOOT_CODE_32 code) with (take 420 code).
  assert (Lt : length (take 420 code) = 420%nat) by (rewrite length_take; lia).
  rewrite (bind_ok _ _ img (patch 90 (take 420 code) (f 0)) img) by (apply on_run, copy_to_run; rewrite Lt, L0; by vm_compute).
  assert (Lp : length (patch 90 (take 420 code) (f 0)) = Z.to_nat SECTOR) by (rewrite length_patch; rewrite ?Lt; lia).
  destruct (writeSector_run m0 off size N f img 0 (patch 90 (take 420 code) (f 0)) V) as (img1 & R1 & V1);
    [lia|done|apply byte_list_patch; [by apply Forall_take|done]|].
  rewrite (bind_ok _ _ _ _ _ R1).
  rewrite (bind_ok _ _ img1 6 img1) by (rewrite E, coded_read; [apply vbr_backup|by vm_compute|by vm_compute|lia]).
  destruct (write_code_run m0 off size N (Z.to_nat (Z.of_nat (length code) - 420)) (S (length code)) code _ img1 0
    (patch 90 (take 420 code) (f 0)) zero_sector V1) as (img2 & R2 & V2); unfold VBR_SIZE_BOOT_CODE_32 in *;
    try lia; try done; [intros s; unfold getFatAreaStart; rewrite E, coded_read by (lia || by vm_compute); apply vbr_fat_start|].
  exists img2. split; [|exact V2]. rewrite <-R2. f_equal. lia.
Qed.

#[local] Opaque boot_record info_sector.
(** Side conditions of the lemmas on sectors. *)
#[local] Ltac side := first [assumption | lia].

Definition first_sectors f : Z -> buffer := upd (upd f 0 vbr) 1 (info_sector clusters).
Definition with_table f : Z -> buffer := table_initialised (backed_up (first_sectors f)).
Definition formatted f (code : list Z) : Z -> buffer := coded (root_made (with_table f)) code.

Lemma set_fat_entry_low f e v i : f 0 = vbr -> 0 <= e -> i < 32 -> set_fat_entry f e v i = f i.
Proof. intros E He Hi. unfold set_fat_entry, upd, fat_sector. rewrite (boot_fat_start f E). rewrite decide_False; [done|lia]. Qed.

Lemma set_fat_entry_high f e v i : f 0 = vbr -> 0 <= e < 128 -> 32 < i -> set_fat_entry f e v i = f i.
Proof. intros E He Hi. unfold set_fat_entry, upd, fat_sector. rewrite (boot_fat_start f E). rewrite decide_False; [done|lia]. Qed.

Lemma backed_up_0 f : backed_up (first_sectors f) 0 = vbr.
Proof. reflexivity. Qed.

(** What the table and the root directory change. *)
Lemma zeroed_out f : f 0 = vbr -> zeroed f 32 (2 * fat) 0 = vbr.
Proof. intros E. unfold zeroed. by rewrite decide_False by lia. Qed.
Lemma table_half f : f 0 = vbr -> set_fat_entry (zeroed f 32 (2 * fat)) 0 0xFFFFFFF0 0 = vbr.
Proof. intros E. rewrite set_fat_entry_low; [|apply zeroed_out| |]; side. Qed.
Lemma table_low f i : f 0 = vbr -> i < 32 -> table_initialised f i = f i.
Proof.
  intros E Hi. unfold table_initialised. rewrite set_fat_entry_low; [|by apply table_half|lia|lia].
  rewrite set_fat_entry_low; [|by apply zeroed_out|lia|lia]. unfold zeroed. by rewrite decide_False by lia.
Qed.
Lemma table_high f i : f 0 = vbr -> 32 < i -> table_initialised f i = zeroed f 32 (2 * fat) i.
Proof.
  intros E Hi. unfold table_initialised. rewrite set_fat_entry_high; [|by apply table_half|lia|lia].
  rewrite set_fat_entry_high; [done|by apply zeroed_out|lia|lia].
Qed.
Lemma table_0 f : f 0 = vbr -> table_initialised f 0 = vbr.
Proof. intros E. by rewrite table_low. Qed.
Lemma freed_out f i : i < 32 + 2 * fat -> freed_sectors f (32 + 2 * fat) cluster i = f i.
Proof. intros Hi. unfold freed_sectors. by rewrite decide_False by lia. Qed.
Lemma root_low f i : f 0 = vbr -> i < 32 -> root_made f i = f i.
Proof. intros E Hi. unfold root_made. rewrite set_fat_entry_low; rewrite ?freed_out; side || reflexivity. Qed.
Lemma root_high f i : f 0 = vbr -> 32 < i -> root_made f i = freed_sectors f (32 + 2 * fat) cluster i.
Proof. intros E Hi. unfold root_made. rewrite set_fat_entry_high; [done|rewrite freed_out by lia; done|lia|lia]. Qed.
Lemma root_0 f : f 0 = vbr -> root_made f 0 = vbr.
Proof. intros E. by rewrite root_low. Qed.

Lemma make_volume_run f img code junk1 junk2 :
  vol f img -> byte_list code -> 420 <= Z.of_nat (length code) <= 420 + SECTOR * 23 ->
  length junk1 = Z.to_nat SECTOR -> length junk2 = Z.to_nat SECTOR ->
  exists img', make_volume now fat N cluster (Some code) junk1 junk2 img = Ok (tt, img') /\ vol (formatted f code) img'.
Proof.
  intros V Hc Hl J1 J2. destruct (sizes f img V) as (Hf & Hn & Hv). unfold make_volume.
  rewrite (bind_ok _ _ img SECTOR img) by (unfold gets; by rewrite (vol_sector _ _ _ _ _ _ V)).
  rewrite !(wrap_small 32), (wrap_small 8), (wrap_small 16) by lia.
  rewrite (bind_ok _ _ img vbr img) by (apply on_run, makeFat32VBR_run; try done; lia).
  destruct (writeSector_run m0 off size N f img 0 vbr V) as (img1 & R1 & V1); [lia|apply length_boot_record|apply byte_list_boot_record|].
  rewrite (bind_ok _ _ _ _ _ R1). rewrite (bind_ok _ _ img1 (info_sector clusters) img1) by (apply on_run, makeFSInfoSector_run; done).
  rewrite (bind_ok _ _ _ _ _ (vbr_info_sector now fat N cluster img1)). destruct (info_sector_ok clusters) as [L2 B2].
  destruct (writeSector_run m0 off size N _ img1 1 (info_sector clusters) V1) as (img2 & R2 & V2); [lia|done|done|].
  rewrite (bind_ok _ _ _ _ _ R2). destruct (updateFat32Backup_run _ img2 V2) as (img3 & R3 & V3); [done|].
  rewrite (bind_ok _ _ _ _ _ R3). destruct (initializeFileAllocationTable_run _ img3 V3) as (img4 & R4 & V4); [done|].
  rewrite (bind_ok _ _ _ _ _ R4). destruct (makeRootDirectory_run _ img4 V4) as (img5 & R5 & V5); [by apply table_0|].
  rewrite (bind_ok _ _ _ _ _ R5). apply (writeBootCode_run _ img5 code V5); [|done|done]. apply root_0, table_0. done.
Qed.

(** *** What is where *)

Lemma coded_fat_start f code : f 0 = vbr -> 420 <= Z.of_nat (length code) -> fat_start (coded f code) = 32.
Proof.
  intros E Hl. rewrite <-(boot_fat_start f E). unfold fat_start, coded, code_sectors, upd. rewrite decide_False by lia. rewrite decide_True by done.
  assert (length (take 420 code) = 420%nat) by (rewrite length_take; lia).
  rewrite slice_patch_ne; [done|lia|rewrite E, length_boot_record; lia|lia..].
Qed.

Lemma coded_high f code i : 32 <= i -> Z.of_nat (length code) <= 420 + SECTOR * 23 -> coded f code i = f i.
Proof. intros Hi Hl. unfold coded, code_sectors, upd, VBR_SIZE_BOOT_CODE_32. rewrite decide_False by lia. by rewrite decide_False by lia. Qed.

(** An entry of a table that starts at sector 32. *)
Lemma fat_entry_at f e : fat_start f = 32 -> fat_entry f e = le_value (slice (e mod 128 * 4) 4 (f (32 + e / 128))).
Proof. intros E. unfold fat_entry, fat_sector. by rewrite E. Qed.

Lemma zero_entry o : 0 <= o <= 508 -> le_value (slice o 4 zero_sector) = 0.
Proof.
  intros Ho. unfold slice, zero_sector. rewrite drop_replicate, take_replicate. rewrite Nat.min_l by lia. reflexivity.
Qed.

Lemma set_entry_length f e v : f 0 = vbr -> 0 <= e < 128 -> length (f 32) = Z.to_nat SECTOR -> length (set_fat_entry f e v 32) = Z.to_nat SECTOR.
Proof.
  intros E He L. unfold set_fat_entry, upd, fat_sector. rewrite (boot_fat_start f E). rewrite Z.div_small by lia. rewrite decide_True by done.
  change (32 + 0) with 32. rewrite length_patch; [done|lia|rewrite length_le_bytes; lia].
Qed.

Lemma entry_set f e v e' :
  f 0 = vbr -> length (f 32) = Z.to_nat SECTOR -> 0 <= e < 128 -> 0 <= e' -> 0 <= v < 2 ^ 32 ->
  fat_entry (set_fat_entry f e v) e' = if decide (e' = e) then v else fat_entry f e'.
Proof.
  intros E L He He' Hv. pose proof (boot_fat_start f E) as St. rewrite fat_entry_set; [by rewrite Z.mod_small by lia| |lia..].
  unfold fat_sector. rewrite St, Z.div_small by lia. exact L.
Qed.

(** The table: the two reserved entries, the root directory, and nothing else. *)
Lemma formatted_entry f code e :
  420 <= Z.of_nat (length code) <= 420 + SECTOR * 23 -> 0 <= e < 128 * fat ->
  fat_entry (formatted f code) e = if e =? 0 then 0xFFFFFFF0 else if e =? 1 then 0xFFFFFFFF else if e =? 2 then FAT_ENTRY_END_OF_CHAIN else 0.
Proof.
  intros Hl He. assert (Hs : 0 <= e / 128 < fat) by (split; [apply Z.div_pos; lia|apply Z.div_lt_upper_bound; lia]).
  unfold formatted, with_table. set (f0 := backed_up (first_sectors f)). assert (E0 : f0 0 = vbr) by apply backed_up_0.
  unfold table_initialised. set (f1 := zeroed f0 32 (2 * fat)). assert (E1 : f1 0 = vbr) by (by apply zeroed_out).
  assert (L1 : length (f1 32) = Z.to_nat SECTOR) by (unfold f1, zeroed; rewrite decide_True by lia; apply length_zero_sector).
  set (f2 := set_fat_entry f1 0 _). assert (E2 : f2 0 = vbr) by (unfold f2; rewrite set_fat_entry_low; side).
  assert (L2 : length (f2 32) = Z.to_nat SECTOR) by (apply set_entry_length; side).
  set (f3 := set_fat_entry f2 1 _). assert (E3 : f3 0 = vbr) by (unfold f3; rewrite set_fat_entry_low; side).
  assert (L3 : length (f3 32) = Z.to_nat SECTOR) by (apply set_entry_length; side).
  assert (Hc : fat_entry (coded (root_made f3) code) e = fat_entry (root_made f3) e).
  { rewrite !fat_entry_at; [by rewrite coded_high by lia|by apply boot_fat_start, root_0|apply coded_fat_start; [by apply root_0|lia]]. }
  rewrite Hc. unfold root_made. set (f4 := freed_sectors f3 _ _). assert (E4 : f4 0 = vbr) by (unfold f4; by rewrite freed_out by lia).
  assert (Hf4 : forall i, i < 32 + 2 * fat -> f4 i = f3 i) by (intros i Hi; unfold f4, freed_sectors; by rewrite decide_False by lia).
  assert (L4 : length (f4 32) = Z.to_nat SECTOR) by (by rewrite Hf4 by lia).
  unfold FAT_ENTRY_END_OF_CHAIN. rewrite entry_set by side.
  assert (Hf : fat_entry f4 e = fat_entry f3 e) by (rewrite (fat_entry_at f4 e (boot_fat_start f4 E4)), (fat_entry_at f3 e (boot_fat_start f3 E3)); by rewrite Hf4 by lia).
  rewrite Hf. unfold f3. rewrite entry_set by side. unfold f2. rewrite entry_set by side.
  rewrite (fat_entry_at f1 e (boot_fat_start f1 E1)). unfold f1, zeroed at 1. rewrite (decide_True (P := 32 <= 32 + e / 128 < _)) by lia.
  rewrite zero_entry by lia.
  destruct (decide (e = 2)) as [E|N2]; [rewrite E; reflexivity|]. destruct (decide (e = 1)) as [E|N1]; [rewrite E; reflexivity|].
  destruct (decide (e = 0)) as [E|N0]; [rewrite E; reflexivity|]. by rewrite (proj2 (Z.eqb_neq e 0)), (proj2 (Z.eqb_neq e 1)), (proj2 (Z.eqb_neq e 2)).
Qed.

(** The sectors beside the table. *)
Lemma formatted_sector f code i :
  420 <= Z.of_nat (length code) <= 420 + SECTOR * 23 ->
  (i = 0 -> formatted f code i = patch 90 (take 420 code) vbr) /\
  (i = 1 \/ i = 7 -> formatted f code i = info_sector clusters) /\
  (i = 6 -> formatted f code i = vbr) /\
  (i = 8 -> formatted f code i = f 2) /\
  (9 <= i < 32 -> 420 + SECTOR * (i - 9) < Z.of_nat (length code) -> formatted f code i = patch 0 (code_chunk code (i - 9)) (f i)) /\
  (32 < i < 32 + 2 * fat -> formatted f code i = zero_sector) /\
  (32 + 2 * fat <= i < 32 + 2 * fat + cluster -> formatted f code i = freed (f i)) /\
  (2 <= i < 6 \/ (9 <= i < 32 /\ Z.of_nat (length code) <= 420 + SECTOR * (i - 9)) \/ 32 + 2 * fat + cluster <= i -> formatted f code i = f i).
Proof.
  intros Hl. pose proof (backed_up_0 f) as E0. assert (E1 : with_table f 0 = vbr) by (by apply table_0).
  assert (Hlow : i < 32 -> root_made (with_table f) i = backed_up (first_sectors f) i).
  { intros Hi. rewrite root_low by side. apply table_low; [exact E0|lia]. }
  assert (Hbu : i < 32 -> 2 <= i -> i <> 6 -> i <> 7 -> i <> 8 -> backed_up (first_sectors f) i = f i).
  { intros. unfold backed_up, first_sectors, upd. repeat (rewrite (decide_False (P := i = _)) by lia). done. }
  assert (Hhigh : 32 < i -> formatted f code i = freed_sectors (zeroed f 32 (2 * fat)) (32 + 2 * fat) cluster i).
  { intros Hi. unfold formatted. rewrite coded_high, root_high by side. unfold freed_sectors, with_table. rewrite table_high by side.
    unfold zeroed, backed_up, first_sectors, upd. repeat (rewrite (decide_False (P := i = _)) by lia). done. }
  split_and!; intros Hi; try intros Hi'.
  - subst i. unfold formatted, coded, code_sectors, upd. rewrite decide_False, decide_True by lia. by rewrite root_0 by side.
  - unfold formatted, coded, code_sectors, upd. rewrite !decide_False by lia. rewrite Hlow by lia. destruct Hi as [-> | ->]; reflexivity.
  - unfold formatted, coded, code_sectors, upd. rewrite !decide_False by lia. rewrite Hlow by lia. subst i. reflexivity.
  - unfold formatted, coded, code_sectors, upd. rewrite !decide_False by lia. rewrite Hlow by lia. subst i. reflexivity.
  - unfold formatted, coded, code_sectors, upd, VBR_SIZE_BOOT_CODE_32. rewrite decide_True, decide_False by lia. by rewrite Hlow, Hbu by lia.
  - rewrite Hhigh by lia. unfold freed_sectors, zeroed. by rewrite decide_False, decide_True by lia.
  - rewrite Hhigh by lia. unfold freed_sectors, zeroed. by rewrite decide_True, decide_False by lia.
  - destruct (decide (i < 32)).
    + unfold formatted, coded, code_sectors, upd, VBR_SIZE_BOOT_CODE_32. rewrite !decide_False by lia. by rewrite Hlow, Hbu by lia.
    + rewrite Hhigh by lia. unfold freed_sectors, zeroed. by rewrite !decide_False by lia.
Qed.

(** The volume the tool leaves: the boot record with the boot code, the
    information sector, the backups, the table, the root directory, and the
    other sectors as they were. *)
(** C31: For parameters that leave at least 65526 clusters, sectors of 512 bytes, a
    boot code of 420 to 12196 bytes (a shorter one is read out of bounds,
    fat32_maker.cpp:318) and an image file at least as long as the volume with positions
    below 2^31, the FAT32 tool returns with the volume formatted: boot record with the
    boot code, information sector, backups, the table with the reserved entries and the
    end of the root directory and nothing else, an empty root directory, the rest of the
    boot code, and every other sector as it was. *)
Theorem fat32_maker_formats_volume f img code junk1 junk2 :
  vol f img -> byte_list code -> 420 <= Z.of_nat (length code) <= 420 + SECTOR * 23 ->
  length junk1 = Z.to_nat SECTOR -> length junk2 = Z.to_nat SECTOR ->
  exists img' g, make_volume now fat N cluster (Some code) junk1 junk2 img = Ok (tt, img') /\ vol g img' /\
    g 0 = patch 90 (take 420 code) vbr /\ g 1 = info_sector clusters /\ g 6 = vbr /\ g 7 = info_sector clusters /\ g 8 = f 2 /\
    (forall k, 0 <= k -> 420 + SECTOR * k < Z.of_nat (length code) -> g (9 + k) = patch 0 (code_chunk code k) (f (9 + k))) /\
    (forall e, 0 <= e < 128 * fat ->
      fat_entry g e = if e =? 0 then 0xFFFFFFF0 else if e =? 1 then 0xFFFFFFFF else if e =? 2 then FAT_ENTRY_END_OF_CHAIN else 0) /\
    (forall i, 32 + fat <= i < 32 + 2 * fat -> g i = zero_sector) /\
    (forall i, 32 + 2 * fat <= i < 32 + 2 * fat + cluster -> g i = freed (f i)) /\
    (forall i, 2 <= i < 6 \/ (9 <= i < 32 /\ Z.of_nat (length code) <= 420 + SECTOR * (i - 9)) \/ 32 + 2 * fat + cluster <= i -> g i = f i).
Proof.
  intros V Hc Hl J1 J2. destruct (make_volume_run f img code junk1 junk2 V Hc Hl J1 J2) as (img' & R & V').
  pose proof (fun i => formatted_sector f code i Hl) as F. exists img', (formatted f code). split; [exact R|]. split; [exact V'|].
  split_and!; [by apply (F 0)|by apply (F 1); left|by apply (F 6)|by apply (F 7); right|by apply (F 8)| | | | |].
  - intros k Hk Hlen. destruct (F (9 + k)) as (_ & _ & _ & _ & Fc & _). rewrite Fc by lia. by replace (9 + k - 9) with k by lia.
  - intros e He. by apply formatted_entry.
  - intros i Hi. apply (F i). lia.
  - intros i Hi. by apply (F i).
  - intros i Hi. by apply (F i).
Qed.
End format.

(** An entry written to the table reads back, and the other entries keep their
    values. *)
(** C32: An entry written to the allocation table of an image reads back, and every
    other entry keeps its value. *)
Theorem fat_entry_roundtrip m0 off size N f img e e' v :
  volume m0 off size N f img -> 0 < fat_start f -> 0 <= e < 2 ^ 30 -> 0 <= e' < 2 ^ 30 ->
  fat_sector f e < N -> fat_sector f e' < N -> 0 <= v < 2 ^ 32 ->
  exists old img', readFatEntry e' img = Ok (old, img) /\ writeFatEntry e v img = Ok (tt, img') /\
    readFatEntry e' img' = Ok (if decide (e' = e) then v else old, img').
Proof.
  intros V Hst He He' Hs Hs' Hv. exists (fat_entry f e'). destruct (writeFatEntry_run m0 off size N f img e v V) as (img' & R & V'); [lia..|].
  exists img'. split; [by apply (readFatEntry_run m0 off size N f); [| |lia|]|]. split; [exact R|].
  pose proof (set_fat_entry_start f e v Hst ltac:(lia)) as St.
  rewrite (readFatEntry_run m0 off size N _ img' e' V'); [|lia|lia|unfold fat_sector in *; rewrite St; lia].
  rewrite fat_entry_set; [by rewrite Z.mod_small by lia| |lia..].
  apply (vol_length m0 off size N f img). { exact V. } unfold fat_sector in *. lia.
Qed.
