(* ===== verification/Fat32Runs.v ===== *)
(** * The image maker on the volume of the build

    The command line of src/sub_build.sh, and instances of the theorems. *)

From Stdlib Require Import String Ascii.
From stdpp Require Import list.
From S2P Require Import Prelude Memory Fat32 Fat32Top Fat32Volume.

Definition build_arguments : list string :=
  ["volume_size=71520"; "file=build/bootable.iso"; "file_offset=1"; "boot_code=boot/second_stage_boot.bin"]%string.

Lemma build_options junk :
  fold_left (read_option junk) build_arguments default_options =
    MkOptions 128 71520 1 512 1 "build/bootable.iso" "boot/second_stage_boot.bin".
Proof. vm_compute. reflexivity. Qed.

(** Any file large enough is a volume. *)
Lemma volume_of_file bytes size off N :
  0 <= off -> (off + N) * SECTOR <= size -> (off + N) * SECTOR < 2 ^ 31 ->
  volume bytes off size N (sector_at (MkFileImage SECTOR off bytes size false)) (MkFileImage SECTOR off bytes size false).
Proof. intros H1 H2 H3. by split. Qed.

(** The build formats 71232 clusters with a table of 16384 entries, and ends the
    boot record with the signature bytes in the wrong order. *)
Theorem build_volume_table_too_small open_image read_file malloc now junk bytes size code :
  open_image "build/bootable.iso"%string = Some (bytes, size) -> read_file "boot/second_stage_boot.bin"%string = Some code ->
  (1 + 71520) * SECTOR <= size -> byte_list code -> 420 <= Z.of_nat (length code) <= 420 + SECTOR * 23 ->
  (forall n, length (malloc n) = Z.to_nat n) ->
  exists img g, main open_image read_file malloc now junk build_arguments = Ok img /\ volume bytes 1 size 71520 g img /\
    (forall s : unit, getClusterCount (g 0) s = Ok (71232, s)) /\
    (forall s : unit, read_at 4 (g 0) VBR_OFFSET_FAT_SZ_32 VBR_SIZE_FAT_SZ_32 s = Ok (16384 * 4 / SECTOR, s)) /\
    slice 510 2 (g 0) = [0xAA; 0x55].
Proof.
  intros Ho Hr Hs Hc Hl Hm. unfold main. rewrite build_options. cbn [file_path volume_size boot_code_path sector_size file_offset fat_size cluster_size].
  cbn [String.eqb Ascii.eqb Bool.eqb]. change (71520 <? 0) with false. cbv iota. rewrite Ho, Hr.
  pose proof (volume_of_file bytes size 1 71520 ltac:(lia) Hs ltac:(lia)) as V.
  destruct (make_volume_run bytes 1 size now 128 71520 1 ltac:(lia) ltac:(lia) ltac:(by vm_compute) _ _ code (malloc 512) (malloc 512) V Hc Hl (Hm 512) (Hm 512))
    as (img' & R & V'). rewrite R. eexists img', _. split; [reflexivity|]. split; [exact V'|].
  assert (E : formatted now 128 71520 1 (sector_at (MkFileImage SECTOR 1 bytes size false)) code 0 = patch 90 (take 420 code) (boot_record now 128 71520 1)).
  { eapply formatted_sector; done || lia. }
  rewrite E. split_and!.
  - intros s. unfold getClusterCount, getDataAreaSize, getDataAreaFirstSector. rewrite !coded_read by (lia || by vm_compute).
    apply (vbr_clusters now 128 71520 1); lia.
  - intros s. rewrite coded_read by (lia || by vm_compute). apply (vbr_fat_size now 128 71520 1); lia.
  - rewrite slice_patch_ne; [|lia|rewrite length_boot_record, length_take; lia|lia|lia|rewrite length_take; lia].
    apply (boot_record_field 27 now 128 71520 1 510 [0xAA; 0x55]); [reflexivity|constructor].
Qed.

(** ** Instances *)

Definition demo_code : list Z := replicate 1000 0x90.
Lemma demo_code_ok : byte_list demo_code /\ 420 <= Z.of_nat (length demo_code) <= 420 + SECTOR * 23.
Proof. split; [by apply byte_list_replicate|]. unfold demo_code. rewrite length_replicate. lia. Qed.

Lemma build_volume_table_too_small_witness :
  exists img, main (fun _ => Some (∅, 71521 * 512)) (fun _ => Some demo_code) (fun n => replicate (Z.to_nat n) 0xcc) 1700000000 0 build_arguments = Ok img.
Proof.
  destruct demo_code_ok as [B L].
  destruct (build_volume_table_too_small (fun _ => Some (∅, 71521 * 512)) (fun _ => Some demo_code) (fun n => replicate (Z.to_nat n) 0xcc) 1700000000 0
    ∅ (71521 * 512) demo_code eq_refl eq_refl ltac:(lia) B L (fun n => length_replicate _ _)) as (img & g & R & _).
  by exists img.
Defined.

Lemma fat32_maker_formats_volume_witness :
  exists img', make_volume 1700000000 600 70000 1 (Some demo_code) (replicate 512 0) (replicate 512 0) (MkFileImage SECTOR 1 ∅ (70001 * 512) false) = Ok (tt, img').
Proof.
  destruct demo_code_ok as [B L].
  destruct (fat32_maker_formats_volume ∅ 1 (70001 * 512) 1700000000 600 70000 1 ltac:(lia) ltac:(lia) ltac:(vm_compute; congruence) _ _ demo_code
    (replicate 512 0) (replicate 512 0) (volume_of_file ∅ (70001 * 512) 1 70000 ltac:(lia) ltac:(lia) ltac:(lia)) B L eq_refl eq_refl) as (img' & g & R & _).
  by exists img'.
Defined.

(** A small image with a table at sector 32. *)
Definition small_image : FileImage := MkFileImage SECTOR 0 {[ 14 := 32 ]} (40 * 512) false.

Lemma fat_entry_roundtrip_witness :
  exists old img', readFatEntry 5 small_image = Ok (old, small_image) /\ writeFatEntry 5 0x0FFFFFF8 small_image = Ok (tt, img') /\
    readFatEntry 5 img' = Ok (0x0FFFFFF8, img').
Proof.
  apply (fat_entry_roundtrip {[ 14 := 32 ]} 0 (40 * 512) 40 (sector_at small_image) small_image 5 5 0x0FFFFFF8); try lia.
  - apply volume_of_file; lia.
  - vm_compute. reflexivity.
  - vm_compute. reflexivity.
  - vm_compute. reflexivity.
Defined.

(** A volume one sector shorter than its tables passes the checks, with a data
    area of [2^32 - 1] sectors. *)
Lemma short_volume_accepted :
  exists b, makeFat32VBR 0 "test" 128 287 1 SECTOR (replicate 512 0) = Ok (tt, b) /\ getDataAreaSize b tt = Ok (2 ^ 32 - 1, tt).
Proof. eexists. split; [vm_compute; reflexivity|]. vm_compute. reflexivity. Qed.

(** A cluster size of 256 sectors is kept in one byte, and the count of the
    clusters divides by it. *)
Lemma large_cluster_faults : makeFat32VBR 0 "test" 128 71520 (wrap8 256) SECTOR (replicate 512 0) = Fault.
Proof. vm_compute. reflexivity. Qed.
