(* ===== verification/Mbr.v ===== *)
(** * The master boot record maker (tools/mbr_maker.cpp)

    The tool starts a disk image: the first sector with the boot code and the
    partition table, the rest of the boot code, and room for the partition.  Its
    buffers are those of [Fat32]; the image is the bytes written to the file. *)

From Stdlib Require Import String Ascii.
From stdpp Require Import list.
From S2P Require Import Prelude Fat32 Fat32Top.

Definition FAT32LBA_TYPE : Z := 0x0C.
(** [sizeof(MBR::bootloader_code)] *)
Definition BOOT_CODE_SIZE : Z := 440.

Record CHS : Type := MkCHS { chs_C : Z; chs_H : Z; chs_S : Z }.

Record PartitionTableEntry : Type := MkPartitionTableEntry {
  drive_attributes : Z; chs_start : CHS; partition_type : Z; chs_last : CHS; lba_start : Z; number_of_sectors : Z
}.

Definition lbaToChs (lba : Z) : CHS :=
  let HPC := 16 in
  let SPT := 63 in
  let TEMP := lba mod (HPC * SPT) in
  MkCHS (wrap8 (lba / (HPC * SPT))) (wrap8 (TEMP / SPT)) (wrap8 (TEMP mod SPT + 1)).

Definition createPartitionTableEntry (bootable : bool) (first_lba_sector size_in_sectors type : Z) : PartitionTableEntry :=
  MkPartitionTableEntry (if bootable then 0x80 else 0x00) (lbaToChs first_lba_sector) type
    (lbaToChs (wrap32 (first_lba_sector + size_in_sectors))) first_lba_sector size_in_sectors.

Definition createDummyPartitionTableEntry : PartitionTableEntry := MkPartitionTableEntry 0x7F (MkCHS 0 0 0) 0 (MkCHS 0 0 0) 0 0.

(** The packed structures in memory. *)
Definition chs_bytes (c : CHS) : list Z := [chs_C c; chs_H c; chs_S c].
Definition entry_bytes (e : PartitionTableEntry) : list Z :=
  [drive_attributes e] ++ chs_bytes (chs_start e) ++ [partition_type e] ++ chs_bytes (chs_last e) ++
  le_bytes 4 (lba_start e) ++ le_bytes 4 (number_of_sectors e).

Definition initMBR : M buffer unit :=
  write_at 1 510 0x55 0;;
  write_at 1 511 0xAA 0;;
  write_at 4 442 0 0.

(** [*(image+512+i) = *(code+440+i)] for every [i] below [n] *)
Fixpoint copy_code (n : nat) (i : Z) (code : list Z) : M buffer unit :=
  match n with
  | O => ret tt
  | S n' =>
      size <- gets (fun b => Z.of_nat (length b));;
      assert_ (512 + i <? size);;
      assert_ (BOOT_CODE_SIZE + i <? Z.of_nat (length code));;
      copy_to (512 + i) (slice (BOOT_CODE_SIZE + i) 1 code);;
      copy_code n' (i + 1) code
  end.

Definition image_sectors (code_size : Z) : Z :=
  let size := wrap32 (code_size - BOOT_CODE_SIZE) in
  wrap32 (size / 512 + Z.b2z (negb (size mod 512 =? 0)) + 1).

(** The body of [main]: [code] is the content of the boot loader file, [rand] the
    random number, [malloc] the buffer for the image. *)
Definition make_mbr (malloc : Z -> buffer) (rand fat32_size_in_sectors : Z) (code : option (list Z)) : outcome (list Z) :=
  match code with
  | None => Panic ABORT
  | Some code =>
      let sectors := image_sectors (Z.of_nat (length code)) in
      match
        (initMBR;;
         write_at 2 440 (rand mod 65535) 0;;
         (if Z.of_nat (length code) <? BOOT_CODE_SIZE then fault else copy_to 0 (slice 0 BOOT_CODE_SIZE code));;
         copy_to 446 (entry_bytes (createPartitionTableEntry true sectors fat32_size_in_sectors FAT32LBA_TYPE));;
         copy_to 462 (entry_bytes createDummyPartitionTableEntry);;
         copy_to 478 (entry_bytes createDummyPartitionTableEntry);;
         copy_to 494 (entry_bytes createDummyPartitionTableEntry);;
         copy_code (Z.to_nat (Z.of_nat (length code) - BOOT_CODE_SIZE)) 0 code)
        (malloc (wrap32 (sectors * 512))) with
      | Ok (_, image) => Ok (image ++ replicate (Z.to_nat (fat32_size_in_sectors * 512)) 0xcc)
      | Panic c => Panic c
      | Fault => Fault
      | Hang => Hang
      | OutOfFuel => OutOfFuel
      end
  end.

(** [atoi]: blanks, a sign, digits. *)
Fixpoint skip_blanks (l : list ascii) : list ascii :=
  match l with
  | c :: l' => let n := Z.of_N (N_of_ascii c) in if (n =? 32) || ((9 <=? n) && (n <=? 13)) then skip_blanks l' else l
  | [] => []
  end.
Fixpoint leading_digits (l : list ascii) (v : Z) : Z :=
  match l with
  | c :: l' => if isdigit c then leading_digits l' (v * 10 + (Z.of_N (N_of_ascii c) - 48)) else v
  | [] => v
  end.
Definition atoi (s : string) : Z :=
  match skip_blanks (list_ascii_of_string s) with
  | "-"%char :: l => - leading_digits l 0
  | "+"%char :: l => leading_digits l 0
  | l => leading_digits l 0
  end.

(** The arguments after the name of the program; the file [argv[1]] is created
    with the bytes of the result. *)
Definition mbr_main (read_file : string -> option (list Z)) (malloc : Z -> buffer) (rand : Z) (args : list string) : outcome (string * list Z) :=
  match args with
  | mbr_path :: size :: bootloader_path :: _ =>
      match make_mbr malloc rand (wrap32 (atoi size)) (read_file bootloader_path) with
      | Ok image => Ok (mbr_path, image)
      | Panic c => Panic c
      | Fault => Fault
      | Hang => Hang
      | OutOfFuel => OutOfFuel
      end
  | _ => Panic EXIT
  end.

(** ** Addresses of sectors *)

Definition chs_lba (c : CHS) : Z := (chs_C c * 16 + chs_H c) * 63 + chs_S c - 1.

(** Up to 256 cylinders the address of a sector can be read back from its
    cylinder, head and sector, which are in their ranges. *)
Lemma lbaToChs_spec lba : 0 <= lba < 256 * 1008 ->
  let c := lbaToChs lba in chs_lba c = lba /\ 0 <= chs_C c < 256 /\ 0 <= chs_H c < 16 /\ 1 <= chs_S c <= 63.
Proof.
  intros H. cbv zeta. unfold lbaToChs, chs_lba. cbv zeta. cbn [chs_C chs_H chs_S]. change (16 * 63) with 1008.
  rewrite !(wrap_small 8) by lia. lia.
Qed.

(** ** The image *)

Lemma length_entry_bytes e : length (entry_bytes e) = 16%nat.
Proof. reflexivity. Qed.

Definition mbr_writes (rand sectors size : Z) (code : list Z) : list (Z * list Z) :=
  [(510, le_bytes 1 0x55); (511, le_bytes 1 0xAA); (442, le_bytes 4 0); (440, le_bytes 2 (rand mod 65535)); (0, take 440 code);
   (446, entry_bytes (createPartitionTableEntry true sectors size FAT32LBA_TYPE)); (462, entry_bytes createDummyPartitionTableEntry);
   (478, entry_bytes createDummyPartitionTableEntry); (494, entry_bytes createDummyPartitionTableEntry)].

Lemma copy_code_run n i code b :
  0 <= i -> 512 + i + Z.of_nat n <= Z.of_nat (length b) -> 440 + i + Z.of_nat n <= Z.of_nat (length code) ->
  copy_code n i code b = Ok (tt, patch (512 + i) (slice (440 + i) (Z.of_nat n) code) b).
Proof.
  revert i b. induction n as [|n IH]; intros i b Hi Hb Hc; cbn [copy_code].
  - unfold slice, patch, ret. do 2 f_equal. change (Z.to_nat (Z.of_nat 0)) with 0%nat. rewrite take_0. cbn [app length]. by rewrite Nat.add_0_r, take_drop.
  - rewrite (bind_ok _ _ b (Z.of_nat (length b)) b) by done. unfold assert_, BOOT_CODE_SIZE.
    rewrite !(proj2 (Z.ltb_lt _ _)) by lia. rewrite !(bind_ok (ret tt) _ b tt b) by done.
    assert (L : length (slice (440 + i) 1 code) = 1%nat) by (unfold slice; rewrite length_take, length_drop; lia).
    assert (L' : length (slice (440 + (i + 1)) (Z.of_nat n) code) = n) by (unfold slice; rewrite length_take, length_drop; lia).
    rewrite (bind_ok _ _ b tt (patch (512 + i) (slice (440 + i) 1 code) b)) by (apply copy_to_run; rewrite L; lia).
    rewrite IH by (rewrite ?length_patch; rewrite ?L; lia). do 2 f_equal.
    replace (Z.of_nat (S n)) with (1 + Z.of_nat n) by lia. rewrite slice_split by lia. replace (440 + i + 1) with (440 + (i + 1)) by lia.
    rewrite <-patch_patch by (rewrite ?length_app; lia). rewrite L. f_equal. lia.
Qed.

(** One more write after a list of writes. *)
Lemma patches_copy {A} off v l b (k : unit -> M buffer A) :
  Forall (fits (Z.of_nat (length b))) l -> fits (Z.of_nat (length b)) (off, v) -> bind (copy_to off v) k (patches l b) = k tt (patches (l ++ [(off, v)]) b).
Proof.
  intros Hl [H1 H2]. cbn in *. rewrite (bind_ok _ k _ tt (patch off v (patches l b))); [|apply copy_to_run; rewrite length_patches by done; lia].
  by rewrite patches_app.
Qed.
Lemma patches_write {A} n off v l b (k : unit -> M buffer A) :
  Forall (fits (Z.of_nat (length b))) l -> fits (Z.of_nat (length b)) (off, le_bytes n v) ->
  bind (write_at n off v 0) k (patches l b) = k tt (patches (l ++ [(off, le_bytes n v)]) b).
Proof. intros Hl Hf. unfold write_at. rewrite bind_assoc. cbn [Z.eqb orb assert_]. exact (patches_copy off (le_bytes n v) l b k Hl Hf). Qed.

#[local] Ltac fit :=
  repeat first [apply Forall_nil_2 | apply Forall_cons_2]; split; cbn [fst snd]; rewrite ?length_le_bytes, ?length_entry_bytes; lia.
#[local] Ltac apart := repeat first [apply Forall_nil_2 | apply Forall_cons_2]; cbn; lia.

(** The image of a boot loader of [len] bytes: its sectors, and the partition
    after them. *)
(** C33: For a boot loader of at least 440 bytes the boot record tool writes its
    code around the partition table, one bootable entry that starts after the code,
    three unused entries, the signature, and the filling of the partition. *)
Theorem mbr_maker_writes_image malloc rand size code :
  let k := 1 + (Z.of_nat (length code) - 440 + 511) / 512 in
  440 <= Z.of_nat (length code) < 2 ^ 31 -> 0 <= size < 2 ^ 31 -> (forall n, length (malloc n) = Z.to_nat n) ->
  exists image, make_mbr malloc rand size (Some code) = Ok image /\
    Z.of_nat (length image) = 512 * (k + size) /\
    slice 0 440 image = take 440 code /\
    slice 446 16 image = entry_bytes (createPartitionTableEntry true k size FAT32LBA_TYPE) /\
    (forall j, 1 <= j < 4 -> slice (446 + 16 * j) 16 image = entry_bytes createDummyPartitionTableEntry) /\
    slice 510 2 image = [0x55; 0xAA] /\
    slice 512 (Z.of_nat (length code) - 440) image = drop 440 code /\
    slice (512 * k) (512 * size) image = replicate (Z.to_nat (512 * size)) 0xcc.
Proof.
  intros k Hl Hs Hm. set (len := Z.of_nat (length code)) in *.
  assert (Ek : image_sectors len = k).
  { unfold image_sectors, BOOT_CODE_SIZE, k. rewrite (wrap_small 32 (len - 440)) by lia.
    destruct (Z.eqb_spec ((len - 440) mod 512) 0); cbn [negb Z.b2z]; rewrite wrap_small by lia; lia. }
  assert (Hk : 1 <= k < 2 ^ 23 /\ len - 440 <= 512 * (k - 1)) by (unfold k; lia).
  set (b0 := malloc (k * 512)). assert (L0 : length b0 = Z.to_nat (k * 512)) by apply Hm.
  assert (Lt : length (take 440 code) = 440%nat) by (rewrite length_take; lia).
  set (ws := mbr_writes rand k size code).
  assert (Fw : Forall (fits (Z.of_nat (length b0))) ws).
  { rewrite L0. unfold ws, mbr_writes. repeat (constructor; [split; cbn [fst snd]; rewrite ?length_le_bytes, ?Lt, ?length_entry_bytes; lia|]). constructor. }
  set (tail := slice 440 (len - 440) code).
  assert (Ltl : Z.of_nat (length tail) = len - 440) by (unfold tail, slice; rewrite length_take, length_drop; lia).
  set (b := patch 512 tail (patches ws b0)).
  assert (Lp : length (patches ws b0) = Z.to_nat (k * 512)) by (by rewrite length_patches).
  assert (Lb : length b = Z.to_nat (k * 512)) by (unfold b; rewrite length_patch; lia).
  set (full := replicate (Z.to_nat (size * 512)) 0xcc).
  assert (Run : make_mbr malloc rand size (Some code) = Ok (b ++ full)).
  { unfold make_mbr. fold len. rewrite Ek, (wrap_small 32 (k * 512)) by lia. fold b0. change b0 with (patches [] b0) at 1.
    unfold initMBR, BOOT_CODE_SIZE. fold len. rewrite (proj2 (Z.ltb_ge len 440)) by lia. change (slice 0 440 code) with (take 440 code).
    rewrite bind_assoc, patches_write by fit. rewrite bind_assoc, patches_write by fit. rewrite patches_write by fit. rewrite patches_write by fit.
    do 5 (rewrite patches_copy by fit). change (patches _ b0) with (patches ws b0).
    rewrite copy_code_run by lia. change (440 + 0) with 440. rewrite Z2Nat.id by lia. reflexivity. }
  assert (Out : forall o n, 0 <= o -> 0 <= n -> o + n <= k * 512 -> slice o n (b ++ full) = slice o n b).
  { intros o n Ho Hn Hon. unfold slice. rewrite drop_app_le by lia. rewrite take_app_le; [done|]. rewrite length_drop. lia. }
  assert (Fld : forall j o v, ws !! j = Some (o, v) ->
    Forall (fun p => o + Z.of_nat (length v) <= p.1 \/ p.1 + Z.of_nat (length p.2) <= o) (drop (S j) ws) -> o + Z.of_nat (length v) <= 512 ->
    slice o (Z.of_nat (length v)) (b ++ full) = v).
  { intros j o v Hj Hd Ho. pose proof (Forall_lookup_1 _ _ _ _ Fw Hj) as [Ho0 _]. cbn in Ho0. rewrite Out by lia.
    unfold b. rewrite slice_patch_ne by lia. rewrite <-(take_drop_middle _ _ _ Hj) in Fw |- *. by apply slice_patches. }
  exists (b ++ full). split; [exact Run|]. split_and!.
  - unfold full. rewrite length_app, length_replicate, Lb. lia.
  - assert (E := Fld 4%nat 0 (take 440 code) eq_refl). rewrite Lt in E. apply E; [|lia]. apart.
  - apply (Fld 5%nat 446 (entry_bytes (createPartitionTableEntry true k size FAT32LBA_TYPE)) eq_refl); [apart|cbn; lia].
  - intros j Hj. assert (j = 1 \/ j = 2 \/ j = 3) as [-> | [-> | ->]] by lia.
    + apply (Fld 6%nat 462 (entry_bytes createDummyPartitionTableEntry) eq_refl); [apart|cbn; lia].
    + apply (Fld 7%nat 478 (entry_bytes createDummyPartitionTableEntry) eq_refl); [apart|cbn; lia].
    + apply (Fld 8%nat 494 (entry_bytes createDummyPartitionTableEntry) eq_refl); [apart|cbn; lia].
  - change 2 with (1 + 1). rewrite slice_split by lia.
    assert (E1 := Fld 0%nat 510 (le_bytes 1 0x55) eq_refl ltac:(apart) ltac:(cbn; lia)).
    assert (E2 := Fld 1%nat 511 (le_bytes 1 0xAA) eq_refl ltac:(apart) ltac:(cbn; lia)).
    cbn [length le_bytes] in E1, E2. change (Z.of_nat 1) with 1 in E1, E2. change (510 + 1) with 511. by rewrite E1, E2.
  - rewrite Out by lia. unfold b. replace (len - 440) with (Z.of_nat (length tail)) at 1 by lia. rewrite slice_patch_same by lia.
    unfold tail, slice. rewrite take_ge; [done|]. rewrite length_drop. lia.
  - unfold slice. rewrite drop_app_length' by lia. rewrite take_ge; [unfold full; do 2 f_equal; lia|]. unfold full. rewrite length_replicate. lia.
Qed.

Definition demo_boot_code : list Z := replicate 700 0x90.

Lemma mbr_maker_writes_image_witness :
  exists image, make_mbr (fun n => replicate (Z.to_nat n) 0) 7 3 (Some demo_boot_code) = Ok image /\ length image = 2560%nat /\ slice 510 2 image = [0x55; 0xAA].
Proof.
  destruct (mbr_maker_writes_image (fun n => replicate (Z.to_nat n) 0) 7 3 demo_boot_code) as (image & R & L & _ & _ & _ & E & _).
  - vm_compute. split; congruence.
  - lia.
  - intros n. apply length_replicate.
  - exists image. split; [exact R|]. split; [|exact E]. change (512 * (1 + (Z.of_nat (length demo_boot_code) - 440 + 511) / 512 + 3)) with 2560 in L. lia.
Defined.

(** Up to 256 cylinders the address of a sector can be read back from the table
    entry; beyond, the cylinder loses its high bits. *)
(** C34: A partition entry is sixteen bytes in range from which both the linear
    addresses and, up to 256 cylinders, the cylinder, head and sector addresses read
    back; beyond, the cylinder wraps around. *)
Theorem partition_entry_roundtrip bootable first size type :
  0 <= first -> 0 <= size -> first + size < 256 * 1008 -> 0 <= type < 256 ->
  let e := createPartitionTableEntry bootable first size type in
  chs_lba (chs_start e) = first /\ chs_lba (chs_last e) = first + size /\
  le_value (slice 8 4 (entry_bytes e)) = first /\ le_value (slice 12 4 (entry_bytes e)) = size /\
  Forall (fun b => 0 <= b < 256) (entry_bytes e) /\
  chs_lba (lbaToChs (first + 256 * 1008)) = first.
Proof.
  intros H1 H2 H3 Ht. cbv zeta. destruct (lbaToChs_spec first ltac:(lia)) as (E1 & C1 & D1 & S1). destruct (lbaToChs_spec (first + size) ltac:(lia)) as (E2 & C2 & D2 & S2).
  cbn [createPartitionTableEntry chs_start chs_last]. rewrite (wrap_small 32) by lia. split; [exact E1|]. split; [exact E2|]. split; [|split; [|split]].
  - change (slice 8 4 _) with (le_bytes 4 first). rewrite le_value_bytes. apply Z.mod_small. lia.
  - change (slice 12 4 _) with (le_bytes 4 size). rewrite le_value_bytes. apply Z.mod_small. lia.
  - unfold entry_bytes, chs_bytes, createPartitionTableEntry. cbn [drive_attributes chs_start partition_type chs_last lba_start number_of_sectors].
    rewrite !Forall_app. rewrite (wrap_small 32) by lia. split_and!; try apply byte_list_le; repeat first [apply Forall_nil_2 | apply Forall_cons_2]; try lia. by destruct bootable.
  - rewrite <-E1 at 2. f_equal. unfold lbaToChs, wrap. cbv zeta. change (16 * 63) with 1008. f_equal; lia.
Qed.

Lemma partition_entry_roundtrip_witness : chs_lba (chs_start (createPartitionTableEntry true 1 71520 FAT32LBA_TYPE)) = 1.
Proof. apply (partition_entry_roundtrip true 1 71520 FAT32LBA_TYPE); lia || (split; by vm_compute). Defined.
