(* ===== verification/Panic.v ===== *)
(** * Panics and fault messages (HAL/x86-64/kpanic.c,
      HAL/x86-64/interrupt_savedcontext.c, runtime/ssp_support.c, the handlers of kmain.c)

    Elsewhere a panic is only an outcome.  Here is what it does before the
    processor stops: a line on the console.  The saved context of an interrupt is
    the registers the entry stub pushed on the stack. *)

From Stdlib Require Import String Ascii.
From stdpp Require Import list.
From S2P Require Import Prelude Memory Sync Interfaces CircularBuffer Bus Interrupts Display Psf PsfTop Vbe Kio KioScreen KioText KioTop KioVbe KioRuns.
Import Sequential.

Definition str (s : string) : list Z := map (fun c => Z.of_N (N_of_ascii c)) (list_ascii_of_string s).

(** ** The saved context *)

(** Offsets from the start of [x64SavedContext]. *)
Definition sizeof_x64PostSavedContext : Z := 80.
Definition ctx_es (m : mem) (c : Z) : Z := load16 m c.
Definition ctx_ds (m : mem) (c : Z) : Z := load16 m (c + 2).
Definition ctx_fs (m : mem) (c : Z) : Z := load16 m (c + 4).
Definition ctx_gs (m : mem) (c : Z) : Z := load16 m (c + 6).
Definition ctx_rcx (m : mem) (c : Z) : Z := load64 m (c + 40).
Definition ctx_rdx (m : mem) (c : Z) : Z := load64 m (c + 48).
Definition ctx_rsi (m : mem) (c : Z) : Z := load64 m (c + 56).
Definition ctx_rdi (m : mem) (c : Z) : Z := load64 m (c + 64).
Definition ctx_rbp (m : mem) (c : Z) : Z := load64 m (c + 80).
Definition ctx_rip (m : mem) (c : Z) : Z := load64 m (c + 96).
Definition ctx_cs (m : mem) (c : Z) : Z := load64 m (c + 104).
Definition ctx_rflags (m : mem) (c : Z) : Z := load64 m (c + 112).
Definition ctx_rsp (m : mem) (c : Z) : Z := load64 m (c + 120).
Definition ctx_ss (m : mem) (c : Z) : Z := load64 m (c + 128).

Definition getx64SavedContext (interrupt_frame : Z) : Z := wrap64 (interrupt_frame - sizeof_x64PostSavedContext).

Record InterruptArgs : Type := MkInterruptArgs { arg0 : Z; arg1 : Z; arg2 : Z; arg3 : Z }.

Definition get_interrupt_args_from_saved_context (m : mem) (interrupt_savedcontext : Z) : InterruptArgs :=
  let regs := getx64SavedContext interrupt_savedcontext in
  MkInterruptArgs (ctx_rdi m regs) (ctx_rsi m regs) (ctx_rdx m regs) (ctx_rcx m regs).

Section ops.
Context {H D : Type} {HP : HeapProvider H}.
#[local] Abbreviation state := (kio_st H D).
Implicit Types s : state.

(** [gs] is passed as 32 bits where the format reads 64; [high] is what the upper
    half of its slot holds. *)
Definition print_interrupt_savedcontext (high interrupt_savedcontext : Z) : M state unit :=
  m <- gets k_mem;;
  let ctx := getx64SavedContext interrupt_savedcontext in
  printf (str "[SAVED INTERRUPT CONTEXT]" ++ [newline] ++
          str "cs:rip=%x32:%h64, ss:rsp=%x32:%h64, ds=%x32, es=%x32, fs=%x32, gs=%x64" ++ [newline] ++
          str "rflags=%h64, rbp=%h64" ++ [newline])
    [VaInt (wrap32 (ctx_cs m ctx)); VaInt (ctx_rip m ctx); VaInt (wrap32 (ctx_ss m ctx)); VaInt (ctx_rsp m ctx);
     VaInt (ctx_ds m ctx); VaInt (ctx_es m ctx); VaInt (ctx_fs m ctx); VaInt (ctx_gs m ctx + 2 ^ 32 * high);
     VaInt (ctx_rflags m ctx); VaInt (ctx_rbp m ctx)].

(** ** Panics *)

(** What [kpanic] and [kpanic_with_msg] do before the processor stops. *)
Definition kpanic_print (error_code : Z) : M state unit :=
  i <- gets is_kio_initialized;;
  when i (printf (str "[KERNEL PANIC] %u64" ++ [newline]) [VaInt error_code];; kio_flush).
Definition kpanic_with_msg_print (error_code : Z) (msg : list Z) : M state unit :=
  i <- gets is_kio_initialized;;
  when i (printf (str "[KERNEL PANIC] error code = %u64, msg = %s" ++ [newline]) [VaInt error_code; VaString msg];; kio_flush).

Definition kpanic_screen {A} (error_code : Z) : M state A := kpanic_print error_code;; kpanic error_code.
Definition kpanic_with_msg {A} (error_code : Z) (msg : list Z) : M state A := kpanic_with_msg_print error_code msg;; kpanic error_code.

Definition stack_chk_fail : M state unit := kpanic_screen STACK_SMASHING.

(** ** Handlers of kmain.c *)

Definition general_protection_fault (info : InterruptInfo) : M state unit :=
  printf (str "[GENERAL PROTECTION FAULT] error: %h64" ++ [newline]) [VaInt (info_error info)];;
  kpanic_screen UNRECOVERABLE_GPF.

(** [where_] is the place of the assertion, in its message. *)
Definition interrupt_print (where_ : list Z) (info : InterruptInfo) : M state unit :=
  (if 32 <? interrupt_number info then ret tt else kpanic_with_msg FAILED_ASSERT where_);;
  printf (str "[INT %u64] error: %h64" ++ [newline]) [VaInt (interrupt_number info); VaInt (info_error info)].

(** The processor stops in [freeze_cpu] with interrupts disabled. *)
Definition freeze_interrupt (info : InterruptInfo) : M state unit :=
  printf (str "freezing cpu" ++ [newline]) [];;
  kio_flush;;
  hang.
End ops.

(** ** What reaches the screen *)

Definition lits (s : string) : list item := map Lit (str s).


Definition panic_items (code : Z) : list item := lits "[KERNEL PANIC] " ++ [U64 code; Lit newline].
Definition context_items (m : mem) (high c : Z) : list item :=
  lits "[SAVED INTERRUPT CONTEXT]" ++ [Lit newline] ++
  lits "cs:rip=" ++ [X32 (wrap32 (ctx_cs m c))] ++ lits ":" ++ [H64 (ctx_rip m c)] ++
  lits ", ss:rsp=" ++ [X32 (wrap32 (ctx_ss m c))] ++ lits ":" ++ [H64 (ctx_rsp m c)] ++
  lits ", ds=" ++ [X32 (ctx_ds m c)] ++ lits ", es=" ++ [X32 (ctx_es m c)] ++ lits ", fs=" ++ [X32 (ctx_fs m c)] ++
  lits ", gs=" ++ [X64 (ctx_gs m c + 2 ^ 32 * high)] ++ [Lit newline] ++
  lits "rflags=" ++ [H64 (ctx_rflags m c)] ++ lits ", rbp=" ++ [H64 (ctx_rbp m c)] ++ [Lit newline].

(** Characters of a literal that is printed as it is. *)
Lemma lits_ok s : forallb (fun c => negb (c =? percent)) (str s) = true -> Forall item_ok (lits s).
Proof.
  intros E. unfold lits. apply Forall_map, Forall_forall. intros c Hc. rewrite forallb_forall in E. specialize (E c).
  rewrite <-list_elem_of_In in E. specialize (E Hc). cbn. by destruct (Z.eqb_spec c percent).
Qed.

Lemma str_range s : Forall (fun c => 0 <= c < 256) (str s).
Proof. unfold str. apply Forall_map, Forall_true. intros c. cbn. pose proof (N_ascii_bounded c). lia. Qed.

Lemma text_lits s : text (lits s) = str s.
Proof. unfold text, lits. rewrite map_map. cbn. induction (str s) as [|c l IH]; [done|]. cbn. by rewrite IH. Qed.

Lemma text_app l1 l2 : text (l1 ++ l2) = text l1 ++ text l2.
Proof. unfold text. by rewrite map_app, concat_app. Qed.

Lemma dec_text_range n : Forall (fun c => 0 <= c < 256) (dec_text n).
Proof.
  unfold dec_text. apply Forall_app. split; [destruct (n =? 0); repeat constructor; lia|].
  apply Forall_map. apply (Forall_impl (fun d => 0 <= d < 10)); [|intros d Hd; cbn; lia]. apply Forall_reverse, digits_range. lia.
Qed.

Section screen.
Context {H D : Type} {HP : HeapProvider H} {CD : @ConsoleDisplay H D}.
#[local] Abbreviation state := (kio_st H D).
Implicit Types (s : state) (q : list Z).

Lemma kio_flush_run q s g :
  console_inv q s -> geometry_of s g -> kio_lock s = false ->
  exists s', kio_flush s = Ok (tt, s') /\ kio_lock s' = false /\ k_if s' = k_if s /\
    console_inv [] s' /\ geometry_of s' g /\ term_eq g (abs s') (term_write g (abs s) q) /\ (q <> [] -> shown (k_dev s') (k_mem s') (kio_state s')).
Proof.
  intros C G Hl. unfold kio_flush. apply kio_locked_run; [done|]. set (s0 := put kio_lock_lens true (put k_if_lens false s)).
  destruct (flush_run q s0 g) as (s1 & R & C1 & G1 & [F1 F2] & T & Sh); [by apply (console_inv_flags q s)|by apply (geometry_flags s)|].
  exists s1. split; [exact R|]. split; [exact F1|]. split; [exact F2|]. intros s' E1 E2 E3. split_and!.
  - by apply (console_inv_flags [] s1).
  - by apply (geometry_flags s1).
  - etrans; [|exact T]. unfold abs, pic, width. rewrite E2, E3. done.
  - intros Hq. rewrite E1, E2, E3. by apply Sh.
Qed.

Lemma kio_flush_empty s :
  console_inv [] s -> kio_lock s = false ->
  exists s', kio_flush s = Ok (tt, s') /\ kio_lock s' = false /\ k_if s' = k_if s /\ (k_dev s' = k_dev s /\ k_mem s' = k_mem s /\ kio_state s' = kio_state s).
Proof.
  intros [I _] Hl. unfold kio_flush. apply kio_locked_run; [done|]. set (s0 := put kio_lock_lens true (put k_if_lens false s)).
  exists s0. split; [|done]. unfold unsync_flush. rewrite (bind_ok _ _ s0 (kio_state s) s0) by done. rewrite (ring_empty _ _ _ (ki_cb _ _ I)).
  by rewrite bool_decide_eq_true_2.
Qed.

(** A panic shows what was queued and its code; inside of the console it waits
    for the lock its own processor holds. *)
(** C37: A panic of an initialised console whose lock is free puts its line on the
    screen, after what was queued, before the processor stops; when the lock is held by
    the same processor the panic never reports. *)
Theorem panic_message_reaches_screen code q s g :
  console_inv q s -> geometry_of s g -> is_initialized s = true -> 0 <= code < 2 ^ 64 ->
  Z.of_nat (length (q ++ text (panic_items code))) < buffer_size (char_buffer (kio_state s)) -> 32 <= buffer_size (char_buffer (kio_state s)) ->
  (kio_lock s = false ->
    kpanic_screen code s = @Panic (unit * state) code /\
    exists s', kpanic_print code s = Ok (tt, s') /\ console_inv [] s' /\
      term_eq g (abs s') (term_write g (abs s) (q ++ str "[KERNEL PANIC] " ++ dec_text code ++ [newline])) /\ shown (k_dev s') (k_mem s') (kio_state s')) /\
  (kio_lock s = true -> kpanic_screen code s = @Hang (unit * state)).
Proof.
  intros C G Hi Hc Hr Hb.
  assert (Et : text (panic_items code) = str "[KERNEL PANIC] " ++ dec_text code ++ [newline]).
  { unfold panic_items. rewrite text_app, text_lits. unfold text. cbn [map concat item_text]. by rewrite app_nil_r. }
  assert (Ef : forall u, printf (str "[KERNEL PANIC] %u64" ++ [newline]) [VaInt code] u = print (text (panic_items code)) u :> outcome (unit * state)).
  { intros u. rewrite <-printf_run; [done|]. unfold panic_items. apply Forall_app. split; [by apply lits_ok|]. repeat constructor; cbn; done || lia. }
  assert (Run : kio_lock s = false -> exists s', kpanic_print code s = Ok (tt, s') /\ console_inv [] s' /\
      term_eq g (abs s') (term_write g (abs s) (q ++ text (panic_items code))) /\ shown (k_dev s') (k_mem s') (kio_state s')).
  { intros Hl. unfold kpanic_print. rewrite (bind_ok _ _ s true s) by (unfold gets, is_kio_initialized; by rewrite Hi). cbn [when].
    destruct (print_spec (text (panic_items code)) q s g C G Hl) as (s1 & R1 & L1 & F1 & G1 & P1); [|done|done|].
    { rewrite Et. apply Forall_app. split; [apply str_range|]. apply Forall_app. split; [apply dec_text_range|repeat constructor; unfold newline; lia]. }
    rewrite (bind_ok _ _ s tt s1) by (by rewrite Ef).
    destruct (decide (32 <= length (q ++ text (panic_items code)))%nat).
    - destruct P1 as (C1 & T1 & Sh1). destruct (kio_flush_empty s1 C1 L1) as (s2 & R2 & _ & _ & E1 & E2 & E3).
      exists s2. split; [exact R2|]. split; [by apply (console_inv_flags [] s1)|]. rewrite E1, E2, E3. split; [|done].
      etrans; [|exact T1]. unfold abs, pic, width. by rewrite E2, E3.
    - destruct P1 as (C1 & T1). destruct (kio_flush_run _ s1 g C1 G1 L1) as (s2 & R2 & _ & _ & C2 & _ & T2 & Sh2).
      exists s2. split; [exact R2|]. split; [exact C2|]. split; [|apply Sh2; rewrite Et; by destruct q].
      etrans; [exact T2|]. apply term_write_proper; [|exact T1|done]. rewrite (go_fh _ _ G). apply (ki_font _ _ (proj1 C)). }
  split.
  - intros Hl. destruct (Run Hl) as (s' & R & C' & T' & Sh'). split; [unfold kpanic_screen; by rewrite (bind_ok _ _ _ _ _ R)|].
    exists s'. rewrite <-Et. done.
  - intros Hl. unfold kpanic_screen, kpanic_print, printf, kio_locked. unfold bind at 1 2, gets, is_kio_initialized. rewrite Hi. cbn [when].
    unfold bind at 1. by rewrite with_spinlock_hard_held.
Qed.

(** The report of a saved context is the text of its registers. *)
Lemma print_saved_context_run high frame s :
  0 <= high < 2 ^ 32 -> print_interrupt_savedcontext high frame s = print (text (context_items (k_mem s) high (getx64SavedContext frame))) s.
Proof.
  intros Hh. unfold print_interrupt_savedcontext. rewrite (bind_ok _ _ s (k_mem s) s) by done. cbv zeta. set (c := getx64SavedContext frame).
  rewrite <-printf_run; [done|].
  assert (R16 : forall a, 0 <= load16 (k_mem s) a < 2 ^ 16) by (intros a; apply (load_le_range 2)).
  assert (R64 : forall a, 0 <= load64 (k_mem s) a < 2 ^ 64) by (intros a; apply load64_range).
  unfold context_items. repeat (apply Forall_app; split); try (by apply lits_ok); repeat constructor; cbn [item_ok]; try done;
    unfold ctx_ds, ctx_es, ctx_fs, ctx_gs; try apply R64; try apply wrap_range; try lia;
    match goal with |- context [load16 ?m ?a] => pose proof (R16 a); lia end.
Qed.
End screen.

(** ** A panic on a concrete machine *)

Lemma panic_message_reaches_screen_witness :
  kpanic_screen HEAP_OUT_OF_MEM demo = @Panic (unit * kio_st unit (vbe_state unit)) HEAP_OUT_OF_MEM /\
  exists s', kpanic_print HEAP_OUT_OF_MEM demo = Ok (tt, s') /\
    term_eq demo_geometry (abs s') (term_write demo_geometry (abs demo) (str "[KERNEL PANIC] 9" ++ [newline])).
Proof.
  destruct (panic_message_reaches_screen HEAP_OUT_OF_MEM [] demo demo_geometry) as [P _].
  - split; [apply demo_console_inv|apply demo_vbe].
  - apply demo_geometry_of.
  - reflexivity.
  - unfold HEAP_OUT_OF_MEM. lia.
  - vm_compute. reflexivity.
  - vm_compute. congruence.
  - destruct (P eq_refl) as (E & s' & R & _ & T & _). split; [exact E|]. exists s'. split; [exact R|exact T].
Defined.
