(* ===== verification/Report.v ===== *)
(** * Reports on the console

    The functions that print the state of a component: the list of regions of a
    manager (mem/vmm.c), the interrupt controllers
    (interrupt/apic.c, interrupt/ioapic.c), the firmware tables (acpi/acpi.c),
    the kernel image and the memory map (kmain.c).

    Such a function reads the component and writes on the console.  [writes m y a
    y' l] says that whatever the console shows and has queued, [m] on the
    component state [y] returns [a] and [y'] with the text [l] written; it
    composes along [bind]. *)

From Stdlib Require Import String Ascii.
From stdpp Require Import list.
From S2P Require Import Prelude Memory Sync Interfaces Paging Vmm VmmInv CircularBuffer BootMem Elf Bus Acpi Madt Shootdown Apic ApicTop Ioapic Display Psf PsfTop Kio KioScreen KioText KioTop Panic.
Import Sequential.

Record report_state (S H D : Type) : Type := Rep { rp_sys : S; rp_con : kio_st H D }.
Arguments Rep {S H D}.
Arguments rp_sys {S H D}.
Arguments rp_con {S H D}.

(** A line of text. *)
Definition line (t : string) : list Z := str t ++ [newline].

Section logic.
Context {S H D : Type} {HP : HeapProvider H}.
#[local] Abbreviation state := (report_state S H D).
Implicit Types (y : S) (c : kio_st H D).

Definition sys_lens : lens state S := Lens rp_sys (fun y s => Rep y (rp_con s)).
Definition con_lens : lens state (kio_st H D) := Lens rp_con (fun c s => Rep (rp_sys s) c).
Definition sys {A} (m : M S A) : M state A := zoom sys_lens m.
Definition out {A} (m : M (kio_st H D) A) : M state A := zoom con_lens m.

Definition say (l : list Z) : M state unit := out (print l).
Definition say_hex (n : Z) : M state unit := out (print_uint64_hex n).
Definition say_dec (n : Z) : M state unit := out (print_uint64_dec n).
Definition say_format (format : list Z) (args : list va_value) : M state unit := out (printf format args).

(** ** The size of the queue is fixed *)

Definition room c : Z := buffer_size (char_buffer (kio_state c)).
Definition keeps_room {A} (m : M (kio_st H D) A) : Prop := forall c a c', m c = Ok (a, c') -> room c' = room c.

Lemma keeps_room_ret {A} (a : A) : keeps_room (ret a).
Proof. intros c a' c' [= _ <-]. done. Qed.
Lemma keeps_room_gets {A} (f : kio_st H D -> A) : keeps_room (gets f).
Proof. intros c a' c' [= _ <-]. done. Qed.
Lemma keeps_room_get : keeps_room get.
Proof. intros c a' c' [= _ <-]. done. Qed.
Lemma keeps_room_bind {A B} (m : M (kio_st H D) A) (f : A -> M (kio_st H D) B) : keeps_room m -> (forall a, keeps_room (f a)) -> keeps_room (bind m f).
Proof.
  intros Hm Hf c b c' R. unfold bind in R. destruct (m c) as [[a c1]| | | |] eqn:E; try discriminate R.
  rewrite (Hf a _ _ _ R). by eapply Hm.
Qed.
Lemma keeps_room_modify (f : kio_st H D -> kio_st H D) : (forall c, room (f c) = room c) -> keeps_room (modify f).
Proof. intros Hf c a c' [= _ <-]. apply Hf. Qed.
Lemma keeps_room_when (b : bool) (m : M (kio_st H D) unit) : keeps_room m -> keeps_room (when b m).
Proof. intros Hm. destruct b; [exact Hm|apply keeps_room_ret]. Qed.
Lemma keeps_room_cb {A} (m : M (cb_state H) A) : keeps_room (zoom k_cb_lens m).
Proof. intros c a c' R. unfold zoom in R. destruct (m _) as [[? ?]| | | |]; try discriminate R. injection R as _ <-. done. Qed.
Lemma keeps_room_screen {A} (m : M (screen D) A) : keeps_room (zoom k_screen_lens m).
Proof. intros c a c' R. unfold zoom in R. destruct (m _) as [[? ?]| | | |]; try discriminate R. injection R as _ <-. done. Qed.
Lemma keeps_room_locked {A} (m : M (kio_st H D) A) : keeps_room m -> keeps_room (kio_locked m).
Proof.
  intros Hm c a c' R. unfold kio_locked in R. destruct (with_spinlock_hard_inv _ _ _ _ _ _ R) as (c1 & R1).
  destruct (kio_lock c) eqn:EL; [by rewrite with_spinlock_hard_held in R|].
  rewrite (with_spinlock_hard_run kio_lock_lens k_if_lens m c a c1) in R by done. injection R as <-.
  pose proof (Hm _ _ _ R1) as E. cbn [view k_if_lens]. destruct (k_if c); exact E.
Qed.
End logic.

Create HintDb room.
#[export] Hint Resolve keeps_room_ret keeps_room_get keeps_room_gets keeps_room_bind keeps_room_modify keeps_room_when keeps_room_cb keeps_room_screen keeps_room_locked : room.

Section console.
Context {H D : Type} {HP : HeapProvider H}.
Implicit Types (c : kio_st H D).

Lemma keeps_room_write_char b : keeps_room (H := H) (D := D) (unsync_write_char b).
Proof. unfold unsync_write_char, next_line, scroll, move_cursor. repeat (apply keeps_room_bind || apply keeps_room_when || match goal with |- forall _ : _, keeps_room _ => intros ? end); auto with room; by apply keeps_room_modify. Qed.

Lemma keeps_room_flush_loop fuel : keeps_room (H := H) (D := D) (flush_loop fuel).
Proof.
  induction fuel as [|fuel IH]; [by intros c a c' R|]. intros c a c' R. cbn [flush_loop] in R. unfold bind at 1 in R. cbn [gets] in R.
  destruct (is_circular_buffer_empty _); [by injection R as _ <-|]. unfold bind at 1 in R.
  destruct (zoom k_cb_lens (read_circular_buffer (char_buffer (kio_state c))) c) as [[[b cb] c1]| | | |] eqn:E; try discriminate R.
  assert (Eb : buffer_size cb = room c).
  { unfold zoom in E. destruct (read_circular_buffer _ _) as [[[b' cb'] y]| | | |] eqn:Ew; try discriminate E. injection E as <- <- _.
    unfold read_circular_buffer in Ew. unfold bind in Ew. destruct (KASSERT _ _) as [[? ?]| | | |]; try discriminate Ew. cbn [gets] in Ew.
    destruct (next_idx _ _ _) as [[? ?]| | | |]; try discriminate Ew. by injection Ew as _ <- _. }
  unfold bind at 1 in R. cbn [modify_kio modify] in R. eapply (keeps_room_bind _ _ (keeps_room_write_char b) (fun _ => IH)) in R. by rewrite R.
Qed.

Lemma keeps_room_flush : keeps_room (H := H) (D := D) unsync_flush.
Proof.
  unfold unsync_flush. apply keeps_room_bind; [apply keeps_room_gets|]. intros k. case_match; [apply keeps_room_ret|].
  apply keeps_room_bind; [apply keeps_room_flush_loop|]. intros _. apply keeps_room_bind; auto with room.
Qed.

Lemma keeps_room_putchar b f : keeps_room (H := H) (D := D) (unsync_putchar b f).
Proof.
  intros c a c' R. unfold unsync_putchar in R. unfold bind at 1 in R. cbn [gets] in R. unfold bind at 1 in R.
  destruct (zoom k_cb_lens (write_circular_buffer (char_buffer (kio_state c)) b) c) as [[cb c1]| | | |] eqn:E; try discriminate R.
  assert (Er : room c1 = room c) by (by eapply keeps_room_cb).
  assert (Eb : buffer_size cb = room c).
  { unfold zoom in E. destruct (write_circular_buffer _ _ _) as [[cb' y]| | | |] eqn:Ew; try discriminate E. injection E as <- _.
    unfold write_circular_buffer in Ew. cbv zeta in Ew. unfold bind in Ew. destruct (modify _ _) as [[? ?]| | | |]; try discriminate Ew.
    destruct (next_idx _ _ _) as [[? ?]| | | |]; try discriminate Ew. by injection Ew as <- _. }
  unfold bind in R. cbn [modify_kio modify] in R. eapply (keeps_room_when f _ keeps_room_flush) in R. by rewrite R.
Qed.

Lemma keeps_room_print l : keeps_room (H := H) (D := D) (print l).
Proof.
  apply keeps_room_locked, keeps_room_bind; [induction l as [|b l IH]; [apply keeps_room_ret|apply keeps_room_bind; [apply keeps_room_putchar|done]]|].
  intros _. unfold unsync_opt_flush. apply keeps_room_bind; [apply keeps_room_gets|]. intros k. apply keeps_room_when, keeps_room_flush.
Qed.

(** ** What is written *)

Context {CD : @ConsoleDisplay H D} (g : geometry) (N : Z).

(** The console shows [t] once its queue is flushed; its lock is free. *)
Definition ready (t : terminal) c : Prop :=
  exists q, console_inv q c /\ geometry_of c g /\ kio_lock c = false /\ room c = N /\ (length q < 32)%nat /\
    term_eq g (term_write g (abs c) q) t.

Lemma ready_font t c : ready t c -> 0 < g_fh g.
Proof. intros (q & [I _] & G & _). rewrite (go_fh _ _ G). apply (ki_font _ _ I). Qed.

Lemma term_write_app t l1 l2 : term_write g t (l1 ++ l2) = term_write g (term_write g t l1) l2.
Proof. apply fold_left_app. Qed.

(** A text that fits into the queue with what may be pending. *)
Definition fits_queue (l : list Z) : Prop := Forall (fun b => 0 <= b < 256) l /\ Z.of_nat (length l) + 32 <= N.

Lemma ready_print t c l :
  ready t c -> fits_queue l -> exists c', print l c = Ok (tt, c') /\ ready (term_write g t l) c'.
Proof.
  intros HRd [Hl HN]. pose proof (ready_font _ _ HRd) as Hg. destruct HRd as (q & C & G & L & E & Hq & T).
  destruct (print_spec l q c g C G L Hl) as (c' & R & L' & _ & G' & P'); [fold (room c); rewrite E, length_app; lia|fold (room c); rewrite E; lia|].
  pose proof (keeps_room_print _ _ _ _ R) as E'. exists c'. split; [exact R|]. destruct (decide (32 <= length (q ++ l))%nat).
  - destruct P' as (C' & T' & _). exists []. split_and!; [done|done|done|congruence|cbn; lia|].
    cbn [term_write fold_left]. rewrite T', term_write_app. by apply (term_write_proper g Hg).
  - destruct P' as (C' & T'). exists (q ++ l). split_and!; [done|done|done|congruence|lia|].
    rewrite term_write_app. apply (term_write_proper g Hg); [|done]. rewrite <-T. by apply (term_write_proper g Hg).
Qed.

Context {S : Type}.
Implicit Types (y : S).

Definition writes {A} (m : M (report_state S H D) A) y (a : A) y' (l : list Z) : Prop :=
  forall c t, ready t c -> exists c', m (Rep y c) = Ok (a, Rep y' c') /\ ready (term_write g t l) c'.

Lemma writes_bind {A B} (m : M (report_state S H D) A) (f : A -> M (report_state S H D) B) y a y1 l1 b y2 l2 :
  writes m y a y1 l1 -> writes (f a) y1 b y2 l2 -> writes (bind m f) y b y2 (l1 ++ l2).
Proof.
  intros Hm Hf c t HR. destruct (Hm c t HR) as (c1 & R1 & HR1). destruct (Hf c1 _ HR1) as (c2 & R2 & HR2).
  exists c2. rewrite term_write_app. split; [|done]. by rewrite (bind_ok _ _ _ _ _ R1).
Qed.

Lemma writes_ret {A} (a : A) y : writes (ret a) y a y [].
Proof. intros c t HR. exists c. done. Qed.

Lemma writes_sys {A} (m : M S A) y a y' : m y = Ok (a, y') -> writes (sys m) y a y' [].
Proof. intros R c t HR. exists c. unfold sys, zoom. cbn [view sys_lens rp_sys]. by rewrite R. Qed.

Lemma writes_say l y : fits_queue l -> writes (say l) y tt y l.
Proof.
  intros Hl c t HR. destruct (ready_print t c l HR Hl) as (c' & R & HR'). exists c'. unfold say, out, zoom. cbn [view con_lens rp_con]. by rewrite R.
Qed.

(** Texts of the reports are short of the queue. *)
Context (HN : 160 <= N).

Lemma fits_app l1 l2 : Forall (fun b => 0 <= b < 256) l1 -> Forall (fun b => 0 <= b < 256) l2 -> Z.of_nat (length l1 + length l2) <= 128 -> fits_queue (l1 ++ l2).
Proof. intros H1 H2 H3. split; [by apply Forall_app|]. rewrite length_app. lia. Qed.

Lemma fits_bytes l : forallb (fun b => (0 <=? b) && (b <? 256)) l && (Z.of_nat (length l) <=? 128) = true -> fits_queue l.
Proof.
  intros [H1 H2%Z.leb_le]%andb_true_iff. split; [|lia]. apply Forall_forall. intros b Hb. rewrite forallb_forall in H1. specialize (H1 b). rewrite <-list_elem_of_In in H1.
  specialize (H1 Hb). lia.
Qed.

Lemma fits_hex n : fits_queue (hex_padded_text n 8).
Proof.
  apply fits_app; [repeat constructor; lia| |].
  - apply Forall_map, Forall_take. unfold hex_all. apply Forall_app. split; [apply Forall_replicate; cbn; lia|]. apply Forall_reverse.
    eapply Forall_impl; [apply (digits_range 16 16 n); lia|]. intros d Hd. cbn. unfold digit_char. cbn in Hd. destruct (10 <=? d) eqn:E; lia.
  - rewrite length_map, length_take, hex_all_length. cbn. lia.
Qed.

Lemma fits_dec n : fits_queue (dec_text n).
Proof.
  split; [apply dec_text_range|]. unfold dec_text. rewrite length_app, length_map, length_reverse. pose proof (digits_length 20 10 n). unfold dec_digits. destruct (n =? 0); cbn [length]; lia.
Qed.

Lemma writes_out (m : M (kio_st H D) unit) l y : (forall c, m c = print l c) -> fits_queue l -> writes (out m) y tt y l.
Proof. intros E Hl c t HR. destruct (writes_say l y Hl c t HR) as (c' & R & HR'). exists c'. split; [|done]. rewrite <-R. unfold out, say, out, zoom. by rewrite E. Qed.

Lemma writes_hex n y : 0 <= n < 2 ^ 64 -> writes (say_hex n) y tt y (hex_padded_text n 8).
Proof. intros Hn. apply writes_out; [|apply fits_hex]. intros c. by apply print_uint64_hex_run. Qed.

Lemma writes_dec n y : 0 <= n < 2 ^ 64 -> writes (say_dec n) y tt y (dec_text n).
Proof. intros Hn. apply writes_out; [|apply fits_dec]. intros c. by apply print_uint64_dec_run. Qed.

Lemma writes_format items y : Forall item_ok items -> fits_queue (text items) -> writes (say_format (formats items) (arguments items)) y tt y (text items).
Proof. intros Hi Hl. apply writes_out; [|exact Hl]. intros c. by apply printf_run. Qed.

(** A step for each element of a list. *)
Fixpoint each {A} (f : A -> M (report_state S H D) unit) (l : list A) : M (report_state S H D) unit :=
  match l with [] => ret tt | x :: l' => f x;; each f l' end.

Lemma writes_each {A} (f : A -> M (report_state S H D) unit) (txt : A -> list Z) l y :
  (forall x, x ∈ l -> writes (f x) y tt y (txt x)) -> writes (each f l) y tt y (concat (txt <$> l)).
Proof.
  induction l as [|x l IH]; intros Hf; [apply writes_ret|]. cbn [each fmap list_fmap concat]. eapply writes_bind; [apply Hf, list_elem_of_here|].
  apply IH. intros z Hz. apply Hf. by apply list_elem_of_further.
Qed.

Lemma writes_same {A} (m : M (report_state S H D) A) y a y' l l' : writes m y a y' l -> l = l' -> writes m y a y' l'.
Proof. by intros Hm <-. Qed.
End console.

(** The calls of a report; [tac] proves that the numbers are 64-bit ones and that
    the reads succeed. *)
Ltac write_step tac :=
  match goal with
  | |- writes _ _ (bind _ _) _ _ _ _ => eapply writes_bind
  | |- writes _ _ (say_hex _) _ _ _ _ => apply writes_hex; [assumption|tac]
  | |- writes _ _ (say_dec _) _ _ _ _ => apply writes_dec; [assumption|tac]
  | |- writes _ _ (say _) _ _ _ _ => apply writes_say; first [apply fits_bytes; [assumption|vm_compute; reflexivity] | tac]
  | |- writes _ _ (ret _) _ _ _ _ => apply writes_ret
  | |- writes _ _ (sys _) _ _ _ _ => apply writes_sys; tac
  end.

(** ** The regions of a manager (mem/vmm.c) *)

Section vmm_reports.
Context {F Hv Dv H D : Type} {FP : FrameProvider F} {HPv : HeapProvider Hv} {SP : ShootdownProvider Dv} {HP : HeapProvider H}.
#[local] Abbreviation state := (report_state (vmm_state F Hv Dv) H D).

(** [for(d = ...; d != NULL; d = d->next)] *)
Fixpoint print_regions (fuel : nat) (p : Z) : M state unit :=
  match fuel with
  | O => out_of_fuel
  | S fuel' =>
      if p =? NULL then ret tt else
      d <- sys (read_desc p);;
      say_hex (start_vaddr d);;
      say (str " / ");;
      say_hex (wrap64 (start_vaddr d + size_bytes d));;
      say (str " -> ");;
      say (str (get_vm_type_string (type d)));;
      say (str " [");;
      say_dec (get_no_padding_size d / MB);;
      say (str " MiB]");;
      say [newline];;
      print_regions fuel' (next d)
  end.

Definition debug_print_vmm (vmm : Z) : M state unit :=
  v <- sys (read_vmm vmm);;
  say ([newline] ++ line "-----kernel VMM state start-----");;
  say (str "kernel paging structure: ");;
  say_hex (paging_structure v);;
  say [newline];;
  say (line "virtual adresses:");;
  fuel <- sys (gets desc_fuel);;
  print_regions fuel (vm_list_head v);;
  say (line "-----kernel VMM state end-----").
End vmm_reports.

(** ** The interrupt controllers (interrupt/apic.c, interrupt/ioapic.c) *)

Definition APIC_REG_OFFSET_LVT_CMCI : Z := 0x2F0.
Definition APIC_REG_OFFSET_LVT_TIMER : Z := 0x320.
Definition APIC_REG_OFFSET_LVT_THERMAL_SENSOR : Z := 0x330.
Definition APIC_REG_OFFSET_LVT_PERFORMANCE_MONITORING_COUNTERS : Z := 0x340.

Section controller_reports.
Context {V Ha H D : Type} {MP : MappingProvider V} {HPa : HeapProvider Ha} {DV : Device} {HP : HeapProvider H}.

(** A label, the register and the end of the line. *)
Definition print_register (label : string) (register_offset : Z) : M (report_state (apic_state V Ha) H D) unit :=
  say (str label);;
  v <- sys (read_32_lapic_register register_offset);;
  say_hex v;;
  say [newline].

Definition print_lapic_state : M (report_state (apic_state V Ha) H D) unit :=
  say (line "LOCAL APIC REGISTERS:");;
  print_register "ID = " APIC_REG_OFFSET_LAPIC_ID;;
  print_register "VERSION = " APIC_REG_OFFSET_LAPIC_VERSION;;
  print_register "ERROR STATUS = " APIC_REG_OFFSET_ERROR_STATUS;;
  print_register "LVT CMCI = " APIC_REG_OFFSET_LVT_CMCI;;
  print_register "LVT TIMER = " APIC_REG_OFFSET_LVT_TIMER;;
  print_register "LVT THERMAL SENSOR = " APIC_REG_OFFSET_LVT_THERMAL_SENSOR;;
  print_register "LVT PERFORMANCE MONITORING COUNTERS = " APIC_REG_OFFSET_LVT_PERFORMANCE_MONITORING_COUNTERS;;
  print_register "LVT LINT0 = " APIC_REG_OFFSET_LVT_LINT0;;
  print_register "LVT LINT1 = " APIC_REG_OFFSET_LVT_LINT1;;
  print_register "LVT ERROR = " APIC_REG_OFFSET_LVT_ERROR.

Definition apic_error_interrupt_handler : M (report_state (apic_state V Ha) H D) unit :=
  say (str "APIC ERROR: ");;
  e <- sys read_apic_error;;
  say_hex e;;
  say [newline];;
  sys (kpanic APIC_ERROR).

Definition read_ioapic (i : nat) : M (ioapic_state V Ha) IOAPIC := fun s =>
  match ioapics (ioapic_gdata s) !! i with Some x => Ok (x, s) | None => Fault end.

Definition print_ioapic (i : nat) : M (report_state (ioapic_state V Ha) H D) unit :=
  ioapic <- sys (read_ioapic i);;
  say (line "---------------------------------");;
  say (str "IOAPIC madt ID: ");;
  id <- sys (gets (fun s => ics_IO_APIC_ID (read_ICS_IO_APIC (io_mem s) (ics_ioapic ioapic))));;
  say_dec id;;
  say [newline];;
  say (str "IOAPIC read ID: ");;
  say_dec (ioapic_id ioapic);;
  say [newline];;
  say (str "IOAPIC physical address: ");;
  say_hex (physical_base_address ioapic);;
  say [newline];;
  say (str "IOAPIC version: ");;
  say_dec (version ioapic);;
  say [newline];;
  say (str "IOAPIC maximum redirection entry: ");;
  say_dec (maximum_redirection_entry ioapic);;
  say [newline].

Definition print_ioapic_states : M (report_state (ioapic_state V Ha) H D) unit :=
  g <- sys (gets ioapic_gdata);;
  if ioapic_array g =? NULL then say (line "NO IOAPIC DATA AVAILABLE") else
  istate <- sys (acquire_spinlock_hard io_lock_lens io_if_lens);;
  say (str "Number of ioapics: ");;
  say_dec (ioapic_array_size g);;
  say [newline];;
  say (line "IOAPICS states: ");;
  each print_ioapic (seq 0 (Z.to_nat (ioapic_array_size g)));;
  sys (release_spinlock_hard io_lock_lens io_if_lens istate).

(** ** The firmware tables (acpi/acpi.c) *)

(** What [print] takes of a buffer: the bytes before the first zero. *)
Fixpoint c_string (l : list Z) : list Z :=
  match l with [] => [] | b :: l' => if b =? 0 then [] else b :: c_string l' end.

(** The buffer with the four bytes of a signature written over its start. *)
Definition signature_text (sig : Z) : list Z :=
  c_string ([sig mod 256; sig / 256 mod 256; sig / 65536 mod 256; sig / 16777216 mod 256; newline]).

Definition print_signature (entries : Z) (i : nat) : M (report_state (acpi_state V) H D) unit :=
  header <- sys (gets (fun s => table_entry (acpi_mem s) entries 4 (Z.of_nat i)));;
  sig <- sys (deref header table_signature);;
  say (signature_text sig).

Definition print_acpi_rsdt : M (report_state (acpi_state V) H D) bool :=
  rsdp <- sys (gets cached_rsdp);;
  sys (KASSERT (negb (rsdp =? NULL)));;
  rsdt <- sys (deref rsdp get_rsdt);;
  let entries := wrap64 (rsdt + sizeof_ACPI_description_header) in
  bytes <- sys (deref rsdt get_acpi_table_headerless_lenght);;
  say (line "ACPI table signatures: " ++ [newline]);;
  each (print_signature entries) (seq 0 (Z.to_nat (bytes / 4)));;
  ret true.
End controller_reports.

(** ** The kernel image and the memory map (kmain.c) *)

Section kernel_reports.
Context {H D : Type} {HP : HeapProvider H}.

Definition segments_size : Z := 32.

Definition print_segment (sg : ElfLoadedSegment) : M (report_state mem H D) unit :=
  say (str "Start: ");;
  say_hex (vaddr sg);;
  say (str " / Size: ");;
  say_hex (segment_size sg);;
  say [newline].

(** [segments[i]], which only the written entries of the buffer have. *)
Definition print_segment_at (segments : list ElfLoadedSegment) (i : nat) : M (report_state mem H D) unit :=
  match segments !! i with Some sg => print_segment sg | None => sys fault end.

(** [image] is what [get_kernel_image] returns. *)
Definition print_elf_info (image : Z) : M (report_state mem H D) unit :=
  say (line "KERNEL IMAGE INFO");;
  say (str "kernel image addr: ");;
  say_hex image;;
  say [newline];;
  ok <- sys (gets (fun m => elf_validate_header m image));;
  if negb ok then say (line "elf image is not valid") else
  say (line "elf image is valid");;
  loaded_segments <- sys (gets (fun m => elf_get_number_of_loaded_entries m image));;
  segments <- sys (gets (fun m => elf_get_loaded_entries m image segments_size));;
  say (str "number of loaded segments: ");;
  say_dec loaded_segments;;
  say [newline];;
  when (segments_size <? loaded_segments) (say (line "displaying only the first 32 segments:"));;
  each (print_segment_at segments) (seq 0 (Z.to_nat (loaded_segments `min` segments_size))).

Definition memory_type_string (t : MemoryMapType) : list Z :=
  str match t with
  | MEMORYMAP_BAD => "[     BAD    ]"
  | MEMORYMAP_USABLE => "[     RAM    ]"
  | MEMORYMAP_ACPI_NVS => "[  ACPI NVS  ]"
  | MEMORYMAP_RESERVED => "[  RESERVED  ]"
  | MEMORYMAP_ACPI_TABLE => "[ ACPI TABLE ]"
  | MEMORY_MAP_NON_VOLATILE => "[NON VOLATILE]"
  end.

Definition print_map_range (r : MemoryMapRange) : M (report_state boot_state H D) unit :=
  say (memory_type_string (mm_type r));;
  say (str " ");;
  say_hex (mm_start r);;
  say (str " / ");;
  say_hex (wrap64 (mm_start r + mm_size r));;
  say [newline].

Definition print_memory_map : M (report_state boot_state H D) unit :=
  say ([newline] ++ line "MEMORY MAP:");;
  memMap <- sys get_memory_map;;
  each print_map_range memMap;;
  say [newline].
End kernel_reports.

(** ** What the reports write *)

Section reports.
Context {H D : Type} {HP : HeapProvider H} {CD : @ConsoleDisplay H D} (g : geometry) (N : Z) (HN : 160 <= N).

Section vmm.
Context {F Hv Dv : Type} {FP : FrameProvider F} {HPv : HeapProvider Hv} {SP : ShootdownProvider Dv} {HLv : HeapLaws Hv}.
Implicit Types (s : vmm_state F Hv Dv) (L : rlist).

(** A line of the report on a manager. *)
Definition region_text (r : region) : list Z :=
  hex_padded_text (r_start r) 8 ++ str " / " ++ hex_padded_text (r_end r) 8 ++ str " -> " ++ str (get_vm_type_string (r_type r)) ++
  str " [" ++ dec_text ((r_size r - r_upper r - r_lower r) / MB) ++ str " MiB]" ++ [newline].

Definition vmm_text (v : VirtualMemoryManager) L : list Z :=
  ([newline] ++ line "-----kernel VMM state start-----") ++ str "kernel paging structure: " ++ hex_padded_text (paging_structure v) 8 ++ [newline] ++
  line "virtual adresses:" ++ concat (region_text <$> (snd <$> L)) ++ line "-----kernel VMM state end-----".

Lemma fits_type ty : fits_queue N (str (get_vm_type_string ty)).
Proof. apply fits_bytes; [done|]. by destruct ty. Qed.

Lemma print_regions_writes fuel prv L s :
  dseg (vs_descs s) prv L NULL -> (forall x, x ∈ L -> region_ok x.2) -> (length L < fuel)%nat ->
  writes g N (print_regions fuel (first_ptr L NULL)) s tt s (concat (region_text <$> (snd <$> L))).
Proof.
  revert prv fuel. induction L as [|[p r] L IH]; intros prv fuel HD Hok Hf; (destruct fuel as [|fuel]; [cbn in Hf; lia|]).
  { cbn. apply writes_ret. }
  destruct HD as (Hp & (d & Hd & HR & _ & Hnx) & HD). cbn [first_ptr print_regions]. rewrite (proj2 (Z.eqb_neq p NULL)) by done.
  destruct (Hok (p, r) (list_elem_of_here _ _)) as [(S1 & _) (Z1 & _) E1 (P1 & P2 & P3) _]. cbn [snd] in *. unfold r_end in E1.
  assert (En : wrap64 (start_vaddr d + size_bytes d) = r_end r) by (subst r; unfold r_end in *; cbn in *; apply wrap64_small; lia).
  assert (Es : get_no_padding_size d = r_size r - r_upper r - r_lower r) by (subst r; unfold get_no_padding_size; cbn in *; apply wrap64_small; lia).
  eapply writes_same.
  { eapply writes_bind; [apply writes_sys; unfold read_desc; by rewrite Hd|]. rewrite En, Es, Hnx.
    repeat write_step ltac:(apply fits_type || (subst r; unfold r_end, MB, KB in *; cbn in *; lia)). eapply (IH p); [exact HD| |cbn in Hf; lia]. intros x Hx. apply Hok. by apply list_elem_of_further. }
  cbn [fmap list_fmap concat snd]. unfold region_text. rewrite <-!app_assoc. by subst r.
Qed.

Theorem debug_print_vmm_lists_regions B U vmm v L s :
  vmm_inv B U vmm v L s -> 0 <= paging_structure v < 2 ^ 64 ->
  writes g N (debug_print_vmm vmm) s tt s (vmm_text v L).
Proof.
  intros HI Hps. eapply writes_same.
  { unfold debug_print_vmm. eapply writes_bind; [apply writes_sys; unfold read_vmm; by rewrite (vi_vmm _ _ _ _ _ _ HI)|].
    repeat write_step ltac:(first [exact Hps | reflexivity]).
    rewrite (vi_head _ _ _ _ _ _ HI). eapply (print_regions_writes _ NULL L); [apply HI| |].
    - intros [p r] Hx. by apply (vmm_inv_region _ _ _ _ _ _ p r HI).
    - eapply fuel_spare; [apply (vi_seg _ _ _ _ _ _ HI)|apply HI]. }
  done.
Qed.

Lemma writes_when {S} (b : bool) l (y : S) : fits_queue N l -> writes g N (when b (say l)) y tt y (if b then l else []).
Proof. intros Hl. destruct b; [by apply writes_say|apply writes_ret]. Qed.
End vmm.

Section controllers.
Context {V Ha : Type} {MP : MappingProvider V} {HPa : HeapProvider Ha} {DV : Device} {CPU : Processor}.

Definition lapic_registers : list (string * Z) :=
  [("ID = ", APIC_REG_OFFSET_LAPIC_ID); ("VERSION = ", APIC_REG_OFFSET_LAPIC_VERSION); ("ERROR STATUS = ", APIC_REG_OFFSET_ERROR_STATUS);
   ("LVT CMCI = ", APIC_REG_OFFSET_LVT_CMCI); ("LVT TIMER = ", APIC_REG_OFFSET_LVT_TIMER); ("LVT THERMAL SENSOR = ", APIC_REG_OFFSET_LVT_THERMAL_SENSOR);
   ("LVT PERFORMANCE MONITORING COUNTERS = ", APIC_REG_OFFSET_LVT_PERFORMANCE_MONITORING_COUNTERS); ("LVT LINT0 = ", APIC_REG_OFFSET_LVT_LINT0);
   ("LVT LINT1 = ", APIC_REG_OFFSET_LVT_LINT1); ("LVT ERROR = ", APIC_REG_OFFSET_LVT_ERROR)]%string.

(** The value a register has in a state, and the state after it was read. *)
Definition register_now (off : Z) (a : apic_state V Ha) : Z := wrap32 (reg_value (ap_bus a) (lapic_reg a off)).
Definition register_read (off : Z) (a : apic_state V Ha) : apic_state V Ha :=
  put bus_lens (ap_bus a ++ [RegRead (lapic_reg a off) (register_now off a)]) a.

(** The lines of the registers, each read once in order, and the state after. *)
Fixpoint registers_text (l : list (string * Z)) (a : apic_state V Ha) : list Z :=
  match l with
  | [] => []
  | (t, off) :: l' => (str t ++ hex_padded_text (register_now off a) 8 ++ [newline]) ++ registers_text l' (register_read off a)
  end.
Definition registers_after (l : list (string * Z)) (a : apic_state V Ha) : apic_state V Ha := fold_left (fun a x => register_read x.2 a) l a.

Lemma print_register_writes t off a :
  mapped a -> fits_queue N (str t) -> writes g N (print_register t off) a tt (register_read off a) (str t ++ hex_padded_text (register_now off a) 8 ++ [newline]).
Proof.
  intros Hm Ht. unfold print_register. eapply writes_same.
  { eapply writes_bind; [by apply writes_say|]. eapply writes_bind; [apply writes_sys, read32_run, Hm|].
    eapply writes_bind; [apply writes_hex; [assumption|]|write_step idtac]. pose proof (wrap_range 32 (reg_value (ap_bus a) (lapic_reg a off))). lia. }
  done.
Qed.

Theorem print_lapic_state_writes a :
  mapped a -> writes g N print_lapic_state a tt (registers_after lapic_registers a) (line "LOCAL APIC REGISTERS:" ++ registers_text lapic_registers a).
Proof.
  intros Hm. assert (Hk : forall off b, mapped b -> mapped (register_read off b)) by done.
  unfold print_lapic_state. eapply writes_same.
  { eapply writes_bind; [write_step idtac|].
    repeat (eapply writes_bind; [apply print_register_writes; [by auto 20|apply fits_bytes; [assumption|vm_compute; reflexivity]]|]).
    apply print_register_writes; [by auto 20|apply fits_bytes; [assumption|vm_compute; reflexivity]]. }
  cbn [registers_text lapic_registers]. by rewrite app_nil_r.
Qed.

(** The lines of one controller. *)
Definition ioapic_text (m : mem) (x : IOAPIC) : list Z :=
  line "---------------------------------" ++ str "IOAPIC madt ID: " ++ dec_text (ics_IO_APIC_ID (read_ICS_IO_APIC m (ics_ioapic x))) ++ [newline] ++
  str "IOAPIC read ID: " ++ dec_text (ioapic_id x) ++ [newline] ++ str "IOAPIC physical address: " ++ hex_padded_text (physical_base_address x) 8 ++ [newline] ++
  str "IOAPIC version: " ++ dec_text (version x) ++ [newline] ++ str "IOAPIC maximum redirection entry: " ++ dec_text (maximum_redirection_entry x) ++ [newline].

Definition ioapics_text (m : mem) (d : IOAPICSubsystemData) : list Z :=
  if ioapic_array d =? NULL then line "NO IOAPIC DATA AVAILABLE"
  else str "Number of ioapics: " ++ dec_text (ioapic_array_size d) ++ [newline] ++ line "IOAPICS states: " ++ concat (ioapic_text m <$> ioapics d).

(** The fields of the array are 64-bit numbers. *)
Definition ioapic_fields_ok (x : IOAPIC) : Prop :=
  0 <= ioapic_id x < 2 ^ 64 /\ 0 <= physical_base_address x < 2 ^ 64 /\ 0 <= version x < 2 ^ 64 /\ 0 <= maximum_redirection_entry x < 2 ^ 64.

Lemma print_ioapic_writes i x (s : ioapic_state V Ha) :
  ioapics (ioapic_gdata s) !! i = Some x -> ioapic_fields_ok x -> writes g N (print_ioapic i) s tt s (ioapic_text (io_mem s) x).
Proof.
  intros Hx (H1 & H2 & H3 & H4). unfold print_ioapic. eapply writes_same.
  { eapply writes_bind; [apply writes_sys; unfold read_ioapic; by rewrite Hx|].
    pose proof (load8_range (io_mem s) (ics_ioapic x + 2)) as Hb. repeat write_step ltac:(first [reflexivity | assumption | cbn; lia]). }
  done.
Qed.

Lemma each_indices {S A} (l : list A) (f : nat -> M (report_state S H D) unit) (txt : A -> list Z) (y : S) i0 :
  (forall i x, l !! i = Some x -> writes g N (f (i0 + i)%nat) y tt y (txt x)) -> writes g N (each f (seq i0 (length l))) y tt y (concat (txt <$> l)).
Proof.
  revert i0. induction l as [|x l IH]; intros i0 Hf; [apply writes_ret|]. cbn [length seq each fmap list_fmap concat]. eapply writes_bind.
  - rewrite <-(Nat.add_0_r i0). by apply Hf.
  - apply IH. intros i z Hz. replace (Datatypes.S i0 + i)%nat with (i0 + Datatypes.S i)%nat by lia. by apply Hf.
Qed.

Theorem print_ioapic_states_writes (s : ioapic_state V Ha) :
  ioapic_lock s = false -> ioapic_array_size (ioapic_gdata s) = Z.of_nat (length (ioapics (ioapic_gdata s))) -> Z.of_nat (length (ioapics (ioapic_gdata s))) < 2 ^ 64 ->
  Forall ioapic_fields_ok (ioapics (ioapic_gdata s)) ->
  writes g N print_ioapic_states s tt s (ioapics_text (io_mem s) (ioapic_gdata s)).
Proof.
  intros Hl Hn Hb Hf. unfold print_ioapic_states, ioapics_text. set (d := ioapic_gdata s) in *.
  destruct (ioapic_array d =? NULL) eqn:E0.
  { eapply writes_same; [eapply writes_bind; [apply writes_sys; reflexivity|]|]; [fold d; rewrite E0; write_step idtac|done]. }
  set (s0 := put io_lock_lens true (put io_if_lens false s)).
  assert (RA : acquire_spinlock_hard io_lock_lens io_if_lens s = Ok (view io_if_lens s, s0)).
  { unfold acquire_spinlock_hard, disable_and_save_interrupts, test_and_set, bind, gets, modify, ret. cbn. by rewrite Hl. }
  assert (RR : release_spinlock_hard io_lock_lens io_if_lens (view io_if_lens s) s0 = Ok (tt, s)).
  { unfold release_spinlock_hard, restore_interrupt_state, bind, modify, when, ret, s0. destruct s as [[a h bs f gd hs] gd' lk]. cbn in *. subst lk. by destruct f. }
  eapply writes_same.
  { eapply writes_bind; [apply writes_sys; reflexivity|]. fold d. rewrite E0. eapply writes_bind; [apply writes_sys; exact RA|].
    repeat write_step ltac:(first [exact RR | lia]). rewrite Hn, Nat2Z.id. apply (each_indices (ioapics d) print_ioapic (ioapic_text (io_mem s))).
    intros i x Hx. change (io_mem s) with (io_mem s0). apply print_ioapic_writes; [exact Hx|]. rewrite Forall_lookup in Hf. by eapply Hf. }
  cbn [app]. by rewrite app_nil_r.
Qed.

(** ** The firmware tables *)

Definition rsdt_tables (s : acpi_state V) : list Z :=
  (fun i => table_entry (acpi_mem s) (wrap64 (get_rsdt (acpi_mem s) (cached_rsdp s) + sizeof_ACPI_description_header)) 4 (Z.of_nat i)) <$>
    seq 0 (Z.to_nat (get_acpi_table_headerless_lenght (acpi_mem s) (get_rsdt (acpi_mem s) (cached_rsdp s)) / 4)).

Lemma c_string_incl l b : b ∈ c_string l -> b ∈ l.
Proof. induction l as [|x l IH]; [done|]. cbn. destruct (x =? 0); [by intros ?%elem_of_nil|]. intros [->|Hb]%elem_of_cons; [apply list_elem_of_here|by apply list_elem_of_further, IH]. Qed.
Lemma c_string_length l : (length (c_string l) <= length l)%nat.
Proof. induction l as [|x l IH]; [done|]. cbn. destruct (x =? 0); cbn; lia. Qed.

Lemma fits_signature sig : fits_queue N (signature_text sig).
Proof.
  split.
  - apply Forall_forall. intros b Hb%c_string_incl. unfold newline in Hb. rewrite !elem_of_cons in Hb. destruct Hb as [->|[->|[->|[->|[->|Hb%elem_of_nil]]]]]; lia || done.
  - unfold signature_text. match goal with |- context [c_string ?l] => pose proof (c_string_length l) as Hl; cbn [length] in Hl end. lia.
Qed.

(** A signature of four bytes other than zero is printed whole. *)
Lemma signature_text_whole a b c e :
  0 < a < 256 -> 0 < b < 256 -> 0 < c < 256 -> 0 < e < 256 -> signature_text (a + 256 * (b + 256 * (c + 256 * e))) = [a; b; c; e; newline].
Proof.
  intros H1 H2 H3 H4. unfold signature_text. set (x := a + _).
  assert (x mod 256 = a /\ x / 256 mod 256 = b /\ x / 65536 mod 256 = c /\ x / 16777216 mod 256 = e) as (-> & -> & -> & ->) by (unfold x; lia).
  cbn. rewrite !(proj2 (Z.eqb_neq _ 0)) by lia. done.
Qed.

Theorem print_acpi_rsdt_writes (s : acpi_state V) :
  PAGE_SIZE <= cached_rsdp s -> PAGE_SIZE <= get_rsdt (acpi_mem s) (cached_rsdp s) -> (forall a, a ∈ rsdt_tables s -> PAGE_SIZE <= a) ->
  writes g N print_acpi_rsdt s true s
    ((line "ACPI table signatures: " ++ [newline]) ++ concat ((fun a => signature_text (table_signature (acpi_mem s) a)) <$> rsdt_tables s)).
Proof.
  intros H1 H2 H3. unfold print_acpi_rsdt. cbv zeta. eapply writes_same.
  { eapply writes_bind; [apply writes_sys; reflexivity|].
    eapply writes_bind; [apply writes_sys, KASSERT_ok; rewrite (proj2 (Z.eqb_neq (cached_rsdp s) NULL)); [done|unfold NULL, PAGE_SIZE in *; lia]|].
    eapply writes_bind; [apply writes_sys, deref_run, H1|]. eapply writes_bind; [apply writes_sys, deref_run, H2|].
    eapply writes_bind; [write_step idtac|]. eapply writes_bind; [|apply writes_ret].
    apply (writes_each g N _ (fun i => signature_text (table_signature (acpi_mem s) (table_entry (acpi_mem s)
      (wrap64 (get_rsdt (acpi_mem s) (cached_rsdp s) + sizeof_ACPI_description_header)) 4 (Z.of_nat i))))).
    intros i Hi. unfold print_signature. eapply writes_same; [eapply writes_bind; [apply writes_sys; reflexivity|]; eapply writes_bind; [apply writes_sys, deref_run|apply writes_say, fits_signature]|done].
    apply H3. apply list_elem_of_fmap. by exists i. }
  cbn [app]. rewrite app_nil_r. unfold rsdt_tables. by rewrite <-list_fmap_compose.
Qed.
End controllers.

(** ** The kernel image and the memory map *)

Definition segment_text (sg : ElfLoadedSegment) : list Z :=
  str "Start: " ++ hex_padded_text (vaddr sg) 8 ++ str " / Size: " ++ hex_padded_text (segment_size sg) 8 ++ [newline].

Definition elf_text (m : mem) (image : Z) : list Z :=
  line "KERNEL IMAGE INFO" ++ str "kernel image addr: " ++ hex_padded_text image 8 ++ [newline] ++
  if elf_validate_header m image then
    line "elf image is valid" ++ str "number of loaded segments: " ++ dec_text (Z.of_nat (length (load_segments m image))) ++ [newline] ++
    (if 32 <? Z.of_nat (length (load_segments m image)) then line "displaying only the first 32 segments:" else []) ++
    concat (segment_text <$> take 32 (load_segments m image))
  else line "elf image is not valid".

Lemma load_segments_range m image sg : sg ∈ load_segments m image -> 0 <= vaddr sg < 2 ^ 64 /\ 0 <= segment_size sg < 2 ^ 64.
Proof.
  unfold load_segments, program_headers. intros (ph & -> & [_ Hph]%list_elem_of_filter)%list_elem_of_fmap. apply list_elem_of_fmap in Hph as (i & -> & _).
  unfold load_segment, read_ElfProgramHeader, field. cbn [vaddr segment_size p_vaddr p_memsz]. split; apply (load_le_range 8).
Qed.

Theorem print_elf_info_writes m image :
  0 <= image < 2 ^ 64 -> writes g N (print_elf_info image) m tt m (elf_text m image).
Proof.
  intros Hi. unfold print_elf_info, elf_text.
  assert (Hn : 0 <= Z.of_nat (length (load_segments m image)) < 2 ^ 64).
  { unfold load_segments. rewrite length_fmap. pose proof (length_filter (fun ph => is_load ph = true) (program_headers m image)) as Hl.
    unfold program_headers in Hl at 2. rewrite length_fmap, length_seq in Hl. pose proof (phnum_range m image). lia. }
  do 4 (eapply writes_bind; [write_step ltac:(exact Hi)|]).
  destruct (elf_validate_header m image) eqn:EV; (eapply writes_same; [eapply writes_bind; [apply writes_sys; reflexivity|]|]); cbv beta; [rewrite EV; cbn [negb]| |rewrite EV; cbn [negb]; write_step idtac|done].
  { eapply writes_bind; [write_step idtac|]. do 2 (eapply writes_bind; [apply writes_sys; reflexivity|]). cbv beta. rewrite elf_count_spec, elf_entries_spec.
    do 3 (eapply writes_bind; [write_step ltac:(exact Hn)|]). eapply writes_bind; [apply writes_when, fits_bytes; [assumption|vm_compute; reflexivity]|].
    replace (Z.to_nat (_ `min` _)) with (length (take (Z.to_nat segments_size) (load_segments m image))) by (rewrite length_take; unfold segments_size; lia).
    apply (each_indices _ _ segment_text). intros i sg Hsg. unfold print_segment_at. cbn [Nat.add]. rewrite Hsg.
    destruct (load_segments_range m image sg) as [H1 H2]. { eapply (subseteq_take (Z.to_nat segments_size)). by eapply list_elem_of_lookup_2. }
    unfold print_segment, segment_text. repeat write_step ltac:(assumption). }
  done.
Qed.

Definition map_range_text (r : MemoryMapRange) : list Z :=
  memory_type_string (mm_type r) ++ str " " ++ hex_padded_text (mm_start r) 8 ++ str " / " ++ hex_padded_text (wrap64 (mm_start r + mm_size r)) 8 ++ [newline].

Theorem print_memory_map_writes (b b' : boot_state) l :
  get_memory_map b = Ok (l, b') -> Forall (fun r => 0 <= mm_start r < 2 ^ 64) l ->
  writes g N print_memory_map b tt b' (([newline] ++ line "MEMORY MAP:") ++ concat (map_range_text <$> l) ++ [newline]).
Proof.
  intros R Hl. unfold print_memory_map. eapply writes_bind; [write_step idtac|]. eapply writes_same; [eapply writes_bind; [apply writes_sys; exact R|]|done].
  eapply writes_bind; [|write_step idtac]. apply writes_each. intros r Hr. rewrite Forall_forall in Hl. specialize (Hl r Hr). unfold print_map_range, map_range_text.
  eapply writes_bind; [apply writes_say, fits_bytes; [assumption|by destruct (mm_type r)]|]. pose proof (wrap_range 64 (mm_start r + mm_size r)).
  repeat write_step ltac:(first [assumption | apply wrap_range; lia]).
Qed.
End reports.
