(* ===== verification/Mp.v ===== *)
(** * Start-up of the other processors (mp/mp_initialization.c, HAL/bios/mp_init_bin.c)

    The boot processor gives every other processor a stack, puts the trampoline
    in low memory, sends INIT and two start-up interrupts to each and waits until
    all of them have counted themselves.

    [MpPlatform] lists the calls into the other components: the heap, the manager
    of virtual memory, the local controllers, the timer, the tables of the
    processors, their registry, the shootdown and the console. *)

From Stdlib Require Import String Ascii.
From stdpp Require Import list.
From S2P Require Import Prelude Memory Sync Interfaces BootMem KernelData Kio.
Import Sequential.

Inductive MPInitError : Type := ERROR_MP_OK | ERROR_MP_PARTIAL_STARTUP | ERROR_MP_STARTUP_FAILED.

Class MpPlatform (St : Type) : Type := {
  mp_memory : lens St mem;
  get_number_of_usable_logical_cores : St -> Z;
  mp_kmalloc : Z -> M St Z;
  mp_allocate_kernel_virtual_memory : Z -> VirtualMemoryType -> Z -> Z -> M St VMemHandle;
  mp_get_vmem_addr : VMemHandle -> St -> Z;
  mp_get_vmem_size : VMemHandle -> St -> Z;
  get_lapic_id_array : Z -> M St (list Z * Z);
  get_logical_core_lapic_id : M St Z;
  send_IPI_INIT_to_all_excluding_self : M St unit;
  send_startup_IPI : Z -> Z -> M St unit;
  PIT_wait_ms : Z -> M St unit;
  PIT_wait_us : Z -> M St unit;
  mp_kio_flush : M St unit;
  mp_printf : list Z -> list va_value -> M St unit;
  raw_kernel_paging_structure : M St Z;
  set_kernel_paging_structure : M St unit;
  enable_PAT : M St unit;
  register_local_kernel_data_cpu : M St Z;
  mp_init_cpu : Z -> M St unit;
  init_local_interrupt_controllers : M St unit;
  set_local_kernel_data : Z -> LocalKernelData -> M St unit;
  activate_this_cpu_vmmcache_shootdown : M St unit;
  mp_enable_interrupts : M St unit
}.

Definition sizeof_APKernelData : Z := 24.

(** [struct MPGlobalData]: the two arrays it points to are lists; the address of
    [init_data] is where the trampoline reads it. *)
Record MPGlobalData : Type := MkMPGlobalData {
  initialized_APs : Z; APs_count : Z; stacks_top : list Z; APs_kernel_data : list VMemHandle
}.

Record mp_state (St : Type) : Type := MpState { mp_platform : St; mp_gdata : MPGlobalData; mp_gdata_lock : bool }.
Arguments MpState {St}.
Arguments mp_platform {St}.
Arguments mp_gdata {St}.
Arguments mp_gdata_lock {St}.

Section ops.
Context {St : Type} {PL : MpPlatform St}.
#[local] Abbreviation state := (mp_state St).
Implicit Types s : state.
(** The assembled trampoline and the address of [init_data]. *)
Context (mp_init_bin : list Z) (init_data_address : Z).

Definition platform_lens : lens state St := Lens mp_platform (fun p s => MpState p (mp_gdata s) (mp_gdata_lock s)).
Definition mp_lock_lens : lens state bool := Lens mp_gdata_lock (fun b s => MpState (mp_platform s) (mp_gdata s) b).
Definition modify_gdata (f : MPGlobalData -> MPGlobalData) : M state unit :=
  modify (fun s => MpState (mp_platform s) (f (mp_gdata s)) (mp_gdata_lock s)).
Definition on_platform {A} (m : M St A) : M state A := zoom platform_lens m.

Definition set_initialized (n : Z) (g : MPGlobalData) : MPGlobalData := MkMPGlobalData n (APs_count g) (stacks_top g) (APs_kernel_data g).
Definition set_count (n : Z) (g : MPGlobalData) : MPGlobalData := MkMPGlobalData (initialized_APs g) n (stacks_top g) (APs_kernel_data g).
Definition add_stack (top : Z) (h : VMemHandle) (g : MPGlobalData) : MPGlobalData :=
  MkMPGlobalData (initialized_APs g) (APs_count g) (stacks_top g ++ [top]) (APs_kernel_data g ++ [h]).
Definition clear_stacks (g : MPGlobalData) : MPGlobalData := MkMPGlobalData (initialized_APs g) (APs_count g) [] [].

(** ** The trampoline *)

(** [for(i = 0; i < n; i++) dst[i] = bytes i] *)
Fixpoint copy_page (n : nat) (m : mem) (dst i : Z) (bytes : mem -> Z -> Z) : mem :=
  match n with
  | O => m
  | S n' => copy_page n' (store8 m (dst + i) (bytes m i)) dst (i + 1) bytes
  end.

Definition create_mp_init_routine_in_RAM : M St Z :=
  raw_paging_structure <- raw_kernel_paging_structure;;
  let startup_frame := get_real_mode_startup_frame in
  let cr3_copy := get_real_mode_secondary_startup_frame in
  modify (fun p => put mp_memory (copy_page (Z.to_nat PAGE_SIZE) (view mp_memory p) cr3_copy 0 (fun m i => load8 m (raw_paging_structure + i))) p);;
  KASSERT (Z.of_nat (length mp_init_bin) =? PAGE_SIZE);;
  modify (fun p => put mp_memory (copy_page (Z.to_nat PAGE_SIZE) (view mp_memory p) startup_frame 0 (fun _ i => nth (Z.to_nat i) mp_init_bin 0)) p);;
  modify (fun p => put mp_memory (store64 (view mp_memory p) (startup_frame + PAGE_SIZE - 16) cr3_copy) p);;
  modify (fun p => put mp_memory (store64 (view mp_memory p) (startup_frame + PAGE_SIZE - 8) init_data_address) p);;
  ret startup_frame.

(** ** The boot processor *)

Fixpoint allocate_stacks (n : nat) : M state unit :=
  match n with
  | O => ret tt
  | S n' =>
      kstack <- on_platform (mp_allocate_kernel_virtual_memory KERNEL_STACK_SIZE VM_TYPE_STACK (16 * KB) (64 * MB));;
      top <- gets (fun s => wrap64 (mp_get_vmem_addr kstack (mp_platform s) + mp_get_vmem_size kstack (mp_platform s)));;
      modify_gdata (add_stack top kstack);;
      allocate_stacks n'
  end.

Definition unsync_set_up_mp_global_data : M state MPInitError :=
  modify_gdata (set_initialized 0);;
  cores <- gets (fun s => get_number_of_usable_logical_cores (mp_platform s));;
  let count := wrap64 (cores - 1) in
  modify_gdata (set_count count);;
  if count =? 0 then ret ERROR_MP_OK else
  on_platform (mp_kmalloc (wrap64 (8 * count)));;
  on_platform (mp_kmalloc (wrap64 (sizeof_APKernelData * count)));;
  modify_gdata clear_stacks;;
  allocate_stacks (Z.to_nat count);;
  ret ERROR_MP_OK.

(** The start-up interrupts for the processors of [ids] but [self]. *)
Fixpoint start_each (ids : list Z) (self vector : Z) : M St unit :=
  match ids with
  | [] => ret tt
  | id :: ids' =>
      (if id =? self then ret tt else
         mp_kio_flush;;
         send_startup_IPI id vector;;
         PIT_wait_us 200;;
         send_startup_IPI id vector;;
         PIT_wait_us 200);;
      start_each ids' self vector
  end.

(** How many processors count themselves before the [k]-th load of the counter
    (and after the one before). *)
Context (arrive : nat -> Z).

Definition load_initialized (k : nat) : M state Z :=
  modify_gdata (fun g => set_initialized (wrap32 (initialized_APs g + arrive k)) g);;
  gets (fun s => initialized_APs (mp_gdata s)).

(** [while(attempts_count < max_attempts)]: [None] when the loop is left by its
    condition.  The body never changes [attempts_count]. *)
Fixpoint wait_APs (fuel k : nat) (attempts_count number_of_APs : Z) : M state (option MPInitError) :=
  match fuel with
  | O => out_of_fuel
  | S fuel' =>
      if attempts_count <? 30 then
        initialized <- load_initialized k;;
        if initialized <? number_of_APs then on_platform (PIT_wait_ms 1);; wait_APs fuel' (S k) attempts_count number_of_APs
        else if number_of_APs <? initialized then kpanic GENERIC_ERROR
        else ret (Some ERROR_MP_OK)
      else ret None
  end.

Definition init_APs (fuel : nat) : M state MPInitError :=
  cores <- gets (fun s => get_number_of_usable_logical_cores (mp_platform s));;
  if cores =? 1 then ret ERROR_MP_OK else
  init_spinlock mp_lock_lens;;
  err <- unsync_set_up_mp_global_data;;
  match err with ERROR_MP_PARTIAL_STARTUP | ERROR_MP_STARTUP_FAILED => ret err | ERROR_MP_OK =>
  startup_frame <- on_platform create_mp_init_routine_in_RAM;;
  let vector_addr := wrap8 (Z.shiftr startup_frame 12) in
  number_of_logical_cores <- gets (fun s => get_number_of_usable_logical_cores (mp_platform s));;
  on_platform (mp_kmalloc (wrap64 (number_of_logical_cores * 4)));;
  r <- on_platform (get_lapic_id_array number_of_logical_cores);; let '(lapic_ids, array_result) := r in
  when ((array_result <? 0) || negb (wrap64 array_result =? number_of_logical_cores)) (kpanic GENERIC_ERROR);;
  on_platform send_IPI_INIT_to_all_excluding_self;;
  on_platform (PIT_wait_ms 10);;
  self <- on_platform get_logical_core_lapic_id;;
  on_platform (start_each lapic_ids self vector_addr);;
  let number_of_APs := wrap64 (number_of_logical_cores - 1) in
  w <- wait_APs fuel 0 0 number_of_APs;;
  match w with
  | Some e => ret e
  | None =>
      initialized <- load_initialized fuel;;
      if initialized =? number_of_APs then ret ERROR_MP_OK
      else if number_of_APs <? initialized then kpanic GENERIC_ERROR
      else if 0 <? initialized then ret ERROR_MP_PARTIAL_STARTUP
      else ret ERROR_MP_STARTUP_FAILED
  end
  end.

(** ** The other processors *)

(** The region whose top is the stack the processor runs on. *)
Definition find_stack (loaded_stack : Z) (hs : list VMemHandle) (p : St) : VMemHandle :=
  default invalid_handle
    (head (filter (fun h => wrap64 (mp_get_vmem_addr h p + mp_get_vmem_size h p) = loaded_stack) hs)).

(** Up to the endless [halt] at the end. *)
Definition AP_entry_point (loaded_stack : Z) : M state unit :=
  acquire_spinlock mp_lock_lens;;
  stack_vmem <- gets (fun s => find_stack loaded_stack (take (Z.to_nat (APs_count (mp_gdata s))) (APs_kernel_data (mp_gdata s))) (mp_platform s));;
  release_spinlock mp_lock_lens;;
  on_platform set_kernel_paging_structure;;
  on_platform enable_PAT;;
  cpuid <- on_platform register_local_kernel_data_cpu;;
  on_platform (mp_init_cpu cpuid);;
  KASSERT (negb (is_vmemhandle_invalid stack_vmem));;
  on_platform init_local_interrupt_controllers;;
  id <- on_platform get_logical_core_lapic_id;;
  on_platform (set_local_kernel_data cpuid (MkLocalData stack_vmem id));;
  on_platform activate_this_cpu_vmmcache_shootdown;;
  on_platform mp_kio_flush;;
  on_platform mp_enable_interrupts;;
  acquire_spinlock mp_lock_lens;;
  modify_gdata (fun g => set_initialized (wrap32 (initialized_APs g + 1)) g);;
  release_spinlock mp_lock_lens;;
  on_platform (PIT_wait_ms 3000);;
  on_platform (mp_printf (map (fun c => Z.of_N (N_of_ascii c)) (list_ascii_of_string "3 seconds have passed for cpu %u32") ++ [newline]) [VaInt (wrap32 cpuid)]);;
  on_platform mp_kio_flush.
End ops.
