(* ===== verification/MpTop.v ===== *)
(** * Start-up of the other processors: the trampoline, the wait and the entry

    What the boot processor leaves in low memory, how it waits for the others, and
    what each of the others does when it starts. *)

From stdpp Require Import list.
From Stdlib Require Import String Ascii.
From S2P Require Import Prelude Memory Sync Interfaces BootMem KernelData Kio Mp.
Import Sequential.

(** ** Copying a page *)

Lemma copy_page_run n m dst i bytes :
  (forall m' j, i <= j < i + Z.of_nat n -> (forall b, b < dst + i \/ dst + i + Z.of_nat n <= b -> load8 m' b = load8 m b) -> bytes m' j = bytes m j) ->
  (forall j, i <= j < i + Z.of_nat n -> load8 (copy_page n m dst i bytes) (dst + j) = bytes m j mod 256) /\
  (forall b, b < dst + i \/ dst + i + Z.of_nat n <= b -> load8 (copy_page n m dst i bytes) b = load8 m b).
Proof.
  revert m i. induction n as [|n IH]; intros m i Hb; [split; [lia|done]|]. cbn [copy_page]. set (m1 := store8 m (dst + i) (bytes m i)).
  assert (Hm1 : forall b, b <> dst + i -> load8 m1 b = load8 m b) by (intros b Hne; by apply load8_store8_ne).
  assert (E1 : forall j, i + 1 <= j < i + 1 + Z.of_nat n -> bytes m1 j = bytes m j) by (intros j Hj; apply Hb; [lia|intros b Hbb; apply Hm1; lia]).
  destruct (IH m1 (i + 1)) as [Hin Hout].
  { intros m' j Hj Hs. rewrite E1 by lia. apply Hb; [lia|]. intros b Hbb. rewrite Hs by lia. apply Hm1. lia. }
  split.
  - intros j Hj. destruct (decide (j = i)) as [->|]; [rewrite Hout by lia; apply load8_store8_eq|]. rewrite Hin by lia. by rewrite E1 by lia.
  - intros b Hbb. rewrite Hout by lia. apply Hm1. lia.
Qed.

(** ** The trampoline *)

Section trampoline.
Context {St : Type} {PL : MpPlatform St}.
Implicit Types p : St.
Context (mp_init_bin : list Z) (init_data_address : Z).

(** The trampoline page with the two words it needs, and the copy of the root of
    the page tables below 4 GB. *)
Record trampoline (root : Z) (m m' : mem) : Prop := {
  tr_code : forall i, 0 <= i < PAGE_SIZE - 16 -> load8 m' (0x2000 + i) = nth (Z.to_nat i) mp_init_bin 0 mod 256;
  tr_cr3 : load64 m' (0x2000 + PAGE_SIZE - 16) = 0x3000;
  tr_data : load64 m' (0x2000 + PAGE_SIZE - 8) = init_data_address mod 2 ^ 64;
  tr_root : forall i, 0 <= i < PAGE_SIZE -> load8 m' (0x3000 + i) = load8 m (root + i)
}.

Definition trampoline_memory (root : Z) (m : mem) : mem :=
  let m1 := copy_page (Z.to_nat PAGE_SIZE) m 0x3000 0 (fun m i => load8 m (root + i)) in
  let m2 := copy_page (Z.to_nat PAGE_SIZE) m1 0x2000 0 (fun _ i => nth (Z.to_nat i) mp_init_bin 0) in
  store64 (store64 m2 (0x2000 + PAGE_SIZE - 16) 0x3000) (0x2000 + PAGE_SIZE - 8) init_data_address.

#[local] Transparent load64 store64.
Lemma trampoline_ok root m : root + PAGE_SIZE <= 0x2000 \/ 0x4000 <= root ->
  trampoline root m (trampoline_memory root m) /\ agree_outside 0x2000 0x4000 m (trampoline_memory root m).
Proof.
  unfold trampoline_memory, PAGE_SIZE. intros Hr. cbv zeta.
  set (m1 := copy_page _ m 0x3000 0 _). set (m2 := copy_page _ m1 0x2000 0 _). change (0x2000 + 4096 - 16) with 0x2ff0. change (0x2000 + 4096 - 8) with 0x2ff8.
  destruct (copy_page_run 4096 m 0x3000 0 (fun m i => load8 m (root + i))) as [In1 Out1]; [intros m' j Hj Hs; apply Hs; lia|].
  destruct (copy_page_run 4096 m1 0x2000 0 (fun _ i => nth (Z.to_nat i) mp_init_bin 0)) as [In2 Out2]; [done|].
  change (copy_page 4096 m 0x3000 0 _) with m1 in In1, Out1. change (copy_page 4096 m1 0x2000 0 _) with m2 in In2, Out2.
  assert (W : forall b, b < 0x2ff0 \/ 0x3000 <= b -> load8 (store64 (store64 m2 0x2ff0 0x3000) 0x2ff8 init_data_address) b = load8 m2 b).
  { intros b Hb. unfold store64. rewrite !load8_store_le_out by lia. reflexivity. }
  split; [split|].
  - intros i Hi. unfold PAGE_SIZE in Hi. rewrite W by lia. apply In2. lia.
  - unfold PAGE_SIZE. change (0x2000 + 4096 - 16) with 0x2ff0. rewrite load64_store64_ne by lia. by apply load64_store64_eq.
  - unfold PAGE_SIZE. change (0x2000 + 4096 - 8) with 0x2ff8. unfold load64, store64. rewrite load_store_le_same. reflexivity.
  - intros i Hi. unfold PAGE_SIZE in Hi. rewrite W, Out2, In1 by lia. apply Z.mod_small, load8_range.
  - intros y Hy. apply (load_le_ext 8). intros c Hc. rewrite W, Out2, Out1 by lia. reflexivity.
Qed.
#[local] Opaque load64 store64.

(** C35: create_mp_init_routine_in_RAM leaves, in the low page at 0x2000, the code
    of the trampoline followed by the address of the copied root table and the address
    of the start-up data, and at 0x3000 a byte-wise copy of the root of the kernel's
    page tables, changes no byte outside these two pages and returns 0x2000; an
    assembled trampoline that is not one page long fails the assertion. *)
Theorem create_mp_init_routine_correct {ML : LensLaws mp_memory} root p :
  raw_kernel_paging_structure p = Ok (root, p) -> (root + PAGE_SIZE <= 0x2000 \/ 0x4000 <= root) ->
  (Z.of_nat (length mp_init_bin) = PAGE_SIZE ->
   exists m', create_mp_init_routine_in_RAM mp_init_bin init_data_address p = Ok (0x2000, put mp_memory m' p) /\
     trampoline root (view mp_memory p) m' /\ agree_outside 0x2000 0x4000 (view mp_memory p) m') /\
  (Z.of_nat (length mp_init_bin) <> PAGE_SIZE -> create_mp_init_routine_in_RAM mp_init_bin init_data_address p = Panic FAILED_ASSERT).
Proof.
  intros Er Hr. unfold create_mp_init_routine_in_RAM. split; intros Hl.
  - exists (trampoline_memory root (view mp_memory p)). split; [|by apply trampoline_ok]. rewrite (bind_ok _ _ _ _ _ Er). cbv zeta.
    rewrite (bind_ok _ _ p tt _ eq_refl). rewrite (bind_ok _ _ _ tt _ (KASSERT_ok _ _ (proj2 (Z.eqb_eq _ _) Hl))).
    do 3 rewrite (bind_ok _ _ _ tt _ eq_refl). rewrite !put_put, !view_put. reflexivity.
  - rewrite (bind_ok _ _ _ _ _ Er). cbv zeta. rewrite (bind_ok _ _ p tt _ eq_refl). unfold bind, KASSERT. by rewrite (proj2 (Z.eqb_neq _ _) Hl).
Qed.
End trampoline.

(** ** The wait *)

Section wait.
Context {St : Type} {PL : MpPlatform St} (arrive : nat -> Z).
#[local] Abbreviation state := (mp_state St).
Implicit Types s : state.

(** How many processors have counted themselves at the loads before the [k]-th. *)
Fixpoint arrived (k : nat) : Z := match k with O => 0 | S k' => arrived k' + arrive k' end.

Lemma load_initialized_run k s : initialized_APs (mp_gdata s) = arrived k -> 0 <= arrived (S k) < 2 ^ 32 ->
  load_initialized arrive k s = Ok (arrived (S k), MpState (mp_platform s) (set_initialized (arrived (S k)) (mp_gdata s)) (mp_gdata_lock s)).
Proof.
  intros E Hb. unfold load_initialized, modify_gdata. rewrite (bind_ok _ _ s tt _ eq_refl). unfold gets. cbn [mp_gdata initialized_APs set_initialized].
  rewrite E. cbn [arrived] in *. by rewrite (wrap_small 32) by lia.
Qed.

(** The timer's wait between two looks returns. *)
Hypothesis wait_returns : forall p, exists p', PIT_wait_ms 1 p = Ok (tt, p').
Context (n : Z) (Hn : 0 <= n < 2 ^ 32).

(** One turn of the loop in which not all of them have arrived. *)
Lemma wait_turn fuel k s : initialized_APs (mp_gdata s) = arrived k -> 0 <= arrived (S k) < n ->
  exists p', wait_APs arrive (S fuel) k 0 n s = wait_APs arrive fuel (S k) 0 n (MpState p' (set_initialized (arrived (S k)) (mp_gdata s)) (mp_gdata_lock s)).
Proof.
  intros E Hk. destruct (wait_returns (mp_platform s)) as (p' & Ep). exists p'.
  cbn [wait_APs]. change (0 <? 30) with true. cbv iota. rewrite (bind_ok _ _ _ _ _ (load_initialized_run k s E ltac:(lia))).
  replace (arrived (S k) <? n) with true by lia. unfold bind at 1, on_platform, zoom. cbn [view platform_lens mp_platform]. rewrite Ep. reflexivity.
Qed.

Lemma wait_all_arrive d fuel k s : initialized_APs (mp_gdata s) = arrived k ->
  (forall j, (k <= j < k + d)%nat -> 0 <= arrived (S j) < n) -> arrived (S (k + d)) = n -> (d < fuel)%nat ->
  exists p', wait_APs arrive fuel k 0 n s = Ok (Some ERROR_MP_OK, MpState p' (set_initialized n (mp_gdata s)) (mp_gdata_lock s)).
Proof.
  revert fuel k s. induction d as [|d IH]; intros [|fuel] k s E Hj Hk Hf; [lia| |lia|].
  - rewrite Nat.add_0_r in Hk. exists (mp_platform s). cbn [wait_APs]. change (0 <? 30) with true. cbv iota.
    rewrite (bind_ok _ _ _ _ _ (load_initialized_run k s E ltac:(lia))). rewrite Hk, Z.ltb_irrefl. reflexivity.
  - destruct (wait_turn fuel k s E (Hj k ltac:(lia))) as (p' & ->).
    edestruct (IH fuel (S k)) as [p2 R2]; [| | | |exists p2; rewrite R2; reflexivity]; [reflexivity|intros j Hjj; apply Hj; lia| |lia]. rewrite <- Hk. do 2 f_equal. lia.
Qed.

Lemma wait_never fuel k s : initialized_APs (mp_gdata s) = arrived k -> (forall j, (k <= j)%nat -> 0 <= arrived (S j) < n) -> wait_APs arrive fuel k 0 n s = OutOfFuel.
Proof.
  revert k s. induction fuel as [|fuel IH]; intros k s E Hj; [reflexivity|].
  destruct (wait_turn fuel k s E (Hj k ltac:(lia))) as (p' & ->). apply IH; [reflexivity|]. intros j Hjj. apply Hj. lia.
Qed.

(** A turn in which more than all of them have counted themselves. *)
Lemma wait_too_many d fuel k s : initialized_APs (mp_gdata s) = arrived k ->
  (forall j, (k <= j < k + d)%nat -> 0 <= arrived (S j) < n) -> n < arrived (S (k + d)) < 2 ^ 32 -> (d < fuel)%nat -> wait_APs arrive fuel k 0 n s = Panic GENERIC_ERROR.
Proof.
  revert fuel k s. induction d as [|d IH]; intros [|fuel] k s E Hj Hk Hf; [lia| |lia|].
  - rewrite Nat.add_0_r in Hk. cbn [wait_APs]. change (0 <? 30) with true. cbv iota.
    rewrite (bind_ok _ _ _ _ _ (load_initialized_run k s E ltac:(lia))). rewrite (proj2 (Z.ltb_ge _ _)), (proj2 (Z.ltb_lt _ _)) by lia. reflexivity.
  - destruct (wait_turn fuel k s E (Hj k ltac:(lia))) as (p' & ->). apply IH; [reflexivity|intros j Hjj; apply Hj; lia| |lia]. by rewrite Nat.add_succ_comm.
Qed.

(** C39: When the timer's waits return, the boot processor's wait for the others
    returns success at the first look at which all of them have counted themselves,
    panics at a look at which more have, and never returns as long as fewer have: the
    attempts, of which the code means to make thirty, are not counted. *)
Theorem wait_APs_outcome fuel s :
  initialized_APs (mp_gdata s) = 0 ->
  (forall d, (forall j, (j < d)%nat -> 0 <= arrived (S j) < n) -> (d < fuel)%nat ->
   (arrived (S d) = n ->
    exists p', wait_APs arrive fuel 0 0 n s = Ok (Some ERROR_MP_OK, MpState p' (set_initialized n (mp_gdata s)) (mp_gdata_lock s))) /\
   (n < arrived (S d) < 2 ^ 32 -> wait_APs arrive fuel 0 0 n s = Panic GENERIC_ERROR)) /\
  ((forall j, 0 <= arrived (S j) < n) -> wait_APs arrive fuel 0 0 n s = OutOfFuel).
Proof.
  intros E. split.
  - intros d Hj Hf. split; intros Hd.
    + apply (wait_all_arrive d); [exact E|intros j Hjj; apply Hj; lia|exact Hd|exact Hf].
    + apply (wait_too_many d); [exact E|intros j Hjj; apply Hj; lia|exact Hd|exact Hf].
  - intros Hj. apply wait_never; [exact E|]. intros j _. apply Hj.
Qed.
End wait.

(** ** The stacks *)

(** [mp_live h p] says that the region [h] is in use. *)
Class MpRegions (St : Type) : Type := { mp_live : VMemHandle -> St -> Prop }.

Definition stack_top {St} {PL : MpPlatform St} (h : VMemHandle) (p : St) : Z := wrap64 (mp_get_vmem_addr h p + mp_get_vmem_size h p).

(** Each stack in use, its end recorded, no end twice. *)
Record stacks_ready {St} {PL : MpPlatform St} {MR : MpRegions St} (k : nat) (p : St) (g : MPGlobalData) : Prop := {
  sr_count : length (APs_kernel_data g) = k;
  sr_tops : stacks_top g = map (fun h => stack_top h p) (APs_kernel_data g);
  sr_live : Forall (fun h => mp_live h p /\ is_vmemhandle_invalid h = false) (APs_kernel_data g);
  sr_nodup : NoDup (stacks_top g)
}.

(** ** What each of the other processors does *)

Definition ap_step {St} (ready : St -> Prop) (id : St -> Z) (registered : St -> list (Z * LocalKernelData)) (new : list (Z * LocalKernelData))
    (p p' : St) : Prop :=
  ready p' /\ id p' = id p /\ registered p' = registered p ++ new.

(** What a starting processor relies on.  [ap_ready p]: the other components work
    for the processor that starts, whose controller is [ap_id p];
    [ap_registered p] are the processors' own data. *)
Class ApLaws (St : Type) {PL : MpPlatform St} : Type := {
  ap_ready : St -> Prop;
  ap_id : St -> Z;
  ap_registered : St -> list (Z * LocalKernelData);
  ap_paging_ok : forall p, ap_ready p -> wp set_kernel_paging_structure p (fun _ p' => ap_step ap_ready ap_id ap_registered [] p p');
  ap_PAT_ok : forall p, ap_ready p -> wp enable_PAT p (fun _ p' => ap_step ap_ready ap_id ap_registered [] p p');
  ap_register_ok : forall p, ap_ready p -> wp register_local_kernel_data_cpu p (fun _ p' => ap_step ap_ready ap_id ap_registered [] p p');
  ap_init_cpu_ok : forall p c, ap_ready p -> wp (mp_init_cpu c) p (fun _ p' => ap_step ap_ready ap_id ap_registered [] p p');
  ap_controllers_ok : forall p, ap_ready p -> wp init_local_interrupt_controllers p (fun _ p' => ap_step ap_ready ap_id ap_registered [] p p');
  ap_lapic_ok : forall p, ap_ready p -> wp get_logical_core_lapic_id p (fun v p' => v = ap_id p /\ ap_step ap_ready ap_id ap_registered [] p p');
  ap_local_ok : forall p c d, ap_ready p -> wp (set_local_kernel_data c d) p (fun _ p' => ap_step ap_ready ap_id ap_registered [(c, d)] p p');
  ap_shootdown_ok : forall p, ap_ready p -> wp activate_this_cpu_vmmcache_shootdown p (fun _ p' => ap_step ap_ready ap_id ap_registered [] p p');
  ap_flush_ok : forall p, ap_ready p -> wp mp_kio_flush p (fun _ p' => ap_step ap_ready ap_id ap_registered [] p p');
  ap_interrupts_ok : forall p, ap_ready p -> wp mp_enable_interrupts p (fun _ p' => ap_step ap_ready ap_id ap_registered [] p p');
  ap_ms_ok : forall p, ap_ready p -> wp (PIT_wait_ms 3000) p (fun _ p' => ap_step ap_ready ap_id ap_registered [] p p');
  ap_printf_ok : forall p f a, ap_ready p -> wp (mp_printf f a) p (fun _ p' => ap_step ap_ready ap_id ap_registered [] p p')
}.

Section ap.
Context {St : Type} {PL : MpPlatform St} {MR : MpRegions St} {AL : ApLaws St}.
#[local] Abbreviation state := (mp_state St).
Implicit Types (s : state) (p : St).

(** The first region whose end is the stack is the one it was taken from. *)
Lemma find_stack_own k p g i h : stacks_ready k p g -> APs_kernel_data g !! i = Some h ->
  find_stack (stack_top h p) (APs_kernel_data g) p = h.
Proof.
  intros [_ T _ N] Hi. rewrite T in N. unfold find_stack. revert i N Hi. generalize (APs_kernel_data g). clear T.
  intros hs. induction hs as [|h0 hs IH]; intros i N Hi; [done|]. cbn [map] in N. apply NoDup_cons in N as [Hne N].
  rewrite filter_cons. change (wrap64 (mp_get_vmem_addr h0 p + mp_get_vmem_size h0 p)) with (stack_top h0 p).
  destruct i as [|i]; cbn in Hi; [injection Hi as ->; by rewrite decide_True|].
  rewrite decide_False; [by apply (IH i)|]. intros Eh. apply Hne. rewrite Eh. apply list_elem_of_fmap. exists h. split; [done|]. by eapply list_elem_of_lookup_2.
Qed.

#[local] Abbreviation step := (ap_step ap_ready ap_id ap_registered).

(** A step of the platform inside the run. *)
Lemma wp_ap_step {A B} (m : M St A) (k : A -> M state B) p0 p g l old new (P : A -> Prop) Q :
  step old p0 p -> (ap_ready p -> wp m p (fun a p' => P a /\ step new p p')) ->
  (forall a p', P a -> step (old ++ new) p0 p' -> wp (k a) (MpState p' g l) Q) -> wp (bind (on_platform m) k) (MpState p g l) Q.
Proof.
  intros (R & I & S) Hm Hk. apply wp_bind, wp_zoom. cbn [view platform_lens mp_platform]. eapply wp_mono; [exact (Hm R)|].
  intros a p' [Ha (R' & I' & S')]. apply Hk; [exact Ha|]. split; [exact R'|]. split; [by rewrite I'|]. by rewrite S', S, app_assoc.
Qed.

Lemma wp_ap_keep {A B} (m : M St A) (k : A -> M state B) p0 p g l old Q :
  step old p0 p -> (ap_ready p -> wp m p (fun _ p' => step [] p p')) ->
  (forall a p', step old p0 p' -> wp (k a) (MpState p' g l) Q) -> wp (bind (on_platform m) k) (MpState p g l) Q.
Proof.
  intros H Hm Hk. apply (wp_ap_step m k p0 p g l old [] (fun _ => True)); [exact H| |].
  - intros R. eapply wp_mono; [exact (Hm R)|]. by split.
  - intros a p' _. rewrite app_nil_r. apply Hk.
Qed.

(** C36: A processor that starts on one of the stacks takes the region of that stack
    for its own, records it with the identifier of its controller, counts itself once
    and leaves the lock free. *)
Theorem AP_entry_point_counts_once k i h p g :
  stacks_ready k p g -> APs_count g = Z.of_nat k -> APs_kernel_data g !! i = Some h -> ap_ready p -> 0 <= initialized_APs g < 2 ^ 32 - 1 ->
  wp (AP_entry_point (stack_top h p)) (MpState p g false) (fun _ s' =>
    mp_gdata s' = set_initialized (initialized_APs g + 1) g /\ mp_gdata_lock s' = false /\
    exists cpuid, ap_registered (mp_platform s') = ap_registered p ++ [(cpuid, MkLocalData h (ap_id p))]).
Proof.
  intros R C Hi H Hc. unfold AP_entry_point.
  assert (Hf : find_stack (stack_top h p) (take (Z.to_nat (APs_count g)) (APs_kernel_data g)) p = h).
  { rewrite C, Nat2Z.id, take_ge by (rewrite (sr_count _ _ _ R); lia). by eapply find_stack_own. }
  assert (Hv : is_vmemhandle_invalid h = false) by (destruct R as [_ _ L _]; rewrite Forall_forall in L; apply L; by eapply list_elem_of_lookup_2).
  assert (Hp : step [] p p) by (split; [exact H|]; split; [reflexivity|by rewrite app_nil_r]).
  apply wp_bind. eapply wp_of_run; [reflexivity|]. cbn [mp_platform mp_gdata put mp_lock_lens].
  apply wp_bind, wp_gets. cbn [mp_platform mp_gdata]. rewrite Hf.
  apply wp_bind. eapply wp_of_run; [reflexivity|]. cbn [mp_platform mp_gdata put mp_lock_lens].
  apply (wp_ap_keep _ _ p p g false []); [exact Hp|exact (ap_paging_ok p)|]. intros _ p1 H1.
  apply (wp_ap_keep _ _ p p1 g false []); [exact H1|exact (ap_PAT_ok p1)|]. intros _ p2 H2.
  apply (wp_ap_keep _ _ p p2 g false []); [exact H2|exact (ap_register_ok p2)|]. intros cpuid p3 H3.
  apply (wp_ap_keep _ _ p p3 g false []); [exact H3|exact (ap_init_cpu_ok p3 cpuid)|]. intros _ p4 H4.
  apply wp_bind, wp_KASSERT; [by rewrite Hv|].
  apply (wp_ap_keep _ _ p p4 g false []); [exact H4|exact (ap_controllers_ok p4)|]. intros _ p5 H5.
  apply (wp_ap_step _ _ p p5 g false [] [] (fun v => v = ap_id p5)); [exact H5|exact (ap_lapic_ok p5)|]. intros id p6 -> H6. rewrite (proj1 (proj2 H5)).
  apply (wp_ap_step _ _ p p6 g false [] [(cpuid, MkLocalData h (ap_id p))] (fun _ => True)); [exact H6| |].
  { intros R6. eapply wp_mono; [exact (ap_local_ok p6 _ _ R6)|]. by split. }
  intros _ p7 _ H7. cbn [app] in H7.
  apply (wp_ap_keep _ _ _ _ _ _ _ _ H7 (ap_shootdown_ok p7)). intros _ p8 H8.
  apply (wp_ap_keep _ _ _ _ _ _ _ _ H8 (ap_flush_ok p8)). intros _ p9 H9.
  apply (wp_ap_keep _ _ _ _ _ _ _ _ H9 (ap_interrupts_ok p9)). intros _ p10 H10.
  apply wp_bind. eapply wp_of_run; [reflexivity|]. cbn [mp_platform mp_gdata put mp_lock_lens].
  apply wp_bind, wp_modify. cbn [mp_platform mp_gdata mp_gdata_lock]. rewrite (wrap_small 32 (initialized_APs g + 1)) by lia.
  apply wp_bind. eapply wp_of_run; [reflexivity|]. cbn [mp_platform mp_gdata put mp_lock_lens].
  apply (wp_ap_keep _ _ _ _ _ _ _ _ H10 (ap_ms_ok p10)). intros _ p11 H11.
  apply (wp_ap_keep _ _ _ _ _ _ _ _ H11 (ap_printf_ok p11 _ _)). intros _ p12 H12.
  apply wp_zoom. cbn [view platform_lens mp_platform]. eapply wp_mono; [exact (ap_flush_ok p12 (proj1 H12))|]. intros ? p13 (R13 & I13 & S13).
  cbn [mp_gdata mp_gdata_lock put mp_platform platform_lens]. split; [reflexivity|]. split; [reflexivity|]. exists cpuid.
  rewrite S13, app_nil_r. apply H12.
Qed.
End ap.
