(* ===== verification/MpRuns.v ===== *)
(** * Start-up of the other processors on a concrete machine

    Three processors whose controllers are 0, 1 and 2, a memory, and a list of the
    interrupts requested. *)

From Stdlib Require Import String Ascii.
From stdpp Require Import list.
From S2P Require Import Prelude Memory Sync Interfaces BootMem KernelData Kio Mp MpTop.
Import Sequential.

Inductive mp_ipi : Type := IpiInit | IpiStartup (id vector : Z).

Record board : Type := Board { b_mem : mem; b_sent : list mp_ipi; b_stacks : nat; b_local : list (Z * LocalKernelData) }.

(** The [j]-th stack: one region of 1 MB in every 2 MB. *)
Definition board_stack (j : nat) : VMemHandle := MkVMemHandle (Z.of_nat j + 1) 1.
Definition send (i : mp_ipi) : M board unit := modify (fun b => Board (b_mem b) (b_sent b ++ [i]) (b_stacks b) (b_local b)).

#[export] Instance board_platform : MpPlatform board := {
  mp_memory := Lens b_mem (fun m b => Board m (b_sent b) (b_stacks b) (b_local b));
  get_number_of_usable_logical_cores := fun _ => 3;
  mp_kmalloc := fun _ => ret 0x100000;
  mp_allocate_kernel_virtual_memory := fun _ _ _ _ =>
    j <- gets b_stacks;; modify (fun b => Board (b_mem b) (b_sent b) (S (b_stacks b)) (b_local b));; ret (board_stack j);
  mp_get_vmem_addr := fun h _ => vm_desc h mod 2 ^ 20 * (2 * MB);
  mp_get_vmem_size := fun _ _ => MB;
  get_lapic_id_array := fun _ => ret ([0; 1; 2], 3);
  get_logical_core_lapic_id := ret 0;
  send_IPI_INIT_to_all_excluding_self := send IpiInit;
  send_startup_IPI := fun id v => send (IpiStartup id v);
  PIT_wait_ms := fun _ => ret tt;
  PIT_wait_us := fun _ => ret tt;
  mp_kio_flush := ret tt;
  mp_printf := fun _ _ => ret tt;
  raw_kernel_paging_structure := ret 0x10000;
  set_kernel_paging_structure := ret tt;
  enable_PAT := ret tt;
  register_local_kernel_data_cpu := gets (fun b => Z.of_nat (length (b_local b)) + 1);
  mp_init_cpu := fun _ => ret tt;
  init_local_interrupt_controllers := ret tt;
  set_local_kernel_data := fun c d => modify (fun b => Board (b_mem b) (b_sent b) (b_stacks b) (b_local b ++ [(c, d)]));
  activate_this_cpu_vmmcache_shootdown := ret tt;
  mp_enable_interrupts := ret tt
}.

Definition board_live (h : VMemHandle) (b : board) : Prop := exists j, (j < b_stacks b <= 1000)%nat /\ h = board_stack j.

Lemma board_top j b : (j < 1000)%nat -> stack_top (board_stack j) b = (Z.of_nat j + 1) * (2 * MB) + MB.
Proof.
  intros Hj. unfold stack_top. cbn [mp_get_vmem_addr mp_get_vmem_size board_platform board_stack vm_desc].
  rewrite (Z.mod_small (Z.of_nat j + 1)) by lia. apply wrap64_small. unfold MB, KB. lia.
Qed.

#[export] Instance board_regions : MpRegions board := { mp_live := board_live }.

#[export] Instance board_memory : LensLaws mp_memory.
Proof. split; [reflexivity|intros []; reflexivity|reflexivity]. Qed.

#[export] Instance board_ap : ApLaws board.
Proof.
  refine {| ap_ready := fun _ => True; ap_id := fun _ => 0; ap_registered := b_local |}; intros; cbn;
    first [apply wp_modify | apply wp_gets | apply wp_ret]; unfold ap_step; cbn; rewrite ?app_nil_r; by repeat split.
Defined.

Definition board_bin : list Z := repeat 0x90 4096.
Definition board_start : mp_state board := MpState (Board ∅ [] 0 []) (MkMPGlobalData 0 0 [] []) false.

Definition board_arrive (k : nat) : Z := match k with 1%nat | 3%nat => 1 | _ => 0 end.

Lemma create_mp_init_routine_correct_witness :
  exists m', create_mp_init_routine_in_RAM board_bin 0x5000 (mp_platform board_start) = Ok (0x2000, Board m' [] 0 []) /\
    load64 m' 0x2ff0 = 0x3000 /\ load64 m' 0x2ff8 = 0x5000.
Proof.
  destruct (create_mp_init_routine_correct board_bin 0x5000 0x10000 (mp_platform board_start)) as [C _]; [reflexivity|unfold PAGE_SIZE; lia|].
  destruct C as (m' & R & T & _); [reflexivity|]. exists m'. split; [exact R|]. split; [exact (tr_cr3 _ _ _ _ _ T)|exact (tr_data _ _ _ _ _ T)].
Defined.

Lemma board_waits : forall p : board, exists p', PIT_wait_ms 1 p = Ok (tt, p').
Proof. intros p. by exists p. Qed.

(** One processor arrives before the second look, the other before the fourth. *)
Lemma wait_APs_outcome_witness :
  exists p', wait_APs board_arrive 5 0 0 2 board_start = Ok (Some ERROR_MP_OK, MpState p' (MkMPGlobalData 2 0 [] []) false).
Proof.
  destruct (wait_APs_outcome board_arrive board_waits 2 ltac:(lia) 5 board_start) as [C _]; [reflexivity|].
  destruct (C 3%nat) as [C1 _]; [|lia|].
  - intros j Hj. destruct j as [|[|[|j]]]; cbn; lia.
  - destruct C1 as [p' R]; [reflexivity|]. exists p'. exact R.
Defined.

Definition two_stacks : MPGlobalData := MkMPGlobalData 1 2 [3 * MB; 5 * MB] [board_stack 0; board_stack 1].
Definition two_stacks_board : board := Board ∅ [] 2 [].

Lemma two_stacks_ready : stacks_ready 2 two_stacks_board two_stacks.
Proof.
  split; [reflexivity|reflexivity| |].
  - constructor; [split; [exists 0%nat; cbn [b_stacks]; split; [cbn; lia|reflexivity]|reflexivity]|]. constructor; [split; [exists 1%nat; split; [cbn; lia|reflexivity]|reflexivity]|constructor].
  - apply NoDup_cons. split; [rewrite list_elem_of_singleton; vm_compute; lia|apply NoDup_singleton].
Qed.

Lemma AP_entry_point_counts_once_witness :
  wp (AP_entry_point (stack_top (board_stack 1) two_stacks_board)) (MpState two_stacks_board two_stacks false) (fun _ s' => initialized_APs (mp_gdata s') = 2).
Proof.
  eapply wp_mono.
  - apply (AP_entry_point_counts_once 2 1 (board_stack 1) two_stacks_board two_stacks); [apply two_stacks_ready|reflexivity|reflexivity|exact I|cbn; lia].
  - cbn beta. intros ? s' [-> _]. reflexivity.
Defined.
