(* ===== verification/Kinit.v ===== *)
(** * Setting up virtual memory (kinit.c: setup_virtual_memory)

    The kernel leaves the boot loader's page tables: a new structure, the manager
    of virtual memory over it, the RAM mapped to itself, and the segments of the
    kernel image mapped as the boot loader had them. *)

From S2P Require Import Prelude Memory Sync Interfaces BootMem Paging PagingInv PagingTop Vmm Elf.
Import Sequential.

Record setup_state (F H D : Type) : Type := SetupState { su_vmm : vmm_state F H D; su_boot : boot_state }.
Arguments SetupState {F H D}.
Arguments su_vmm {F H D}.
Arguments su_boot {F H D}.

Section ops.
Context {F H D : Type} {FP : FrameProvider F} {HP : HeapProvider H} {SP : ShootdownProvider D}.
#[local] Abbreviation state := (setup_state F H D).
(** [&kernel_data.vmm] *)
Context (kernel_vmm : Z).

Definition su_vmm_lens : lens state (vmm_state F H D) := Lens su_vmm (fun v s => SetupState v (su_boot s)).
Definition su_boot_lens : lens state boot_state := Lens su_boot (fun b s => SetupState (su_vmm s) b).

(** The start and the size of the part of a range of RAM that is mapped: not the
    page at address 0. *)
Definition without_null_page (r : PhysicalMemoryRange) : Z * Z :=
  if start_address r =? 0 then (PAGE_SIZE, wrap64 (range_size r - PAGE_SIZE)) else (start_address r, range_size r).

Fixpoint load_ram (ranges : list PhysicalMemoryRange) (handle : VMemHandle) : M (vmm_state F H D) unit :=
  match ranges with
  | [] => ret tt
  | r :: ranges' =>
      (if range_size r =? 0 then ret tt
       else let '(paddr_start, size) := without_null_page r in load_identity_map_pages kernel_vmm paddr_start size handle);;
      load_ram ranges' handle
  end.

Definition segment_flags (sg : ElfLoadedSegment) : Z := if writeable sg then Z.lor PAGE_PRESENT PAGE_WRITABLE else PAGE_PRESENT.

Fixpoint map_segments (old_paging_struct : Z) (segments : list ElfLoadedSegment) : M (vmm_state F H D) unit :=
  match segments with
  | [] => ret tt
  | sg :: segments' =>
      h <- copy_memory_mapping_from_paging_structure kernel_vmm old_paging_struct (vaddr sg) (round_up_page (segment_size sg)) (segment_flags sg);;
      KASSERT (negb (is_vmemhandle_invalid h));;
      map_segments old_paging_struct segments'
  end.

Definition max_segments : Z := 32.

(** [initialize_kernel_data_kernel_VMM] of kernel_data.c. *)
Definition initialize_kernel_data_kernel_VMM (paging_structure : Z) : M (vmm_state F H D) unit := initialize_kernel_VMM kernel_vmm paging_structure.

(** Up to the memory map of the boot loader. *)
Definition setup_identity : M (vmm_state F H D) (Z * Z * VMemHandle) :=
  old_paging_struct <- on_paging get_bootloader_paging_structure;;
  new_paging_struct <- on_paging create_empty_kernel_paging_structure;;
  initialize_kernel_data_kernel_VMM new_paging_struct;;
  handle <- identity_map kernel_vmm PAGE_SIZE (IDENTITY_MAP_VMEM_END - PAGE_SIZE);;
  KASSERT (negb (is_vmemhandle_invalid handle));;
  ret (old_paging_struct, new_paging_struct, handle).

(** The segments of the image at [header]. *)
Definition setup_image (old_paging_struct header : Z) : M (vmm_state F H D) unit :=
  m <- gets (fun s => pmem (vs_pg s));;
  KASSERT (elf_validate_header m header);;
  let number_of_segments := elf_get_number_of_loaded_entries m header in
  KASSERT (number_of_segments <=? max_segments);;
  map_segments old_paging_struct (take (Z.to_nat number_of_segments) (elf_get_loaded_entries m header max_segments)).

Definition setup_virtual_memory : M state unit :=
  r <- zoom su_vmm_lens setup_identity;; let '(old_paging_struct, new_paging_struct, identity_map_handle) := r in
  physical_mem <- zoom su_boot_lens get_ram_space;;
  zoom su_vmm_lens (load_ram physical_mem identity_map_handle);;
  header <- gets (fun s => get_kernel_image (su_boot s));;
  zoom su_vmm_lens (setup_image old_paging_struct header);;
  zoom su_vmm_lens (on_paging (set_active_paging_structure new_paging_struct;; delete_paging_structure old_paging_struct;; enable_PAT)).
End ops.
