(* ===== verification/KinitTop.v ===== *)
(** * Setting up virtual memory: what the new page tables translate *)

From S2P Require Import Prelude Memory Sync Interfaces BootMem Paging PagingInv PagingTop PagingCreate Vmm VmmInv VmmCut VmmMap VmmOps VmmTop VmmFault VmmInit VmmLoad Elf Kinit.
Import Sequential.

(** ** Addresses *)

(** The canonical address of a page depends on its number only. *)
Lemma canonical_page a b : page_number a = page_number b -> canonical a = canonical b.
Proof.
  assert (H : forall x, canonical x = canonical (PAGE_SIZE * page_number x)).
  { intros x. unfold canonical. assert (E1 : Z.testbit x 47 = Z.testbit (PAGE_SIZE * page_number x) 47).
    { unfold page_number, PAGE_SIZE. change 4096 with (2 ^ 12). rewrite Z.mul_comm, <-(Z.shiftl_mul_pow2 _ 12) by lia.
      rewrite Z.shiftl_spec by lia. change (47 - 12) with 35. rewrite (Z.mod_pow2_bits_low _ 36 35) by reflexivity. rewrite (Z.div_pow2_bits x 12 35) by (apply Z.leb_le; reflexivity). reflexivity. }
    assert (E2 : Z.land x ADDR_MASK = Z.land (PAGE_SIZE * page_number x) ADDR_MASK).
    { assert (E : forall y, Z.land y ADDR_MASK = y mod 2 ^ 48 - (y mod 2 ^ 48) mod 2 ^ 12).
      { intros y. rewrite <-(land_high_mask 12 48) by lia. rewrite <-Z.land_ones, <-Z.land_assoc by lia. reflexivity. }
      rewrite !E. unfold page_number, PAGE_SIZE. lia. }
    by rewrite E1, E2. }
  intros E. by rewrite (H a), (H b), E.
Qed.

Lemma canonical_in_range b a : b mod PAGE_SIZE = 0 -> 0 <= b -> canonical (wrap64 (b + PAGE_SIZE * page_index b a)) = canonical a.
Proof.
  intros Hb H0. rewrite canonical_wrap. apply canonical_page. unfold page_index, page_number, PAGE_SIZE in *. lia.
Qed.

(** A page of RAM mapped to itself. *)
Definition identity_page (a : Z) : PagingMapState := MkMapState (canonical a) (Z.lor PAGE_WRITABLE PAGE_PRESENT) true.

(** The pages of a range of RAM, without the one at address 0. *)
Definition ram_maps (a : Z) (r : PhysicalMemoryRange) : bool :=
  let first := Z.max (start_address r) PAGE_SIZE in
  in_pages ((start_address r + range_size r - first) / PAGE_SIZE) first a.

Definition ram_page (ranges : list PhysicalMemoryRange) (a : Z) : bool := existsb (ram_maps a) ranges.

(** The pages of a segment, its last one included. *)
Definition segment_maps (a : Z) (sg : ElfLoadedSegment) : bool := in_pages ((segment_size sg + PAGE_SIZE - 1) / PAGE_SIZE) (vaddr sg) a.
Definition segment_bytes (sg : ElfLoadedSegment) : Z := round_up_page (segment_size sg).

(** Present, and writable when the segment is. *)
Definition access_flags (sg : ElfLoadedSegment) : Z := PAGE_PRESENT + (if writeable sg then PAGE_WRITABLE else 0).
Lemma segment_flags_access sg : segment_flags sg = access_flags sg.
Proof. unfold segment_flags, access_flags. by destruct (writeable sg). Qed.

(** The segment a page belongs to. *)
Definition segment_of (segments : list ElfLoadedSegment) (a : Z) : option ElfLoadedSegment := head (filter (fun sg => segment_maps a sg = true) segments).

(** What the set-up makes of the address [a]: a page of a segment translates as the
    boot loader's tables [old] had it, with the flags of the segment; a page of RAM
    to itself; no other page is mapped. *)
Definition expected (ranges : list PhysicalMemoryRange) (segments : list ElfLoadedSegment) (old : PagingMapState) (a : Z) : PagingMapState :=
  match segment_of segments a with
  | Some sg => recode (access_flags sg) old
  | None => if ram_page ranges a then identity_page a else mmap_not_present
  end.

(** ** What the boot environment provides *)

Record ram_range_ok (r : PhysicalMemoryRange) : Prop := {
  rr_start : 0 <= start_address r /\ start_address r mod PAGE_SIZE = 0;
  rr_size : 0 <= range_size r /\ range_size r mod PAGE_SIZE = 0;
  rr_end : start_address r + range_size r <= IDENTITY_MAP_VMEM_END
}.

Definition segment_end (sg : ElfLoadedSegment) : Z := vaddr sg + segment_bytes sg.

Record segment_ok (sg : ElfLoadedSegment) : Prop := {
  so_start : KERNEL_VMEM_START <= vaddr sg /\ vaddr sg mod PAGE_SIZE = 0;
  so_size : 0 < segment_size sg;
  so_end : vaddr sg + segment_size sg <= LAST_VADDR - 4095
}.

Definition apart (sg sg' : ElfLoadedSegment) : Prop := segment_end sg <= vaddr sg' \/ segment_end sg' <= vaddr sg.

Fixpoint segments_ok (l : list ElfLoadedSegment) : Prop :=
  match l with [] => True | sg :: l' => segment_ok sg /\ Forall (apart sg) l' /\ segments_ok l' end.

(** The frames the two loops take for tables. *)
Definition ram_cost (ranges : list PhysicalMemoryRange) : Z := foldr (fun r c => 3 * (range_size r / PAGE_SIZE / 512 + 2) + c) 0 ranges.
Definition segments_cost (segments : list ElfLoadedSegment) : Z := foldr (fun sg c => 6 * (segment_bytes sg / PAGE_SIZE) + c) 0 segments.

Lemma segment_bytes_ok sg : segment_ok sg ->
  segment_size sg <= segment_bytes sg /\ segment_bytes sg mod PAGE_SIZE = 0 /\ segment_end sg <= LAST_VADDR - 4095 /\ 0 < segment_bytes sg /\
  segment_bytes sg / PAGE_SIZE = (segment_size sg + PAGE_SIZE - 1) / PAGE_SIZE.
Proof.
  intros [[H1 H2] H3 H4]. unfold segment_end, segment_bytes, round_up_page, KERNEL_VMEM_START, LAST_VADDR, PAGE_SIZE in *.
  destruct (Z.eqb_spec (segment_size sg mod 4096) 0); [lia|]. rewrite wrap64_small by lia. lia.
Qed.

(** Segments that are apart have no page in common. *)
Lemma apart_maps sg sg' a : segment_ok sg -> segment_ok sg' -> apart sg sg' -> segment_maps a sg = true -> segment_maps a sg' = false.
Proof.
  intros O O' HA. destruct (segment_bytes_ok sg O) as (_ & M1 & E1 & Z1 & P1). destruct (segment_bytes_ok sg' O') as (_ & M2 & E2 & Z2 & P2).
  destruct O as [[S1 S2] _ _]. destruct O' as [[S3 S4] _ _].
  unfold segment_maps. rewrite <-P1, <-P2. clear P1 P2. unfold in_pages, apart, segment_end, page_number, KERNEL_VMEM_START, LAST_VADDR, PAGE_SIZE in *.
  intros Hm. lia.
Qed.

Section boot.
Context {F H D : Type} {FP : FrameProvider F} {HP : HeapProvider H} {SP : ShootdownProvider D}.
Context {FL : FrameLaws F} {HL : HeapLaws H}.
Implicit Types (s : vmm_state F H D) (g : pg_state F) (lv : gmap Z nat).

(** Between two moments the pages that are given away and are not tables are the same. *)
Definition kept lv lv' g g' : Prop := (forall f, fp_owned (pg_frames g) f -> fp_owned (pg_frames g') f) /\ pages_kept lv lv' g g'.

Lemma kept_refl lv g : kept lv lv g g.
Proof. split; [done|]. intros x _ _ Hx. by split. Qed.

Lemma kept_trans lv1 lv2 lv3 g1 g2 g3 : kept lv1 lv2 g1 g2 -> kept lv2 lv3 g2 g3 -> kept lv1 lv3 g1 g3.
Proof.
  intros [O1 K1] [O2 K2]. split; [auto|]. intros x Hx Ha Hn. destruct (K1 x Hx Ha Hn) as [Hn2 M1].
  destruct (K2 x (O1 x Hx) Ha Hn2) as [Hn3 M2]. split; [done|]. intros y Hy1 Hy2. rewrite M2 by done. by apply M1.
Qed.

Lemma kept_frame n lv lv' g g' : pg_frame n lv lv' g g' -> kept lv lv' g g'.
Proof. intros (_ & O & N & M & _). split; [exact O|]. intros x Hx Ha Hn. split; [by apply N|]. intros y. by apply (M x). Qed.

Section loops.
Context (kv new root old sroot : Z) (Hroots : sroot <> root).

(** The manager over the new structure, the boot loader's structure still there,
    nobody to shoot down, no heap. *)
Record booting B U v L lv s : Prop := {
  bo_inv : vmm_inv B U kv v L s;
  bo_mode : kernel_mode v = true /\ vmm_lock v = false /\ paging_structure v = new;
  bo_new : pg_inv lv new root (vs_pg s);
  bo_old : pg_inv lv old sroot (vs_pg s);
  bo_idle : is_vmmcache_shootdown_subsystem_initialized (vs_shootdown s) = false;
  bo_early : early s
}.

Lemma idle_completes s : is_vmmcache_shootdown_subsystem_initialized (vs_shootdown s) = false -> shootdown_completes s.
Proof. unfold shootdown_completes. congruence. Qed.

Lemma load_range_spec B U v L lv s h r : booting B U v L lv s -> Interfaces.vmm h = kv -> ram_range_ok r -> range_size r <> 0 ->
  3 * (range_size r / PAGE_SIZE / 512 + 2) <= Z.of_nat (free_count (vs_pg s)) ->
  exists s' lv', (let '(a, n) := without_null_page r in load_identity_map_pages kv a n h) s = Ok (tt, s') /\ booting B U v L lv' s' /\
    kept lv lv' (vs_pg s) (vs_pg s') /\ next_free_descriptor s' = next_free_descriptor s /\
    Z.of_nat (free_count (vs_pg s)) <= Z.of_nat (free_count (vs_pg s')) + 3 * (range_size r / PAGE_SIZE / 512 + 2) /\
    (forall a, translate 4 (pmem (vs_pg s')) sroot a = translate 4 (pmem (vs_pg s)) sroot a) /\
    (forall a, translate 4 (pmem (vs_pg s')) root a = if ram_maps a r then identity_page a else translate 4 (pmem (vs_pg s)) root a).
Proof.
  intros [HI (HK & HN & HPs) IN IO HD HE] Hh [[R1 R2] [R3 R4] R5] Hz HF. destruct (without_null_page r) as [b n] eqn:EW.
  assert (Hbn : 0 < b /\ 0 <= n /\ b + n <= IDENTITY_MAP_VMEM_END /\ b mod PAGE_SIZE = 0 /\ n mod PAGE_SIZE = 0 /\ n <= range_size r /\
    b = Z.max (start_address r) PAGE_SIZE /\ n = start_address r + range_size r - b).
  { unfold without_null_page in EW. unfold IDENTITY_MAP_VMEM_END, GB, MB, KB, PAGE_SIZE in *.
    destruct (Z.eqb_spec (start_address r) 0); injection EW as <- <-; [rewrite wrap64_small by lia|]; lia. }
  destruct Hbn as (B1 & B2 & B3 & B4 & B5 & B6 & B8 & B9). assert (B7 : b + n < 2 ^ 48) by (unfold IDENTITY_MAP_VMEM_END, GB, MB, KB in B3; lia).
  assert (HC : 3 * (n / PAGE_SIZE / 512 + 2) <= 3 * (range_size r / PAGE_SIZE / 512 + 2)).
  { apply Z.mul_le_mono_nonneg_l; [lia|]. apply Z.add_le_mono_r. do 2 (apply Z.div_le_mono; [done|]). exact B6. }
  rewrite <-HPs in IN.
  destruct (load_identity_map_pages_correct B U kv v L s lv root b n h HI HK HN Hh IN (idle_completes s HD)) as
    (g & d & R & HI' & (lv' & I' & S' & C' & O' & [K' X']) & HM & Hd); [clear -B1; lia|exact B2|exact B7|done|done|clear -HC HF; lia|].
  destruct (X' old sroot Hroots IO) as [IO' TO'].
  assert (Hnp : 0 <= n / PAGE_SIZE) by (apply Z.div_pos; [exact B2|done]).
  pose proof (map_cost_blocks (Z.to_nat (n / PAGE_SIZE)) b true) as Hmc. rewrite Z2Nat.id in Hmc by exact Hnp.
  exists (put shootdown_lens d (put pg_lens g s)), lv'. split; [exact R|]. split; [|split; [exact (conj O' K')|split; [reflexivity|split; [|split; [exact TO'|]]]]].
  - split; [exact HI'|exact (conj HK (conj HN HPs))|rewrite <-HPs; exact I'|exact IO'|rewrite <-HD, <-(Hd HD); reflexivity|exact HE].
  - cbn. unfold free_count in *. clear -Hmc C' HC. lia.
  - intros a. unfold ram_maps. rewrite <-B8, <-B9. change (translate 4 (pmem g) root a = (if in_pages (n / PAGE_SIZE) b a then identity_page a else translate 4 (pmem (vs_pg s)) root a)).
    rewrite (HM a). unfold in_pages. fold (page_index b a). rewrite Z2Nat.id by exact Hnp.
    case_decide as Hp; [rewrite (proj2 (Z.ltb_lt _ _) Hp)|rewrite (proj2 (Z.ltb_ge _ _)) by lia; done].
    rewrite canonical_in_range by (assumption || lia). reflexivity.
Qed.

Lemma load_ram_spec ranges B U v L lv s h : booting B U v L lv s -> Interfaces.vmm h = kv -> Forall ram_range_ok ranges ->
  ram_cost ranges <= Z.of_nat (free_count (vs_pg s)) ->
  exists s' lv', load_ram kv ranges h s = Ok (tt, s') /\ booting B U v L lv' s' /\
    kept lv lv' (vs_pg s) (vs_pg s') /\ next_free_descriptor s' = next_free_descriptor s /\
    Z.of_nat (free_count (vs_pg s)) <= Z.of_nat (free_count (vs_pg s')) + ram_cost ranges /\
    (forall a, translate 4 (pmem (vs_pg s')) sroot a = translate 4 (pmem (vs_pg s)) sroot a) /\
    (forall a, translate 4 (pmem (vs_pg s')) root a = if ram_page ranges a then identity_page a else translate 4 (pmem (vs_pg s)) root a).
Proof.
  revert lv s. induction ranges as [|r ranges IH]; intros lv s HB Hh Hok HF.
  { exists s, lv. split_and!; [done|done|apply kept_refl|done|cbn; lia|done|done]. }
  apply Forall_cons in Hok as [Hr Hok]. cbn [ram_cost foldr] in HF. fold (ram_cost ranges) in HF.
  assert (Hc0 : 0 <= 3 * (range_size r / PAGE_SIZE / 512 + 2)) by (destruct Hr as [_ [? _] _]; unfold PAGE_SIZE; lia).
  assert (Hc : 0 <= ram_cost ranges).
  { clear -Hok. induction Hok as [|x l [_ [? _] _] _ IH]; cbn; [lia|]. fold (ram_cost l). unfold PAGE_SIZE. lia. }
  assert (Hstep : exists s1 lv1, (if range_size r =? 0 then ret tt else let '(a, n) := without_null_page r in load_identity_map_pages kv a n h) s = Ok (tt, s1) /\
    booting B U v L lv1 s1 /\ kept lv lv1 (vs_pg s) (vs_pg s1) /\ next_free_descriptor s1 = next_free_descriptor s /\
    Z.of_nat (free_count (vs_pg s)) <= Z.of_nat (free_count (vs_pg s1)) + 3 * (range_size r / PAGE_SIZE / 512 + 2) /\
    (forall a, translate 4 (pmem (vs_pg s1)) sroot a = translate 4 (pmem (vs_pg s)) sroot a) /\
    (forall a, translate 4 (pmem (vs_pg s1)) root a = if ram_maps a r then identity_page a else translate 4 (pmem (vs_pg s)) root a)).
  { destruct (Z.eqb_spec (range_size r) 0) as [Ez|Hz]; [|by apply (load_range_spec B U v L); try done; lia].
    exists s, lv. split_and!; [done|done|apply kept_refl|done|lia|done|]. intros a. unfold ram_maps, in_pages. rewrite Ez, (proj2 (Z.ltb_ge _ _)); [done|]. unfold PAGE_SIZE. lia. }
  destruct Hstep as (s1 & lv1 & R1 & HB1 & K1 & N1 & C1 & TS1 & T1).
  destruct (IH lv1 s1 HB1 Hh Hok) as (s2 & lv2 & R2 & HB2 & K2 & N2 & C2 & TS2 & T2); [lia|].
  exists s2, lv2. cbn [load_ram]. rewrite (bind_ok _ _ _ _ _ R1). split_and!; [exact R2|exact HB2|by eapply kept_trans|by rewrite N2| | |].
  - cbn [ram_cost foldr]. fold (ram_cost ranges). lia.
  - intros a. by rewrite TS2.
  - intros a. rewrite T2, T1. cbn [ram_page existsb]. fold (ram_page ranges a). destruct (ram_page ranges a); [by rewrite orb_true_r|]. rewrite orb_false_r. done.
Qed.

(** ** The segments *)

(** A free region has room for the segment. *)
Definition fits (L : rlist) (sg : ElfLoadedSegment) : Prop :=
  exists x, x ∈ L /\ r_type x.2 = VM_TYPE_FREE /\ r_start x.2 <= vaddr sg /\ segment_end sg <= r_end x.2.

Lemma fits_after_cut L1 p r L2 La Lb q ty sg sg' :
  (snd <$> La) = before r (vaddr sg) -> (snd <$> Lb) = after r (segment_end sg) -> apart sg sg' -> segment_ok sg' -> segment_bytes sg > 0 ->
  fits (L1 ++ (p, r) :: L2) sg' -> fits ((L1 ++ La) ++ (q, MkRegion (vaddr sg) (segment_bytes sg) 0 0 ty) :: Lb ++ L2) sg'.
Proof.
  intros EA EB HA Ok Hz (x & Hx & HT & H1 & H2). destruct (segment_bytes_ok sg' Ok) as (_ & _ & _ & Hz' & _).
  apply elem_of_app in Hx as [Hx|[->|Hx]%elem_of_cons].
  - exists x. split; [|done]. apply elem_of_app. left. apply elem_of_app. by left.
  - cbn [snd] in *. unfold apart, segment_end in *. destruct HA as [HA|HA].
    + assert (Hy : part r (vaddr sg + segment_bytes sg) (r_end r - (vaddr sg + segment_bytes sg)) ∈ (snd <$> Lb)).
      { rewrite EB. unfold after. rewrite (proj2 (Z.eqb_neq _ (r_end r))) by lia. by apply list_elem_of_singleton. }
      apply list_elem_of_fmap in Hy as (y & Ey & Hy). exists y. rewrite <-Ey. unfold segment_end, r_end, part. cbn [r_type r_start r_size]. unfold r_end in *.
      split_and!; [|done|lia|lia]. apply elem_of_app. right. apply list_elem_of_further, elem_of_app. by left.
    + assert (Hy : part r (r_start r) (vaddr sg - r_start r) ∈ (snd <$> La)).
      { rewrite EA. unfold before. rewrite (proj2 (Z.eqb_neq _ (r_start r))) by lia. by apply list_elem_of_singleton. }
      apply list_elem_of_fmap in Hy as (y & Ey & Hy). exists y. rewrite <-Ey. unfold segment_end, r_end, part. cbn [r_type r_start r_size].
      split_and!; [|done|lia|lia]. apply elem_of_app. left. apply elem_of_app. by right.
  - exists x. split; [|done]. apply elem_of_app. right. apply list_elem_of_further, elem_of_app. by right.
Qed.

Lemma map_segment_spec B U v L lv s sg : booting B U v L lv s -> segment_ok sg -> fits L sg -> next_free_descriptor s + 2 <= 64 ->
  6 * (segment_bytes sg / PAGE_SIZE) <= Z.of_nat (free_count (vs_pg s)) ->
  exists h s' B' U' v' L' lv', copy_memory_mapping_from_paging_structure kv old (vaddr sg) (segment_bytes sg) (segment_flags sg) s = Ok (h, s') /\
    is_vmemhandle_invalid h = false /\ booting B' U' v' L' lv' s' /\ kept lv lv' (vs_pg s) (vs_pg s') /\
    next_free_descriptor s' <= next_free_descriptor s + 2 /\
    Z.of_nat (free_count (vs_pg s)) <= Z.of_nat (free_count (vs_pg s')) + 6 * (segment_bytes sg / PAGE_SIZE) /\
    (forall sg', segment_ok sg' -> apart sg sg' -> fits L sg' -> fits L' sg') /\
    (forall a, translate 4 (pmem (vs_pg s')) sroot a = translate 4 (pmem (vs_pg s)) sroot a) /\
    (forall a, translate 4 (pmem (vs_pg s')) root a =
       if segment_maps a sg then recode (access_flags sg) (translate 4 (pmem (vs_pg s)) sroot a) else translate 4 (pmem (vs_pg s)) root a).
Proof.
  intros [HI (HK & HN & HPs) IN IO HD HE] Ok ([p r] & Hin & HT & H1 & H2) Hnf HF. cbn [snd] in *.
  destruct (segment_bytes_ok sg Ok) as (_ & Mb & _ & Zb & Pb). destruct Ok as [[S1 S2] _ _].
  assert (HC2 : can_alloc_two s) by (unfold can_alloc_two; destruct HE as [-> _]; unfold VIRTUAL_MEMORY_DESCRIPTOR_EARLY_ALLOCATION_SIZE; lia).
  assert (Hfl : 0 <= segment_flags sg < PAGE_SIZE) by (unfold segment_flags; by destruct (writeable sg)).
  rewrite <-HPs in IN.
  destruct (copy_memory_mapping_correct B U kv v L s p r lv root old sroot (vaddr sg) (segment_bytes sg) (segment_flags sg) HI HK HN HC2 IN IO Hroots (idle_completes s HD)
    Hin HT H1 Zb H2 S2 Mb Hfl HF) as
    (L1 & L2 & q & s' & B' & U' & v' & La & Lb & lv' & EL & R & MH & HN' & _ & Hsd & HI' & EA & EB & IN' & IO' & Fr & TS & TR).
  destruct (takes_copy_memory_mapping kv old (vaddr sg) (segment_bytes sg) (segment_flags sg) s _ s' HE R) as [HE' Hnx].
  assert (Emh : kernel_mode v' = true /\ paging_structure v' = paging_structure v) by (unfold moved_head in MH; by rewrite MH).
  eexists _, s', B', U', v', _, lv'. split; [exact R|]. split; [|split; [|split; [|split; [exact Hnx|split; [|split; [|split; [exact TS|unfold segment_maps; rewrite <-Pb, <-segment_flags_access; exact TR]]]]]]].
  - assert (q <> NULL).
    { eapply dseg_nonnull; [apply HI'|]. unfold ptrs. rewrite fmap_app. apply elem_of_app. right. apply list_elem_of_here. }
    unfold is_vmemhandle_invalid. cbn [vm_desc Interfaces.vmm]. rewrite (proj2 (Z.eqb_neq q NULL)) by done. apply andb_false_r.
  - split; [exact HI'|split; [apply Emh|split; [exact HN'|by rewrite (proj2 Emh)]]|by rewrite <-HPs|exact IO'|by rewrite (Hsd HD)|exact HE'].
  - exact (kept_frame _ _ _ _ _ Fr).
  - destruct Fr as (_ & _ & _ & _ & Hl & _). cbn in Hl. unfold free_count.
    rewrite <-(Z2Nat.id (segment_bytes sg / PAGE_SIZE)) by (apply Z.div_pos; [lia|done]). clear -Hl. lia.
  - intros sg' Ok' HA Hf. subst L. eapply fits_after_cut; [exact EA|exact EB|exact HA|exact Ok'|lia|exact Hf].
Qed.

Lemma map_segments_spec segs B U v L lv s : booting B U v L lv s -> segments_ok segs -> Forall (fits L) segs ->
  next_free_descriptor s + 2 * Z.of_nat (length segs) <= 64 -> segments_cost segs <= Z.of_nat (free_count (vs_pg s)) ->
  exists s' B' U' v' L' lv', map_segments kv old segs s = Ok (tt, s') /\ booting B' U' v' L' lv' s' /\
    (forall a, translate 4 (pmem (vs_pg s')) sroot a = translate 4 (pmem (vs_pg s)) sroot a) /\
    (forall a, translate 4 (pmem (vs_pg s')) root a =
       match segment_of segs a with
       | Some sg => recode (access_flags sg) (translate 4 (pmem (vs_pg s)) sroot a)
       | None => translate 4 (pmem (vs_pg s)) root a
       end).
Proof.
  revert B U v L lv s. induction segs as [|sg segs IH]; intros B U v L lv s HB Hok Hf Hn HF.
  { exists s, B, U, v, L, lv. by split_and!. }
  destruct Hok as (Ok & HA & Hok). apply Forall_cons in Hf as [Hf Hfs]. cbn [length segments_cost foldr] in Hn, HF. fold (segments_cost segs) in HF.
  assert (Hall : Forall segment_ok segs).
  { clear -Hok. induction segs as [|x l IH]; [constructor|]. destruct Hok as (? & _ & ?). constructor; [done|by apply IH]. }
  assert (Hc : forall l, Forall segment_ok l -> 0 <= segments_cost l).
  { clear. intros l Hl. induction Hl as [|x l Hx _ IH]; cbn; [lia|]. fold (segments_cost l). destruct (segment_bytes_ok x Hx) as (_ & _ & _ & ? & _).
    pose proof (Z.div_pos (segment_bytes x) PAGE_SIZE ltac:(lia) eq_refl). lia. }
  specialize (Hc segs Hall).
  destruct (map_segment_spec B U v L lv s sg HB Ok Hf) as (h & s1 & B1 & U1 & v1 & L1 & lv1 & R1 & Hh & HB1 & K1 & N1 & C1 & F1 & TS1 & T1); [lia|lia|].
  destruct (IH B1 U1 v1 L1 lv1 s1 HB1 Hok) as (s2 & B2 & U2 & v2 & L2 & lv2 & R2 & HB2 & TS2 & T2); [|lia|lia|].
  { clear -Hall HA Hfs F1. induction segs as [|x l IH]; [constructor|]. apply Forall_cons in Hall as [? ?]. apply Forall_cons in HA as [? ?].
    apply Forall_cons in Hfs as [? ?]. constructor; [by apply F1|by apply IH]. }
  exists s2, B2, U2, v2, L2, lv2. split; [|split; [exact HB2|split; [intros a; by rewrite TS2|]]].
  - cbn [map_segments]. fold (segment_bytes sg). rewrite (bind_ok _ _ _ _ _ R1). rewrite Hh. exact R2.
  - intros a. rewrite T2, T1, TS1. unfold segment_of. rewrite filter_cons. case_decide as Hm; cbn [head].
    + rewrite Hm. assert (filter (fun sg' => segment_maps a sg' = true) segs = []) as ->; [|done].
      clear -HA Hall Hm Ok. induction segs as [|x l IH]; [done|]. apply Forall_cons in Hall as [? ?]. apply Forall_cons in HA as [? ?].
      rewrite filter_cons, decide_False; [by apply IH|]. by rewrite (apart_maps sg x a).
    + destruct (segment_maps a sg); [done|]. done.
Qed.
End loops.
End boot.

(** ** Bytes of pages that are kept *)

Lemma load_le_bytes n m m' a c : load_le n m a = load_le n m' a -> a <= c < a + Z.of_nat n -> load8 m c = load8 m' c.
Proof.
  revert a. induction n as [|n IH]; intros a E Hc; [lia|]. cbn [load_le] in E. pose proof (load8_range m a). pose proof (load8_range m' a).
  assert (load8 m a = load8 m' a /\ load_le n m (a + 1) = load_le n m' (a + 1)) as [E1 E2] by lia.
  destruct (decide (c = a)) as [->|]; [exact E1|]. apply (IH (a + 1)); [exact E2|lia].
Qed.

Section setup.
Context {F H D : Type} {FP : FrameProvider F} {HP : HeapProvider H} {SP : ShootdownProvider D}.
Context {FL : FrameLaws F} {HL : HeapLaws H}.
Implicit Types (s : vmm_state F H D) (g : pg_state F) (lv : gmap Z nat).

(** [a] is in a page that is given away and not a table. *)
Definition in_given_page (lv : gmap Z nat) g a : Prop := exists x, fp_owned (pg_frames g) x /\ x mod PAGE_SIZE = 0 /\ lv !! x = None /\ x <= a < x + PAGE_SIZE.

Lemma kept_bytes lv lv' g g' a : kept lv lv' g g' -> in_given_page lv g a -> load8 (pmem g') a = load8 (pmem g) a.
Proof.
  intros [_ K] (x & Hx & Ha & Hn & Hr). destruct (K x Hx Ha Hn) as [_ M]. unfold PAGE_SIZE in *.
  destruct (decide (a + 8 <= x + 4096)).
  - apply (load_le_bytes 8 _ _ a); [apply (M a); lia|lia].
  - apply (load_le_bytes 8 _ _ (x + 4096 - 8)); [apply (M (x + 4096 - 8)); lia|lia].
Qed.

(** ** Up to the memory map *)

Definition boot_root g : Z := Z.land (pg_cr3 g) 0xfffffffffffff000.

Lemma setup_identity_spec kv lv B U s :
  desc_pool B U s -> early s -> next_free_descriptor s + 4 <= 64 -> is_vmmcache_shootdown_subsystem_initialized (vs_shootdown s) = false ->
  table_base lv (vs_pg s) -> lv !! boot_root (vs_pg s) = Some 4%nat -> (515 <= free_count (vs_pg s))%nat ->
  exists old new root h s' B' U' v p q lv', setup_identity kv s = Ok ((old, new, h), s') /\ Interfaces.vmm h = kv /\ boot_root (vs_pg s) <> root /\
    booting kv new root old (boot_root (vs_pg s)) B' U' v
      [(p, MkRegion PAGE_SIZE (IDENTITY_MAP_VMEM_END - PAGE_SIZE) 0 0 VM_TYPE_IDENTITY_MAP); (q, kernel_space)] lv' s' /\
    kept lv lv' (vs_pg s) (vs_pg s') /\ next_free_descriptor s' <= next_free_descriptor s + 4 /\
    (free_count (vs_pg s) <= free_count (vs_pg s') + 515)%nat /\
    (forall a, translate 4 (pmem (vs_pg s')) (boot_root (vs_pg s)) a = translate 4 (pmem (vs_pg s)) (boot_root (vs_pg s)) a) /\
    (forall a, translate 4 (pmem (vs_pg s')) root a = mmap_not_present).
Proof.
  intros HPl HE Hnx HD HT HR HF. set (sroot := boot_root (vs_pg s)) in *.
  destruct (get_bootloader_paging_structure_spec lv (vs_pg s) HT HR) as (old & g1 & R1 & I1 & F1 & T1).
  { intros E. unfold free_count in HF. rewrite E in HF. cbn in HF. lia. }
  fold sroot in I1. destruct (create_empty_spec lv old sroot g1 I1) as (new & root & g2 & lv2 & R2 & IN & IO & F2 & T2 & Hne & _ & TZ).
  { destruct F1 as (_ & _ & _ & _ & Hl & _). unfold free_count in HF. lia. }
  set (s2 := put pg_lens g2 (put pg_lens g1 s)).
  assert (HE2 : early s2) by exact HE.
  assert (HC2 : can_alloc_two s2) by (unfold can_alloc_two; destruct HE2 as [-> _]; unfold VIRTUAL_MEMORY_DESCRIPTOR_EARLY_ALLOCATION_SIZE; cbn; lia).
  assert (HPl2 : desc_pool B U s2) by (destruct HPl; by split).
  destruct (initialize_kernel_VMM_spec B U kv new s2 HPl2 HC2) as (s3 & B3 & p & q & R3 & _ & E3 & _ & Sd3 & _ & I3).
  destruct (takes_initialize_kernel_VMM kv new s2 _ s3 HE2 R3) as [HE3 N3]. change (next_free_descriptor s2) with (next_free_descriptor s) in N3.
  assert (HC3 : can_alloc_two s3) by (unfold can_alloc_two; destruct HE3 as [-> _]; unfold VIRTUAL_MEMORY_DESCRIPTOR_EARLY_ALLOCATION_SIZE; lia).
  assert (HX : 0 < PAGE_SIZE /\ 0 < IDENTITY_MAP_VMEM_END - PAGE_SIZE /\ PAGE_SIZE + (IDENTITY_MAP_VMEM_END - PAGE_SIZE) < 2 ^ 64 /\ PAGE_SIZE mod PAGE_SIZE = 0 /\
    (IDENTITY_MAP_VMEM_END - PAGE_SIZE) mod PAGE_SIZE = 0) by (by vm_compute). destruct HX as (X1 & X2 & X3 & X4 & X5).
  destruct (identity_map_correct B3 (q :: p :: U) kv _ _ s3 PAGE_SIZE (IDENTITY_MAP_VMEM_END - PAGE_SIZE) I3 eq_refl eq_refl HC3 X1 X2 X3 X4 X5) as
    [(L1 & p' & r & L2 & La & Lb & q' & s4 & B4 & U4 & v4 & EL & Ht & _ & _ & R4 & (G1 & G2 & _) & MH & I4 & EA & EB)|[Hno _]].
  2: { exfalso. apply (Hno (p, identity_space)); [apply list_elem_of_here|done|done|done]. }
  destruct (takes_identity_map kv PAGE_SIZE (IDENTITY_MAP_VMEM_END - PAGE_SIZE) s3 _ s4 HE3 R4) as [HE4 N4].
  assert (EL' : L1 = [] /\ r = identity_space /\ L2 = [(q, kernel_space)]).
  { destruct L1 as [|x1 [|x2 L1]]; [by injection EL as -> <- <-|injection EL as _ _ <- _; discriminate Ht|by destruct L1]. }
  destruct EL' as (-> & -> & ->). change (before identity_space PAGE_SIZE) with (@nil region) in EA. change (after identity_space _) with (@nil region) in EB.
  apply fmap_nil_inv in EA as ->. apply fmap_nil_inv in EB as ->. cbn [app] in I4.
  exists old, new, root, (MkVMemHandle q' kv), s4, B4, U4, v4, q', q, lv2.
  assert (Epg : vs_pg s4 = g2) by (by rewrite G1, E3). rewrite Epg.
  split; [|split; [reflexivity|split; [by intros <-; apply Hne|split; [|split; [|split; [lia|split; [|split]]]]]]].
  - unfold setup_identity. rewrite (bind_ok _ _ _ _ _ (on_paging_run _ _ _ _ R1)), (bind_ok _ _ _ _ _ (on_paging_run _ (put pg_lens g1 s) _ _ R2)). fold s2.
    unfold initialize_kernel_data_kernel_VMM. rewrite (bind_ok _ _ _ _ _ R3), (bind_ok _ _ _ _ _ R4), bind_KASSERT; [reflexivity|].
    assert (q' <> NULL) by (eapply dseg_nonnull; [apply I4|apply list_elem_of_here]). apply negb_true_iff. unfold is_vmemhandle_invalid. cbn [vm_desc Interfaces.vmm].
    rewrite (proj2 (Z.eqb_neq q' NULL)) by assumption. apply andb_false_r.
  - unfold moved_head in MH. split; [exact I4|rewrite MH; by split_and!|by rewrite Epg|by rewrite Epg|by rewrite G2, Sd3|exact HE4].
  - eapply kept_trans; [exact (kept_frame _ _ _ _ _ F1)|exact (kept_frame _ _ _ _ _ F2)].
  - destruct F1 as (_ & _ & _ & _ & Hl1 & _). destruct F2 as (_ & _ & _ & _ & Hl2 & _). unfold free_count. clear -Hl1 Hl2. lia.
  - intros a. rewrite T2 by exact HR. by apply T1.
  - exact TZ.
Qed.

(** ** The whole set-up *)

(** The kernel image in memory, in pages that stay as they are. *)
Record kernel_image_ok lv g (header len : Z) (segments : list ElfLoadedSegment) : Prop := {
  ki_inside : image_inside (pmem g) header len;
  ki_given : forall a, header <= a < header + len -> in_given_page lv g a;
  ki_valid : elf_validate_header (pmem g) header = true;
  ki_segments : load_segments (pmem g) header = segments;
  ki_count : Z.of_nat (length segments) <= max_segments;
  ki_ok : segments_ok segments
}.

Lemma setup_image_spec kv old lv0 lv g0 s header len segments : kernel_image_ok lv0 g0 header len segments -> kept lv0 lv g0 (vs_pg s) ->
  setup_image kv old header s = map_segments kv old segments s.
Proof.
  intros [HI HG HV HS HC _] HK. destruct (image_same (pmem g0) (pmem (vs_pg s)) header len HI) as [EV ES].
  { intros a Ha. by apply (kept_bytes lv0 lv), HG. }
  unfold setup_image. rewrite (bind_ok _ _ _ (pmem (vs_pg s)) s) by done. rewrite bind_KASSERT by (by rewrite EV). cbv zeta.
  rewrite elf_count_spec, elf_entries_spec, ES, HS, Nat2Z.id, bind_KASSERT by (by apply Z.leb_le). unfold max_segments in *. rewrite (take_ge segments (Z.to_nat 32)) by lia. by rewrite take_ge by lia.
Qed.

Lemma segments_fit segments p q r : segments_ok segments -> Forall (fits [(p, r); (q, kernel_space)]) segments.
Proof.
  induction segments as [|sg l IH]; [constructor|]. intros (Ok & _ & Hl). constructor; [|by apply IH].
  destruct (segment_bytes_ok sg Ok) as (_ & _ & He & _ & _). exists (q, kernel_space). split; [apply list_elem_of_further, list_elem_of_here|].
  split; [reflexivity|]. destruct Ok as [[? _] _ _]. split; [exact H0|]. etrans; [exact He|]. by vm_compute.
Qed.

Lemma activate_run lv new root old s : pg_inv lv new root (vs_pg s) ->
  exists tr, on_paging (set_active_paging_structure new;; delete_paging_structure old;; enable_PAT) s =
    Ok (tt, put pg_lens (PgState (pg_frames (vs_pg s)) tr root) s).
Proof.
  intros I. eexists. apply on_paging_run. unfold set_active_paging_structure, get_raw_paging_structure, pread, bind, gets, write_cr3, modify, delete_paging_structure, ret, enable_PAT, pemit.
  rewrite (pi_ps_root _ _ _ _ I). reflexivity.
Qed.

(** C38: Setting up virtual memory leaves the processor on new page tables that
    translate the pages of the segments of the kernel image as the boot loader's tables
    did, with the flags of the segment, every page of RAM but the first to itself, and
    nothing else; the manager of virtual memory satisfies its invariant over these
    tables. *)
Theorem setup_virtual_memory_correct kv lv B U (s : setup_state F H D) ranges b' len segments :
  let g := vs_pg (su_vmm s) in
  desc_pool B U (su_vmm s) -> early (su_vmm s) -> is_vmmcache_shootdown_subsystem_initialized (vs_shootdown (su_vmm s)) = false ->
  next_free_descriptor (su_vmm s) + 4 + 2 * Z.of_nat (length segments) <= 64 ->
  table_base lv g -> lv !! boot_root g = Some 4%nat ->
  get_ram_space (su_boot s) = Ok (ranges, b') -> Forall ram_range_ok ranges ->
  kernel_image_ok lv g (get_kernel_image b') len segments ->
  515 + ram_cost ranges + segments_cost segments <= Z.of_nat (free_count g) ->
  exists (s' : setup_state F H D) root B' U' v L lv', setup_virtual_memory kv s = Ok (tt, s') /\
    vmm_inv B' U' kv v L (su_vmm s') /\ kernel_mode v = true /\ vmm_lock v = false /\
    pg_inv lv' (paging_structure v) root (vs_pg (su_vmm s')) /\ pg_cr3 (vs_pg (su_vmm s')) = root /\
    (forall a, translate 4 (pmem (vs_pg (su_vmm s'))) root a = expected ranges segments (translate 4 (pmem g) (boot_root g) a) a).
Proof.
  intros g HPl HE HD Hnx HT HR Rb Hram HK HF. pose proof HK as [_ _ _ _ _ HSok].
  assert (Hc1 : 0 <= ram_cost ranges).
  { clear -Hram. induction Hram as [|x l [_ [? _] _] _ IH]; cbn; [lia|]. fold (ram_cost l). pose proof (Z.div_pos (range_size x) PAGE_SIZE ltac:(lia) eq_refl).
    pose proof (Z.div_pos (range_size x / PAGE_SIZE) 512 ltac:(lia) eq_refl). lia. }
  assert (Hc2 : 0 <= segments_cost segments).
  { clear -HSok. induction segments as [|x l IH]; cbn; [lia|]. destruct HSok as (Ok & _ & Hl). fold (segments_cost l). specialize (IH Hl).
    destruct (segment_bytes_ok x Ok) as (_ & _ & _ & ? & _). pose proof (Z.div_pos (segment_bytes x) PAGE_SIZE ltac:(lia) eq_refl). lia. }
  destruct (setup_identity_spec kv lv B U (su_vmm s) HPl HE ltac:(lia) HD HT HR ltac:(unfold g in HF; lia)) as
    (old & new & root & h & s1 & B1 & U1 & v1 & p & q & lv1 & R1 & Hh & Hne & HB1 & K1 & N1 & C1 & TO1 & TZ1). fold g in Hne, HB1, K1, C1, TO1.
  destruct (load_ram_spec kv new root old (boot_root g) Hne ranges B1 U1 v1 _ lv1 s1 h HB1 Hh Hram ltac:(lia)) as
    (s2 & lv2 & R2 & HB2 & K2 & N2 & C2 & TO2 & T2).
  destruct (map_segments_spec kv new root old (boot_root g) Hne segments B1 U1 v1 _ lv2 s2 HB2 HSok (segments_fit segments p q _ HSok) ltac:(lia) ltac:(lia)) as
    (s3 & B3 & U3 & v3 & L3 & lv3 & R3 & HB3 & TO3 & T3).
  destruct HB3 as [HI3 (HK3 & HN3 & HPs) IN3 _ _ _].
  destruct (activate_run lv3 new root old s3 IN3) as [tr R4].
  exists (SetupState (put pg_lens (PgState (pg_frames (vs_pg s3)) tr root) s3) b'), root, B3, U3, v3, L3, lv3.
  split; [|split; [by apply vmm_inv_pg|split; [exact HK3|split; [exact HN3|split; [rewrite HPs; by apply pg_inv_trace|split; [reflexivity|]]]]]].
  - unfold setup_virtual_memory. rewrite (bind_ok _ _ s (old, new, h) (SetupState s1 (su_boot s))) by (unfold zoom; cbn [view su_vmm_lens]; by rewrite R1).
    rewrite (bind_ok _ _ _ ranges (SetupState s1 b')) by (unfold zoom; cbn [view su_boot_lens su_boot]; by rewrite Rb).
    rewrite (bind_ok _ _ _ tt (SetupState s2 b')) by (unfold zoom; cbn [view su_vmm_lens su_vmm]; by rewrite R2).
    rewrite (bind_ok _ _ _ (get_kernel_image b') (SetupState s2 b')) by done.
    rewrite (bind_ok _ _ _ tt (SetupState s3 b')).
    2: { unfold zoom. cbn [view su_vmm_lens su_vmm]. rewrite (setup_image_spec kv old lv lv2 g s2 _ len segments HK (kept_trans _ _ _ _ _ _ K1 K2)). by rewrite R3. }
    unfold zoom. cbn [view su_vmm_lens su_vmm]. by rewrite R4.
  - intros a. change (translate 4 (pmem (vs_pg s3)) root a = expected ranges segments (translate 4 (pmem g) (boot_root g) a) a).
    rewrite T3, TO2, TO1, T2, TZ1. reflexivity.
Qed.
End setup.
