(* ===== verification/Kmain.v ===== *)
(** * The main function (kmain.c)

    [kmain] installs its two handlers, reports on the components and then starts
    the other processors.  The part up to the start of the other processors is
    modelled: it runs on one processor and calls the modelled components, which it
    reaches through lenses of one kernel state ([KernelParts]).  [KernelLayout] says
    which parts are apart; it says nothing of what the calls do. *)

From Stdlib Require Import String Ascii.
From stdpp Require Import list.
From S2P Require Import Prelude Memory Sync Interfaces Heap HeapOps HeapSpec HeapTop BootMem FrameAllocator Paging Vmm VmmInv Elf Bus Acpi Madt Shootdown Apic ApicTop Ioapic Pic Interrupts Pit Cpu KernelData Display Psf Kio KioScreen KioText KioTop Panic Report.
Import Sequential.

(** ** The components [kmain] calls *)

(** The firmware tables are those the controllers of the timer's interrupts use. *)
Class KernelParts (St F Hv Dv V Hp R C : Type) : Type := {
  km_mem : lens St mem;
  km_boot : lens St boot_state;
  km_frames : lens St frame_state;
  km_vmm : lens St (vmm_state F Hv Dv);
  km_heap : lens St (heap_state R);
  km_timer : lens St (pit_state V Hp);
  km_cpus : lens St (cpu_state C);
  kernel_vmm_address : Z
}.

Section kmain.
Context {St F Hv Dv V Hp R C H D : Type} {FP : FrameProvider F} {HPv : HeapProvider Hv} {SP : ShootdownProvider Dv} {MP : MappingProvider V}
  {HPp : HeapProvider Hp} {DV : Device} {CPU : Processor} {VMP : VMemProvider R} {VMC : VMemProvider C} {HP : HeapProvider H}
  {KP : KernelParts St F Hv Dv V Hp R C}.
#[local] Abbreviation state := (report_state St H D).
(** The addresses of the two handlers; the ticks and the bus traffic of the
    interrupts that arrive during the sleeps of each wait (see [Pit.halt]), and the
    number of sleeps that is enough. *)
Context (interrupt_print_address general_protection_fault_address : Z).
Context (ticks : nat -> nat -> Z) (traffic : nat -> nat -> history) (fuel : nat).

Definition km_acpi : lens St (acpi_state V) := lens_comp km_timer (lens_comp pit_lapic acpi_lens).
Definition km_pit (y : St) : PIT := the_pit (view km_timer y).
Definition km_cores (y : St) : Z := get_number_of_usable_logical_cores (view km_cpus y).

(** A report on a part of the kernel. *)
Definition within {T A} (L : lens St T) (m : M (report_state T H D) A) : M state A :=
  zoom (Lens (fun s => Rep (view L (rp_sys s)) (rp_con s)) (fun x s => Rep (put L (rp_sys x) (rp_sys s)) (rp_con x))) m.

Definition print_PIT_frequency : M state unit :=
  say (str "PIT frequency: ");;
  pit <- sys (gets km_pit);;
  say_dec (get_PIT_real_frequency pit);;
  say [newline].

(** The [i]-th wait. *)
Definition sleep_2s (i : nat) : M state unit :=
  say ([newline] ++ line "Sleeping 2s");;
  out kio_flush;;
  sys (zoom km_timer (PIT_wait_ms (ticks i) (traffic i) fuel 2000)).

(** A label, a size in MiB and the unit. *)
Definition print_usage (label : string) (bytes : M St Z) : M state unit :=
  say (str label);;
  n <- sys bytes;;
  say_dec (n / MB);;
  say (line " MiB").

Definition read_overhead : M St Z :=
  total <- gets (fun s => get_total_usable_RAM_size (view km_boot s));;
  free <- zoom km_frames get_number_of_free_frames;;
  ret (wrap64 (total - wrap64 (free * PAGE_SIZE))).

Definition read_paging_overhead : M St Z :=
  zoom km_vmm (v <- read_vmm kernel_vmm_address;; zoom pg_lens (get_paging_mem_overhead (paging_structure v))).

Definition print_memory_usage : M state unit :=
  say ([newline] ++ line "-------------------PRINTING MEMORY USAGE-------------------");;
  n <- sys read_overhead;;
  say (str "kernel + bootloader memory overhead: ");;
  say_dec (n / MB);;
  say (line " MiB");;
  print_usage "kernel paging memory overhead: " read_paging_overhead;;
  print_usage "kernel frame allocator overhead: " (zoom km_frames get_frame_allocator_mem_overhead);;
  print_usage "kernel heap start size: " (ret KERNEL_HEAP_SIZE);;
  print_usage "kernel heap actual size: " (zoom km_heap get_kheap_total_size);;
  print_usage "kernel stack size: " (ret KERNEL_STACK_SIZE);;
  print_usage "System Total RAM: " (gets (fun s => get_total_usable_RAM_size (view km_boot s))).

Definition print_hardware : M state unit :=
  cores <- sys (gets km_cores);;
  say_format (str "number of logical cores: %u64" ++ [newline]) [VaInt cores];;
  madt <- sys (zoom km_acpi get_MADT);;
  pic <- sys (zoom km_acpi (m <- gets acpi_mem;; madt_has_pic m madt));;
  say_format (if (pic : bool) then line "the PC has PIC" else line "the PC doesnt have PIC") [];;
  corrupted <- sys (zoom km_heap is_kheap_corrupted);;
  say_format (if (corrupted : bool) then line "KERNEL HEAP CORRUPTED" else line "KERNEL HEAP OK") [].

(** The handlers and the reports: [kmain] up to the start of the other processors. *)
Definition kmain_reports : M state unit :=
  sys (zoom km_timer (zoom int_lens (install_default_interrupt_handler interrupt_print_address)));;
  sys (zoom km_timer (zoom int_lens (install_interrupt_handler 0xd general_protection_fault_address)));;
  print_PIT_frequency;;
  image <- sys (gets (fun s => get_kernel_image (view km_boot s)));;
  within km_mem (print_elf_info image);;
  within km_boot print_memory_map;;
  sleep_2s 0;;
  within km_vmm (debug_print_vmm kernel_vmm_address);;
  sleep_2s 1;;
  print_memory_usage;;
  within km_acpi print_acpi_rsdt;;
  print_hardware.

End kmain.

(** *** What the main function writes *)

(** The memory map as [get_memory_map] returns it. *)
Definition memory_ranges (b : boot_state) : list MemoryMapRange :=
  match BootMem.memory_map b with Some l => l | None => bubble_sort mm_start (translate_item <$> map_items (boot_data b)) end.

Lemma get_memory_map_ranges (b : boot_state) :
  Z.of_nat (length (map_items (boot_data b))) <= MAX_PHYSICAL_MEMORY_RANGES ->
  exists b', get_memory_map b = Ok (memory_ranges b, b') /\ boot_data b' = boot_data b /\ memory_ranges b' = memory_ranges b.
Proof.
  intros Hn. unfold get_memory_map, memory_ranges. destruct b as [d r f [l|]].
  - by exists (MkBoot d r f (Some l)).
  - cbn in *. rewrite (proj2 (Z.ltb_ge _ _)) by lia. eexists. split; [reflexivity|]. by cbn.
Qed.

Lemma get_total_usable_RAM_size_range (b : boot_state) : 0 <= get_total_usable_RAM_size b < 2 ^ 64.
Proof.
  unfold get_total_usable_RAM_size. match goal with |- 0 <= foldl ?f 0 ?l < _ => cut (forall n, 0 <= n < 2 ^ 64 -> 0 <= foldl f n l < 2 ^ 64); [intros Hc; apply Hc; lia|] end.
  induction (map_items (boot_data b)) as [|m l IH]; intros n Hn; [exact Hn|]. cbn [foldl]. apply IH. destruct (usable_item m); [apply wrap_range; lia|exact Hn].
Qed.

Lemma free_frames_run s : fa_lock s = false -> get_number_of_free_frames s = Ok (free_frames s, s).
Proof. intros Hl. unfold get_number_of_free_frames. rewrite (with_spinlock_hard_run _ _ _ s (free_frames s) (put fs_lock_lens true (put fs_if_lens false s))) by done. destruct s as [? []]; cbn in *; by subst. Qed.

Lemma frame_overhead_run s : fa_lock s = false -> is_frame_stack_valid (frame_stack s) = true ->
  get_frame_allocator_mem_overhead s = Ok (max_size_bytes (frame_stack s), s).
Proof.
  intros Hl Hv. unfold get_frame_allocator_mem_overhead. rewrite (with_spinlock_hard_run _ _ _ s (max_size_bytes (frame_stack s)) (put fs_lock_lens true (put fs_if_lens false s))).
  - destruct s as [? []]; cbn in *; by subst.
  - done.
  - unfold bind, gets. cbn [put fs_lock_lens fs_if_lens frame_stack]. by rewrite Hv.
Qed.

Lemma zoom_pg_same {F Hv Dv A} (m : M (pg_state F) A) (s : vmm_state F Hv Dv) a : m (vs_pg s) = Ok (a, vs_pg s) -> zoom pg_lens m s = Ok (a, s).
Proof. intros R1. unfold zoom. cbn [view pg_lens]. rewrite R1. by destruct s. Qed.

Lemma paging_overhead_run {F} {FP : FrameProvider F} ps (p : pg_state F) :
  get_paging_mem_overhead ps p = Ok (wrap64 (count_map_tables_frames 4 (pmem p) (load64 (pmem p) ps) 0 * PAGE_SIZE), p).
Proof. unfold get_paging_mem_overhead. generalize (count_map_tables_frames 4). reflexivity. Qed.

Section heap_size.
Context {R : Type} {VMP : VMemProvider R} {VML : VMemLaws R}.
Lemma total_size_run a cs (s : heap_state R) : heap_inv a cs s -> get_kheap_total_size s = Ok (size (kheap s), s) /\ 0 <= size (kheap s) < 2 ^ 64.
Proof.
  intros HI. split.
  - rewrite <-(leave_enter s) at 3 by apply HI. by apply critical_section; [apply HI|].
  - destruct (heap_inv_enter _ _ _ HI) as (bl & H & _ & HB & _). pose proof (vmem_live_range _ _ (bk_live _ _ _ HB)) as VR.
    rewrite (bk_size _ _ _ HB) in VR. change (size (kheap s)) with (size (kheap (enter s))). rewrite (st_size _ _ _ _ H). lia.
Qed.
End heap_size.

(** What an interrupt of the timer leaves alone besides its own state. *)
Definition quiet {V Hp} (t t' : pit_state V Hp) : Prop :=
  view (lens_comp pit_lapic acpi_lens) t' = view (lens_comp pit_lapic acpi_lens) t /\ view (lens_comp pit_lapic ap_heap_lens) t' = view (lens_comp pit_lapic ap_heap_lens) t.

(** The parts are apart: the cached memory map from all others, and the timer with
    the interrupt tables and the bus from all but the firmware tables and the heap of
    the controllers.  The manager and the frame allocator may share state. *)
Class KernelLayout (St F Hv Dv V Hp R C : Type) {KP : KernelParts St F Hv Dv V Hp R C} : Type := {
  km_mem_laws : LensLaws km_mem;
  km_boot_laws : LensLaws km_boot;
  km_frames_laws : LensLaws km_frames;
  km_vmm_laws : LensLaws km_vmm;
  km_heap_laws : LensLaws km_heap;
  km_timer_laws : LensLaws km_timer;
  layout_boot : forall b y, let y' := put km_boot b y in
    view km_mem y' = view km_mem y /\ view km_frames y' = view km_frames y /\ view km_vmm y' = view km_vmm y /\ view km_heap y' = view km_heap y /\
    view km_timer y' = view km_timer y /\ view km_cpus y' = view km_cpus y;
  layout_timer : forall t y, quiet (view km_timer y) t -> let y' := put km_timer t y in
    view km_mem y' = view km_mem y /\ view km_boot y' = view km_boot y /\ view km_frames y' = view km_frames y /\ view km_vmm y' = view km_vmm y /\
    view km_heap y' = view km_heap y /\ view km_cpus y' = view km_cpus y
}.
#[export] Existing Instances km_mem_laws km_boot_laws km_frames_laws km_vmm_laws km_heap_laws km_timer_laws.

Section kmain_writes.
Context {St F Hv Dv V Hp R C H D : Type} {FP : FrameProvider F} {HPv : HeapProvider Hv} {SP : ShootdownProvider Dv} {MP : MappingProvider V} {HLv : HeapLaws Hv}
  {HPp : HeapProvider Hp} {DV : Device} {CPU : Processor} {VMP : VMemProvider R} {VML : VMemLaws R} {VMC : VMemProvider C} {HP : HeapProvider H}
  {CD : @ConsoleDisplay H D} {KP : KernelParts St F Hv Dv V Hp R C}.
Context (g : geometry) (N : Z) (HN : 160 <= N).
Implicit Types y : St.
#[local] Abbreviation state := (report_state St H D).

(** [m] returns with a text written, such that [P]. *)
Definition reports {A} (m : M state A) y (P : A -> St -> list Z -> Prop) : Prop :=
  exists a y' l, writes g N m y a y' l /\ P a y' l.

Lemma reports_bind {A B} (m : M state A) (f : A -> M state B) y P :
  reports m y (fun a y1 l1 => reports (f a) y1 (fun b y2 l2 => P b y2 (l1 ++ l2))) -> reports (bind m f) y P.
Proof. intros (a & y1 & l1 & W1 & b & y2 & l2 & W2 & HP2). exists b, y2, (l1 ++ l2). split; [by eapply writes_bind|done]. Qed.

Lemma reports_writes {A} (m : M state A) y a y' l (P : A -> St -> list Z -> Prop) : writes g N m y a y' l -> P a y' l -> reports m y P.
Proof. intros W HP1. by exists a, y', l. Qed.

Lemma reports_sys {A} (m : M St A) y (P : A -> St -> list Z -> Prop) : wp m y (fun a y' => P a y' []) -> reports (sys m) y P.
Proof. intros (a & y' & R1 & HP1)%wp_run. exists a, y', []. split; [by apply writes_sys|done]. Qed.

Lemma writes_flush y : writes g N (out kio_flush) y tt y [].
Proof.
  intros c t HR. destruct HR as (q & I & G & L & E & Hq & T). destruct (kio_flush_run q c g I G L) as (c' & R1 & L' & _ & I' & G' & T' & _).
  exists c'. split; [unfold out, zoom; cbn [view con_lens rp_con]; by rewrite R1|]. exists []. split_and!; try done; [|cbn; lia|].
  - rewrite <-E. eapply (keeps_room_locked _ keeps_room_flush); exact R1.
  - cbn [term_write fold_left]. by rewrite T'.
Qed.

Lemma writes_printf items fmt args y :
  Forall item_ok items -> fits_queue N (text items) -> fmt = formats items -> args = arguments items -> writes g N (say_format fmt args) y tt y (text items).
Proof. intros Hi Hf -> ->. by apply writes_format. Qed.

Lemma writes_within {T A} (L : lens St T) (m : M (report_state T H D) A) y a t l :
  writes g N m (view L y) a t l -> writes g N (within L m) y a (put L t y) l.
Proof.
  intros W c tm HR. destruct (W c tm HR) as (c' & R1 & HR1). exists c'. split; [|done]. unfold within, zoom. cbn [view rp_sys rp_con]. by rewrite R1.
Qed.

Lemma writes_within_same {T A} (L : lens St T) {LL : LensLaws L} (m : M (report_state T H D) A) y a l :
  writes g N m (view L y) a (view L y) l -> writes g N (within L m) y a y l.
Proof. intros W%writes_within. by rewrite put_view in W. Qed.
Lemma writes_sys_zoom {T A} (L : lens St T) {LL : LensLaws L} (m : M T A) y a : m (view L y) = Ok (a, view L y) -> writes g N (sys (zoom L m)) y a y [].
Proof. intros R1. apply writes_sys. unfold zoom. rewrite R1. by rewrite put_view. Qed.

Context {KL : KernelLayout St F Hv Dv V Hp R C}.

#[local] Instance km_acpi_laws : LensLaws km_acpi.
Proof.
  split; unfold km_acpi.
  - intros a y. cbn [view put lens_comp]. by rewrite view_put.
  - intros y. transitivity (put km_timer (view km_timer y) y); [|apply put_view]. cbn [view put lens_comp]. f_equal. by destruct (view km_timer y) as [[[[]]]].
  - intros a a' y. cbn [view put lens_comp]. rewrite view_put, put_put. reflexivity.
Qed.

(** What [kmain] reads is the same. *)
Definition same_parts (y y' : St) : Prop :=
  view km_mem y' = view km_mem y /\ (boot_data (view km_boot y') = boot_data (view km_boot y) /\ memory_ranges (view km_boot y') = memory_ranges (view km_boot y)) /\
  view km_frames y' = view km_frames y /\ view km_vmm y' = view km_vmm y /\ view km_acpi y' = view km_acpi y /\ view km_heap y' = view km_heap y /\
  km_cores y' = km_cores y /\ interrupt_frequency (km_pit y') = interrupt_frequency (km_pit y).

Definition km_int y : int_state V Hp := pt_int (view km_timer y).

(** The timer runs and has counted less than [b] ticks; the lock of the handler
    table is free. *)
Record timer_runs (b : Z) y : Prop := {
  tm_lock : handlers_lock (km_int y) = false;
  tm_table : length (handlers (km_int y)) = 256%nat;
  tm_enabled : view pit_if (view km_timer y) = true;
  tm_frequency : 0 < interrupt_frequency (km_pit y) <= PIT_FREQ_HZ;
  tm_ticks : 0 <= tick_counter (km_pit y) < b
}.

(** The components are initialised and their locks free. *)
Record kernel_up B U (v : VirtualMemoryManager) L base cs (madt : Z) y : Prop := {
  ku_image : 0 <= get_kernel_image (view km_boot y) < 2 ^ 64;
  ku_map : Z.of_nat (length (map_items (boot_data (view km_boot y)))) <= MAX_PHYSICAL_MEMORY_RANGES;
  ku_ranges : Forall (fun r => 0 <= mm_start r < 2 ^ 64) (memory_ranges (view km_boot y));
  ku_frames : fa_lock (view km_frames y) = false;
  ku_stack : is_frame_stack_valid (frame_stack (view km_frames y)) = true;
  ku_stack_size : 0 <= max_size_bytes (frame_stack (view km_frames y)) < 2 ^ 64;
  ku_vmm : vmm_inv B U kernel_vmm_address v L (view km_vmm y);
  ku_structure : 0 <= paging_structure v < 2 ^ 64;
  ku_rsdp : PAGE_SIZE <= cached_rsdp (view km_acpi y);
  ku_rsdt : PAGE_SIZE <= get_rsdt (acpi_mem (view km_acpi y)) (cached_rsdp (view km_acpi y));
  ku_tables : forall a, a ∈ rsdt_tables (view km_acpi y) -> PAGE_SIZE <= a;
  ku_madt : cached_madt (view km_acpi y) = madt /\ madt <> NULL;
  ku_heap : heap_inv base cs (view km_heap y);
  ku_cores : 0 <= km_cores y < 2 ^ 64
}.

Lemma kernel_up_same B U v L base cs madt y y' : kernel_up B U v L base cs madt y -> same_parts y y' -> kernel_up B U v L base cs madt y'.
Proof. intros [] (E1 & (E2 & E3) & E4 & E5 & E6 & E7 & E8 & _). split; unfold get_kernel_image in *; rewrite ?E2, ?E3, ?E4, ?E5, ?E6, ?E7, ?E8; done. Qed.

Lemma same_parts_trans y1 y2 y3 : same_parts y1 y2 -> same_parts y2 y3 -> same_parts y1 y3.
Proof. intros (A1 & (A2 & A3) & A4 & A5 & A6 & A7 & A8 & A9) (B1 & (B2 & B3) & B4 & B5 & B6 & B7 & B8 & B9). split_and!; congruence. Qed.

(** The texts, from the components. *)
Definition frequency_text y : list Z := str "PIT frequency: " ++ dec_text (interrupt_frequency (km_pit y)) ++ [newline].
Definition map_text y : list Z := ([newline] ++ line "MEMORY MAP:") ++ concat (map_range_text <$> memory_ranges (view km_boot y)) ++ [newline].
Definition sleep_text : list Z := [newline] ++ line "Sleeping 2s".
Definition usage_line (label : string) (n : Z) : list Z := str label ++ dec_text (n / MB) ++ line " MiB".
Definition paging_overhead y (v : VirtualMemoryManager) : Z :=
  let p := vs_pg (view km_vmm y) in wrap64 (count_map_tables_frames 4 (pmem p) (load64 (pmem p) (paging_structure v)) 0 * PAGE_SIZE).
Definition usage_text y (v : VirtualMemoryManager) : list Z :=
  ([newline] ++ line "-------------------PRINTING MEMORY USAGE-------------------") ++
  usage_line "kernel + bootloader memory overhead: "
    (wrap64 (get_total_usable_RAM_size (view km_boot y) - wrap64 (free_frames (view km_frames y) * PAGE_SIZE))) ++
  usage_line "kernel paging memory overhead: " (paging_overhead y v) ++
  usage_line "kernel frame allocator overhead: " (max_size_bytes (frame_stack (view km_frames y))) ++
  usage_line "kernel heap start size: " KERNEL_HEAP_SIZE ++
  usage_line "kernel heap actual size: " (size (kheap (view km_heap y))) ++
  usage_line "kernel stack size: " KERNEL_STACK_SIZE ++
  usage_line "System Total RAM: " (get_total_usable_RAM_size (view km_boot y)).

Lemma usage_writes label (m : M St Z) y n : fits_queue N (str label) -> writes g N (sys m) y n y [] -> 0 <= n < 2 ^ 64 ->
  writes g N (print_usage label m) y tt y (usage_line label n).
Proof.
  intros Hl Hm Hn. unfold print_usage, usage_line. eapply writes_same.
  { eapply writes_bind; [by apply writes_say|]. eapply writes_bind; [exact Hm|]. eapply writes_bind; [apply writes_dec; [done|unfold MB, KB; lia]|]. write_step idtac. }
  done.
Qed.

Lemma memory_usage_writes B U v L base cs madt y : kernel_up B U v L base cs madt y -> writes g N print_memory_usage y tt y (usage_text y v).
Proof.
  intros K. destruct (total_size_run _ _ _ (ku_heap _ _ _ _ _ _ _ _ K)) as [RH HH]. pose proof (free_frames_run _ (ku_frames _ _ _ _ _ _ _ _ K)) as RF.
  pose proof (frame_overhead_run _ (ku_frames _ _ _ _ _ _ _ _ K) (ku_stack _ _ _ _ _ _ _ _ K)) as RO.
  pose proof (get_total_usable_RAM_size_range (view km_boot y)) as HT.
  assert (RA : writes g N (sys read_overhead) y (wrap64 (get_total_usable_RAM_size (view km_boot y) - wrap64 (free_frames (view km_frames y) * PAGE_SIZE))) y []).
  { apply writes_sys. unfold read_overhead. rewrite (bind_ok _ _ y (get_total_usable_RAM_size (view km_boot y)) y) by done.
    rewrite (bind_ok _ _ y (free_frames (view km_frames y)) y); [done|]. unfold zoom. rewrite RF. by rewrite put_view. }
  assert (RP : writes g N (sys read_paging_overhead) y (paging_overhead y v) y []).
  { apply writes_sys_zoom; [apply _|]. rewrite (bind_ok _ _ _ v (view km_vmm y)) by (unfold read_vmm; by rewrite (vi_vmm _ _ _ _ _ _ (ku_vmm _ _ _ _ _ _ _ _ K))).
    apply zoom_pg_same, paging_overhead_run. }
  assert (HL : forall s, forallb (fun b => (0 <=? b) && (b <? 256)) (str s) && (Z.of_nat (length (str s)) <=? 128) = true -> fits_queue N (str s)) by (intros s; by apply fits_bytes).
  unfold print_memory_usage. eapply writes_same.
  { eapply writes_bind; [write_step idtac|]. eapply writes_bind; [exact RA|].
    do 3 (eapply writes_bind; [write_step ltac:(pose proof (wrap_range 64 (get_total_usable_RAM_size (view km_boot y) - wrap64 (free_frames (view km_frames y) * PAGE_SIZE))); unfold MB, KB; lia)|]).
    eapply writes_bind; [apply usage_writes; [by apply HL|exact RP|unfold paging_overhead; apply wrap_range; lia]|].
    eapply writes_bind; [apply usage_writes; [by apply HL|apply writes_sys_zoom; [apply _|exact RO]|apply K]|].
    eapply writes_bind; [apply usage_writes; [by apply HL|by apply writes_sys|by vm_compute]|].
    eapply writes_bind; [apply usage_writes; [by apply HL|apply writes_sys_zoom; [apply _|exact RH]|exact HH]|].
    eapply writes_bind; [apply usage_writes; [by apply HL|by apply writes_sys|by vm_compute]|].
    apply usage_writes; [by apply HL|by apply writes_sys|exact HT]. }
  unfold usage_text, usage_line. rewrite ?app_nil_l, <-!app_assoc. reflexivity.
Qed.

(** *** The hardware *)

Definition hardware_text y (madt : Z) : list Z :=
  (str "number of logical cores: " ++ dec_text (km_cores y) ++ [newline]) ++
  (if Z.land (madt_flags (acpi_mem (view km_acpi y)) madt) MADT_FLAG_PCAT_COMPATIBLE =? 0 then line "the PC doesnt have PIC" else line "the PC has PIC") ++
  line "KERNEL HEAP OK".

(** A line with 64-bit numbers: literal text before and after each of them. *)
Fixpoint number_items (l : list (string * Z)) (last : list Z) : list item :=
  match l with [] => map Lit last | (s, n) :: l' => lits s ++ U64 n :: number_items l' last end.
Fixpoint number_text (l : list (string * Z)) (last : list Z) : list Z :=
  match l with [] => last | (s, n) :: l' => str s ++ dec_text n ++ number_text l' last end.
Definition literal_ok (b : Z) : bool := (0 <=? b) && (b <? 256) && negb (b =? percent).
Definition literals_ok (l : list (string * Z)) (last : list Z) : bool :=
  forallb literal_ok (concat (map (fun x => str x.1) l) ++ last) && (Z.of_nat (length (concat (map (fun x => str x.1) l) ++ last)) + 21 * Z.of_nat (length l) <=? 128).

Lemma text_number_items l last : text (number_items l last) = number_text l last.
Proof.
  induction l as [|[s n] l IH]; cbn [number_items number_text].
  - unfold text. rewrite map_map. cbn. induction last as [|b last IHl]; [done|]. cbn. by rewrite IHl.
  - rewrite text_app, text_lits. unfold text at 1. cbn [map concat item_text]. fold (text (number_items l last)). by rewrite IH.
Qed.

Lemma dec_text_length n : (length (dec_text n) <= 21)%nat.
Proof. unfold dec_text. rewrite length_app, length_map, length_reverse. pose proof (digits_length 20 10 n). unfold dec_digits. destruct (n =? 0); cbn [length]; lia. Qed.

Lemma literal_ok_range l : forallb literal_ok l = true -> Forall (fun b => 0 <= b < 256) l /\ Forall (fun b => b <> percent) l.
Proof.
  induction l as [|b l IH]; [done|]. cbn [forallb]. intros [Hb Hl]%andb_true_iff. apply IH in Hl as [H1 H2]. unfold literal_ok in Hb. apply andb_true_iff in Hb as [Hb Hc%negb_true_iff%Z.eqb_neq].
  split; constructor; (assumption || lia).
Qed.

Lemma number_text_fits l last : literals_ok l last = true -> fits_queue N (number_text l last).
Proof.
  unfold literals_ok. intros [[HR _]%literal_ok_range HL%Z.leb_le]%andb_true_iff. split.
  - clear HL. induction l as [|[s n] l IH]; [exact HR|]. cbn [number_text]. cbn [map concat fst] in HR. rewrite <-app_assoc in HR. apply Forall_app in HR as [_ HR].
    apply Forall_app. split; [apply str_range|]. apply Forall_app. split; [apply dec_text_range|by apply IH].
  - assert (HL' : Z.of_nat (length (number_text l last)) <= Z.of_nat (length (concat (map (fun x => str x.1) l) ++ last)) + 21 * Z.of_nat (length l)); [|lia].
    clear HL HR. induction l as [|[s n] l IH]; [cbn; lia|]. cbn [number_text map concat fst]. rewrite <-app_assoc, !length_app. rewrite length_app in IH. cbn [length]. pose proof (dec_text_length n). lia.
Qed.

Lemma number_items_ok l last : literals_ok l last = true -> Forall (fun x => 0 <= x.2 < 2 ^ 64) l -> Forall item_ok (number_items l last).
Proof.
  unfold literals_ok. intros [[_ HR]%literal_ok_range _]%andb_true_iff Hn. induction l as [|[s n] l IH]; cbn [number_items].
  - apply Forall_map. eapply Forall_impl; [exact HR|]. done.
  - inversion Hn as [|? ? H1 H2]; subst. cbn [map concat fst] in HR. rewrite <-app_assoc in HR. apply Forall_app in HR as [HS HR]. apply Forall_app. split.
    + unfold lits. apply Forall_map. eapply Forall_impl; [exact HS|]. done.
    + constructor; [exact H1|]. by apply IH.
Qed.

Lemma writes_numbers l last fmt args y :
  literals_ok l last = true -> Forall (fun x => 0 <= x.2 < 2 ^ 64) l -> fmt = formats (number_items l last) -> args = arguments (number_items l last) ->
  writes g N (say_format fmt args) y tt y (number_text l last).
Proof.
  intros Hl Hn Hf Ha. rewrite <-text_number_items. apply writes_printf; [by apply number_items_ok|rewrite text_number_items; by apply number_text_fits|exact Hf|exact Ha].
Qed.

(** Lines printed with their numbers. *)
Ltac write_line l last tac := apply (writes_numbers l last); [vm_compute; reflexivity|tac|reflexivity|reflexivity].

Lemma hardware_writes B U v L base cs madt y : kernel_up B U v L base cs madt y -> writes g N print_hardware y tt y (hardware_text y madt).
Proof.
  intros K. pose proof (ku_cores _ _ _ _ _ _ _ _ K) as Hc. destruct (ku_madt _ _ _ _ _ _ _ _ K) as [EM NM]. apply Z.eqb_neq in NM.
  assert (RM : get_MADT (view km_acpi y) = Ok (madt, view km_acpi y)) by (unfold get_MADT, bind, gets; by rewrite EM, NM).
  set (b := negb (Z.land (madt_flags (acpi_mem (view km_acpi y)) madt) MADT_FLAG_PCAT_COMPATIBLE =? 0)).
  assert (RP : (m <- gets acpi_mem;; madt_has_pic m madt) (view km_acpi y) = Ok (b, view km_acpi y)) by (unfold madt_has_pic, bind, gets; by rewrite NM).
  unfold print_hardware. eapply writes_same.
  { eapply writes_bind; [by apply writes_sys|]. eapply writes_bind; [write_line [("number of logical cores: "%string, km_cores y)] [newline] ltac:(apply Forall_cons_2; [exact Hc|apply Forall_nil_2])|].
    eapply writes_bind; [by apply writes_sys_zoom; [apply _|]|]. eapply writes_bind; [by apply writes_sys_zoom; [apply _|exact RP]|].
    eapply writes_bind; [instantiate (1 := if b then _ else _); destruct b; [write_line (@nil (string * Z)) (line "the PC has PIC") ltac:(apply Forall_nil_2)|write_line (@nil (string * Z)) (line "the PC doesnt have PIC") ltac:(apply Forall_nil_2)]|].
    eapply writes_bind; [apply writes_sys_zoom; [apply _|]; eapply kheap_check_accepts_invariant; apply K|].
    write_line (@nil (string * Z)) (line "KERNEL HEAP OK") ltac:(apply Forall_nil_2). }
  unfold hardware_text, b. cbn [number_text]. by destruct (_ =? 0).
Qed.
(** The first part of [kmain], up to the start of the other processors. *)
Definition late_text y (v : VirtualMemoryManager) (madt : Z) : list Z :=
  usage_text y v ++
  ((line "ACPI table signatures: " ++ [newline]) ++ concat ((fun a => signature_text (table_signature (acpi_mem (view km_acpi y)) a)) <$> rsdt_tables (view km_acpi y))) ++
  hardware_text y madt.
Definition first_text y (v : VirtualMemoryManager) (L : rlist) (madt : Z) : list Z :=
  frequency_text y ++ elf_text (view km_mem y) (get_kernel_image (view km_boot y)) ++ map_text y ++ sleep_text ++ vmm_text v L ++ sleep_text ++ late_text y v madt.

Lemma late_text_same y y' v madt : same_parts y y' -> late_text y' v madt = late_text y v madt.
Proof.
  intros (E1 & (E2 & E3) & E4 & E5 & E6 & E7 & E8 & E9).
  unfold late_text, usage_text, paging_overhead, hardware_text, get_total_usable_RAM_size. by rewrite E2, E4, E5, E6, E7, E8.
Qed.

Lemma first_text_same y y' v L madt : same_parts y y' -> first_text y' v L madt = first_text y v L madt.
Proof.
  intros HS. unfold first_text. rewrite (late_text_same _ _ _ _ HS). destruct HS as (E1 & (E2 & E3) & _ & _ & _ & _ & _ & E9).
  unfold frequency_text, map_text, get_kernel_image. by rewrite E1, E2, E3, E9.
Qed.

Lemma reports_mono {A} (m : M state A) y (P Q : A -> St -> list Z -> Prop) : reports m y P -> (forall a y' l, P a y' l -> Q a y' l) -> reports m y Q.
Proof. intros (a & y' & l & W & HP1) HPQ. exists a, y', l. auto. Qed.

(** A report that reads one part and leaves it alone. *)
Lemma within_bind {T A B} (L : lens St T) {LL : LensLaws L} (m : M (report_state T H D) A) (k : A -> M state B) y a l (P : B -> St -> list Z -> Prop) :
  writes g N m (view L y) a (view L y) l -> reports (k a) y (fun b y2 l2 => P b y2 (l ++ l2)) -> reports (bind (within L m) k) y P.
Proof. intros W HK. apply reports_bind. eapply reports_writes; [by apply writes_within_same|exact HK]. Qed.

Lemma frequency_writes b y : timer_runs b y -> writes g N print_PIT_frequency y tt y (frequency_text y).
Proof.
  intros [_ _ _ Hf _]. unfold print_PIT_frequency, frequency_text. eapply writes_bind; [write_step idtac|]. eapply writes_same; [eapply writes_bind; [by apply writes_sys|]|reflexivity].
  unfold PIT_FREQ_HZ in Hf. repeat write_step ltac:(unfold get_PIT_real_frequency; lia).
Qed.

(** *** The timer and the handlers *)

(** A change of the timer's part only. *)
Lemma timer_parts y t : quiet (view km_timer y) t -> interrupt_frequency (the_pit t) = interrupt_frequency (km_pit y) -> same_parts y (put km_timer t y).
Proof.
  intros Q Ef. destruct (layout_timer t y Q) as (E1 & E2 & E3 & E4 & E5 & E6). destruct Q as [Q _].
  unfold same_parts, km_cores, km_pit, km_acpi. cbn [view lens_comp] in *. rewrite E1, E2, E3, E4, E5, E6, view_put. cbn [view lens_comp]. by split_and!.
Qed.

(** An entry of the tables of handlers is set. *)
Lemma install_step b y (m : M (int_state V Hp) unit) hs d :
  timer_runs b y -> length hs = 256%nat -> m (km_int y) = Ok (tt, set_tables hs (extra_data_array (km_int y)) d (km_int y)) ->
  wp (zoom km_timer (zoom int_lens m)) y (fun _ y' => timer_runs b y' /\ same_parts y y' /\ handlers (km_int y') = hs /\ default_handler (km_int y') = d /\
    extra_data_array (km_int y') = extra_data_array (km_int y)).
Proof.
  intros [T1 T2 T3 T4 T5] Hl Rm. unfold km_int in *. set (t := PitState (set_tables hs (extra_data_array (pt_int (view km_timer y))) d (pt_int (view km_timer y))) (the_pit (view km_timer y))).
  eapply wp_of_run with (a := tt) (s' := put km_timer t y); [unfold zoom; cbn [view int_lens]; by rewrite Rm|].
  assert (Q : quiet (view km_timer y) t) by (by split). split; [|split; [by apply timer_parts|]]; unfold km_int, km_pit; [split|]; unfold km_int, km_pit; rewrite ?view_put; try done.
Qed.

Lemma map_writes B U v L base cs madt b y : kernel_up B U v L base cs madt y -> timer_runs b y ->
  reports (within km_boot print_memory_map) y (fun _ y' l => (timer_runs b y' /\ same_parts y y' /\ view km_timer y' = view km_timer y) /\ l = map_text y).
Proof.
  intros K T. destruct (get_memory_map_ranges (view km_boot y) (ku_map _ _ _ _ _ _ _ _ K)) as (b' & R1 & E1 & E2).
  eapply reports_writes; [apply writes_within, (print_memory_map_writes g N HN _ b' _ R1), K|]. split; [|done].
  destruct (layout_boot b' y) as (A1 & A2 & A3 & A4 & A5 & A6). split_and!; [| |exact A5].
  - destruct T. split; unfold km_int, km_pit in *; by rewrite ?A5.
  - unfold same_parts, km_cores, km_pit, km_acpi. cbn [view lens_comp]. rewrite A1, A2, A3, A4, A5, A6, view_put. by split_and!.
Qed.

(** Waiting two seconds adds the ticks of two seconds and of at most one sleep. *)
Context (ticks : nat -> nat -> Z) (traffic : nat -> nat -> history) (fuel : nat).
Hypothesis some_ticks : forall i j, 1 <= ticks i j <= 1000.
Hypothesis enough_fuel : (Z.to_nat (2000 * PIT_FREQ_HZ) < fuel)%nat.

Lemma sleep_reports i b y : timer_runs b y -> b <= 2 ^ 59 + 2 ^ 24 ->
  reports (sleep_2s ticks traffic fuel i) y (fun _ y' l =>
    (timer_runs (b + 2 ^ 23) y' /\ same_parts y y' /\ handlers (km_int y') = handlers (km_int y) /\ default_handler (km_int y') = default_handler (km_int y)) /\ l = sleep_text).
Proof.
  intros [T1 T2 T3 T4 T5] Hb. unfold sleep_2s. apply reports_bind. eapply reports_writes; [write_step idtac|]. apply reports_bind. eapply reports_writes; [apply writes_flush|].
  apply reports_sys. unfold km_pit, km_int, PIT_FREQ_HZ in *.
  destruct (PIT_wait_ms_run (ticks i) (traffic i) (view km_timer y) 2000 fuel) as (n & m & t & R1 & E1 & E2 & E3); try lia; [by apply some_ticks|done|].
  eapply wp_of_run with (a := tt) (s' := put km_timer t y); [unfold zoom; by rewrite R1|].
  assert (Q : quiet (view km_timer y) t) by (unfold quiet; cbn [view lens_comp pit_lapic int_lens]; rewrite E1; by split).
  split; [|done]. split_and!; [|apply timer_parts; [exact Q|unfold km_pit; by rewrite E2]|by rewrite view_put, E1|by rewrite view_put, E1].
  split; unfold km_int, km_pit; rewrite view_put, ?E2; cbn [tick_counter interrupt_frequency set_ticks]; try (rewrite E1; exact T1 || exact T2).
  - unfold pit_if, pit_lapic. cbn [view lens_comp int_lens]. rewrite E1. exact T3.
  - exact T4.
  - lia.
Qed.

(** C40: On a kernel whose components satisfy their invariants, with the timer
    running and no interrupt but the timer's arriving during the two waits, kmain up to
    the start of the other processors returns with the two handlers installed and the
    components as they were, having written on the console the frequency of the timer,
    the image, the memory map, the regions of the manager, the memory usage read from
    the components, the firmware tables, the number of processors and the state of the
    heap, in this order. *)
Theorem kmain_reports_components a1 a2 B U v L base cs madt y :
  kernel_up B U v L base cs madt y -> timer_runs (2 ^ 59) y ->
  exists y', writes g N (kmain_reports a1 a2 ticks traffic fuel) y tt y' (first_text y v L madt) /\ same_parts y y' /\
    default_handler (km_int y') = a1 /\ handlers (km_int y') = <[13%nat := a2]> (handlers (km_int y)).
Proof.
  intros K0 T0.
  cut (reports (kmain_reports a1 a2 ticks traffic fuel) y (fun _ y' l => l = first_text y v L madt /\ same_parts y y' /\
    default_handler (km_int y') = a1 /\ handlers (km_int y') = <[13%nat := a2]> (handlers (km_int y)))).
  { intros ([] & y' & l & W & -> & P1). by exists y'. }
  unfold kmain_reports. apply reports_bind, reports_sys. eapply wp_mono.
  { eapply (install_step _ y _ (handlers (km_int y)) a1 T0 (tm_table _ _ T0)). apply (int_locked_run (fun s => (tt, set_tables (handlers s) (extra_data_array s) a1 s))); [apply T0|reflexivity|reflexivity|apply T0]. }
  intros _ y1 (T1 & S1 & H1 & D1 & X1). apply reports_bind, reports_sys. eapply wp_mono.
  { eapply (install_step _ y1 _ (<[13%nat := a2]> (handlers (km_int y1))) (default_handler (km_int y1)) T1); [rewrite length_insert; apply T1|].
    apply (int_locked_run (fun s => (tt, set_tables (<[13%nat := a2]> (handlers s)) (extra_data_array s) (default_handler s) s))); [apply T1|reflexivity|reflexivity|apply T1]. }
  intros _ y2 (T2 & S2 & H2 & D2 & X2). pose proof (same_parts_trans _ _ _ S1 S2) as S2'. rewrite <-(first_text_same _ _ v L madt S2').
  pose proof (kernel_up_same _ _ _ _ _ _ _ _ _ K0 S2') as K2. rewrite <-H1, <-H2, <-D1, <-D2.
  clear K0 T0 T1 S1 H1 D1 X1 S2 H2 D2 X2.
  apply reports_bind. eapply reports_writes; [by eapply frequency_writes|]. apply reports_bind, reports_sys, wp_gets.
  eapply within_bind; [apply _|apply print_elf_info_writes; [done|apply K2]|].
  apply reports_bind. eapply reports_mono; [by eapply map_writes|]. intros _ y3 l3 [(T3 & S3 & E3) ->].
  apply reports_bind. eapply reports_mono; [apply (sleep_reports 0 _ y3 T3); lia|]. intros _ y4 l4 [(T4 & S4 & H4 & D4) ->]. pose proof (same_parts_trans _ _ _ S3 S4) as S4'.
  pose proof (kernel_up_same _ _ _ _ _ _ _ _ _ K2 S4') as K4.
  eapply within_bind; [apply _|eapply debug_print_vmm_lists_regions; [done|apply K4|apply K4]|].
  apply reports_bind. eapply reports_mono; [apply (sleep_reports 1 _ y4 T4); lia|]. intros _ y5 l5 [(T5 & S5 & H5 & D5) ->]. pose proof (same_parts_trans _ _ _ S4' S5) as S5'.
  pose proof (kernel_up_same _ _ _ _ _ _ _ _ _ K2 S5') as K5.
  apply reports_bind. eapply reports_writes; [by eapply memory_usage_writes|].
  eapply within_bind; [apply _|apply print_acpi_rsdt_writes; [done|apply K5..]|].
  eapply reports_writes; [by eapply hardware_writes|]. split_and!.
  - unfold first_text. rewrite <-(late_text_same _ _ v madt S5'). unfold late_text. rewrite !app_nil_l. reflexivity.
  - by eapply same_parts_trans.
  - rewrite D5, D4. unfold km_int. by rewrite E3.
  - rewrite H5, H4. unfold km_int. by rewrite E3.
Qed.
End kmain_writes.
