(* ===== verification/KinitRuns.v ===== *)
(** * The start of the kernel on concrete machines

    For the set-up of virtual memory: 64 MB of RAM, the boot loader's tables with
    one empty root, and a kernel image of one segment.  For [kmain]: the components of
    the other examples. *)

From S2P Require Import Prelude Memory Sync Interfaces Heap HeapRegion HeapChunks HeapProvider BootMem FrameAllocator Paging PagingInv PagingTop PagingCreate PagingRuns Vmm VmmInv VmmCut VmmMap VmmOps VmmTop VmmFault VmmRuns VmmInit Elf Kinit KinitTop.
Import Sequential.

(** A header and one program header, at 8 MB. *)
Definition image_at : Z := 0x800000.
Definition image_memory : mem :=
  store_le 4 (store_le 1 (store_le 1 (store_le 1 (store_le 4 (store_le 8 (store_le 2 (store_le 2
    (store_le 4 (store_le 4 (store_le 8 (store_le 8 ∅
      (image_at + 104) 0x3456) (image_at + 80) 0xffff800000100000) (image_at + 68) 6) (image_at + 64) 1)
      (image_at + 56) 1) (image_at + 54) 56) (image_at + 32) 64) (image_at + 20) 1) (image_at + 6) 1) (image_at + 5) 1) (image_at + 4) 2) image_at 0x464c457f.

Definition boot_frames : frame_state :=
  MkFrameState image_memory true true small_boot true [MkRange 0x1000000 0x400000] (MkFrameStack 0x200000 0x200000 0x2000) 0 1024 false.

Definition boot_map : boot_state := MkBoot (MkBootData [MkItem 0x100000 0x3f00000 1 1; MkItem 0 0x9fc00 1 1; MkItem 0x9fc00 0x60400 2 1] 0x1000000 0x100000 image_at) None None None.

Definition boot_machine : setup_state frame_state (heap_state HeapRegion.region) unit :=
  SetupState (VmmState (PgState boot_frames [] 0x400000) no_heap tt false ∅ slots 0 ∅ idle None None) boot_map.

Definition boot_levels : gmap Z nat := {[ 0x400000 := 4%nat ]}.
Definition boot_segments : list ElfLoadedSegment := [MkSegment false true true 0xffff800000100000 0x3456].
Definition boot_ram : list PhysicalMemoryRange := [MkRange 0 0x9f000; MkRange 0x100000 0x3f00000].

Lemma boot_frames_range f : f ∈ frames boot_frames -> 0x1000000 <= f < 0x1400000 /\ f mod PAGE_SIZE = 0.
Proof.
  intros Hf. change (frames boot_frames) with (ranges_frames [MkRange 0x1000000 0x400000]) in Hf.
  unfold ranges_frames in Hf. cbn [fmap list_fmap concat] in Hf. rewrite app_nil_r in Hf.
  unfold range_frames in Hf. apply list_elem_of_fmap in Hf as (n & -> & Hn%elem_of_seq).
  cbn [start_address range_size] in *. unfold PAGE_SIZE in *. change (Z.to_nat (0x400000 / 4096)) with 1024%nat in Hn. lia.
Qed.

Lemma boot_provider_ok : provider_ok boot_frames.
Proof.
  exists (frames boot_frames). split_and!; [|reflexivity..|].
  - split.
    + split; cbn; lia.
    + repeat constructor; unfold PAGE_SIZE; cbn; lia.
    + cbn. lia.
    + apply (bool_decide_unpack _). by vm_compute.
    + intros f Hf. exact Hf.
    + intros f Hf%boot_frames_range. lia.
    + by vm_compute.
    + by vm_compute.
  - intros f Hf%boot_frames_range. unfold page_clear, stack_area. cbn. unfold PAGE_SIZE in *. lia.
Qed.

Lemma boot_owned f : 0x400000 <= f < 0x1000000 -> provider_owned boot_frames f.
Proof. intros Hf. split; [intros HF%boot_frames_range; lia|]. unfold page_clear, stack_area. cbn. lia. Qed.

(** Nothing is stored below the image. *)
Lemma image_low a : a < image_at -> load8 image_memory a = 0.
Proof.
  intros Ha. assert (HM : map_Forall (fun k _ => image_at <= k) image_memory) by (apply (bool_decide_unpack _); by vm_compute).
  unfold load8. destruct (image_memory !! a) eqn:E; [|done]. apply HM in E. lia.
Qed.

Lemma boot_zero i : 0 <= i < 512 -> load64 image_memory (0x400000 + 8 * i) = 0.
Proof.
  intros Hi. rewrite <-(load64_empty (0x400000 + 8 * i)). apply (load_le_ext 8). intros c Hc. rewrite image_low by (unfold image_at; lia). reflexivity.
Qed.

Lemma boot_levels_inv f k : boot_levels !! f = Some k -> f = 0x400000 /\ k = 4%nat.
Proof. unfold boot_levels. by intros [<- <-]%lookup_singleton_Some. Qed.

Lemma boot_tables : table_base boot_levels (vs_pg (su_vmm boot_machine)).
Proof.
  split; [exact boot_provider_ok| |].
  - change (pmem (vs_pg (su_vmm boot_machine))) with image_memory. split.
    + intros f k [-> ->]%boot_levels_inv. unfold PAGE_SIZE. split_and!; (reflexivity || lia).
    + intros f k i [-> _]%boot_levels_inv Hi. rewrite (boot_zero i Hi). discriminate.
    + intros f k i f' k' i' [-> _]%boot_levels_inv _ Hi _. rewrite (boot_zero i Hi). discriminate.
  - intros f k [-> _]%boot_levels_inv. apply boot_owned. lia.
Qed.

Lemma boot_image : kernel_image_ok boot_levels (vs_pg (su_vmm boot_machine)) image_at 120 boot_segments.
Proof.
  split.
  - split; [by vm_compute|]. change (pmem (vs_pg (su_vmm boot_machine))) with image_memory.
    assert (E : e_phnum (read_ElfHeader image_memory image_at) = 1 /\ e_phoff (read_ElfHeader image_memory image_at) = 64 /\ e_phentsize (read_ElfHeader image_memory image_at) = 56)
      by (by vm_compute). destruct E as (-> & -> & ->). lia.
  - intros a Ha. exists image_at. unfold image_at, PAGE_SIZE in *. split; [apply boot_owned; lia|]. split; [reflexivity|]. split; [reflexivity|lia].
  - by vm_compute.
  - by vm_compute.
  - by vm_compute.
  - split; [|split; [constructor|exact I]]. split; by vm_compute.
Qed.

Lemma setup_virtual_memory_correct_witness :
  exists s' root, setup_virtual_memory KVMM boot_machine = Ok (tt, s') /\ pg_cr3 (vs_pg (su_vmm s')) = root /\
    translate 4 (pmem (vs_pg (su_vmm s'))) root 0x200123 = MkMapState 0x200000 3 true /\
    translate 4 (pmem (vs_pg (su_vmm s'))) root 0x123 = mmap_not_present.
Proof.
  destruct (setup_virtual_memory_correct KVMM boot_levels ∅ [] boot_machine boot_ram (MkBoot (boot_data boot_map) (Some boot_ram) None None) 120 boot_segments)
    as (s' & root & B' & U' & v & L & lv' & R & _ & _ & _ & _ & E & T).
  - split; [by vm_compute|by vm_compute|by intros p ?%elem_of_nil|reflexivity].
  - split; [reflexivity|by vm_compute].
  - reflexivity.
  - by vm_compute.
  - exact boot_tables.
  - by vm_compute.
  - by vm_compute.
  - repeat constructor; by vm_compute.
  - exact boot_image.
  - by vm_compute.
  - exists s', root. split; [exact R|]. split; [exact E|]. split; rewrite T; by vm_compute.
Defined.

(** ** The main function on a machine of three processors

    The components of the examples side by side. *)

From S2P Require Import HeapSpec HeapRuns Bus Acpi Madt Shootdown Apic Ioapic Interrupts Pit Cpu Display Psf PsfTop Vbe Kio KioScreen KioText KioTop KioVbe KioRuns DriverRuns Panic Report Kmain.
#[local] Open Scope kernel_scope.

#[local] Existing Instances DriverRuns.window_mapping DriverRuns.quiet_device DriverRuns.plain_processor.

Record small_kernel : Type := SmallKernel {
  sk_mem : mem; sk_boot : boot_state; sk_frames : frame_state; sk_vmm : VmmRuns.machine; sk_heap : heap_state HeapRegion.region;
  sk_timer : pit_state Z (heap_state HeapRegion.region); sk_cpus : cpu_state HeapRegion.region
}.

#[export] Instance small_parts : KernelParts small_kernel frame_state (heap_state HeapRegion.region) unit Z (heap_state HeapRegion.region) HeapRegion.region HeapRegion.region := {|
  km_mem := Lens sk_mem (fun x k => SmallKernel x (sk_boot k) (sk_frames k) (sk_vmm k) (sk_heap k) (sk_timer k) (sk_cpus k));
  km_boot := Lens sk_boot (fun x k => SmallKernel (sk_mem k) x (sk_frames k) (sk_vmm k) (sk_heap k) (sk_timer k) (sk_cpus k));
  km_frames := Lens sk_frames (fun x k => SmallKernel (sk_mem k) (sk_boot k) x (sk_vmm k) (sk_heap k) (sk_timer k) (sk_cpus k));
  km_vmm := Lens sk_vmm (fun x k => SmallKernel (sk_mem k) (sk_boot k) (sk_frames k) x (sk_heap k) (sk_timer k) (sk_cpus k));
  km_heap := Lens sk_heap (fun x k => SmallKernel (sk_mem k) (sk_boot k) (sk_frames k) (sk_vmm k) x (sk_timer k) (sk_cpus k));
  km_timer := Lens sk_timer (fun x k => SmallKernel (sk_mem k) (sk_boot k) (sk_frames k) (sk_vmm k) (sk_heap k) x (sk_cpus k));
  km_cpus := Lens sk_cpus (fun x k => SmallKernel (sk_mem k) (sk_boot k) (sk_frames k) (sk_vmm k) (sk_heap k) (sk_timer k) x);
  kernel_vmm_address := KVMM
|}.

#[export] Instance small_layout : KernelLayout small_kernel frame_state (heap_state HeapRegion.region) unit Z (heap_state HeapRegion.region) HeapRegion.region HeapRegion.region.
Proof. split; [(split; [reflexivity|by intros []|reflexivity])..|by intros b y y'; split_and!|by intros t y _ y'; split_and!]. Qed.

Definition small_timer : pit_state Z (heap_state HeapRegion.region) :=
  put (lens_comp pit_lapic acpi_lens) (AcpiState 0 (firmware madt_bytes) 0xe0010 NULL 0x11000) (PitState idle_interrupts (MkPIT false 5 1000 0x41 0 true false)).
Definition small_cpus : cpu_state HeapRegion.region := CpuState (hs_vmm heap0) (MkGlobalCPU 0 [] 0 [] 0 [] 3 0 invalid_handle) [] true 0.

Definition kernel0 : small_kernel := SmallKernel image_memory boot_map demo_frames VmmRuns.demo heap0 small_timer small_cpus.

Lemma kernel0_up : kernel_up ∅ (ptrs demo_list) demo_manager demo_list base chunks0 0x11000 kernel0.
Proof.
  split.
  - by vm_compute.
  - by vm_compute.
  - assert (E : forallb (fun r => (0 <=? mm_start r) && (mm_start r <? 2 ^ 64)) (memory_ranges boot_map) = true) by (vm_compute; reflexivity).
    apply Forall_forall. intros r Hr. rewrite forallb_forall in E. specialize (E r). rewrite <-list_elem_of_In in E. specialize (E Hr). lia.
  - reflexivity.
  - reflexivity.
  - by vm_compute.
  - exact demo_vmm_inv.
  - by vm_compute.
  - by vm_compute.
  - by vm_compute.
  - assert (E : rsdt_tables (view km_acpi kernel0) = [0x11000]) by (vm_compute; reflexivity). rewrite E. by intros a ->%list_elem_of_singleton.
  - by split.
  - exact heap0_inv.
  - by vm_compute.
Qed.

Lemma console_ready : ready demo_geometry 256 (abs KioRuns.demo) KioRuns.demo.
Proof. exists []. split_and!; [split; [apply demo_console_inv|apply demo_vbe]|apply demo_geometry_of|reflexivity|reflexivity|cbn; lia|reflexivity]. Qed.

Lemma kmain_reports_components_witness :
  exists k c, kmain_reports 0x100000 0x100100 (fun _ _ => 1) (fun _ _ => []) (Z.to_nat (2000 * PIT_FREQ_HZ + 1)) (Rep kernel0 KioRuns.demo) = Ok (tt, Rep k c) /\
    ready demo_geometry 256 (term_write demo_geometry (abs KioRuns.demo) (first_text kernel0 demo_manager demo_list 0x11000)) c /\
    default_handler (km_int k) = 0x100000.
Proof.
  destruct (kmain_reports_components (H := unit) (D := vbe_state unit) demo_geometry 256 ltac:(lia) (fun _ _ => 1) (fun _ _ => []) (Z.to_nat (2000 * PIT_FREQ_HZ + 1))
    ltac:(lia) ltac:(unfold PIT_FREQ_HZ; lia) 0x100000 0x100100 ∅ (ptrs demo_list) demo_manager demo_list base chunks0 0x11000 kernel0)
    as (k & W & _ & E & _).
  - exact kernel0_up.
  - split; try reflexivity; by vm_compute.
  - destruct (W _ _ console_ready) as (c & R & HR). exists k, c. split; [exact R|]. split; [exact HR|exact E].
Defined.
